(* ===== verification/_CoqProject ===== *)
-Q . S2P
Prelude.v
Wire.v
P2P.v
P2PSend.v
Reassembly.v
Delivery.v
Ids.v
Scheduler.v
Streams.v
Catalog.v
Session.v
Text.v
Output.v
DeviceStream.v
Agent.v
Gateway.v
Points.v
Thinking.v
LlamaServer.v
Stun.v
Downloader.v
PeerServe.v
Relay.v
Heartbeats.v
LlamaEngine.v
Generate.v
Mobile.v
Worker.v
WorkerFacts.v
Api.v
Reports.v
MobileTls.v
Config.v
SdkWorker.v
SdkFacts.v
ModelSwap.v
SwapFacts.v
AndroidSdk.v
AndroidFacts.v
RemoteWorker.v
RemoteFacts.v
Vision.v
VisionFacts.v
VisionText.v
PhoneEngine.v
Tunnel.v
