(* ===== verification/Prelude.v ===== *)
(** * GPUFabric: a verification library

    GPUFabric shares GPUs between machines. A device runs the worker [gpuf-c]; it keeps a
    control connection to the server [gpuf-s], executes inference tasks and streams the
    text it generates back. The server authenticates HTTP users, picks a device of theirs,
    sends it the task and turns its result chunks into an HTTP answer. It also proxies whole
    TCP connections to a device and introduces two devices to each other, which then talk
    over an authenticated UDP data plane. The crate [common] holds the protocol both speak.

    ** Files, and the code they model

    - [Prelude] (this file): bytes, machine integers, big-endian numbers, the [result]
      monad, substring search, sums over finite maps; notations in [bytes_scope], the hint
      database [gpuf] and the tactics all files use.
    - [Wire] ([common/src/lib.rs]): [Command] and its payloads, the packing of per-device
      numbers into one integer (module [Lanes]), length-prefixed frames (module [Framing]).
    - [P2P] ([gpuf-c/src/handle/handle_udp.rs]): packet header and MAC inputs ([Packet]), the
      replay window ([Replay]), signed envelopes of the TCP path ([Envelope]), the commands
      inside datagrams ([Datagram]).
    - [P2PSend] (same source): cutting a payload into fragments and sending each one until
      it is acknowledged.
    - [Reassembly] (same source, and the receive step of [handle_tcp.rs]):
      [P2PUdpReassemblyState] with its limits and source bans. [Delivery] holds the
      end-to-end theorems about it.
    - [Ids] ([gpuf-s/src/util]: [protoc.rs], [policy.rs], [pack.rs]): identifiers, access
      levels, the pool of request buffers.
    - [Scheduler] ([gpuf-s/src/inference/scheduler.rs], the shared state of
      [gpuf-s/src/handle/mod.rs]): device selection, dispatch, results, chunks, cancellation.
      [Streams] holds the theorems about dispatch, result routing and interleavings.
    - [Catalog] ([gpuf-s/src/db/models.rs], [client.rs]): model recommendation and the cached
      check of a client.
    - [Session] ([gpuf-s/src/handle/handle_connections.rs]): the command loop of a control
      connection and its handlers (login, heartbeat, status, results, P2P signalling).
    - [Text]: UTF-8 validation and the [str] methods the code uses.
    - [Output] ([gpuf-c/src/lib.rs], [gpuf-c/src/handle/handle_tcp.rs]): the UTF-8 output
      buffer ([Emit]), the control-token filter ([Filter]), the analysis/final splitter
      ([Phase]), model ids ([ModelId]).
    - [DeviceStream] ([handle_tcp.rs], [stream_inference_task_to_server]): the loop that
      turns generated pieces into chunks, composed with [Scheduler].
    - [Agent] ([gpuf-s/src/handle/handle_agent.rs]): a public request is read, authenticated
      and parked until the chosen device opens a proxy connection for it.
    - [Gateway] ([gpuf-s/src/inference/gateway.rs], [handlers.rs]): token authentication, the
      completion and chat handlers, stop markers, server-sent events.
    - [Points] ([gpuf-s/src/points_sync/mod.rs]): the worker that turns settled points of a
      user's devices into credits of an external service, with its sync table.
    - [Thinking] ([gpuf-c/src/llm_engine/anthropic_server.rs]): the incremental splitter of
      thinking tags, the splitter of whole answers, the events of a message stream.
    - [LlamaServer] ([llama_server.rs], [anthropic_server.rs], [util/security_metrics.rs] of
      [gpuf-c]): the HTTP servers of a device: configuration, key check, admission, prompt
      templates, content filter, permits, answers and event streams, as a transition system.
    - [Stun] ([handle_udp.rs], the TURN part of [handle_tcp.rs]): STUN messages and their
      attributes, public address discovery, TURN allocation, permissions, relayed data, the
      relayed sender, the control loop of TURN over TLS.
    - [Downloader] ([gpuf-c/src/util/model_downloader.rs]): checks, size query, division into
      chunks, parallel and sequential download, resuming, assembling and verification, over
      a store of files.
    - [PeerServe] ([handle_tcp.rs]): answering a peer over TCP ([serve_p2p_io_with_engine])
      and the answers the UDP and TURN tasks send.
    - [Relay] ([handle_tcp.rs]): the task that serves a peer through a TURN relay, composed
      of [Stun], [Reassembly] and [PeerServe].
    - [Heartbeats] ([gpuf-s/src/consumer], [gpuf-s/src/db/stats.rs], the main of
      [heartbeat_consumer.rs], [scripts/device_points_daily_incremental.sql]): batching of the
      heartbeat topic, the transaction that records one, daily statistics of clients and
      devices, the sweep of silent clients, and the daily points that [Points] reads.

    - [LlamaEngine] ([gpuf-c/src/llm_engine/llama_engine.rs], [ModelStatusInfo] of
      [gpuf-c/src/lib.rs]): the embedded engine as a state machine: validation of model paths,
      loading and caching, its operations and status. [Generate] (same source): the sampler
      chain, the generating loop and the streaming loop.
    - [Mobile] ([gpuf-c/src/lib.rs]): the generation interface of the mobile SDK: memory pool,
      background loading, chunked prefill and token loops over llama.cpp's C functions.
    - [Worker] ([handle_tcp.rs], [handle/mod.rs], [main.rs]): the worker process: start and
      reconnection, login, reports, and the command loop, which calls [LlamaEngine],
      [Generate], [DeviceStream], [Downloader] and [Stun]. [WorkerFacts] holds its theorems.
    - [Api] ([gpuf-s/src/api_server]: [apk.rs], [models.rs], [client.rs]; [db/apk.rs],
      [db/models.rs], [db/client.rs], [db/stats.rs]): the administration routes: package
      versions, the model catalogue that [Catalog] reads, registering and editing the clients
      that [Catalog] validates, the progress of downloads that [Session] records.
    - [Reports] (same directories, [points.rs]): the reports: pages of points over the table
      of [Heartbeats], and list, detail, summary, monitor and heartbeats of a user's clients.
    - [MobileTls] ([gpuf-c/src/util/mobile_tls_policy.rs], [mobile_control_stream.rs], its C
      entry point in [lib.rs]): the TLS policy of a phone's control connection.
    - [Config] ([gpuf-c/src/util]: [cmd.rs], [config.rs], [safe_command.rs]): command line and
      configuration file, the compose file, the runner of external commands.
    - [SdkWorker] ([gpuf-c/src/handle/worker_sdk.rs]): the worker inside a phone's app: the
      state behind its statics, login, the heartbeat and command threads as steps on that
      state, reading with a timeout, tasks and their token callback. It calls [Mobile] and
      [MobileTls]. [SdkFacts] holds its theorems, in terms of [Session] and [Streams].
    - [ModelSwap] ([set_remote_worker_model] and the model pointers of [lib.rs],
      [jni_llama.rs]): loading, replacing and using the phone's model, each call whole and cut
      into steps that interleave, over an explicit heap of llama.cpp's objects. [SwapFacts].
    - [AndroidSdk] ([gpuf-c/src/handle/android_sdk.rs]): the Android variant of the worker:
      a thread for each task, heartbeats on connections of their own, suppression of tokens,
      prompts, the figures of [/proc]. It shares the streams of [SdkWorker]. [AndroidFacts].
    - [RemoteWorker] (the exports of [lib.rs], [jni_remote_worker.rs]): what an app calls to
      start, stop and query the worker, over the class [Platform], whose laws [SdkWorker] and
      [AndroidSdk] are shown to keep in [RemoteFacts].
    - [Vision] (the multimodal exports of [lib.rs]): loading a model with its projector,
      contexts, generating from a prompt and an image into a buffer or through callbacks, and
      freeing, over an explicit heap of the objects the calls create; the token loop is that of
      [Mobile]. [VisionFacts]: what is leaked and that nothing dangles; [VisionText]: the
      texts. [PhoneEngine] ([lib.rs], [jni_llama.rs]): starting and stopping the engine and the
      Java functions that generate, over [ModelSwap], [Mobile] and [Vision].

    A file [X] or module [X] with definitions is followed by [XFacts] or by a second file
    with its theorems; names of definitions are those of the source.

    ** How the code is modelled

    Bytes are [Byte.byte]; strings are their UTF-8 bytes; an integer is a [Z] with the
    wrap-around, saturation or truncation of its type written out. Structures are records,
    enums inductive types, [HashMap]s [gmap]s; where the code iterates over a [HashMap] the
    order is an argument, any enumeration of the map. Fallible code returns [result]. State
    under a lock is passed explicitly, a critical section being one step: a scheduler method
    is one step, except [execute_inference], which releases its lock twice and is three
    steps. A channel is the log of what was sent on it. Every read of a clock, a random
    number or an environment variable is an argument.

    Code outside the repository is a parameter: [bincode] ([Wire.Framing.Codec], with the
    round trip [CodecLaws]), HMAC-SHA256 ([P2P.Mac], nothing assumed but, where lengths matter,
    that a tag has 32 bytes), [hex] ([Ids.Hex], [HexLaws]), the HTTP, JSON and search crates
    ([Agent.HttpCrates], [HttpCratesLaws]), HMAC-SHA1, base64 and float printing in
    [Session], the allocator in [Ids.Pool], the credit service ([Points.CreditService], whose
    laws say that it grants a number once and nothing when it refuses), MD5, HMAC-SHA1 and
    CRC-32 ([Stun.StunCrypto], laws: the sizes of the last two), SHA-256 in [Downloader],
    the URL parser, case folding of Unicode and the text of HTTP headers, the file system's
    path resolution, the HTTP server a model is downloaded from (any replies), double precision
    in [Heartbeats.Float] (exact rationals where a theorem speaks of means), llama.cpp: how it
    parses a model file ([LlamaEngine.EngineEnv]), its tokenizer, decoder and sampler
    ([Generate.LlamaCpp], and with raw buffers [Mobile.Llama], whose laws say that counts and
    buffers agree). Further parameters are the database's ILIKE, its parser of dates and its
    decimal arithmetic in [Reports], the printing and parsing of a float in [Api], the PEM
    reader and the path validation of the TLS library in [MobileTls], the parsers of TOML and of
    the command line and what a spawned process does at each poll in [Config]. A phone's
    connections are given by what connecting answers, the bytes that arrive with the timeouts
    between them and which writes fail ([SdkWorker.Net]); [SdkWorker.Phone] and
    [AndroidSdk.Droid] hold what the phone has of llama.cpp, with its chat templates,
    [AndroidSdk.Proc] the files of [/proc]; in [ModelSwap] every load answers whether it
    succeeded, and in [Vision] libmtmd is what tokenising and evaluating a request answer and
    how many bytes a bitmap takes ([Vision.Mtmd]), with which constructors return null given
    for each call. Where the engine itself is not the subject it is the sequence of pieces
    it yields; sockets are the events they report, [WriterEnv] saying whether a device's socket is busy
    or broken.

    ** What the theorems show

    - Answers: the text generated on a device reaches the HTTP stream unchanged up to the
      documented filtering ([DeviceStream.answer_reaches_client]), through lossless UTF-8
      emission, phase splitting, chunking, chunk routing and event translation, each with
      its own theorem; the stop filter never lets a marker through.
    - Isolation: a request is sent to one authenticated device its token allows, or to none
      ([Gateway], [Agent]); login, signalling and validation gates ([Session], [Catalog]).
    - Scheduling: the least loaded eligible device is chosen; under every interleaving of
      scheduler steps a call is answered at most once and a stream gets nothing after its
      end ([Streams], rule induction over a step relation).
    - Data plane: what is authenticated determines its fields, replays are refused, envelopes
      are checked, fragments are delivered exactly once in any order, memory is bounded in
      every reachable state, senders give up ([P2P], [P2PSend], [Reassembly], [Delivery]).
    - Credits: whatever happens between runs, the service has granted exactly what the sync
      table says, no user more than the settled points were worth, and a run without failures
      settles ([Points], an invariant of the table kept by every statement).
    - Peer answers: a peer decodes what a session writes to the engine's filtered text with
      its phases; over UDP and TURN the chunks are numbered, bounded and complete; frames
      that do not authenticate change nothing ([PeerServe]); the relay task stays within its
      limits in every reachable state ([Relay]).
    - STUN and TURN: messages, addresses and relayed data round-trip, the two parsers of
      mapped addresses agree, allocation completes against a server that challenges, the
      control loop binds what is announced, the relayed sender ends ([Stun]).
    - Local servers: only admitted requests reach the engine, permits bound what runs under
      every interleaving, a filtered stream is cut where the filter objects ([LlamaServer]);
      splitting the stream of an answer is scanning the whole answer, and its events follow
      the block protocol ([Thinking]).
    - Downloads: only a verified file is ever installed; interrupted attempts resume until
      one delivers everything; the chunks tile the file ([Downloader]).
    - Statistics: the daily rows are the counts and means they are named after whatever fails,
      repeated messages count once, no device earns more than the hours of a day, which bounds
      the credit target of [Points]; which device lists are recorded at all ([Heartbeats]).
    - Engine: whatever is called, an initialised engine serves a model parsed from a validated
      file, switching models does what it says, streaming and whole generation give the same
      text ([LlamaEngine], [Generate]); on phones prompts are decoded completely and in order,
      text is passed on exactly, buffers are not overrun except where a theorem says so, and
      blocks of the pool do not overlap ([Mobile]).
    - Worker: a task is answered once in every state of the engine, the engine's text reaches
      the HTTP client, a model from an honest host ends up being served, candidates get one
      report, and what a reconnection and a cancellation do ([WorkerFacts], whose proofs use
      the theorems of the components the worker calls).
    - Administration: edits of a client need its owner, keys of the catalogue stay unique and
      its listing is the one [Catalog] recommends from, packages read back as written,
      progress of a download reaches the query that shows it ([Api]); pages of points add up,
      and the total shown is the credit target of [Points] ([Reports]).
    - Phones: a control connection is only opened to a server the inputs vouch for
      ([MobileTls]); the engine's text reaches the HTTP client, stopping ends the threads, a
      connection opened without a login reaches no device ([SdkFacts], [AndroidFacts]); the
      model can be replaced while tasks run: nothing is used or freed after it was freed,
      there is no deadlock, one model stays ([SwapFacts], an ownership invariant); on Android
      one task generates at a time; a start over TLS that reports success is over TLS and
      later connections keep its configuration, on both platforms ([RemoteFacts]).
    - Images: an app that keeps to its handles never makes a multimodal call use a freed
      object, and each call leaves exactly the listed objects behind ([VisionFacts], an
      ownership invariant); the caller's buffer is not overrun, and when its text can be read
      back ([VisionText]); what the Java functions answer whatever the model ([PhoneEngine]).
    - Settings: what a configuration file can and cannot change; the compose file reads back;
      external commands end, within their limits ([Config]).
    - Wire: frames and packed integers round-trip, oversized frames are refused early.
    - Limits: theorems that state what the code does where that is not what it means to do,
      such as a login that panics or an answer lost because it came too early.

    ** Fuel

    Every recursion that is not structural consumes at least one byte of its text per turn
    ([Text.valid_up_to], [Text.from_utf8_lossy], [Output.Phase.push_loop], trimming and
    removing of substrings, the loops of [Thinking], [PeerServe.split_deltas] and the
    attribute loops of [Stun]), so the length of the text is enough fuel; the lemmas about them
    are stated for any fuel at least that long, and the definitions use the length itself.
    [P2PSend.send_from] recurses over the fragments, with their number as fuel, and
    [Wire.Framing.read_all] over the frames read, one unit each; [Stun.turn_control_loop] is
    given more fuel than its stream has bytes, and each message it reads has at least 20. The
    loops of [Generate], [Mobile] and [Worker.download_with_retry] count the tokens or
    attempts that the code allows; [Mobile.prefill] has one unit per token and each chunk
    takes at least one; [Vision.inline_stream] counts the tokens. [Api.chars] has one unit for
    each byte. [Config.run_command_limited] polls at most once for each 25 milliseconds of its timeout and once more, and its theorem
    asks for that many units. Loops that
    wait on a socket recurse over its finite event list, and a separate outcome says that
    the list ended while the loop was still waiting.

    ** What is not modelled

    Sockets, TLS handshakes, key-value stores and databases beyond the operations used; the
    inside of llama.cpp and libmtmd (how an image is encoded, a model parsed);
    operating-system and GPU probing, which only reads what external tools print; progress callbacks and disk errors of the
    downloader; enumerating local interfaces for candidates; the engines run in containers;
    the conversion of Java strings and objects around the calls modelled here; the build
    script, examples and tests. *)

From Stdlib Require Import ZArith Lia String.
From Stdlib Require Import Strings.Byte.
From stdpp Require Import base list gmap.
From stdpp Require pretty.

#[global] Open Scope Z_scope.

(** ** Bytes and byte strings

    A Rust [u8] is a [byte]; [Vec<u8>], [&[u8]], [String] and [&str] are
    lists of bytes (a Rust string is the list of its UTF-8 code units). *)

Abbreviation bytes := (list byte).

Definition bs (s : string) : bytes := String.list_byte_of_string s.

Declare Scope bytes_scope.
Delimit Scope bytes_scope with bytes.
Notation "'b!' s" := (bs s%string) (at level 5, s at level 0, format "'b!' s") : bytes_scope.
#[global] Open Scope bytes_scope.

(** Decimal text of an integer ([Display]). *)
Definition dec (z : Z) : bytes := bs (pretty.pretty z).

Lemma bs_inj (s t : string) : bs s = bs t -> s = t.
Proof.
  intros E. rewrite <- (String.string_of_list_byte_of_string s),
    <- (String.string_of_list_byte_of_string t). unfold bs in E. by rewrite E.
Qed.

Lemma dec_inj (a b : Z) : dec a = dec b -> a = b.
Proof. intros E%bs_inj. by apply (inj pretty.pretty) in E. Qed.

Definition Z_of_byte (b : byte) : Z := Z.of_N (Byte.to_N b).
Definition byte_of_Z (z : Z) : byte :=
  default Byte.x00 (Byte.of_N (Z.to_N (z mod 256))).

#[global] Instance byte_eq_dec : EqDecision byte := Byte.byte_eq_dec.

Lemma Z_of_byte_range b : 0 <= Z_of_byte b < 256.
Proof. unfold Z_of_byte. pose proof (Byte.to_N_bounded b). lia. Qed.

Lemma byte_of_Z_of_byte b : byte_of_Z (Z_of_byte b) = b.
Proof.
  unfold byte_of_Z. rewrite Z.mod_small by apply Z_of_byte_range.
  unfold Z_of_byte. rewrite N2Z.id, Byte.of_to_N. reflexivity.
Qed.

Lemma Z_of_byte_of_Z z : Z_of_byte (byte_of_Z z) = z mod 256.
Proof.
  unfold byte_of_Z, Z_of_byte.
  pose proof (Z.mod_pos_bound z 256 ltac:(lia)) as Hb.
  destruct (Byte.of_N (Z.to_N (z mod 256))) as [b|] eqn:E; simpl.
  - apply Byte.to_of_N in E. rewrite E. lia.
  - apply Byte.of_N_None_iff in E. lia.
Qed.

Lemma Z_of_byte_inj b c : Z_of_byte b = Z_of_byte c -> b = c.
Proof. intros H. rewrite <- (byte_of_Z_of_byte b), H. apply byte_of_Z_of_byte. Qed.

#[global] Instance byte_countable : Countable byte.
Proof.
  refine (inj_countable' Z_of_byte byte_of_Z _). intros b. apply byte_of_Z_of_byte.
Defined.

(** Length of a byte string as a [usize]. *)
Definition blen {A} (l : list A) : Z := Z.of_nat (length l).

Lemma blen_nonneg {A} (l : list A) : 0 <= blen l.
Proof. unfold blen. lia. Qed.

Lemma blen_app {A} (l k : list A) : blen (l ++ k) = blen l + blen k.
Proof. unfold blen. rewrite length_app. lia. Qed.

(** The sum over a list of which one element is replaced. *)
Lemma sum_insert {A} (f : A -> nat) (l : list A) (i : nat) (x y : A) : l !! i = Some x ->
  (sum_list (f <$> <[i := y]> l) + f x = sum_list (f <$> l) + f y)%nat.
Proof.
  revert i. induction l as [|z l IH]; intros [|i] E; cbn in *; simplify_eq; [lia|].
  specialize (IH i E). unfold fmap, list_insert, insert in *. lia.
Qed.

(** ** Machine integers: a [w]-bit unsigned integer is a [Z] in range *)

Definition in_u (w z : Z) : Prop := 0 <= z < 2 ^ w.
Definition wrap (w z : Z) : Z := z mod 2 ^ w.
Definition sat_add (w a b : Z) : Z := Z.min (a + b) (2 ^ w - 1).
Definition sat_sub (a b : Z) : Z := Z.max 0 (a - b).

#[global] Instance in_u_dec w z : Decision (in_u w z).
Proof. unfold in_u. apply _. Defined.

Lemma in_u_wrap w z : 0 <= w -> in_u w (wrap w z).
Proof. intros H. apply Z.mod_pos_bound. apply Z.pow_pos_nonneg; lia. Qed.

Lemma wrap_small w z : in_u w z -> wrap w z = z.
Proof. apply Z.mod_small. Qed.

Lemma sat_add_in_u w a b : 0 <= w -> 0 <= a -> 0 <= b -> in_u w (sat_add w a b).
Proof. intros. unfold in_u, sat_add. pose proof (Z.pow_pos_nonneg 2 w). lia. Qed.

(** ** Big-endian byte representation ([to_be_bytes] / [from_be_bytes]) *)

Fixpoint be_bytes (n : nat) (z : Z) : bytes :=
  match n with
  | O => []
  | S m => byte_of_Z (z / 256 ^ Z.of_nat m) :: be_bytes m z
  end.

Definition of_be (l : bytes) : Z := fold_left (fun acc b => acc * 256 + Z_of_byte b) l 0.

Lemma length_be_bytes n z : length (be_bytes n z) = n.
Proof. induction n; simpl; congruence. Qed.

Lemma fold_be_shift l a :
  fold_left (fun acc b => acc * 256 + Z_of_byte b) l a
  = a * 256 ^ Z.of_nat (length l) + of_be l.
Proof.
  unfold of_be. revert a. induction l as [|b l IH]; intros a.
  - cbn [fold_left length]. change (256 ^ Z.of_nat 0) with 1. lia.
  - cbn [fold_left length]. rewrite IH, (IH (0 * 256 + _)).
    rewrite Nat2Z.inj_succ, Z.pow_succ_r by lia. ring.
Qed.

Lemma of_be_cons b l : of_be (b :: l) = Z_of_byte b * 256 ^ blen l + of_be l.
Proof. unfold of_be at 1. cbn [fold_left]. rewrite fold_be_shift. unfold blen. ring. Qed.

Lemma of_be_range l : 0 <= of_be l < 256 ^ blen l.
Proof.
  induction l as [|b l IH].
  - unfold blen. cbn. lia.
  - rewrite of_be_cons. pose proof (Z_of_byte_range b).
    unfold blen in *. cbn [length]. rewrite Nat2Z.inj_succ, Z.pow_succ_r by lia. nia.
Qed.

Lemma of_be_be_bytes n z : of_be (be_bytes n z) = z mod 256 ^ Z.of_nat n.
Proof.
  induction n as [|m IH].
  - cbn. rewrite Z.mod_1_r. reflexivity.
  - cbn [be_bytes]. rewrite of_be_cons, Z_of_byte_of_Z, IH.
    unfold blen. rewrite length_be_bytes, Nat2Z.inj_succ, Z.pow_succ_r by lia.
    assert (0 < 256 ^ Z.of_nat m) by (apply Z.pow_pos_nonneg; lia).
    rewrite (Z.mul_comm 256), Z.rem_mul_r by lia. ring.
Qed.

Lemma of_be_be_bytes_small n z :
  0 <= z < 256 ^ Z.of_nat n -> of_be (be_bytes n z) = z.
Proof. intros H. rewrite of_be_be_bytes. apply Z.mod_small, H. Qed.

Lemma be_bytes_inj n a b :
  0 <= a < 256 ^ Z.of_nat n -> 0 <= b < 256 ^ Z.of_nat n ->
  be_bytes n a = be_bytes n b -> a = b.
Proof.
  intros Ha Hb E. rewrite <- (of_be_be_bytes_small n a), E by done.
  apply of_be_be_bytes_small. done.
Qed.

Lemma of_be_inj l k : length l = length k -> of_be l = of_be k -> l = k.
Proof.
  revert k. induction l as [|b l IH]; intros [|c k] Hlen E; try done.
  injection Hlen as Hlen. rewrite !of_be_cons in E.
  assert (blen l = blen k) as Hb by (unfold blen; lia). rewrite Hb in E.
  pose proof (of_be_range l) as Hl. pose proof (of_be_range k) as Hk. rewrite Hb in Hl.
  assert (Z_of_byte b = Z_of_byte c) as Hbc by nia.
  rewrite (Z_of_byte_inj _ _ Hbc). f_equal. apply IH; [done|]. rewrite Hbc in E. lia.
Qed.

Lemma be_bytes_of_be l : be_bytes (length l) (of_be l) = l.
Proof.
  apply of_be_inj; [apply length_be_bytes|].
  apply of_be_be_bytes_small, of_be_range.
Qed.

(** ** Results: [anyhow::Result] with its error text *)

Inductive result (A : Type) : Type :=
  | Ok (a : A)
  | Err (e : bytes).
Arguments Ok {A} a.
Arguments Err {A} e.

Definition rbind {A B} (r : result A) (f : A -> result B) : result B :=
  match r with Ok a => f a | Err e => Err e end.

Definition ok_or {A} (o : option A) (e : bytes) : result A :=
  match o with Some a => Ok a | None => Err e end.

Definition is_ok {A} (r : result A) : bool := match r with Ok _ => true | Err _ => false end.

Notation "'let?' x := r 'in' k" := (rbind r (fun x => k))
  (at level 10, x pattern, r at level 100, k at level 200).

Lemma rbind_Ok {A B} (r : result A) (f : A -> result B) b :
  rbind r f = Ok b <-> exists a, r = Ok a /\ f a = Ok b.
Proof.
  destruct r as [a|e]; simpl; split; try (by intros ?); [by eauto| |by intros (?&?&?)].
  intros (a' & E & H). by injection E as <-.
Qed.

(** ** Substring search on byte strings *)

Fixpoint starts_with (p s : bytes) : bool :=
  match p, s with
  | [], _ => true
  | x :: p', y :: s' => bool_decide (x = y) && starts_with p' s'
  | _ :: _, [] => false
  end.

(** [str::find]: index of the first occurrence. *)
Fixpoint find_sub (p s : bytes) : option nat :=
  if starts_with p s then Some O
  else match s with
       | [] => None
       | _ :: s' => option_map S (find_sub p s')
       end.

Definition contains_sub (p s : bytes) : bool :=
  match find_sub p s with Some _ => true | None => false end.

Definition ends_with (p s : bytes) : bool := starts_with (rev p) (rev s).

Definition strip_prefix (p s : bytes) : option bytes :=
  if starts_with p s then Some (drop (length p) s) else None.

Lemma starts_with_spec p s : starts_with p s = true <-> exists r, s = p ++ r.
Proof.
  revert s. induction p as [|x p IH]; intros s; simpl.
  - split; eauto.
  - destruct s as [|y s].
    + split; [discriminate|]. intros [r E]. discriminate.
    + rewrite andb_true_iff, bool_decide_eq_true, IH. split.
      * intros [-> [r ->]]. by exists r.
      * intros [r E]. injection E as -> ->. eauto.
Qed.

Lemma starts_with_refl p r : starts_with p (p ++ r) = true.
Proof. apply starts_with_spec. eauto. Qed.

Lemma starts_with_length p s : starts_with p s = true -> (length p <= length s)%nat.
Proof. intros [r ->]%starts_with_spec. rewrite length_app. lia. Qed.

Lemma find_sub_Some p s i :
  find_sub p s = Some i ->
  starts_with p (drop i s) = true /\ (i + length p <= length s)%nat
  /\ forall j, (j < i)%nat -> starts_with p (drop j s) = false.
Proof.
  revert i. induction s as [|c s IH]; intros i H.
  - simpl in H. destruct (starts_with p []) eqn:E; [|discriminate].
    injection H as <-. pose proof (starts_with_length _ _ E). simpl in *.
    split; [done|]. split; [lia|]. intros j Hj. lia.
  - simpl in H. destruct (starts_with p (c :: s)) eqn:E.
    + injection H as <-. pose proof (starts_with_length _ _ E).
      split; [done|]. split; [lia|]. intros j Hj. lia.
    + destruct (find_sub p s) as [k|] eqn:F; [|discriminate].
      injection H as <-. destruct (IH k eq_refl) as (H1 & H2 & H3).
      split; [done|]. split; [simpl; lia|].
      intros [|j] Hj; [done|]. simpl. apply H3. lia.
Qed.

Lemma find_sub_None p s j : find_sub p s = None -> starts_with p (drop j s) = false.
Proof.
  revert j. induction s as [|c s IH]; intros j H; simpl in H.
  - destruct (starts_with p []) eqn:E; [discriminate|]. by rewrite drop_nil.
  - destruct (starts_with p (c :: s)) eqn:E; [discriminate|].
    destruct (find_sub p s) eqn:F; [discriminate|].
    destruct j; [done|]. simpl. by apply IH.
Qed.

Lemma find_sub_first p s i :
  starts_with p (drop i s) = true ->
  (forall j, (j < i)%nat -> starts_with p (drop j s) = false) ->
  find_sub p s = Some i.
Proof.
  intros H1 H2. destruct (find_sub p s) as [k|] eqn:F.
  - destruct (find_sub_Some _ _ _ F) as (K1 & _ & K3). f_equal.
    destruct (decide (k < i)%nat) as [Hlt|]; [rewrite (H2 k Hlt) in K1; done|].
    destruct (decide (i < k)%nat) as [Hlt|]; [rewrite (K3 i Hlt) in H1; done|]. lia.
  - rewrite (find_sub_None _ _ i F) in H1. done.
Qed.

Lemma contains_sub_spec p s :
  contains_sub p s = true <-> exists l r, s = l ++ p ++ r.
Proof.
  unfold contains_sub. destruct (find_sub p s) as [i|] eqn:F; split; try done.
  - intros _. destruct (find_sub_Some _ _ _ F) as (H & _ & _).
    apply starts_with_spec in H as [r E]. exists (take i s), r.
    rewrite <- E. symmetry. apply take_drop.
  - intros (l & r & ->). pose proof (find_sub_None _ _ (length l) F) as H.
    rewrite drop_app_length, starts_with_refl in H. done.
Qed.

(** ** Lookups used for bounds checks in slices *)

(** [&buf[i..j]], with [None] for Rust's out-of-range panic. *)
Definition slice {A} (i j : nat) (l : list A) : option (list A) :=
  if decide (i <= j <= length l)%nat then Some (take (j - i) (drop i l)) else None.

Lemma take_drop_app {A} (n : nat) (l k : list A) :
  length l = n -> take n (l ++ k) = l /\ drop n (l ++ k) = k.
Proof. intros <-. split; [apply take_app_length|apply drop_app_length]. Qed.

Lemma app_inj_length {A} (l1 l2 k1 k2 : list A) :
  length l1 = length l2 -> l1 ++ k1 = l2 ++ k2 -> l1 = l2 /\ k1 = k2.
Proof. intros. by apply app_inj_1. Qed.

(** ** Saturating sums of lengths *)

Fixpoint sum_Z {A} (f : A -> Z) (l : list A) : Z :=
  match l with [] => 0 | x :: l' => f x + sum_Z f l' end.

Lemma sum_Z_app {A} (f : A -> Z) l k : sum_Z f (l ++ k) = sum_Z f l + sum_Z f k.
Proof. induction l as [|x l IH]; cbn; [|rewrite IH]; lia. Qed.

Lemma sum_Z_perm {A} (f : A -> Z) l k : l ≡ₚ k -> sum_Z f l = sum_Z f k.
Proof. induction 1; cbn; lia. Qed.

Lemma sum_Z_nonneg {A} (f : A -> Z) l :
  (forall x, x ∈ l -> 0 <= f x) -> 0 <= sum_Z f l.
Proof.
  induction l as [|x l IH]; intros H; cbn; [lia|].
  pose proof (H x ltac:(set_solver)). pose proof (IH ltac:(set_solver)). lia.
Qed.

(** Sums over the values of a finite map. *)
Section SumMap.
Context {K V : Type} `{Countable K}.
Implicit Types (m : gmap K V) (f : V -> Z).

Definition gsum f m : Z := sum_Z (fun kv => f kv.2) (map_to_list m).

Lemma gsum_empty f : gsum f ∅ = 0.
Proof. unfold gsum. by rewrite map_to_list_empty. Qed.

Lemma gsum_insert f m k v :
  m !! k = None -> gsum f (<[k := v]> m) = f v + gsum f m.
Proof.
  intros Hk. unfold gsum.
  by rewrite (sum_Z_perm _ _ _ (map_to_list_insert m k v Hk)).
Qed.

Lemma gsum_delete f m k v :
  m !! k = Some v -> gsum f m = f v + gsum f (delete k m).
Proof.
  intros Hk. rewrite <- (insert_delete_id m k v Hk) at 1.
  apply gsum_insert, lookup_delete_eq.
Qed.

Lemma gsum_nonneg f m : (forall k v, m !! k = Some v -> 0 <= f v) -> 0 <= gsum f m.
Proof.
  intros Hf. apply sum_Z_nonneg. intros [k v] Hkv. apply elem_of_map_to_list in Hkv. eauto.
Qed.

Lemma gsum_bound f m c :
  (forall k v, m !! k = Some v -> f v <= c) -> gsum f m <= Z.of_nat (size m) * c.
Proof.
  induction m as [|k v m Hk IH] using map_ind; intros Hf.
  - rewrite gsum_empty, map_size_empty. lia.
  - rewrite gsum_insert, map_size_insert_None by done.
    pose proof (Hf k v ltac:(by rewrite lookup_insert_eq)).
    assert (gsum f m <= Z.of_nat (size m) * c).
    { apply IH. intros k' v' Hk'. apply (Hf k'). rewrite lookup_insert_ne; [done|congruence]. }
    lia.
Qed.

Lemma gsum_filter f (P Q : K * V -> Prop) `{!forall x, Decision (P x)}
    `{!forall x, Decision (Q x)} m :
  (forall x, P x <-> ~ Q x) ->
  gsum f (filter P m) + gsum f (filter Q m) = gsum f m.
Proof.
  intros HPQ. induction m as [|k v m Hk IH] using map_ind.
  - rewrite !map_filter_empty, !gsum_empty. lia.
  - rewrite !map_filter_insert, gsum_insert by done.
    assert (delete k m = m) as Hd by (by apply delete_id).
    assert (forall (R : K * V -> Prop) `{!forall x, Decision (R x)}, filter R m !! k = None)
      by (intros; rewrite map_lookup_filter, Hk; done).
    specialize (HPQ (k, v)).
    destruct (decide (P (k, v))), (decide (Q (k, v))); try tauto;
      rewrite Hd, ?gsum_insert by done; lia.
Qed.
End SumMap.

Lemma size_filter_le {K V} `{Countable K} (P : K * V -> Prop) `{!forall x, Decision (P x)}
    (m : gmap K V) : (size (filter P m) <= size m)%nat.
Proof. apply map_subseteq_size, map_filter_subseteq. Qed.

(** ** Automation shared by the component files *)

Create HintDb gpuf discriminated.
Create Rewrite HintDb gpuf.
#[export] Hint Resolve blen_nonneg Z_of_byte_range of_be_range : gpuf.
#[export] Hint Rewrite @length_app @length_be_bytes @length_take @length_drop @blen_app : gpuf.

(** Case analysis on every [if]/[match] scrutinee of a hypothesis. *)
Ltac break_match_hyp H :=
  match type of H with
  | context [match ?x with _ => _ end] => destruct x eqn:?
  end.
Ltac break_all H := repeat (break_match_hyp H; simplify_eq/=; try done).

Ltac bool_hyps :=
  repeat match goal with
    | H : bool_decide _ = true |- _ => apply bool_decide_eq_true in H
    | H : bool_decide _ = false |- _ => apply bool_decide_eq_false in H
    | H : (_ && _)%bool = true |- _ => apply andb_true_iff in H as [? ?]
    | H : (_ || _)%bool = false |- _ => apply orb_false_iff in H as [? ?]
    | H : negb _ = true |- _ => apply negb_true_iff in H
    | H : negb _ = false |- _ => apply negb_false_iff in H
    | H : (_ <=? _) = true |- _ => apply Z.leb_le in H
    | H : (_ <=? _) = false |- _ => apply Z.leb_gt in H
    | H : (_ <? _) = true |- _ => apply Z.ltb_lt in H
    | H : (_ <? _) = false |- _ => apply Z.ltb_ge in H
    | H : (_ =? _) = true |- _ => apply Z.eqb_eq in H
    | H : (_ =? _) = false |- _ => apply Z.eqb_neq in H
    end.

(** ** Socket addresses ([std::net]) *)

Inductive IpAddr := IpV4 (a : Z) | IpV6 (octets : bytes).
Record SocketAddr := mkSocketAddr { sa_ip : IpAddr; sa_port : Z }.

#[global] Instance IpAddr_eq_dec : EqDecision IpAddr.
Proof. solve_decision. Defined.
#[global] Instance SocketAddr_eq_dec : EqDecision SocketAddr.
Proof. solve_decision. Defined.
#[global] Instance IpAddr_countable : Countable IpAddr.
Proof.
  refine (inj_countable' (fun i => match i with IpV4 a => inl a | IpV6 o => inr o end)
    (fun s => match s with inl a => IpV4 a | inr o => IpV6 o end) _). by intros [].
Defined.
#[global] Instance SocketAddr_countable : Countable SocketAddr.
Proof.
  refine (inj_countable' (fun s => (sa_ip s, sa_port s))
    (fun p => mkSocketAddr p.1 p.2) _). by intros [].
Defined.
