(* ===== verification/Wire.v ===== *)
(** * The shared crate ([common/src/lib.rs])

    The data exchanged between gpuf-c and gpuf-s ([Command] and the structures it
    carries), the lane packing of per-device metrics in a [u64]/[u128], the
    vendor, OS and engine tables and the length-prefixed framing of
    [read_command]/[write_command]. [bincode] is a parameter of the framing. *)

From S2P Require Import Prelude.
From Stdlib Require Import ZArith Lia String.
From Stdlib Require Import Strings.Byte.
From stdpp Require Import base list gmap.

Local Open Scope Z_scope.

(** ** Data model *)

(** An [f32] is carried as its IEEE bit pattern: the program only copies it. *)
Abbreviation f32 := Z (only parsing).

Record Model := mkModel {
  m_id : bytes; m_object : bytes; m_created : Z; m_owned_by : bytes }.

Inductive OsType := MACOS | WINDOWS | LINUX | ANDROID | IOS | OsNONE.

Inductive EngineType := Ollama | Vllm | TensorRT | ONNX | Llama | EngineNone.

Record DevicesInfo := mkDevicesInfo {
  num : Z; pod_id : Z; total_tflops : Z; memtotal_gb : Z; port : Z; ip : Z;
  os_type : OsType; engine_type : EngineType;
  usage : Z; mem_usage : Z; power_usage : Z; temp : Z;
  vendor_id : Z; device_id : Z; memsize_gb : Z; powerlimit_w : Z }.

Definition DevicesInfo_default : DevicesInfo :=
  {| num := 0; pod_id := 0; total_tflops := 0; memtotal_gb := 0; port := 0; ip := 0;
     os_type := OsNONE; engine_type := EngineNone;
     usage := 0; mem_usage := 0; power_usage := 0; temp := 0;
     vendor_id := 0; device_id := 0; memsize_gb := 0; powerlimit_w := 0 |}.

Record PodModel := mkPodModel {
  pm_pod_id : Z; pm_model_name : option bytes; pm_download_url : option bytes;
  pm_checksum : option bytes; pm_expected_size : option Z }.

Inductive DownloadStatus := Pending | Downloading | Completed | Failed.

Record ChatMessage := mkChatMessage { role : bytes; content : bytes }.

Inductive OutputPhase := Unknown | Analysis | Final.

Record SystemInfo := mkSystemInfo {
  cpu_usage : Z; memory_usage : Z; disk_usage : Z; network_rx : Z; network_tx : Z }.

Inductive P2PTransport := Tcp | Udp.
Inductive P2PCandidateType := Host | Srflx | Relay.
Inductive P2PConnectionType := ConnDirect | ConnRelay | ConnTURN.

Record P2PCandidate := mkP2PCandidate {
  candidate_type : P2PCandidateType; transport : P2PTransport;
  addr : bytes; priority : Z }.

(** Sampling parameters shared by the inference commands. *)
Record Sampling := mkSampling {
  max_tokens : Z; temperature : f32; top_k : Z; top_p : f32;
  repeat_penalty : f32; repeat_last_n : Z; min_keep : Z }.

Inductive CommandV1 :=
  | RequestNewProxyConn (proxy_conn_id : bytes)
  | NewProxyConn (proxy_conn_id : bytes)
  | Login (client_id : bytes) (version : Z) (os : OsType) (auto_models : bool)
      (system_info : SystemInfo) (device_memtotal_gb device_total_tflops : Z)
      (devices_info : list DevicesInfo)
  | LoginResult (success : bool) (pods_model : list PodModel) (error : option bytes)
  | Heartbeat (client_id : bytes) (system_info : SystemInfo) (device_count : Z)
      (device_memtotal_gb device_total_tflops : Z) (devices_info : list DevicesInfo)
  | PullModelResult (pods_model : list PodModel) (error : option bytes)
  | ModelStatus (client_id : bytes) (models : list Model)
      (auto_models_device : list DevicesInfo)
  | InferenceTask (task_id prompt : bytes) (params : Sampling)
  | ChatInferenceTask (task_id model : bytes) (messages : list ChatMessage)
      (params : Sampling)
  | CancelInference (task_id : bytes)
  | InferenceResult (task_id : bytes) (success : bool) (res error : option bytes)
      (execution_time_ms prompt_tokens completion_tokens : Z)
  | InferenceResultChunk (task_id : bytes) (seq : Z) (delta : bytes)
      (phase : OutputPhase) (done : bool) (error : option bytes)
      (prompt_tokens completion_tokens analysis_tokens final_tokens : Z)
  | ModelDownloadProgress (client_id model_name : bytes)
      (downloaded_bytes total_bytes : Z) (percentage : f32) (speed_bps : Z)
      (status : DownloadStatus) (error : option bytes).

Inductive CommandV2 :=
  | P2PConnectionRequest (source_client_id target_client_id connection_id : bytes)
  | P2PConnectionConfig (peer_id connection_id : bytes) (stun_urls turn_urls : list bytes)
      (turn_username turn_password data_plane_secret : bytes)
      (expires_at : Z) (force_tls : bool)
  | P2PCandidates (source_client_id target_client_id connection_id : bytes)
      (candidates : list P2PCandidate)
  | P2PDataPlaneEnvelope (connection_id : bytes) (seq timestamp : Z)
      (payload tag : bytes)
  | P2PInferenceRequest (connection_id task_id : bytes) (model : option bytes)
      (prompt : bytes) (params : Sampling)
  | P2PInferenceChunk (connection_id task_id : bytes) (seq : Z) (delta : bytes)
      (phase : OutputPhase) (done : bool) (error : option bytes)
      (analysis_tokens final_tokens : Z)
  | P2PInferenceDone (connection_id task_id : bytes)
      (prompt_tokens completion_tokens total_tokens analysis_tokens final_tokens : Z)
  | P2PCancelInference (connection_id task_id : bytes)
  | P2PConnectionInfo (peer_id : bytes) (peer_addrs : list bytes)
      (stun_result : option bytes) (connection_id : bytes)
  | P2PConnectionEstablished (peer_id connection_id : bytes)
      (connection_type : P2PConnectionType)
  | P2PConnectionFailed (peer_id connection_id error : bytes).

Inductive Command := V1 (c : CommandV1) | V2 (c : CommandV2).

#[global] Instance OsType_eq_dec : EqDecision OsType.
Proof. solve_decision. Defined.
#[global] Instance EngineType_eq_dec : EqDecision EngineType.
Proof. solve_decision. Defined.
#[global] Instance DownloadStatus_eq_dec : EqDecision DownloadStatus.
Proof. solve_decision. Defined.
#[global] Instance OutputPhase_eq_dec : EqDecision OutputPhase.
Proof. solve_decision. Defined.

(** ** Lane packing *)
Module Lanes.

(** The four accessors differ in the lane width ([w] bits, [8 * w] in total).
    [None] is the panic of [assert!(index < 8)]. *)
Section Width.
Context (w : Z).

Definition lane_get (value : Z) (index : Z) : option Z :=
  if index <? 8
  then Some (wrap w (Z.land (Z.shiftr value (index * w)) (2 ^ w - 1)))
  else None.

Definition lane_mask (shift : Z) : Z :=
  Z.lxor (2 ^ (8 * w) - 1) (wrap (8 * w) (Z.shiftl (2 ^ w - 1) shift)).

Definition lane_set (value : Z) (index : Z) (val : Z) : option Z :=
  if index <? 8
  then let shift := index * w in
       Some (Z.lor (Z.land value (lane_mask shift)) (wrap (8 * w) (Z.shiftl val shift)))
  else None.
End Width.

Definition get_u16_from_u128 (value index : Z) : option Z := lane_get 16 value index.
Definition set_u16_to_u128 (value index val : Z) : option Z := lane_set 16 value index val.
Definition get_u8_from_u64 (value index : Z) : option Z := lane_get 8 value index.
Definition set_u8_to_u64 (value index val : Z) : option Z := lane_set 8 value index val.

End Lanes.

(** ** Identification tables *)

Definition EngineType_to_i16 (e : EngineType) : Z :=
  match e with
  | Ollama => 1 | Vllm => 2 | TensorRT => 3 | ONNX => 4 | Llama => 6 | EngineNone => 5
  end.

Definition EngineType_fmt (e : EngineType) : bytes :=
  match e with
  | Ollama => b!"Ollama" | Vllm => b!"vLLM" | TensorRT => b!"TensorRT"
  | ONNX => b!"ONNX" | Llama => b!"Llama" | EngineNone => b!"None"
  end.

Definition VENDOR_TO_ID : list (bytes * Z) :=
  [ (b!"Apple", 0x106b); (b!"Apple", 0x6810); (b!"Intel", 0x8086);
    (b!"AMD", 0x1022); (b!"AMD", 0x1002); (b!"NVIDIA", 0x10de) ].

Definition vendor_to_id (vendor : bytes) : option Z :=
  snd <$> List.find (fun e => bool_decide (fst e = vendor)) VENDOR_TO_ID.

Definition id_to_vendor (id : Z) : option bytes :=
  fst <$> List.find (fun e => snd e =? id) VENDOR_TO_ID.

Definition OS_TPYE_MAP : list (bytes * OsType) :=
  [ (b!"mac", MACOS); (b!"linux", LINUX); (b!"win", WINDOWS);
    (b!"android", ANDROID); (b!"ios", IOS) ].

Definition os_type_str (os_type_src : OsType) : option bytes :=
  fst <$> List.find (fun e => bool_decide (snd e = os_type_src)) OS_TPYE_MAP.

(** ** Framing *)
Module Framing.

Definition MAX_MESSAGE_SIZE : Z := 10 * 1024 * 1024.

(** The [bincode] codec at one configuration. [decode_from_slice] returns the value
    and the number of bytes it consumed; trailing bytes are not an error. *)
Class Codec := {
  encode_to_vec : Command -> option bytes;
  decode_from_slice : bytes -> option (Command * nat) }.

(** What the program relies on: decoding what was encoded gives it back. *)
Class CodecLaws `(C : Codec) : Prop :=
  codec_roundtrip c b : encode_to_vec c = Some b -> decode_from_slice b = Some (c, length b).

Definition err_eof : bytes := b!"early eof".
Definition err_decode : bytes := b!"Failed to deserialize command".
Definition err_encode : bytes := b!"encode error".
Definition err_too_large : bytes := b!"Message too large".

(** [AsyncReadExt::read_exact] on the bytes the peer has sent before closing. *)
Definition read_exact (n : nat) (stream : bytes) : option bytes * bytes :=
  if decide (n <= length stream)%nat
  then (Some (take n stream), drop n stream)
  else (None, []).

Section Framing.
Context `{C : Codec}.

(** The result and the unread part of the stream. *)
Definition read_command (stream : bytes) : result Command * bytes :=
  match read_exact 4 stream with
  | (None, rest) => (Err err_eof, rest)
  | (Some len_buf, rest) =>
      let len := of_be len_buf in
      if MAX_MESSAGE_SIZE <? len then (Err err_too_large, rest)
      else match read_exact (Z.to_nat len) rest with
           | (None, rest') => (Err err_eof, rest')
           | (Some buf, rest') =>
               match decode_from_slice buf with
               | Some (command, _) => (Ok command, rest')
               | None => (Err err_decode, rest')
               end
           end
  end.

(** The bytes appended to the writer. The length is cast to [u32] before the check. *)
Definition write_command (command : Command) : result bytes :=
  match encode_to_vec command with
  | None => Err err_encode
  | Some buf =>
      let len := wrap 32 (blen buf) in
      if MAX_MESSAGE_SIZE <? len then Err err_too_large
      else Ok (be_bytes 4 len ++ buf)
  end.

(** The blocking variants used by the mobile workers. *)
Definition read_command_sync (stream : bytes) : result Command * bytes :=
  let '(len_buf, rest) := read_exact 4 stream in
  match len_buf with
  | None => (Err err_eof, rest)
  | Some len_buf =>
      let len := of_be len_buf in
      if MAX_MESSAGE_SIZE <? len then (Err err_too_large, rest)
      else
        let '(buf, rest) := read_exact (Z.to_nat len) rest in
        match buf with
        | None => (Err err_eof, rest)
        | Some buf => (let? command := ok_or (fst <$> decode_from_slice buf) err_decode in
                       Ok command, rest)
        end
  end.

Definition write_command_sync (command : Command) : result bytes :=
  let? buf := ok_or (encode_to_vec command) err_encode in
  let len := wrap 32 (blen buf) in
  if MAX_MESSAGE_SIZE <? len then Err err_too_large
  else Ok (be_bytes 4 len ++ buf).

(** A connection handler's reading loop: commands up to the first error. *)
Fixpoint read_all (fuel : nat) (stream : bytes) : list Command * bytes :=
  match fuel with
  | O => ([], stream)
  | S fuel' =>
      match read_command stream with
      | (Ok c, rest) => let '(cs, rest') := read_all fuel' rest in (c :: cs, rest')
      | (Err _, _) => ([], stream)
      end
  end.

Fixpoint write_all (cs : list Command) : result bytes :=
  match cs with
  | [] => Ok []
  | c :: cs' => let? b := write_command c in
                let? r := write_all cs' in Ok (b ++ r)
  end.
End Framing.
End Framing.

(** ** Facts: lane packing is an array of eight fields *)
Module LanesFacts.
Import Lanes.

Section Width.
Context (w : Z) (Hw : 0 < w).

Lemma lane_get_bits v i :
  0 <= i < 8 ->
  exists r, lane_get w v i = Some r
    /\ forall n, 0 <= n -> Z.testbit r n = (n <? w) && Z.testbit v (i * w + n).
Proof.
  intros Hi. unfold lane_get. rewrite (proj2 (Z.ltb_lt i 8)) by lia.
  eexists; split; [reflexivity|]. intros n Hn. unfold wrap.
  rewrite Z.sub_1_r, <- Z.ones_equiv, Z.testbit_mod_pow2, Z.land_spec by lia.
  rewrite Z.shiftr_spec, Z.testbit_ones_nonneg by lia.
  rewrite (Z.add_comm n). destruct (n <? w); simpl; [apply andb_true_r|reflexivity].
Qed.

Lemma lane_set_bits v i x :
  0 <= i < 8 -> in_u (8 * w) v -> in_u w x ->
  exists v', lane_set w v i x = Some v' /\ in_u (8 * w) v'
    /\ forall n, 0 <= n -> Z.testbit v' n =
         (if decide (i * w <= n < i * w + w) then Z.testbit x (n - i * w)
          else Z.testbit v n).
Proof.
  intros Hi [Hv0 Hv] [Hx0 Hx]. unfold lane_set. rewrite (proj2 (Z.ltb_lt i 8)) by lia.
  eexists; split; [reflexivity|].
  assert (forall z m k, 0 <= z < 2 ^ m -> 0 <= m <= k -> Z.testbit z k = false) as Hhi.
  { intros z m k Hz Hk. rewrite <- (Z.mod_small z (2 ^ m)) by done.
    rewrite Z.testbit_mod_pow2 by lia. rewrite (proj2 (Z.ltb_ge k m)) by lia. done. }
  set (v' := Z.lor _ _).
  assert (forall n, 0 <= n -> Z.testbit v' n =
         (if decide (i * w <= n < i * w + w) then Z.testbit x (n - i * w)
          else Z.testbit v n)) as Hbits.
  { intros n Hn. unfold v', lane_mask, wrap.
    rewrite Z.lor_spec, Z.land_spec, Z.lxor_spec.
    rewrite !Z.sub_1_r, <- !Z.ones_equiv, Z.testbit_ones_nonneg by lia.
    rewrite !Z.testbit_mod_pow2, !Z.shiftl_spec by lia.
    rewrite Z.testbit_ones by lia.
    destruct (Z.ltb_spec n (8 * w)) as [Hlt|Hge].
    - destruct (decide (i * w <= n < i * w + w)) as [Hin|Hout].
      + rewrite (proj2 (Z.leb_le 0 (n - i * w))) by lia.
        rewrite (proj2 (Z.ltb_lt (n - i * w) w)) by lia. simpl.
        by rewrite andb_false_r.
      + replace ((0 <=? n - i * w) && (n - i * w <? w)) with false by lia. simpl.
        rewrite andb_true_r. destruct (decide (n < i * w)).
        * rewrite (Z.testbit_neg_r x) by lia. apply orb_false_r.
        * rewrite (Hhi x w (n - i * w)) by lia. apply orb_false_r.
    - rewrite (Hhi v (8 * w) n) by lia. simpl. rewrite decide_False by nia. done. }
  split; [|exact Hbits].
  assert (0 <= v') as H0.
  { unfold v'. apply Z.lor_nonneg. split; [apply Z.land_nonneg; by left|].
    apply Z.mod_pos_bound. apply Z.pow_pos_nonneg; lia. }
  split; [done|].
  replace v' with (v' mod 2 ^ (8 * w));
    [apply Z.mod_pos_bound, Z.pow_pos_nonneg; lia|].
  apply Z.bits_inj'. intros n Hn. rewrite Z.testbit_mod_pow2 by lia.
  destruct (Z.ltb_spec n (8 * w)); [done|].
  rewrite (Hbits n Hn), decide_False by nia. by rewrite (Hhi v (8 * w) n) by lia.
Qed.

(** Reading back after a write: the written field, and every other one unchanged. *)
Lemma lane_get_set v i x :
  0 <= i < 8 -> in_u (8 * w) v -> in_u w x ->
  exists v', lane_set w v i x = Some v' /\ in_u (8 * w) v'
    /\ forall j, 0 <= j < 8 ->
         lane_get w v' j = if decide (j = i) then Some x else lane_get w v j.
Proof.
  intros Hi Hv Hx. destruct (lane_set_bits v i x Hi Hv Hx) as (v' & E & Hv' & Hbits).
  exists v'. split; [done|]. split; [done|]. intros j Hj.
  destruct (lane_get_bits v' j Hj) as (r & -> & Hr).
  destruct (decide (j = i)) as [->|Hne].
  - f_equal. apply Z.bits_inj'. intros n Hn. rewrite Hr, Hbits by nia.
    destruct (Z.ltb_spec n w); simpl.
    + rewrite decide_True by lia. f_equal. lia.
    + rewrite <- (Z.mod_small x (2 ^ w)) by apply Hx.
      rewrite Z.testbit_mod_pow2 by lia. by rewrite (proj2 (Z.ltb_ge n w)) by lia.
  - destruct (lane_get_bits v j Hj) as (r' & -> & Hr'). f_equal.
    apply Z.bits_inj'. intros n Hn. rewrite Hr, Hr', Hbits by nia.
    destruct (Z.ltb_spec n w); simpl; [|done].
    rewrite decide_False; [done|]. nia.
Qed.
End Width.

(** The packed per-device metrics behave as two arrays of eight fields: for both
    widths, writing field [i] of an in-range word succeeds, stays in range, is read
    back, and leaves the seven other fields unchanged; an index of 8 or more panics. *)
Theorem packed_fields_are_arrays :
  (forall v i x, 0 <= i < 8 -> in_u 128 v -> in_u 16 x ->
     exists v', set_u16_to_u128 v i x = Some v' /\ in_u 128 v'
       /\ forall j, 0 <= j < 8 -> get_u16_from_u128 v' j =
            if decide (j = i) then Some x else get_u16_from_u128 v j)
  /\ (forall v i x, 0 <= i < 8 -> in_u 64 v -> in_u 8 x ->
     exists v', set_u8_to_u64 v i x = Some v' /\ in_u 64 v'
       /\ forall j, 0 <= j < 8 -> get_u8_from_u64 v' j =
            if decide (j = i) then Some x else get_u8_from_u64 v j)
  /\ (forall v i x, 8 <= i -> get_u16_from_u128 v i = None /\ set_u16_to_u128 v i x = None
       /\ get_u8_from_u64 v i = None /\ set_u8_to_u64 v i x = None).
Proof.
  split; [|split].
  - intros v i x. apply (lane_get_set 16). lia.
  - intros v i x. apply (lane_get_set 8). lia.
  - intros v i x Hi. unfold get_u16_from_u128, set_u16_to_u128, get_u8_from_u64,
      set_u8_to_u64, lane_get, lane_set.
    by rewrite (proj2 (Z.ltb_ge i 8)) by lia.
Qed.

End LanesFacts.

(** ** Facts: framing *)
Module FramingFacts.
Import Framing.

Lemma read_exact_app n l k : length l = n -> read_exact n (l ++ k) = (Some l, k).
Proof.
  intros Hn. unfold read_exact. destruct (take_drop_app n l k Hn) as [-> ->].
  rewrite decide_True; [done|]. rewrite length_app. lia.
Qed.

Lemma read_exact_Some n s l r :
  read_exact n s = (Some l, r) -> s = l ++ r /\ length l = n.
Proof.
  unfold read_exact. case_decide; [|done]. intros E. injection E as <- <-.
  split; [by rewrite take_drop|]. rewrite length_take. lia.
Qed.

Section Framing.
Context `{C : Codec} {L : CodecLaws C}.

Lemma write_command_small c buf :
  encode_to_vec c = Some buf -> blen buf <= MAX_MESSAGE_SIZE ->
  write_command c = Ok (be_bytes 4 (blen buf) ++ buf).
Proof.
  intros E Hlen. unfold write_command. rewrite E.
  pose proof (blen_nonneg buf).
  rewrite wrap_small by (unfold in_u, MAX_MESSAGE_SIZE in *; lia).
  by rewrite (proj2 (Z.ltb_ge _ _)) by lia.
Qed.

Lemma read_command_frame c buf rest :
  encode_to_vec c = Some buf -> blen buf <= MAX_MESSAGE_SIZE ->
  read_command ((be_bytes 4 (blen buf) ++ buf) ++ rest) = (Ok c, rest).
Proof.
  intros E Hlen. unfold read_command. rewrite <- app_assoc.
  rewrite read_exact_app by apply length_be_bytes.
  pose proof (blen_nonneg buf).
  rewrite of_be_be_bytes_small by (unfold MAX_MESSAGE_SIZE in *; lia).
  rewrite (proj2 (Z.ltb_ge _ _)) by lia.
  rewrite read_exact_app by (unfold blen; lia).
  by rewrite (codec_roundtrip c buf E).
Qed.

Lemma read_command_progress s c rest :
  read_command s = (Ok c, rest) ->
  exists len_buf buf, s = len_buf ++ buf ++ rest /\ length len_buf = 4%nat
    /\ of_be len_buf = blen buf /\ blen buf <= MAX_MESSAGE_SIZE.
Proof.
  unfold read_command. intros H. break_all H. bool_hyps.
  match goal with E : read_exact 4 _ = (Some ?h, _) |- _ =>
    apply read_exact_Some in E as [-> ?]; pose proof (of_be_range h) end.
  match goal with E : read_exact _ _ = _ |- _ => apply read_exact_Some in E as [-> Hl] end.
  eexists _, _. split; [done|]. split; [done|]. unfold blen in *. lia.
Qed.
End Framing.

Lemma sync_framing_agrees `{C : Codec} s c :
  read_command_sync s = read_command s /\ write_command_sync c = write_command c.
Proof.
  unfold read_command_sync, read_command, write_command_sync, write_command. split.
  - destruct (read_exact 4 s) as [[h|] r]; [|done].
    destruct (MAX_MESSAGE_SIZE <? of_be h); [done|].
    destruct (read_exact _ r) as [[buf|] r']; [|done].
    by destruct (decode_from_slice buf) as [[c' n]|].
  - by destruct (encode_to_vec c).
Qed.

(** [C30] Framing round trip, for the asynchronous and the blocking pair of functions: a sequence of commands whose encodings fit in
    [MAX_MESSAGE_SIZE], written one after the other, is read back by the same number
    of reads, in order, leaving exactly the bytes that follow. *)
Theorem framing_roundtrip `{C : Codec} {L : CodecLaws C} (cs : list Command) (rest : bytes) :
  Forall (fun c => exists buf, encode_to_vec c = Some buf /\ blen buf <= MAX_MESSAGE_SIZE) cs ->
  (exists stream, write_all cs = Ok stream
    /\ read_all (length cs) (stream ++ rest) = (cs, rest))
  /\ (forall c s, write_command_sync c = write_command c /\ read_command_sync s = read_command s).
Proof.
  intros Hall. split; [|intros c s; split; apply (sync_framing_agrees s c)].
  induction Hall as [|c cs (buf & E & Hlen) _ (s & Hw & Hr)].
  - by exists [].
  - exists ((be_bytes 4 (blen buf) ++ buf) ++ s). split.
    + cbn [write_all]. rewrite (write_command_small c buf E Hlen). simpl rbind at 1.
      rewrite Hw. done.
    + cbn [read_all length]. rewrite <- app_assoc.
      rewrite (read_command_frame c buf (s ++ rest) E Hlen), Hr. done.
Qed.

(** A read never trusts the peer's length prefix beyond [MAX_MESSAGE_SIZE]: with a
    larger announced length nothing after the four prefix bytes is consumed, and a
    successful read consumed exactly the prefix and the announced body, at most the
    limit, so every read makes progress on the stream. *)
Theorem read_command_bounded `{C : Codec} (s : bytes) :
  (forall hdr rest, s = hdr ++ rest -> length hdr = 4%nat -> MAX_MESSAGE_SIZE < of_be hdr ->
     read_command s = (Err err_too_large, rest))
  /\ (forall c rest, read_command s = (Ok c, rest) ->
        exists hdr buf, s = hdr ++ buf ++ rest /\ length hdr = 4%nat
          /\ of_be hdr = blen buf /\ blen buf <= MAX_MESSAGE_SIZE).
Proof.
  split; [|apply read_command_progress].
  intros hdr rest -> Hlen Hbig. unfold read_command. rewrite read_exact_app by done.
  by rewrite (proj2 (Z.ltb_lt _ _)) by lia.
Qed.

(** The size check of [write_command] is made after the cast to [u32]: an encoding
    of [2^32 + k] bytes with [k] small is written with the prefix [k], so the peer
    decodes only the first [k] bytes and takes the rest for further frames. *)
Theorem write_command_length_wraps `{C : Codec} (c : Command) (buf : bytes) (k : Z) :
  encode_to_vec c = Some buf -> blen buf = 2 ^ 32 + k -> 0 <= k <= MAX_MESSAGE_SIZE ->
  write_command c = Ok (be_bytes 4 k ++ buf).
Proof.
  intros E Hlen Hk. unfold write_command. rewrite E, Hlen.
  assert (wrap 32 (2 ^ 32 + k) = k) as ->.
  { unfold wrap. rewrite <- (Z.mul_1_l (2 ^ 32)) at 1. rewrite Z.add_comm, Z_mod_plus_full.
    apply Z.mod_small. unfold MAX_MESSAGE_SIZE in Hk. lia. }
  by rewrite (proj2 (Z.ltb_ge _ _)) by lia.
Qed.

(** A concrete codec for the witnesses: it encodes the cancel command only. *)
Definition demo_encode (c : Command) : option bytes :=
  match c with V1 (CancelInference t) => Some (Byte.x09 :: t) | _ => None end.
Definition demo_decode (b : bytes) : option (Command * nat) :=
  match b with
  | Byte.x09 :: t => Some (V1 (CancelInference t), S (length t))
  | _ => None
  end.
#[global] Instance demo_codec : Codec := {|
  encode_to_vec := demo_encode; decode_from_slice := demo_decode |}.
#[global] Instance demo_codec_laws : CodecLaws demo_codec.
Proof. intros [[]|c] b; simpl; try done. intros E. by injection E as <-. Qed.

Lemma framing_roundtrip_witness :
  exists stream, write_all [V1 (CancelInference b!"t1"); V1 (CancelInference b!"t2")] = Ok stream
    /\ read_all 2 (stream ++ b!"tail")
       = ([V1 (CancelInference b!"t1"); V1 (CancelInference b!"t2")], b!"tail").
Proof.
  apply (proj1 (framing_roundtrip
    [V1 (CancelInference b!"t1"); V1 (CancelInference b!"t2")] b!"tail"
    ltac:(repeat constructor; eexists; (split; [reflexivity|vm_compute; discriminate])))).
Defined.

Lemma read_command_bounded_witness :
  read_command (be_bytes 4 (MAX_MESSAGE_SIZE + 1) ++ b!"body") = (Err err_too_large, b!"body").
Proof.
  apply (proj1 (read_command_bounded _) (be_bytes 4 (MAX_MESSAGE_SIZE + 1)));
    [reflexivity | reflexivity | vm_compute; reflexivity].
Defined.

Lemma write_command_length_wraps_witness :
  let c := V1 (CancelInference (replicate (Z.to_nat (2 ^ 32 + 1)) Byte.x61)) in
  exists buf, demo_encode c = Some buf /\ write_command c = Ok (be_bytes 4 2 ++ buf).
Proof.
  eexists; split; [reflexivity|].
  apply write_command_length_wraps; [reflexivity| |unfold MAX_MESSAGE_SIZE; lia].
  unfold blen. cbn [length]. rewrite length_replicate. lia.
Defined.

End FramingFacts.
