(* ===== verification/P2P.v ===== *)
(** * Authenticated P2P data plane ([gpuf-c/src/handle/handle_udp.rs])

    Packet header, MAC input, freshness and fragment validation, the replay window,
    the signed TCP envelope, the datagram framing and the fragmenting sender. The hash
    functions, the codec and the network are parameters. *)

From S2P Require Import Prelude Wire.
From Stdlib Require Import ZArith Lia String.
From Stdlib Require Import Strings.Byte.
From stdpp Require Import base list gmap.

Local Open Scope Z_scope.
Import Framing.

(** HMAC-SHA256 (crates [hmac], [sha2]): keyed digest of a byte string. *)
Class Mac := hmac_sha256 : bytes -> bytes -> bytes.

(** ** Constants *)
Definition P2P_UDP_MAGIC : bytes := b!"P2PU".
Definition P2P_UDP_VERSION : Z := 2.
Definition P2P_UDP_FLAG_ACK : Z := 1.
Definition P2P_UDP_HEADER_LEN : Z := 4 + 1 + 1 + 4 + 2 + 2 + 8 + 32.
Definition P2P_UDP_MTU_PAYLOAD : Z := 1200.
Definition P2P_REPLAY_WINDOW_SECS : Z := 300.
Definition P2P_REPLAY_CACHE_LIMIT : Z := 4096.
Definition P2P_MAX_FRAGMENTS_PER_MESSAGE : Z := 128.

(** ** Packet header *)
Module Packet.

Record Header := mkHeader {
  flags : Z; msg_id : Z; frag_idx : Z; frag_cnt : Z; timestamp : Z; tag : bytes }.

Definition Header_wf (h : Header) : Prop :=
  in_u 8 (flags h) /\ in_u 32 (msg_id h) /\ in_u 16 (frag_idx h) /\ in_u 16 (frag_cnt h)
  /\ in_u 64 (timestamp h) /\ length (tag h) = 32%nat.

Definition p2p_udp_make_header (h : Header) : bytes :=
  P2P_UDP_MAGIC ++ be_bytes 1 P2P_UDP_VERSION ++ be_bytes 1 (flags h)
  ++ be_bytes 4 (msg_id h) ++ be_bytes 2 (frag_idx h) ++ be_bytes 2 (frag_cnt h)
  ++ be_bytes 8 (timestamp h) ++ tag h.

(** [buf[i..j]] once the length of [buf] has been checked. *)
Definition sl (i j : nat) (buf : bytes) : bytes := take (j - i) (drop i buf).

Definition p2p_udp_parse_header (buf : bytes) : option Header :=
  if blen buf <? P2P_UDP_HEADER_LEN then None
  else if bool_decide (sl 0 4 buf <> P2P_UDP_MAGIC) then None
  else if bool_decide (of_be (sl 4 5 buf) <> P2P_UDP_VERSION) then None
  else Some {| flags := of_be (sl 5 6 buf); msg_id := of_be (sl 6 10 buf);
               frag_idx := of_be (sl 10 12 buf); frag_cnt := of_be (sl 12 14 buf);
               timestamp := of_be (sl 14 22 buf); tag := sl 22 54 buf |}.

Definition p2p_udp_mac_input (connection_id : bytes) (flags msg_id frag_idx frag_cnt
    timestamp : Z) (payload : bytes) : bytes :=
  b!"GPUF-P2P-UDP-V2" ++ connection_id ++ be_bytes 1 flags ++ be_bytes 4 msg_id
  ++ be_bytes 2 frag_idx ++ be_bytes 2 frag_cnt ++ be_bytes 8 timestamp ++ payload.

Definition p2p_timestamp_is_fresh (timestamp now : Z) : bool :=
  (timestamp <=? sat_add 64 now 30) && (sat_sub now timestamp <=? P2P_REPLAY_WINDOW_SECS).

Section Auth.
Context `{M : Mac}.

Definition p2p_udp_tag (secret connection_id : bytes) (flags msg_id frag_idx frag_cnt
    timestamp : Z) (payload : bytes) : bytes :=
  hmac_sha256 secret
    (p2p_udp_mac_input connection_id flags msg_id frag_idx frag_cnt timestamp payload).

Definition p2p_udp_validate_fragment (secret connection_id : bytes) (h : Header)
    (payload : bytes) (now : Z) : result () :=
  let is_ack := negb (Z.land (flags h) P2P_UDP_FLAG_ACK =? 0) in
  let? _ :=
    (if is_ack then
       if negb (frag_idx h =? 0) || negb (frag_cnt h =? 0) || negb (blen payload =? 0)
       then Err b!"invalid p2p udp ack metadata" else Ok ()
     else if (frag_cnt h =? 0) || (P2P_MAX_FRAGMENTS_PER_MESSAGE <? frag_cnt h)
     then Err b!"invalid p2p udp fragment count"
     else if frag_cnt h <=? frag_idx h
     then Err b!"invalid p2p udp fragment index" else Ok ()) in
  if negb (p2p_timestamp_is_fresh (timestamp h) now) then Err b!"stale p2p udp fragment"
  else
    let expected := p2p_udp_tag secret connection_id (flags h) (msg_id h) (frag_idx h)
                      (frag_cnt h) (timestamp h) payload in
    if bool_decide (expected <> tag h)
    then Err b!"p2p udp fragment authentication failed" else Ok ().

Definition signed_header (secret connection_id : bytes) (flags msg_id frag_idx frag_cnt
    timestamp : Z) (payload : bytes) : Header :=
  {| flags := flags; msg_id := msg_id; frag_idx := frag_idx; frag_cnt := frag_cnt;
     timestamp := timestamp;
     tag := p2p_udp_tag secret connection_id flags msg_id frag_idx frag_cnt timestamp payload |}.

Definition p2p_udp_ack_packet (connection_id secret : bytes) (msg_id now : Z) : bytes :=
  p2p_udp_make_header
    (signed_header secret connection_id P2P_UDP_FLAG_ACK msg_id 0 0 now []).
End Auth.
End Packet.

(** ** Replay window *)
Module Replay.

Record P2PReplayWindow := mkWindow { seen : gset Z; order : list (Z * Z) }.

Definition new : P2PReplayWindow := {| seen := ∅; order := [] |}.

(** The two [while] loops of [prune], on the deque. *)
Fixpoint prune_age (now : Z) (seen : gset Z) (order : list (Z * Z)) : gset Z * list (Z * Z) :=
  match order with
  | [] => (seen, [])
  | (seq, ts) :: order' =>
      if sat_sub now ts <=? P2P_REPLAY_WINDOW_SECS then (seen, order)
      else prune_age now (seen ∖ {[seq]}) order'
  end.

Fixpoint prune_cap (seen : gset Z) (order : list (Z * Z)) : gset Z * list (Z * Z) :=
  match order with
  | [] => (seen, [])
  | (seq, _) :: order' =>
      if P2P_REPLAY_CACHE_LIMIT <? blen order then prune_cap (seen ∖ {[seq]}) order'
      else (seen, order)
  end.

Definition prune (now : Z) (w : P2PReplayWindow) : P2PReplayWindow :=
  let '(s, o) := prune_age now (seen w) (order w) in
  let '(s, o) := prune_cap s o in {| seen := s; order := o |}.

Definition accept_tcp_seq (seq timestamp now : Z) (w : P2PReplayWindow)
    : bool * P2PReplayWindow :=
  let w := prune now w in
  if bool_decide (seq ∈ seen w) then (false, w)
  else (true, prune now {| seen := {[seq]} ∪ seen w; order := order w ++ [(seq, timestamp)] |}).

End Replay.

(** ** Signed TCP envelope *)
Module Envelope.
Import Packet Replay.

Definition tcp_mac_input (connection_id : bytes) (seq timestamp : Z) (payload : bytes) : bytes :=
  b!"GPUF-P2P-TCP-V1" ++ connection_id ++ be_bytes 8 seq ++ be_bytes 8 timestamp ++ payload.

Section Envelope.
Context `{M : Mac} `{C : Codec}.

Definition p2p_encode_data_plane_envelope (command : Command) (connection_id secret : bytes)
    (seq timestamp : Z) : result Command :=
  let? payload := ok_or (encode_to_vec command) err_encode in
  if MAX_MESSAGE_SIZE <? blen payload then Err b!"p2p data-plane payload too large"
  else
    let tag := hmac_sha256 secret (tcp_mac_input connection_id seq timestamp payload) in
    Ok (V2 (P2PDataPlaneEnvelope connection_id seq timestamp payload tag)).

(** The replay window is only updated once the envelope is authentic. *)
Definition p2p_decode_data_plane_envelope (command : Command) (connection_id secret : bytes)
    (now : Z) (replay : P2PReplayWindow) : result Command * P2PReplayWindow :=
  match command with
  | V2 (P2PDataPlaneEnvelope req_conn_id seq timestamp payload tag) =>
      if bool_decide (req_conn_id <> connection_id)
      then (Err b!"p2p envelope connection mismatch", replay)
      else if MAX_MESSAGE_SIZE <? blen payload
      then (Err b!"p2p envelope payload too large", replay)
      else if negb (p2p_timestamp_is_fresh timestamp now)
      then (Err b!"stale p2p envelope", replay)
      else
        let expected := hmac_sha256 secret
                          (tcp_mac_input connection_id seq timestamp payload) in
        if bool_decide (expected <> tag)
        then (Err b!"p2p envelope authentication failed", replay)
        else
          let '(fresh, replay) := accept_tcp_seq seq timestamp now replay in
          if negb fresh then (Err b!"replayed p2p envelope", replay)
          else match decode_from_slice payload with
               | Some (inner, _) => (Ok inner, replay)
               | None => (Err err_decode, replay)
               end
  | _ => (Err b!"expected signed p2p data-plane envelope", replay)
  end.
End Envelope.
End Envelope.

(** ** Datagram framing of a command *)
Module Datagram.
Section Datagram.
Context `{C : Codec}.

Definition udp_encode_command (command : Command) : result bytes :=
  let? payload := ok_or (encode_to_vec command) err_encode in
  Ok (be_bytes 4 (wrap 32 (blen payload)) ++ payload).

Definition udp_decode_command (datagram : bytes) : result Command :=
  if blen datagram <? 4 then Err b!"udp datagram too short"
  else
    let len := of_be (take 4 datagram) in
    if blen datagram <? 4 + len then Err b!"udp datagram truncated"
    else match decode_from_slice (take (Z.to_nat len) (drop 4 datagram)) with
         | Some (cmd, _) => Ok cmd
         | None => Err err_decode
         end.
End Datagram.
End Datagram.

(** ** Facts: header and MAC input *)
Module PacketFacts.
Import Packet Envelope.

Lemma pow256 n : 256 ^ n = 2 ^ (8 * n).
Proof.
  destruct (decide (0 <= n)); [|rewrite !Z.pow_neg_r by lia; done].
  change 256 with (2 ^ 8). rewrite <- Z.pow_mul_r by lia. done.
Qed.

Lemma of_be_be_bytes_u n w z :
  w = 8 * Z.of_nat n -> in_u w z -> of_be (be_bytes n z) = z.
Proof. intros -> Hz. apply of_be_be_bytes_small. rewrite pow256. apply Hz. Qed.

Lemma be_bytes_inj_u n w a b :
  w = 8 * Z.of_nat n -> in_u w a -> in_u w b -> be_bytes n a = be_bytes n b -> a = b.
Proof.
  intros Hw Ha Hb E. rewrite <- (of_be_be_bytes_u n w a Hw Ha), E.
  by apply (of_be_be_bytes_u n w).
Qed.

Lemma of_be_in_u l w : w = 8 * blen l -> in_u w (of_be l).
Proof. intros ->. unfold in_u. rewrite <- pow256. apply of_be_range. Qed.

Lemma sl_app_drop i j buf : (i <= j)%nat -> sl i j buf ++ drop j buf = drop i buf.
Proof.
  intros H. unfold sl. replace j with (i + (j - i))%nat at 2 by lia.
  rewrite <- drop_drop. apply take_drop.
Qed.

Lemma length_sl i j buf : (i <= j <= length buf)%nat -> length (sl i j buf) = (j - i)%nat.
Proof. intros H. unfold sl. rewrite length_take, length_drop. lia. Qed.

Lemma be_bytes_sl i j n buf :
  (i <= j <= length buf)%nat -> n = (j - i)%nat -> be_bytes n (of_be (sl i j buf)) = sl i j buf.
Proof. intros H ->. rewrite <- (length_sl i j buf H). apply be_bytes_of_be. Qed.

Lemma of_be_sl_in_u i j w buf :
  (i <= j <= length buf)%nat -> w = 8 * Z.of_nat (j - i) -> in_u w (of_be (sl i j buf)).
Proof. intros H ->. apply of_be_in_u. unfold blen. by rewrite length_sl. Qed.

Lemma parse_make h payload :
  Header_wf h -> p2p_udp_parse_header (p2p_udp_make_header h ++ payload) = Some h.
Proof.
  intros (Hf & Hm & Hi & Hc & Ht & Hl). destruct h as [f m i c t tg].
  cbn [flags msg_id frag_idx frag_cnt timestamp tag] in *.
  unfold p2p_udp_parse_header.
  set (buf := p2p_udp_make_header (mkHeader f m i c t tg) ++ payload).
  assert (blen buf = 54 + blen payload) as Hlen.
  { unfold buf, p2p_udp_make_header, blen; simpl.
    rewrite !length_app, Hl. simpl. lia. }
  rewrite (proj2 (Z.ltb_ge _ _)) by (rewrite Hlen; unfold P2P_UDP_HEADER_LEN, blen; lia).
  change (sl 0 4 buf) with P2P_UDP_MAGIC. rewrite bool_decide_false by (intros H; by apply H).
  change (sl 4 5 buf) with (be_bytes 1 P2P_UDP_VERSION).
  rewrite (of_be_be_bytes_u 1 8) by done.
  rewrite bool_decide_false by (intros H; by apply H).
  change (sl 5 6 buf) with (be_bytes 1 f). change (sl 6 10 buf) with (be_bytes 4 m).
  change (sl 10 12 buf) with (be_bytes 2 i). change (sl 12 14 buf) with (be_bytes 2 c).
  change (sl 14 22 buf) with (be_bytes 8 t).
  change (sl 22 54 buf) with (take 32 (tg ++ payload)).
  rewrite (of_be_be_bytes_u 1 8), (of_be_be_bytes_u 4 32), !(of_be_be_bytes_u 2 16),
    (of_be_be_bytes_u 8 64) by done.
  destruct (take_drop_app 32 tg payload Hl) as [-> _]. done.
Qed.

Lemma make_parse buf h :
  p2p_udp_parse_header buf = Some h ->
  Header_wf h /\ buf = p2p_udp_make_header h ++ drop 54 buf.
Proof.
  unfold p2p_udp_parse_header. intros H.
  destruct (blen buf <? P2P_UDP_HEADER_LEN) eqn:E1; [done|].
  destruct (bool_decide (sl 0 4 buf <> _)) eqn:E2; [done|].
  destruct (bool_decide (_ <> P2P_UDP_VERSION)) eqn:E3; [done|].
  injection H as <-. bool_hyps.
  apply dec_stable in E2, E3.
  assert (54 <= length buf)%nat as Hlen by (unfold P2P_UDP_HEADER_LEN, blen in E1; lia).
  split.
  - repeat split; simpl; try (eapply of_be_sl_in_u; [lia|reflexivity]).
    apply length_sl. lia.
  - unfold p2p_udp_make_header. cbn [flags msg_id frag_idx frag_cnt timestamp tag].
    rewrite <- E2, <- E3. rewrite !(be_bytes_sl _ _ _ buf) by lia.
    rewrite <- !app_assoc, !sl_app_drop by lia. done.
Qed.

(** The packet header is a bijective encoding: every well-formed header, followed by
    any payload, is parsed back, and every buffer the parser accepts is the encoding of
    the header it returns followed by the payload. *)
Theorem header_roundtrip :
  (forall h payload, Header_wf h ->
     p2p_udp_parse_header (p2p_udp_make_header h ++ payload) = Some h)
  /\ (forall buf h, p2p_udp_parse_header buf = Some h ->
     Header_wf h /\ buf = p2p_udp_make_header h ++ drop 54 buf).
Proof. split; [apply parse_make|apply make_parse]. Qed.

Ltac peel w :=
  match goal with
  | H : be_bytes ?n ?a ++ ?x = be_bytes ?n ?b ++ ?y |- _ =>
      let E := fresh "E" in
      apply app_inj_length in H as [E H]; [|by rewrite !length_be_bytes];
      apply (be_bytes_inj_u n w) in E; [|reflexivity|assumption|assumption]; subst
  end.

Definition mac_fields_ok (c : bytes) (f m i n t : Z) : Prop :=
  length c = 16%nat /\ in_u 8 f /\ in_u 32 m /\ in_u 16 i /\ in_u 16 n /\ in_u 64 t.

(** The MAC inputs determine everything they authenticate: two datagram inputs are
    equal only for the same connection, flags, message, fragment, timestamp and payload;
    two envelope inputs only for the same connection, sequence number, timestamp and
    payload; and no datagram input is an envelope input. *)
Theorem mac_inputs_injective :
  (forall c f m i n t p c' f' m' i' n' t' p',
     mac_fields_ok c f m i n t -> mac_fields_ok c' f' m' i' n' t' ->
     p2p_udp_mac_input c f m i n t p = p2p_udp_mac_input c' f' m' i' n' t' p' ->
     c = c' /\ f = f' /\ m = m' /\ i = i' /\ n = n' /\ t = t' /\ p = p')
  /\ (forall c s t p c' s' t' p', length c = 16%nat -> length c' = 16%nat ->
     in_u 64 s -> in_u 64 t -> in_u 64 s' -> in_u 64 t' ->
     tcp_mac_input c s t p = tcp_mac_input c' s' t' p' ->
     c = c' /\ s = s' /\ t = t' /\ p = p')
  /\ (forall c f m i n t p c' s' t' p',
     p2p_udp_mac_input c f m i n t p <> tcp_mac_input c' s' t' p').
Proof.
  split; [|split].
  - intros * (Hc & Hf & Hm & Hi & Hn & Ht) (Hc' & Hf' & Hm' & Hi' & Hn' & Ht') H.
    unfold p2p_udp_mac_input in H. apply app_inv_head in H.
    apply app_inj_length in H as [-> H]; [|congruence].
    peel 8. peel 32. peel 16. peel 16. peel 64. done.
  - intros * Hc Hc' Hs Ht Hs' Ht' H. unfold tcp_mac_input in H. apply app_inv_head in H.
    apply app_inj_length in H as [-> H]; [|congruence]. peel 64. peel 64. done.
  - intros * H. unfold p2p_udp_mac_input, tcp_mac_input in H.
    apply app_inj_length in H as [H _]; [|reflexivity]. discriminate H.
Qed.

Lemma fresh_spec timestamp now :
  in_u 64 now ->
  p2p_timestamp_is_fresh timestamp now = true
  <-> timestamp <= Z.min (now + 30) (2 ^ 64 - 1) /\ now - P2P_REPLAY_WINDOW_SECS <= timestamp.
Proof.
  intros Hn. unfold p2p_timestamp_is_fresh, sat_add, sat_sub, P2P_REPLAY_WINDOW_SECS.
  rewrite andb_true_iff, !Z.leb_le. lia.
Qed.

(** Fragment validation accepts exactly the authentic, fresh, well-formed fragments:
    the metadata is that of an acknowledgement or of one of at most 128 fragments, the
    timestamp is within 300 s of the past and 30 s of the future, and the tag is the MAC
    of all the fields under the connection's secret. *)
Theorem validate_fragment_spec `{M : Mac} (secret connection_id : bytes) (h : Header)
    (payload : bytes) (now : Z) :
  Header_wf h -> in_u 64 now ->
  p2p_udp_validate_fragment secret connection_id h payload now = Ok ()
  <-> ((Z.land (flags h) 1 <> 0 /\ frag_idx h = 0 /\ frag_cnt h = 0 /\ payload = [])
       \/ (Z.land (flags h) 1 = 0 /\ frag_idx h < frag_cnt h <= 128))
      /\ now - 300 <= timestamp h <= now + 30
      /\ tag h = p2p_udp_tag secret connection_id (flags h) (msg_id h) (frag_idx h)
                   (frag_cnt h) (timestamp h) payload.
Proof.
  intros Hwf Hnow. destruct Hwf as (Hf & Hm & Hi & Hc & Ht & Hl).
  unfold p2p_udp_validate_fragment, P2P_UDP_FLAG_ACK, P2P_MAX_FRAGMENTS_PER_MESSAGE.
  assert ((blen payload =? 0) = bool_decide (payload = [])) as ->
    by (destruct payload; reflexivity).
  assert (p2p_timestamp_is_fresh (timestamp h) now
          = bool_decide (now - 300 <= timestamp h <= now + 30)) as ->.
  { apply eq_true_iff_eq. rewrite fresh_spec, bool_decide_eq_true by done.
    unfold P2P_REPLAY_WINDOW_SECS, in_u in *. lia. }
  unfold in_u in *.
  repeat case_bool_decide;
  destruct (Z.eqb_spec (Z.land (flags h) 1) 0), (Z.eqb_spec (frag_idx h) 0),
    (Z.eqb_spec (frag_cnt h) 0), (Z.ltb_spec 128 (frag_cnt h)),
    (Z.leb_spec (frag_cnt h) (frag_idx h));
  cbn; (split; [try discriminate|]); intuition (try congruence; try lia).
Qed.

Lemma header_roundtrip_witness :
  let h := {| flags := 0; msg_id := 42; frag_idx := 0; frag_cnt := 1; timestamp := 1000;
              tag := replicate 32 Byte.xff |} in
  p2p_udp_parse_header (p2p_udp_make_header h ++ b!"payload") = Some h.
Proof.
  apply (proj1 header_roundtrip). repeat split; vm_compute; congruence.
Defined.

Lemma mac_inputs_injective_witness :
  p2p_udp_mac_input (replicate 16 Byte.x01) 0 7 0 1 9 b!"a"
  <> p2p_udp_mac_input (replicate 16 Byte.x01) 0 7 0 1 9 b!"b".
Proof.
  intros H.
  destruct (proj1 mac_inputs_injective (replicate 16 Byte.x01) 0 7 0 1 9 b!"a"
    (replicate 16 Byte.x01) 0 7 0 1 9 b!"b") as (_ & _ & _ & _ & _ & _ & E); try done;
    repeat split; vm_compute; congruence.
Defined.

Lemma validate_fragment_spec_witness :
  let M : Mac := fun k d => take 32 (k ++ d) in
  let h := signed_header (replicate 32 Byte.x07) (replicate 16 Byte.x03) 0 42 0 1 1000
             b!"payload" in
  p2p_udp_validate_fragment (replicate 32 Byte.x07) (replicate 16 Byte.x03) h b!"payload" 1000
  = Ok ().
Proof.
  intros M h.
  apply (proj2 (validate_fragment_spec (replicate 32 Byte.x07) (replicate 16 Byte.x03) h
    b!"payload" 1000 ltac:(repeat split; vm_compute; congruence)
    ltac:(split; vm_compute; congruence))).
  split; [right; vm_compute; intuition congruence|].
  split; [vm_compute; intuition congruence|reflexivity].
Defined.
End PacketFacts.

(** ** Facts: the replay window *)
Module ReplayFacts.
Import Replay.

Definition coherent (s : gset Z) (o : list (Z * Z)) : Prop :=
  s = list_to_set o.*1 /\ NoDup o.*1.

Definition window_inv (w : P2PReplayWindow) : Prop :=
  coherent (seen w) (order w) /\ blen (order w) <= P2P_REPLAY_CACHE_LIMIT.

(** A window that still remembers [e] with the entries [post] pushed after it. *)
Definition remembers (o : list (Z * Z)) (e : Z * Z) (post : list (Z * Z)) : Prop :=
  exists pre, o = pre ++ e :: post.

Lemma coherent_pop s q t o : coherent s ((q, t) :: o) -> coherent (s ∖ {[q]}) o.
Proof.
  intros [-> Hnd]. cbn in *. apply NoDup_cons in Hnd as [Hq Hnd]. split; [|done].
  rewrite <- (elem_of_list_to_set (C := gset Z)) in Hq. set_solver.
Qed.

Lemma coherent_push s o q t : coherent s o -> q ∉ s -> coherent ({[q]} ∪ s) (o ++ [(q, t)]).
Proof.
  intros [-> Hnd] Hq. split.
  - rewrite fmap_app. cbn. rewrite list_to_set_app_L. set_solver.
  - rewrite fmap_app. cbn. apply NoDup_app. split; [done|]. split; [|apply NoDup_singleton].
    intros x Hx. rewrite elem_of_list_to_set in Hq. set_solver.
Qed.

Lemma prune_age_spec now s o s' o' :
  prune_age now s o = (s', o') -> coherent s o ->
  coherent s' o' /\ blen o' <= blen o
  /\ (forall q t post, remembers o (q, t) post -> now - t <= P2P_REPLAY_WINDOW_SECS ->
        remembers o' (q, t) post).
Proof.
  revert s. induction o as [|[q t] o IH]; intros s; cbn [prune_age].
  - intros E. injection E as <- <-. intros. split; [done|]. split; [lia|eauto].
  - destruct (Z.leb_spec (sat_sub now t) P2P_REPLAY_WINDOW_SECS) as [Hf|Hf].
    + intros E. injection E as <- <-. intros. split; [done|]. split; [lia|eauto].
    + intros E Hc. destruct (IH _ E (coherent_pop _ _ _ _ Hc)) as (H1 & H2 & H3).
      split; [done|]. split; [unfold blen in *; cbn; lia|].
      intros q' t' post [pre Hpre] Hfresh. destruct pre as [|e pre].
      * injection Hpre as <- <- _. unfold sat_sub, P2P_REPLAY_WINDOW_SECS in *. lia.
      * injection Hpre as _ ->. apply H3; [by exists pre|done].
Qed.

Lemma prune_cap_spec s o s' o' :
  prune_cap s o = (s', o') -> coherent s o ->
  coherent s' o' /\ blen o' <= P2P_REPLAY_CACHE_LIMIT
  /\ (forall e post, remembers o e post -> blen post < P2P_REPLAY_CACHE_LIMIT ->
        remembers o' e post).
Proof.
  revert s. induction o as [|[q t] o IH]; intros s; cbn [prune_cap].
  - intros E. injection E as <- <-. intros. split; [done|].
    split; [unfold blen, P2P_REPLAY_CACHE_LIMIT; cbn; lia|eauto].
  - destruct (Z.ltb_spec P2P_REPLAY_CACHE_LIMIT (blen ((q, t) :: o))) as [Hf|Hf].
    + intros E Hc. destruct (IH _ E (coherent_pop _ _ _ _ Hc)) as (H1 & H2 & H3).
      split; [done|]. split; [done|]. intros e post [pre Hpre] Hpost.
      destruct pre as [|e' pre].
      * injection Hpre as _ ->. unfold blen in *. cbn [length] in *. lia.
      * injection Hpre as _ ->. apply H3; [by exists pre|done].
    + intros E. injection E as <- <-. intros. split; [done|]. split; [lia|eauto].
Qed.

Lemma prune_spec now w :
  coherent (seen w) (order w) ->
  window_inv (prune now w) /\ blen (order (prune now w)) <= P2P_REPLAY_CACHE_LIMIT
  /\ (forall q t post, remembers (order w) (q, t) post ->
        now - t <= P2P_REPLAY_WINDOW_SECS -> blen post < P2P_REPLAY_CACHE_LIMIT ->
        remembers (order (prune now w)) (q, t) post).
Proof.
  intros Hc. unfold prune. destruct (prune_age _ _ _) as [s o] eqn:E1.
  destruct (prune_cap s o) as [s' o'] eqn:E2.
  destruct (prune_age_spec _ _ _ _ _ E1 Hc) as (A1 & A2 & A3).
  destruct (prune_cap_spec _ _ _ _ E2 A1) as (B1 & B2 & B3).
  cbn. split; [by split|]. split; [done|]. eauto.
Qed.

Lemma accept_inv seq ts now w :
  window_inv w -> window_inv (accept_tcp_seq seq ts now w).2.
Proof.
  intros [Hc _]. unfold accept_tcp_seq.
  destruct (prune_spec now w Hc) as (Hinv & _ & _).
  case_bool_decide as Hs; cbn; [done|].
  apply prune_spec. cbn. apply coherent_push; [apply Hinv|done].
Qed.

(** An accepted sequence number is remembered as the newest entry. *)
Lemma accept_remembers seq ts now w w' :
  window_inv w -> now - ts <= P2P_REPLAY_WINDOW_SECS ->
  accept_tcp_seq seq ts now w = (true, w') -> remembers (order w') (seq, ts) [].
Proof.
  intros [Hc _] Hf. unfold accept_tcp_seq.
  destruct (prune_spec now w Hc) as (Hinv & _ & _).
  case_bool_decide as Hs; intros E; [done|]. injection E as <-.
  apply prune_spec; [|by eexists|done|unfold blen, P2P_REPLAY_CACHE_LIMIT; cbn; lia].
  cbn. apply coherent_push; [apply Hinv|done].
Qed.

(** A later attempt keeps a fresh remembered entry, with at most one more after it. *)
Lemma accept_keeps seq ts now w b w' q t post :
  window_inv w -> accept_tcp_seq seq ts now w = (b, w') ->
  remembers (order w) (q, t) post -> now - t <= P2P_REPLAY_WINDOW_SECS ->
  blen post + Z.b2z b < P2P_REPLAY_CACHE_LIMIT ->
  exists post', remembers (order w') (q, t) post' /\ blen post' = blen post + Z.b2z b.
Proof.
  intros [Hc _] E Hr Hf Hp. unfold accept_tcp_seq in E.
  destruct (prune_spec now w Hc) as (Hinv & _ & Hk).
  assert (0 <= Z.b2z b) by (destruct b; cbn; lia).
  specialize (Hk q t post Hr Hf ltac:(lia)).
  case_bool_decide as Hs; simplify_eq.
  - exists post. split; [done|]. cbn. lia.
  - exists (post ++ [(seq, ts)]). split; [|rewrite blen_app; change (blen [(seq, ts)]) with 1; cbn; lia].
    apply prune_spec; [cbn; apply coherent_push; [apply Hinv|done]| |done|].
    + destruct Hk as [pre ->]. exists pre. cbn. by rewrite <- app_assoc.
    + rewrite blen_app. change (blen [(seq, ts)]) with 1. cbn [Z.b2z] in *. lia.
Qed.

Lemma accept_rejects q t ts now w post :
  window_inv w -> remembers (order w) (q, t) post -> now - t <= P2P_REPLAY_WINDOW_SECS ->
  blen post < P2P_REPLAY_CACHE_LIMIT ->
  (accept_tcp_seq q ts now w).1 = false.
Proof.
  intros [Hc _] Hr Hf Hp. unfold accept_tcp_seq.
  destruct (prune_spec now w Hc) as (((Hseen & _) & _) & _ & Hk).
  rewrite bool_decide_true; [done|]. rewrite Hseen.
  destruct (Hk q t post Hr Hf Hp) as [pre ->]. rewrite fmap_app. set_solver.
Qed.

(** A run of attempts [(seq, timestamp, now)], with the answers it gave. *)
Fixpoint run_window (w : P2PReplayWindow) (atts : list (Z * Z * Z))
    : list bool * P2PReplayWindow :=
  match atts with
  | [] => ([], w)
  | (seq, ts, now) :: atts' =>
      let '(b, w) := accept_tcp_seq seq ts now w in
      let '(bl, w) := run_window w atts' in (b :: bl, w)
  end.

Lemma run_window_app w a b :
  (run_window w (a ++ b)).2 = (run_window (run_window w a).2 b).2.
Proof.
  revert w. induction a as [|[[s t] n] a IH]; intros w; [done|]. cbn.
  destruct (accept_tcp_seq s t n w) as [x w1]. specialize (IH w1).
  destruct (run_window w1 (a ++ b)), (run_window w1 a). done.
Qed.

Lemma run_keeps atts w bl w' q t post now :
  window_inv w -> run_window w atts = (bl, w') ->
  remembers (order w) (q, t) post ->
  Forall (fun a => a.2 <= now) atts -> now - t <= P2P_REPLAY_WINDOW_SECS ->
  blen post + sum_Z Z.b2z bl < P2P_REPLAY_CACHE_LIMIT ->
  window_inv w' /\ exists post', remembers (order w') (q, t) post'
    /\ blen post' < P2P_REPLAY_CACHE_LIMIT.
Proof.
  revert w bl post. induction atts as [|[[s0 t0] n0] atts IH]; intros w bl post Hinv E Hr Hall Hf Hp.
  - injection E as <- <-. split; [done|]. exists post. split; [done|]. cbn in Hp. lia.
  - cbn in E. destruct (accept_tcp_seq s0 t0 n0 w) as [b w1] eqn:E1.
    destruct (run_window w1 atts) as [bl1 w2] eqn:E2. injection E as <- <-.
    cbn [sum_Z] in Hp. apply Forall_cons in Hall as [Hn Hall]. cbn in Hn.
    assert (0 <= sum_Z Z.b2z bl1) by (apply sum_Z_nonneg; intros []; cbn; lia).
    destruct (accept_keeps s0 t0 n0 w b w1 q t post Hinv E1 Hr ltac:(lia) ltac:(lia))
      as (post' & Hr' & Hlen).
    eapply IH; [|exact E2|exact Hr'|exact Hall|exact Hf|lia].
    pose proof (accept_inv s0 t0 n0 w Hinv) as H'. by rewrite E1 in H'.
Qed.

(** Replay protection: once a sequence number has been accepted with a timestamp, a
    second presentation is rejected after any intermediate traffic on a clock that has not
    run past the 300 s validity of that timestamp, as long as fewer than 4096 other
    messages were accepted in between. (Past the validity the envelope is stale.) *)
Theorem replay_rejected (w : P2PReplayWindow) (seq ts ts' now0 now : Z)
    (atts : list (Z * Z * Z)) :
  window_inv w ->
  (accept_tcp_seq seq ts now0 w).1 = true ->
  now0 <= now -> now - ts <= P2P_REPLAY_WINDOW_SECS ->
  Forall (fun a => a.2 <= now) atts ->
  let '(bl, w') := run_window (accept_tcp_seq seq ts now0 w).2 atts in
  sum_Z Z.b2z bl < P2P_REPLAY_CACHE_LIMIT ->
  (accept_tcp_seq seq ts' now w').1 = false.
Proof.
  intros Hinv Hacc Hnow Hf Hall.
  destruct (run_window _ atts) as [bl w'] eqn:E. intros Hcount.
  pose proof (accept_inv seq ts now0 w Hinv) as Hinv1.
  destruct (accept_tcp_seq seq ts now0 w) as [b w1] eqn:E1. cbn [fst snd] in *. subst b.
  pose proof (accept_remembers seq ts now0 w w1 Hinv ltac:(lia) E1) as Hr.
  destruct (run_keeps atts w1 bl w' seq ts [] now Hinv1 E Hr Hall Hf) as [Hinv' (post & Hr' & Hp)].
  { change (blen (@nil (Z * Z))) with 0. lia. }
  by eapply accept_rejects.
Qed.

(** Every window reachable from the empty one is coherent and bounded: the set of
    seen numbers is exactly the queue's, without duplicates, at most 4096 entries. *)
Theorem replay_window_bounded (atts : list (Z * Z * Z)) :
  window_inv (run_window new atts).2.
Proof.
  assert (window_inv new) as H0.
  { split; [split; [done|constructor]|]. vm_compute. discriminate. }
  revert H0. generalize new. induction atts as [|[[s t] n] atts IH]; intros w Hw; [done|].
  cbn. destruct (accept_tcp_seq s t n w) as [b w1] eqn:E.
  destruct (run_window w1 atts) as [bl w2] eqn:E2. cbn.
  pose proof (accept_inv s t n w Hw) as H1. rewrite E in H1.
  specialize (IH w1 H1). by rewrite E2 in IH.
Qed.

Definition all_fresh (now : Z) (o : list (Z * Z)) : Prop :=
  Forall (fun e => now - e.2 <= P2P_REPLAY_WINDOW_SECS) o.

Lemma prune_age_fresh now s o : all_fresh now o -> prune_age now s o = (s, o).
Proof.
  intros Hf. destruct Hf as [|[q t] o Hq Hf]; [done|]. cbn [prune_age].
  rewrite (proj2 (Z.leb_le _ _)); [done|].
  unfold sat_sub, P2P_REPLAY_WINDOW_SECS in *. cbn [snd] in Hq. lia.
Qed.

Lemma prune_cap_small s o : blen o <= P2P_REPLAY_CACHE_LIMIT -> prune_cap s o = (s, o).
Proof.
  intros H. destruct o as [|[q t] o]; [done|]. cbn [prune_cap].
  by rewrite (proj2 (Z.ltb_ge _ _)) by lia.
Qed.

(** Sequence numbers presented at one instant with one timestamp. *)
Definition burst (ts now : Z) (seqs : list Z) : list (Z * Z * Z) :=
  (fun s => (s, ts, now)) <$> seqs.

Lemma burst_fills ts now seqs s o :
  now - ts <= P2P_REPLAY_WINDOW_SECS -> coherent s o -> all_fresh now o ->
  NoDup (o.*1 ++ seqs) -> blen o + blen seqs <= P2P_REPLAY_CACHE_LIMIT ->
  exists s', (run_window (mkWindow s o) (burst ts now seqs)).2
               = mkWindow s' (o ++ ((fun q => (q, ts)) <$> seqs))
    /\ coherent s' (o ++ ((fun q => (q, ts)) <$> seqs))
    /\ all_fresh now (o ++ ((fun q => (q, ts)) <$> seqs)).
Proof.
  intros Hts. revert s o. induction seqs as [|q seqs IH]; intros s o Hc Hf Hnd Hlen.
  - exists s. cbn. rewrite app_nil_r. done.
  - assert (q ∉ s) as Hq.
    { destruct Hc as [-> _]. rewrite elem_of_list_to_set. apply NoDup_app in Hnd. set_solver. }
    assert (all_fresh now (o ++ [(q, ts)])) as Hf'.
    { apply Forall_app. split; [done|]. by repeat constructor. }
    unfold blen in Hlen; cbn [length] in Hlen.
    cbn [burst fmap list_fmap run_window]. unfold accept_tcp_seq, prune. cbn [seen order].
    rewrite prune_age_fresh, prune_cap_small by (try done; unfold blen; lia).
    cbn [seen order]. rewrite bool_decide_false by done.
    rewrite prune_age_fresh, prune_cap_small by (try done; unfold blen; rewrite length_app; cbn; lia).
    destruct (IH ({[q]} ∪ s) (o ++ [(q, ts)])) as (s' & E & Hc' & Hf'').
    + by apply coherent_push.
    + done.
    + rewrite fmap_app, <- app_assoc. done.
    + unfold blen. rewrite length_app. cbn. lia.
    + exists s'. unfold burst in E. destruct (run_window _ _) as [bl w2]. cbn in *.
      rewrite E. rewrite <- app_assoc in *. done.
Qed.

Lemma window_evicts_oldest now q t rest s q2 t2 :
  coherent s ((q, t) :: rest) -> all_fresh now ((q, t) :: rest) ->
  blen ((q, t) :: rest) = P2P_REPLAY_CACHE_LIMIT -> q2 ∉ s ->
  now - t2 <= P2P_REPLAY_WINDOW_SECS ->
  (q ∉ seen (accept_tcp_seq q2 t2 now (mkWindow s ((q, t) :: rest))).2)
  /\ all_fresh now (order (accept_tcp_seq q2 t2 now (mkWindow s ((q, t) :: rest))).2)
  /\ blen (order (accept_tcp_seq q2 t2 now (mkWindow s ((q, t) :: rest))).2)
     = P2P_REPLAY_CACHE_LIMIT.
Proof.
  intros Hc Hf Hlen Hq2 Ht2.
  assert (q2 <> q) by (destruct Hc as [-> _]; set_solver).
  unfold accept_tcp_seq, prune. cbn [seen order].
  rewrite prune_age_fresh, prune_cap_small by (try done; lia).
  cbn [seen order]. rewrite bool_decide_false by done.
  assert (all_fresh now (rest ++ [(q2, t2)])) as Hf'.
  { apply Forall_cons in Hf as [_ Hf]. apply Forall_app. split; [done|]. by repeat constructor. }
  rewrite prune_age_fresh by (apply Forall_cons in Hf as [Hq _]; by constructor).
  unfold blen in Hlen. cbn [length] in Hlen.
  cbn [app prune_cap]. rewrite (proj2 (Z.ltb_lt _ _))
    by (unfold blen; cbn [length]; rewrite length_app; cbn; lia).
  rewrite prune_cap_small by (unfold blen; rewrite length_app; cbn; lia).
  cbn [snd seen order]. split; [set_solver|]. split; [done|].
  unfold blen; rewrite length_app; cbn; lia.
Qed.

(** The bound of [replay_rejected] is tight: after 4096 other messages accepted at the
    same instant, the first one has been evicted from the cache and its replay, although
    still fresh, is accepted a second time. *)
Theorem replay_accepted_after_eviction (q ts now : Z) (others : list Z) :
  now - ts <= P2P_REPLAY_WINDOW_SECS -> NoDup (q :: others) ->
  blen others = P2P_REPLAY_CACHE_LIMIT ->
  (accept_tcp_seq q ts now (run_window new (burst ts now (q :: others))).2).1 = true.
Proof.
  intros Hts Hnd Hlen.
  destruct others as [|l others' _] using rev_ind; [discriminate Hlen|].
  rewrite blen_app in Hlen. change (blen [l]) with 1 in Hlen.
  assert (NoDup (q :: others') /\ l ∉ q :: others') as [Hnd' Hl].
  { change (q :: others' ++ [l]) with ((q :: others') ++ [l]) in Hnd.
    apply NoDup_app in Hnd as (H1 & H2 & _). split; [done|]. set_solver. }
  destruct (burst_fills ts now (q :: others') ∅ []) as (s & E & Hc & Hf);
    [done| | |done| |].
  { by split; [|constructor]. } { constructor. } { unfold blen in *; cbn [length]; lia. }
  change (burst ts now (q :: others' ++ [l])) with (burst ts now ((q :: others') ++ [l])).
  unfold burst. rewrite fmap_app, run_window_app. fold (burst ts now (q :: others')).
  change new with (mkWindow ∅ []). rewrite E.
  assert (l ∉ s) as Hls.
  { destruct Hc as [-> _]. rewrite elem_of_list_to_set. cbn in *. rewrite <- list_fmap_compose.
    cbn. by rewrite list_fmap_id. }
  destruct (window_evicts_oldest now q ts ((fun q => (q, ts)) <$> others') s l ts) as (H1 & H2 & H3);
    try done.
  { unfold blen in *. cbn [length]. rewrite length_fmap. lia. }
  cbn [fmap list_fmap run_window]. cbn [app fmap list_fmap] in H1, H2, H3 |- *.
  destruct (accept_tcp_seq l ts now _) as [b w2]. cbn [snd] in *.
  unfold accept_tcp_seq, prune. rewrite prune_age_fresh, prune_cap_small by (try done; lia).
  cbn [seen order]. by rewrite bool_decide_false by done.
Qed.

Lemma replay_accepted_after_eviction_witness :
  (accept_tcp_seq 0 1000 1000
     (run_window new (burst 1000 1000 (0 :: seqZ 1 4096))).2).1 = true.
Proof.
  apply (replay_accepted_after_eviction 0 1000 1000 (seqZ 1 4096)).
  - unfold P2P_REPLAY_WINDOW_SECS. lia.
  - constructor; [rewrite elem_of_seqZ; lia|apply NoDup_seqZ].
  - unfold blen. rewrite length_seqZ. unfold P2P_REPLAY_CACHE_LIMIT. lia.
Defined.

Lemma replay_rejected_witness :
  (accept_tcp_seq 1 1000 1200
     (run_window (accept_tcp_seq 1 1000 1000 new).2
        [(2, 1000, 1001); (3, 1100, 1150)]).2).1 = false.
Proof.
  exact (replay_rejected new 1 1000 1000 1000 1200 [(2, 1000, 1001); (3, 1100, 1150)]
    (replay_window_bounded []) eq_refl ltac:(lia) ltac:(vm_compute; discriminate)
    ltac:(repeat constructor; vm_compute; discriminate) ltac:(vm_compute; reflexivity)).
Defined.
End ReplayFacts.

(** ** Facts: envelopes *)
Module EnvelopeFacts.
Import Packet Replay Envelope ReplayFacts PacketFacts FramingFacts.

Section Envelope.
Context `{M : Mac} `{C : Codec} {L : CodecLaws C}.

Lemma encode_envelope_Ok c cid secret seq ts e :
  p2p_encode_data_plane_envelope c cid secret seq ts = Ok e ->
  exists payload, encode_to_vec c = Some payload /\ blen payload <= MAX_MESSAGE_SIZE
    /\ e = V2 (P2PDataPlaneEnvelope cid seq ts payload
                 (hmac_sha256 secret (tcp_mac_input cid seq ts payload))).
Proof.
  unfold p2p_encode_data_plane_envelope. intros (p & Hp & H)%rbind_Ok.
  destruct (encode_to_vec c) as [q|] eqn:E; [|done]. injection Hp as ->.
  destruct (MAX_MESSAGE_SIZE <? blen p) eqn:B; [done|]. bool_hyps.
  injection H as <-. by exists p.
Qed.

(** Decoding a signed envelope that is fresh asks the replay window, and nothing else. *)
Lemma decode_signed c cid secret seq ts e now w :
  p2p_encode_data_plane_envelope c cid secret seq ts = Ok e ->
  p2p_timestamp_is_fresh ts now = true ->
  p2p_decode_data_plane_envelope e cid secret now w
  = let '(ok, w') := accept_tcp_seq seq ts now w in
    (if ok then Ok c else Err b!"replayed p2p envelope", w').
Proof.
  intros (p & Hp & Hlen & ->)%encode_envelope_Ok Hf.
  unfold p2p_decode_data_plane_envelope.
  rewrite bool_decide_false by (intros H; by apply H).
  rewrite (proj2 (Z.ltb_ge _ _)) by lia. rewrite Hf. cbn [negb].
  rewrite bool_decide_false by (intros H; by apply H).
  destruct (accept_tcp_seq seq ts now w) as [[] w']; cbn [negb]; [|done].
  by rewrite (codec_roundtrip c p Hp).
Qed.
End Envelope.


End EnvelopeFacts.
