(* ===== verification/P2PSend.v ===== *)
(** * Fragmenting and acknowledged sender ([handle_udp.rs], [p2p_udp_send_reliable])

    A payload is cut into at most 128 signed fragments; each one is resent until an
    acknowledgement arrives or ten tries have passed. The network is the sequence of
    events the socket reports. *)

From S2P Require Import Prelude Wire P2P.
From Stdlib Require Import ZArith Lia String.
From Stdlib Require Import Strings.Byte.
From stdpp Require Import base list gmap.

Local Open Scope Z_scope.
Import Packet.

(** ** Fragmentation *)

Definition max_payload : Z := sat_sub P2P_UDP_MTU_PAYLOAD P2P_UDP_HEADER_LEN.

Definition frag_count (payload : bytes) : Z :=
  Z.max ((blen payload + max_payload - 1) / max_payload) 1.

Definition frag_payload (payload : bytes) (frag_idx : Z) : bytes :=
  let start := frag_idx * max_payload in
  let end_ := Z.min ((frag_idx + 1) * max_payload) (blen payload) in
  take (Z.to_nat (end_ - start)) (drop (Z.to_nat start) payload).

(** ** Waiting for acknowledgements *)

(** What one [timeout(400ms, socket.recv_from(..))] gives, and the clock read after it. *)
Inductive RecvEvent :=
  | RecvNone
  | RecvFrom (data : bytes) (from : SocketAddr).

Inductive SendOutcome A :=
  | Done (a : A)
  | TimedOut
  | Waiting.
Arguments Done {A} a.
Arguments TimedOut {A}.
Arguments Waiting {A}.

Section Sender.
Context `{M : Mac} (to : SocketAddr) (connection_id secret : bytes) (mid : Z).

(** The receive buffer has exactly [P2P_UDP_HEADER_LEN] bytes: longer datagrams are cut. *)
Definition valid_ack (data : bytes) (now : Z) : bool :=
  match p2p_udp_parse_header (take (Z.to_nat P2P_UDP_HEADER_LEN) data) with
  | None => false
  | Some h =>
      negb (Z.land (flags h) P2P_UDP_FLAG_ACK =? 0) && (msg_id h =? mid)
      && (frag_idx h =? 0) && (frag_cnt h =? 0)
      && is_ok (p2p_udp_validate_fragment secret connection_id h [] now)
  end.

(** The retry loop of one fragment: the number of transmissions, the unread events and
    how it ended. A datagram from another source [continue]s without looking at [tries]. *)
Fixpoint await_ack (tries : Z) (sent : nat) (env : list (RecvEvent * Z))
    : nat * list (RecvEvent * Z) * SendOutcome () :=
  match env with
  | [] => (sent, [], Waiting)
  | (ev, now) :: env' =>
      let tries := tries + 1 in
      let check_tries :=
        if 10 <=? tries then (S sent, env', TimedOut)
        else await_ack tries (S sent) env' in
      match ev with
      | RecvNone => check_tries
      | RecvFrom data from =>
          if bool_decide (from <> to) then await_ack tries (S sent) env'
          else if valid_ack data now then (S sent, env', Done ())
          else check_tries
      end
  end.

Definition frag_packet (payload : bytes) (cnt idx timestamp : Z) : bytes :=
  let p := frag_payload payload idx in
  p2p_udp_make_header
    (signed_header secret connection_id 0 mid (wrap 16 idx) (wrap 16 cnt) timestamp p) ++ p.

(** All fragments from [idx] on; the packets sent, each with its transmission count. *)
Fixpoint send_from (fuel : nat) (payload : bytes) (cnt idx : Z) (clock : Z -> Z)
    (env : list (RecvEvent * Z)) : list (bytes * nat) * SendOutcome () :=
  match fuel with
  | O => ([], Done ())
  | S fuel' =>
      let pkt := frag_packet payload cnt idx (clock idx) in
      match await_ack 0 0 env with
      | (n, env', Done _) =>
          let '(l, r) := send_from fuel' payload cnt (idx + 1) clock env' in ((pkt, n) :: l, r)
      | (n, _, TimedOut) => ([(pkt, n)], TimedOut)
      | (n, _, Waiting) => ([(pkt, n)], Waiting)
      end
  end.

Definition p2p_udp_send_reliable (payload : bytes) (clock : Z -> Z)
    (env : list (RecvEvent * Z)) : result (list (bytes * nat) * SendOutcome ()) :=
  if max_payload =? 0 then Err b!"p2p udp mtu too small"
  else
    let cnt := frag_count payload in
    if P2P_MAX_FRAGMENTS_PER_MESSAGE <? cnt then Err b!"p2p udp too many fragments"
    else Ok (send_from (Z.to_nat cnt) payload cnt 0 clock env).
End Sender.

(** ** Facts *)
Module P2PSendFacts.
Import PacketFacts.

Lemma max_payload_val : max_payload = 1146.
Proof. reflexivity. Qed.

Lemma frag_count_bounds payload :
  1 <= frag_count payload
  /\ blen payload <= frag_count payload * max_payload
  /\ (payload <> [] -> (frag_count payload - 1) * max_payload < blen payload).
Proof.
  unfold frag_count. rewrite max_payload_val. pose proof (blen_nonneg payload).
  pose proof (Z.div_mod (blen payload + 1146 - 1) 1146 ltac:(lia)).
  pose proof (Z.mod_pos_bound (blen payload + 1146 - 1) 1146 ltac:(lia)).
  split; [lia|]. split; [lia|]. intros Hne.
  assert (0 < blen payload) by (destruct payload; [done|unfold blen; cbn; lia]). lia.
Qed.

Lemma frag_payload_take payload idx :
  0 <= idx < frag_count payload ->
  frag_payload payload idx
  = take (Z.to_nat max_payload) (drop (Z.to_nat (idx * max_payload)) payload).
Proof.
  intros Hidx. unfold frag_payload. destruct (frag_count_bounds payload) as (_ & Hup & Hlo).
  rewrite max_payload_val in *.
  destruct (decide ((idx + 1) * 1146 <= blen payload)) as [Hle|Hgt].
  - f_equal. lia.
  - rewrite Z.min_r by lia. unfold blen in *.
    rewrite !take_ge; [done| |]; rewrite length_drop; lia.
Qed.

Definition frag_payloads (payload : bytes) : list bytes :=
  frag_payload payload <$> seqZ 0 (frag_count payload).

Lemma chunks_concat (n : nat) (k : nat) (l : bytes) (start : nat) :
  (length l <= start + n * k)%nat ->
  concat ((fun i => take k (drop (start + i * k) l)) <$> seq 0 n) = drop start l.
Proof.
  revert start. induction n as [|n IH]; intros start H.
  - cbn. symmetry. apply drop_ge. lia.
  - cbn [seq fmap list_fmap concat]. rewrite <- fmap_S_seq, <- list_fmap_compose.
    rewrite Nat.mul_0_l, Nat.add_0_r.
    transitivity (take k (drop start l) ++ drop (start + k) l).
    + f_equal. rewrite <- (IH (start + k)%nat) by lia. f_equal.
      apply list_fmap_ext. intros _ i _. cbn. do 2 f_equal. lia.
    + rewrite <- drop_drop. apply take_drop.
Qed.

Lemma frag_payloads_concat payload : concat (frag_payloads payload) = payload.
Proof.
  destruct (frag_count_bounds payload) as (H1 & Hup & _). unfold frag_payloads, seqZ.
  rewrite <- list_fmap_compose.
  rewrite <- (drop_0 payload) at 3.
  rewrite <- (chunks_concat (Z.to_nat (frag_count payload)) (Z.to_nat max_payload) payload 0).
  - f_equal. apply list_fmap_ext. intros j i Hi. cbn.
    apply lookup_seq in Hi as [-> Hi].
    rewrite frag_payload_take by lia. do 2 f_equal. rewrite max_payload_val. lia.
  - unfold blen in Hup. rewrite max_payload_val in *. lia.
Qed.

(** Fragmentation is lossless and bounded: a payload of at most 146 688 bytes is cut
    into between 1 and 128 fragments whose concatenation in index order is the payload,
    each non-empty unless the payload is empty, and every packet fits in 1200 bytes;
    a longer payload is refused. *)
Theorem fragmentation_lossless `{M : Mac} (payload : bytes) :
  concat (frag_payloads payload) = payload
  /\ (forall p, p ∈ frag_payloads payload ->
        blen p <= max_payload /\ (payload <> [] -> p <> []))
  /\ (frag_count payload <= P2P_MAX_FRAGMENTS_PER_MESSAGE <-> blen payload <= 146688)
  /\ (forall to cid secret mid clock env, 146688 < blen payload ->
        p2p_udp_send_reliable to cid secret mid payload clock env
        = Err b!"p2p udp too many fragments").
Proof.
  destruct (frag_count_bounds payload) as (H1 & Hup & Hlo).
  assert (frag_count payload <= P2P_MAX_FRAGMENTS_PER_MESSAGE <-> blen payload <= 146688) as Hiff.
  { unfold P2P_MAX_FRAGMENTS_PER_MESSAGE. rewrite max_payload_val in *.
    destruct payload; [vm_compute; intuition congruence|].
    specialize (Hlo ltac:(done)). lia. }
  split; [apply frag_payloads_concat|]. split; [|split; [done|]].
  - intros p (i & -> & Hi)%list_elem_of_fmap. apply elem_of_seqZ in Hi.
    rewrite frag_payload_take by lia. rewrite max_payload_val in *. split.
    + unfold blen. rewrite length_take. lia.
    + intros Hne Hnil. apply (f_equal length) in Hnil.
      rewrite length_take, length_drop in Hnil. specialize (Hlo Hne). unfold blen in Hlo.
      cbn in Hnil. lia.
  - intros. unfold p2p_udp_send_reliable. rewrite max_payload_val. cbn [Z.eqb].
    rewrite (proj2 (Z.ltb_lt _ _)); [done|]. lia.
Qed.

Section Sender.
Context `{M : Mac} (to : SocketAddr) (connection_id secret : bytes) (mid : Z).

Definition from_peer (e : RecvEvent * Z) : Prop :=
  match e.1 with RecvNone => True | RecvFrom _ from => from = to end.

Lemma await_ack_bounded env tries sent :
  Forall from_peer env -> 0 <= tries < 10 -> (10 - tries <= blen env) ->
  exists n env' r, await_ack to connection_id secret mid tries sent env = (n, env', r)
    /\ r <> Waiting /\ (n <= sent + Z.to_nat (10 - tries))%nat.
Proof.
  revert tries sent. induction env as [|[ev now] env IH]; intros tries sent Hall Ht Hlen.
  { unfold blen in Hlen. cbn in Hlen. lia. }
  apply Forall_cons in Hall as [Hev Hall].
  assert (exists n env' r, (if 10 <=? tries + 1 then (S sent, env, TimedOut)
     else await_ack to connection_id secret mid (tries + 1) (S sent) env) = (n, env', r)
     /\ r <> Waiting /\ (n <= sent + Z.to_nat (10 - tries))%nat) as Hcheck.
  { destruct (Z.leb_spec 10 (tries + 1)).
    - eexists _, _, _. split; [done|]. split; [done|lia].
    - unfold blen in Hlen. cbn [length] in Hlen.
      destruct (IH (tries + 1) (S sent) Hall ltac:(lia) ltac:(unfold blen; lia))
        as (n & e & r & E & Hr & Hn).
      eexists _, _, _. split; [done|]. split; [done|lia]. }
  cbn [await_ack]. destruct ev as [|data from]; [done|].
  cbn in Hev. subst from. rewrite bool_decide_false by (intros H; by apply H).
  destruct (valid_ack connection_id secret mid data now); [|done].
  eexists _, _, _. split; [done|]. split; [done|lia].
Qed.

(** Foreign datagrams only: the loop is still waiting, one transmission for each. *)
Lemma await_ack_foreign env tries sent :
  Forall (fun e => exists data from, e.1 = RecvFrom data from /\ from <> to) env ->
  await_ack to connection_id secret mid tries sent env
  = ((sent + length env)%nat, [], Waiting).
Proof.
  revert tries sent. induction env as [|[ev now] env IH]; intros tries sent Hall.
  { cbn. do 2 f_equal. lia. }
  apply Forall_cons in Hall as [(data & from & E & Hne) Hall]. cbn in E. subst ev.
  cbn [await_ack]. rewrite bool_decide_true by done. rewrite IH by done. cbn. do 2 f_equal. lia.
Qed.

Lemma valid_ack_signed t now :
  in_u 32 mid -> in_u 64 t -> in_u 64 now ->
  p2p_timestamp_is_fresh t now = true ->
  (forall k d, length (hmac_sha256 k d) = 32%nat) ->
  valid_ack connection_id secret mid (p2p_udp_ack_packet connection_id secret mid t) now = true.
Proof.
  intros Hm Ht Hn Hf Hmac. unfold valid_ack, p2p_udp_ack_packet.
  set (h := signed_header _ _ _ _ _ _ _ _).
  assert (Header_wf h) as Hwf by (repeat split; try apply Hm; try apply Ht; try done; apply Hmac).
  assert (length (p2p_udp_make_header h) = 54%nat) as Hlen.
  { unfold p2p_udp_make_header. rewrite !length_app, !length_be_bytes.
    unfold h, signed_header, p2p_udp_tag; cbn [tag]. rewrite Hmac. done. }
  rewrite take_ge by (rewrite Hlen; unfold P2P_UDP_HEADER_LEN; lia).
  rewrite <- (app_nil_r (p2p_udp_make_header h)), parse_make by done.
  rewrite (proj2 (validate_fragment_spec secret connection_id h [] now Hwf Hn)).
  - cbn. by rewrite Z.eqb_refl.
  - split; [by left|]. split; [|done]. apply fresh_spec in Hf; [|done].
    cbn. unfold P2P_REPLAY_WINDOW_SECS, in_u in *. lia.
Qed.
End Sender.

(** Bounded retransmission: when every datagram the socket reports during the wait
    comes from the peer, the retry loop of a fragment ends after at most ten
    transmissions, with an acknowledgement or a timeout. *)
Theorem retransmission_bounded `{M : Mac} (to : SocketAddr) (cid secret : bytes) (mid : Z)
    (env : list (RecvEvent * Z)) :
  Forall (from_peer to) env -> 10 <= blen env ->
  exists n env' r, await_ack to cid secret mid 0 0 env = (n, env', r)
    /\ r <> Waiting /\ (n <= 10)%nat.
Proof.
  intros Hall Hlen.
  destruct (await_ack_bounded to cid secret mid env 0 0 Hall) as (n & e & r & E & Hr & Hn);
    [lia|lia|].
  exists n, e, r. split; [done|]. split; [done|]. lia.
Qed.

(** Datagrams from any other address bypass the limit on tries: however many arrive,
    the loop neither times out nor succeeds, and it retransmits once for each of them. *)
Theorem foreign_datagrams_defeat_timeout `{M : Mac} (to other : SocketAddr)
    (cid secret : bytes) (mid : Z) (n : nat) (data : bytes) (now : Z) :
  other <> to ->
  await_ack to cid secret mid 0 0 (replicate n (RecvFrom data other, now)) = (n, [], Waiting).
Proof.
  intros Hne. rewrite await_ack_foreign; [by rewrite length_replicate|].
  apply Forall_replicate. by exists data, other.
Qed.

(** Acknowledgements are not bound to a fragment: copies of one acknowledgement of the
    message complete the sending of all its fragments with one transmission each. *)
Theorem one_ack_acknowledges_every_fragment `{M : Mac} (to : SocketAddr)
    (cid secret payload : bytes) (mid t now : Z) (clock : Z -> Z) :
  in_u 32 mid -> in_u 64 t -> in_u 64 now -> p2p_timestamp_is_fresh t now = true ->
  (forall k d, length (hmac_sha256 k d) = 32%nat) ->
  blen payload <= 146688 ->
  exists sent, p2p_udp_send_reliable to cid secret mid payload clock
      (replicate (Z.to_nat (frag_count payload))
         (RecvFrom (p2p_udp_ack_packet cid secret mid t) to, now)) = Ok (sent, Done ())
    /\ Forall (fun p => p.2 = 1%nat) sent.
Proof.
  intros Hm Ht Hn Hf Hmac Hlen. unfold p2p_udp_send_reliable.
  rewrite max_payload_val. cbn [Z.eqb].
  rewrite (proj2 (Z.ltb_ge _ _)) by (apply (fragmentation_lossless payload); done).
  generalize (frag_count payload) at 2 as cnt. intros cnt.
  generalize (Z.to_nat (frag_count payload)) as n. intros n.
  generalize 0 at 1 as idx. induction n as [|n IH]; intros idx.
  - exists []. by split; [|constructor].
  - cbn [send_from replicate await_ack].
    rewrite bool_decide_false by (intros H; by apply H).
    rewrite (valid_ack_signed cid secret mid t now) by done.
    destruct (IH (idx + 1)) as (sent & E & Hall). injection E as E. rewrite E.
    eexists. split; [done|]. by constructor.
Qed.

(** A concrete MAC for the witnesses: the first 32 bytes of key and data, zero padded. *)
Definition demo_mac : Mac := fun k d => take 32 (k ++ d ++ replicate 32 Byte.x00).

Lemma demo_mac_length k d : length (@hmac_sha256 demo_mac k d) = 32%nat.
Proof.
  unfold hmac_sha256, demo_mac. rewrite length_take, !length_app, length_replicate. lia.
Qed.

Definition demo_peer : SocketAddr := mkSocketAddr (IpV4 0x7f000001) 9999.

Lemma retransmission_bounded_witness :
  exists n env' r, @await_ack demo_mac demo_peer b!"c" b!"k" 7 0 0
      (replicate 10 (RecvNone, 5)) = (n, env', r) /\ r <> Waiting /\ (n <= 10)%nat.
Proof.
  apply (@retransmission_bounded demo_mac demo_peer b!"c" b!"k" 7 (replicate 10 (RecvNone, 5)));
    [repeat constructor|vm_compute; congruence].
Defined.

Lemma foreign_datagrams_defeat_timeout_witness :
  @await_ack demo_mac demo_peer b!"c" b!"k" 7 0 0
    (replicate 1000 (RecvFrom [] (mkSocketAddr (IpV4 1) 1), 5)) = (1000%nat, [], Waiting).
Proof.
  apply (@foreign_datagrams_defeat_timeout demo_mac). intros H. discriminate H.
Defined.

Lemma one_ack_acknowledges_every_fragment_witness :
  exists sent, @p2p_udp_send_reliable demo_mac demo_peer b!"c" b!"k" 7
      (replicate 3000 Byte.x61) (fun _ => 100)
      (replicate 3 (RecvFrom (@p2p_udp_ack_packet demo_mac b!"c" b!"k" 7 100) demo_peer, 100))
    = Ok (sent, Done ()) /\ Forall (fun p => p.2 = 1%nat) sent.
Proof.
  apply (@one_ack_acknowledges_every_fragment demo_mac demo_peer b!"c" b!"k"
    (replicate 3000 Byte.x61) 7 100 100 (fun _ => 100));
    [vm_compute; intuition congruence..|reflexivity|apply demo_mac_length
    |vm_compute; congruence].
Defined.
End P2PSendFacts.
