(* ===== verification/Reassembly.v ===== *)
(** * Datagram reassembly and source bans ([handle_udp.rs], [P2PUdpReassemblyState])

    The state kept per inflight message, the admission limits, the per-source ban
    counters and the receive step of the UDP data plane ([handle_tcp.rs]). Instants are
    nanoseconds; every read of the clock is an argument. *)

From S2P Require Import Prelude Wire P2P.
From Stdlib Require Import ZArith Lia String.
From Stdlib Require Import Strings.Byte.
From stdpp Require Import base list gmap.

Local Open Scope Z_scope.
Import Packet.

Definition secs (n : Z) : Z := n * 1000000000.
(** [Instant::duration_since] saturates at zero. *)
Definition duration_since (now earlier : Z) : Z := sat_sub now earlier.

Definition P2P_REASSEMBLY_TTL : Z := secs 30.
Definition P2P_MAX_INFLIGHT_MESSAGES : Z := 128.
Definition P2P_MAX_INFLIGHT_BYTES : Z := 8 * 1024 * 1024.
Definition P2P_MAX_MESSAGES_PER_SOURCE : Z := 32.
Definition P2P_SOURCE_BAN_THRESHOLD : Z := 64.
Definition P2P_SOURCE_BAN_TTL : Z := secs 60.

Record P2PUdpPartialMessage := mkPartial {
  created_at : Z; last_seen : Z; pm_frag_cnt : Z; pm_bytes : Z; parts : gmap Z bytes }.

Record P2PUdpSourceState := mkSource {
  window_started : Z; bad_count : Z; banned_until : option Z }.

Abbreviation msg_key := (SocketAddr * Z)%type.

Record P2PUdpReassemblyState := mkReassembly {
  inflight : gmap msg_key P2PUdpPartialMessage;
  completed : gmap msg_key Z;
  source_state : gmap IpAddr P2PUdpSourceState;
  total_bytes : Z }.

Definition reassembly_new : P2PUdpReassemblyState :=
  {| inflight := ∅; completed := ∅; source_state := ∅; total_bytes := 0 |}.

(** ** Pruning *)

Definition inflight_keep (now : Z) (e : P2PUdpPartialMessage) : bool :=
  duration_since now (created_at e) <=? P2P_REASSEMBLY_TTL.

Definition source_keep (now : Z) (s : P2PUdpSourceState) : bool :=
  match banned_until s with
  | Some until => now <? until
  | None => (duration_since now (window_started s) <=? P2P_SOURCE_BAN_TTL)
            || (0 <? bad_count s)
  end.

Definition sum_bytes (m : gmap msg_key P2PUdpPartialMessage) : Z :=
  gsum pm_bytes m.

Definition reassembly_prune (now : Z) (st : P2PUdpReassemblyState) : P2PUdpReassemblyState :=
  let removed_bytes :=
    Z.min (sum_bytes (filter (fun kv => inflight_keep now kv.2 = false) (inflight st)))
          (2 ^ 64 - 1) in
  {| inflight := filter (fun kv => inflight_keep now kv.2 = true) (inflight st);
     completed := filter (fun kv =>
       duration_since now kv.2 <= secs P2P_REPLAY_WINDOW_SECS) (completed st);
     source_state := filter (fun kv => source_keep now kv.2 = true) (source_state st);
     total_bytes := sat_sub (total_bytes st) removed_bytes |}.

(** ** Source bans *)

Definition is_source_banned (from : SocketAddr) (t_prune now : Z)
    (st : P2PUdpReassemblyState) : bool * P2PUdpReassemblyState :=
  let st := reassembly_prune t_prune st in
  (match source_state st !! sa_ip from with
   | Some s => match banned_until s with Some until => now <? until | None => false end
   | None => false
   end, st).

Definition record_invalid_source (from : SocketAddr) (t_prune now : Z)
    (st : P2PUdpReassemblyState) : P2PUdpReassemblyState :=
  let st := reassembly_prune t_prune st in
  let s := default {| window_started := now; bad_count := 0; banned_until := None |}
             (source_state st !! sa_ip from) in
  let put s := {| inflight := inflight st; completed := completed st;
                  source_state := <[sa_ip from := s]> (source_state st);
                  total_bytes := total_bytes st |} in
  if match banned_until s with Some until => now <? until | None => false end then put s
  else
    let s := if secs 10 <? duration_since now (window_started s)
             then {| window_started := now; bad_count := 0; banned_until := banned_until s |}
             else s in
    let bad := sat_add 32 (bad_count s) 1 in
    if P2P_SOURCE_BAN_THRESHOLD <=? bad
    then put {| window_started := window_started s; bad_count := 0;
                banned_until := Some (now + P2P_SOURCE_BAN_TTL) |}
    else put {| window_started := window_started s; bad_count := bad;
                banned_until := banned_until s |}.

(** ** Reassembly *)

(** The parts in index order, [None] when one is missing. *)
Fixpoint collect_parts (n : nat) (idx : Z) (ps : gmap Z bytes) : option bytes :=
  match n with
  | O => Some []
  | S n' => part ← ps !! idx; rest ← collect_parts n' (idx + 1) ps; Some (part ++ rest)
  end.

Definition source_messages (ip : IpAddr) (m : gmap msg_key P2PUdpPartialMessage) : Z :=
  Z.of_nat (size (filter (fun kv => sa_ip kv.1.1 = ip) m)).

Definition accept_fragment (from : SocketAddr) (msg_id frag_idx frag_cnt : Z)
    (payload : bytes) (t_prune now : Z) (st : P2PUdpReassemblyState)
    : result (option bytes) * P2PUdpReassemblyState :=
  let st := reassembly_prune t_prune st in
  if (frag_cnt =? 0) || (frag_cnt <=? frag_idx)
  then (Err b!"invalid p2p udp fragment metadata", st)
  else if P2P_MAX_FRAGMENTS_PER_MESSAGE <? frag_cnt
  then (Err b!"p2p udp fragment count exceeds limit", st)
  else if P2P_UDP_MTU_PAYLOAD <? blen payload
  then (Err b!"p2p udp fragment payload too large", st)
  else
    let key := (from, msg_id) in
    match completed st !! key with
    | Some _ => (Ok None, st)
    | None =>
        let is_new := match inflight st !! key with Some _ => false | None => true end in
        if is_new && (P2P_MAX_INFLIGHT_MESSAGES <=? Z.of_nat (size (inflight st)))
        then (Err b!"p2p udp inflight message limit exceeded", st)
        else if is_new && (P2P_MAX_MESSAGES_PER_SOURCE
                           <=? source_messages (sa_ip from) (inflight st))
        then (Err b!"p2p udp per-source message limit exceeded", st)
        else if match inflight st !! key with
                | Some e => bool_decide (is_Some (parts e !! frag_idx))
                | None => false
                end
        then (Ok None, st)
        else if P2P_MAX_INFLIGHT_BYTES <? sat_add 64 (total_bytes st) (blen payload)
        then (Err b!"p2p udp inflight byte limit exceeded", st)
        else
          let entry := default {| created_at := now; last_seen := now;
                                  pm_frag_cnt := frag_cnt; pm_bytes := 0; parts := ∅ |}
                         (inflight st !! key) in
          let with_entry e tb := {| inflight := <[key := e]> (inflight st);
                                    completed := completed st;
                                    source_state := source_state st; total_bytes := tb |} in
          if negb (pm_frag_cnt entry =? frag_cnt)
          then (Err b!"p2p udp fragment count changed within message",
                with_entry entry (total_bytes st))
          else if Framing.MAX_MESSAGE_SIZE <? sat_add 64 (pm_bytes entry) (blen payload)
          then (Err b!"p2p udp reassembled message exceeds max size",
                with_entry entry (total_bytes st))
          else
            let entry := {| created_at := created_at entry; last_seen := now;
                            pm_frag_cnt := pm_frag_cnt entry;
                            pm_bytes := sat_add 64 (pm_bytes entry) (blen payload);
                            parts := <[frag_idx := payload]> (parts entry) |} in
            let total := sat_add 64 (total_bytes st) (blen payload) in
            if negb (Z.of_nat (size (parts entry)) =? frag_cnt)
            then (Ok None, with_entry entry total)
            else
              let st' := {| inflight := delete key (inflight st);
                            completed := completed st; source_state := source_state st;
                            total_bytes := sat_sub total (pm_bytes entry) |} in
              match collect_parts (Z.to_nat (pm_frag_cnt entry)) 0 (parts entry) with
              | None => (Err b!"p2p udp missing fragment during reassembly", st')
              | Some out =>
                  (Ok (Some out),
                   {| inflight := inflight st'; completed := <[key := now]> (completed st');
                      source_state := source_state st'; total_bytes := total_bytes st' |})
              end
    end.

(** The free-standing reassembler over a map of parts. *)
Definition p2p_udp_try_reassemble (ps : gmap Z bytes) (frag_cnt : Z) : option bytes :=
  if (frag_cnt =? 0) || (P2P_MAX_FRAGMENTS_PER_MESSAGE <? frag_cnt) then None
  else collect_parts (Z.to_nat frag_cnt) 0 ps.

(** ** The receive step of the UDP data plane *)

Inductive RecvResult :=
  | Dropped
  | Acked (ack : bytes)
  | Delivered (ack task_id prompt : bytes) (params : Sampling).

Section Receive.
Context `{M : Mac} `{C : Framing.Codec}.

(** One datagram: ban check, header, authentication, reassembly, acknowledgement,
    decoding, and delivery of an inference request of this connection. [secs_now] is the wall clock, [t1]..[t6] the successive instants. *)
Definition udp_receive (secret connection_id buf : bytes) (from : SocketAddr)
    (secs_now t1 t2 t3 t4 t5 t6 : Z) (st : P2PUdpReassemblyState)
    : RecvResult * P2PUdpReassemblyState :=
  let '(banned, st) := is_source_banned from t1 t2 st in
  if banned then (Dropped, st)
  else match p2p_udp_parse_header buf with
  | None => (Dropped, record_invalid_source from t3 t4 st)
  | Some h =>
      if negb (Z.land (flags h) P2P_UDP_FLAG_ACK =? 0) then (Dropped, st)
      else
        let payload := drop (Z.to_nat P2P_UDP_HEADER_LEN) buf in
        match p2p_udp_validate_fragment secret connection_id h payload secs_now with
        | Err _ => (Dropped, record_invalid_source from t3 t4 st)
        | Ok _ =>
            match accept_fragment from (msg_id h) (frag_idx h) (frag_cnt h) payload t3 t4 st with
            | (Err _, st) => (Dropped, record_invalid_source from t5 t6 st)
            | (Ok full, st) =>
                let ack := p2p_udp_ack_packet connection_id secret (msg_id h) secs_now in
                match full with
                | None => (Acked ack, st)
                | Some full =>
                    match Datagram.udp_decode_command full with
                    | Ok (V2 (P2PInferenceRequest req_conn_id task model prompt params)) =>
                        if bool_decide (req_conn_id <> connection_id) then (Acked ack, st)
                        else (Delivered ack task prompt params, st)
                    | _ => (Acked ack, st)
                    end
                end
            end
        end
  end.
End Receive.

(** ** Facts: the state invariant *)
Module ReassemblyFacts.

Definition entry_inv (e : P2PUdpPartialMessage) : Prop :=
  1 <= pm_frag_cnt e <= P2P_MAX_FRAGMENTS_PER_MESSAGE
  /\ (forall i p, parts e !! i = Some p ->
        0 <= i < pm_frag_cnt e /\ blen p <= P2P_UDP_MTU_PAYLOAD)
  /\ pm_bytes e = gsum blen (parts e)
  /\ Z.of_nat (size (parts e)) < pm_frag_cnt e.

Definition state_inv (st : P2PUdpReassemblyState) : Prop :=
  map_Forall (fun _ e => entry_inv e) (inflight st)
  /\ total_bytes st = sum_bytes (inflight st)
  /\ total_bytes st <= P2P_MAX_INFLIGHT_BYTES
  /\ Z.of_nat (size (inflight st)) <= P2P_MAX_INFLIGHT_MESSAGES
  /\ (forall ip, source_messages ip (inflight st) <= P2P_MAX_MESSAGES_PER_SOURCE).

Lemma pm_bytes_nonneg e : entry_inv e -> 0 <= pm_bytes e.
Proof. intros (_ & _ & -> & _). apply gsum_nonneg. intros. apply blen_nonneg. Qed.

Lemma pm_bytes_bound e : entry_inv e -> pm_bytes e <= 128 * 1200.
Proof.
  intros (Hc & Hp & -> & Hs).
  pose proof (gsum_bound blen (parts e) 1200 (fun k v Hk => proj2 (Hp k v Hk))).
  unfold P2P_MAX_FRAGMENTS_PER_MESSAGE in *. lia.
Qed.

Lemma sum_bytes_nonneg m : map_Forall (fun _ e => entry_inv e) m -> 0 <= sum_bytes m.
Proof. intros H. apply gsum_nonneg. intros k v Hk. eapply pm_bytes_nonneg, H, Hk. Qed.

Lemma source_messages_filter ip (P : msg_key * P2PUdpPartialMessage -> Prop)
    `{!forall x, Decision (P x)} m :
  source_messages ip (filter P m) <= source_messages ip m.
Proof.
  unfold source_messages. apply inj_le, map_subseteq_size.
  apply map_subseteq_spec. intros k e. rewrite !map_lookup_filter_Some. tauto.
Qed.

Lemma prune_inv now st :
  state_inv st -> state_inv (reassembly_prune now st)
  /\ total_bytes (reassembly_prune now st) <= total_bytes st.
Proof.
  intros (Hall & Htot & Hmax & Hsz & Hsrc).
  set (K := filter (fun kv : msg_key * P2PUdpPartialMessage =>
              inflight_keep now kv.2 = true) (inflight st)).
  set (R := filter (fun kv : msg_key * P2PUdpPartialMessage =>
              inflight_keep now kv.2 = false) (inflight st)).
  assert (forall P : msg_key * P2PUdpPartialMessage -> Prop,
            forall H : (forall x, Decision (P x)),
            map_Forall (fun _ e => entry_inv e) (filter P (inflight st))) as Hf.
  { intros P HP k e Hk. apply map_lookup_filter_Some in Hk as [Hk _]. eapply Hall, Hk. }
  assert (sum_bytes K + sum_bytes R = sum_bytes (inflight st)) as Hsum.
  { apply gsum_filter. intros [k e]. cbn. destruct (inflight_keep now e); naive_solver. }
  pose proof (sum_bytes_nonneg K (Hf _ _)). pose proof (sum_bytes_nonneg R (Hf _ _)).
  assert (total_bytes (reassembly_prune now st) = sum_bytes K) as Htb.
  { cbn. fold R. rewrite Z.min_l by (unfold P2P_MAX_INFLIGHT_BYTES in *; lia).
    unfold sat_sub. lia. }
  split; [|lia]. split; [apply Hf|]. split; [done|]. split; [lia|]. split.
  - cbn. pose proof (size_filter_le (fun kv : msg_key * P2PUdpPartialMessage =>
      inflight_keep now kv.2 = true) (inflight st)). lia.
  - intros ip. cbn. etransitivity; [apply source_messages_filter|apply Hsrc].
Qed.

Lemma prune_lookup now st k e :
  inflight (reassembly_prune now st) !! k = Some e <->
  inflight st !! k = Some e /\ inflight_keep now e = true.
Proof. cbn. by rewrite map_lookup_filter_Some. Qed.

Lemma collect_parts_total n idx (ps : gmap Z bytes) :
  (forall i, idx <= i < idx + Z.of_nat n -> is_Some (ps !! i)) ->
  is_Some (collect_parts n idx ps).
Proof.
  revert idx. induction n as [|n IH]; intros idx H; [by eexists|]. cbn.
  destruct (H idx ltac:(lia)) as [p ->]. cbn.
  destruct (IH (idx + 1)) as [r ->]; [intros; apply H; lia|]. by eexists.
Qed.

(** As many keys as the range has elements: every index is present. *)
Lemma full_range (ps : gmap Z bytes) (n : Z) :
  0 <= n -> (forall i p, ps !! i = Some p -> 0 <= i < n) -> Z.of_nat (size ps) = n ->
  forall i, 0 <= i < n -> is_Some (ps !! i).
Proof.
  intros Hn Hr Hs i Hi. apply elem_of_dom.
  assert (dom ps ⊆ list_to_set (C := gset Z) (seqZ 0 n)) as Hsub.
  { intros j Hj. apply elem_of_dom in Hj as [p Hp].
    apply elem_of_list_to_set, elem_of_seqZ. specialize (Hr j p Hp). lia. }
  assert (size (list_to_set (C := gset Z) (seqZ 0 n)) = Z.to_nat n) as Hsz.
  { rewrite size_list_to_set by apply NoDup_seqZ. apply length_seqZ. }
  assert (dom ps = list_to_set (C := gset Z) (seqZ 0 n)) as Heq.
  { apply set_subseteq_size_eq; [done|]. rewrite Hsz, size_dom. lia. }
  rewrite Heq. apply elem_of_list_to_set, elem_of_seqZ. lia.
Qed.

Lemma sum_bytes_put m k e :
  sum_bytes (<[k := e]> m)
  = sum_bytes m - match m !! k with Some e0 => pm_bytes e0 | None => 0 end + pm_bytes e.
Proof.
  unfold sum_bytes. destruct (m !! k) as [e0|] eqn:E.
  - rewrite (gsum_delete _ (<[k:=e]> m) k e) by apply lookup_insert_eq.
    rewrite (gsum_delete _ m k e0) by done. rewrite delete_insert_eq. lia.
  - rewrite gsum_insert by done. lia.
Qed.

Lemma source_messages_put ip m (k : msg_key) e :
  source_messages ip (<[k := e]> m)
  = source_messages ip m +
    (if decide (m !! k = None /\ sa_ip k.1 = ip) then 1 else 0).
Proof.
  unfold source_messages. rewrite map_filter_insert. cbn.
  destruct (m !! k) as [e0|] eqn:E.
  - rewrite (decide_False (P := _ /\ _)) by naive_solver. case_decide as Hip.
    + rewrite map_size_insert_Some; [lia|]. exists e0. by apply map_lookup_filter_Some.
    + rewrite <- (insert_delete_id m k e0 E) at 2. rewrite map_filter_insert. cbn.
      rewrite decide_False by done. rewrite delete_delete_eq. lia.
  - case_decide as Hip.
    + rewrite decide_True by done. rewrite map_size_insert_None; [lia|].
      rewrite map_lookup_filter, E. done.
    + rewrite decide_False by naive_solver. rewrite delete_id by done. lia.
Qed.

Lemma entry_put e idx cnt payload ls :
  (forall i p, parts e !! i = Some p -> 0 <= i < pm_frag_cnt e /\ blen p <= P2P_UDP_MTU_PAYLOAD) ->
  pm_bytes e = gsum blen (parts e) -> parts e !! idx = None -> pm_frag_cnt e = cnt ->
  0 <= idx < cnt -> blen payload <= P2P_UDP_MTU_PAYLOAD ->
  1 <= cnt <= P2P_MAX_FRAGMENTS_PER_MESSAGE ->
  Z.of_nat (size (<[idx := payload]> (parts e))) < cnt ->
  entry_inv {| created_at := created_at e; last_seen := ls; pm_frag_cnt := pm_frag_cnt e;
               pm_bytes := pm_bytes e + blen payload; parts := <[idx := payload]> (parts e) |}.
Proof.
  intros Hp Hb Hnew Hc Hi Hlen Hcnt Hsz. split; [cbn; lia|]. split; [|split]; cbn.
  - intros i p. destruct (decide (i = idx)) as [->|Hne].
    + rewrite lookup_insert_eq. intros E. injection E as <-. lia.
    + rewrite lookup_insert_ne by done. apply Hp.
  - rewrite gsum_insert by done. lia.
  - lia.
Qed.

(** What [accept_fragment] has established about the entry it updates. *)
Definition entry_ready (st : P2PUdpReassemblyState) (key : msg_key) (idx cnt : Z)
    (e : P2PUdpPartialMessage) : Prop :=
  (forall i p, parts e !! i = Some p -> 0 <= i < pm_frag_cnt e /\ blen p <= P2P_UDP_MTU_PAYLOAD)
  /\ pm_bytes e = gsum blen (parts e)
  /\ pm_bytes e <= 128 * 1200
  /\ pm_bytes e = match inflight st !! key with Some e0 => pm_bytes e0 | None => 0 end
  /\ parts e !! idx = None
  /\ (pm_frag_cnt e <> cnt -> inflight st !! key = Some e).

Lemma entry_default_ready st key idx cnt now :
  state_inv st ->
  match inflight st !! key with Some e => parts e !! idx = None | None => True end ->
  entry_ready st key idx cnt
    (default {| created_at := now; last_seen := now; pm_frag_cnt := cnt; pm_bytes := 0;
                parts := ∅ |} (inflight st !! key)).
Proof.
  intros (Hall & _) Hidx. unfold entry_ready. destruct (inflight st !! key) as [e|] eqn:E.
  - specialize (Hall _ _ E). pose proof (pm_bytes_bound e Hall).
    destruct Hall as (_ & Hp & Hb & _). cbn. tauto.
  - cbn. split; [intros i p Hi; by rewrite lookup_empty in Hi|].
    rewrite gsum_empty, lookup_empty. repeat split; try lia; done.
Qed.

Lemma total_bytes_bounds st : state_inv st -> 0 <= total_bytes st <= P2P_MAX_INFLIGHT_BYTES.
Proof. intros (Hall & -> & Hmax & _). pose proof (sum_bytes_nonneg _ Hall). lia. Qed.

Lemma state_inv_put st key e now total ls :
  state_inv st -> entry_inv e ->
  total = total_bytes st
          - match inflight st !! key with Some e0 => pm_bytes e0 | None => 0 end + pm_bytes e ->
  total <= P2P_MAX_INFLIGHT_BYTES ->
  (inflight st !! key = None ->
     Z.of_nat (size (inflight st)) < P2P_MAX_INFLIGHT_MESSAGES
     /\ source_messages (sa_ip key.1) (inflight st) < P2P_MAX_MESSAGES_PER_SOURCE) ->
  state_inv {| inflight := <[key := e]> (inflight st); completed := now; source_state := ls;
               total_bytes := total |}.
Proof.
  intros (Hall & Htot & Hmax & Hsz & Hsrc) He Ht Hle Hnew. split; [|split; [|split; [|split]]]; cbn.
  - by apply map_Forall_insert_2.
  - rewrite sum_bytes_put. lia.
  - done.
  - destruct (inflight st !! key) eqn:E.
    + rewrite map_size_insert_Some by done. done.
    + rewrite map_size_insert_None by done. destruct Hnew; [done|]. lia.
  - intros ip. rewrite source_messages_put. specialize (Hsrc ip).
    case_decide as Hd; [|lia]. destruct Hd as [Hn <-]. destruct (Hnew Hn). lia.
Qed.

Lemma state_inv_delete st key now ls total :
  state_inv st ->
  total = total_bytes st - match inflight st !! key with Some e => pm_bytes e | None => 0 end ->
  state_inv {| inflight := delete key (inflight st); completed := now; source_state := ls;
               total_bytes := total |}.
Proof.
  intros (Hall & Htot & Hmax & Hsz & Hsrc) Ht.
  assert (sum_bytes (delete key (inflight st)) = total) as Hsum.
  { destruct (inflight st !! key) as [e|] eqn:E.
    - unfold sum_bytes in *. rewrite (gsum_delete _ _ _ _ E) in Htot. lia.
    - rewrite delete_id by done. lia. }
  assert (map_Forall (fun _ e => entry_inv e) (delete key (inflight st))) as Hall'
    by by apply map_Forall_delete.
  split; [done|]. cbn. split; [done|]. split; [|split].
  - destruct (inflight st !! key) as [e|] eqn:E; [|lia].
    pose proof (pm_bytes_nonneg e (Hall _ _ E)). lia.
  - assert (size (delete key (inflight st)) <= size (inflight st))%nat
      by apply map_subseteq_size, delete_subseteq. lia.
  - intros ip. etransitivity; [|apply (Hsrc ip)]. unfold source_messages.
    apply inj_le, map_subseteq_size, map_subseteq_spec. intros k e.
    rewrite !map_lookup_filter_Some. intros [Hk Hip]. split; [|done].
    by apply lookup_delete_Some in Hk as [_ Hk].
Qed.

Definition entry_for (st : P2PUdpReassemblyState) (key : msg_key) (cnt now : Z) :=
  default {| created_at := now; last_seen := now; pm_frag_cnt := cnt; pm_bytes := 0;
             parts := ∅ |} (inflight st !! key).

Definition entry_add (e : P2PUdpPartialMessage) (idx : Z) (payload : bytes) (now : Z) :=
  {| created_at := created_at e; last_seen := now; pm_frag_cnt := pm_frag_cnt e;
     pm_bytes := pm_bytes e + blen payload; parts := <[idx := payload]> (parts e) |}.

(** The guards of [accept_fragment], in the order of the code, on the pruned state. *)
Record admissible (from : SocketAddr) (mid idx cnt : Z) (payload : bytes) (now : Z)
    (st : P2PUdpReassemblyState) : Prop := {
  adm_cnt : 0 <= idx < cnt /\ cnt <= P2P_MAX_FRAGMENTS_PER_MESSAGE;
  adm_len : blen payload <= P2P_UDP_MTU_PAYLOAD;
  adm_open : completed st !! (from, mid) = None;
  adm_room : inflight st !! (from, mid) = None ->
     Z.of_nat (size (inflight st)) < P2P_MAX_INFLIGHT_MESSAGES
     /\ source_messages (sa_ip from) (inflight st) < P2P_MAX_MESSAGES_PER_SOURCE;
  adm_new : parts (entry_for st (from, mid) cnt now) !! idx = None;
  adm_bytes : total_bytes st + blen payload <= P2P_MAX_INFLIGHT_BYTES;
  adm_same : pm_frag_cnt (entry_for st (from, mid) cnt now) = cnt }.

(** The effect of an admitted fragment. *)
Definition take_in (from : SocketAddr) (mid idx cnt : Z) (payload : bytes) (now : Z)
    (st : P2PUdpReassemblyState) : result (option bytes) * P2PUdpReassemblyState :=
  let key := (from, mid) in
  let e := entry_add (entry_for st key cnt now) idx payload now in
  let total := total_bytes st + blen payload in
  if Z.of_nat (size (parts e)) =? cnt then
    (match collect_parts (Z.to_nat cnt) 0 (parts e) with
     | Some out => Ok (Some out)
     | None => Err b!"p2p udp missing fragment during reassembly"
     end,
     {| inflight := delete key (inflight st);
        completed := match collect_parts (Z.to_nat cnt) 0 (parts e) with
                     | Some _ => <[key := now]> (completed st)
                     | None => completed st
                     end;
        source_state := source_state st; total_bytes := sat_sub total (pm_bytes e) |})
  else (Ok None, {| inflight := <[key := e]> (inflight st); completed := completed st;
                    source_state := source_state st; total_bytes := total |}).

Lemma entry_for_facts st key idx cnt now :
  state_inv st -> parts (entry_for st key cnt now) !! idx = None ->
  entry_ready st key idx cnt (entry_for st key cnt now).
Proof.
  intros Hinv Hn. apply entry_default_ready; [done|].
  unfold entry_for in Hn. by destruct (inflight st !! key).
Qed.

(** A guard of [accept_fragment] holds, so the fragment is not admissible. *)
Ltac refuse_fragment :=
  right; split; [intros []; cbn in *; bool_hyps; try naive_solver lia|eauto].

(** Either a guard refuses the fragment and the state is the pruned one, or all guards hold
    and the fragment is admitted. *)
Lemma accept_fragment_cases from mid idx cnt payload t_prune now st :
  state_inv st -> 0 <= idx ->
  (admissible from mid idx cnt payload now (reassembly_prune t_prune st)
   /\ accept_fragment from mid idx cnt payload t_prune now st
      = take_in from mid idx cnt payload now (reassembly_prune t_prune st))
  \/ (~ admissible from mid idx cnt payload now (reassembly_prune t_prune st)
      /\ exists r, accept_fragment from mid idx cnt payload t_prune now st
           = (r, reassembly_prune t_prune st)
         /\ r <> Err b!"p2p udp missing fragment during reassembly"
         /\ r <> Err b!"p2p udp reassembled message exceeds max size").
Proof.
  intros Hinv0 Hidx. unfold accept_fragment.
  destruct (prune_inv t_prune st Hinv0) as [Hinv _].
  generalize dependent (reassembly_prune t_prune st). clear st Hinv0. intros st Hinv.
  destruct ((cnt =? 0) || (cnt <=? idx)) eqn:E1.
  { refuse_fragment. }
  destruct (P2P_MAX_FRAGMENTS_PER_MESSAGE <? cnt) eqn:E2; [refuse_fragment|].
  destruct (P2P_UDP_MTU_PAYLOAD <? blen payload) eqn:E3; [refuse_fragment|].
  destruct (completed st !! (from, mid)) eqn:Ec; [refuse_fragment|].
  set (is_new := match inflight st !! (from, mid) with Some _ => false | None => true end).
  destruct (is_new && (P2P_MAX_INFLIGHT_MESSAGES <=? _)) eqn:E4.
  { unfold is_new in E4. destruct (inflight st !! (from, mid)) eqn:Ei; [done|]. refuse_fragment. }
  destruct (is_new && (P2P_MAX_MESSAGES_PER_SOURCE <=? _)) eqn:E5.
  { unfold is_new in E5. destruct (inflight st !! (from, mid)) eqn:Ei; [done|]. refuse_fragment. }
  assert (match inflight st !! (from, mid) with
          | Some e => bool_decide (is_Some (parts e !! idx)) | None => false end
          = bool_decide (is_Some (parts (entry_for st (from, mid) cnt now) !! idx))) as ->.
  { unfold entry_for. by destruct (inflight st !! (from, mid)). }
  case_bool_decide as Hdup.
  { right. split; [intros []; destruct Hdup; congruence|eauto]. }
  rewrite <- eq_None_not_Some in Hdup.
  pose proof (total_bytes_bounds st Hinv) as Htb. pose proof (blen_nonneg payload) as Hpl.
  assert (sat_add 64 (total_bytes st) (blen payload) = total_bytes st + blen payload) as ->.
  { bool_hyps. unfold sat_add, P2P_UDP_MTU_PAYLOAD, P2P_MAX_INFLIGHT_BYTES in *. lia. }
  destruct (P2P_MAX_INFLIGHT_BYTES <? _) eqn:E7; [refuse_fragment|].
  destruct (entry_for_facts st (from, mid) idx cnt now Hinv Hdup) as (Hp & Hb & Hmax & _ & _ & Hcnt).
  assert (0 <= pm_bytes (entry_for st (from, mid) cnt now))
    by (rewrite Hb; apply gsum_nonneg; intros; apply blen_nonneg).
  fold (entry_for st (from, mid) cnt now). cbv zeta.
  destruct (negb (pm_frag_cnt _ =? cnt)) eqn:E8; bool_hyps.
  { right. split; [intros []; congruence|]. rewrite insert_id by auto. destruct st. eauto. }
  unfold P2P_UDP_MTU_PAYLOAD in *.
  rewrite (proj2 (Z.ltb_ge _ _)) by (unfold Framing.MAX_MESSAGE_SIZE, sat_add; lia).
  assert (sat_add 64 (pm_bytes (entry_for st (from, mid) cnt now)) (blen payload)
          = pm_bytes (entry_for st (from, mid) cnt now) + blen payload) as ->
    by (unfold sat_add; lia).
  left. split.
  - split; try done; try lia. intros Hn. unfold is_new in *. rewrite Hn in *.
    cbn in E4, E5. bool_hyps. lia.
  - unfold take_in, entry_add. cbn [parts pm_bytes pm_frag_cnt]. rewrite E8.
    destruct (Z.of_nat (size _) =? cnt); cbn [negb]; [|done].
    by destruct (collect_parts _ _ _).
Qed.

(** An admitted fragment that completes the count finds every index. *)
Lemma admissible_range from mid idx cnt payload now st :
  state_inv st -> admissible from mid idx cnt payload now st ->
  forall i p, parts (entry_add (entry_for st (from, mid) cnt now) idx payload now) !! i = Some p ->
    0 <= i < cnt.
Proof.
  intros Hinv [Hc Hl Ho Hr Hn Hb Hs] i p. cbn [entry_add parts].
  destruct (entry_for_facts st (from, mid) idx cnt now Hinv Hn) as (Hp & _).
  destruct (decide (i = idx)) as [->|]; [intros; lia|].
  rewrite lookup_insert_ne by done. intros Hi. destruct (Hp i p Hi). lia.
Qed.

Lemma size_parts_le (ps : gmap Z bytes) cnt :
  0 <= cnt -> (forall i p, ps !! i = Some p -> 0 <= i < cnt) -> Z.of_nat (size ps) <= cnt.
Proof.
  intros H0 Hr.
  assert (dom ps ⊆ list_to_set (C := gset Z) (seqZ 0 cnt)) as Hsub.
  { intros j [p Hj]%elem_of_dom. apply elem_of_list_to_set, elem_of_seqZ.
    specialize (Hr j p Hj). lia. }
  apply subseteq_size in Hsub. rewrite size_dom, size_list_to_set in Hsub by apply NoDup_seqZ.
  rewrite length_seqZ in Hsub. lia.
Qed.

Lemma admit_inv from mid idx cnt payload now st :
  state_inv st -> admissible from mid idx cnt payload now st ->
  state_inv (take_in from mid idx cnt payload now st).2
  /\ exists o, (take_in from mid idx cnt payload now st).1 = Ok o.
Proof.
  intros Hinv Hadm. pose proof (admissible_range _ _ _ _ _ _ _ Hinv Hadm) as Hrange.
  destruct Hadm as [Hc Hl Ho Hr Hn Hb Hs].
  destruct (entry_for_facts st (from, mid) idx cnt now Hinv Hn) as (Hp & Hpb & Hmax & Hold & _ & _).
  pose proof (blen_nonneg payload). unfold take_in.
  destruct (Z.eqb_spec (Z.of_nat (size (parts
    (entry_add (entry_for st (from, mid) cnt now) idx payload now)))) cnt) as [Hsz|Hsz].
  - destruct (collect_parts_total (Z.to_nat cnt) 0
      (parts (entry_add (entry_for st (from, mid) cnt now) idx payload now))) as [out ->].
    { intros i Hi. apply (full_range _ cnt); try done; lia. }
    cbn [fst snd]. split; [|by eexists]. apply state_inv_delete; [done|].
    cbn [entry_add pm_bytes]. unfold sat_sub.
    assert (pm_bytes (entry_for st (from, mid) cnt now) <= total_bytes st); [|lia].
    destruct Hinv as (Hall & Htot & _). rewrite Htot, Hold.
    destruct (inflight st !! (from, mid)) as [e0|] eqn:E0; [|by apply sum_bytes_nonneg].
    unfold sum_bytes. rewrite (gsum_delete _ _ _ _ E0).
    pose proof (sum_bytes_nonneg (delete (from, mid) (inflight st))
      ltac:(by apply map_Forall_delete)). unfold sum_bytes in *. lia.
  - split; [|by eexists]. cbn [snd]. apply state_inv_put; try done.
    + apply (entry_put (entry_for st (from, mid) cnt now) idx cnt payload now); try done; try lia.
      pose proof (size_parts_le _ cnt ltac:(lia) Hrange) as Hle. cbn [entry_add parts] in *. lia.
    + cbn [entry_add pm_bytes]. lia.
Qed.

(** One datagram processed by a state satisfying the invariant. *)
Lemma accept_fragment_inv from mid idx cnt payload t_prune now st :
  state_inv st -> 0 <= idx ->
  let '(r, st') := accept_fragment from mid idx cnt payload t_prune now st in
  state_inv st' /\ r <> Err b!"p2p udp missing fragment during reassembly"
  /\ r <> Err b!"p2p udp reassembled message exceeds max size".
Proof.
  intros Hinv Hidx. destruct (prune_inv t_prune st Hinv) as [Hinv' _].
  destruct (accept_fragment_cases from mid idx cnt payload t_prune now st Hinv Hidx)
    as [[Hadm ->]|[_ (r & -> & H1 & H2)]]; [|done].
  destruct (admit_inv _ _ _ _ _ _ _ Hinv' Hadm) as [H1 [o H2]].
  destruct (take_in _ _ _ _ _ _ _) as [r st']. cbn in *. by subst r.
Qed.

Lemma record_invalid_inflight from t_prune now st :
  inflight (record_invalid_source from t_prune now st) = inflight (reassembly_prune t_prune st)
  /\ total_bytes (record_invalid_source from t_prune now st)
     = total_bytes (reassembly_prune t_prune st).
Proof. unfold record_invalid_source. by repeat case_match. Qed.

Lemma state_inv_ext st st' :
  inflight st' = inflight st -> total_bytes st' = total_bytes st -> state_inv st -> state_inv st'.
Proof. unfold state_inv. by intros -> ->. Qed.

Lemma record_invalid_inv from t_prune now st :
  state_inv st -> state_inv (record_invalid_source from t_prune now st).
Proof.
  intros H. destruct (record_invalid_inflight from t_prune now st) as [E1 E2].
  eapply state_inv_ext; [exact E1|exact E2|]. by apply prune_inv.
Qed.

(** The states the data plane can reach, whatever datagrams arrive and whatever the clock. *)
Inductive reachable : P2PUdpReassemblyState -> Prop :=
  | reach_new : reachable reassembly_new
  | reach_banned st from t1 t2 :
      reachable st -> reachable (is_source_banned from t1 t2 st).2
  | reach_invalid st from t1 t2 :
      reachable st -> reachable (record_invalid_source from t1 t2 st)
  | reach_accept st from mid idx cnt payload t1 t2 :
      reachable st -> 0 <= idx ->
      reachable (accept_fragment from mid idx cnt payload t1 t2 st).2.

Lemma reassembly_reachable_inv st : reachable st -> state_inv st.
Proof.
  induction 1 as [|st from t1 t2 _ IH|st from t1 t2 _ IH|st from mid idx cnt payload t1 t2 _ IH Hi].
  - split; [apply map_Forall_empty|]. repeat (split; [done|]).
    intros ip. unfold source_messages. cbn [inflight reassembly_new].
    rewrite map_filter_empty. done.
  - by apply prune_inv.
  - by apply record_invalid_inv.
  - pose proof (accept_fragment_inv from mid idx cnt payload t1 t2 st IH Hi) as H.
    destruct (accept_fragment _ _ _ _ _ _ _ _). apply H.
Qed.

(** [C24] Bounded memory under any traffic: in every reachable state the byte counter is
    exactly the bytes held, at most 8 MiB; at most 128 messages are inflight, at most 32
    per source address; every entry is incomplete and holds only in-range fragments of
    at most 1200 bytes. *)
Theorem reassembly_memory_bounded (st : P2PUdpReassemblyState) :
  reachable st -> state_inv st.
Proof. apply reassembly_reachable_inv. Qed.

(** The two internal errors of reassembly are unreachable: no traffic makes a complete
    message miss a fragment or exceed the message size limit. *)
Theorem reassembly_internal_errors_unreachable (st : P2PUdpReassemblyState) (from : SocketAddr)
    (mid idx cnt : Z) (payload : bytes) (t1 t2 : Z) :
  reachable st -> 0 <= idx ->
  (accept_fragment from mid idx cnt payload t1 t2 st).1
    <> Err b!"p2p udp missing fragment during reassembly"
  /\ (accept_fragment from mid idx cnt payload t1 t2 st).1
    <> Err b!"p2p udp reassembled message exceeds max size".
Proof.
  intros Hst%reassembly_reachable_inv Hi.
  pose proof (accept_fragment_inv from mid idx cnt payload t1 t2 st Hst Hi) as H.
  destruct (accept_fragment _ _ _ _ _ _ _ _). apply H.
Qed.

Lemma reassembly_memory_bounded_witness :
  state_inv (accept_fragment (mkSocketAddr (IpV4 1) 9) 2 1 2 b!"b" 0 0 reassembly_new).2.
Proof. apply reassembly_memory_bounded. by apply reach_accept; [constructor|]. Defined.

Lemma reassembly_internal_errors_unreachable_witness :
  (accept_fragment (mkSocketAddr (IpV4 1) 9) 2 1 2 b!"b" 0 0 reassembly_new).1
    <> Err b!"p2p udp missing fragment during reassembly".
Proof.
  apply (reassembly_internal_errors_unreachable reassembly_new (mkSocketAddr (IpV4 1) 9)
    2 1 2 b!"b" 0 0); [constructor|lia].
Defined.
End ReassemblyFacts.
