(* ===== verification/Delivery.v ===== *)
(** * Delivery over the UDP data plane

    What the reassembler promises to the sender: a message whose fragments all arrive, in
    any order and with any duplicates, is delivered exactly once and unchanged; and what
    the ban counters promise to the receiver. *)

From S2P Require Import Prelude Wire P2P P2PSend Reassembly.
From Stdlib Require Import ZArith Lia String.
From Stdlib Require Import Strings.Byte.
From stdpp Require Import base list gmap.

Local Open Scope Z_scope.
Import ReassemblyFacts.

(** An arrival: fragment index, instant read by [prune], instant read by the caller. *)
Fixpoint deliver (from : SocketAddr) (mid cnt : Z) (frag : Z -> bytes)
    (evs : list (Z * Z * Z)) (st : P2PUdpReassemblyState)
    : list (result (option bytes)) * P2PUdpReassemblyState :=
  match evs with
  | [] => ([], st)
  | (idx, t_prune, now) :: evs' =>
      let '(r, st) := accept_fragment from mid idx cnt (frag idx) t_prune now st in
      let '(rs, st) := deliver from mid cnt frag evs' st in (r :: rs, st)
  end.

(** The messages among the answers. *)
Fixpoint messages (rs : list (result (option bytes))) : list bytes :=
  match rs with
  | [] => []
  | Ok (Some m) :: rs' => m :: messages rs'
  | _ :: rs' => messages rs'
  end.

Section Delivery.
Context (from : SocketAddr) (mid cnt : Z) (frag : Z -> bytes) (t0 : Z).
Context (Hcnt : 1 <= cnt <= 128) (Hfrag : forall i, blen (frag i) <= 1200).

Local Abbreviation key := (from, mid).

Definition whole : bytes := concat (frag <$> seqZ 0 cnt).

Definition range : gset Z := list_to_set (seqZ 0 cnt).

Lemma elem_of_range i : i ∈ range <-> 0 <= i < cnt.
Proof. unfold range. rewrite elem_of_list_to_set, elem_of_seqZ. lia. Qed.

Lemma size_range : Z.of_nat (size range) = cnt.
Proof. unfold range. rewrite size_list_to_set, length_seqZ by apply NoDup_seqZ. lia. Qed.

Definition holds (D : gset Z) (e : P2PUdpPartialMessage) : Prop :=
  t0 <= created_at e /\ pm_frag_cnt e = cnt
  /\ forall i, parts e !! i = if decide (i ∈ D) then Some (frag i) else None.

(** The receiver has the fragments [D] of the message, and room for the others. *)
Definition receiving (D : gset Z) (st : P2PUdpReassemblyState) : Prop :=
  state_inv st /\ completed st !! key = None /\ D ⊆ range
  /\ total_bytes st + 1200 * (cnt - Z.of_nat (size D)) <= P2P_MAX_INFLIGHT_BYTES
  /\ match inflight st !! key with
     | Some e => holds D e
     | None => D = ∅ /\ Z.of_nat (size (inflight st)) < P2P_MAX_INFLIGHT_MESSAGES
               /\ source_messages (sa_ip from) (inflight st) < P2P_MAX_MESSAGES_PER_SOURCE
     end.

Definition received (st : P2PUdpReassemblyState) : Prop :=
  exists t, completed st !! key = Some t /\ t0 <= t.

Lemma prune_receiving D st t :
  t <= t0 + P2P_REASSEMBLY_TTL -> receiving D st -> receiving D (reassembly_prune t st).
Proof.
  intros Ht (Hinv & Hc & HD & Hroom & Hin).
  destruct (prune_inv t st Hinv) as [Hinv' Hle].
  split; [done|]. split; [|split; [done|split; [lia|]]].
  - cbn. by rewrite map_lookup_filter, Hc.
  - destruct (inflight st !! key) as [e|] eqn:E.
    + assert (inflight (reassembly_prune t st) !! key = Some e) as ->; [|done].
      apply prune_lookup. split; [done|]. destruct Hin as (Hcr & _).
      unfold inflight_keep, duration_since, sat_sub. apply Z.leb_le.
      unfold P2P_REASSEMBLY_TTL, secs in *. lia.
    + assert (inflight (reassembly_prune t st) !! key = None) as ->.
      { cbn. by rewrite map_lookup_filter, E. }
      destruct Hin as (-> & H1 & H2). split; [done|]. split.
      * cbn. pose proof (size_filter_le (fun kv : msg_key * P2PUdpPartialMessage =>
          inflight_keep t kv.2 = true) (inflight st)). lia.
      * cbn. eapply Z.le_lt_trans; [apply source_messages_filter|done].
Qed.

Lemma collect_whole (ps : gmap Z bytes) :
  (forall i, 0 <= i < cnt -> ps !! i = Some (frag i)) ->
  collect_parts (Z.to_nat cnt) 0 ps = Some whole.
Proof.
  intros Hps. unfold whole, seqZ. rewrite <- list_fmap_compose.
  assert (forall n (s : nat), Z.of_nat (s + n)%nat <= cnt ->
    collect_parts n (Z.of_nat s) ps
    = Some (concat ((frag ∘ (fun i => Z.of_nat i + 0)) <$> seq s n))) as H.
  { induction n as [|n IH]; intros s Hs; [done|]. cbn [collect_parts seq fmap list_fmap].
    rewrite Hps by lia. cbn [mbind option_bind].
    replace (Z.of_nat s + 1) with (Z.of_nat (S s)) by lia. rewrite IH by lia.
    cbn. do 3 f_equal. lia. }
  apply (H (Z.to_nat cnt) 0%nat). lia.
Qed.

(** The three ways an arrival of a fragment of the message can go. *)
Lemma arrival_duplicate D st idx t now :
  t <= t0 + P2P_REASSEMBLY_TTL -> receiving D st -> idx ∈ D ->
  exists st', accept_fragment from mid idx cnt (frag idx) t now st = (Ok None, st')
    /\ receiving D st'.
Proof.
  intros Ht Hr Hidx. pose proof (prune_receiving D st t Ht Hr) as Hr'.
  exists (reassembly_prune t st). split; [|done]. unfold accept_fragment.
  destruct Hr' as (Hinv & Hc & HD & _ & Hin).
  assert (0 <= idx < cnt) by (apply elem_of_range; set_solver).
  rewrite (proj2 (Z.eqb_neq cnt 0)), (proj2 (Z.leb_gt cnt idx)) by lia. cbn [orb].
  rewrite (proj2 (Z.ltb_ge _ _)) by (unfold P2P_MAX_FRAGMENTS_PER_MESSAGE; lia).
  rewrite (proj2 (Z.ltb_ge _ _)) by (unfold P2P_UDP_MTU_PAYLOAD; apply Hfrag).
  rewrite Hc. destruct (inflight _ !! key) as [e|]; [|set_solver].
  destruct Hin as (_ & _ & Hp). cbn [andb].
  rewrite bool_decide_true; [done|]. rewrite Hp, decide_True by done. by eexists.
Qed.

Lemma holds_size D e : holds D e -> size (parts e) = size D.
Proof.
  intros (_ & _ & Hp). rewrite <- size_dom. f_equal. apply set_eq. intros i.
  rewrite elem_of_dom, Hp. case_decide as Hd; [by split; [|eexists]|].
  split; [intros [? ?]; done|done].
Qed.

Lemma receiving_entry D st idx now :
  receiving D st -> idx ∉ D -> t0 <= now -> holds D (entry_for st key cnt now).
Proof.
  intros (_ & _ & _ & _ & Hin) Hidx Hnow. unfold entry_for.
  destruct (inflight st !! key) as [e|]; [done|]. destruct Hin as (-> & _).
  split; [done|]. split; [done|]. intros i. cbn. rewrite lookup_empty.
  rewrite decide_False; [done|set_solver].
Qed.

Lemma receiving_entry_add D st idx now :
  receiving D st -> idx ∉ D -> t0 <= now ->
  holds (D ∪ {[idx]}) (entry_add (entry_for st key cnt now) idx (frag idx) now).
Proof.
  intros Hr Hidx Hnow. destruct (receiving_entry D st idx now Hr Hidx Hnow) as (H1 & H2 & H3).
  split; [done|]. split; [done|]. intros i. cbn [entry_add parts].
  destruct (decide (i = idx)) as [->|Hne].
  - rewrite lookup_insert_eq, decide_True by set_solver. done.
  - rewrite lookup_insert_ne, H3 by done. do 2 case_decide; set_solver.
Qed.

Lemma receiving_admissible D st idx now :
  receiving D st -> idx ∈ range -> idx ∉ D -> t0 <= now ->
  admissible from mid idx cnt (frag idx) now st.
Proof.
  intros Hr Hidx HnD Hnow. destruct (receiving_entry D st idx now Hr HnD Hnow) as (_ & Hc & Hp).
  destruct Hr as (Hinv & Ho & HD & Hroom & Hin). apply elem_of_range in Hidx as Hi.
  assert (size D < size range)%nat by (apply subset_size; set_solver).
  pose proof size_range. specialize (Hfrag idx) as Hf.
  split; try done.
  - unfold P2P_MAX_FRAGMENTS_PER_MESSAGE. lia.
  - intros Hn. rewrite Hn in Hin. tauto.
  - rewrite Hp. by rewrite decide_False.
  - lia.
Qed.

Lemma arrival_fresh D st idx t now :
  t <= t0 + P2P_REASSEMBLY_TTL -> t0 <= now -> receiving D st -> idx ∈ range -> idx ∉ D ->
  exists st', (D ∪ {[idx]} <> range /\
     accept_fragment from mid idx cnt (frag idx) t now st = (Ok None, st')
     /\ receiving (D ∪ {[idx]}) st')
    \/ (D ∪ {[idx]} = range /\
     accept_fragment from mid idx cnt (frag idx) t now st = (Ok (Some whole), st')
     /\ received st').
Proof.
  intros Ht Hnow Hr Hidx HnD. pose proof (prune_receiving D st t Ht Hr) as Hr'.
  apply elem_of_range in Hidx as Hidx'.
  destruct (accept_fragment_cases from mid idx cnt (frag idx) t now st) as
    [[Hadm ->]|[Hno _]]; [apply Hr|lia| |by destruct Hno; apply receiving_admissible with D].
  set (st1 := reassembly_prune t st) in *. clearbody st1. clear Hr st.
  pose proof Hr' as (Hinv & Hc & HD & Hroom & Hin).
  set (e := entry_add (entry_for st1 key cnt now) idx (frag idx) now).
  assert (holds (D ∪ {[idx]}) e) as He by by apply receiving_entry_add.
  assert (parts_dom : Z.of_nat (size (parts e)) = Z.of_nat (size (D ∪ {[idx]})))
    by (f_equal; by apply holds_size).
  destruct (admit_inv _ _ _ _ _ _ _ Hinv Hadm) as [Hinv' _].
  unfold take_in in *. fold e in Hinv' |- *. rewrite parts_dom in *.
  assert (D ∪ {[idx]} ⊆ range) as Hsub by set_solver.
  destruct (Z.eqb_spec (Z.of_nat (size (D ∪ {[idx]}))) cnt) as [Hsz|Hsz].
  - assert (D ∪ {[idx]} = range) as Hfull.
    { apply set_subseteq_size_eq; [done|]. pose proof size_range. lia. }
    rewrite (collect_whole (parts e)).
    + eexists. right. split; [done|]. split; [done|]. exists now. cbn [completed].
      by rewrite lookup_insert_eq.
    + intros i Hi. destruct He as (_ & _ & ->). rewrite decide_True; [done|].
      rewrite Hfull. by apply elem_of_range.
  - eexists. left. split; [|split; [done|]].
    + intros Hfull. apply Hsz. rewrite Hfull. apply size_range.
    + split; [done|]. cbn [completed inflight total_bytes]. rewrite lookup_insert_eq.
      split; [done|]. split; [done|]. split; [|done].
      rewrite size_union, size_singleton by set_solver. specialize (Hfrag idx). lia.
Qed.

Lemma arrival_late st idx t now :
  t <= t0 + P2P_REASSEMBLY_TTL -> received st -> idx ∈ range ->
  exists st', accept_fragment from mid idx cnt (frag idx) t now st = (Ok None, st')
    /\ received st'.
Proof.
  intros Ht (tc & Hc & Htc) Hi%elem_of_range.
  assert (completed (reassembly_prune t st) !! key = Some tc) as Hc'.
  { cbn. apply map_lookup_filter_Some. split; [done|]. cbn.
    unfold duration_since, sat_sub, P2P_REASSEMBLY_TTL, P2P_REPLAY_WINDOW_SECS, secs in *. lia. }
  exists (reassembly_prune t st). split; [|by exists tc]. unfold accept_fragment.
  rewrite (proj2 (Z.eqb_neq cnt 0)), (proj2 (Z.leb_gt cnt idx)) by lia. cbn [orb].
  rewrite (proj2 (Z.ltb_ge _ _)) by (unfold P2P_MAX_FRAGMENTS_PER_MESSAGE; lia).
  rewrite (proj2 (Z.ltb_ge _ _)) by (unfold P2P_UDP_MTU_PAYLOAD; apply Hfrag).
  by rewrite Hc'.
Qed.

Definition timely (ev : Z * Z * Z) : Prop :=
  ev.1.1 ∈ range /\ ev.1.2 <= t0 + P2P_REASSEMBLY_TTL /\ t0 <= ev.2.

Lemma deliver_late evs st :
  received st -> Forall timely evs -> messages (deliver from mid cnt frag evs st).1 = [].
Proof.
  revert st. induction evs as [|[[idx t] now] evs IH]; intros st Hr Hall; [done|].
  apply Forall_cons in Hall as [(Hi & Ht & Hn) Hall].
  destruct (arrival_late st idx t now Ht Hr Hi) as (st' & E & Hr').
  cbn [deliver]. rewrite E. specialize (IH st' Hr' Hall).
  by destruct (deliver from mid cnt frag evs st').
Qed.

Lemma deliver_once evs D st :
  receiving D st -> D <> range -> Forall timely evs ->
  D ∪ list_to_set (evs.*1.*1) = range ->
  messages (deliver from mid cnt frag evs st).1 = [whole].
Proof.
  revert D st. induction evs as [|[[idx t] now] evs IH]; intros D st Hr HD Hall Hcov.
  { cbn in Hcov. set_solver. }
  apply Forall_cons in Hall as [(Hi & Ht & Hn) Hall]. cbn in Hi, Ht, Hn.
  cbn [deliver]. destruct (decide (idx ∈ D)) as [HiD|HiD].
  - destruct (arrival_duplicate D st idx t now Ht Hr HiD) as (st' & E & Hr').
    rewrite E. specialize (IH D st' Hr' HD Hall ltac:(cbn in Hcov; set_solver)).
    by destruct (deliver from mid cnt frag evs st').
  - destruct (arrival_fresh D st idx t now Ht Hn Hr Hi HiD)
      as (st' & [(Hne & E & Hr')|(Heq & E & Hr')]); rewrite E.
    + specialize (IH _ st' Hr' Hne Hall ltac:(cbn in Hcov; set_solver)).
      by destruct (deliver from mid cnt frag evs st').
    + pose proof (deliver_late evs st' Hr' Hall) as Hl.
      destruct (deliver from mid cnt frag evs st'). cbn in *. by rewrite Hl.
Qed.
End Delivery.

(** What the receiver needs for a new message of [cnt] fragments: an unused key and room. *)
Definition ready_for (from : SocketAddr) (mid cnt : Z) (st : P2PUdpReassemblyState) : Prop :=
  state_inv st /\ completed st !! (from, mid) = None /\ inflight st !! (from, mid) = None
  /\ Z.of_nat (size (inflight st)) < P2P_MAX_INFLIGHT_MESSAGES
  /\ source_messages (sa_ip from) (inflight st) < P2P_MAX_MESSAGES_PER_SOURCE
  /\ total_bytes st + 1200 * cnt <= P2P_MAX_INFLIGHT_BYTES.

(** [C4] Exactly-once delivery: a payload that the sender can cut into fragments is
    reassembled unchanged and handed over exactly once by any receiver with room for it,
    when each of its fragments arrives at least once, in any order and with any number of
    duplicates, within the 30 s lifetime of the partial message; what other messages are
    inflight does not matter. *)
Theorem fragments_delivered_exactly_once (from : SocketAddr) (mid t0 : Z) (payload : bytes)
    (evs : list (Z * Z * Z)) (st : P2PUdpReassemblyState) :
  let cnt := frag_count payload in
  blen payload <= 146688 ->
  ready_for from mid cnt st ->
  Forall (fun ev => 0 <= ev.1.1 < cnt /\ ev.1.2 <= t0 + P2P_REASSEMBLY_TTL /\ t0 <= ev.2) evs ->
  (forall i, 0 <= i < cnt -> i ∈ evs.*1.*1) ->
  messages (deliver from mid cnt (frag_payload payload) evs st).1 = [payload].
Proof.
  intros cnt Hlen (Hinv & Hc & Hi & Hsz & Hsrc & Htot) Hall Hcov.
  destruct (P2PSendFacts.frag_count_bounds payload) as (H1 & Hup & Hlo). fold cnt in H1, Hup, Hlo.
  assert (1 <= cnt <= 128) as Hcnt.
  { split; [done|]. change max_payload with 1146 in *.
    destruct payload as [|b payload]; [vm_compute; discriminate|].
    specialize (Hlo ltac:(done)). lia. }
  assert (forall i, blen (frag_payload payload i) <= 1200) as Hfrag.
  { intros i. unfold frag_payload, blen. rewrite length_take, length_drop.
    change max_payload with 1146. lia. }
  replace [payload] with [whole cnt (frag_payload payload)].
  2: { f_equal. apply P2PSendFacts.frag_payloads_concat. }
  apply (deliver_once from mid cnt (frag_payload payload) t0 Hcnt Hfrag evs ∅).
  - split; [done|]. split; [done|]. split; [set_solver|]. rewrite size_empty, Hi. split; [lia|done].
  - intros E. assert (0 ∈ range cnt) as H0 by (apply elem_of_range; lia). set_solver.
  - eapply Forall_impl; [exact Hall|]. intros ev (Ha & Hb & Hd). split; [|done].
    by apply elem_of_range.
  - apply set_eq. intros i. rewrite elem_of_union, elem_of_list_to_set, elem_of_range. split.
    + intros [Hx|Hx]; [set_solver|]. apply list_elem_of_fmap in Hx as (x & -> & Hx).
      apply list_elem_of_fmap in Hx as (ev & -> & Hx).
      rewrite Forall_forall in Hall. by apply Hall.
    + intros Hx. right. by apply Hcov.
Qed.

Lemma fragments_delivered_exactly_once_witness :
  let p := replicate 1200 Byte.x61 ++ replicate 100 Byte.x62 in
  messages (deliver (mkSocketAddr (IpV4 1) 9) 2 2 (frag_payload p)
    [(1, 0, 0); (1, 5, 5); (0, 7, 7); (1, 9, 9)] reassembly_new).1 = [p].
Proof.
  intros p.
  apply (fragments_delivered_exactly_once (mkSocketAddr (IpV4 1) 9) 2 0 p
    [(1, 0, 0); (1, 5, 5); (0, 7, 7); (1, 9, 9)] reassembly_new).
  - vm_compute. discriminate.
  - split; [apply reassembly_reachable_inv; constructor|]. vm_compute. intuition congruence.
  - repeat constructor; vm_compute; congruence.
  - change (frag_count p) with 2. intros i Hi. cbn.
    assert (i = 0 \/ i = 1) as [-> | ->] by lia; set_solver.
Defined.

(** ** Source bans *)

(** Invalid datagrams from one address at the given instants. *)
Definition bad_run (from : SocketAddr) (ts : list Z) (st : P2PUdpReassemblyState)
    : P2PUdpReassemblyState :=
  fold_left (fun st t => record_invalid_source from t t st) ts st.

Lemma prune_source t st ip s :
  source_state (reassembly_prune t st) !! ip = Some s
  <-> source_state st !! ip = Some s /\ source_keep t s = true.
Proof. cbn. by rewrite map_lookup_filter_Some. Qed.

Section Bans.
Context (from : SocketAddr) (t0 : Z).

Lemma record_counts st t k :
  t0 <= t <= t0 + secs 10 -> 1 <= k < 64 ->
  source_state st !! sa_ip from = Some (mkSource t0 k None) ->
  source_state (record_invalid_source from t t st) !! sa_ip from
  = Some (if k + 1 =? 64 then mkSource t0 0 (Some (t + P2P_SOURCE_BAN_TTL))
          else mkSource t0 (k + 1) None).
Proof.
  intros Ht Hk E. unfold record_invalid_source.
  assert (source_state (reassembly_prune t st) !! sa_ip from = Some (mkSource t0 k None)) as ->.
  { apply prune_source. split; [done|].
    apply orb_true_iff. right. apply Z.ltb_lt. cbn. lia. }
  cbn [default from_option id banned_until window_started bad_count].
  rewrite (proj2 (Z.ltb_ge _ _)) by (unfold duration_since, sat_sub, secs in *; lia).
  cbn [bad_count window_started banned_until].
  assert (sat_add 32 k 1 = k + 1) as -> by (unfold sat_add; lia).
  unfold P2P_SOURCE_BAN_THRESHOLD.
  destruct (Z.leb_spec 64 (k + 1)), (Z.eqb_spec (k + 1) 64); try lia;
    cbn [source_state]; by rewrite lookup_insert_eq.
Qed.

Lemma record_first st :
  source_state st !! sa_ip from = None ->
  source_state (record_invalid_source from t0 t0 st) !! sa_ip from = Some (mkSource t0 1 None).
Proof.
  intros E. unfold record_invalid_source.
  assert (source_state (reassembly_prune t0 st) !! sa_ip from = None) as ->.
  { cbn. by rewrite map_lookup_filter, E. }
  cbn [default from_option id banned_until window_started bad_count].
  rewrite (proj2 (Z.ltb_ge _ _)) by (unfold duration_since, sat_sub, secs; lia).
  cbn [bad_count window_started banned_until].
  change (P2P_SOURCE_BAN_THRESHOLD <=? sat_add 32 0 1) with false.
  cbn [source_state]. by rewrite lookup_insert_eq.
Qed.

Lemma bad_run_counts ts st :
  source_state st !! sa_ip from = None -> Forall (fun t => t0 <= t <= t0 + secs 10) ts ->
  blen ts < 63 ->
  source_state (bad_run from (t0 :: ts) st) !! sa_ip from
  = Some (mkSource t0 (1 + blen ts) None).
Proof.
  intros E. induction ts as [|t ts IH] using rev_ind; intros Hall Hlen.
  - by apply record_first.
  - apply Forall_app in Hall as [Hall [Ht _]%Forall_cons].
    rewrite blen_app in *. change (blen [t]) with 1 in *.
    unfold bad_run in *. rewrite app_comm_cons, fold_left_app. cbn [fold_left].
    pose proof (blen_nonneg ts).
    rewrite (record_counts _ t (1 + blen ts)); [|done|lia|apply IH; [done|lia]].
    rewrite (proj2 (Z.eqb_neq _ _)) by lia. do 2 f_equal. lia.
Qed.
End Bans.

(** Source bans: 64 invalid datagrams from one address within ten seconds ban that
    address, whatever port it then uses, for 60 s after the last of them; fewer than 64
    do not. *)
Theorem ban_after_64_invalid (from : SocketAddr) (t0 : Z) (ts : list Z)
    (st : P2PUdpReassemblyState) :
  source_state st !! sa_ip from = None ->
  Forall (fun t => t0 <= t <= t0 + secs 10) ts ->
  (blen ts < 63 -> forall port t1 t2,
     (is_source_banned (mkSocketAddr (sa_ip from) port) t1 t2 (bad_run from (t0 :: ts) st)).1
     = false)
  /\ (forall t, blen ts = 62 -> t0 <= t <= t0 + secs 10 -> forall port t1 t2,
     t1 < t + secs 60 -> t2 < t + secs 60 ->
     (is_source_banned (mkSocketAddr (sa_ip from) port) t1 t2
        (bad_run from (t0 :: ts ++ [t]) st)).1 = true).
Proof.
  intros E Hall. split.
  - intros Hlen port t1 t2. pose proof (bad_run_counts from t0 ts st E Hall Hlen) as Hs.
    unfold is_source_banned. cbn [fst sa_ip].
    destruct (source_state (reassembly_prune t1 (bad_run from (t0 :: ts) st)) !! sa_ip from)
      as [s|] eqn:Ep; [|done].
    apply prune_source in Ep as [Ep _]. rewrite Hs in Ep.
    by injection Ep as <-.
  - intros t Hlen Ht port t1 t2 H1 H2.
    pose proof (bad_run_counts from t0 ts st E Hall ltac:(lia)) as Hs.
    assert (source_state (bad_run from (t0 :: ts ++ [t]) st) !! sa_ip from
            = Some (mkSource t0 0 (Some (t + secs 60)))) as Hb.
    { replace (1 + blen ts) with 63 in Hs by lia.
      unfold bad_run. rewrite app_comm_cons, fold_left_app.
      exact (record_counts from t0 (bad_run from (t0 :: ts) st) t 63 Ht ltac:(lia) Hs). }
    unfold is_source_banned. cbn [fst sa_ip].
    assert (source_state (reassembly_prune t1 (bad_run from (t0 :: ts ++ [t]) st)) !! sa_ip from
            = Some (mkSource t0 0 (Some (t + secs 60)))) as ->.
    { apply prune_source. split; [done|]. by apply Z.ltb_lt. }
    cbn. by apply Z.ltb_lt.
Qed.

Lemma ban_after_64_invalid_witness :
  (is_source_banned (mkSocketAddr (IpV4 1) 77) 100 100
     (bad_run (mkSocketAddr (IpV4 1) 9) (0 :: replicate 62 5 ++ [6]) reassembly_new)).1 = true.
Proof.
  apply (proj2 (ban_after_64_invalid (mkSocketAddr (IpV4 1) 9) 0 (replicate 62 5) reassembly_new
    eq_refl ltac:(apply Forall_replicate; vm_compute; intuition congruence)));
    vm_compute; intuition congruence.
Defined.
