(* ===== verification/Ids.v ===== *)
(** * Identifiers, access levels and the buffer pool ([gpuf-s/src/util])

    [ClientId]/[ProxyConnId] parsing and printing ([protoc.rs]), access levels
    ([policy.rs]) and the pool of request buffers ([pack.rs]). The [hex] crate is a
    parameter. *)

From S2P Require Import Prelude.
From Stdlib Require Import ZArith Lia String.
From Stdlib Require Import Strings.Byte.
From stdpp Require Import base list gmap.

Local Open Scope Z_scope.

(** ** Hexadecimal text (crate [hex]) *)
Class Hex := { hex_encode : bytes -> bytes; hex_decode : bytes -> option bytes }.

Definition is_hex_digit (b : byte) : bool :=
  let z := Z_of_byte b in
  ((48 <=? z) && (z <=? 57)) || ((97 <=? z) && (z <=? 102)).

Class HexLaws (H : Hex) : Prop := {
  hex_roundtrip b : hex_decode (hex_encode b) = Some b;
  hex_length b : length (hex_encode b) = (2 * length b)%nat;
  hex_digits b : Forall (fun c => is_hex_digit c = true) (hex_encode b) }.

(** ** Client and proxy connection identifiers *)

(** A newtype over [[u8; 16]]. *)
Abbreviation ClientId := bytes (only parsing).
Abbreviation ProxyConnId := bytes (only parsing).

Definition id_wf (id : bytes) : Prop := length id = 16%nat.

(** [str::trim_start_matches("0x")] removes the prefix as often as it occurs. *)
Fixpoint trim_start_0x (s : bytes) : bytes :=
  match s with
  | c1 :: ((c2 :: s') as r) =>
      if bool_decide (c1 = Byte.x30) && bool_decide (c2 = Byte.x78) then trim_start_0x s' else s
  | _ => s
  end.

Definition err_hex : bytes := b!"invalid hex".
Definition err_id_len : bytes := b!"Invalid client ID length".

Section Ids.
Context `{H : Hex}.

Definition try_into_16 (b : bytes) : result bytes :=
  if decide (length b = 16%nat) then Ok b else Err err_id_len.

Definition ClientId_from_str (s : bytes) : result ClientId :=
  let s := trim_start_0x s in
  let? b := ok_or (hex_decode s) err_hex in try_into_16 b.

Definition ClientId_display (id : ClientId) : bytes := hex_encode id.

Definition log_label (id : ClientId) : bytes :=
  let encoded := hex_encode id in
  take 6 encoded ++ b!"..." ++ drop (length encoded - 4) encoded.

Definition ProxyConnId_from_str (s : bytes) : result ProxyConnId :=
  let? b := ok_or (hex_decode s) err_hex in try_into_16 b.

Definition ProxyConnId_display (id : ProxyConnId) : bytes := hex_encode id.
End Ids.

(** ** Access levels *)
Definition METERED : Z := -1.
Definition is_metered (access_level : Z) : bool := access_level =? METERED.

(** ** Buffer pool *)
Module Pool.

Record BytesMut := mkBuf { capacity : Z; data : bytes }.

Record BufferPool := mkPool { pool : list BytesMut; buffer_size : Z }.

Section Pool.
(** The capacity the allocator gives a buffer of a requested size. *)
Context (alloc : Z -> Z).

Definition with_capacity (n : Z) : BytesMut := {| capacity := alloc n; data := [] |}.

Definition pool_new (buffer_size : Z) (initial_capacity : nat) : BufferPool :=
  {| pool := replicate initial_capacity (with_capacity buffer_size);
     buffer_size := buffer_size |}.

(** [Vec::pop] and [Vec::push] work at the end of the vector. *)
Definition pool_get (p : BufferPool) : BytesMut * BufferPool :=
  match last (pool p) with
  | Some buf =>
      ({| capacity := capacity buf; data := [] |},
       {| pool := take (length (pool p) - 1) (pool p); buffer_size := buffer_size p |})
  | None => (with_capacity (buffer_size p), p)
  end.

Definition pool_put (buf : BytesMut) (p : BufferPool) : BufferPool :=
  if capacity buf =? buffer_size p then
    if blen (pool p) <? 100 then
      {| pool := pool p ++ [{| capacity := capacity buf; data := [] |}];
         buffer_size := buffer_size p |}
    else p
  else p.

(** The pool after any sequence of takes and returns of arbitrary buffers. *)
Inductive pool_reach (size : Z) (n : nat) : BufferPool -> Prop :=
  | pr_new : pool_reach size n (pool_new size n)
  | pr_get p : pool_reach size n p -> pool_reach size n (pool_get p).2
  | pr_put p buf : pool_reach size n p -> pool_reach size n (pool_put buf p).
End Pool.
End Pool.

(** ** Facts *)
Module IdsFacts.

Lemma hex_digit_not_x c : is_hex_digit c = true -> c <> Byte.x78.
Proof. intros H ->. vm_compute in H. discriminate. Qed.

Lemma trim_hex s : Forall (fun c => is_hex_digit c = true) s -> trim_start_0x s = s.
Proof.
  intros H. destruct s as [|c1 [|c2 s]]; [done..|].
  apply Forall_cons in H as [_ H]. apply Forall_cons in H as [H2 _]. cbn.
  rewrite (bool_decide_false (c2 = _)) by by apply hex_digit_not_x.
  by rewrite andb_false_r.
Qed.

(** Identifier text: every 16-byte identifier printed in hex, with any number of [0x]
    prefixes, parses back to itself; nothing of another length is accepted; and the label
    written to logs shows ten of the 32 digits. *)
Theorem client_id_text `{H : Hex} {L : HexLaws H} (id : ClientId) (n : nat) (s : bytes) :
  id_wf id ->
  ClientId_from_str (concat (replicate n b!"0x") ++ ClientId_display id) = Ok id
  /\ ProxyConnId_from_str (ProxyConnId_display id) = Ok id
  /\ (forall id', ClientId_from_str s = Ok id' -> id_wf id')
  /\ length (log_label id) = 13%nat.
Proof.
  intros Hwf. split; [|split; [|split]].
  - unfold ClientId_from_str.
    assert (trim_start_0x (concat (replicate n b!"0x") ++ ClientId_display id)
            = hex_encode id) as ->.
    { induction n as [|n IH]; [|done]. apply trim_hex, hex_digits. }
    rewrite hex_roundtrip. cbn. unfold try_into_16. by rewrite decide_True.
  - unfold ProxyConnId_from_str, ProxyConnId_display. rewrite hex_roundtrip. cbn.
    unfold try_into_16. by rewrite decide_True.
  - intros id' (b & _ & Hb)%rbind_Ok. unfold try_into_16 in Hb.
    case_decide; [|done]. by injection Hb as <-.
  - unfold log_label, id_wf in *. rewrite !length_app, length_take, length_drop, hex_length, Hwf.
    reflexivity.
Qed.

(** A concrete hex codec for the witnesses. *)
Definition hex_char (n : Z) : byte := byte_of_Z (if n <? 10 then 48 + n else 87 + n).
Definition unhex_char (c : byte) : option Z :=
  let z := Z_of_byte c in
  if (48 <=? z) && (z <=? 57) then Some (z - 48)
  else if (97 <=? z) && (z <=? 102) then Some (z - 87) else None.
Definition demo_hex_encode (b : bytes) : bytes :=
  concat ((fun c => [hex_char (Z_of_byte c / 16); hex_char (Z_of_byte c mod 16)]) <$> b).
Fixpoint demo_hex_decode (s : bytes) : option bytes :=
  match s with
  | [] => Some []
  | h :: l :: s' => x ← unhex_char h; y ← unhex_char l; r ← demo_hex_decode s';
                    Some (byte_of_Z (16 * x + y) :: r)
  | _ => None
  end.
#[global] Instance demo_hex : Hex := {|
  hex_encode := demo_hex_encode; hex_decode := demo_hex_decode |}.

Lemma hex_char_spec n : 0 <= n < 16 ->
  unhex_char (hex_char n) = Some n /\ is_hex_digit (hex_char n) = true.
Proof.
  intros Hn.
  assert (forallb (fun n => bool_decide (unhex_char (hex_char n) = Some n)
                            && is_hex_digit (hex_char n)) (seqZ 0 16) = true) as Hall
    by (vm_compute; reflexivity).
  rewrite forallb_forall in Hall. specialize (Hall n). cbv beta in Hall.
  rewrite <- list_elem_of_In, elem_of_seqZ in Hall.
  specialize (Hall ltac:(lia)). bool_hyps. done.
Qed.

#[global] Instance demo_hex_laws : HexLaws demo_hex.
Proof.
  assert (forall c, 0 <= Z_of_byte c / 16 < 16 /\ 0 <= Z_of_byte c mod 16 < 16) as Hr.
  { intros c. pose proof (Z_of_byte_range c). split; [|apply Z.mod_pos_bound; lia].
    split; [apply Z.div_pos; lia|apply Z.div_lt_upper_bound; lia]. }
  split; intros b; induction b as [|c b IH]; cbn; try done.
  - destruct (Hr c) as [H1 H2].
    rewrite (proj1 (hex_char_spec _ H1)), (proj1 (hex_char_spec _ H2)). cbn.
    cbn in IH. fold (demo_hex_encode b). rewrite IH. cbn. do 2 f_equal.
    rewrite <- Z.div_mod by lia. apply byte_of_Z_of_byte.
  - cbn in IH. unfold demo_hex_encode in IH. rewrite IH. lia.
  - destruct (Hr c) as [H1 H2].
    repeat constructor; [apply (hex_char_spec _ H1)|apply (hex_char_spec _ H2)|exact IH].
Qed.

Lemma client_id_text_witness :
  ClientId_from_str (concat (replicate 1 b!"0x") ++ ClientId_display (replicate 16 Byte.xab))
  = Ok (replicate 16 Byte.xab).
Proof. exact (proj1 (client_id_text (replicate 16 Byte.xab) 1 [] eq_refl)). Defined.

Example client_id_from_str_0x :
  ClientId_from_str b!"0xabababababababababababababababab" = Ok (replicate 16 Byte.xab).
Proof. vm_compute. reflexivity. Qed.
End IdsFacts.

Module PoolFacts.
Import Pool.

Section Pool.
Context (alloc : Z -> Z).

Definition pool_inv (size : Z) (n : nat) (p : BufferPool) : Prop :=
  buffer_size p = size
  /\ Forall (fun b => data b = [] /\ (capacity b = size \/ capacity b = alloc size)) (pool p)
  /\ blen (pool p) <= Z.max 100 (Z.of_nat n).

Lemma pool_reach_inv size n p : pool_reach alloc size n p -> pool_inv size n p.
Proof.
  induction 1 as [|p _ (Hs & Hall & Hlen)|p buf _ (Hs & Hall & Hlen)].
  - split; [done|]. split; [apply Forall_replicate; cbn; auto|].
    unfold blen. cbn. rewrite length_replicate. lia.
  - unfold pool_get. destruct (last (pool p)) as [b|]; cbn; [|done].
    split; [done|]. split; [by apply Forall_take|].
    unfold blen in *. cbn. rewrite length_take. lia.
  - unfold pool_put. destruct (Z.eqb_spec (capacity buf) (buffer_size p)); [|done].
    destruct (Z.ltb_spec (blen (pool p)) 100); [|done].
    split; [done|]. split.
    + cbn. apply Forall_app. split; [done|]. constructor; [|constructor]. cbn. split; [done|]. left. congruence.
    + cbn. rewrite blen_app. unfold blen in *. cbn. lia.
Qed.
End Pool.

(** Buffers do not leak between requests: whatever buffers were returned to the pool
    before, a buffer taken from it is empty, the pool never holds more than 100 buffers
    (or its initial count), and a buffer that grew past the pool's size is dropped. *)
Theorem pool_buffers_are_clean (alloc : Z -> Z) (size : Z) (n : nat) (p : BufferPool) :
  pool_reach alloc size n p ->
  data (pool_get alloc p).1 = []
  /\ blen (pool p) <= Z.max 100 (Z.of_nat n)
  /\ (forall buf, capacity buf <> size -> pool_put buf p = p).
Proof.
  intros (Hs & Hall & Hlen)%pool_reach_inv. split; [|split; [done|]].
  - unfold pool_get. by destruct (last (pool p)).
  - intros buf Hc. unfold pool_put. rewrite Hs. by rewrite (proj2 (Z.eqb_neq _ _)).
Qed.

Lemma pool_buffers_are_clean_witness :
  data (pool_get id (pool_put (mkBuf 8192 b!"secret") (pool_new id 8192 16))).1 = [].
Proof.
  apply (pool_buffers_are_clean id 8192 16). apply pr_put, pr_new.
Defined.
End PoolFacts.
