(* ===== verification/Scheduler.v ===== *)
(** * The inference scheduler ([gpuf-s/src/inference/scheduler.rs])

    The shared server state (connected clients, [gpuf-s/src/handle/mod.rs]), device
    selection, dispatch of tasks to devices, routing of results and chunks to the waiting
    HTTP handlers, cancellation and the device list. Channels are logs of what was sent on
    them; every method is one atomic step, [execute_inference] three of them. *)

From S2P Require Import Prelude Wire Ids.
From Stdlib Require Import ZArith Lia String.
From Stdlib Require Import Strings.Byte.
From stdpp Require Import base list gmap.

Local Open Scope Z_scope.
Import Framing.

(** ** Connected clients *)

Record ServerSystemInfo := mkServerSystemInfo {
  s_cpu_usage : Z; s_memory_usage : Z; s_disk_usage : Z; s_device_memsize : Z;
  s_total_tflops : Z; s_last_heartbeat : Z; s_memsize_gb : Z }.

(** [writer] names the shared, locked write half of the client's connection. *)
Record ClientInfo := mkClientInfo {
  writer : Z; authed : bool; ci_version : Z; ci_system_info : option ServerSystemInfo;
  ci_devices_info : list DevicesInfo; connected_at : Z; ci_models : option (list Model) }.

(** ** Requests and responses *)

Record CompletionRequest := mkCompletionRequest {
  cr_prompt : bytes; cr_max_tokens : option Z; cr_temperature : option f32;
  cr_top_k : option Z; cr_top_p : option f32; cr_repeat_penalty : option f32;
  cr_repeat_last_n : option Z; cr_min_keep : option Z; cr_model : option bytes;
  cr_stream : option bool }.

Record CompletionUsage := mkUsage {
  u_prompt_tokens : Z; u_completion_tokens : Z; u_total_tokens : Z;
  u_analysis_tokens : option Z; u_final_tokens : option Z }.

(** [logprobs] is a JSON value, kept as its text. *)
Record CompletionChoice := mkChoice {
  text : bytes; index : Z; logprobs : option bytes; finish_reason : bytes }.

Record CompletionResponse := mkResponse {
  r_id : bytes; r_object : bytes; r_created : Z; r_model : bytes;
  r_choices : list CompletionChoice; r_usage : CompletionUsage }.

Inductive StreamEvent :=
  | Delta (d : bytes) (p : OutputPhase)
  | Finish (u : option CompletionUsage)
  | EvDone
  | EvError (e : bytes).

Record DeviceInfo := mkDeviceInfo {
  d_client_id : bytes; d_status : bytes; d_cpu_usage : Z; d_memory_usage : Z; d_device_count : Z }.

(** ** State *)

(** The four tables of the scheduler, the client table it shares with the connection
    handlers, and what has been sent: commands to writers, responses to the waiting calls
    and events to the streams. *)
Record World := mkWorld {
  pending_tasks : gset bytes;
  partial_results : gmap bytes bytes;
  pending_streams : gset bytes;
  stream_usages : gmap bytes CompletionUsage;
  clients : gmap bytes ClientInfo;
  outbox : list (Z * Command);
  responses : list (bytes * result CompletionResponse);
  events : list (bytes * StreamEvent) }.

Definition set_tasks t w := mkWorld t (partial_results w) (pending_streams w)
  (stream_usages w) (clients w) (outbox w) (responses w) (events w).
Definition set_partial p w := mkWorld (pending_tasks w) p (pending_streams w)
  (stream_usages w) (clients w) (outbox w) (responses w) (events w).
Definition set_streams s w := mkWorld (pending_tasks w) (partial_results w) s
  (stream_usages w) (clients w) (outbox w) (responses w) (events w).
Definition set_usages u w := mkWorld (pending_tasks w) (partial_results w) (pending_streams w)
  u (clients w) (outbox w) (responses w) (events w).
Definition set_clients c w := mkWorld (pending_tasks w) (partial_results w) (pending_streams w)
  (stream_usages w) c (outbox w) (responses w) (events w).
Definition post wr c w := mkWorld (pending_tasks w) (partial_results w) (pending_streams w)
  (stream_usages w) (clients w) (outbox w ++ [(wr, c)]) (responses w) (events w).
Definition respond t r w := mkWorld (pending_tasks w) (partial_results w) (pending_streams w)
  (stream_usages w) (clients w) (outbox w) (responses w ++ [(t, r)]) (events w).
Definition emit t e w := mkWorld (pending_tasks w) (partial_results w) (pending_streams w)
  (stream_usages w) (clients w) (outbox w) (responses w) (events w ++ [(t, e)]).

Definition scheduler_new (cs : gmap bytes ClientInfo) : World :=
  mkWorld ∅ ∅ ∅ ∅ cs [] [] [].

(** The state of a writer when a command is sent: locked by another task, or broken. *)
Record WriterEnv := mkWriterEnv { busy : bool; broken : bool }.

Section Scheduler.
Context `{C : Codec} `{H : Hex} (wenv : Z -> WriterEnv).

Definition err_io : bytes := b!"broken pipe".

Definition send_on (wr : Z) (c : Command) (w : World) : result () * World :=
  if broken (wenv wr) then (Err err_io, w)
  else match write_command c with
       | Err e => (Err e, w)
       | Ok _ => (Ok (), post wr c w)
       end.

(** ** Device selection *)

(** [u8] addition in the release profile ([overflow-checks = false]), then widened. *)
Definition total_load (s : ServerSystemInfo) : Z :=
  wrap 8 (s_cpu_usage s + s_memory_usage s).

Definition consider_device (best : option (bytes * Z)) (client_id : bytes)
    (info : ClientInfo) : option (bytes * Z) :=
  if negb (authed info) then best
  else match ci_system_info info with
  | None => best
  | Some s =>
      let load := total_load s in
      match best with
      | None => Some (client_id, load)
      | Some (_, best_load) => if load <? best_load then Some (client_id, load) else best
      end
  end.

Definition err_no_device : bytes := b!"No available Android devices found".

(** [iter] is the order in which the client table happens to be enumerated. *)
Definition select_best_device (iter : list (bytes * ClientInfo))
    (allowed : option (list bytes)) (w : World) : result bytes :=
  let best := match allowed with
    | Some ids => fold_left (fun b id => match clients w !! id with
                                         | Some info => consider_device b id info
                                         | None => b end) ids None
    | None => fold_left (fun b kv => consider_device b kv.1 kv.2) iter None
    end in
  match best with Some (id, _) => Ok id | None => Err err_no_device end.

Definition has_model (model_name : bytes) (info : ClientInfo) : bool :=
  match ci_models info with
  | Some ms => existsb (fun m => bool_decide (m_id m = model_name)) ms
  | None => false
  end.

Definition select_best_device_for_model (model_name : bytes)
    (iter : list (bytes * ClientInfo)) (allowed : option (list bytes)) : result bytes :=
  let best := fold_left (fun b kv =>
    if match allowed with
       | Some ids => negb (existsb (fun id => bool_decide (id = kv.1)) ids)
       | None => false end then b
    else if negb (authed kv.2) then b
    else if negb (has_model model_name kv.2) then b
    else match ci_system_info kv.2 with
         | None => b
         | Some s =>
             let load := total_load s in
             match b with
             | None => Some (kv.1, load)
             | Some (_, best_load) => if load <? best_load then Some (kv.1, load) else b
             end
         end) iter None in
  match best with
  | Some (id, _) => Ok id
  | None => Err (b!"No compatible client found for model '" ++ model_name ++ b!"'")
  end.

(** ** Dispatch *)

Definition err_not_connected : bytes := b!"Device not found or not connected".
Definition err_not_authed : bytes := b!"Device not authenticated".
Definition err_busy : bytes := b!"Device is busy, please try again".

Definition send_task (device_id : bytes) (c : Command) (w : World) : result () * World :=
  match clients w !! device_id with
  | None => (Err err_not_connected, w)
  | Some info =>
      if negb (authed info) then (Err err_not_authed, w)
      else if busy (wenv (writer info)) then (Err err_busy, w)
      else send_on (writer info) c w
  end.

Definition send_task_to_device (device_id task_id prompt : bytes) (p : Sampling) (w : World) :=
  send_task device_id (V1 (InferenceTask task_id prompt p)) w.

Definition send_chat_task_to_device (device_id task_id model : bytes)
    (messages : list ChatMessage) (p : Sampling) (w : World) :=
  send_task device_id (V1 (ChatInferenceTask task_id model messages p)) w.

(** The IEEE patterns of the defaults 0.7, 0.9 and 1.1. *)
Definition request_sampling (default_max : Z) (r : CompletionRequest) : Sampling :=
  {| max_tokens := default default_max (cr_max_tokens r);
     temperature := default 0x3F333333 (cr_temperature r);
     top_k := default 40 (cr_top_k r);
     top_p := default 0x3F666666 (cr_top_p r);
     repeat_penalty := default 0x3F8CCCCD (cr_repeat_penalty r);
     repeat_last_n := default 64 (cr_repeat_last_n r);
     min_keep := default 1 (cr_min_keep r) |}.

(** The stream is registered before a device is selected; only a failed send removes it. *)
Definition execute_inference_stream (task_id : bytes) (r : CompletionRequest)
    (iter : list (bytes * ClientInfo)) (allowed : option (list bytes)) (w : World)
    : result (bytes * bytes) * World :=
  let w := set_streams ({[task_id]} ∪ pending_streams w) w in
  match select_best_device iter allowed w with
  | Err e => (Err e, w)
  | Ok device_id =>
      match send_task_to_device device_id task_id (cr_prompt r) (request_sampling 4090 r) w with
      | (Err e, w) => (Err e, set_streams (pending_streams w ∖ {[task_id]}) w)
      | (Ok _, w) => (Ok (task_id, device_id), w)
      end
  end.

Definition execute_chat_inference_stream (task_id model : bytes) (messages : list ChatMessage)
    (p : Sampling) (iter : list (bytes * ClientInfo)) (allowed : option (list bytes)) (w : World)
    : result (bytes * bytes) * World :=
  let w := set_streams ({[task_id]} ∪ pending_streams w) w in
  match match select_best_device_for_model model iter allowed with
        | Ok d => Ok d
        | Err _ => select_best_device iter allowed w
        end with
  | Err e => (Err e, w)
  | Ok device_id =>
      match send_chat_task_to_device device_id task_id model messages p w with
      | (Err e, w) => (Err e, set_streams (pending_streams w ∖ {[task_id]}) w)
      | (Ok _, w) => (Ok (task_id, device_id), w)
      end
  end.

Definition cancel_inference (task_id device_id : bytes) (w : World) : result () * World :=
  let w := set_streams (pending_streams w ∖ {[task_id]}) w in
  match clients w !! device_id with
  | None => (Err err_not_connected, w)
  | Some info =>
      if negb (authed info) then (Err err_not_authed, w)
      else send_on (writer info) (V1 (CancelInference task_id)) w
  end.

(** [execute_inference] up to the send: the task is registered, selected and sent. *)
Definition inference_dispatch (task_id : bytes) (r : CompletionRequest)
    (iter : list (bytes * ClientInfo)) (allowed : option (list bytes)) (w : World)
    : result bytes * World :=
  let w := set_tasks ({[task_id]} ∪ pending_tasks w) w in
  match select_best_device iter allowed w with
  | Err e => (Err e, w)
  | Ok device_id =>
      match send_task_to_device device_id task_id (cr_prompt r) (request_sampling 1024 r) w with
      | (Err e, w) => (Err e, set_tasks (pending_tasks w ∖ {[task_id]}) w)
      | (Ok _, w) => (Ok device_id, w)
      end
  end.

(** The check made before waiting. *)
Definition inference_check (task_id : bytes) (w : World) : result () :=
  if bool_decide (task_id ∈ pending_tasks w) then Ok ()
  else Err (b!"Task " ++ task_id ++ b!" was removed from pending_tasks unexpectedly").

Definition response_for (task_id : bytes) (w : World) : option (result CompletionResponse) :=
  snd <$> List.find (fun tr => bool_decide (fst tr = task_id)) (responses w).

Definition timeout_secs (env : option Z) : Z :=
  match env with Some v => if 0 <? v then v else 300 | None => 300 end.

(** The wait: [None] while neither a response nor the timer has arrived. *)
Definition inference_wait (task_id : bytes) (env : option Z) (timed_out : bool) (w : World)
    : option (result CompletionResponse) * World :=
  if timed_out
  then (Some (Err (b!"Inference task timed out after " ++ dec (timeout_secs env)
                   ++ b!" seconds")),
        set_tasks (pending_tasks w ∖ {[task_id]}) w)
  else match response_for task_id w with
       | Some r => (Some r, w)
       | None => (if bool_decide (task_id ∈ pending_tasks w) then None
                  else Some (Err b!"Task response channel closed"), w)
       end.

(** ** Results from devices *)

Definition handle_inference_result (task_id : bytes) (success : bool)
    (res error : option bytes) (prompt_tokens completion_tokens now : Z) (w : World) : World :=
  if bool_decide (task_id ∈ pending_tasks w) then
    let response :=
      if success then
        Ok {| r_id := task_id; r_object := b!"text_completion"; r_created := now;
              r_model := b!"gpuf-android";
              r_choices := [{| text := default [] res; index := 0; logprobs := None;
                               finish_reason := b!"stop" |}];
              r_usage := {| u_prompt_tokens := prompt_tokens;
                            u_completion_tokens := completion_tokens;
                            u_total_tokens := sat_add 32 prompt_tokens completion_tokens;
                            u_analysis_tokens := None; u_final_tokens := None |} |}
      else Err (b!"Inference failed: " ++ default [] error) in
    respond task_id response (set_tasks (pending_tasks w ∖ {[task_id]}) w)
  else set_partial (delete task_id (partial_results w)) w.

(** A chunk as received: the arguments of [InferenceResultChunk]. *)
Record Chunk := mkChunk {
  c_delta : bytes; c_phase : OutputPhase; c_done : bool; c_error : option bytes;
  c_prompt : Z; c_completion : Z; c_analysis : Z; c_final : Z }.

Definition stream_chunk (task_id : bytes) (c : Chunk) (w : World) : World :=
  match c_error c with
  | Some err =>
      let w := emit task_id EvDone (emit task_id (EvError err) w) in
      let w := set_streams (pending_streams w ∖ {[task_id]}) w in
      set_usages (delete task_id (stream_usages w)) w
  | None =>
      let w := if negb (bool_decide (c_delta c = []))
               then emit task_id (Delta (c_delta c) (c_phase c)) w else w in
      if c_done c then
        let usage := {| u_prompt_tokens := c_prompt c; u_completion_tokens := c_completion c;
                        u_total_tokens := sat_add 32 (c_prompt c) (c_completion c);
                        u_analysis_tokens := Some (c_analysis c);
                        u_final_tokens := Some (c_final c) |} in
        let w := set_usages (<[task_id := usage]> (stream_usages w)) w in
        let usage_for_finish := stream_usages w !! task_id in
        let w := emit task_id EvDone (emit task_id (Finish usage_for_finish) w) in
        let w := set_streams (pending_streams w ∖ {[task_id]}) w in
        set_usages (delete task_id (stream_usages w)) w
      else w
  end.

Definition plain_chunk (task_id : bytes) (c : Chunk) (now : Z) (w : World) : World :=
  match c_error c with
  | Some err => handle_inference_result task_id false None (Some err) 0 0 now w
  | None =>
      let sofar := default [] (partial_results w !! task_id) in
      let w := set_partial (<[task_id := sofar ++ c_delta c]> (partial_results w)) w in
      if c_done c then
        let result := default [] (partial_results w !! task_id) in
        let w := set_partial (delete task_id (partial_results w)) w in
        handle_inference_result task_id true (Some result) None (c_prompt c) (c_completion c)
          now w
      else w
  end.

Definition handle_inference_result_chunk (task_id : bytes) (c : Chunk) (now : Z) (w : World)
    : World :=
  if bool_decide (task_id ∈ pending_streams w) then stream_chunk task_id c w
  else plain_chunk task_id c now w.

(** ** Device list *)

Definition device_entry (client_id : bytes) (info : ClientInfo) : list DeviceInfo :=
  if negb (authed info) then []
  else [{| d_client_id := hex_encode client_id;
           d_status := match ci_system_info info with
                       | Some _ => b!"online" | None => b!"initializing" end;
           d_cpu_usage := from_option s_cpu_usage 0 (ci_system_info info);
           d_memory_usage := from_option s_memory_usage 0 (ci_system_info info);
           d_device_count := wrap 32 (blen (ci_devices_info info)) |}].

Definition get_available_devices (iter : list (bytes * ClientInfo))
    (allowed : option (list bytes)) (w : World) : list DeviceInfo :=
  match allowed with
  | Some ids => concat ((fun id => match clients w !! id with
                                   | Some info => device_entry id info
                                   | None => [] end) <$> ids)
  | None => concat ((fun kv => device_entry kv.1 kv.2) <$> iter)
  end.
End Scheduler.

(** ** Facts: selection *)
Module SelectFacts.

(** Both selections are folds that keep the first candidate of least load. *)
Definition pick (b : option (bytes * Z)) (kv : bytes * option Z) : option (bytes * Z) :=
  match kv.2 with
  | None => b
  | Some l => match b with
              | None => Some (kv.1, l)
              | Some (_, bl) => if l <? bl then Some (kv.1, l) else b
              end
  end.

Lemma pick_spec L b :
  match fold_left pick L b with
  | Some (id, l) =>
      (b = Some (id, l) \/ (id, Some l) ∈ L)
      /\ (forall id' l', (id', Some l') ∈ L -> l <= l')
      /\ (forall id' l', b = Some (id', l') -> l <= l')
  | None => b = None /\ forall id' l', (id', Some l') ∉ L
  end.
Proof.
  revert b. induction L as [|[k o] L IH]; intros b; cbn.
  { destruct b as [[id l]|]; [|split; [done|intros ??; apply not_elem_of_nil]].
    split; [by left|]. split; [by intros ? ? Hin%elem_of_nil|]. intros ?? [= _ ->]. lia. }
  specialize (IH (pick b (k, o))).
  destruct (fold_left pick L (pick b (k, o))) as [[id l]|].
  - destruct IH as (Hin & Hmin & Hb). unfold pick in Hin, Hb. cbn in Hin, Hb.
    destruct o as [lo|]; [destruct b as [[bid bl]|]; [destruct (Z.ltb_spec lo bl)|]|].
    all: split; [set_solver|split].
    all: try (intros id' l' [[= -> ->]|Hi]%elem_of_cons; [|by eapply Hmin]).
    all: try (intros id' l' [= -> ->]).
    all: try match goal with H : forall _ _, Some (?a, ?c) = Some _ -> _ |- _ =>
               pose proof (H a c eq_refl) end; try done; try lia.
    intros id' l' [[=]|Hi]%elem_of_cons. by eapply Hmin.
  - destruct IH as (Hn & Hno). unfold pick in Hn. cbn in Hn.
    destruct o as [lo|]; [by destruct b as [[bid bl]|]; [destruct (lo <? bl)|]|].
    split; [done|]. intros id' l' [[=]|Hi]%elem_of_cons. by eapply Hno.
Qed.

Lemma fold_left_fmap {A B T} (g : B -> T) (f : A -> T -> A) l a :
  fold_left f (g <$> l) a = fold_left (fun x y => f x (g y)) l a.
Proof. revert a. induction l; intros a0; cbn; auto. Qed.

Lemma fold_left_ext {A B} (f g : A -> B -> A) l a :
  (forall x y, f x y = g x y) -> fold_left f l a = fold_left g l a.
Proof. intros Hfg. revert a. induction l; intros a0; cbn; [done|]. by rewrite Hfg. Qed.

Definition load_of (info : ClientInfo) : option Z :=
  if authed info then total_load <$> ci_system_info info else None.

Definition in_allowed (allowed : option (list bytes)) (id : bytes) : Prop :=
  forall ids, allowed = Some ids -> id ∈ ids.

(** A device that may be given work: connected, authenticated, reporting its load, and
    among the ids the caller may use. *)
Definition eligible (allowed : option (list bytes)) (w : World) (id : bytes)
    (s : ServerSystemInfo) : Prop :=
  in_allowed allowed id /\ exists info, clients w !! id = Some info
    /\ authed info = true /\ ci_system_info info = Some s.

Definition enumerates (iter : list (bytes * ClientInfo)) (w : World) : Prop :=
  iter ≡ₚ map_to_list (clients w).

Lemma enumerates_refl w : enumerates (map_to_list (clients w)) w.
Proof. unfold enumerates. reflexivity. Qed.

Lemma enumerates_elem iter w id info :
  enumerates iter w -> (id, info) ∈ iter <-> clients w !! id = Some info.
Proof. intros ->. apply elem_of_map_to_list. Qed.

Definition candidates (iter : list (bytes * ClientInfo)) (allowed : option (list bytes))
    (w : World) : list (bytes * option Z) :=
  match allowed with
  | Some ids => (fun id => (id, clients w !! id ≫= load_of)) <$> ids
  | None => (fun kv => (kv.1, load_of kv.2)) <$> iter
  end.

Lemma load_of_Some info l :
  load_of info = Some l <->
  exists s, authed info = true /\ ci_system_info info = Some s /\ l = total_load s.
Proof.
  unfold load_of. destruct (authed info), (ci_system_info info) as [s|]; cbn; split.
  all: try (intros [= <-]); try (intros (s' & ? & ? & ?); simplify_eq); eauto.
Qed.

Lemma candidates_elem iter allowed w id l :
  enumerates iter w ->
  (id, Some l) ∈ candidates iter allowed w <->
  exists s, eligible allowed w id s /\ l = total_load s.
Proof.
  intros He. unfold candidates, eligible, in_allowed. destruct allowed as [ids|].
  - rewrite list_elem_of_fmap. split.
    + intros (id' & [= -> Hl] & Hin). symmetry in Hl.
      apply bind_Some in Hl as (info & Hc & (s & Ha & Hs & ->)%load_of_Some).
      exists s. split; [|done]. split; [by intros ? [= <-]|by exists info].
    + intros (s & (Hin & info & Hc & Ha & Hs) & ->). exists id.
      rewrite Hc. cbn. rewrite (proj2 (load_of_Some info (total_load s))) by eauto.
      split; [done|by apply Hin].
  - rewrite list_elem_of_fmap. split.
    + intros ([id' info] & [= -> Hl] & Hin). symmetry in Hl.
      apply load_of_Some in Hl as (s & Ha & Hs & ->).
      apply (enumerates_elem _ _ _ _ He) in Hin. exists s. split; [|done].
      split; [done|by exists info].
    + intros (s & (_ & info & Hc & Ha & Hs) & ->). exists (id, info). cbn.
      rewrite (proj2 (load_of_Some info (total_load s))) by eauto.
      split; [done|]. by apply (enumerates_elem _ _ _ _ He).
Qed.

Lemma consider_device_pick b id info :
  consider_device b id info = pick b (id, load_of info).
Proof.
  unfold consider_device, pick, load_of. cbn.
  by destruct (authed info); cbn; [destruct (ci_system_info info)|].
Qed.

Lemma select_best_device_pick iter allowed w :
  select_best_device iter allowed w =
  match fold_left pick (candidates iter allowed w) None with
  | Some (id, _) => Ok id | None => Err err_no_device end.
Proof.
  unfold select_best_device, candidates. destruct allowed as [ids|]; rewrite fold_left_fmap.
  all: erewrite fold_left_ext; [reflexivity|]; intros b y; cbn.
  - destruct (clients w !! y) as [info|]; [apply consider_device_pick|done].
  - apply consider_device_pick.
Qed.

(** The device with the least wrapped load among the eligible ones. *)
Lemma select_best_device_load iter allowed w :
  enumerates iter w ->
  match select_best_device iter allowed w with
  | Ok id => exists s, eligible allowed w id s
      /\ forall id' s', eligible allowed w id' s' -> total_load s <= total_load s'
  | Err e => e = err_no_device /\ forall id' s', ~ eligible allowed w id' s'
  end.
Proof.
  intros He. rewrite select_best_device_pick.
  pose proof (pick_spec (candidates iter allowed w) None) as Hp.
  destruct (fold_left _ _ _) as [[id l]|].
  - destruct Hp as ([|(s & Hs & ->)%candidates_elem] & Hmin & _); [done| |done].
    exists s. split; [done|]. intros id' s' Hs'. apply (Hmin id'), candidates_elem; eauto.
  - split; [done|]. intros id' s' Hs'. destruct Hp as [_ Hp].
    eapply Hp. apply candidates_elem; eauto.
Qed.

(** *** Selection by model *)

Lemma select_for_model_pick name iter allowed :
  select_best_device_for_model name iter allowed =
  match fold_left pick ((fun kv => (kv.1,
          if match allowed with
             | Some ids => negb (existsb (fun id => bool_decide (id = kv.1)) ids)
             | None => false end then None
          else if has_model name kv.2 then load_of kv.2 else None)) <$> iter) None with
  | Some (id, _) => Ok id
  | None => Err (b!"No compatible client found for model '" ++ name ++ b!"'") end.
Proof.
  unfold select_best_device_for_model. rewrite fold_left_fmap.
  erewrite fold_left_ext; [reflexivity|]; intros b [id info]; unfold pick, load_of; cbn.
  destruct (match allowed with Some _ => _ | None => _ end); [done|].
  by destruct (authed info), (has_model name info), (ci_system_info info).
Qed.

Lemma allowed_check allowed id :
  match allowed with
  | Some ids => negb (existsb (fun i => bool_decide (i = id)) ids) | None => false end = false
  <-> in_allowed allowed id.
Proof.
  unfold in_allowed. destruct allowed as [ids|]; [|split; congruence].
  rewrite negb_false_iff, existsb_exists. split.
  - intros (x & Hx & Hb) ? [= <-]. bool_hyps. subst. by apply list_elem_of_In.
  - intros Hin. exists id. rewrite <- list_elem_of_In. split; [by apply Hin|].
    by apply bool_decide_eq_true.
Qed.

Definition serves (name : bytes) (w : World) (id : bytes) : Prop :=
  exists info, clients w !! id = Some info /\ has_model name info = true.

Lemma select_for_model_load name iter allowed w :
  enumerates iter w ->
  match select_best_device_for_model name iter allowed with
  | Ok id => exists s, eligible allowed w id s /\ serves name w id
      /\ forall id' s', eligible allowed w id' s' -> serves name w id' ->
           total_load s <= total_load s'
  | Err e => e = b!"No compatible client found for model '" ++ name ++ b!"'"
      /\ forall id' s', eligible allowed w id' s' -> ~ serves name w id'
  end.
Proof.
  intros He. rewrite select_for_model_pick.
  set (L := _ <$> iter).
  assert (forall id l, (id, Some l) ∈ L <->
            exists s, eligible allowed w id s /\ serves name w id /\ l = total_load s) as HL.
  { intros id l. unfold L. rewrite list_elem_of_fmap. split.
    - intros ([id' info] & [= -> Hl] & Hin). cbn in Hl.
      destruct (match allowed with Some _ => _ | None => _ end) eqn:Hal; [done|].
      apply allowed_check in Hal.
      destruct (has_model name info) eqn:Hm; [|done]. symmetry in Hl.
      apply load_of_Some in Hl as (s & Ha & Hs & ->).
      apply (enumerates_elem _ _ _ _ He) in Hin.
      exists s. split; [split; [done|by exists info]|]. split; [by exists info|done].
    - intros (s & (Hal & info & Hc & Ha & Hs) & (info' & Hc' & Hm) & ->). simplify_eq.
      exists (id, info). cbn. rewrite (proj2 (allowed_check allowed id) Hal), Hm.
      rewrite (proj2 (load_of_Some info (total_load s))) by eauto.
      split; [done|]. by apply (enumerates_elem _ _ _ _ He). }
  pose proof (pick_spec L None) as Hp.
  destruct (fold_left _ _ _) as [[id l]|].
  - destruct Hp as ([|(s & Hs & Hm & ->)%HL] & Hmin & _); [done|].
    exists s. split; [done|]. split; [done|]. intros id' s' Hs' Hm'. apply (Hmin id'), HL; eauto.
  - split; [done|]. intros id' s' Hs' Hm'. destruct Hp as [_ Hp]. eapply Hp, HL; eauto.
Qed.

(** Loads as honest devices report them: percentages. *)
Definition percentages (w : World) : Prop :=
  forall id info s, clients w !! id = Some info -> ci_system_info info = Some s ->
    0 <= s_cpu_usage s <= 100 /\ 0 <= s_memory_usage s <= 100.

Lemma percentages_load allowed w id s :
  percentages w -> eligible allowed w id s ->
  total_load s = s_cpu_usage s + s_memory_usage s.
Proof.
  intros Hp (_ & info & Hc & _ & Hs). destruct (Hp _ _ _ Hc Hs).
  unfold total_load, wrap. apply Z.mod_small. lia.
Qed.

(** Load balancing: with loads reported as percentages, a request goes to a device
    that is connected, authenticated, within the caller's allowed ids and has the least
    cpu + memory load of all such devices (of all such devices serving the model, for the
    selection by model); selection fails exactly when there is none. The enumeration
    order of the table does not matter. *)
Theorem selected_device_is_least_loaded (iter : list (bytes * ClientInfo))
    (allowed : option (list bytes)) (name : bytes) (w : World) :
  enumerates iter w -> percentages w ->
  match select_best_device iter allowed w with
  | Ok id => exists s, eligible allowed w id s
      /\ forall id' s', eligible allowed w id' s' ->
           s_cpu_usage s + s_memory_usage s <= s_cpu_usage s' + s_memory_usage s'
  | Err _ => forall id' s', ~ eligible allowed w id' s'
  end
  /\ match select_best_device_for_model name iter allowed with
  | Ok id => exists s, eligible allowed w id s /\ serves name w id
      /\ forall id' s', eligible allowed w id' s' -> serves name w id' ->
           s_cpu_usage s + s_memory_usage s <= s_cpu_usage s' + s_memory_usage s'
  | Err _ => forall id' s', eligible allowed w id' s' -> ~ serves name w id'
  end.
Proof.
  intros He Hp. split.
  - pose proof (select_best_device_load iter allowed w He) as H.
    destruct (select_best_device _ _ _); [|by destruct H].
    destruct H as (s & Hs & Hmin). exists s. split; [done|]. intros id' s' Hs'.
    rewrite <- (percentages_load _ _ _ _ Hp Hs), <- (percentages_load _ _ _ _ Hp Hs'). eauto.
  - pose proof (select_for_model_load name iter allowed w He) as H.
    destruct (select_best_device_for_model _ _ _); [|by destruct H].
    destruct H as (s & Hs & Hm & Hmin). exists s. split; [done|]. split; [done|].
    intros id' s' Hs' Hm'.
    rewrite <- (percentages_load _ _ _ _ Hp Hs), <- (percentages_load _ _ _ _ Hp Hs'). eauto.
Qed.

(** Loads are added as [u8], so a device that reports usages summing to exactly 256
    (more than any two percentages) is taken for an idle one and wins over every device
    with an honest, non-zero load. *)
Theorem overflowing_load_wins (iter : list (bytes * ClientInfo)) (w : World) (id : bytes)
    (s : ServerSystemInfo) :
  enumerates iter w -> eligible None w id s -> s_cpu_usage s + s_memory_usage s = 256 ->
  (forall id' s', eligible None w id' s' -> id' <> id ->
     0 < s_cpu_usage s' + s_memory_usage s' <= 200) ->
  select_best_device iter None w = Ok id.
Proof.
  intros He Hs H256 Hothers.
  pose proof (select_best_device_load iter None w He) as H.
  destruct (select_best_device _ _ _) as [id2|]; [|by destruct H as [_ []%(fun n => n id s)]].
  destruct H as (s2 & Hs2 & Hmin). destruct (decide (id2 = id)) as [->|Hne]; [done|].
  specialize (Hmin _ _ Hs). specialize (Hothers _ _ Hs2 Hne).
  unfold total_load in Hmin. rewrite H256 in Hmin.
  unfold wrap in Hmin. rewrite Z.mod_small in Hmin by lia. change (256 mod 2 ^ 8) with 0 in Hmin.
  lia.
Qed.

(** *** Concrete devices *)
Definition demo_info (cpu mem : Z) (wr : Z) : ClientInfo :=
  {| writer := wr; authed := true; ci_version := 1;
     ci_system_info := Some (mkServerSystemInfo cpu mem 0 0 0 0 0);
     ci_devices_info := []; connected_at := 0; ci_models := None |}.

Definition demo_world (a b : ClientInfo) : World :=
  scheduler_new (<[b!"aaaa" := a]> {[b!"bbbb" := b]}).

Lemma demo_world_clients a b id info :
  clients (demo_world a b) !! id = Some info ->
  (id = b!"aaaa" /\ info = a) \/ (id = b!"bbbb" /\ info = b).
Proof.
  cbn. intros [[<- <-]|[Hne [<- <-]%lookup_singleton_Some]]%lookup_insert_Some; auto.
Qed.

Lemma selected_device_is_least_loaded_witness :
  select_best_device (map_to_list (clients (demo_world (demo_info 50 20 1) (demo_info 10 30 2))))
    None (demo_world (demo_info 50 20 1) (demo_info 10 30 2)) = Ok b!"bbbb"
  /\ ~ forall id' s', ~ eligible None (demo_world (demo_info 50 20 1) (demo_info 10 30 2)) id' s'.
Proof.
  assert (select_best_device
            (map_to_list (clients (demo_world (demo_info 50 20 1) (demo_info 10 30 2))))
            None (demo_world (demo_info 50 20 1) (demo_info 10 30 2)) = Ok b!"bbbb") as He
    by (vm_compute; reflexivity).
  split; [exact He|].
  destruct (selected_device_is_least_loaded
    (map_to_list (clients (demo_world (demo_info 50 20 1) (demo_info 10 30 2)))) None b!"m"
    (demo_world (demo_info 50 20 1) (demo_info 10 30 2)) (enumerates_refl _)) as [H _].
  { intros id info s [[-> ->]|[-> ->]]%demo_world_clients [= <-]; cbn; lia. }
  rewrite He in H. destruct H as (s & Hs & _). intros Hno. exact (Hno _ _ Hs).
Defined.

Lemma overflowing_load_wins_witness :
  select_best_device (map_to_list (clients (demo_world (demo_info 200 56 1) (demo_info 1 0 2))))
    None (demo_world (demo_info 200 56 1) (demo_info 1 0 2)) = Ok b!"aaaa".
Proof.
  apply (overflowing_load_wins _ _ _ (mkServerSystemInfo 200 56 0 0 0 0 0)).
  - apply enumerates_refl.
  - split; [done|]. exists (demo_info 200 56 1). done.
  - reflexivity.
  - intros id' s' (_ & info & Hc & _ & Hs) Hne.
    apply demo_world_clients in Hc as [[-> ->]|[-> ->]]; [done|].
    injection Hs as <-. cbn. lia.
Defined.
End SelectFacts.
