(* ===== verification/Streams.v ===== *)
(** * Correctness of the scheduler's dispatch and result routing

    Theorems about [Scheduler]: which device gets a task, what a stream or a waiting call
    receives for the chunks a device sends, and an invariant of every interleaving of the
    scheduler's operations. *)

From S2P Require Import Prelude Wire Ids Scheduler.
From Stdlib Require Import ZArith Lia String.
From Stdlib Require Import Strings.Byte.
From stdpp Require Import base list gmap.

Local Open Scope Z_scope.
Import Framing SelectFacts.

(** ** Dispatch *)
Section Dispatch.
Context `{C : Codec} (wenv : Z -> WriterEnv).

Lemma send_task_Ok d c w u w' :
  send_task wenv d c w = (Ok u, w') ->
  exists info, clients w !! d = Some info /\ authed info = true
    /\ w' = post (writer info) c w.
Proof.
  unfold send_task, send_on. intros H.
  destruct (clients w !! d) as [info|]; [|done]. exists info.
  destruct (authed info) eqn:Ha; [|done]. cbn in H.
  destruct (busy (wenv (writer info))), (broken (wenv (writer info))), (write_command c);
    simplify_eq; auto.
Qed.

Lemma send_task_Err d c w e w' : send_task wenv d c w = (Err e, w') -> w' = w.
Proof.
  unfold send_task, send_on. intros H. break_all H.
Qed.

Lemma eligible_streams allowed w S id s :
  eligible allowed (set_streams S w) id s <-> eligible allowed w id s.
Proof. done. Qed.

(** Selection by model with its fallback. *)
Definition choose (model : bytes) iter allowed w : result bytes :=
  match select_best_device_for_model model iter allowed with
  | Ok d => Ok d
  | Err _ => select_best_device iter allowed w
  end.

Lemma choose_spec model iter allowed w :
  enumerates iter w ->
  match choose model iter allowed w with
  | Ok d => exists s, eligible allowed w d s
      /\ (serves model w d \/ forall d' s', eligible allowed w d' s' -> ~ serves model w d')
  | Err e => e = err_no_device /\ forall d s, ~ eligible allowed w d s
  end.
Proof.
  intros He. unfold choose.
  pose proof (select_for_model_load model iter allowed w He) as H1.
  destruct (select_best_device_for_model model iter allowed).
  { destruct H1 as (s & Hs & Hm & _). eauto. }
  pose proof (select_best_device_load iter allowed w He) as H2.
  destruct (select_best_device iter allowed w); [|done].
  destruct H2 as (s & Hs & _), H1 as [_ H1]. eauto.
Qed.

Lemma chat_dispatch (iter : list (bytes * ClientInfo)) (w : World) (t model : bytes)
    (msgs : list ChatMessage) (p : Sampling) (allowed : option (list bytes)) :
  enumerates iter w ->
  match execute_chat_inference_stream wenv t model msgs p iter allowed w with
  | (Ok (t', d), w') =>
      t' = t /\ (exists s, eligible allowed w d s)
      /\ (serves model w d \/ forall d' s', eligible allowed w d' s' -> ~ serves model w d')
      /\ (exists info, clients w !! d = Some info
            /\ outbox w' = outbox w ++ [(writer info, V1 (ChatInferenceTask t model msgs p))])
      /\ pending_streams w' = {[t]} ∪ pending_streams w
  | (Err e, w') => outbox w' = outbox w
      /\ ((exists d s, eligible allowed w d s) -> t ∉ pending_streams w')
  end.
Proof.
  intros He. unfold execute_chat_inference_stream.
  set (w1 := set_streams _ w).
  change (match select_best_device_for_model model iter allowed with
          | Ok d => Ok d | Err _ => select_best_device iter allowed w1 end)
    with (choose model iter allowed w1).
  pose proof (choose_spec model iter allowed w1 He) as Hc.
  destruct (choose _ _ _ _) as [d|e].
  - destruct Hc as (s & Hs & Hm).
    destruct (send_chat_task_to_device _ _ _ _ _ _ _) as [[u|e] w2] eqn:Hsend.
    + apply send_task_Ok in Hsend as (info & Hi & _ & ->).
      split; [done|]. split; [by exists s|]. split; [exact Hm|].
      split; [by exists info|done].
    + apply send_task_Err in Hsend as ->. split; [done|]. intros _. cbn. set_solver.
  - destruct Hc as [-> Hno]. split; [done|]. intros (d & s & Hs). by destruct (Hno d s).
Qed.

(** Dispatch of a streamed chat: on success exactly one command, the task with the
    caller's model, messages and sampling, was written to the connection of a device
    the caller is allowed to use, one that serves the model whenever such a device is
    eligible, and the stream is registered under the task id. On failure nothing was
    written to any device. *)
Theorem chat_dispatch_spec (iter : list (bytes * ClientInfo)) (w : World) (t model : bytes)
    (msgs : list ChatMessage) (p : Sampling) (allowed : option (list bytes)) :
  enumerates iter w ->
  match execute_chat_inference_stream wenv t model msgs p iter allowed w with
  | (Ok (t', d), w') =>
      t' = t /\ (exists s, eligible allowed w d s)
      /\ (serves model w d \/ forall d' s', eligible allowed w d' s' -> ~ serves model w d')
      /\ (exists info, clients w !! d = Some info
            /\ outbox w' = outbox w ++ [(writer info, V1 (ChatInferenceTask t model msgs p))])
      /\ pending_streams w' = {[t]} ∪ pending_streams w
  | (Err e, w') => outbox w' = outbox w
      /\ ((exists d s, eligible allowed w d s) -> t ∉ pending_streams w')
  end.
Proof. exact (chat_dispatch iter w t model msgs p allowed). Qed.

(** A request that finds no device leaves its entry behind: all three dispatch
    functions register the task before they select a device, and the error path of the
    selection does not remove it. *)
Theorem failed_selection_leaks_entry (iter : list (bytes * ClientInfo)) (w : World)
    (t model : bytes) (msgs : list ChatMessage) (p : Sampling) (r : CompletionRequest)
    (allowed : option (list bytes)) :
  enumerates iter w -> (forall d s, ~ eligible allowed w d s) ->
  execute_chat_inference_stream wenv t model msgs p iter allowed w
    = (Err err_no_device, set_streams ({[t]} ∪ pending_streams w) w)
  /\ execute_inference_stream wenv t r iter allowed w
    = (Err err_no_device, set_streams ({[t]} ∪ pending_streams w) w)
  /\ inference_dispatch wenv t r iter allowed w
    = (Err err_no_device, set_tasks ({[t]} ∪ pending_tasks w) w).
Proof.
  intros He Hno.
  assert (forall w1, clients w1 = clients w ->
            select_best_device iter allowed w1 = Err err_no_device
            /\ choose model iter allowed w1 = Err err_no_device) as Hsel.
  { intros w1 Hw1.
    assert (forall d s, ~ eligible allowed w1 d s) as Hno1
      by (unfold eligible; rewrite Hw1; exact Hno).
    assert (enumerates iter w1) as He1 by (unfold enumerates; by rewrite Hw1).
    pose proof (choose_spec model iter allowed w1 He1) as Hc.
    pose proof (select_best_device_load iter allowed w1 He1) as Hb.
    split.
    - destruct (select_best_device _ _ _); [|by destruct Hb as [-> _]].
      destruct Hb as (s & Hs & _). by destruct (Hno1 _ _ Hs).
    - destruct (choose _ _ _ _); [|by destruct Hc as [-> _]].
      destruct Hc as (s & Hs & _). by destruct (Hno1 _ _ Hs). }
  unfold execute_chat_inference_stream, execute_inference_stream, inference_dispatch.
  split; [|split].
  - set (w1 := set_streams _ w).
    change (match select_best_device_for_model model iter allowed with
            | Ok d => Ok d | Err _ => select_best_device iter allowed w1 end)
      with (choose model iter allowed w1).
    by rewrite (proj2 (Hsel w1 eq_refl)).
  - by rewrite (proj1 (Hsel (set_streams _ w) eq_refl)).
  - by rewrite (proj1 (Hsel (set_tasks _ w) eq_refl)).
Qed.
End Dispatch.

(** ** Chunks *)
Section Chunks.
Context (now : Z).

(** The chunks of one task, in the order the device sent them. *)
Definition feed (t : bytes) (cs : list Chunk) (w : World) : World :=
  fold_left (fun w c => handle_inference_result_chunk t c now w) cs w.

Definition is_open (c : Chunk) : Prop := c_done c = false /\ c_error c = None.

Definition delta_event (t : bytes) (c : Chunk) : list (bytes * StreamEvent) :=
  if negb (bool_decide (c_delta c = [])) then [(t, Delta (c_delta c) (c_phase c))] else [].

Definition chunk_usage (c : Chunk) : CompletionUsage :=
  {| u_prompt_tokens := c_prompt c; u_completion_tokens := c_completion c;
     u_total_tokens := sat_add 32 (c_prompt c) (c_completion c);
     u_analysis_tokens := Some (c_analysis c); u_final_tokens := Some (c_final c) |}.

Definition set_events e w := mkWorld (pending_tasks w) (partial_results w)
  (pending_streams w) (stream_usages w) (clients w) (outbox w) (responses w) e.

Lemma feed_cons t c cs w :
  feed t (c :: cs) w = feed t cs (handle_inference_result_chunk t c now w).
Proof. done. Qed.

Lemma feed_app t cs1 cs2 w : feed t (cs1 ++ cs2) w = feed t cs2 (feed t cs1 w).
Proof. apply fold_left_app. Qed.

Lemma stream_open t cs w :
  t ∈ pending_streams w -> Forall is_open cs ->
  feed t cs w = set_events (events w ++ concat (delta_event t <$> cs)) w.
Proof.
  revert w. induction cs as [|c cs IH]; intros w Ht Hall.
  { cbn. rewrite app_nil_r. by destruct w. }
  apply Forall_cons in Hall as [[Hd He] Hall]. rewrite feed_cons.
  unfold handle_inference_result_chunk. rewrite bool_decide_true by done.
  unfold stream_chunk. rewrite He, Hd.
  rewrite IH; [|destruct (negb _); done|done].
  rewrite fmap_cons. cbn [concat]. unfold delta_event at 2.
  destruct (negb _); cbn; [by rewrite <- app_assoc|done].
Qed.

Lemma plain_open t cs w :
  t ∉ pending_streams w -> Forall is_open cs -> cs <> [] ->
  feed t cs w = set_partial
    (<[t := default [] (partial_results w !! t) ++ concat (c_delta <$> cs)]>
       (partial_results w)) w.
Proof.
  revert w. induction cs as [|c cs IH]; intros w Ht Hall Hne; [done|]. clear Hne.
  apply Forall_cons in Hall as [[Hd He] Hall]. rewrite feed_cons.
  unfold handle_inference_result_chunk. rewrite bool_decide_false by done.
  unfold plain_chunk. rewrite He, Hd.
  destruct cs as [|c2 cs]; [cbn; by rewrite app_nil_r|].
  rewrite IH by done. cbn. rewrite lookup_insert_eq. cbn. rewrite insert_insert_eq.
  by rewrite <- !app_assoc.
Qed.

Lemma stream_run (t : bytes) (cs : list Chunk) (last : Chunk) (w : World) :
  t ∈ pending_streams w -> stream_usages w !! t = None ->
  Forall is_open cs -> c_done last = true -> c_error last = None ->
  feed t (cs ++ [last]) w =
  set_streams (pending_streams w ∖ {[t]})
    (set_events (events w ++ concat (delta_event t <$> cs) ++ delta_event t last
                 ++ [(t, Finish (Some (chunk_usage last))); (t, EvDone)]) w).
Proof.
  intros Ht Hu Hall Hd He. rewrite feed_app, (stream_open t cs) by done. rewrite feed_cons. cbn [feed fold_left].
  unfold handle_inference_result_chunk. rewrite bool_decide_true by done.
  unfold stream_chunk, delta_event. rewrite He, Hd.
  set (u := mkUsage _ _ _ _ _). change (chunk_usage last) with u. clearbody u.
  destruct w as [pt pr ps su cl ob rs es]. cbn in Ht, Hu.
  destruct (negb (bool_decide (c_delta last = []))); cbn -[difference];
    rewrite lookup_insert_eq;
    unfold set_usages, set_streams, set_events, emit; cbn -[difference];
    rewrite delete_insert_eq, delete_id by exact Hu; rewrite <- !app_assoc; reflexivity.
Qed.

(** A streamed answer: for the chunks a device sends on a registered stream, up to
    and including the final one, the HTTP side receives the non-empty deltas in order
    with their phases, then one [Finish] with the final chunk's token counts, then one
    [Done]; the stream's entry and its usage are removed and nothing else changes. *)
Theorem stream_delivers_chunks (t : bytes) (cs : list Chunk) (last : Chunk) (w : World) :
  t ∈ pending_streams w -> stream_usages w !! t = None ->
  Forall is_open cs -> c_done last = true -> c_error last = None ->
  feed t (cs ++ [last]) w =
  set_streams (pending_streams w ∖ {[t]})
    (set_events (events w ++ concat (delta_event t <$> cs) ++ delta_event t last
                 ++ [(t, Finish (Some (chunk_usage last))); (t, EvDone)]) w).
Proof. exact (stream_run t cs last w). Qed.

(** A non-streamed answer: the chunks of a pending task accumulate, and the final
    one resolves the waiting call exactly once with their concatenation and the token
    counts; the task's entries are removed, and a chunk that repeats the end of the
    answer resolves nothing. *)
Theorem chunks_resolve_call_once (t : bytes) (cs : list Chunk) (last dup : Chunk) (w : World) :
  t ∉ pending_streams w -> t ∈ pending_tasks w -> partial_results w !! t = None ->
  Forall is_open cs -> c_done last = true -> c_error last = None ->
  let w' := feed t (cs ++ [last]) w in
  (exists r, responses w' = responses w ++ [(t, Ok r)]
     /\ text <$> r_choices r = [concat (c_delta <$> cs) ++ c_delta last]
     /\ r_id r = t /\ u_total_tokens (r_usage r) = sat_add 32 (c_prompt last) (c_completion last))
  /\ pending_tasks w' = pending_tasks w ∖ {[t]}
  /\ partial_results w' = partial_results w
  /\ events w' = events w
  /\ (c_done dup = true \/ c_error dup <> None ->
      feed t [dup] w' = w').
Proof.
  intros Hs Ht Hp Hall Hd He w'.
  assert (w' = respond t (Ok {| r_id := t; r_object := b!"text_completion"; r_created := now;
              r_model := b!"gpuf-android";
              r_choices := [mkChoice (concat (c_delta <$> cs) ++ c_delta last) 0 None b!"stop"];
              r_usage := {| u_prompt_tokens := c_prompt last;
                            u_completion_tokens := c_completion last;
                            u_total_tokens := sat_add 32 (c_prompt last) (c_completion last);
                            u_analysis_tokens := None; u_final_tokens := None |} |})
            (set_tasks (pending_tasks w ∖ {[t]}) w)) as Hw'.
  { unfold w'. rewrite feed_app.
    assert (exists P, feed t cs w = set_partial P w /\ delete t P = partial_results w
              /\ default [] (P !! t) = concat (c_delta <$> cs)) as (P & HP & HdP & HlP).
    { destruct (decide (cs = [])) as [->|Hne].
      - exists (partial_results w). cbn. rewrite Hp, delete_id by done. by destruct w.
      - rewrite plain_open by done. rewrite Hp. eexists. split; [done|].
        rewrite delete_insert_eq, delete_id by done. by rewrite lookup_insert_eq. }
    rewrite HP, feed_cons. cbn [feed fold_left]. unfold handle_inference_result_chunk.
    rewrite bool_decide_false by done. unfold plain_chunk. rewrite He, Hd. cbn.
    rewrite lookup_insert_eq. cbn. rewrite HlP.
    unfold handle_inference_result. rewrite bool_decide_true by done.
    unfold set_partial, set_tasks, respond. cbn. by rewrite delete_insert_eq, HdP. }
  rewrite Hw'. split; [eexists; split; [reflexivity|done]|].
  do 3 (split; [done|]). intros Hdup. rewrite feed_cons. cbn [feed fold_left].
  unfold handle_inference_result_chunk. rewrite bool_decide_false by done.
  unfold plain_chunk.
  assert (forall s r e a b P, delete t P = partial_results w ->
            handle_inference_result t s r e a b now (set_partial P w') = w') as Hnop.
  { intros s r e a b P HdP. unfold handle_inference_result. rewrite Hw'.
    rewrite bool_decide_false by (cbn; set_solver).
    unfold set_partial, respond, set_tasks. cbn. by rewrite HdP. }
  rewrite <- Hw'. destruct (c_error dup) as [err|].
  - assert (w' = set_partial (partial_results w) w') as Hself
      by (rewrite Hw' at 1; rewrite Hw'; done).
    rewrite Hself at 1. apply Hnop. by apply delete_id.
  - destruct Hdup as [->|]; [|done]. cbn.
    assert (partial_results w' = partial_results w) as -> by (by rewrite Hw').
    apply Hnop. by rewrite delete_insert_eq, !delete_id by (rewrite ?delete_id; done).
Qed.
End Chunks.

(** ** Every interleaving of scheduler operations *)
Section Interleavings.
Context `{C : Codec}.

(** A task id not used before (a version 4 UUID). *)
Definition fresh (t : bytes) (w : World) : Prop :=
  t ∉ pending_tasks w /\ t ∉ pending_streams w
  /\ (t ∉ (responses w).*1) /\ (t ∉ (events w).*1).

(** The methods of the scheduler, called by any number of HTTP handlers and device
    connections in any order, and changes of the client table by the latter. *)
Inductive step (w : World) : World -> Prop :=
  | st_stream wenv t r iter allowed : fresh t w ->
      step w (execute_inference_stream wenv t r iter allowed w).2
  | st_chat wenv t model msgs p iter allowed : fresh t w ->
      step w (execute_chat_inference_stream wenv t model msgs p iter allowed w).2
  | st_dispatch wenv t r iter allowed : fresh t w ->
      step w (inference_dispatch wenv t r iter allowed w).2
  | st_wait t env timed_out : step w (inference_wait t env timed_out w).2
  | st_cancel wenv t d : step w (cancel_inference wenv t d w).2
  | st_result t ok res err p c now :
      step w (handle_inference_result t ok res err p c now w)
  | st_chunk t c now : step w (handle_inference_result_chunk t c now w)
  | st_clients cs : step w (set_clients cs w).

Inductive reachable : World -> Prop :=
  | reach_new cs : reachable (scheduler_new cs)
  | reach_step w w' : reachable w -> step w w' -> reachable w'.

Definition done_is_last (es : list (bytes * StreamEvent)) : Prop :=
  forall t l1 l2, es = l1 ++ (t, EvDone) :: l2 -> t ∉ l2.*1.

Record inv (w : World) : Prop := {
  inv_once : NoDup (responses w).*1;
  inv_waiting t : t ∈ pending_tasks w -> t ∉ (responses w).*1;
  inv_usages : stream_usages w = ∅;
  inv_open t : t ∈ pending_streams w -> (t, EvDone) ∉ events w;
  inv_done : done_is_last (events w) }.

(** The invariant depends on five tables; the two sets of pending ids may shrink. *)
Lemma inv_frame w w' :
  inv w -> pending_tasks w' ⊆ pending_tasks w -> pending_streams w' ⊆ pending_streams w ->
  responses w' = responses w -> events w' = events w -> stream_usages w' = stream_usages w ->
  inv w'.
Proof.
  intros [H1 H2 H3 H4 H5] Ht Hs Hr He Hu.
  split; rewrite ?Hr, ?He, ?Hu; try done; set_solver.
Qed.

Lemma done_is_last_snoc es t e :
  done_is_last es -> (t, EvDone) ∉ es -> done_is_last (es ++ [(t, e)]).
Proof.
  intros Hd Hno t' l1 l2 Heq.
  destruct l2 as [|x l2 _] using rev_ind; [cbn; set_solver|].
  rewrite app_comm_cons, app_assoc in Heq. apply app_inj_tail in Heq as [-> <-].
  rewrite fmap_app. cbn. intros [Hin|Hin]%elem_of_app.
  - eapply Hd; [reflexivity|done].
  - apply list_elem_of_singleton in Hin as ->. set_solver.
Qed.

Lemma inv_emit w t e :
  inv w -> t ∈ pending_streams w -> e <> EvDone -> inv (emit t e w).
Proof.
  intros Hw Ht He. pose proof Hw as [H1 H2 H3 H4 H5]. split; cbn; try done.
  - intros t' Ht' [Hin|Hin]%elem_of_app; [by eapply H4|set_solver].
  - apply done_is_last_snoc; [done|by apply H4].
Qed.

Lemma inv_close w t :
  inv w -> t ∈ pending_streams w ->
  inv (set_usages (delete t (stream_usages w))
        (set_streams (pending_streams w ∖ {[t]}) (emit t EvDone w))).
Proof.
  intros Hw Ht. pose proof Hw as [H1 H2 H3 H4 H5]. split; cbn; try done.
  - by rewrite H3, delete_empty.
  - intros t' [Ht' Hne]%elem_of_difference [Hin|Hin]%elem_of_app; [by eapply H4|set_solver].
  - apply done_is_last_snoc; [done|by apply H4].
Qed.

Lemma inv_register_stream w t : inv w -> fresh t w ->
  inv (set_streams ({[t]} ∪ pending_streams w) w).
Proof.
  intros Hw (_ & _ & _ & Hf). pose proof Hw as [H1 H2 H3 H4 H5]. split; cbn; try done.
  intros t' [->%elem_of_singleton|Ht']%elem_of_union; [|by apply H4].
  intros Hin. apply Hf. apply list_elem_of_fmap. by exists (t, EvDone).
Qed.

Lemma inv_register_task w t : inv w -> fresh t w ->
  inv (set_tasks ({[t]} ∪ pending_tasks w) w).
Proof.
  intros Hw (_ & _ & Hf & _). pose proof Hw as [H1 H2 H3 H4 H5]. split; cbn; try done.
  intros t' [->%elem_of_singleton|Ht']%elem_of_union; [done|by apply H2].
Qed.

Lemma inv_send wenv d c w r w' :
  inv w -> send_task wenv d c w = (r, w') -> inv w' .
Proof.
  intros Hw Hs. destruct r.
  - apply send_task_Ok in Hs as (info & _ & _ & ->). by eapply inv_frame.
  - by apply send_task_Err in Hs as ->.
Qed.

Lemma inv_result t ok res err p c now w :
  inv w -> inv (handle_inference_result t ok res err p c now w).
Proof.
  intros Hw. unfold handle_inference_result. case_bool_decide as Ht; [|by eapply inv_frame].
  pose proof Hw as [H1 H2 H3 H4 H5]. split; cbn; try done.
  - rewrite fmap_app. apply NoDup_app. split; [done|]. split; [|apply NoDup_singleton].
    intros t' Hin ->%list_elem_of_singleton. by eapply H2.
  - intros t' [Ht' Hne]%elem_of_difference. rewrite fmap_app.
    intros [Hin|Hin]%elem_of_app; [by eapply H2|cbn in Hin; set_solver].
Qed.

Lemma inv_chunk t c now w : inv w -> inv (handle_inference_result_chunk t c now w).
Proof.
  intros Hw. unfold handle_inference_result_chunk. case_bool_decide as Ht.
  - unfold stream_chunk. destruct (c_error c) as [err|].
    { refine (inv_close (emit t (EvError err) w) t _ Ht). by apply inv_emit. }
    set (w1 := if negb _ then _ else w).
    assert (inv w1 /\ t ∈ pending_streams w1) as [Hw1 Ht1].
    { unfold w1. destruct (negb _); [|done]. split; [by apply inv_emit|done]. }
    destruct (c_done c); [|done]. cbn. rewrite lookup_insert_eq, delete_insert_eq.
    set (u := mkUsage _ _ _ _ _).
    refine (inv_close (emit t (Finish (Some u)) w1) t _ Ht1). by apply inv_emit.
  - unfold plain_chunk. destruct (c_error c); [by apply inv_result|].
    destruct (c_done c); [apply inv_result|]; by eapply inv_frame.
Qed.

Lemma inv_step w w' : inv w -> step w w' -> inv w'.
Proof.
  intros Hw Hst. destruct Hst.
  - unfold execute_inference_stream.
    pose proof (inv_register_stream w t Hw H) as Hw1.
    destruct (select_best_device _ _ _); [|done].
    destruct (send_task_to_device _ _ _ _ _ _) as [[] w2] eqn:Hs;
      pose proof (inv_send _ _ _ _ _ _ Hw1 Hs); [done|eapply inv_frame; cbn; eauto; set_solver].
  - unfold execute_chat_inference_stream.
    pose proof (inv_register_stream w t Hw H) as Hw1.
    destruct (match select_best_device_for_model _ _ _ with Ok _ => _ | Err _ => _ end); [|done].
    destruct (send_chat_task_to_device _ _ _ _ _ _ _) as [[] w2] eqn:Hs;
      pose proof (inv_send _ _ _ _ _ _ Hw1 Hs); [done|eapply inv_frame; cbn; eauto; set_solver].
  - unfold inference_dispatch.
    pose proof (inv_register_task w t Hw H) as Hw1.
    destruct (select_best_device _ _ _); [|done].
    destruct (send_task_to_device _ _ _ _ _ _) as [[] w2] eqn:Hs;
      pose proof (inv_send _ _ _ _ _ _ Hw1 Hs); [done|eapply inv_frame; cbn; eauto; set_solver].
  - unfold inference_wait. destruct timed_out; [|by destruct (response_for t w)].
    eapply inv_frame; cbn; eauto; set_solver.
  - unfold cancel_inference, send_on.
    assert (inv (set_streams (pending_streams w ∖ {[t]}) w)) as Hw1
      by (eapply inv_frame; cbn; eauto; set_solver).
    destruct (clients _ !! d) as [info|]; [|done]. destruct (authed info); [|done]. cbn.
    destruct (broken _); [done|]. destruct (write_command _); [|done].
    by eapply inv_frame.
  - by apply inv_result.
  - by apply inv_chunk.
  - by eapply inv_frame.
Qed.

Lemma reachable_inv w : reachable w -> inv w.
Proof.
  induction 1 as [cs|w w' _ IH Hst]; [|by eapply inv_step].
  split; cbn; try done; try apply NoDup_nil_2; try set_solver.
  intros t l1 l2 Heq. by destruct l1.
Qed.

End Interleavings.

(** ** Orders of events the scheduler does not handle *)
Section Races.
Context `{C : Codec} (wenv : Z -> WriterEnv).

Lemma inference_dispatch_pending t r iter allowed w d w1 :
  inference_dispatch wenv t r iter allowed w = (Ok d, w1) ->
  pending_tasks w1 = {[t]} ∪ pending_tasks w /\ responses w1 = responses w.
Proof.
  unfold inference_dispatch. intros H.
  destruct (select_best_device _ _ _); [|done].
  destruct (send_task_to_device _ _ _ _ _ _) as [[] w2] eqn:Hs; [|done].
  apply send_task_Ok in Hs as (info & _ & _ & ->). by simplify_eq.
Qed.

Lemma find_snoc_fresh (t : bytes) (x : result CompletionResponse) l :
  t ∉ l.*1 -> List.find (fun tr => bool_decide (tr.1 = t)) (l ++ [(t, x)]) = Some (t, x).
Proof.
  induction l as [|[t' y] l IH]; cbn; intros Hl; [by rewrite bool_decide_true|].
  rewrite bool_decide_false by set_solver. apply IH. set_solver.
Qed.

(** A device that answers before the caller has looked at its own entry again loses
    the call: the result is put in the answer channel, but [execute_inference] then
    finds the task gone from [pending_tasks] and returns an error instead of waiting
    on that channel. *)
Theorem early_answer_fails_call (t : bytes) (r : CompletionRequest)
    (iter : list (bytes * ClientInfo)) (allowed : option (list bytes)) (w w1 : World)
    (d out : bytes) (p c now : Z) :
  inference_dispatch wenv t r iter allowed w = (Ok d, w1) -> t ∉ (responses w).*1 ->
  let w2 := handle_inference_result t true (Some out) None p c now w1 in
  (exists resp, response_for t w2 = Some (Ok resp) /\ text <$> r_choices resp = [out])
  /\ inference_check t w2
     = Err (b!"Task " ++ t ++ b!" was removed from pending_tasks unexpectedly").
Proof.
  intros (Ht & Hr)%inference_dispatch_pending Hfresh. cbn zeta.
  unfold handle_inference_result. rewrite bool_decide_true by (rewrite Ht; set_solver).
  unfold inference_check, response_for. cbn.
  rewrite bool_decide_false by set_solver. split; [|done].
  rewrite Hr.
  rewrite find_snoc_fresh by done. eexists. split; [reflexivity|done].
Qed.

(** Chunks that arrive after a stream was cancelled are taken for the chunks of a
    non-streamed call nobody made: they accumulate in [partial_results] until the device
    sends a final or failed chunk, and stay there if it never does. *)
Theorem late_chunks_accumulate (t d : bytes) (cs : list Chunk) (now : Z) (w : World) :
  partial_results w !! t = None -> Forall is_open cs -> cs <> [] ->
  partial_results (feed now t cs (cancel_inference wenv t d w).2) !! t
    = Some (concat (c_delta <$> cs)).
Proof.
  intros Hp Hall Hne.
  assert (t ∉ pending_streams (cancel_inference wenv t d w).2
          /\ partial_results (cancel_inference wenv t d w).2 = partial_results w) as [H1 H2].
  { unfold cancel_inference, send_on. cbn.
    destruct (clients w !! d) as [info|]; cbn; [|set_solver].
    destruct (authed info); cbn; [|set_solver].
    destruct (broken _); cbn; [set_solver|].
    destruct (write_command _); cbn; set_solver. }
  rewrite plain_open by done. cbn. by rewrite lookup_insert_eq, H2, Hp.
Qed.
End Races.

(** ** Witnesses *)
Definition idle_writers (_ : Z) : WriterEnv := {| busy := false; broken := false |}.
Definition demo_sampling : Sampling := {| max_tokens := 16; temperature := 0; top_k := 1;
  top_p := 0; repeat_penalty := 0; repeat_last_n := 0; min_keep := 1 |}.
Definition demo_request : CompletionRequest := {| cr_prompt := b!"hi"; cr_max_tokens := None;
  cr_temperature := None; cr_top_k := None; cr_top_p := None; cr_repeat_penalty := None;
  cr_repeat_last_n := None; cr_min_keep := None; cr_model := None; cr_stream := None |}.
Definition two_devices : World := demo_world (demo_info 50 20 1) (demo_info 10 30 2).
Definition open_chunk (d : bytes) : Chunk := mkChunk d Final false None 0 0 0 0.
Definition last_chunk (d : bytes) : Chunk := mkChunk d Final true None 3 4 1 2.

(** A codec for the witnesses: every command fits in one byte. *)
Definition one_byte_codec : Codec := {|
  encode_to_vec := fun _ => Some [Byte.x00]; decode_from_slice := fun _ => None |}.

Lemma chat_dispatch_spec_witness :
  match execute_chat_inference_stream (C := one_byte_codec) idle_writers b!"t" b!"m" []
    demo_sampling (map_to_list (clients two_devices)) None two_devices with
  | (Ok (t, d), w') => t = b!"t" /\ d = b!"bbbb" /\ blen (outbox w') = 1
  | _ => False
  end.
Proof.
  pose proof (chat_dispatch_spec (C := one_byte_codec) idle_writers
    (map_to_list (clients two_devices)) two_devices b!"t" b!"m" [] demo_sampling None
    (enumerates_refl two_devices)) as H.
  assert ((execute_chat_inference_stream (C := one_byte_codec) idle_writers b!"t" b!"m" []
    demo_sampling (map_to_list (clients two_devices)) None two_devices).1
    = Ok (b!"t", b!"bbbb")) as E by (vm_compute; reflexivity).
  destruct (execute_chat_inference_stream _ _ _ _ _ _ _ _) as [[[t d]|e] w']; [|discriminate].
  injection E as -> ->. destruct H as (_ & _ & _ & (info & _ & Ho) & _).
  rewrite Ho. split; [reflexivity|split; reflexivity].
Defined.

Lemma failed_selection_leaks_entry_witness :
  b!"t" ∈ pending_streams (execute_chat_inference_stream (C := one_byte_codec) idle_writers
    b!"t" b!"m" [] demo_sampling (map_to_list (clients (scheduler_new ∅))) None (scheduler_new ∅)).2.
Proof.
  rewrite (proj1 (failed_selection_leaks_entry (C := one_byte_codec) idle_writers
    (map_to_list (clients (scheduler_new ∅))) (scheduler_new ∅) b!"t" b!"m" [] demo_sampling demo_request None
    (enumerates_refl (scheduler_new ∅))
    ltac:(intros d s (_ & info & Hc & _); discriminate))).
  cbn. set_solver.
Defined.

Lemma stream_delivers_chunks_witness :
  events (feed 0 b!"t" ([open_chunk b!"a"; open_chunk []] ++ [last_chunk b!"b"])
    (set_streams {[b!"t"]} two_devices))
  = [(b!"t", Delta b!"a" Final); (b!"t", Delta b!"b" Final);
     (b!"t", Finish (Some (mkUsage 3 4 7 (Some 1) (Some 2)))); (b!"t", EvDone)].
Proof.
  rewrite stream_delivers_chunks; [reflexivity|set_solver|reflexivity| |reflexivity..].
  repeat constructor.
Defined.

Lemma chunks_resolve_call_once_witness :
  (responses (feed 0 b!"t" ([open_chunk b!"a"] ++ [last_chunk b!"b"])
    (set_tasks {[b!"t"]} two_devices))).*1 = [b!"t"].
Proof.
  destruct (proj1 (chunks_resolve_call_once 0 b!"t" [open_chunk b!"a"] (last_chunk b!"b")
    (last_chunk b!"b") (set_tasks {[b!"t"]} two_devices) ltac:(set_solver) ltac:(set_solver)
    eq_refl ltac:(repeat constructor) eq_refl eq_refl)) as (r & -> & _).
  reflexivity.
Defined.


Lemma early_answer_fails_call_witness :
  is_ok (inference_check b!"t" (handle_inference_result b!"t" true (Some b!"x") None 1 1 0
    (inference_dispatch (C := one_byte_codec) idle_writers b!"t" demo_request
      (map_to_list (clients two_devices)) None two_devices).2)) = false.
Proof.
  assert (inference_dispatch (C := one_byte_codec) idle_writers b!"t" demo_request
      (map_to_list (clients two_devices)) None two_devices
    = (Ok b!"bbbb", (inference_dispatch (C := one_byte_codec) idle_writers b!"t" demo_request
      (map_to_list (clients two_devices)) None two_devices).2)) as Hd
    by (vm_compute; reflexivity).
  assert (b!"t" ∉ (responses two_devices).*1) as Hf by (apply not_elem_of_nil).
  rewrite (proj2 (early_answer_fails_call (C := one_byte_codec) idle_writers b!"t" demo_request
    _ _ _ _ _ b!"x" 1 1 0 Hd Hf)).
  reflexivity.
Defined.

Lemma late_chunks_accumulate_witness :
  partial_results (feed 0 b!"t" [open_chunk b!"a"; open_chunk b!"b"]
    (cancel_inference (C := one_byte_codec) idle_writers b!"t" b!"bbbb"
      (set_streams {[b!"t"]} two_devices)).2) !! b!"t" = Some b!"ab".
Proof.
  exact (late_chunks_accumulate (C := one_byte_codec) idle_writers b!"t" b!"bbbb"
    [open_chunk b!"a"; open_chunk b!"b"] 0 (set_streams {[b!"t"]} two_devices)
    eq_refl ltac:(repeat constructor) ltac:(discriminate)).
Defined.
