(* ===== verification/Catalog.v ===== *)
(** * Model catalogue and client validation ([gpuf-s/src/db/models.rs], [client.rs])

    The database and cache operations a device session relies on: the ordered query of
    compatible models, the recommendation of a model per device, and the validity check of
    a client id with its 300 second cache. Tables are lists or maps of rows; an operation
    on a database that cannot be reached fails as the query would. *)

From S2P Require Import Prelude Wire Ids.
From Stdlib Require Import ZArith Lia String.
From Stdlib Require Import Strings.Byte.
From stdpp Require Import base list gmap sorting.

Local Open Scope Z_scope.

(** ** The model catalogue *)

(** A row of [client_models], with the [engine_type] column the query filters on. *)
Record Models := mkModels {
  mo_id : Z; mo_name : bytes; mo_version : bytes; mo_version_code : Z; mo_is_active : bool;
  mo_min_memory_mb : option Z; mo_min_gpu_memory_gb : option Z; mo_created_at : Z;
  mo_download_url : option bytes; mo_checksum : option bytes; mo_expected_size : option Z;
  mo_engine_type : Z }.

Record ModelInfo := mkModelInfo {
  mi_name : bytes; mi_download_url : option bytes; mi_checksum : option bytes;
  mi_expected_size : option Z }.
Definition ModelInfo_default : ModelInfo := mkModelInfo [] None None None.

Definition opt_all {A} (o : option A) (p : A -> bool) : bool :=
  match o with Some a => p a | None => true end.

Definition model_matches (is_active : option bool) (engine_type min_gpu_memory_gb : option Z)
    (r : Models) : bool :=
  opt_all is_active (fun a => Bool.eqb (mo_is_active r) a)
  && opt_all min_gpu_memory_gb (fun mem =>
       match mo_min_gpu_memory_gb r with None => true | Some g => g <=? mem end)
  && opt_all engine_type (fun e => mo_engine_type r =? e).

Definition gpu_rank (r : Models) : Z := default 0 (mo_min_gpu_memory_gb r).

(** [ORDER BY gpu_rank DESC, version_code DESC, created_at DESC]. *)
Definition model_before (a b : Models) : Prop :=
  gpu_rank b < gpu_rank a
  \/ (gpu_rank a = gpu_rank b /\ (mo_version_code b < mo_version_code a
      \/ (mo_version_code a = mo_version_code b /\ mo_created_at b <= mo_created_at a))).

#[global] Instance model_before_dec a b : Decision (model_before a b).
Proof. unfold model_before. solve_decision. Defined.

(** [table] is [None] when the query fails. *)
Definition get_models_list (table : option (list Models)) (is_active : option bool)
    (engine_type min_gpu_memory_gb : option Z) : result (list Models) :=
  match table with
  | None => Err b!"database error"
  | Some rows =>
      Ok (merge_sort model_before
            (filter (fun r => model_matches is_active engine_type min_gpu_memory_gb r = true) rows))
  end.

(** [u32 as i32]. *)
Definition as_i32 (n : Z) : Z := if n <? 2 ^ 31 then n else n - 2 ^ 32.
(** [i64 as u64]. *)
Definition as_u64 (n : Z) : Z := wrap 64 n.

Definition get_hot_model_with_details (table : option (list Models))
    (mem_total_gb engine_type : Z) : result ModelInfo :=
  match get_models_list table (Some true) (Some engine_type) (Some (as_i32 mem_total_gb)) with
  | Err _ => Err b!"Failed to get client model"
  | Ok [] => Ok ModelInfo_default
  | Ok (m :: _) => Ok (mkModelInfo (mo_name m) (mo_download_url m) (mo_checksum m)
                                   (mo_expected_size m))
  end.

Definition no_model (pod : Z) : PodModel := mkPodModel pod None None None None.

Definition batch_entry (table : option (list Models)) (d : DevicesInfo) : PodModel :=
  if bool_decide (engine_type d = EngineNone) || bool_decide (os_type d = OsNONE)
     || (memtotal_gb d =? 0)
  then no_model (pod_id d)
  else match get_hot_model_with_details table (memtotal_gb d) (EngineType_to_i16 (engine_type d)) with
       | Ok mi => if bool_decide (mi_name mi = []) then no_model (pod_id d)
                  else mkPodModel (pod_id d) (Some (mi_name mi)) (mi_download_url mi)
                         (mi_checksum mi) (as_u64 <$> mi_expected_size mi)
       | Err _ => no_model (pod_id d)
       end.

Definition get_models_batch (table : option (list Models)) (devices_info : list DevicesInfo)
    : result (list PodModel) :=
  Ok (batch_entry table <$> devices_info).

(** ** Client validation *)

(** A row of [gpu_assets] as validation and status updates use it. *)
Record Asset := mkAsset {
  as_valid : bool; as_status : bytes; as_os_type : option bytes; as_updated_at : Z }.

(** Database and cache, with the expiry time of every cached value. *)
Record Store := mkStore {
  gpu_assets : gmap bytes Asset;
  client_models : list Models;
  client_status : gmap bytes (bytes * Z) }.

Definition set_assets a s := mkStore a (client_models s) (client_status s).
Definition set_cache c s := mkStore (gpu_assets s) (client_models s) c.

(** What answers in a call: the cache connection, the database, the two cache commands. *)
Record StoreEnv := mkStoreEnv {
  redis_up : bool; redis_get_ok : bool; redis_set_ok : bool; db_up : bool }.

Definition update_client_db (env : StoreEnv) (id : ClientId) (os : bytes) (s : Store) : Store :=
  match gpu_assets s !! id with
  | Some a =>
      if db_up env && as_valid a
      then set_assets (<[id := mkAsset (as_valid a) (as_status a) (Some os) (as_updated_at a)]>
                         (gpu_assets s)) s
      else s
  | None => s
  end.

Definition redis_get (env : StoreEnv) (now : Z) (key : bytes) (s : Store) : option bytes :=
  if redis_get_ok env then
    match client_status s !! key with
    | Some (v, expiry) => if now <? expiry then Some v else None
    | None => None
    end
  else None.

Definition err_db : bytes := b!"Database query failed".

(** [None]: the process panics on [expect], without a cache connection. The cache key is
    the client id itself, printed. *)
Definition validate_client (env : StoreEnv) (now : Z) (os : bytes) (id : ClientId) (s : Store)
    : option (result bool * Store) :=
  if negb (redis_up env) then None
  else match redis_get env now id s with
  | Some cached => Some (Ok (negb (bool_decide (cached = b!"invalid"))), s)
  | None =>
      let s := update_client_db env id os s in
      if negb (db_up env) then Some (Err err_db, s)
      else
        let is_valid := match gpu_assets s !! id with Some a => as_valid a | None => false end in
        let valid := if is_valid then b!"valid" else b!"invalid" in
        let s := if redis_set_ok env
                 then set_cache (<[id := (valid, now + 300)]> (client_status s)) s else s in
        Some (Ok is_valid, s)
  end.

Definition upsert_client_status (env : StoreEnv) (now : Z) (id : ClientId) (status : bytes)
    (s : Store) : result () * Store :=
  if negb (db_up env) then (Err b!"database error", s)
  else (Ok (), match gpu_assets s !! id with
               | Some a => set_assets (<[id := mkAsset (as_valid a) status (as_os_type a) now]>
                                         (gpu_assets s)) s
               | None => s
               end).

(** ** Facts *)
Module CatalogFacts.

#[global] Instance model_before_trans : Transitive model_before.
Proof. intros a b c. unfold model_before. lia. Qed.

#[global] Instance model_before_total : Total model_before.
Proof. intros a b. unfold model_before. lia. Qed.

(** The first row of the query, when there is one, is a matching row before all others. *)
Lemma get_models_list_head rows act e mem m ms :
  get_models_list (Some rows) act e mem = Ok (m :: ms) ->
  m ∈ rows /\ model_matches act e mem m = true
  /\ forall m', m' ∈ rows -> model_matches act e mem m' = true -> m' = m \/ model_before m m'.
Proof.
  unfold get_models_list. set (l := filter _ rows). intros [= Hs].
  assert (merge_sort model_before l ≡ₚ l) as Hp by apply merge_sort_Permutation.
  assert (StronglySorted model_before (merge_sort model_before l)) as Hsort.
  { apply StronglySorted_merge_sort; apply _. }
  rewrite Hs in Hp, Hsort. apply StronglySorted_inv in Hsort as [_ Hall].
  assert (m ∈ l) as Hm by (rewrite <- Hp; set_solver).
  apply list_elem_of_filter in Hm as [Hmm Hmr]. split; [done|]. split; [done|].
  intros m' Hr Hmt.
  assert (m' ∈ m :: ms) as [->|Hin]%elem_of_cons; [|by left|].
  { rewrite Hp. apply list_elem_of_filter. done. }
  right. by apply (proj1 (Forall_forall _ _) Hall m').
Qed.

Lemma get_models_list_nil rows act e mem :
  get_models_list (Some rows) act e mem = Ok [] ->
  forall m, m ∈ rows -> model_matches act e mem m = false.
Proof.
  unfold get_models_list. set (l := filter _ rows). intros [= Hs] m Hm.
  assert (merge_sort model_before l ≡ₚ l) as Hp by apply merge_sort_Permutation.
  rewrite Hs in Hp. apply Permutation_nil_l in Hp.
  destruct (model_matches act e mem m) eqn:Hb; [|done].
  assert (m ∈ l) as Hin by (apply list_elem_of_filter; done).
  rewrite <- Hp in Hin. by apply elem_of_nil in Hin.
Qed.

Definition runnable (d : DevicesInfo) (m : Models) : Prop :=
  mo_is_active m = true /\ mo_engine_type m = EngineType_to_i16 (engine_type d)
  /\ match mo_min_gpu_memory_gb m with None => True | Some g => g <= memtotal_gb d end.

Lemma model_matches_runnable d m :
  0 <= memtotal_gb d < 2 ^ 31 ->
  model_matches (Some true) (Some (EngineType_to_i16 (engine_type d)))
    (Some (as_i32 (memtotal_gb d))) m = true <-> runnable d m.
Proof.
  intros Hr. unfold model_matches, runnable, opt_all, as_i32.
  rewrite (proj2 (Z.ltb_lt _ _)) by lia.
  rewrite !andb_true_iff, eqb_true_iff, Z.eqb_eq.
  destruct (mo_min_gpu_memory_gb m); [rewrite Z.leb_le|]; tauto.
Qed.

(** Model recommendation: a device session is offered one entry per device, in order
    and under the device's pod id; a device is offered a model only if it is active, runs
    on the device's engine and fits its memory, and then one with the largest memory
    requirement, the newest version code breaking ties; a device of known engine, system
    and memory is offered none only when no named model can run on it. *)
Theorem recommended_model_fits (rows : list Models) (ds : list DevicesInfo) (i : nat)
    (d : DevicesInfo) (pods : list PodModel) :
  get_models_batch (Some rows) ds = Ok pods ->
  ds !! i = Some d -> 0 <= memtotal_gb d < 2 ^ 31 ->
  (forall m, m ∈ rows -> mo_name m <> []) ->
  length pods = length ds /\
  exists p, pods !! i = Some p /\ pm_pod_id p = pod_id d
    /\ match pm_model_name p with
       | Some name => exists m, m ∈ rows /\ runnable d m /\ mo_name m = name
           /\ pm_checksum p = mo_checksum m
           /\ forall m', m' ∈ rows -> runnable d m' ->
                gpu_rank m' < gpu_rank m
                \/ (gpu_rank m' = gpu_rank m /\ mo_version_code m' <= mo_version_code m)
       | None => engine_type d <> EngineNone -> os_type d <> OsNONE -> memtotal_gb d <> 0 ->
                 forall m, m ∈ rows -> ~ runnable d m
       end.
Proof.
  intros [= <-] Hd Hr Hnamed. rewrite length_fmap. split; [done|].
  exists (batch_entry (Some rows) d). rewrite list_lookup_fmap, Hd. split; [done|].
  unfold batch_entry.
  destruct (_ || _ || _) eqn:Hb.
  { cbn. split; [done|]. intros H1 H2 H3. rewrite !bool_decide_false in Hb by done.
    cbn in Hb. by apply Z.eqb_eq in Hb. }
  unfold get_hot_model_with_details.
  destruct (get_models_list _ _ _ _) as [[|m ms]|e] eqn:Hl; [| |done].
  - cbn. split; [done|]. intros _ _ _ m Hm Hrun.
    apply (model_matches_runnable d m Hr) in Hrun.
    by rewrite (get_models_list_nil _ _ _ _ Hl m Hm) in Hrun.
  - apply get_models_list_head in Hl as (Hin & Hm & Hbest).
    apply model_matches_runnable in Hm; [|done]. cbn.
    rewrite bool_decide_false by by apply Hnamed. cbn. split; [done|].
    exists m. do 4 (split; [done|]). intros m' Hin' Hrun'.
    apply (model_matches_runnable d m' Hr) in Hrun'.
    destruct (Hbest m' Hin' Hrun') as [->|Hbef]; unfold model_before in *; lia.
Qed.

Definition demo_row (n : bytes) (v : Z) (g : option Z) : Models :=
  mkModels 1 n b!"1" v true None g 0 None None None 6.
Definition demo_device : DevicesInfo :=
  {| num := 1; pod_id := 7; total_tflops := 0; memtotal_gb := 16; port := 0; ip := 0;
     os_type := ANDROID; engine_type := Llama; usage := 0; mem_usage := 0; power_usage := 0;
     temp := 0; vendor_id := 0; device_id := 0; memsize_gb := 0; powerlimit_w := 0 |}.

Lemma recommended_model_fits_witness :
  get_models_batch (Some [demo_row b!"s" 1 None; demo_row b!"l" 1 (Some 8); demo_row b!"x" 1 (Some 24)])
    [demo_device] = Ok [mkPodModel 7 (Some b!"l") None None None]
  /\ exists m, m ∈ [demo_row b!"s" 1 None; demo_row b!"l" 1 (Some 8); demo_row b!"x" 1 (Some 24)]
       /\ runnable demo_device m.
Proof.
  assert (get_models_batch (Some [demo_row b!"s" 1 None; demo_row b!"l" 1 (Some 8);
      demo_row b!"x" 1 (Some 24)]) [demo_device]
    = Ok [mkPodModel 7 (Some b!"l") None None None]) as E by (vm_compute; reflexivity).
  split; [exact E|].
  destruct (recommended_model_fits _ _ 0 demo_device _ E eq_refl ltac:(cbn; lia)
    ltac:(intros m Hm; repeat (apply elem_of_cons in Hm as [->|Hm]; [discriminate|]);
          by apply elem_of_nil in Hm)) as [_ (p & [= <-] & _ & m & Hin & Hrun & _)].
  by exists m.
Defined.

(** Validation and its cache: after a check that reached the database, the answer
    for that client is the same for 300 seconds whatever happens to the database row (a
    revoked device keeps working, a repaired one stays locked out), and from then on it
    is the row's again. *)
Theorem validation_cached_300s (env : StoreEnv) (now later : Z) (os : bytes) (id : ClientId)
    (s : Store) (assets : gmap bytes Asset) :
  redis_up env = true -> redis_get_ok env = true -> redis_set_ok env = true ->
  db_up env = true -> redis_get env now id s = None -> now <= later ->
  let valid a := match a !! id with Some r => as_valid r | None => false end in
  exists s1, validate_client env now os id s = Some (Ok (valid (gpu_assets s)), s1)
  /\ exists s2, validate_client env later os id (set_assets assets s1)
     = Some (Ok (if later <? now + 300 then valid (gpu_assets s) else valid assets), s2).
Proof.
  intros Hup Hg Hs Hdb Hmiss Hle valid.
  assert (forall st, match gpu_assets (update_client_db env id os st) !! id with
                     | Some a => as_valid a | None => false end = valid (gpu_assets st)) as Hupd.
  { intros st. unfold update_client_db, valid.
    destruct (gpu_assets st !! id) as [a|] eqn:Ha; [|by rewrite Ha].
    destruct (db_up env && as_valid a); [|by rewrite Ha].
    cbn. by rewrite lookup_insert_eq. }
  unfold validate_client at 1. rewrite Hup, Hmiss, Hdb, Hs. cbn.
  rewrite Hupd. eexists. split; [reflexivity|].
  set (s1 := set_cache _ _). unfold validate_client. rewrite Hup. cbn.
  assert (redis_get env later id (set_assets assets s1)
          = if later <? now + 300
            then Some (if valid (gpu_assets s) then b!"valid" else b!"invalid") else None) as ->.
  { unfold redis_get. rewrite Hg. unfold s1. cbn. by rewrite lookup_insert_eq. }
  destruct (later <? now + 300).
  - eexists. by destruct (valid (gpu_assets s)).
  - rewrite Hdb. cbn. rewrite Hupd. eauto.
Qed.

Definition all_up : StoreEnv := mkStoreEnv true true true true.
Definition demo_store : Store :=
  mkStore {[b!"id" := mkAsset true b!"offline" None 0]} [] ∅.

Lemma validation_cached_300s_witness :
  exists s1 s2, validate_client all_up 1000 b!"linux" b!"id" demo_store = Some (Ok true, s1)
    /\ validate_client all_up 1299 b!"linux" b!"id" (set_assets ∅ s1) = Some (Ok true, s2).
Proof.
  destruct (validation_cached_300s all_up 1000 1299 b!"linux" b!"id" demo_store ∅
    eq_refl eq_refl eq_refl eq_refl eq_refl ltac:(lia)) as (s1 & H1 & s2 & H2).
  exists s1, s2. split; [exact H1|exact H2].
Defined.
End CatalogFacts.
