(* ===== verification/Session.v ===== *)
(** * Device control sessions ([gpuf-s/src/handle/handle_connections.rs])

    One control connection of a device: the command loop of [handle_single_client] and the
    handlers it calls. The client table and the inference tables are those of [Scheduler],
    the database and validity cache those of [Catalog]; Redis keys written only here and
    the Kafka topic are tables and logs of this file. *)

From S2P Require Import Prelude Wire Ids Catalog Scheduler.
From Stdlib Require Import ZArith Lia String.
From Stdlib Require Import Strings.Byte.
From stdpp Require Import base list gmap.

Local Open Scope Z_scope.
Import Framing.

(** ** State *)

Record HeartbeatMessage := mkHeartbeat {
  hb_client_id : ClientId; hb_system_info : SystemInfo; hb_device_memtotal_gb : Z;
  hb_device_count : Z; hb_total_tflops : Z; hb_devices_info : list DevicesInfo }.

(** The server as its connections share it. Redis values carry their expiry time. *)
Record Server := mkServer {
  world : World; store : Store;
  redis_models : gmap bytes (list Model * Z);
  redis_download : gmap bytes (list (bytes * bytes) * Z);
  heartbeats : list HeartbeatMessage }.

Definition set_world w s := mkServer w (store s) (redis_models s) (redis_download s) (heartbeats s).
Definition set_store t s := mkServer (world s) t (redis_models s) (redis_download s) (heartbeats s).
Definition set_redis_models m s := mkServer (world s) (store s) m (redis_download s) (heartbeats s).
Definition set_redis_download m s := mkServer (world s) (store s) (redis_models s) m (heartbeats s).
Definition set_heartbeats h s := mkServer (world s) (store s) (redis_models s) (redis_download s) h.

(** The two mutable locals of [handle_single_client]. *)
Record Session := mkSession { s_authed : bool; session_client_id : ClientId }.
Definition session_start : Session := mkSession false (replicate 16 Byte.x00).

(** The loop goes on, returns (removing nothing further), or the process panics. *)
Inductive Outcome := Go (s : Session) | Return (r : result ()) | Panicked.

(** Environment variables of the TURN configuration, parsed as the code parses them. *)
Record TurnEnv := mkTurnEnv {
  TURN_HOST : option bytes; TURN_TURN_UDP_PORT : option Z; TURN_STUN_PORT : option Z;
  TURN_TTL_SECONDS : option Z; TURN_REST_SECRET : option bytes }.

(** What the surroundings answer while one command is handled. *)
Record Env := mkEnv {
  e_now : Z; e_store : StoreEnv; e_redis : bool; e_kafka : bool; e_turn : TurnEnv;
  e_random : bytes; e_writers : Z -> WriterEnv }.

Definition DownloadStatus_fmt (s : DownloadStatus) : bytes :=
  match s with
  | Pending => b!"Pending" | Downloading => b!"Downloading"
  | Completed => b!"Completed" | Failed => b!"Failed"
  end.

Section Session.
(** [hmac_sha1], base64 and the rendering of a float with two decimals. *)
Context `{C : Codec} `{H : Hex} (hmac_sha1 : bytes -> bytes -> bytes)
  (base64_encode : bytes -> bytes) (fmt_2 : f32 -> bytes).

(** ** Handlers *)

Definition err_registered : bytes := b!"Client ID already registered".

Inductive LoginOutcome := LoginPanic | LoginRet (r : result CommandV1) (authed : bool).

Definition handle_login (env : Env) (wr version : Z) (auto_models : bool) (client_id : ClientId)
    (os : OsType) (devices_info : list DevicesInfo) (sys : ServerSystemInfo)
    (authed : bool) (s : Server) : LoginOutcome * Server :=
  if bool_decide (is_Some (clients (world s) !! client_id))
  then (LoginRet (Err err_registered) authed, s)
  else match os_type_str os with
  | None => (LoginPanic, s)
  | Some os_str =>
      match validate_client (e_store env) (e_now env) os_str client_id (store s) with
      | None => (LoginPanic, s)
      | Some (Err e, st) => (LoginRet (Err e) authed, set_store st s)
      | Some (Ok is_valid, st) =>
          let s := set_store st s in
          let authed := is_valid || authed in
          let table := if db_up (e_store env) then Some (client_models st) else None in
          match (if is_valid then
                   let? pods_model := if auto_models then get_models_batch table devices_info
                                      else Ok [] in
                   Ok (LoginResult true pods_model None)
                 else Ok (LoginResult false [] (Some b!"Invalid client ID"))) with
          | Err e => (LoginRet (Err e) authed, s)
          | Ok validate_result =>
              let info :=
                {| writer := wr; Scheduler.authed := authed; ci_version := version;
                   ci_system_info := Some (mkServerSystemInfo (s_cpu_usage sys)
                     (s_memory_usage sys) (s_disk_usage sys) (s_device_memsize sys)
                     (s_total_tflops sys) (e_now env) (s_memsize_gb sys));
                   ci_devices_info := devices_info; connected_at := e_now env;
                   ci_models := None |} in
              (LoginRet (Ok validate_result) authed,
               set_world (set_clients (<[client_id := info]> (clients (world s))) (world s)) s)
          end
      end
  end.

Definition status_entry (table : option (list Models)) (d : DevicesInfo) : PodModel :=
  match get_hot_model_with_details table (memtotal_gb d) (EngineType_to_i16 (engine_type d)) with
  | Ok mi => mkPodModel (pod_id d) (if bool_decide (mi_name mi = []) then None
                                    else Some (mi_name mi))
               (mi_download_url mi) (mi_checksum mi) (as_u64 <$> mi_expected_size mi)
  | Err _ => no_model (pod_id d)
  end.

Definition handle_models_status (env : Env) (client_id : ClientId)
    (auto_models_device : list DevicesInfo) (models : list Model) (s : Server)
    : result (list PodModel) * Server :=
  let w := world s in
  let s := match clients w !! client_id with
           | Some c =>
               let c := mkClientInfo (writer c) (authed c) (ci_version c) (ci_system_info c)
                          (ci_devices_info c) (connected_at c) (Some models) in
               set_world (set_clients (<[client_id := c]> (clients w)) w) s
           | None => s
           end in
  let table := if db_up (e_store env) then Some (client_models (store s)) else None in
  (Ok (status_entry table <$> auto_models_device), s).

Definition upsert_client_models_in_redis (env : Env) (client_id : ClientId)
    (models : list Model) (s : Server) : Server :=
  if e_redis env
  then set_redis_models (<[client_id := (models, e_now env + 300)]> (redis_models s)) s
  else s.

Definition handle_heartbeat (env : Env) (m : HeartbeatMessage) (s : Server) : Server :=
  if e_kafka env then set_heartbeats (heartbeats s ++ [m]) s else s.

(** [HSET] overwrites the named fields of the hash and keeps the others. *)
Definition hset_multiple (new old : list (bytes * bytes)) : list (bytes * bytes) :=
  new ++ filter (fun f => f.1 ∉ new.*1) old.

Definition update_model_download_progress_in_redis (env : Env) (client_id : ClientId)
    (model_name : bytes) (downloaded_bytes total_bytes : Z) (percentage : f32)
    (speed_bps : Z) (status : DownloadStatus) (error : option bytes) (s : Server) : Server :=
  if negb (e_redis env) then s
  else if bool_decide (status = Completed) || bool_decide (status = Failed)
  then set_redis_download (delete client_id (redis_download s)) s
  else
    let fields :=
      [ (b!"model_name", model_name); (b!"downloaded_bytes", dec downloaded_bytes);
        (b!"total_bytes", dec total_bytes); (b!"percentage", fmt_2 percentage);
        (b!"speed_bps", dec speed_bps); (b!"status", DownloadStatus_fmt status);
        (b!"timestamp", dec (e_now env)) ]
      ++ match error with Some e => [(b!"error", e)] | None => [] end in
    let old := match redis_download s !! client_id with
               | Some (fs, expiry) => if e_now env <? expiry then fs else []
               | None => []
               end in
    set_redis_download
      (<[client_id := (hset_multiple fields old, e_now env + 60)]> (redis_download s)) s.

(** ** Peer-to-peer signalling *)

Definition write_to (env : Env) (wr : Z) (c : Command) (s : Server) : result () * Server :=
  match send_on (e_writers env) wr c (world s) with
  | (r, w) => (r, set_world w s)
  end.

Definition writer_of (id : ClientId) (s : Server) : option Z :=
  writer <$> clients (world s) !! id.

Definition turn_username (t : TurnEnv) (now : Z) (source : bytes) : bytes :=
  dec (sat_add 64 now (default 300 (TURN_TTL_SECONDS t))) ++ b!":" ++ hex_encode source.

Definition p2p_config (peer conn host secret username data_plane_secret : bytes)
    (t : TurnEnv) (expires_at : Z) : Command :=
  V2 (P2PConnectionConfig peer conn
    [b!"stun:" ++ host ++ b!":" ++ dec (default 3478 (TURN_STUN_PORT t))]
    [b!"turn:" ++ host ++ b!":" ++ dec (default 3478 (TURN_TURN_UDP_PORT t))
       ++ b!"?transport=udp"]
    username (base64_encode (hmac_sha1 secret username)) data_plane_secret expires_at false).

(** The three writes of a connection request, each [?]-propagated. *)
Definition send_all (env : Env) : list (Z * Command) -> Server -> result () * Server :=
  fix go l s :=
    match l with
    | [] => (Ok (), s)
    | (wr, c) :: l => match write_to env wr c s with
                      | (Err e, s) => (Err e, s)
                      | (Ok _, s) => go l s
                      end
    end.

Definition p2p_request (env : Env) (source target conn : bytes) (ss : Session) (s : Server)
    : result () * Server :=
  if negb (s_authed ss) then (Err b!"P2PConnectionRequest before login", s)
  else if negb (bool_decide (session_client_id ss = source))
  then (Err b!"P2PConnectionRequest source_client_id mismatch with session", s)
  else match writer_of source s with
  | None => (Err b!"Source client not online", s)
  | Some source_writer =>
      match writer_of target s with
      | None => (Err b!"Target client not online", s)
      | Some target_writer =>
          let t := e_turn env in
          match TURN_HOST t with
          | None => (Err b!"TURN_HOST env is required", s)
          | Some host =>
              match TURN_REST_SECRET t with
              | None => (Err b!"TURN_REST_SECRET env is required", s)
              | Some secret =>
                  let expires_at := sat_add 64 (e_now env) (default 300 (TURN_TTL_SECONDS t)) in
                  let username := turn_username t (e_now env) source in
                  let config peer :=
                    p2p_config peer conn host secret username (e_random env) t expires_at in
                  send_all env [(source_writer, config target); (target_writer, config source);
                                (target_writer, V2 (P2PConnectionRequest source target conn))] s
              end
          end
      end
  end.

Definition p2p_candidates (env : Env) (source target conn : bytes)
    (candidates : list P2PCandidate) (ss : Session) (s : Server) : result () * Server :=
  if negb (s_authed ss) then (Err b!"P2PCandidates before login", s)
  else if negb (bool_decide (session_client_id ss = source))
  then (Err b!"P2PCandidates source mismatch with session", s)
  else if 64 <? blen candidates then (Err b!"Too many candidates", s)
  else if existsb (fun c => 128 <? blen (addr c)) candidates
  then (Err b!"Candidate addr too long", s)
  else match writer_of target s with
  | None => (Err b!"Target client not online", s)
  | Some target_writer =>
      write_to env target_writer (V2 (P2PCandidates source target conn candidates)) s
  end.

(** ** The command loop *)

Definition propagate (ss : Session) (rs : result () * Server) : Outcome * Server :=
  match rs with
  | (Ok _, s) => (Go ss, s)
  | (Err e, s) => (Return (Err e), s)
  end.

Definition login_system_info (i : SystemInfo) (mem tflops now : Z) : ServerSystemInfo :=
  mkServerSystemInfo (cpu_usage i) (memory_usage i) (disk_usage i) mem tflops now mem.

(** One iteration: [None] is the error of [read_command] (the device disconnected). *)
Definition handle_command (env : Env) (wr : Z) (c : option Command) (ss : Session) (s : Server)
    : Outcome * Server :=
  match c with
  | Some (V1 (Login id version os auto_models system_info mem tflops devices_info)) =>
      match handle_login env wr version auto_models id os devices_info
              (login_system_info system_info mem tflops (e_now env)) (s_authed ss) s with
      | (LoginPanic, s) => (Panicked, s)
      | (LoginRet r authed, s) =>
          let validate_result := match r with
            | Ok c => c
            | Err e => LoginResult false [] (Some e) end in
          propagate (mkSession authed id) (write_to env wr (V1 validate_result) s)
      end
  | Some (V1 (Heartbeat id system_info device_count mem tflops devices_info)) =>
      (Go ss, handle_heartbeat env (mkHeartbeat id system_info mem device_count tflops
                                      devices_info) s)
  | Some (V1 (ModelStatus id models auto_models_device)) =>
      let s := upsert_client_models_in_redis env id models s in
      match handle_models_status env id auto_models_device models s with
      | (r, s) =>
          let reply := match r with
            | Ok pods_model => PullModelResult pods_model None
            | Err e => PullModelResult [] (Some e) end in
          propagate ss (write_to env wr (V1 reply) s)
      end
  | None =>
      let w := world s in
      let s := set_world (set_clients (delete (session_client_id ss) (clients w)) w) s in
      let '(r, st) := upsert_client_status (e_store env) (e_now env) (session_client_id ss)
                        b!"offline" (store s) in
      (Return r, set_store st s)
  | Some (V1 (InferenceResult task_id success res error ms prompt completion)) =>
      (Go ss, set_world (handle_inference_result task_id success res error prompt completion
                           (e_now env) (world s)) s)
  | Some (V1 (InferenceResultChunk task_id seq delta phase done error p c a f)) =>
      (Go ss, set_world (handle_inference_result_chunk task_id
                           (mkChunk delta phase done error p c a f) (e_now env) (world s)) s)
  | Some (V1 (ModelDownloadProgress id model_name downloaded total percentage speed status error)) =>
      (Go ss, update_model_download_progress_in_redis env id model_name downloaded total
                percentage speed status error s)
  | Some (V2 (P2PConnectionRequest source target conn)) =>
      propagate ss (p2p_request env source target conn ss s)
  | Some (V2 (P2PCandidates source target conn candidates)) =>
      propagate ss (p2p_candidates env source target conn candidates ss s)
  | Some _ => (Go ss, s)
  end.

(** The loop over the commands of one connection. *)
Fixpoint run_session (wr : Z) (cs : list (Env * option Command)) (ss : Session) (s : Server)
    : Outcome * Server :=
  match cs with
  | [] => (Go ss, s)
  | (env, c) :: cs =>
      match handle_command env wr c ss s with
      | (Go ss, s) => run_session wr cs ss s
      | r => r
      end
  end.
End Session.

(** ** Facts *)
Module SessionFacts.
Section Facts.
Context `{C : Codec} `{H : Hex} (hmac_sha1 : bytes -> bytes -> bytes)
  (base64_encode : bytes -> bytes) (fmt_2 : f32 -> bytes).

Abbreviation handle := (handle_command hmac_sha1 base64_encode fmt_2).
Abbreviation run := (run_session hmac_sha1 base64_encode fmt_2).

Definition sends (l : list (Z * Command)) (s : Server) : Server :=
  set_world (mkWorld (pending_tasks (world s)) (partial_results (world s))
    (pending_streams (world s)) (stream_usages (world s)) (clients (world s))
    (outbox (world s) ++ l) (responses (world s)) (events (world s))) s.

Lemma sends_nil s : sends [] s = s.
Proof. destruct s as [[] ? ? ? ?]. unfold sends, set_world. cbn. by rewrite app_nil_r. Qed.

Lemma write_to_cases env wr c s :
  match write_to env wr c s with
  | (Ok _, s') => s' = sends [(wr, c)] s
  | (Err _, s') => s' = s
  end.
Proof.
  unfold write_to, send_on. destruct (broken _); [by destruct s|].
  destruct (write_command c); by destruct s.
Qed.

(** A connection's writes succeed, or stop at the first failure. *)
Lemma send_all_cases env l s :
  match send_all env l s with
  | (Ok _, s') => s' = sends l s
  | (Err _, s') => exists n, (n < length l)%nat /\ s' = sends (take n l) s
  end.
Proof.
  revert s. induction l as [|[wr c] l IH]; intros s; [by cbn; rewrite sends_nil|].
  cbn [send_all].
  pose proof (write_to_cases env wr c s) as Hw.
  destruct (write_to env wr c s) as [[u|e] s1]; subst s1.
  - specialize (IH (sends [(wr, c)] s)).
    destruct (send_all env l _) as [[u'|e] s2].
    + subst s2. unfold sends. cbn. by rewrite <- app_assoc.
    + destruct IH as (n & Hn & ->). exists (S n). split; [cbn; lia|]. unfold sends. cbn.
      by rewrite <- app_assoc.
  - exists 0%nat. cbn. split; [lia|]. by rewrite sends_nil.
Qed.

(** Peer signalling: an offer of a peer-to-peer connection is made only for a
    session that has logged in as the source, with both peers connected; then both peers,
    and nobody else, get the same connection id, TURN credentials, expiry and data-plane
    secret, each with the other as its peer. Candidates are forwarded unchanged, to the
    target only, at most 64 of them with addresses of at most 128 bytes. A refused
    request changes nothing. *)
Theorem p2p_signalling_gated (env : Env) (source target conn : bytes)
    (cands : list P2PCandidate) (ss : Session) (s : Server) :
  match p2p_request hmac_sha1 base64_encode env source target conn ss s with
  | (Ok _, s') =>
      s_authed ss = true /\ session_client_id ss = source
      /\ exists ws wt username password stun turn expires_at,
           writer_of source s = Some ws /\ writer_of target s = Some wt
           /\ let config peer := V2 (P2PConnectionConfig peer conn stun turn username password
                                       (e_random env) expires_at false) in
              s' = sends [(ws, config target); (wt, config source);
                          (wt, V2 (P2PConnectionRequest source target conn))] s
  | (Err _, s') => s' = s \/ s_authed ss = true /\ session_client_id ss = source
  end
  /\ match p2p_candidates env source target conn cands ss s with
  | (Ok _, s') =>
      s_authed ss = true /\ session_client_id ss = source
      /\ blen cands <= 64 /\ Forall (fun c => blen (addr c) <= 128) cands
      /\ exists wt, writer_of target s = Some wt
           /\ s' = sends [(wt, V2 (P2PCandidates source target conn cands))] s
  | (Err _, s') => s' = s
  end.
Proof.
  split.
  - unfold p2p_request. destruct (s_authed ss); [|by left]. cbn [negb].
    case_bool_decide as Hid; [|by left]. cbn [negb].
    destruct (writer_of source s) as [ws|] eqn:Hs; [|by left].
    destruct (writer_of target s) as [wt|] eqn:Ht; [|by left].
    destruct (TURN_HOST (e_turn env)) as [host|]; [|by left].
    destruct (TURN_REST_SECRET (e_turn env)) as [secret|]; [|by left].
    match goal with |- context [send_all env ?l s] => pose proof (send_all_cases env l s) as Hc;
      destruct (send_all env l s) as [[u|e] s'] end; [|by right].
    subst s'. split; [done|]. split; [done|].
    unfold p2p_config. do 7 eexists. split; [reflexivity|]. split; [reflexivity|].
    cbn zeta. reflexivity.
  - unfold p2p_candidates. destruct (s_authed ss); [|done]. cbn.
    case_bool_decide as Hid; [|done]. cbn.
    destruct (Z.ltb_spec 64 (blen cands)); [done|].
    destruct (existsb _ cands) eqn:Hex; [done|].
    destruct (writer_of target s) as [wt|] eqn:Ht; [|done].
    pose proof (write_to_cases env wt (V2 (P2PCandidates source target conn cands)) s) as Hw.
    destruct (write_to _ _ _ _) as [[u|e] s']; [|done]. subst s'.
    do 3 (split; [done|]). split; [|by exists wt].
    apply Forall_forall. intros c Hc. apply Z.le_ngt. intros Hlt.
    apply not_true_iff_false in Hex. apply Hex. apply existsb_exists. exists c.
    rewrite <- list_elem_of_In. split; [done|by apply Z.ltb_lt].
Qed.

(** *** Login and disconnection *)

Definition login_info (env : Env) (wr version : Z) (i : SystemInfo) (mem tflops : Z)
    (ds : list DevicesInfo) (authed : bool) : ClientInfo :=
  {| writer := wr; Scheduler.authed := authed; ci_version := version;
     ci_system_info := Some (mkServerSystemInfo (cpu_usage i) (memory_usage i) (disk_usage i)
                               mem tflops (e_now env) mem);
     ci_devices_info := ds; connected_at := e_now env; ci_models := None |}.

(** What a login of an unregistered, checked client does before its reply is written. *)
Lemma handle_login_checked env wr v auto id os os_str ds i mem tf authed s is_valid st :
  clients (world s) !! id = None -> os_type_str os = Some os_str ->
  validate_client (e_store env) (e_now env) os_str id (store s) = Some (Ok is_valid, st) ->
  exists reply pods, handle_login env wr v auto id os ds
      (login_system_info i mem tf (e_now env)) authed s
    = (LoginRet (Ok reply) (is_valid || authed),
       set_world (set_clients
         (<[id := login_info env wr v i mem tf ds (is_valid || authed)]> (clients (world s)))
         (world s)) (set_store st s))
    /\ reply = (if is_valid then LoginResult true pods None
                else LoginResult false [] (Some b!"Invalid client ID"))
    /\ (length pods = if auto && is_valid then length ds else 0)%nat.
Proof.
  intros Hno Hos Hval. unfold handle_login. rewrite bool_decide_false by (by rewrite Hno; inversion 1).
  rewrite Hos, Hval. destruct is_valid; [|by exists (LoginResult false [] (Some b!"Invalid client ID")), []; destruct auto].
  destruct auto; cbn; [|by exists (LoginResult true [] None), []].
  eexists _, _. split; [reflexivity|]. split; [reflexivity|]. by rewrite length_fmap.
Qed.

Lemma world_sends_clients l s : clients (world (sends l s)) = clients (world s).
Proof. done. Qed.

Definition login_cmd id v os auto i mem tf ds : option Command :=
  Some (V1 (Login id v os auto i mem tf ds)).

(** A device's life: a valid device that is not connected yet and whose login reply
    could be written is registered with its connection, load and devices, marked
    authenticated, and told so, with one recommended entry per device if it asked for
    them; when it disconnects, the client table is what it was before and the device is
    offline in the database. *)
Theorem login_then_disconnect (env env' : Env) (wr v : Z) (os : OsType) (auto : bool)
    (os_str : bytes) (id : ClientId) (i : SystemInfo) (mem tf : Z) (ds : list DevicesInfo)
    (s s1 : Server) (ss1 : Session) (st : Store) :
  clients (world s) !! id = None -> os_type_str os = Some os_str ->
  validate_client (e_store env) (e_now env) os_str id (store s) = Some (Ok true, st) ->
  handle env wr (login_cmd id v os auto i mem tf ds) session_start s = (Go ss1, s1) ->
  ss1 = mkSession true id
  /\ clients (world s1) = <[id := login_info env wr v i mem tf ds true]> (clients (world s))
  /\ (exists pods, outbox (world s1) = outbox (world s) ++ [(wr, V1 (LoginResult true pods None))]
        /\ (length pods = if auto then length ds else 0)%nat)
  /\ (exists r s2, handle env' wr None ss1 s1 = (Return r, s2)
        /\ clients (world s2) = clients (world s)
        /\ (db_up (e_store env') = true ->
            as_status <$> gpu_assets (store s2) !! id
            = (fun _ => b!"offline") <$> gpu_assets (store s1) !! id)).
Proof.
  intros Hno Hos Hval Hgo. unfold login_cmd in Hgo. cbn [handle_command] in Hgo.
  destruct (handle_login_checked env wr v auto id os os_str ds i mem tf false s true st
              Hno Hos Hval) as (reply & pods & Hlog & -> & Hlen).
  change (s_authed session_start) with false in Hgo. rewrite Hlog in Hgo.
  match type of Hgo with context [write_to env wr ?c ?x] =>
    pose proof (write_to_cases env wr c x) as Hw;
    destruct (write_to env wr c x) as [[u|e] s'] end; [|done].
  cbn [propagate] in Hgo. injection Hgo as <- <-. subst s'.
  split; [done|]. split; [done|]. split.
  { exists pods. split; [done|]. by rewrite andb_true_r in Hlen. }
  cbn [handle_command session_client_id].
  destruct (upsert_client_status _ _ _ _ _) as [r st2] eqn:Hu.
  eexists _, _. split; [reflexivity|]. split.
  - cbn. by rewrite delete_insert_eq, delete_id.
  - intros Hdb. unfold upsert_client_status in Hu. rewrite Hdb in Hu. cbn in Hu.
    injection Hu as <- <-. cbn.
    destruct (gpu_assets st !! id) as [a|] eqn:Ha; cbn; [by rewrite lookup_insert_eq|].
    by rewrite Ha.
Qed.

(** *** Sessions the server does not expect *)

(** A login names its operating system, and [OsType::NONE] has no name: the
    [unwrap] in [handle_login] panics for every unregistered id, before any check of the
    client (the release profile aborts the process on a panic). *)
Theorem login_without_os_panics (env : Env) (wr v : Z) (auto : bool) (id : ClientId)
    (i : SystemInfo) (mem tf : Z) (ds : list DevicesInfo) (ss : Session) (s : Server) :
  clients (world s) !! id = None ->
  handle env wr (login_cmd id v OsNONE auto i mem tf ds) ss s = (Panicked, s).
Proof.
  intros Hno. cbn [handle_command login_cmd]. unfold handle_login.
  rewrite bool_decide_false by (by rewrite Hno; inversion 1). reflexivity.
Qed.

Definition can_reply (env : Env) (wr : Z) (c : Command) : Prop :=
  broken (e_writers env wr) = false /\ is_ok (write_command c) = true.

Lemma write_to_can_reply env wr c s :
  can_reply env wr c -> write_to env wr c s = (Ok (), sends [(wr, c)] s).
Proof.
  intros [Hb Hw]. unfold write_to, send_on. rewrite Hb.
  destruct (write_command c); [|done]. by destruct s.
Qed.

Lemma login_registered env wr v os auto i mem tf ds id ss s info :
  clients (world s) !! id = Some info ->
  can_reply env wr (V1 (LoginResult false [] (Some err_registered))) ->
  handle env wr (login_cmd id v os auto i mem tf ds) ss s
    = (Go (mkSession (s_authed ss) id),
       sends [(wr, V1 (LoginResult false [] (Some err_registered)))] s).
Proof.
  intros Hin Hr. cbn [handle_command login_cmd]. unfold handle_login.
  rewrite bool_decide_true by (by rewrite Hin).
  by rewrite write_to_can_reply.
Qed.

(** A refused login still names the session: a connection that tries to log in as
    a device that is already connected is refused, and when it then disconnects the
    server removes that device's entry and marks the device offline, although its own
    connection is still open. *)
Theorem refused_login_evicts_device (env env' : Env) (wr v : Z) (os : OsType) (auto : bool)
    (id : ClientId) (i : SystemInfo) (mem tf : Z) (ds : list DevicesInfo) (s : Server)
    (victim : ClientInfo) (a : Asset) :
  clients (world s) !! id = Some victim -> gpu_assets (store s) !! id = Some a ->
  can_reply env wr (V1 (LoginResult false [] (Some err_registered))) ->
  db_up (e_store env') = true ->
  exists s', run wr [(env, login_cmd id v os auto i mem tf ds); (env', None)] session_start s
    = (Return (Ok ()), s')
    /\ clients (world s') = delete id (clients (world s))
    /\ as_status <$> gpu_assets (store s') !! id = Some b!"offline".
Proof.
  intros Hin Ha Hr Hdb. cbn [run_session].
  rewrite (login_registered _ _ _ _ _ _ _ _ _ _ _ _ _ Hin Hr).
  cbn [handle_command session_client_id]. unfold upsert_client_status. rewrite Hdb. cbn.
  rewrite Ha. eexists. split; [reflexivity|]. split; [done|]. cbn. by rewrite lookup_insert_eq.
Qed.

(** Authentication is sticky: after one successful login, a second login on the
    same connection with an id that fails validation is answered with a failure but
    registered as an authenticated device, which the scheduler may then select. *)
Theorem second_login_inherits_authentication (env : Env) (wr v : Z) (os : OsType)
    (auto : bool) (os_str : bytes) (id : ClientId) (i : SystemInfo) (mem tf : Z)
    (ds : list DevicesInfo) (ss : Session) (s : Server) (st : Store) :
  s_authed ss = true -> clients (world s) !! id = None -> os_type_str os = Some os_str ->
  validate_client (e_store env) (e_now env) os_str id (store s) = Some (Ok false, st) ->
  can_reply env wr (V1 (LoginResult false [] (Some b!"Invalid client ID"))) ->
  exists s', handle env wr (login_cmd id v os auto i mem tf ds) ss s
    = (Go (mkSession true id), s')
    /\ clients (world s') !! id = Some (login_info env wr v i mem tf ds true).
Proof.
  intros Hau Hno Hos Hval Hr. cbn [handle_command login_cmd]. rewrite Hau.
  destruct (handle_login_checked env wr v auto id os os_str ds i mem tf true s false st
              Hno Hos Hval) as (reply & pods & -> & -> & _).
  rewrite write_to_can_reply by done. eexists. split; [reflexivity|].
  cbn. by rewrite lookup_insert_eq.
Qed.

(** A connection request to a device that is offline ends the session without
    removing its entry: the device stays registered (and selectable) with a connection
    nobody reads, and every later login as it is refused. *)
Theorem failed_request_strands_device (env env' : Env) (wr wr' v : Z) (os : OsType)
    (auto : bool) (id target conn : bytes) (i : SystemInfo) (mem tf : Z)
    (ds : list DevicesInfo) (s : Server) (info : ClientInfo) :
  clients (world s) !! id = Some info -> clients (world s) !! target = None ->
  can_reply env' wr' (V1 (LoginResult false [] (Some err_registered))) ->
  exists e, handle env wr (Some (V2 (P2PConnectionRequest id target conn))) (mkSession true id) s
    = (Return (Err e), s)
    /\ handle env' wr' (login_cmd id v os auto i mem tf ds) session_start s
       = (Go (mkSession false id),
          sends [(wr', V1 (LoginResult false [] (Some err_registered)))] s).
Proof.
  intros Hin Hno Hr. exists b!"Target client not online". split.
  - cbn [handle_command]. unfold p2p_request, writer_of. cbn [s_authed negb session_client_id].
    rewrite bool_decide_true by done. cbn [negb]. by rewrite Hin, Hno.
  - by rewrite (login_registered _ _ _ _ _ _ _ _ _ _ _ _ _ Hin Hr).
Qed.
End Facts.

(** *** Witnesses *)
Definition reply_codec : Codec := {|
  encode_to_vec := fun _ => Some [Byte.x00]; decode_from_slice := fun _ => None |}.
Definition demo_turn : TurnEnv := mkTurnEnv (Some b!"turn.example") None None None (Some b!"k").
Definition demo_env : Env :=
  mkEnv 1000 (mkStoreEnv true true true true) true true demo_turn (replicate 32 Byte.x01)
    (fun _ => {| busy := false; broken := false |}).
Definition dev_id : ClientId := replicate 16 Byte.x11.
Definition demo_server : Server :=
  mkServer (scheduler_new ∅) (mkStore {[dev_id := mkAsset true b!"online" None 0]} [] ∅) ∅ ∅ [].
Definition demo_sys : SystemInfo := mkSystemInfo 10 20 30 0 0.
Definition demo_victim : ClientInfo := login_info demo_env 1 1 demo_sys 8 1 [] true.
Definition busy_server : Server :=
  set_world (set_clients {[dev_id := demo_victim]} (world demo_server)) demo_server.
Definition mac0 (k m : bytes) : bytes := [].
Definition b64_0 (b : bytes) : bytes := b.
Definition fmt0 (f : f32) : bytes := [].

Lemma login_then_disconnect_witness :
  exists s1 ss1 r s2,
    handle_command (C := reply_codec) mac0 b64_0 fmt0 demo_env 5
      (login_cmd dev_id 1 ANDROID false demo_sys 8 1 []) session_start demo_server = (Go ss1, s1)
    /\ handle_command (C := reply_codec) mac0 b64_0 fmt0 demo_env 5 None ss1 s1 = (Return r, s2)
    /\ clients (world s2) = ∅.
Proof.
  assert (exists st, validate_client (e_store demo_env) (e_now demo_env) b!"android" dev_id
            (store demo_server) = Some (Ok true, st)) as [st Hst]
    by (eexists; vm_compute; reflexivity).
  assert (exists s1 ss1, handle_command (C := reply_codec) mac0 b64_0 fmt0 demo_env 5
      (login_cmd dev_id 1 ANDROID false demo_sys 8 1 []) session_start demo_server = (Go ss1, s1))
    as (s1 & ss1 & H1) by (eexists _, _; vm_compute; reflexivity).
  destruct (login_then_disconnect (C := reply_codec) mac0 b64_0 fmt0 demo_env demo_env 5 1 ANDROID
    false b!"android" dev_id demo_sys 8 1 [] demo_server s1 ss1 st eq_refl eq_refl Hst H1)
    as (_ & _ & _ & r & s2 & H2 & Hc & _).
  exists s1, ss1, r, s2. split; [exact H1|]. split; [exact H2|exact Hc].
Defined.

Lemma login_without_os_panics_witness :
  (handle_command (C := reply_codec) mac0 b64_0 fmt0 demo_env 5
     (login_cmd dev_id 1 OsNONE false demo_sys 8 1 []) session_start demo_server).1 = Panicked.
Proof.
  rewrite (login_without_os_panics (C := reply_codec) mac0 b64_0 fmt0 demo_env 5 1 false dev_id
    demo_sys 8 1 [] session_start demo_server eq_refl).
  reflexivity.
Defined.

Lemma refused_login_evicts_device_witness :
  exists s', run_session (C := reply_codec) mac0 b64_0 fmt0 9
    [(demo_env, login_cmd dev_id 1 ANDROID false demo_sys 8 1 []); (demo_env, None)]
    session_start busy_server = (Return (Ok ()), s')
  /\ clients (world s') = delete dev_id {[dev_id := demo_victim]}.
Proof.
  destruct (refused_login_evicts_device (C := reply_codec) mac0 b64_0 fmt0 demo_env demo_env 9 1
    ANDROID false dev_id demo_sys 8 1 [] busy_server demo_victim (mkAsset true b!"online" None 0)
    eq_refl eq_refl (conj eq_refl eq_refl) eq_refl) as (s' & H1 & H2 & _).
  exists s'. split; [exact H1|exact H2].
Defined.

Lemma second_login_inherits_authentication_witness :
  exists s', handle_command (C := reply_codec) mac0 b64_0 fmt0 demo_env 9
    (login_cmd (replicate 16 Byte.x22) 1 ANDROID false demo_sys 8 1 [])
    (mkSession true dev_id) busy_server = (Go (mkSession true (replicate 16 Byte.x22)), s')
  /\ is_Some (clients (world s') !! replicate 16 Byte.x22).
Proof.
  assert (exists st, validate_client (e_store demo_env) (e_now demo_env) b!"android"
            (replicate 16 Byte.x22) (store busy_server) = Some (Ok false, st)) as [st Hst]
    by (eexists; vm_compute; reflexivity).
  destruct (second_login_inherits_authentication (C := reply_codec) mac0 b64_0 fmt0 demo_env 9 1
    ANDROID false b!"android" (replicate 16 Byte.x22) demo_sys 8 1 [] (mkSession true dev_id)
    busy_server st eq_refl eq_refl eq_refl Hst (conj eq_refl eq_refl)) as (s' & H1 & H2).
  exists s'. split; [exact H1|]. rewrite H2. eexists. reflexivity.
Defined.

Lemma failed_request_strands_device_witness :
  exists e, handle_command (C := reply_codec) mac0 b64_0 fmt0 demo_env 1
    (Some (V2 (P2PConnectionRequest dev_id (replicate 16 Byte.x22) (replicate 16 Byte.x33))))
    (mkSession true dev_id) busy_server = (Return (Err e), busy_server).
Proof.
  destruct (failed_request_strands_device (C := reply_codec) mac0 b64_0 fmt0 demo_env demo_env 1 2
    1 ANDROID false dev_id (replicate 16 Byte.x22) (replicate 16 Byte.x33) demo_sys 8 1 []
    busy_server demo_victim eq_refl eq_refl (conj eq_refl eq_refl)) as (e & H1 & _).
  exists e. exact H1.
Defined.
End SessionFacts.
