(* ===== verification/Text.v ===== *)
(** * Rust strings: UTF-8, and the [str] methods the program uses

    [str::from_utf8], [String::from_utf8_lossy], [trim], [lines], [split_once],
    [to_ascii_lowercase] and their properties, over byte lists. *)

From S2P Require Import Prelude.
From Stdlib Require Import ZArith Lia String.
From Stdlib Require Import Strings.Byte.
From stdpp Require Import base list gmap.

Local Open Scope Z_scope.

(** ** UTF-8 *)

Definition byte_in (lo hi : Z) (b : byte) : bool := (lo <=? Z_of_byte b) && (Z_of_byte b <=? hi).
Definition cont (b : byte) : bool := byte_in 0x80 0xBF b.

(** Length of the longest prefix of [s], at most [n] long, of continuation bytes. *)
Fixpoint conts (n : nat) (s : bytes) : nat :=
  match n, s with
  | S n', b :: s' => if cont b then S (conts n' s') else O
  | _, _ => O
  end.

(** The sequence at the head of a non-empty string: whether it is a well-formed character,
    and the length of it or of the maximal ill-formed part that is replaced as one. *)
Definition utf8_step (s : bytes) : bool * nat :=
  match s with
  | [] => (false, 1%nat)
  | b0 :: s' =>
      let multi (n : nat) (lo hi : Z) :=
        match s' with
        | b1 :: s'' =>
            if byte_in lo hi b1
            then let k := conts (n - 1) s'' in ((k =? n - 1)%nat, (2 + k)%nat)
            else (false, 1%nat)
        | [] => (false, 1%nat)
        end in
      if byte_in 0 0x7F b0 then (true, 1%nat)
      else if byte_in 0xC2 0xDF b0 then multi 1%nat 0x80 0xBF
      else if byte_in 0xE0 0xE0 b0 then multi 2%nat 0xA0 0xBF
      else if byte_in 0xED 0xED b0 then multi 2%nat 0x80 0x9F
      else if byte_in 0xE1 0xEF b0 then multi 2%nat 0x80 0xBF
      else if byte_in 0xF0 0xF0 b0 then multi 3%nat 0x90 0xBF
      else if byte_in 0xF1 0xF3 b0 then multi 3%nat 0x80 0xBF
      else if byte_in 0xF4 0xF4 b0 then multi 3%nat 0x80 0x8F
      else (false, 1%nat)
  end.

(** [Utf8Error::valid_up_to]: length of the longest well-formed prefix. Every step consumes
    at least one byte, so the length of the string is enough fuel. *)
Fixpoint valid_up_to_fuel (fuel : nat) (s : bytes) : nat :=
  match fuel, s with
  | S fuel, _ :: _ =>
      let '(ok, n) := utf8_step s in
      if ok then (n + valid_up_to_fuel fuel (drop n s))%nat else O
  | _, _ => O
  end.
Definition valid_up_to (s : bytes) : nat := valid_up_to_fuel (length s) s.

Definition valid_utf8 (s : bytes) : bool := (valid_up_to s =? length s)%nat.

(** [str::from_utf8]. *)
Definition from_utf8 (s : bytes) : option bytes := if valid_utf8 s then Some s else None.

(** U+FFFD. *)
Definition replacement : bytes := [Byte.xef; Byte.xbf; Byte.xbd].

Fixpoint lossy_fuel (fuel : nat) (s : bytes) : bytes :=
  match fuel, s with
  | S fuel, _ :: _ =>
      let '(ok, n) := utf8_step s in
      (if ok then take n s else replacement) ++ lossy_fuel fuel (drop n s)
  | _, _ => []
  end.
Definition from_utf8_lossy (s : bytes) : bytes := lossy_fuel (length s) s.

(** ** [str] methods *)

(** UTF-8 encodings of the characters of Unicode [White_Space]. *)
Definition white_space : list bytes :=
  [[Byte.x09]; [Byte.x0a]; [Byte.x0b]; [Byte.x0c]; [Byte.x0d]; [Byte.x20];
   [Byte.xc2; Byte.x85]; [Byte.xc2; Byte.xa0]; [Byte.xe1; Byte.x9a; Byte.x80];
   [Byte.xe2; Byte.x80; Byte.xa8]; [Byte.xe2; Byte.x80; Byte.xa9];
   [Byte.xe2; Byte.x80; Byte.xaf]; [Byte.xe2; Byte.x81; Byte.x9f];
   [Byte.xe3; Byte.x80; Byte.x80]]
  ++ ((fun n => [Byte.xe2; Byte.x80; byte_of_Z (0x80 + Z.of_nat n)]) <$> seq 0 11).

(** Remove a prefix that is one of [ps] as long as there is one. *)
Fixpoint strip_any_fuel (fuel : nat) (ps : list bytes) (s : bytes) : bytes :=
  match fuel with
  | O => s
  | S fuel =>
      match List.find (fun p => starts_with p s) ps with
      | Some p => strip_any_fuel fuel ps (drop (length p) s)
      | None => s
      end
  end.
Definition trim_start (s : bytes) : bytes := strip_any_fuel (length s) white_space s.
Definition trim_end (s : bytes) : bytes :=
  rev (strip_any_fuel (length s) (@rev byte <$> white_space) (rev s)).
Definition trim (s : bytes) : bytes := trim_end (trim_start s).

(** Pieces of [s] between occurrences of a byte. *)
Fixpoint split_byte (c : byte) (s : bytes) : list bytes :=
  match s with
  | [] => [[]]
  | x :: s' =>
      if bool_decide (x = c) then [] :: split_byte c s'
      else match split_byte c s' with
           | p :: ps => (x :: p) :: ps
           | [] => [[x]]
           end
  end.

(** Bytes without a final [suffix]. *)
Definition str_strip_suffix (p s : bytes) : option bytes :=
  if ends_with p s then Some (take (length s - length p) s) else None.

(** [str::lines]: a line ends with a newline, with or without a carriage return before it;
    the last line need not end. *)
Definition lines (s : bytes) : list bytes :=
  let ps := split_byte Byte.x0a s in
  let n := (length ps - 1)%nat in
  ((fun l => default l (str_strip_suffix [Byte.x0d] l)) <$> take n ps)
  ++ match last ps with Some (c :: l) => [c :: l] | _ => [] end.

Definition split_once (c : byte) (s : bytes) : option (bytes * bytes) :=
  match find_sub [c] s with
  | Some i => Some (take i s, drop (S i) s)
  | None => None
  end.

(** [str::rsplit_once] *)
Definition rsplit_once (c : byte) (s : bytes) : option (bytes * bytes) :=
  match split_once c (rev s) with
  | Some (a, b) => Some (rev b, rev a)
  | None => None
  end.

Definition ascii_lower (b : byte) : byte :=
  if byte_in 65 90 b then byte_of_Z (Z_of_byte b + 32) else b.
Definition to_ascii_lowercase (s : bytes) : bytes := ascii_lower <$> s.

(** ** Facts *)
(** [str::parse] to an unsigned integer of [w] bits: an optional plus sign, then digits. *)
Definition digits_value (s : bytes) : option Z :=
  fold_left (fun acc b => v ← acc;
               if byte_in 48 57 b then Some (v * 10 + (Z_of_byte b - 48)) else None) s (Some 0).
Definition parse_uint (w : Z) (s : bytes) : option Z :=
  let d := match s with
           | b :: (_ :: _ as r) => if bool_decide (b = Byte.x2b) then r else s
           | _ => s
           end in
  match d with
  | [] => None
  | _ => v ← digits_value d; if v <? 2 ^ w then Some v else None
  end.

(** [str::trim_matches] with one ASCII character. *)
Fixpoint trim_start_char (c : byte) (s : bytes) : bytes :=
  match s with
  | b :: s' => if bool_decide (b = c) then trim_start_char c s' else s
  | [] => []
  end.
Definition trim_matches (c : byte) (s : bytes) : bytes :=
  rev (trim_start_char c (rev (trim_start_char c s))).

Module TextFacts.

Lemma conts_le n s : (conts n s <= n)%nat /\ (conts n s <= length s)%nat.
Proof.
  revert s. induction n as [|n IH]; intros [|b s]; cbn; try lia.
  destruct (cont b); [|lia]. destruct (IH s). lia.
Qed.

Lemma utf8_step_pos s : (1 <= (utf8_step s).2)%nat.
Proof.
  destruct s as [|b0 s]; cbn; [lia|].
  repeat match goal with |- context [if ?b then _ else _] => destruct b end;
    try (cbn; lia); destruct s as [|b1 s]; cbn; try lia;
    repeat match goal with |- context [if ?b then _ else _] => destruct b end; cbn; lia.
Qed.

Lemma utf8_step_length s : s <> [] -> ((utf8_step s).2 <= length s)%nat.
Proof.
  destruct s as [|b0 s]; [done|]. intros _. cbn -[conts Nat.sub].
  repeat match goal with |- context [if ?b then _ else _] => destruct b end;
    try (cbn -[conts Nat.sub]; lia); destruct s as [|b1 s]; cbn -[conts Nat.sub]; try lia;
    repeat match goal with |- context [if ?b then _ else _] => destruct b end; cbn -[conts Nat.sub]; try lia;
    try match goal with |- context [conts ?n ?l] => destruct (conts_le n l) end; lia.
Qed.

Lemma utf8_step_nil_false : (utf8_step []).1 = false.
Proof. done. Qed.

(** A well-formed head is recognised whatever follows it. *)
Lemma conts_app n s t : (n <= length s)%nat -> conts n (s ++ t) = conts n s.
Proof.
  revert s. induction n as [|n IH]; intros [|b s]; cbn; intros Hl; try lia; [done..|].
  destruct (cont b); [|done]. rewrite IH by lia. done.
Qed.

Lemma conts_full_app n s t : conts n s = n -> conts n (s ++ t) = n.
Proof. intros E. destruct (conts_le n s) as [_ Hl]. rewrite conts_app by lia. done. Qed.

Lemma utf8_step_app s t n : utf8_step s = (true, n) -> utf8_step (s ++ t) = (true, n).
Proof.
  destruct s as [|b0 s]; [done|]. cbn -[conts Nat.sub].
  repeat match goal with |- context [if ?b then _ else _] => destruct b end; try done;
    destruct s as [|b1 s]; cbn -[conts Nat.sub]; try done;
    repeat match goal with |- context [if ?b then _ else _] => destruct b end; try done.
  all: intros [= E <-]; apply Nat.eqb_eq in E.
  all: rewrite conts_full_app by exact E; rewrite E, Nat.eqb_refl; done.
Qed.

(** The converse, for a head that fits. *)
Lemma utf8_step_unapp s t n :
  utf8_step (s ++ t) = (true, n) -> (n <= length s)%nat -> utf8_step s = (true, n).
Proof.
  destruct s as [|b0 s]; cbn -[conts Nat.sub].
  { intros E Hn. pose proof (utf8_step_pos t) as Hp. rewrite E in Hp. cbn in Hp. lia. }
  repeat match goal with |- context [if ?b then _ else _] => destruct b end; try done;
    destruct s as [|b1 s]; cbn -[conts Nat.sub]; try (destruct t; cbn -[conts Nat.sub]);
    repeat match goal with |- context [if ?b then _ else _] => destruct b end; try done.
  all: intros E Hn; try exact E; apply pair_equal_spec in E as [E <-]; apply Nat.eqb_eq in E; cbn -[conts Nat.sub] in Hn;
    try lia.
  all: match type of E with conts ?k (?v ++ ?u) = _ =>
         rewrite E in Hn; assert (k <= length v)%nat as Hk by lia;
         rewrite (conts_app k v u Hk) in E |- *; rewrite E, Nat.eqb_refl; done end.
Qed.

Lemma utf8_step_max s n : utf8_step s = (true, n) -> (n <= 4)%nat.
Proof.
  destruct s as [|b0 s]; [done|]. cbn -[conts Nat.sub].
  repeat match goal with |- context [if ?b then _ else _] => destruct b end; try done;
    destruct s as [|b1 s]; cbn -[conts Nat.sub];
    repeat match goal with |- context [if ?b then _ else _] => destruct b end; try done;
    intros E; first [injection E as <-; lia | apply pair_equal_spec in E as [E <-]; apply Nat.eqb_eq in E; lia].
Qed.

(** *** Well-formed text *)
Inductive utf8 : bytes -> Prop :=
  | utf8_nil : utf8 []
  | utf8_char s n : utf8_step s = (true, n) -> utf8 (drop n s) -> utf8 s.

Lemma utf8_app s t : utf8 s -> utf8 t -> utf8 (s ++ t).
Proof.
  intros Hs Ht. induction Hs as [|s n E Hs IH]; [done|].
  eapply utf8_char; [by apply utf8_step_app|].
  rewrite drop_app_le; [done|].
  assert (s <> []) as Hne by (intros ->; discriminate).
  pose proof (utf8_step_length s Hne) as Hl. by rewrite E in Hl.
Qed.

Lemma utf8_app_inv s t : utf8 (s ++ t) -> utf8 s -> utf8 t.
Proof.
  intros Hst Hs. revert Hst. induction Hs as [|s n E Hs IH]; [done|]. intros Hst.
  assert (s <> []) as Hne by (intros ->; discriminate).
  pose proof (utf8_step_length s Hne) as Hl. rewrite E in Hl. cbn in Hl.
  apply IH. inversion Hst as [E0|s' n' E' Hd E0].
  { by destruct s. }
  rewrite (utf8_step_app _ t _ E) in E'. injection E' as <-.
  by rewrite drop_app_le in Hd.
Qed.

Lemma valid_up_to_fuel_enough f s :
  (length s <= f)%nat -> valid_up_to_fuel f s = valid_up_to s.
Proof.
  unfold valid_up_to. remember (length s) as m eqn:Em.
  assert (forall k g1 g2 (u : bytes), (length u <= k)%nat -> (length u <= g1)%nat ->
            (length u <= g2)%nat -> valid_up_to_fuel g1 u = valid_up_to_fuel g2 u) as Hgen.
  { induction k as [|k IH]; intros g1 g2 [|c u] H1 H2 H3; cbn in H1, H2, H3; try lia.
    - by destruct g1, g2.
    - by destruct g1, g2.
    - destruct g1 as [|g1], g2 as [|g2]; try lia. cbn -[utf8_step drop].
      pose proof (utf8_step_pos (c :: u)) as Hp.
      destruct (utf8_step (c :: u)) as [[] n]; [|done]. cbn in Hp.
      rewrite (IH g1 g2); [done| | |]; rewrite length_drop; cbn; lia. }
  intros Hf. apply (Hgen m); lia.
Qed.

Lemma valid_up_to_step s n :
  utf8_step s = (true, n) -> valid_up_to s = (n + valid_up_to (drop n s))%nat.
Proof.
  intros E. destruct s as [|c s]; [discriminate|].
  unfold valid_up_to at 1. cbn -[utf8_step drop]. rewrite E. f_equal.
  apply valid_up_to_fuel_enough.
  pose proof (utf8_step_pos (c :: s)) as Hp. rewrite E in Hp. cbn in Hp.
  rewrite length_drop. cbn. lia.
Qed.

Lemma valid_up_to_app s t : utf8 s -> valid_up_to (s ++ t) = (length s + valid_up_to t)%nat.
Proof.
  induction 1 as [|s n E Hs IH]; [done|].
  assert (s <> []) as Hne by (intros ->; discriminate).
  pose proof (utf8_step_length s Hne) as Hl. rewrite E in Hl. cbn in Hl.
  rewrite (valid_up_to_step (s ++ t) n) by by apply utf8_step_app.
  rewrite drop_app_le by done. rewrite IH, length_drop. lia.
Qed.

Lemma valid_up_to_spec s :
  utf8 (take (valid_up_to s) s) /\ (valid_up_to s <= length s)%nat.
Proof.
  assert (exists m, length s <= m)%nat as [m Hm] by eauto.
  revert s Hm. induction m as [|m IH]; intros s Hm.
  { destruct s; [split; [apply utf8_nil|cbn; lia]|cbn in Hm; lia]. }
  destruct s as [|c s]; [split; [apply utf8_nil|cbn; lia]|].
  pose proof (utf8_step_pos (c :: s)) as Hp.
  pose proof (utf8_step_length (c :: s) ltac:(done)) as Hl.
  destruct (utf8_step (c :: s)) as [[] n] eqn:E; cbn in Hp, Hl.
  - rewrite (valid_up_to_step _ _ E).
    destruct (IH (drop n (c :: s))) as [Hu Hle]; [rewrite length_drop; cbn in *; lia|].
    rewrite length_drop in Hle. split; [|cbn in *; lia].
    set (v := valid_up_to (drop n (c :: s))) in *.
    assert (take (n + v) (c :: s) = take n (c :: s) ++ take v (drop n (c :: s))) as Hsplit.
    { rewrite take_take_drop. done. }
    assert (length (take n (c :: s)) = n) as Hlen by (rewrite length_take; cbn; lia).
    rewrite Hsplit. eapply (utf8_char _ n).
    + apply utf8_step_app. eapply (utf8_step_unapp _ (drop n (c :: s))); [|lia].
      by rewrite take_drop.
    + rewrite drop_app_le, drop_ge by lia. done.
  - assert (valid_up_to (c :: s) = 0%nat) as ->.
    { unfold valid_up_to. cbn -[utf8_step]. by rewrite E. }
    split; [apply utf8_nil|lia].
Qed.

Lemma valid_utf8_iff s : valid_utf8 s = true <-> utf8 s.
Proof.
  unfold valid_utf8. rewrite Nat.eqb_eq. split.
  - intros E. destruct (valid_up_to_spec s) as [Hu _]. rewrite E in Hu.
    by rewrite take_ge in Hu by lia.
  - intros Hs. rewrite <- (app_nil_r s) at 1. rewrite valid_up_to_app by done. cbn. lia.
Qed.

Lemma lossy_utf8 s : utf8 s -> from_utf8_lossy s = s.
Proof.
  intros Hs. unfold from_utf8_lossy.
  assert (forall f, (length s <= f)%nat -> lossy_fuel f s = s) as Hgen; [|by apply Hgen].
  induction Hs as [|s n E Hs IH]; intros f Hf; [by destruct f|].
  destruct s as [|c s]; [discriminate|]. destruct f as [|f]; [cbn in Hf; lia|].
  cbn -[utf8_step drop take]. rewrite E.
  pose proof (utf8_step_pos (c :: s)) as Hp. rewrite E in Hp. cbn in Hp.
  rewrite IH by (rewrite length_drop; cbn in *; lia). apply take_drop.
Qed.

(** The replacement text is always well formed. *)
Lemma utf8_replacement : utf8 replacement.
Proof. by apply valid_utf8_iff. Qed.

Lemma lossy_is_utf8 s : utf8 (from_utf8_lossy s).
Proof.
  unfold from_utf8_lossy.
  assert (forall f, utf8 (lossy_fuel f s)) as Hgen; [|done].
  intros f. revert s. induction f as [|f IH]; intros s; [apply utf8_nil|].
  destruct s as [|c s]; [apply utf8_nil|]. cbn -[utf8_step drop take].
  destruct (utf8_step (c :: s)) as [[] n] eqn:E; (apply utf8_app; [|done]).
  - pose proof (utf8_step_length (c :: s) ltac:(done)) as Hl. rewrite E in Hl. cbn in Hl.
    apply (utf8_char _ n).
    + eapply (utf8_step_unapp _ (drop n (c :: s))); [by rewrite take_drop|].
      rewrite length_take. cbn. lia.
    + rewrite drop_ge; [apply utf8_nil|]. rewrite length_take. lia.
  - apply utf8_replacement.
Qed.
End TextFacts.
