(* ===== verification/Output.v ===== *)
(** * Model output on the device ([gpuf-c/src/lib.rs], [gpuf-c/src/handle/handle_tcp.rs])

    From generated bytes to the chunks a device sends: the UTF-8 buffer that holds back an
    incomplete character, the filter of control tokens, the splitter of analysis and final
    text, and the model id derived from a model file's path. *)

From S2P Require Import Prelude Wire Text.
From Stdlib Require Import ZArith Lia String.
From Stdlib Require Import Strings.Byte.
From stdpp Require Import base list gmap.

Local Open Scope Z_scope.
Import TextFacts.

(** ** [Utf8EmitBuffer] *)
Module Emit.

(** The state is the byte buffer. *)
Definition push_and_take_valid (buf : bytes) (new : bytes) : bytes * bytes :=
  let buf := buf ++ filter (fun b => b <> Byte.x00) new in
  match from_utf8 buf with
  | Some s => (s, [])
  | None =>
      let v := valid_up_to buf in
      if (v =? 0)%nat then
        if 8192 <? blen buf then (from_utf8_lossy buf, []) else ([], buf)
      else (from_utf8_lossy (take v buf), drop v buf)
  end.

Definition flush_lossy (buf : bytes) : bytes * bytes :=
  match buf with [] => ([], []) | _ => (from_utf8_lossy buf, []) end.

(** The strings emitted for a sequence of pushes, and the buffer left. *)
Fixpoint emit_all (buf : bytes) (chunks : list bytes) : list bytes * bytes :=
  match chunks with
  | [] => ([], buf)
  | c :: cs =>
      let '(s, buf) := push_and_take_valid buf c in
      let '(ss, buf) := emit_all buf cs in (s :: ss, buf)
  end.
End Emit.

(** ** [filter_control_tokens] *)
Module Filter.

(** The characters of a string, each as its UTF-8 bytes. *)
Fixpoint chars_fuel (fuel : nat) (s : bytes) : list bytes :=
  match fuel, s with
  | S fuel, _ :: _ => let n := (utf8_step s).2 in take n s :: chars_fuel fuel (drop n s)
  | _, _ => []
  end.
Definition chars (s : bytes) : list bytes := chars_fuel (length s) s.

(** [str::replace(p, "")] for a non-empty [p]: occurrences from the left, not overlapping. *)
Fixpoint remove_all_fuel (fuel : nat) (p s : bytes) : bytes :=
  match fuel with
  | O => s
  | S fuel => match find_sub p s with
              | Some i => take i s ++ remove_all_fuel fuel p (drop (i + length p) s)
              | None => s
              end
  end.
Definition remove_all (p s : bytes) : bytes := remove_all_fuel (S (length s)) p s.

Definition is_control (buffer : bytes) : bool :=
  contains_sub b!"<|channel|>" buffer || contains_sub b!"<|start|>" buffer
  || contains_sub b!"<|end|>" buffer || contains_sub b!"<|message|>" buffer.

(** Both loops: [inner] is true inside the inner [while let]. *)
Fixpoint filter_loop (inner : bool) (buffer result : bytes) (cs : list bytes) : bytes :=
  match cs with
  | [] => result ++ buffer
  | c :: cs =>
      let buffer := buffer ++ c in
      if inner then
        if ends_with b!">" buffer then
          if is_control buffer then filter_loop false [] result cs
          else
            let safe_end := (default (length buffer) (find_sub b!">" buffer) + 1)%nat in
            filter_loop false [] (result ++ take safe_end buffer) cs
        else if 50 <? blen buffer then filter_loop false [] result cs
        else filter_loop true buffer result cs
      else if contains_sub b!"<|" buffer then filter_loop true buffer result cs
      else if 20 <? blen buffer then
        let safe_end := default (length buffer) (find_sub b!"<" buffer) in
        if (0 <? safe_end)%nat
        then filter_loop false (drop safe_end buffer) (result ++ take safe_end buffer) cs
        else filter_loop false buffer result cs
      else filter_loop false buffer result cs
  end.

Definition filter_control_tokens (text : bytes) : bytes :=
  remove_all b!"<|message|>" (remove_all b!"<|channel|>"
    (remove_all b!"<|start|>" (remove_all b!"<|end|>"
      (filter_loop false [] [] (chars text))))).
End Filter.

(** ** [PhaseSplitter] *)
Module Phase.

Record PhaseSplitter := mkSplitter { phase : OutputPhase; carry : bytes }.
Definition PhaseSplitter_default : PhaseSplitter := mkSplitter Final [].

(** A marker candidate: position, phase it switches to, length. *)
Definition cand := (nat * OutputPhase * nat)%type.

Definition better (best : option cand) (c : option cand) : option cand :=
  match c, best with
  | None, _ => best
  | Some c, None => Some c
  | Some c, Some cur => if (c.1.1 <? cur.1.1)%nat then Some c else Some cur
  end.

Definition open_tags : list (bytes * OutputPhase) :=
  [ (b!"<analysis>", Analysis); (b!"<think>", Analysis); (b!"<reasoning>", Analysis);
    (b!"<final>", Final) ].
Definition end_tags : list (bytes * OutputPhase) :=
  [ (b!"</analysis>", Final); (b!"</think>", Final); (b!"</reasoning>", Final);
    (b!"</final>", Final) ].
Definition line_markers : list (bytes * OutputPhase) :=
  [ (b!"### Final", Final); (b!"Final:", Final); (b!"final:", Final); (b!"final", Final);
    (b!"### Answer", Final); (b!"### Reasoning", Analysis); (b!"Reasoning:", Analysis);
    (b!"Analysis:", Analysis); (b!"analysis:", Analysis); (b!"analysis", Analysis);
    (b!"### Answer", Final); (b!"Answer:", Final) ].

Definition newline : bytes := [Byte.x0a].

(** [' ', '\n', '\r', '\t', ':'] *)
Definition boundary_char (s : bytes) : bool :=
  match s with
  | c :: _ => existsb (fun x => bool_decide (x = c))
                [Byte.x20; Byte.x0a; Byte.x0d; Byte.x09; Byte.x3a]
  | [] => false
  end.

Definition tag_cand (rest : bytes) (t : bytes * OutputPhase) : option cand :=
  (fun i => (i, t.2, length t.1)) <$> find_sub t.1 rest.

Definition line_cands (rest : bytes) (t : bytes * OutputPhase) : list (option cand) :=
  let '(pat, to_phase) := t in
  [ (if starts_with pat rest then
       if (bool_decide (pat = b!"analysis") || bool_decide (pat = b!"final"))
          && (blen pat <? blen rest) && negb (boundary_char (drop (length pat) rest))
       then None
       else Some (0%nat, to_phase, length pat)
     else None);
    (fun i => (S i, to_phase, length pat)) <$> find_sub (newline ++ pat) rest ].

Definition next_marker (rest : bytes) : option cand :=
  fold_left better ((tag_cand rest <$> open_tags) ++ (tag_cand rest <$> end_tags)
                    ++ concat (line_cands rest <$> line_markers)) None.

Definition markers : list bytes :=
  [ b!"<analysis>"; b!"</analysis>"; b!"<think>"; b!"</think>"; b!"<reasoning>";
    b!"</reasoning>"; b!"<final>"; b!"</final>"; b!"### Final"; b!"Final:"; b!"### Answer";
    b!"final:"; b!"final"; b!"### Reasoning"; b!"Reasoning:"; b!"Analysis:"; b!"analysis:";
    b!"analysis"; b!"### Answer"; b!"Answer:" ].

Definition is_char_boundary (s : bytes) (i : nat) : bool :=
  match s !! i with
  | Some b => negb (cont b)
  | None => (i =? length s)%nat
  end.

Definition carry_at (tail : bytes) (carry_len l : nat) : nat :=
  let start := (length tail - l)%nat in
  if negb (is_char_boundary tail start) then carry_len
  else
    let suf := drop start tail in
    if existsb (fun m => starts_with suf m) markers
       || existsb (fun m => starts_with suf (newline ++ m)) markers
    then l else carry_len.

Definition split_tail_for_carry (tail : bytes) : bytes * bytes :=
  let max_len := foldr Nat.max 0%nat (length <$> markers) in
  let max_scan := Nat.min (max_len - 1) (length tail) in
  let carry_len := fold_left (carry_at tail) (seq 1 max_scan) 0%nat in
  if (carry_len =? 0)%nat then (tail, [])
  else let split := (length tail - carry_len)%nat in
       if negb (is_char_boundary tail split) then (tail, [])
       else (take split tail, drop split tail).

Definition emit_seg (p : OutputPhase) (s : bytes) : list (OutputPhase * bytes) :=
  match s with [] => [] | _ => [(p, s)] end.

(** The [while] loop; [rest] is [combined[pos..]]. Every round but the last consumes a
    marker, so the length of the text is enough fuel. *)
Fixpoint push_loop (fuel : nat) (rest : bytes) (p : OutputPhase)
    : list (OutputPhase * bytes) * PhaseSplitter :=
  match fuel, rest with
  | S fuel, _ :: _ =>
      match next_marker rest with
      | None =>
          let '(safe, c) := split_tail_for_carry rest in (emit_seg p safe, mkSplitter p c)
      | Some (rel_pos, to_phase, marker_len) =>
          let seg := emit_seg p (take rel_pos rest) in
          if (length rest <? rel_pos + marker_len)%nat
          then (seg, mkSplitter p (drop rel_pos rest))
          else let '(out, st) := push_loop fuel (drop (rel_pos + marker_len) rest) to_phase in
               (seg ++ out, st)
      end
  | _, _ => ([], mkSplitter p [])
  end.

Definition push (st : PhaseSplitter) (text : bytes) : list (OutputPhase * bytes) * PhaseSplitter :=
  match text with
  | [] => ([], st)
  | _ => let combined := carry st ++ text in push_loop (length combined) combined (phase st)
  end.
End Phase.

(** ** [derive_model_id_from_path] *)
Module ModelId.

(** [Path::file_name] on Unix. *)
Definition path_file_name (path : bytes) : option bytes :=
  let comps := split_byte Byte.x2f path in
  let comps := match comps with
               | c :: cs => filter (fun x => x <> []) [c]
                            ++ filter (fun x => x <> [] /\ x <> b!".") cs
               | [] => [] end in
  match last comps with
  | Some c => if bool_decide (c = b!".") || bool_decide (c = b!"..") then None else Some c
  | None => None
  end.

Fixpoint trim_end_matches_fuel (fuel : nat) (p s : bytes) : bytes :=
  match fuel with
  | O => s
  | S fuel => match str_strip_suffix p s with
              | Some s => trim_end_matches_fuel fuel p s
              | None => s
              end
  end.
Definition trim_end_matches (p s : bytes) : bytes := trim_end_matches_fuel (length s) p s.

(** [str::rfind]: the last occurrence. *)
Definition rfind (p s : bytes) : option nat :=
  (fun i => length s - length p - i)%nat <$> find_sub (rev p) (rev s).

Definition is_digit (b : byte) : bool := byte_in 48 57 b.
Definition all_digits (s : bytes) : bool := negb (bool_decide (s = [])) && forallb is_digit s.

Definition derive_model_id_from_path (model_path : bytes) : bytes :=
  let lower := to_ascii_lowercase model_path in
  if contains_sub b!"llama-3" lower || contains_sub b!"llama3" lower then b!"llama3"
  else
    let file_name := default model_path (path_file_name model_path) in
    let base := trim_end_matches b!".bin" (trim_end_matches b!".gguf" file_name) in
    match rfind b!"-of-" base with
    | None => base
    | Some of_pos =>
        let right := drop (of_pos + 4) base in
        if all_digits right then
          let left_all := take of_pos base in
          match rfind b!"-" left_all with
          | None => base
          | Some left_dash =>
              if all_digits (drop (left_dash + 1) left_all)
              then take left_dash left_all else base
          end
        else base
    end.
End ModelId.

Example derive_shard : ModelId.derive_model_id_from_path b!"/m/qwen-00001-of-00002.gguf" = b!"qwen".
Proof. vm_compute. reflexivity. Qed.
Example derive_plain : ModelId.derive_model_id_from_path b!"qwen2.5.gguf" = b!"qwen2.5".
Proof. vm_compute. reflexivity. Qed.
Example filter_eats_text : Filter.filter_control_tokens b!"Hello<|end|> bye" = b!" bye".
Proof. vm_compute. reflexivity. Qed.
Example splitter_example :
  Phase.push Phase.PhaseSplitter_default b!"<think>why</think>so"
  = ([(Analysis, b!"why"); (Final, b!"so")], Phase.mkSplitter Final []).
Proof. vm_compute. reflexivity. Qed.

(** ** Facts *)
Module EmitFacts.
Import Emit.

Definition no_nul (s : bytes) : bytes := filter (fun b => b <> Byte.x00) s.

Lemma no_nul_app s t : no_nul (s ++ t) = no_nul s ++ no_nul t.
Proof. apply filter_app. Qed.

Lemma utf8_nonempty_valid s : utf8 s -> s <> [] -> valid_up_to s <> 0%nat.
Proof.
  intros Hs Hne. rewrite <- (app_nil_r s), valid_up_to_app by done. cbn.
  destruct s; [done|cbn; lia].
Qed.

(** A held-back prefix of well-formed text is an incomplete character. *)
Lemma held_back_short buf rest : utf8 (buf ++ rest) -> valid_up_to buf = 0%nat ->
  (length buf < 4)%nat \/ buf = [].
Proof.
  intros Hu Hv. destruct buf as [|c buf]; [by right|left].
  inversion Hu as [|s n E Hd E0]; subst s.
  pose proof (utf8_step_max _ _ E) as Hmax.
  destruct (decide (n <= length (c :: buf))%nat) as [Hn|]; [|lia].
  pose proof (utf8_step_unapp _ _ _ E Hn) as E'.
  rewrite (valid_up_to_step _ _ E') in Hv.
  pose proof (utf8_step_pos (c :: buf)) as Hp. rewrite E' in Hp. cbn in Hp. lia.
Qed.

Lemma push_spec buf new rest s buf' :
  valid_up_to buf = 0%nat -> utf8 (buf ++ no_nul new ++ rest) ->
  push_and_take_valid buf new = (s, buf') ->
  s ++ buf' = buf ++ no_nul new /\ utf8 s /\ valid_up_to buf' = 0%nat.
Proof.
  intros Hv Hu. unfold push_and_take_valid. fold (no_nul new). set (b := buf ++ no_nul new).
  unfold from_utf8. destruct (valid_utf8 b) eqn:Hb.
  { intros [= <- <-]. rewrite app_nil_r. apply valid_utf8_iff in Hb. done. }
  destruct (Nat.eqb_spec (valid_up_to b) 0) as [Hz|Hnz].
  - destruct (held_back_short b rest) as [Hs|Hs]; [by unfold b; rewrite <- app_assoc|done| |].
    + rewrite (proj2 (Z.ltb_ge _ _)) by (unfold blen; lia). intros [= <- <-].
      split; [done|]. split; [apply utf8_nil|done].
    + rewrite Hs in Hb. discriminate.
  - intros [= <- <-]. destruct (valid_up_to_spec b) as [Ht Hle].
    rewrite lossy_utf8 by done. rewrite take_drop. split; [done|]. split; [done|].
    pose proof (valid_up_to_app _ (drop (valid_up_to b) b) Ht) as Happ.
    rewrite take_drop, length_take in Happ. lia.
Qed.

Lemma emit_all_spec chunks buf ss buf' :
  valid_up_to buf = 0%nat -> utf8 (buf ++ no_nul (concat chunks)) ->
  emit_all buf chunks = (ss, buf') ->
  concat ss ++ buf' = buf ++ no_nul (concat chunks)
  /\ Forall utf8 ss /\ valid_up_to buf' = 0%nat.
Proof.
  revert buf ss. induction chunks as [|c cs IH]; intros buf ss Hv Hu E; cbn in E.
  { injection E as <- <-. cbn. by rewrite app_nil_r. }
  destruct (push_and_take_valid buf c) as [s b1] eqn:Ep.
  destruct (emit_all b1 cs) as [ss' b2] eqn:Ea. injection E as <- <-.
  cbn in Hu. rewrite no_nul_app in Hu.
  destruct (push_spec _ _ _ _ _ Hv Hu Ep) as (H1 & H2 & H3).
  rewrite app_assoc, <- H1, <- app_assoc in Hu.
  destruct (IH _ _ H3 (utf8_app_inv _ _ Hu H2) Ea) as (H4 & H5 & H6).
  cbn. rewrite no_nul_app, app_assoc, <- H1, <- !app_assoc, H4.
  split; [done|]. split; [by constructor|done].
Qed.

Lemma emit_lossless (chunks ss : list bytes) (buf : bytes) :
  utf8 (no_nul (concat chunks)) -> emit_all [] chunks = (ss, buf) ->
  concat ss = no_nul (concat chunks) /\ Forall utf8 ss /\ buf = [].
Proof.
  intros Hu E. destruct (emit_all_spec chunks [] ss buf eq_refl Hu E) as (H1 & H2 & H3).
  assert (buf = []) as ->.
  { destruct (decide (buf = [])) as [|Hne]; [done|]. exfalso.
    apply (utf8_nonempty_valid buf); [|done..].
    apply (utf8_app_inv (concat ss)).
    - cbn in H1. by rewrite H1.
    - clear -H2. induction H2; cbn; [apply utf8_nil|by apply utf8_app]. }
  rewrite app_nil_r in H1. done.
Qed.

(** However a model's output is cut into tokens, and even inside a character: if it
    is well-formed text, the strings handed on are well-formed, nothing is held back at
    the end, and together they are the output without its NUL bytes. *)
Theorem emit_is_lossless (chunks ss : list bytes) (buf : bytes) :
  utf8 (no_nul (concat chunks)) -> emit_all [] chunks = (ss, buf) ->
  concat ss = no_nul (concat chunks) /\ Forall utf8 ss /\ buf = [].
Proof. apply emit_lossless. Qed.

Lemma emit_is_lossless_witness :
  concat (emit_all [] [[Byte.xe2]; [Byte.x82; Byte.xac; Byte.x00]; b!"5"]).1
  = [Byte.xe2; Byte.x82; Byte.xac] ++ b!"5".
Proof.
  destruct (emit_all [] [[Byte.xe2]; [Byte.x82; Byte.xac; Byte.x00]; b!"5"]) as [ss buf] eqn:E.
  assert (utf8 (no_nul (concat [[Byte.xe2]; [Byte.x82; Byte.xac; Byte.x00]; b!"5"]))) as Hu
    by (apply valid_utf8_iff; vm_compute; reflexivity).
  destruct (emit_is_lossless _ ss buf Hu E) as (H & _).
  cbn [fst]. rewrite H. vm_compute. reflexivity.
Defined.

(** A byte that can start no character blocks the output: nothing is emitted until more
    than 8192 bytes are held back, although everything after it is well-formed. *)
Theorem emit_stalls_on_invalid_byte (held new : bytes) :
  blen held + blen (no_nul new) < 8192 ->
  push_and_take_valid (Byte.xff :: held) new = ([], Byte.xff :: held ++ no_nul new).
Proof.
  intros Hl. unfold push_and_take_valid. fold (no_nul new).
  assert (forall t, valid_up_to (Byte.xff :: t) = 0%nat) as Hv by done.
  cbn [app]. unfold from_utf8, valid_utf8. rewrite Hv. cbn [length Nat.eqb].
  rewrite (proj2 (Z.ltb_ge _ _)); [done|]. unfold blen in *. cbn [length].
  rewrite length_app. lia.
Qed.
End EmitFacts.

Module PhaseFacts.
Import Phase.

(** Generated text as the splitter reads it. *)
Inductive piece := Seg (s : bytes) | Mark (m : bytes * OutputPhase).

Definition piece_text (p : piece) : bytes := match p with Seg s => s | Mark m => m.1 end.
Definition text_of (ps : list piece) : bytes := concat (piece_text <$> ps).

(** The segments under the phase of the last marker before them. *)
Fixpoint segs (p : OutputPhase) (ps : list piece) : list (OutputPhase * bytes) :=
  match ps with
  | [] => []
  | Seg s :: ps => emit_seg p s ++ segs p ps
  | Mark m :: ps => segs m.2 ps
  end.
Fixpoint last_phase (p : OutputPhase) (ps : list piece) : OutputPhase :=
  match ps with
  | [] => p
  | Seg _ :: ps => last_phase p ps
  | Mark m :: ps => last_phase m.2 ps
  end.

Definition all_markers : list (bytes * OutputPhase) := open_tags ++ end_tags ++ line_markers.

Definition known_mark (p : piece) : Prop :=
  match p with Seg _ => True | Mark m => m ∈ all_markers end.

Lemma segs_app p ps qs : segs p (ps ++ qs) = segs p ps ++ segs (last_phase p ps) qs.
Proof.
  revert p. induction ps as [|[s|m] ps IH]; intros p; cbn; [done| |done].
  by rewrite IH, app_assoc.
Qed.

Lemma last_phase_app p ps qs : last_phase p (ps ++ qs) = last_phase (last_phase p ps) qs.
Proof. revert p. induction ps as [|[s|m] ps IH]; intros p; cbn; auto. Qed.

Lemma text_of_app ps qs : text_of (ps ++ qs) = text_of ps ++ text_of qs.
Proof. unfold text_of. by rewrite fmap_app, concat_app. Qed.

Lemma fold_better_elem l b c :
  fold_left better l b = Some c -> b = Some c \/ Some c ∈ l.
Proof.
  revert b. induction l as [|o l IH]; intros b; cbn; [by left|].
  intros [Hb|Hin]%IH; [|right; set_solver].
  unfold better in Hb. destruct o as [x|]; [|by left].
  destruct b as [y|]; [destruct (x.1.1 <? y.1.1)%nat|]; injection Hb as <-;
    rewrite elem_of_cons; auto.
Qed.

(** What [next_marker] returns is an occurrence of a marker. *)
Lemma next_marker_spec rest i ph n :
  next_marker rest = Some (i, ph, n) ->
  exists m, (m, ph) ∈ all_markers /\ n = length m /\ starts_with m (drop i rest) = true.
Proof.
  unfold next_marker. intros [|Hin]%fold_better_elem; [done|].
  assert (forall t, Some (i, ph, n) = tag_cand rest t ->
            exists m, (m, ph) = t /\ n = length m /\ starts_with m (drop i rest) = true) as Htag.
  { intros [m ph'] E. unfold tag_cand in E. symmetry in E.
    apply fmap_Some in E as (j & Hf & [= -> -> ->]). cbn in Hf.
    apply find_sub_Some in Hf as (Hs & _). by exists m. }
  unfold all_markers. rewrite !elem_of_app, !list_elem_of_fmap in Hin.
  destruct Hin as [(t & E & Ht)|[(t & E & Ht)|Hin]].
  1,2: destruct (Htag t E) as (m & <- & -> & Hs); exists m; split; [rewrite !elem_of_app; auto|done].
  apply list_elem_of_In, in_concat in Hin as (l & Hl & Hin).
  apply list_elem_of_In in Hl, Hin.
  apply list_elem_of_fmap in Hl as ([m ph'] & -> & Hm). cbn in Hin.
  exists m. rewrite !elem_of_cons in Hin. destruct Hin as [E|[E|[]%elem_of_nil]].
  - destruct (starts_with m rest) eqn:Hs; [|done].
    destruct (_ && _); [done|]. injection E as -> -> ->.
    split; [rewrite !elem_of_app; auto|done].
  - symmetry in E. apply fmap_Some in E as (j & Hf & [= -> -> ->]).
    apply find_sub_Some in Hf as (Hs & _). split; [rewrite !elem_of_app; auto|]. split; [done|].
    apply starts_with_spec in Hs as [r Hr]. apply starts_with_spec. exists r.
    replace (S j) with (j + 1)%nat by lia. by rewrite <- (drop_drop rest 1 j), Hr.
Qed.

Lemma split_tail_app tail safe c : split_tail_for_carry tail = (safe, c) -> tail = safe ++ c.
Proof.
  unfold split_tail_for_carry.
  destruct (_ =? 0)%nat; [intros [= <- <-]; by rewrite app_nil_r|].
  destruct (negb _); intros [= <- <-]; [by rewrite app_nil_r|by rewrite take_drop].
Qed.

Lemma carry_at_le tail k l : (k <= 12)%nat -> (l <= 12)%nat -> (carry_at tail k l <= 12)%nat.
Proof. intros. unfold carry_at. by destruct (negb _); [|destruct (_ || _)]. Qed.

Lemma split_tail_bounded tail safe c :
  split_tail_for_carry tail = (safe, c) -> (length c <= 12)%nat.
Proof.
  unfold split_tail_for_carry.
  assert (forall ls k, (k <= 12)%nat -> Forall (fun l => l <= 12)%nat ls ->
            (fold_left (carry_at tail) ls k <= 12)%nat) as Hfold.
  { induction ls as [|l ls IH]; intros k Hk Hall; cbn; [done|].
    apply Forall_cons in Hall as [Hl Hall]. apply IH; [|done]. by apply carry_at_le. }
  set (n := Nat.min _ _).
  assert (Forall (fun l => l <= 12)%nat (seq 1 n)) as Hseq.
  { apply Forall_forall. intros x [_ Hx]%elem_of_seq.
    assert (n <= 12)%nat by (unfold n; apply Nat.le_min_l). lia. }
  specialize (Hfold (seq 1 n) 0%nat ltac:(lia) Hseq).
  destruct (_ =? 0)%nat; [intros [= <- <-]; cbn; lia|].
  destruct (negb _); intros [= <- <-]; [cbn; lia|]. rewrite length_drop. lia.
Qed.

Lemma marker_nonempty m : m ∈ all_markers -> (1 <= length m.1)%nat.
Proof.
  intros Hm. assert (Forall (fun m => 1 <= length m.1)%nat all_markers) as Hall.
  { unfold all_markers. repeat constructor. }
  by apply (proj1 (Forall_forall _ _) Hall).
Qed.

Lemma push_loop_spec fuel rest p out st :
  (length rest <= fuel)%nat -> push_loop fuel rest p = (out, st) ->
  exists ps, rest = text_of ps ++ carry st /\ out = segs p ps /\ phase st = last_phase p ps
    /\ Forall known_mark ps /\ (length (carry st) <= 12)%nat.
Proof.
  revert rest p out. induction fuel as [|fuel IH]; intros rest p out Hf E.
  { destruct rest; [|cbn in Hf; lia]. injection E as <- <-. exists []. cbn.
    repeat split; [constructor|lia]. }
  destruct rest as [|c0 rest0].
  { injection E as <- <-. exists []. cbn. repeat split; [constructor|lia]. }
  remember (c0 :: rest0) as rest eqn:Erest.
  assert (push_loop (S fuel) rest p = match next_marker rest with
      | None => let '(safe, c) := split_tail_for_carry rest in (emit_seg p safe, mkSplitter p c)
      | Some (rel_pos, to_phase, marker_len) =>
          let seg := emit_seg p (take rel_pos rest) in
          if (length rest <? rel_pos + marker_len)%nat
          then (seg, mkSplitter p (drop rel_pos rest))
          else let '(out, st) := push_loop fuel (drop (rel_pos + marker_len) rest) to_phase in
               (seg ++ out, st)
      end) as Hunf by (by rewrite Erest).
  rewrite Hunf in E. clear Hunf Erest.
  destruct (next_marker rest) as [[[i ph] n]|] eqn:Hnm.
  - apply next_marker_spec in Hnm as (m & Hm & -> & Hs). cbv zeta in E.
    apply starts_with_spec in Hs as [r Hr].
    assert (i + length m <= length rest)%nat as Hle.
    { assert (length (drop i rest) = length m + length r)%nat as Hlen
        by (rewrite Hr, length_app; done).
      pose proof (marker_nonempty _ Hm) as Hpos. cbn in Hpos. rewrite length_drop in Hlen. lia. }
    rewrite (proj2 (Nat.ltb_ge _ _)) in E by done.
    destruct (push_loop fuel (drop (i + length m) rest) ph) as [out' st'] eqn:El.
    injection E as <- <-.
    pose proof (marker_nonempty _ Hm) as Hpos. cbn in Hpos.
    assert (length (drop (i + length m) rest) <= fuel)%nat as Hdl by (rewrite length_drop; lia).
    destruct (IH _ _ _ Hdl El) as (ps & H1 & H2 & H3 & H4 & H5).
    exists (Seg (take i rest) :: Mark (m, ph) :: ps). split.
    + unfold text_of. rewrite !fmap_cons. cbn [concat piece_text fst].
      fold (text_of ps). rewrite <- !app_assoc, <- H1.
      rewrite <- (take_drop i rest) at 1. f_equal.
      rewrite <- drop_drop, Hr, drop_app_length. done.
    + cbn. rewrite H2. split; [done|]. split; [done|]. split; [|done].
      constructor; [done|]. by constructor.
  - destruct (split_tail_for_carry rest) as [safe c] eqn:Es. injection E as <- <-.
    exists [Seg safe]. cbn. rewrite !app_nil_r.
    split; [by apply split_tail_app|]. do 2 (split; [done|]).
    split; [repeat constructor|]. by eapply split_tail_bounded.
Qed.

(** The splitter over the successive pieces of an answer. *)
Fixpoint push_all (st : PhaseSplitter) (chunks : list bytes)
    : list (OutputPhase * bytes) * PhaseSplitter :=
  match chunks with
  | [] => ([], st)
  | c :: cs => let '(o1, st) := push st c in
               let '(o2, st) := push_all st cs in (o1 ++ o2, st)
  end.

Lemma push_all_spec chunks st out st' :
  (length (carry st) <= 12)%nat -> push_all st chunks = (out, st') ->
  exists ps, carry st ++ concat chunks = text_of ps ++ carry st'
    /\ out = segs (phase st) ps /\ phase st' = last_phase (phase st) ps
    /\ Forall known_mark ps /\ (length (carry st') <= 12)%nat.
Proof.
  revert st out. induction chunks as [|c cs IH]; intros st out Hc E; cbn in E.
  { injection E as <- <-. exists []. cbn. rewrite app_nil_r. repeat split; [constructor|done]. }
  destruct (push st c) as [o1 st1] eqn:Ep. destruct (push_all st1 cs) as [o2 st2] eqn:Ea.
  injection E as <- <-.
  assert (exists ps, carry st ++ c = text_of ps ++ carry st1 /\ o1 = segs (phase st) ps
            /\ phase st1 = last_phase (phase st) ps /\ Forall known_mark ps
            /\ (length (carry st1) <= 12)%nat) as (ps & P1 & P2 & P3 & P4 & P5).
  { unfold push in Ep. destruct c as [|x c].
    - injection Ep as <- <-. exists []. cbn. rewrite app_nil_r. repeat split; [constructor|done].
    - by apply push_loop_spec in Ep. }
  destruct (IH st1 o2 P5 Ea) as (qs & Q1 & Q2 & Q3 & Q4 & Q5).
  exists (ps ++ qs). cbn. rewrite text_of_app, <- app_assoc, <- Q1, !app_assoc, P1.
  rewrite segs_app, last_phase_app, <- P3, P2, Q2, Q3.
  repeat split; [by apply Forall_app|done].
Qed.

(** Nothing a model writes is lost or invented: the text pushed through the splitter
    is a sequence of segments and known markers followed by at most 12 bytes still held
    back, and what comes out is exactly the segments, in order, each under the phase the
    last marker before it switched to. *)
Theorem splitter_partitions_text (chunks : list bytes) (out : list (OutputPhase * bytes))
    (st : PhaseSplitter) :
  push_all PhaseSplitter_default chunks = (out, st) ->
  exists ps, concat chunks = text_of ps ++ carry st /\ out = segs Final ps
    /\ phase st = last_phase Final ps /\ Forall known_mark ps /\ (length (carry st) <= 12)%nat.
Proof. intros E. apply push_all_spec in E; [exact E|cbn; lia]. Qed.

Lemma splitter_partitions_text_witness :
  exists ps, b!"<thi" ++ b!"nk>why</think>so" = text_of ps ++ []
    /\ [(Analysis, b!"why"); (Final, b!"so")] = segs Final ps.
Proof.
  destruct (splitter_partitions_text [b!"<thi"; b!"nk>why</think>so"]
    [(Analysis, b!"why"); (Final, b!"so")] (mkSplitter Final [])
    ltac:(vm_compute; reflexivity)) as (ps & H1 & H2 & _).
  exists ps. cbn [concat carry] in H1. rewrite app_nil_r in H1. split; [exact H1|exact H2].
Defined.

(** What comes out depends on how the text was cut: a chunk that begins with the word
    "final" is read as a line marker although it is in the middle of a line. *)
Theorem splitter_depends_on_cuts :
  concat (push_all PhaseSplitter_default [b!"the final score"]).1.*2 = b!"the final score"
  /\ concat (push_all PhaseSplitter_default [b!"the "; b!"final score"]).1.*2 = b!"the  score".
Proof. split; vm_compute; reflexivity. Qed.
End PhaseFacts.
