(* ===== verification/DeviceStream.v ===== *)
(** * Streaming an answer from a device to the HTTP client

    [ClientWorker::stream_inference_task_to_server] of [gpuf-c/src/handle/handle_tcp.rs]:
    the loop that filters, splits and batches the pieces a model generates into result
    chunks; composed with [Scheduler], which turns the chunks into the events of the HTTP
    stream. The engine is the sequence of pieces it yields. *)

From S2P Require Import Prelude Wire Text Output Ids Scheduler Streams.
From Stdlib Require Import ZArith Lia String.
From Stdlib Require Import Strings.Byte.
From stdpp Require Import base list gmap.

Local Open Scope Z_scope.
Import Filter Phase PhaseFacts.

(** ** The loop *)

(** What the loop sees next: a piece, an engine error, or the cancellation of its task.
    The end of the list is the end of the engine's stream. *)
Inductive Input := Piece (p : bytes) | EngineError (e : bytes) | Cancelled.

Record LoopState := mkLoop {
  seq : Z; buf : bytes; buf_phase : OutputPhase;
  completion_tokens : Z; analysis_tokens : Z; final_tokens : Z;
  splitter : PhaseSplitter; sent : list CommandV1 }.

Definition loop_start : LoopState :=
  mkLoop 0 [] Unknown 0 0 0 PhaseSplitter_default [].

Section Loop.
(** [fails n]: whether the [n]-th write on the control connection fails. *)
Context (task_id : bytes) (prompt_tokens : Z) (stream_chunk_bytes : Z) (fails : nat -> bool).

Definition max_bytes : Z := Z.max stream_chunk_bytes 1.

Definition send_command (c : CommandV1) (s : LoopState) : result LoopState :=
  if fails (length (sent s)) then Err b!"broken pipe"
  else Ok (mkLoop (seq s) (buf s) (buf_phase s) (completion_tokens s) (analysis_tokens s)
             (final_tokens s) (splitter s) (sent s ++ [c])).

Definition chunk (s : LoopState) (delta : bytes) (phase : OutputPhase) (done : bool) : CommandV1 :=
  InferenceResultChunk task_id (seq s) delta phase done None prompt_tokens
    (completion_tokens s) (analysis_tokens s) (final_tokens s).

(** Send the batch, empty it and count it. *)
Definition flush (s : LoopState) : result LoopState :=
  let? s' := send_command (chunk s (buf s) (buf_phase s) false) s in
  Ok (mkLoop (wrap 32 (seq s' + 1)) [] (buf_phase s') (completion_tokens s')
        (analysis_tokens s') (final_tokens s') (splitter s') (sent s')).

Definition set_buf (b : bytes) (p : OutputPhase) (s : LoopState) : LoopState :=
  mkLoop (seq s) b p (completion_tokens s) (analysis_tokens s) (final_tokens s)
    (splitter s) (sent s).

Definition count_seg (p : OutputPhase) (s : LoopState) : LoopState :=
  mkLoop (seq s) (buf s) (buf_phase s) (completion_tokens s)
    (match p with Analysis => sat_add 32 (analysis_tokens s) 1 | _ => analysis_tokens s end)
    (match p with Final => sat_add 32 (final_tokens s) 1 | _ => final_tokens s end)
    (splitter s) (sent s).

Definition seg_step (s : LoopState) (ps : OutputPhase * bytes) : result LoopState :=
  let '(phase, seg) := ps in
  if bool_decide (seg = []) then Ok s
  else
    let s := count_seg phase s in
    let? s := if bool_decide (buf s = []) then Ok (set_buf (buf s) phase s)
              else if negb (bool_decide (buf_phase s = phase)) then
                let? s := flush s in Ok (set_buf (buf s) phase s)
              else Ok s in
    let s := set_buf (buf s ++ seg) (buf_phase s) s in
    if max_bytes <=? blen (buf s) then flush s else Ok s.

Fixpoint seg_steps (s : LoopState) (l : list (OutputPhase * bytes)) : result LoopState :=
  match l with
  | [] => Ok s
  | x :: l => let? s := seg_step s x in seg_steps s l
  end.

Definition piece_step (piece : bytes) (s : LoopState) : result LoopState :=
  let filtered := filter_control_tokens piece in
  let '(segs, sp) := push (splitter s) filtered in
  seg_steps (mkLoop (seq s) (buf s) (buf_phase s) (sat_add 32 (completion_tokens s) 1)
               (analysis_tokens s) (final_tokens s) sp (sent s)) segs.

Fixpoint stream_loop (inputs : list Input) (s : LoopState) : result LoopState :=
  match inputs with
  | [] => Ok s
  | Cancelled :: _ => Ok s
  | EngineError e :: _ => Err e
  | Piece p :: inputs => let? s := piece_step p s in stream_loop inputs s
  end.

Definition stream_inference_task_to_server (inputs : list Input) : result (list CommandV1) :=
  let? s := stream_loop inputs loop_start in
  let? s := if bool_decide (buf s = []) then Ok s else flush s in
  let? s := send_command (chunk s [] (phase (splitter s)) true) s in
  Ok (sent s).
End Loop.

(** The chunk as the server's session hands it to the scheduler. *)
Definition as_chunk (c : CommandV1) : option Chunk :=
  match c with
  | InferenceResultChunk _ _ delta phase done error p c a f =>
      Some (mkChunk delta phase done error p c a f)
  | _ => None
  end.

(** ** Facts *)
Section Facts.
Context (task_id : bytes) (prompt_tokens : Z) (stream_chunk_bytes : Z) (fails : nat -> bool).

Abbreviation flush' := (flush task_id prompt_tokens fails).
Abbreviation seg_step' := (seg_step task_id prompt_tokens stream_chunk_bytes fails).
Abbreviation seg_steps' := (seg_steps task_id prompt_tokens stream_chunk_bytes fails).

(** Text with the phase of every byte. *)
Definition tagged (l : list (OutputPhase * bytes)) : list (OutputPhase * byte) :=
  concat ((fun ps : OutputPhase * bytes => pair ps.1 <$> ps.2) <$> l).

Lemma tagged_app l k : tagged (l ++ k) = tagged l ++ tagged k.
Proof. unfold tagged. by rewrite fmap_app, concat_app. Qed.

(** The batches sent so far are open chunks of the task with its prompt count. *)
Definition batch_of (c : CommandV1) : option (OutputPhase * bytes) :=
  match c with
  | InferenceResultChunk t _ delta phase false None p _ _ _ =>
      if bool_decide (t = task_id /\ p = prompt_tokens /\ delta <> [])
      then Some (phase, delta) else None
  | _ => None
  end.

Definition batches (l : list CommandV1) (bs : list (OutputPhase * bytes)) : Prop :=
  mapM batch_of l = Some bs.

Lemma batches_snoc l bs c b :
  batches l bs -> batch_of c = Some b -> batches (l ++ [c]) (bs ++ [b]).
Proof.
  unfold batches. rewrite !mapM_Some. intros H1 H2. apply Forall2_app; [done|]. by repeat constructor.
Qed.

(** [T] is what has been split off so far. *)
Definition loop_inv (T : list (OutputPhase * byte)) (s : LoopState) : Prop :=
  exists bs, batches (sent s) bs
    /\ T = tagged bs ++ tagged [(buf_phase s, buf s)].

Lemma flush_inv T s s' :
  loop_inv T s -> buf s <> [] -> flush' s = Ok s' ->
  loop_inv T s' /\ buf s' = [] /\ splitter s' = splitter s
  /\ completion_tokens s' = completion_tokens s.
Proof.
  intros (bs & Hb & ->) Hne E. apply rbind_Ok in E as (s1 & E1 & [= <-]).
  unfold send_command in E1. destruct (fails _); [done|]. injection E1 as <-. cbn [sent buf_phase buf splitter completion_tokens].
  split; [|done]. exists (bs ++ [(buf_phase s, buf s)]). cbn [sent buf_phase buf]. split.
  - apply batches_snoc; [done|]. cbn. by rewrite bool_decide_true.
  - rewrite tagged_app. change (tagged [(buf_phase s, [])]) with (@nil (OutputPhase * byte)).
    by rewrite app_nil_r.
Qed.

Lemma tagged_single p x : tagged [(p, x)] = pair p <$> x.
Proof. unfold tagged. cbn. by rewrite app_nil_r. Qed.

Lemma seg_step_inv T s ps s' :
  loop_inv T s -> seg_step' s ps = Ok s' ->
  loop_inv (T ++ tagged [ps]) s' /\ splitter s' = splitter s
  /\ completion_tokens s' = completion_tokens s.
Proof.
  destruct ps as [ph seg]. unfold seg_step. intros Hinv E.
  case_bool_decide as Hseg.
  { injection E as <-. subst seg. change (tagged [(ph, [])]) with (@nil (OutputPhase * byte)).
    by rewrite app_nil_r. }
  apply rbind_Ok in E as (s1 & E1 & E).
  assert (loop_inv T s1 /\ buf_phase s1 = ph /\ splitter s1 = splitter s
          /\ completion_tokens s1 = completion_tokens s) as (Hi & Hp & Hs & Hc).
  { case_bool_decide as Hbuf; cbn in Hbuf.
    - injection E1 as <-. split; [|done]. destruct Hinv as (bs & Hb & ->). exists bs.
      cbn [sent buf_phase buf set_buf count_seg]. rewrite !tagged_single, Hbuf. done.
    - case_bool_decide as Hph; cbn in E1, Hph; [by injection E1 as <-|].
      apply rbind_Ok in E1 as (s2 & E2 & [= <-]).
      destruct (flush_inv T (count_seg ph s) s2) as (Hi & Hb2 & Hs & Hc);
        [by destruct Hinv as (bs & ? & ?); exists bs|done|done|].
      split; [|done]. destruct Hi as (bs & Hb & ->). exists bs.
      cbn [sent buf_phase buf set_buf]. by rewrite !tagged_single, Hb2. }
  assert (loop_inv (T ++ tagged [(ph, seg)]) (set_buf (buf s1 ++ seg) (buf_phase s1) s1)) as Hi2.
  { destruct Hi as (bs & Hb & ->). exists bs. split; [done|]. cbn [buf_phase buf set_buf].
    rewrite !tagged_single, fmap_app, Hp, app_assoc. done. }
  destruct (max_bytes _ <=? _); [|by injection E as <-].
  apply (flush_inv _ _ _ Hi2) in E as (? & _ & -> & ->); [done|].
  cbn. destruct (buf s1); [done|]. done.
Qed.

Lemma seg_steps_inv T s l s' :
  loop_inv T s -> seg_steps' s l = Ok s' ->
  loop_inv (T ++ tagged l) s' /\ splitter s' = splitter s
  /\ completion_tokens s' = completion_tokens s.
Proof.
  revert T s. induction l as [|x l IH]; intros T s Hi E; cbn [seg_steps] in E.
  { injection E as <-. change (tagged []) with (@nil (OutputPhase * byte)).
    by rewrite app_nil_r. }
  apply rbind_Ok in E as (s1 & E1 & E2).
  destruct (seg_step_inv _ _ _ _ Hi E1) as (Hi1 & Hs1 & Hc1).
  destruct (IH _ _ Hi1 E2) as (Hi2 & -> & ->).
  replace (T ++ tagged (x :: l)) with ((T ++ tagged [x]) ++ tagged l); [done|].
  rewrite <- app_assoc, <- tagged_app. done.
Qed.

Lemma stream_loop_inv T s (pieces : list bytes) s' :
  loop_inv T s ->
  stream_loop task_id prompt_tokens stream_chunk_bytes fails (Piece <$> pieces) s = Ok s' ->
  let '(out, sp) := push_all (splitter s) (filter_control_tokens <$> pieces) in
  loop_inv (T ++ tagged out) s' /\ splitter s' = sp
  /\ (in_u 32 (completion_tokens s) ->
      completion_tokens s' = Z.min (completion_tokens s + blen pieces) (2 ^ 32 - 1)).
Proof.
  revert T s. induction pieces as [|p ps IH]; intros T s Hi E;
    cbn [fmap list_fmap stream_loop push_all] in *.
  { injection E as <-. cbn. rewrite app_nil_r. split; [done|]. split; [done|].
    unfold in_u, blen. cbn. lia. }
  apply rbind_Ok in E as (s1 & E1 & E2). unfold piece_step in E1.
  destruct (push (splitter s) (filter_control_tokens p)) as [segs sp] eqn:Ep.
  apply (seg_steps_inv T) in E1 as (Hi1 & Hs1 & Hc1); [|by destruct Hi as (bs & ? & ?); exists bs].
  specialize (IH _ _ Hi1 E2). cbn in Hs1, Hc1. rewrite Hs1 in IH.
  destruct (push_all sp _) as [out2 sp2]. destruct IH as (Hi2 & Hs2 & Hc2).
  rewrite tagged_app, app_assoc. split; [done|]. split; [done|]. intros Hin.
  rewrite Hc2, Hc1; unfold sat_add, in_u, blen in *; cbn [length]; lia.
Qed.

Lemma batches_chunks l bs t :
  batches l bs ->
  Forall is_open (omap as_chunk l)
  /\ concat (delta_event t <$> omap as_chunk l) = (fun b => (t, Delta b.2 b.1)) <$> bs.
Proof.
  unfold batches. rewrite mapM_Some. induction 1 as [|c b l bs Hc Hl [IH1 IH2]]; [done|].
  destruct c; cbn in Hc; try done. destruct done, error; try done.
  case_bool_decide as Hd; [|done]. injection Hc as <-. destruct Hd as (_ & _ & Hne).
  cbn. split; [by constructor|]. unfold delta_event at 1. cbn.
  rewrite bool_decide_false by done. cbn. by rewrite IH2.
Qed.

Lemma finish_inv T s s1 l :
  loop_inv T s ->
  (if bool_decide (buf s = []) then Ok s else flush' s) = Ok s1 ->
  (let? s := send_command fails (chunk task_id prompt_tokens s1 [] (phase (splitter s1)) true) s1
   in Ok (sent s)) = Ok l ->
  completion_tokens s1 = completion_tokens s
  /\ exists bs, batches (sent s1) bs /\ tagged bs = T
     /\ l = sent s1 ++ [chunk task_id prompt_tokens s1 [] (phase (splitter s1)) true].
Proof.
  intros Hi E1 E2. apply rbind_Ok in E2 as (s2 & E2 & [= <-]).
  unfold send_command in E2. destruct (fails _); [done|]. injection E2 as <-.
  cbn [sent]. revert E1. case_bool_decide as Hb; intros E1.
  - injection E1 as <-. split; [done|]. destruct Hi as (bs & Hbs & ->). exists bs.
    split; [done|]. split; [|done]. rewrite tagged_single, Hb. cbn. by rewrite app_nil_r.
  - apply (flush_inv T) in E1 as ((bs & Hbs & ->) & Hb1 & _ & Hc); [|done..].
    split; [done|]. exists bs. split; [done|]. split; [|done].
    rewrite tagged_single, Hb1. cbn. by rewrite app_nil_r.
Qed.
End Facts.

(** ** A stream whose writes succeed *)
Section Total.
Context (t : bytes) (prompt_tokens stream_chunk_bytes : Z).

Abbreviation ok := (fun _ : nat => false).

Lemma flush_total s : exists s', flush t prompt_tokens ok s = Ok s'.
Proof. by eexists. Qed.

Lemma seg_step_total s ps : exists s', seg_step t prompt_tokens stream_chunk_bytes ok s ps = Ok s'.
Proof.
  destruct ps as [p seg]. unfold seg_step.
  destruct (bool_decide (seg = [])); [by eexists|].
  match goal with |- context [rbind ?x _] =>
    assert (exists s1, x = Ok s1) as [s1 ->] by (repeat case_match; by eexists) end.
  cbn [rbind]. destruct (_ <=? _); [apply flush_total|by eexists].
Qed.

Lemma seg_steps_total l s : exists s', seg_steps t prompt_tokens stream_chunk_bytes ok s l = Ok s'.
Proof.
  revert s. induction l as [|x l IH]; intros s; cbn [seg_steps]; [by eexists|].
  destruct (seg_step_total s x) as [s1 ->]. apply IH.
Qed.

Lemma stream_loop_total (pieces : list bytes) s :
  exists s', stream_loop t prompt_tokens stream_chunk_bytes ok (Piece <$> pieces) s = Ok s'.
Proof.
  revert s. induction pieces as [|p ps IH]; intros s; cbn [fmap list_fmap stream_loop]; [by eexists|].
  unfold piece_step. destruct (push _ _) as [segs sp].
  match goal with |- context [seg_steps _ _ _ _ ?x _] => destruct (seg_steps_total segs x) as [s1 ->] end.
  apply IH.
Qed.

(** The last chunk of an answer. *)
Definition final_of (c : CommandV1) : Prop :=
  exists seq phase error p n a f, c = InferenceResultChunk t seq [] phase true error p n a f.

(** A chunk of the answer that is not the last. *)
Definition open_of (c : CommandV1) : Prop :=
  exists seq delta phase p n a f, c = InferenceResultChunk t seq delta phase false None p n a f.

Lemma batches_open l bs : batches t prompt_tokens l bs -> Forall open_of l.
Proof.
  unfold batches. rewrite mapM_Some. induction 1 as [|c b l bs Hc _ IH]; constructor; [|done].
  destruct c; cbn in Hc; try done. destruct done, error; try done.
  case_bool_decide as Hd; [|done]. destruct Hd as (-> & _). by repeat eexists.
Qed.

Lemma stream_total (pieces : list bytes) :
  exists opens fin,
    stream_inference_task_to_server t prompt_tokens stream_chunk_bytes ok (Piece <$> pieces)
      = Ok (opens ++ [fin])
    /\ Forall open_of opens /\ final_of fin.
Proof.
  destruct (stream_loop_total pieces loop_start) as [s Es].
  assert (loop_inv t prompt_tokens [] loop_start) as H0 by (by exists []).
  pose proof (stream_loop_inv t prompt_tokens stream_chunk_bytes ok [] loop_start pieces s H0 Es) as Hl.
  destruct (push_all _ _) as [out sp]. destruct Hl as (Hinv & _).
  unfold stream_inference_task_to_server. rewrite Es. cbn [rbind].
  assert (exists s1, (if bool_decide (buf s = []) then Ok s else flush t prompt_tokens ok s) = Ok s1)
    as [s1 E1] by (case_bool_decide; by eexists).
  rewrite E1.
  destruct (finish_inv t prompt_tokens ok _ _ s1 _ Hinv E1 eq_refl) as (_ & bs & Hb & _ & _).
  exists (sent s1), (chunk t prompt_tokens s1 [] (phase (splitter s1)) true).
  split; [done|]. split; [by eapply batches_open|]. by repeat eexists.
Qed.

Lemma cancelled_stream :
  stream_inference_task_to_server t prompt_tokens stream_chunk_bytes ok [Cancelled]
    = Ok [InferenceResultChunk t 0 [] Final true None prompt_tokens 0 0 0].
Proof. done. Qed.
End Total.

Definition delta_pairs (evs : list StreamEvent) : list (OutputPhase * bytes) :=
  omap (fun e => match e with Delta d p => Some (p, d) | _ => None end) evs.

(** The server's events for a device's answer. *)
Lemma answer_events (t : bytes) (pieces : list bytes) (l : list CommandV1)
    (prompt_tokens batch now : Z) (fails : nat -> bool) (w : World) :
  stream_inference_task_to_server t prompt_tokens batch fails (Piece <$> pieces) = Ok l ->
  t ∈ pending_streams w -> stream_usages w !! t = None ->
  exists evs u,
    events (feed now t (omap as_chunk l) w)
      = events w ++ (pair t <$> evs ++ [Finish (Some u); EvDone])
    /\ evs = (fun ps => Delta ps.2 ps.1) <$> delta_pairs evs
    /\ tagged (delta_pairs evs)
       = tagged (push_all PhaseSplitter_default (filter_control_tokens <$> pieces)).1
    /\ u_prompt_tokens u = prompt_tokens
    /\ u_completion_tokens u = Z.min (blen pieces) (2 ^ 32 - 1)
    /\ t ∉ pending_streams (feed now t (omap as_chunk l) w).
Proof.
  intros E Ht Hu. unfold stream_inference_task_to_server in E.
  apply rbind_Ok in E as (s & E1 & E). apply rbind_Ok in E as (s1 & E2 & E3).
  assert (loop_inv t prompt_tokens [] loop_start) as H0 by (by exists []).
  pose proof (stream_loop_inv t prompt_tokens batch fails [] loop_start pieces s H0 E1) as Hl.
  destruct (push_all (splitter loop_start) _) as [out sp] eqn:Eo.
  destruct Hl as (Hinv & Hsp & Hct). cbn [app] in Hinv.
  destruct (finish_inv t prompt_tokens fails _ _ _ _ Hinv E2 E3) as (Hc1 & bs & Hbs & Htag & ->).
  destruct (batches_chunks t prompt_tokens _ _ t Hbs) as (Hopen & Hev).
  rewrite omap_app. cbn [omap list_omap as_chunk chunk].
  rewrite stream_run by done. rewrite Hev.
  exists ((fun b => Delta b.2 b.1) <$> bs). eexists.
  assert (delta_pairs ((fun b => Delta b.2 b.1) <$> bs) = bs) as Hdp.
  { clear. unfold delta_pairs. induction bs as [|[p d] bs IH]; [done|]. cbn. by f_equal. }
  rewrite Hdp. split.
  - cbn. rewrite fmap_app, <- list_fmap_compose. reflexivity.
  - split; [done|]. split.
    + change (splitter loop_start) with PhaseSplitter_default in Eo. rewrite Eo. exact Htag.
    + cbn. split; [done|]. split; [|set_solver].
      rewrite Hc1, Hct by (cbv; split; congruence). done.
Qed.

(** [C1] From the device's engine to the HTTP client: when a device streams the pieces of
    an answer to a registered task, the HTTP stream receives only deltas, then one
    [Finish] carrying the prompt's token count and the number of pieces, then [Done]; the
    text of the deltas, with the phase of every byte, is exactly what filtering and
    splitting the pieces yields, however it was batched. *)
Theorem answer_reaches_client (t : bytes) (pieces : list bytes) (l : list CommandV1)
    (prompt_tokens batch now : Z) (fails : nat -> bool) (w : World) :
  stream_inference_task_to_server t prompt_tokens batch fails (Piece <$> pieces) = Ok l ->
  t ∈ pending_streams w -> stream_usages w !! t = None ->
  exists evs u,
    events (feed now t (omap as_chunk l) w)
      = events w ++ (pair t <$> evs ++ [Finish (Some u); EvDone])
    /\ evs = (fun ps => Delta ps.2 ps.1) <$> delta_pairs evs
    /\ tagged (delta_pairs evs)
       = tagged (push_all PhaseSplitter_default (filter_control_tokens <$> pieces)).1
    /\ u_prompt_tokens u = prompt_tokens
    /\ u_completion_tokens u = Z.min (blen pieces) (2 ^ 32 - 1)
    /\ t ∉ pending_streams (feed now t (omap as_chunk l) w).
Proof. apply answer_events. Qed.

Lemma answer_reaches_client_witness :
  exists l evs u,
    stream_inference_task_to_server b!"t" 5 4 (fun _ => false)
      (Piece <$> [b!"<think>"; b!"so"; b!"</think>"; b!"yes!"]) = Ok l
    /\ events (feed 0 b!"t" (omap as_chunk l) (set_streams {[b!"t"]} (scheduler_new ∅)))
       = pair b!"t" <$> evs ++ [Finish (Some u); EvDone].
Proof.
  assert (exists l, stream_inference_task_to_server b!"t" 5 4 (fun _ => false)
      (Piece <$> [b!"<think>"; b!"so"; b!"</think>"; b!"yes!"]) = Ok l) as [l E]
    by (eexists; vm_compute; reflexivity).
  destruct (answer_reaches_client b!"t" [b!"<think>"; b!"so"; b!"</think>"; b!"yes!"] l 5 4 0
    (fun _ => false) (set_streams {[b!"t"]} (scheduler_new ∅)) E (elem_of_singleton_2 _ _ eq_refl)
    (lookup_empty _)) as (evs & u & H & _).
  exists l, evs, u. split; [exact E|exact H].
Defined.

(** The splitter's carry is not sent when the stream ends: an answer that ends with a
    letter or a line break that could begin a marker loses it. *)
Theorem stream_end_drops_carry :
  (tagged <$> ((fun l => delta_pairs ((fun c => match as_chunk c with
      | Some k => Delta (c_delta k) (c_phase k) | None => EvDone end) <$> l))
    <$> match stream_inference_task_to_server b!"t" 5 4 (fun _ => false)
          (Piece <$> [b!"Option"; b!" A"]) with Ok l => Some l | Err _ => None end))
  = Some (tagged [(Final, b!"Option ")]).
Proof. vm_compute. reflexivity. Qed.
