(* ===== verification/Agent.v ===== *)
(** * Public requests and proxy connections ([gpuf-s/src/handle/handle_agent.rs])

    A user's HTTP request on the public port is read until its model is known, the caller
    authenticated, a device serving the model is asked for a proxy connection, and the
    request is parked until that connection arrives and is joined with it. The [http],
    [serde_json], [twoway] and [hex] crates are parameters; the token table is the result of
    the query. *)

From S2P Require Import Prelude Wire Text Ids Scheduler.
From Stdlib Require Import ZArith Lia String.
From Stdlib Require Import Strings.Byte.
From stdpp Require Import base list gmap.

Local Open Scope Z_scope.
Import Framing.

(** ** Crates *)

(** [HeaderName]/[HeaderValue] parsing, [HeaderValue::to_str], the [model] string of a JSON
    document, substring search. *)
Class HttpCrates := {
  HeaderName_from_str : bytes -> option bytes;
  HeaderValue_from_str : bytes -> option bytes;
  HeaderValue_to_str : bytes -> option bytes;
  json_model : bytes -> option bytes;
  find_bytes : bytes -> bytes -> option nat }.

(** What the crates document: substring search finds the first occurrence. *)
Class HttpCratesLaws (K : HttpCrates) : Prop := {
  find_bytes_first hay needle : find_bytes hay needle = find_sub needle hay }.

(** ** Reading a request *)

(** [str::to_lowercase]. Only ASCII letters matter here: no other letter's lower case occurs
    in a header name or media type the code looks for. *)
Definition to_lowercase (s : bytes) : bytes := to_ascii_lowercase s.

(** What one [read] of at most 1024 bytes returns; [[]] is the end of the stream. *)
Inductive Read := Got (b : bytes) | WouldBlock | ReadErr.

Record ChatRequestInfo := mkChatInfo {
  cri_model : option bytes; cri_request_id : option bytes; cri_api_key : option bytes;
  cri_content_type : option bytes }.

Definition crlf2 : bytes := [Byte.x0d; Byte.x0a; Byte.x0d; Byte.x0a].
Definition colon : byte := Byte.x3a.
Definition quote : byte := Byte.x22.

Section Requests.
Context `{K : HttpCrates}.

Definition parse_header (headers : gmap bytes bytes) (line : bytes) : gmap bytes bytes :=
  let line := trim line in
  match split_once colon line with
  | None => headers
  | Some (name, value) =>
      match HeaderName_from_str (to_lowercase (trim name)),
            HeaderValue_from_str (trim value) with
      | Some n, Some v => <[n := v]> headers
      | _, _ => headers
      end
  end.

Definition parse_headers (data : bytes) : result (gmap bytes bytes) :=
  match from_utf8 data with
  | None => Err b!"Invalid UTF-8 in headers"
  | Some s =>
      match lines s with
      | [] => Err b!"Empty request"
      | _ :: ls => Ok (fold_left parse_header ls ∅)
      end
  end.

(** The scan that stands in for JSON while the body is incomplete. *)
Definition scan_model (s : bytes) : option bytes :=
  match find_sub ([quote] ++ b!"model" ++ [quote; colon]) s with
  | Some start =>
      let remaining := drop (start + 8) s in
      match find_sub [quote] remaining with
      | Some e => Some (take e remaining)
      | None => None
      end
  | None => None
  end.

Definition try_parse_model_from_slice (data : bytes) : option bytes :=
  match json_model data with
  | Some m => Some m
  | None => scan_model (from_utf8_lossy data)
  end.

(** The body loop: [buffer.truncate(body_start + n)], then the new bytes. *)
Definition body_after_read (body_start : nat) (buffer new : bytes) : bytes :=
  take (body_start + length new) buffer ++ new.

Fixpoint read_model_loop (reads : list Read) (body_start : nat) (buffer : bytes)
    : result (option bytes) * bytes * list Read :=
  match reads with
  | [] => (Ok None, buffer, [])
  | Got [] :: rs => (Ok None, buffer, rs)
  | (WouldBlock | ReadErr) :: rs => (Err b!"io error", buffer, rs)
  | Got new :: rs =>
      let buffer := body_after_read body_start buffer new in
      match try_parse_model_from_slice (drop body_start buffer) with
      | Some model => (Ok (Some model), buffer, rs)
      | None => read_model_loop rs body_start buffer
      end
  end.

Definition read_model_from_json_body (reads : list Read) (body_start : nat) (buffer : bytes) :=
  match (if (body_start <? length buffer)%nat
         then try_parse_model_from_slice (drop body_start buffer) else None) with
  | Some model => (Ok (Some model), buffer, reads)
  | None => read_model_loop reads body_start buffer
  end.

(** The header loop: [Ok (headers, body_start)] once the blank line has been read. *)
Fixpoint read_headers (reads : list Read) (buffer : bytes)
    : result (option (gmap bytes bytes * nat)) * bytes * list Read :=
  if negb (blen buffer <? 64 * 1024) then (Ok None, buffer, reads)
  else match reads with
  | [] => (Ok None, buffer, [])
  | Got [] :: rs => (Ok None, buffer, rs)
  | WouldBlock :: rs => (Ok None, buffer, rs)
  | ReadErr :: rs => (Err b!"io error", buffer, rs)
  | Got new :: rs =>
      let buffer := buffer ++ new in
      match find_bytes buffer crlf2 with
      | Some pos =>
          (match parse_headers (take (pos + 4) buffer) with
           | Ok h => Ok (Some (h, (pos + 4)%nat))
           | Err e => Err e
           end, buffer, rs)
      | None => read_headers rs buffer
      end
  end.

Definition header (h : gmap bytes bytes) (name : bytes) : option bytes :=
  h !! name ≫= HeaderValue_to_str.

Definition content_type_of (h : gmap bytes bytes) : option bytes :=
  match header h b!"content-type" with
  | None => None
  | Some s =>
      let ct := to_lowercase (trim (default [] (head (split_byte Byte.x3b s)))) in
      if bool_decide (ct = []) then None else Some ct
  end.

Definition extract_chat_info (reads : list Read) (buffer : bytes)
    : result ChatRequestInfo * bytes * list Read :=
  match read_headers reads buffer with
  | (Err e, buffer, rs) => (Err e, buffer, rs)
  | (Ok None, buffer, rs) => (Err b!"Invalid HTTP headers", buffer, rs)
  | (Ok (Some (h, body_start)), buffer, rs) =>
      let content_type := content_type_of h in
      let api_key := header h b!"authorization" ≫= Prelude.strip_prefix b!"Bearer " in
      let request_id := header h b!"request-id" in
      match content_type with
      | None => (Ok (mkChatInfo None None api_key None), buffer, rs)
      | Some ct =>
          if negb (bool_decide (ct = b!"application/json"))
          then (Ok (mkChatInfo None None api_key content_type), buffer, rs)
          else match read_model_from_json_body rs body_start buffer with
               | (Err e, buffer, rs) => (Err e, buffer, rs)
               | (Ok model, buffer, rs) =>
                   (Ok (mkChatInfo model request_id api_key content_type), buffer, rs)
               end
      end
  end.
End Requests.

(** ** Routing *)

(** Users' connections by name; a parked one holds its request bytes. *)
Record AgentState := mkAgent {
  ag_world : World;
  pending_connections : gmap bytes (Z * bytes);
  http_errors : list (Z * (Z * bytes));
  kafka_requests : list (bytes * bytes);
  joined : list (Z * Z * bytes) }.

Definition ag_set_world w a := mkAgent w (pending_connections a) (http_errors a)
  (kafka_requests a) (joined a).
Definition park id u b a := mkAgent (ag_world a) (<[id := (u, b)]> (pending_connections a))
  (http_errors a) (kafka_requests a) (joined a).
Definition http_error u code msg a := mkAgent (ag_world a) (pending_connections a)
  (http_errors a ++ [(u, (code, msg))]) (kafka_requests a) (joined a).
Definition publish r c a := mkAgent (ag_world a) (pending_connections a) (http_errors a)
  (kafka_requests a ++ [(r, c)]) (joined a).

Section Routing.
Context `{K : HttpCrates} `{C : Codec} `{H : Hex} (wenv : Z -> WriterEnv).

(** The token query: the ids a key may use and its access level, or no such key. *)
Context (tokens : bytes -> result (list ClientId * Z)).

Definition authenticate_and_select_client (api_key : option bytes) : result (list ClientId * Z) :=
  match api_key with
  | None => Err b!"Missing API key"
  | Some key => if negb (blen key =? 48) then Err b!"Invalid API key length" else tokens key
  end.

(** [client_ids.into_iter().find_map(..)] *)
Definition find_client (model_name : bytes) (client_ids : list ClientId) (w : World)
    : option (ClientInfo * ClientId) :=
  match List.find (fun id => match clients w !! id with
                             | Some info => has_model model_name info
                             | None => false end) client_ids with
  | Some id => (fun info => (info, id)) <$> clients w !! id
  | None => None
  end.

(** [fresh] is the version 4 UUID drawn for the connection. *)
Definition connect_client_filter_model_and_client (model_name : bytes)
    (client_ids : list ClientId) (fresh : bytes) (w : World)
    : result (ClientId * ProxyConnId) * World :=
  match find_client model_name client_ids w with
  | None => (Err b!"Chosen client disappeared", w)
  | Some (info, client_id) =>
      if negb (authed info) then (Err b!"Chosen client not authenticated", w)
      else match send_on wenv (writer info) (V1 (RequestNewProxyConn fresh)) w with
           | (Err e, w) => (Err e, set_clients (delete client_id (clients w)) w)
           | (Ok _, w) => (Ok (client_id, fresh), w)
           end
  end.

(** [hex::decode] and the conversion to 16 bytes fail the request; a failed publication
    is only logged. *)
Definition request_to_kafka (kafka_up : bool) (request_id : option bytes)
    (chosen_client_id : ClientId) (a : AgentState) : result () * AgentState :=
  match request_id with
  | None => (Ok (), a)
  | Some s =>
      match (let? b := ok_or (hex_decode s) err_hex in try_into_16 b) with
      | Err e => (Err e, a)
      | Ok r => (Ok (), if kafka_up then publish r chosen_client_id a else a)
      end
  end.

Definition route_public_connection_new (user : Z) (reads : list Read) (buffer fresh : bytes)
    (kafka_up : bool) (a : AgentState) : result () * AgentState :=
  match extract_chat_info reads buffer with
  | (Err _, _, _) => (Err b!"Request parsing failed", a)
  | (Ok info, buffer, _) =>
      match cri_model info, cri_api_key info with
      | Some model, Some _ =>
          match authenticate_and_select_client (cri_api_key info) with
          | Err _ => (Err b!"Failed to authenticate and select client",
                      http_error user 401 b!"Failed to authenticate and select client" a)
          | Ok (client_ids, access_level) =>
              if bool_decide (client_ids = [])
              then (Err b!"No available clients",
                    http_error user 401 b!"No available clients" a)
              else
                match connect_client_filter_model_and_client model client_ids fresh
                        (ag_world a) with
                | (Err e, w) =>
                    (Err (b!"No available clients " ++ e),
                     http_error user 400 b!"No available clients" (ag_set_world w a))
                | (Ok (chosen, conn), w) =>
                    let a := park conn user buffer (ag_set_world w a) in
                    if negb (is_metered access_level) then (Ok (), a)
                    else request_to_kafka kafka_up (cri_request_id info) chosen a
                end
          end
      | _, _ => (Err b!"Missing model or api_key",
                 http_error user 401 b!"Invalid model or api_key" a)
      end
  end.

(** One proxy connection from a device: [first] is its first command, if it could be
    read; [joined] records the user, the proxy stream and the bytes replayed to it. *)
Definition handle_proxy_connection (proxy : Z) (first : option Command) (a : AgentState)
    : AgentState :=
  match first with
  | Some (V1 (NewProxyConn id)) =>
      match pending_connections a !! id with
      | Some (user, buf) =>
          mkAgent (ag_world a) (delete id (pending_connections a)) (http_errors a)
            (kafka_requests a) (joined a ++ [(user, proxy, buf)])
      | None => a
      end
  | _ => a
  end.
End Routing.

(** ** Facts *)
Module AgentFacts.
Import TextFacts.

Lemma find_client_spec model ids w info id :
  find_client model ids w = Some (info, id) ->
  id ∈ ids /\ clients w !! id = Some info /\ has_model model info = true.
Proof.
  unfold find_client. destruct (List.find _ ids) as [id'|] eqn:Hf; [|done].
  apply find_some in Hf as [Hin Hm]. intros E.
  apply fmap_Some in E as (info' & Hc & [= -> ->]). rewrite Hc in Hm.
  split; [by apply list_elem_of_In|done].
Qed.

Section Routing.
Context `{K : HttpCrates} `{C : Codec} `{H : Hex} (wenv : Z -> WriterEnv)
  (tokens : bytes -> result (list ClientId * Z)).

Lemma connect_spec model ids fresh w r w' :
  connect_client_filter_model_and_client wenv model ids fresh w = (r, w') ->
  match r with
  | Ok (id, conn) => conn = fresh /\ id ∈ ids
      /\ exists info, clients w !! id = Some info /\ has_model model info = true
           /\ authed info = true /\ w' = post (writer info) (V1 (RequestNewProxyConn fresh)) w
  | Err _ => outbox w' = outbox w
  end.
Proof.
  unfold connect_client_filter_model_and_client, send_on. intros E.
  destruct (find_client model ids w) as [[info id]|] eqn:Hf; [|by simplify_eq].
  apply find_client_spec in Hf as (Hin & Hc & Hm).
  destruct (authed info) eqn:Ha; cbn in E; [|by simplify_eq].
  destruct (broken _); [by simplify_eq|].
  destruct (write_command _); simplify_eq; [|done]. eauto 10.
Qed.

Lemma request_to_kafka_frame up rid id a r a' :
  request_to_kafka up rid id a = (r, a') ->
  ag_world a' = ag_world a /\ pending_connections a' = pending_connections a
  /\ joined a' = joined a.
Proof.
  unfold request_to_kafka. intros E. destruct rid as [s|]; [|by simplify_eq].
  destruct (rbind _ _); [|by simplify_eq]. destruct up; by simplify_eq.
Qed.

(** The only way a request gets past the checks. *)
Lemma route_cases user reads buffer fresh up a r a' :
  route_public_connection_new wenv tokens user reads buffer fresh up a = (r, a') ->
  (outbox (ag_world a') = outbox (ag_world a)
    /\ pending_connections a' = pending_connections a /\ joined a' = joined a /\ r <> Ok ())
  \/ exists info buffer' rs key model ids lvl chosen ci,
       extract_chat_info reads buffer = (Ok info, buffer', rs)
       /\ cri_api_key info = Some key /\ blen key = 48 /\ tokens key = Ok (ids, lvl)
       /\ cri_model info = Some model /\ chosen ∈ ids
       /\ clients (ag_world a) !! chosen = Some ci /\ authed ci = true
       /\ has_model model ci = true
       /\ outbox (ag_world a')
          = outbox (ag_world a) ++ [(writer ci, V1 (RequestNewProxyConn fresh))]
       /\ pending_connections a' = <[fresh := (user, buffer')]> (pending_connections a)
       /\ joined a' = joined a.
Proof.
  unfold route_public_connection_new. intros E.
  destruct (extract_chat_info reads buffer) as [[[info|e] buffer'] rs]; [|left; injection E as <- <-; done].
  destruct (cri_model info) as [model|] eqn:Hm; [|left; injection E as <- <-; done].
  destruct (cri_api_key info) as [key|] eqn:Hk; [|left; injection E as <- <-; done].
  unfold authenticate_and_select_client in E.
  destruct (Z.eqb_spec (blen key) 48) as [H48|]; [|left; injection E as <- <-; done]. cbn [negb] in E.
  destruct (tokens key) as [[ids lvl]|] eqn:Ht; [|left; injection E as <- <-; done].
  case_bool_decide as Hids; [left; injection E as <- <-; done|].
  destruct (connect_client_filter_model_and_client _ _ _ _ _) as [[[chosen conn]|e] w] eqn:Ec.
  all: pose proof (connect_spec _ _ _ _ _ _ Ec) as Hc.
  - right. destruct Hc as (-> & Hin & ci & Hci & Hhm & Hau & ->).
    exists info, buffer', rs, key, model, ids, lvl, chosen, ci.
    do 9 (split; [done|]).
    destruct (negb (is_metered lvl)).
    + injection E as <- <-. done.
    + apply request_to_kafka_frame in E as (-> & -> & ->). done.
  - left. injection E as <- <-. done.
Qed.

End Routing.

(** *** The bytes passed on *)

Section Bytes.
Context `{K : HttpCrates}.

(** Each body read is at least as long as the body before it. *)
Fixpoint growing (body : nat) (reads : list Read) : Prop :=
  match reads with
  | Got b :: rs => (body <= length b)%nat /\ growing (body + length b) rs
  | _ :: rs => growing body rs
  | [] => True
  end.

Fixpoint got (reads : list Read) : bytes :=
  match reads with
  | Got b :: rs => b ++ got rs
  | _ :: rs => got rs
  | [] => []
  end.

Lemma read_model_loop_bytes reads body_start buffer r buffer' rs' :
  (body_start <= length buffer)%nat ->
  growing (length buffer - body_start) reads ->
  read_model_loop reads body_start buffer = (r, buffer', rs') ->
  buffer' ++ got rs' = buffer ++ got reads.
Proof.
  revert buffer. induction reads as [|rd reads IH]; intros buffer Hb Hg E; cbn in E.
  { by simplify_eq. }
  destruct rd as [[|c new]| |]; try by simplify_eq.
  destruct Hg as [Hle Hg].
  assert (body_after_read body_start buffer (c :: new) = buffer ++ c :: new) as Hba.
  { unfold body_after_read. rewrite take_ge by (cbn in *; lia). done. }
  rewrite Hba in E. destruct (try_parse_model_from_slice _) as [m|].
  { injection E as <- <- <-. cbn. by rewrite <- app_assoc. }
  apply IH in E; [|rewrite length_app; lia|].
  - rewrite E. cbn. by rewrite <- app_assoc.
  - rewrite length_app. replace (length buffer + length (c :: new) - body_start)%nat
      with (length buffer - body_start + length (c :: new))%nat by (cbn in *; lia). done.
Qed.

(** The request a device receives is the request the user sent, byte for byte and
    nothing missing, as long as every read of the body returns at least as many bytes
    as the body read before it. *)
Theorem body_bytes_preserved (reads : list Read) (body_start : nat) (buffer buffer' : bytes)
    (r : result (option bytes)) (rs : list Read) :
  (body_start <= length buffer)%nat ->
  growing (length buffer - body_start) reads ->
  read_model_from_json_body reads body_start buffer = (r, buffer', rs) ->
  buffer' ++ got rs = buffer ++ got reads.
Proof.
  intros Hb Hg. unfold read_model_from_json_body.
  destruct (_ <? _)%nat; [|by apply read_model_loop_bytes].
  destruct (try_parse_model_from_slice _); [by intros [= <- <- <-]|].
  by apply read_model_loop_bytes.
Qed.

(** Otherwise bytes are lost: a read shorter than the body held so far cuts that body
    down to its own length before it is appended. *)
Theorem short_read_drops_body (body_start : nat) (buffer new : bytes) :
  (body_start + length new < length buffer)%nat ->
  length (body_after_read body_start buffer new)
    = (body_start + 2 * length new)%nat
  /\ (length (body_after_read body_start buffer new) < length buffer + length new)%nat.
Proof.
  intros Hl. unfold body_after_read. rewrite length_app, length_take. lia.
Qed.

(** While the body is incomplete the model name is scanned for, and the scan stops at
    the quote that opens the name: the request is routed with an empty model. *)
Theorem incomplete_body_has_empty_model (p rest : bytes) :
  let data := p ++ ([quote] ++ b!"model" ++ [quote; colon]) ++ [quote] ++ rest in
  json_model data = None -> utf8 data ->
  find_sub ([quote] ++ b!"model" ++ [quote; colon]) data = Some (length p) ->
  try_parse_model_from_slice data = Some [].
Proof.
  intros data Hj Hu Hf. unfold try_parse_model_from_slice. rewrite Hj, lossy_utf8 by done.
  unfold scan_model. rewrite Hf.
  replace (drop (length p + 8) data) with ([quote] ++ rest); [done|].
  unfold data. rewrite <- drop_drop, drop_app_length. done.
Qed.
End Bytes.

(** *** Witnesses *)
Definition demo_http : HttpCrates := {|
  HeaderName_from_str := Some; HeaderValue_from_str := Some; HeaderValue_to_str := Some;
  json_model := fun d : bytes => if ends_with b!"}" d then Some b!"m" else None;
  find_bytes := fun hay needle : bytes => find_sub needle hay |}.

Definition demo_key : bytes := replicate 48 Byte.x6b.
Definition crlf : bytes := [Byte.x0d; Byte.x0a].
Definition demo_http_request : bytes :=
  b!"POST /v1 HTTP/1.1" ++ crlf ++ b!"Authorization: Bearer " ++ demo_key ++ crlf
  ++ b!"Content-Type: application/json; charset=utf-8" ++ crlf ++ crlf ++ b!"{}".
Definition demo_dev : ClientInfo :=
  {| writer := 3; authed := true; ci_version := 1; ci_system_info := None;
     ci_devices_info := []; connected_at := 0;
     ci_models := Some [mkModel b!"m" b!"model" 0 b!"o"] |}.
Definition demo_agent : AgentState :=
  mkAgent (scheduler_new {[b!"dev" := demo_dev]}) ∅ [] [] [].
Definition demo_tokens (k : bytes) : result (list ClientId * Z) :=
  if bool_decide (k = demo_key) then Ok ([b!"dev"], 1) else Err b!"Invalid or expired token".
Definition demo_reply_codec : Codec := {|
  encode_to_vec := fun _ => Some [Byte.x00]; decode_from_slice := fun _ => None |}.
Definition idle (_ : Z) : WriterEnv := {| busy := false; broken := false |}.


Lemma body_bytes_preserved_witness :
  (read_model_from_json_body (K := demo_http) [Got b!"ab"; Got b!"cde}"] 1 b!"Hx").1.2
  = b!"Hxabcde}".
Proof.
  destruct (read_model_from_json_body (K := demo_http) [Got b!"ab"; Got b!"cde}"] 1 b!"Hx")
    as [[r b] rs] eqn:E.
  pose proof (body_bytes_preserved (K := demo_http) [Got b!"ab"; Got b!"cde}"] 1 b!"Hx" b r rs
    ltac:(cbn; lia) ltac:(cbn; lia) E) as Hb.
  assert (rs = []) as -> by (vm_compute in E; congruence).
  cbn in Hb. rewrite app_nil_r in Hb. exact Hb.
Defined.

Example body_truncated :
  (read_model_from_json_body (K := demo_http) [Got b!"}"] 1 b!"Hxyz").1.2 = b!"Hx}".
Proof. vm_compute. reflexivity. Qed.
End AgentFacts.
