(* ===== verification/Gateway.v ===== *)
(** * The inference gateway ([gpuf-s/src/inference/gateway.rs], [handlers.rs])

    Token authentication, the completion and chat handlers and the translation of stream
    events into server-sent events. JSON bodies are records of their fields; the database
    is the two tables the token query reads. *)

From S2P Require Import Prelude Wire Text Ids Scheduler Streams.
From Stdlib Require Import ZArith Lia String.
From Stdlib Require Import Strings.Byte.
From stdpp Require Import base list gmap.

Local Open Scope Z_scope.
Import Framing SelectFacts.

(** ** Tokens ([get_user_client_by_token] of [db/client.rs]) *)

Record Token := mkToken {
  tk_key : bytes; tk_user_id : bytes; tk_access_level : Z; tk_status : Z;
  tk_expired_time : Z; tk_deleted : bool }.

Record AssetRow := mkAssetRow {
  ar_client_id : ClientId; ar_user_id : bytes; ar_client_status : bytes; ar_valid_status : bytes }.

Record Tables := mkTables { tokens : list Token; assets : list AssetRow }.

Definition token_live (now : Z) (t : Token) : bool :=
  (tk_status t =? 1) && ((tk_expired_time t =? -1) || (now <? tk_expired_time t))
  && negb (tk_deleted t).

(** [$1::varchar(48)] truncates the key that was sent to 48 characters (bytes, as
    keys are ASCII). *)
Definition get_user_client_by_token (db : Tables) (now : Z) (token : bytes)
    : result (list ClientId * Z) :=
  match List.find (fun t => bool_decide (tk_key t = take 48 token) && token_live now t)
          (tokens db) with
  | None => Err b!"Invalid or expired token"
  | Some t =>
      let usable a := bool_decide (ar_client_status a = b!"online")
                      && bool_decide (ar_valid_status a = b!"valid") in
      let rows := if is_metered (tk_access_level t)
                  then List.filter usable (assets db)
                  else List.filter (fun a => bool_decide (ar_user_id a = tk_user_id t) && usable a)
                         (assets db) in
      Ok (ar_client_id <$> rows, tk_access_level t)
  end.

Record AuthContext := mkAuth { client_ids : list ClientId; access_level : Z }.

(** [None] when the request passes without a context (an [OPTIONS] request). *)
Definition auth_middleware (db : Tables) (now : Z) (is_options : bool)
    (authorization : option bytes) : result (option AuthContext) :=
  if is_options then Ok None
  else match authorization ≫= Prelude.strip_prefix b!"Bearer " with
       | None => Err b!"401"
       | Some token =>
           match get_user_client_by_token db now token with
           | Ok (ids, lvl) => Ok (Some (mkAuth ids lvl))
           | Err _ => Err b!"401"
           end
       end.

(** ** Request metrics *)
Section Metrics.
Context `{H : Hex}.

Definition send_request_metrics (kafka_up : bool) (request_id : option bytes)
    (chosen : ClientId) (lvl : Z) (log : list (bytes * ClientId))
    : result () * list (bytes * ClientId) :=
  if negb (is_metered lvl) then (Ok (), log)
  else match request_id with
       | None => (Ok (), log)
       | Some s =>
           match (let? b := ok_or (hex_decode s) err_hex in try_into_16 b) with
           | Err e => (Err e, log)
           | Ok r => if kafka_up then (Ok (), log ++ [(r, chosen)])
                     else (Err b!"Failed to send to Kafka", log)
           end
       end.

(** ** The target header *)

Inductive Status := BadRequest (m : bytes) | Forbidden (m : bytes)
  | Unavailable (m : bytes) | Internal (m : bytes).

(** [x-target-client-id]: absent or blank, or the id of a device the token may name. *)
Definition target_of (raw : option bytes) (auth : AuthContext) : sum Status (option ClientId) :=
  match (let s := trim <$> raw in
         if bool_decide (s = Some []) then None else s) with
  | None => inr None
  | Some raw =>
      match ClientId_from_str raw with
      | Err e => inl (BadRequest (b!"Invalid x-target-client-id: " ++ e))
      | Ok target =>
          if is_metered (access_level auth)
          then inl (Forbidden b!"x-target-client-id is not allowed for metered tokens")
          else if negb (existsb (fun id => bool_decide (id = target)) (client_ids auth))
          then inl (Forbidden
            b!"x-target-client-id is not in the allowed client_ids for this token")
          else inr (Some target)
      end
  end.
End Metrics.

Definition allowed_ids (target : option ClientId) (auth : AuthContext) : list ClientId :=
  match target with Some t => [t] | None => client_ids auth end.

(** ** Stop markers *)
Record StopMarkerState := mkStop { stopped : bool; carry : bytes; markers : list bytes }.
Definition StopMarkerState_new (ms : list bytes) : StopMarkerState := mkStop false [] ms.

Definition stop_flush (st : StopMarkerState) : bytes * StopMarkerState :=
  (carry st, mkStop (stopped st) [] (markers st)).

Definition min_opt (cur : option nat) (idx : option nat) : option nat :=
  match idx with
  | Some i => Some (match cur with Some c => Nat.min c i | None => i end)
  | None => cur
  end.

(** Step back to a character boundary. *)
Fixpoint char_floor (s : bytes) (i : nat) : nat :=
  match i with
  | O => O
  | S i' => match s !! i with
            | Some b => if cont b then char_floor s i' else i
            | None => i
            end
  end.

Definition consume (st : StopMarkerState) (text : bytes) : bytes * bool * StopMarkerState :=
  if stopped st then ([], true, st)
  else
    let combined := carry st ++ text in
    match fold_left (fun cur m => min_opt cur (find_sub m combined)) (markers st) None with
    | Some idx => (take idx combined, true, mkStop true [] (markers st))
    | None =>
        let keep := (foldr Nat.max 0 (length <$> markers st) - 1)%nat in
        if (keep <? length combined)%nat then
          let split_at := char_floor combined (length combined - keep) in
          (take split_at combined, false, mkStop false (drop split_at combined) (markers st))
        else ([], false, mkStop false combined (markers st))
    end.

(** ** Server-sent events *)

(** The [delta] object of a chat chunk. *)
Inductive ChatDelta := RoleOnly | Content (t : bytes) | ReasoningContent (t : bytes).

Inductive Sse :=
  | SseText (id : bytes) (text : bytes)
  | SseTextFinish (id : bytes) (text : bytes) (finish_reason : bytes) (usage : option CompletionUsage)
  | SseChat (id : bytes) (delta : ChatDelta)
  | SseChatFinish (id : bytes) (delta : ChatDelta) (finish_reason : bytes)
      (usage : option CompletionUsage)
  | SseError (message : bytes)
  | SseDone.

Definition finish_reason_for (max_tokens_effective : Z) (usage : option CompletionUsage) : bytes :=
  match usage with
  | Some u => if max_tokens_effective <=? u_completion_tokens u then b!"length" else b!"stop"
  | None => b!"stop"
  end.

Definition tail_of (st : StopMarkerState) : bytes * StopMarkerState :=
  if stopped st then ([], st) else stop_flush st.

(** One event of a streamed completion or chat: what is sent, if anything, and whether the
    guard of the stream is disarmed. *)
Definition sse_event (chat : bool) (task_id : bytes) (max_tokens_effective : Z)
    (st : StopMarkerState) (ev : StreamEvent) : list Sse * bool * StopMarkerState :=
  match ev with
  | Delta text phase =>
      let '(out, _, st) := consume st text in
      (if bool_decide (out = []) then []
       else if chat then
         [SseChat task_id (match phase with Analysis => ReasoningContent out | _ => Content out end)]
       else [SseText task_id out], false, st)
  | Finish usage =>
      let '(tail, st) := tail_of st in
      (if chat then
         [SseChatFinish task_id (if bool_decide (tail = []) then RoleOnly else Content tail)
            (finish_reason_for max_tokens_effective usage) usage]
       else [SseTextFinish task_id tail (finish_reason_for max_tokens_effective usage) usage],
       false, st)
  | EvError msg => ([SseError msg], false, st)
  | EvDone => ([SseDone], true, st)
  end.

Fixpoint sse_stream (chat : bool) (task_id : bytes) (max_tokens_effective : Z)
    (st : StopMarkerState) (evs : list StreamEvent) : list Sse * bool :=
  match evs with
  | [] => ([], false)
  | ev :: evs =>
      let '(out, fin, st) := sse_event chat task_id max_tokens_effective st ev in
      let '(rest, fin') := sse_stream chat task_id max_tokens_effective st evs in
      (out ++ rest, fin || fin')
  end.

(** ** Handlers *)

Record ChatCompletionRequest := mkChatRequest {
  cc_model : option bytes; cc_messages : list ChatMessage; cc_max_tokens : option Z;
  cc_temperature : option f32; cc_top_k : option Z; cc_top_p : option f32;
  cc_repeat_penalty : option f32; cc_repeat_last_n : option Z; cc_min_keep : option Z;
  cc_stream : option bool }.

Definition chat_sampling (r : ChatCompletionRequest) : Sampling :=
  {| max_tokens := default 4090 (cc_max_tokens r);
     temperature := default 0x3F333333 (cc_temperature r);
     top_k := default 40 (cc_top_k r); top_p := default 0x3F666666 (cc_top_p r);
     repeat_penalty := default 0x3F8CCCCD (cc_repeat_penalty r);
     repeat_last_n := default 64 (cc_repeat_last_n r); min_keep := default 1 (cc_min_keep r) |}.

Section Handlers.
Context `{C : Codec} `{H : Hex} (wenv : Z -> WriterEnv).

(** The part both branches of [handle_chat_completion] share: the checks and the dispatch. *)
Definition chat_dispatch_request (auth : AuthContext) (target : option bytes)
    (r : ChatCompletionRequest) (task_id : bytes) (iter : list (bytes * ClientInfo)) (w : World)
    : sum Status (bytes * ClientId) * World :=
  match target_of target auth with
  | inl s => (inl s, w)
  | inr t =>
      match execute_chat_inference_stream wenv task_id (default b!"gpuf" (cc_model r))
              (cc_messages r) (chat_sampling r) iter (Some (allowed_ids t auth)) w with
      | (Err e, w) => (inl (Internal e), w)
      | (Ok td, w) => (inr td, w)
      end
  end.

(** The same for [handle_completion] when the request asks for a stream. *)
Definition completion_dispatch_request (auth : AuthContext) (target : option bytes)
    (r : CompletionRequest) (task_id : bytes) (iter : list (bytes * ClientInfo)) (w : World)
    : sum Status (bytes * ClientId) * World :=
  match target_of target auth with
  | inl s => (inl s, w)
  | inr t =>
      match execute_inference_stream wenv task_id r iter (Some (allowed_ids t auth)) w with
      | (Err e, w) => (inl (Internal e), w)
      | (Ok td, w) => (inr td, w)
      end
  end.

(** The non-streamed chat: events are folded until [Done], the first error wins. *)
Fixpoint chat_collect (evs : list StreamEvent) (text : bytes) (usage : option CompletionUsage)
    : sum bytes (bytes * option CompletionUsage) :=
  match evs with
  | [] => inr (text, usage)
  | Delta d _ :: evs => chat_collect evs (text ++ d) usage
  | Finish u :: evs => chat_collect evs text u
  | EvError m :: _ => inl m
  | EvDone :: _ => inr (text, usage)
  end.

Record ChatCompletionResponse := mkChatResponse {
  cr_id : bytes; cr_content : bytes; cr_finish_reason : bytes; cr_usage : CompletionUsage }.

Definition chat_response (task_id : bytes) (r : ChatCompletionRequest) (evs : list StreamEvent)
    : sum Status ChatCompletionResponse :=
  match chat_collect evs [] None with
  | inl m => inl (Internal m)
  | inr (text, usage_final) =>
      let usage := default (mkUsage 0 0 0 None None) usage_final in
      let max_tokens_effective := default 1024 (cc_max_tokens r) in
      inr (mkChatResponse task_id text
             (if max_tokens_effective <=? u_completion_tokens usage then b!"length" else b!"stop")
             usage)
  end.

(** The end of the non-streamed completion. *)
Definition completion_response (r : CompletionRequest) (res : result CompletionResponse)
    : sum Status CompletionResponse :=
  match res with
  | Ok resp =>
      let max_tokens_effective := default 1024 (cr_max_tokens r) in
      let reason := if max_tokens_effective <=? u_completion_tokens (r_usage resp)
                    then b!"length" else b!"stop" in
      inr (mkResponse (r_id resp) (r_object resp) (r_created resp) (r_model resp)
             (match r_choices resp with
              | c :: cs => mkChoice (text c) (Scheduler.index c) (logprobs c) reason :: cs
              | [] => [] end) (r_usage resp))
  | Err e =>
      if contains_sub b!"No available Android devices found" e
      then inl (Unavailable b!"No available Android devices found. Please ensure at least one device is online and valid.")
      else inl (Internal b!"Internal server error occurred while processing the request.")
  end.

Definition list_devices (auth : AuthContext) (w : World) : list DeviceInfo :=
  get_available_devices [] (Some (client_ids auth)) w.

Definition get_device_status (auth : AuthContext) (device_id : bytes) (w : World)
    : option DeviceInfo :=
  List.find (fun d => bool_decide (d_client_id d = device_id)) (list_devices auth w).

(** Metering of a stream: the device the task was sent to, for metered tokens. A failure
    is only logged. *)
Definition stream_metrics (kafka_up : bool) (auth : AuthContext) (request_id : option bytes)
    (device_id : ClientId) (log : list (bytes * ClientId)) : list (bytes * ClientId) :=
  if is_metered (access_level auth)
  then (send_request_metrics kafka_up request_id device_id (access_level auth) log).2 else log.

(** Metering of a non-streamed completion: the first id the token may use. *)
Definition completion_metrics (kafka_up : bool) (auth : AuthContext)
    (request_id : option bytes) (log : list (bytes * ClientId)) : list (bytes * ClientId) :=
  if is_metered (access_level auth) then
    match client_ids auth with
    | chosen :: _ => (send_request_metrics kafka_up request_id chosen (access_level auth) log).2
    | [] => log
    end
  else log.

(** The guard of a stream: dropped before [Done] was sent, it cancels the task. *)
Definition guard_drop (finished : bool) (task_id : bytes) (device_id : ClientId) (w : World)
    : World :=
  if finished then w else (cancel_inference wenv task_id device_id w).2.
End Handlers.

(** ** Facts *)
Module GatewayFacts.

(** *** Tenants *)

Definition owns (now : Z) (db : Tables) (key : bytes) (d : ClientId) : Prop :=
  exists tok row, tok ∈ tokens db /\ tk_key tok = take 48 key /\ token_live now tok = true
    /\ row ∈ assets db /\ ar_client_id row = d /\ ar_client_status row = b!"online"
    /\ ar_valid_status row = b!"valid"
    /\ (is_metered (tk_access_level tok) = false -> ar_user_id row = tk_user_id tok).

Lemma token_ids_owned db now key ids lvl d :
  get_user_client_by_token db now key = Ok (ids, lvl) -> d ∈ ids -> owns now db key d.
Proof.
  unfold get_user_client_by_token. destruct (List.find _ _) as [tok|] eqn:Hf; [|done].
  apply find_some in Hf as [Hin Hb]. bool_hyps. intros [= <- <-] Hd.
  apply list_elem_of_fmap in Hd as (row & -> & Hrow). exists tok, row.
  apply list_elem_of_In in Hin.
  destruct (is_metered (tk_access_level tok)); apply list_elem_of_In, filter_In in Hrow as [Hr Hu];
    bool_hyps; apply list_elem_of_In in Hr; done.
Qed.

Lemma auth_middleware_token db now hdr auth :
  auth_middleware db now false hdr = Ok (Some auth) ->
  exists key, hdr ≫= Prelude.strip_prefix b!"Bearer " = Some key
    /\ get_user_client_by_token db now key = Ok (client_ids auth, access_level auth).
Proof.
  unfold auth_middleware. destruct (_ ≫= _) as [key|]; [|done].
  destruct (get_user_client_by_token db now key) as [[ids lvl]|] eqn:Ht; [|done].
  intros [= <-]. by exists key.
Qed.

Section Tenants.
Context `{C : Codec} `{H : Hex} (wenv : Z -> WriterEnv).

Lemma target_of_allowed raw auth t d :
  target_of raw auth = inr t -> in_allowed (Some (allowed_ids t auth)) d ->
  d ∈ client_ids auth
  /\ (forall s, raw = Some s -> trim s <> [] ->
        ClientId_from_str (trim s) = Ok d /\ is_metered (access_level auth) = false).
Proof.
  unfold target_of, in_allowed. intros Ht Hal. specialize (Hal _ eq_refl).
  destruct raw as [s|]; cbn in Ht; [case_bool_decide as Hb|].
  - injection Ht as <-. split; [done|]. intros s' [= <-] Hne. by injection Hb as Hb.
  - destruct (ClientId_from_str (trim s)) as [target|] eqn:Hc; [|done].
    destruct (is_metered (access_level auth)) eqn:Hm; [done|].
    destruct (existsb _ _) eqn:He; [|done]. injection Ht as <-. cbn in Hal.
    apply list_elem_of_singleton in Hal as ->. split.
    + apply existsb_exists in He as (x & Hx & Hx2). bool_hyps. subst x. by apply list_elem_of_In.
    + intros s' [= <-] Hne. done.
  - injection Ht as <-. split; [done|]. by intros s.
Qed.

(** [C3] Tenant isolation: a chat request that passed the token check is sent to exactly
    one device, which is connected and authenticated and is an online, valid device of
    the token's own user (any user's, for a metered token); if the caller named a
    device, it is that one, and only an unmetered token may name one. A refused or
    failed request sends nothing to any device. *)
Theorem requests_stay_with_tenant (db : Tables) (now : Z) (hdr : option bytes)
    (auth : AuthContext) (target : option bytes) (r : ChatCompletionRequest) (t : bytes)
    (iter : list (bytes * ClientInfo)) (w : World) :
  auth_middleware db now false hdr = Ok (Some auth) -> enumerates iter w ->
  match chat_dispatch_request wenv auth target r t iter w with
  | (inr (t', d), w') =>
      t' = t /\ (exists key, hdr ≫= Prelude.strip_prefix b!"Bearer " = Some key /\ owns now db key d)
      /\ (exists info, clients w !! d = Some info /\ authed info = true
            /\ outbox w' = outbox w ++ [(writer info, V1 (ChatInferenceTask t
                 (default b!"gpuf" (cc_model r)) (cc_messages r) (chat_sampling r)))])
      /\ (forall s, target = Some s -> trim s <> [] ->
            ClientId_from_str (trim s) = Ok d /\ is_metered (access_level auth) = false)
  | (inl _, w') => outbox w' = outbox w
  end.
Proof.
  intros (key & Hkey & Htok)%auth_middleware_token He. unfold chat_dispatch_request.
  destruct (target_of target auth) as [s|tg] eqn:Htg; [done|].
  pose proof (chat_dispatch wenv iter w t (default b!"gpuf" (cc_model r)) (cc_messages r)
                (chat_sampling r) (Some (allowed_ids tg auth)) He) as Hd.
  destruct (execute_chat_inference_stream _ _ _ _ _ _ _ _) as [[[t' d]|e] w'];
    [|by destruct Hd].
  destruct Hd as (-> & (sys & Hal & info0 & Hc0 & Hau & _) & _ & (info & Hc & Ho) & _).
  destruct (target_of_allowed _ _ _ _ Htg Hal) as [Hin Hnamed].
  split; [done|]. split; [exists key; split; [done|]; by eapply token_ids_owned|].
  split; [|done]. exists info. simplify_eq. done.
Qed.
End Tenants.

(** *** Server-sent events *)

Lemma consume_no_markers text :
  consume (StopMarkerState_new []) text = (text, false, StopMarkerState_new []).
Proof.
  unfold consume, StopMarkerState_new. cbn -[char_floor].
  destruct text as [|c text]; [done|]. rewrite Nat.sub_0_r. cbn -[char_floor].
  assert (char_floor (c :: text) (S (length text)) = S (length text)) as ->.
  { assert ((c :: text) !! S (length text) = None) as E by (apply lookup_ge_None_2; cbn; lia).
    cbn [char_floor]. by rewrite E. }
  rewrite take_ge, drop_ge by (cbn; lia). done.
Qed.

Definition sse_delta (chat : bool) (t : bytes) (d : bytes * OutputPhase) : Sse :=
  if chat then SseChat t (match d.2 with Analysis => ReasoningContent d.1 | _ => Content d.1 end)
  else SseText t d.1.

(** What an HTTP client of a stream sees: one server-sent event per piece of text the
    device produced, with analysis text as [reasoning_content] and the rest as [content],
    then one final event with the token counts and the reason, [length] exactly when the
    completion reached the limit, then the end mark, which also disarms cancellation. *)
Theorem sse_stream_translates (chat : bool) (t : bytes) (max : Z)
    (ds : list (bytes * OutputPhase)) (u : CompletionUsage) :
  Forall (fun d => d.1 <> []) ds ->
  sse_stream chat t max (StopMarkerState_new [])
    (((fun d => Delta d.1 d.2) <$> ds) ++ [Finish (Some u); EvDone])
  = ((sse_delta chat t <$> ds)
       ++ [(if chat then SseChatFinish t RoleOnly else SseTextFinish t [])
             (if max <=? u_completion_tokens u then b!"length" else b!"stop") (Some u); SseDone],
     true).
Proof.
  intros Hne. induction Hne as [|[d p] ds Hd Hne IH]; [by destruct chat|].
  rewrite fmap_cons. cbn [app sse_stream fst snd].
  unfold sse_event at 1. rewrite consume_no_markers. rewrite IH. cbn in Hd.
  rewrite bool_decide_false by done. by destruct chat.
Qed.

Lemma sse_stream_translates_witness :
  sse_stream true b!"t" 8 (StopMarkerState_new [])
    [Delta b!"why" Analysis; Delta b!"so" Final; Finish (Some (mkUsage 1 2 3 None None)); EvDone]
  = ([SseChat b!"t" (ReasoningContent b!"why"); SseChat b!"t" (Content b!"so");
      SseChatFinish b!"t" RoleOnly b!"stop" (Some (mkUsage 1 2 3 None None)); SseDone], true).
Proof.
  exact (sse_stream_translates true b!"t" 8 [(b!"why", Analysis); (b!"so", Final)]
    (mkUsage 1 2 3 None None) ltac:(repeat constructor; discriminate)).
Defined.

(** The non-streamed chat reports [length] from 1024 tokens on, although it asked the device
    for up to 4090 and the streamed one reports [length] from 4090 on. *)
Theorem chat_finish_reason_mismatch (r : ChatCompletionRequest) (t : bytes)
    (u : CompletionUsage) :
  cc_max_tokens r = None -> 1024 <= u_completion_tokens u < 4090 ->
  max_tokens (chat_sampling r) = 4090
  /\ (exists resp, chat_response t r [Finish (Some u); EvDone] = inr resp
        /\ cr_finish_reason resp = b!"length")
  /\ finish_reason_for (max_tokens (chat_sampling r)) (Some u) = b!"stop".
Proof.
  intros Hn Hu. unfold chat_sampling, chat_response, finish_reason_for. cbn. rewrite Hn. cbn.
  split; [done|]. split.
  - eexists. split; [reflexivity|]. cbn. by rewrite (proj2 (Z.leb_le _ _)) by lia.
  - by rewrite (proj2 (Z.leb_gt _ _)) by lia.
Qed.

(** *** Stop markers *)

Definition occ (m s : bytes) (j : nat) : Prop := starts_with m (drop j s) = true.

Lemma occ_length m s j : m <> [] -> occ m s j -> (j + length m <= length s)%nat.
Proof.
  intros Hm Ho%starts_with_length. rewrite length_drop in Ho. destruct m; [done|cbn in *; lia].
Qed.

Lemma occ_app_l m s t j : m <> [] -> occ m s j -> occ m (s ++ t) j.
Proof.
  intros Hm Ho. pose proof (occ_length _ _ _ Hm Ho). unfold occ in *.
  apply starts_with_spec in Ho as [r Hr]. apply starts_with_spec. exists (r ++ t).
  rewrite drop_app_le, Hr by lia. by rewrite <- app_assoc.
Qed.

Lemma occ_app_inv m s t j : occ m (s ++ t) j -> (j + length m <= length s)%nat -> occ m s j.
Proof.
  unfold occ. intros Ho Hle. apply starts_with_spec in Ho as [r Hr]. apply starts_with_spec.
  rewrite drop_app_le in Hr by lia.
  exists (drop (length m) (drop j s)).
  rewrite <- (take_drop (length m) (drop j s)) at 1. f_equal.
  assert (take (length m) (drop j s ++ t) = take (length m) (m ++ r)) as Ht by (by rewrite Hr).
  rewrite take_app_le in Ht by (rewrite length_drop; lia). by rewrite take_app_length in Ht.
Qed.

Lemma occ_app_r m s t j : occ m (s ++ t) (length s + j) <-> occ m t j.
Proof. unfold occ. by rewrite <- drop_drop, drop_app_length. Qed.

Lemma occ_find m s j : occ m s j -> exists i, find_sub m s = Some i /\ (i <= j)%nat.
Proof.
  intros Ho. destruct (find_sub m s) as [i|] eqn:Hf.
  - exists i. split; [done|]. apply find_sub_Some in Hf as (_ & _ & Hmin).
    destruct (decide (i <= j)%nat); [done|]. unfold occ in Ho. by rewrite Hmin in Ho by lia.
  - unfold occ in Ho. by rewrite (find_sub_None _ _ j Hf) in Ho.
Qed.

Definition clean (ms : list bytes) (s : bytes) : Prop :=
  forall m j, m ∈ ms -> ~ occ m s j.

(** The fold of [consume] is the least position of any marker. *)
Lemma fold_min_spec ms s cur :
  match fold_left (fun cur m => min_opt cur (find_sub m s)) ms cur with
  | Some i => (cur = Some i \/ exists m, m ∈ ms /\ find_sub m s = Some i)
      /\ (forall m i', m ∈ ms -> find_sub m s = Some i' -> (i <= i')%nat)
      /\ (forall c, cur = Some c -> (i <= c)%nat)
  | None => cur = None /\ forall m, m ∈ ms -> find_sub m s = None
  end.
Proof.
  revert cur. induction ms as [|m ms IH]; intros cur; cbn.
  { destruct cur as [c|]; [|split; [done|]; by intros ? ?%elem_of_nil].
    split; [by left|]. split; [by intros ? ? ?%elem_of_nil|]. by intros c' [= <-]. }
  specialize (IH (min_opt cur (find_sub m s))).
  destruct (fold_left _ ms _) as [i|].
  - destruct IH as (Hi & Hmin & Hcur). split; [|split].
    + destruct Hi as [Hi|(m' & Hm' & Hf)]; [|right; exists m'; split; [by right|done]].
      unfold min_opt in Hi. destruct (find_sub m s) as [k|] eqn:Hk; [|by left].
      destruct cur as [c|].
      * injection Hi as <-. destruct (Nat.min_spec c k) as [[_ ->]|[_ ->]]; [by left|].
        right. exists m. split; [by left|done].
      * injection Hi as <-. right. exists m. split; [by left|done].
    + intros m' i' [->|Hm']%elem_of_cons Hf; [|by eapply Hmin].
      rewrite Hf in Hcur. specialize (Hcur _ eq_refl). destruct cur; lia.
    + intros c ->. destruct (find_sub m s) as [k|]; specialize (Hcur _ eq_refl); cbn in Hcur; lia.
  - destruct IH as [Hn Hnone]. unfold min_opt in Hn. destruct (find_sub m s) eqn:Hk; [done|].
    split; [done|]. by intros m' [->|]%elem_of_cons; [|apply Hnone].
Qed.

Lemma char_floor_le s i : (char_floor s i <= i)%nat.
Proof.
  induction i as [|i IH]; [done|]. cbn [char_floor].
  destruct (s !! S i) as [b|]; [|done]. destruct (cont b); [|done]. lia.
Qed.

Definition keep_of (ms : list bytes) : nat := (foldr Nat.max 0 (length <$> ms) - 1)%nat.

Lemma marker_keep ms m : m ∈ ms -> (length m <= keep_of ms + 1)%nat.
Proof.
  intros Hm. unfold keep_of.
  assert (length m <= foldr Nat.max 0 (length <$> ms))%nat; [|lia].
  induction ms as [|x ms IH]; [by apply elem_of_nil in Hm|]. cbn.
  apply elem_of_cons in Hm as [->|Hm]; [lia|]. specialize (IH Hm). lia.
Qed.

(** No marker crosses from the text already sent into the rest. *)
Lemma clean_extend ms E c text :
  clean ms (E ++ c) -> ((keep_of ms <= length c)%nat \/ E = []) ->
  forall n, (forall m j, m ∈ ms -> occ m (take n (c ++ text)) j -> False) ->
  (forall m, m ∈ ms -> m <> []) -> clean ms (E ++ take n (c ++ text)).
Proof.
  intros Hc Hk n Hn Hne m j Hm Ho.
  destruct (decide (length E <= j)%nat) as [Hj|Hj].
  { replace j with (length E + (j - length E))%nat in Ho by lia.
    apply occ_app_r in Ho. by eapply Hn. }
  destruct Hk as [Hk| ->]; [|cbn in Hj; lia].
  pose proof (marker_keep _ _ Hm) as Hl. pose proof (Hne m Hm) as Hmne.
  apply (Hc m j Hm). apply (occ_app_inv _ _ text).
  - rewrite <- app_assoc, <- (take_drop n (c ++ text)), app_assoc. by apply occ_app_l.
  - rewrite length_app. lia.
Qed.

Fixpoint consume_all (st : StopMarkerState) (chunks : list bytes) : bytes * StopMarkerState :=
  match chunks with
  | [] => ([], st)
  | c :: cs => let '(out, _, st) := consume st c in
               let '(outs, st) := consume_all st cs in (out ++ outs, st)
  end.

Definition stop_inv (ms : list bytes) (T E : bytes) (st : StopMarkerState) : Prop :=
  markers st = ms
  /\ if stopped st
     then clean ms E /\ exists m r, m ∈ ms /\ T = E ++ m ++ r
     else T = E ++ carry st /\ clean ms T
          /\ ((keep_of ms <= length (carry st))%nat \/ E = []).

Lemma consume_inv ms T E st text out hit st' :
  (forall m, m ∈ ms -> m <> []) -> stop_inv ms T E st ->
  consume st text = (out, hit, st') -> stop_inv ms (T ++ text) (E ++ out) st'.
Proof.
  intros Hne [Hms Hinv] Hc. unfold consume in Hc.
  destruct (stopped st) eqn:Hst.
  { injection Hc as <- <- <-. rewrite app_nil_r. split; [done|]. rewrite Hst.
    destruct Hinv as (Hcl & m & r & Hm & ->). split; [done|]. exists m, (r ++ text).
    split; [done|]. by rewrite <- !app_assoc. }
  destruct Hinv as (-> & Hcl & Hk). set (comb := carry st ++ text) in *.
  rewrite Hms in Hc. pose proof (fold_min_spec ms comb None) as Hf.
  destruct (fold_left _ ms None) as [idx|].
  - injection Hc as <- <- <-. destruct Hf as ([|(m & Hm & Hfm)] & Hmin & _); [done|].
    split; [done|]. cbn. split.
    + apply clean_extend; [done..| |done]. fold comb. intros m' j Hm' Ho.
      pose proof (occ_length _ _ _ (Hne _ Hm') Ho) as Hl. rewrite length_take in Hl.
      assert (occ m' comb j) as Ho'.
      { rewrite <- (take_drop idx comb). apply occ_app_l; [by apply Hne|done]. }
      destruct (occ_find _ _ _ Ho') as (i & Hfi & Hij).
      specialize (Hmin _ _ Hm' Hfi). pose proof (Hne _ Hm'). destruct m'; [done|cbn in Hl; lia].
    + apply find_sub_Some in Hfm as (Hs & _). apply starts_with_spec in Hs as [r Hr].
      exists m, r. split; [done|]. rewrite <- !app_assoc. fold comb. f_equal.
      rewrite <- Hr. by rewrite take_drop.
  - destruct Hf as [_ Hnone].
    assert (clean ms ((E ++ carry st) ++ text)) as Hcl'.
    { rewrite <- app_assoc. rewrite <- (firstn_all (carry st ++ text)).
      apply clean_extend; [done..| |done]. rewrite firstn_all. fold comb. intros m' j Hm' Ho.
      destruct (occ_find _ _ _ Ho) as (i & Hfi & _). by rewrite Hnone in Hfi. }
    fold (keep_of ms) in Hc. destruct (Nat.ltb_spec (keep_of ms) (length comb)) as [Hlt|Hge].
    + injection Hc as <- <- <-. split; [done|]. cbn. split; [|split; [done|left]].
      * rewrite <- !app_assoc, take_drop. done.
      * rewrite length_drop. pose proof (char_floor_le comb (length comb - keep_of ms)). lia.
    + injection Hc as <- <- <-. rewrite app_nil_r. split; [done|]. cbn.
      split; [unfold comb; by rewrite app_assoc|]. split; [done|].
      destruct Hk as [Hk|Hk]; [left|by right]. unfold comb. rewrite length_app. lia.
Qed.

(** Stop markers: however the text is cut, and for any set of non-empty markers, a
    stream that did not stop has sent, together with the tail it flushes, exactly the
    text, which contains no marker; one that stopped has sent a part of the text that
    contains no marker and is followed by one. *)
Theorem stop_filter_sound (ms chunks : list bytes) (out : bytes) (st : StopMarkerState) :
  (forall m, m ∈ ms -> m <> []) ->
  consume_all (StopMarkerState_new ms) chunks = (out, st) ->
  if stopped st
  then clean ms out /\ exists m r, m ∈ ms /\ concat chunks = out ++ m ++ r
  else concat chunks = out ++ (stop_flush st).1 /\ clean ms (concat chunks).
Proof.
  intros Hne Hc.
  assert (forall T E st0 out0, stop_inv ms T E st0 -> consume_all st0 chunks = (out0, st) ->
            stop_inv ms (T ++ concat chunks) (E ++ out0) st) as Hgen.
  { clear Hc. induction chunks as [|c cs IH]; intros T E st0 out0 Hi Hc; cbn in Hc.
    { injection Hc as <- <-. cbn. by rewrite !app_nil_r. }
    destruct (consume st0 c) as [[o hit] st1] eqn:E1.
    destruct (consume_all st1 cs) as [os st2] eqn:E2. injection Hc as <- <-.
    pose proof (consume_inv _ _ _ _ _ _ _ _ Hne Hi E1) as Hi1.
    specialize (IH _ _ _ _ Hi1 E2). cbn. by rewrite !app_assoc. }
  assert (stop_inv ms [] [] (StopMarkerState_new ms)) as H0.
  { split; [done|]. cbn. split; [done|]. split; [|by right]. intros m j Hm Ho.
    pose proof (occ_length _ _ _ (Hne _ Hm) Ho). pose proof (Hne _ Hm).
    destruct m; [done|cbn in *; lia]. }
  destruct (Hgen _ _ _ _ H0 Hc) as [_ Hfin]. cbn in Hfin. destruct (stopped st); [done|].
  by destruct Hfin as (? & ? & _).
Qed.

Lemma stop_filter_sound_witness :
  exists st, consume_all (StopMarkerState_new [b!"<|end|>"]) [b!"hello <|e"; b!"nd|> x"]
    = (b!"hello ", st) /\ clean [b!"<|end|>"] b!"hello ".
Proof.
  destruct (consume_all (StopMarkerState_new [b!"<|end|>"]) [b!"hello <|e"; b!"nd|> x"])
    as [out st] eqn:E.
  pose proof (stop_filter_sound [b!"<|end|>"] [b!"hello <|e"; b!"nd|> x"] out st
    ltac:(by intros m ->%list_elem_of_singleton) E) as H.
  assert (out = b!"hello " /\ stopped st = true) as [-> Hs]
    by (vm_compute in E; injection E as <- <-; split; reflexivity).
  rewrite Hs in H. exists st. split; [reflexivity|exact (proj1 H)].
Defined.

Definition demo_row_g : AssetRow := mkAssetRow b!"bbbb" b!"u1" b!"online" b!"valid".
Definition demo_db : Tables :=
  mkTables [mkToken b!"key" b!"u1" 1 1 (-1) false] [demo_row_g].
Definition demo_chat : ChatCompletionRequest :=
  mkChatRequest None [] None None None None None None None None.

Lemma requests_stay_with_tenant_witness :
  exists w', chat_dispatch_request (C := one_byte_codec) (H := IdsFacts.demo_hex) idle_writers
    (mkAuth [b!"bbbb"] 1) None demo_chat b!"t" (map_to_list (clients two_devices)) two_devices
    = (inr (b!"t", b!"bbbb"), w')
  /\ owns 0 demo_db b!"key" b!"bbbb".
Proof.
  pose proof (requests_stay_with_tenant (C := one_byte_codec) (H := IdsFacts.demo_hex)
    idle_writers demo_db 0 (Some b!"Bearer key") (mkAuth [b!"bbbb"] 1) None demo_chat b!"t"
    (map_to_list (clients two_devices)) two_devices eq_refl (enumerates_refl two_devices)) as H.
  assert ((chat_dispatch_request (C := one_byte_codec) (H := IdsFacts.demo_hex) idle_writers
    (mkAuth [b!"bbbb"] 1) None demo_chat b!"t" (map_to_list (clients two_devices))
    two_devices).1 = inr (b!"t", b!"bbbb")) as E by (vm_compute; reflexivity).
  destruct (chat_dispatch_request _ _ _ _ _ _ _) as [x w']. cbn [fst] in E. subst x.
  exists w'. split; [reflexivity|]. destruct H as (_ & (key & [= <-] & Ho) & _). exact Ho.
Defined.
End GatewayFacts.
