(* ===== verification/Points.v ===== *)
(** * Points synchronisation ([gpuf-s/src/points_sync/mod.rs])

    The worker that turns the settled points of a user's devices into credits of an
    external credit service: it stages, per user, the difference between the cumulative
    target and what was synced so far, asks the service for that amount under a key made
    of user and target, and records the outcome. The two source tables and the sync table
    are data; the statements are functions of them. [NUMERIC] values are rationals. The
    credit service, the text of a date, a number or a status code, and the collation of
    the database are parameters. *)
From S2P Require Import Prelude Text Output.
From Stdlib Require Import ZArith QArith Qround Lia String.
From Stdlib Require Import Strings.Byte.
From stdpp Require Import base list gmap sorting.

Local Open Scope Z_scope.
Local Open Scope bytes_scope.

Definition CUMULATIVE_SYNC_KEY_PREFIX : bytes := b!"gpuf:compute:cumulative:v1:".
Definition SOURCE : bytes := b!"gpuf_compute".
Definition CREDIT_TYPE : bytes := b!"earned".

Definition in_i64 (z : Z) : bool := (- 2 ^ 63 <=? z) && (z <? 2 ^ 63).

(** [as i32]. *)
Definition as_i32 (z : Z) : Z := (z + 2 ^ 31) mod 2 ^ 32 - 2 ^ 31.

(** ** Configuration *)
Record PointsSyncConfig := {
  enabled : bool; endpoint : bytes; service_token : bytes; batch_size : Z;
  settle_lag_days : Z; credit_scale : Z; request_timeout_secs : Z; max_attempts : Z }.

Definition PointsSyncConfig_disabled : PointsSyncConfig := {|
  enabled := false; endpoint := []; service_token := []; batch_size := 100;
  settle_lag_days := 2; credit_scale := 100; request_timeout_secs := 10;
  max_attempts := 10 |}.

Definition validate (c : PointsSyncConfig) : result () :=
  if negb (enabled c) then Ok ()
  else if bool_decide (trim (endpoint c) = [])
  then Err b!"points sync endpoint is required when enabled"
  else if bool_decide (trim (service_token c) = [])
  then Err b!"points sync service token is required when enabled"
  else if batch_size c <=? 0 then Err b!"points sync batch size must be positive"
  else if settle_lag_days c <? 1 then Err b!"points sync settle lag days must be at least 1"
  else if credit_scale c <=? 0 then Err b!"points sync credit scale must be positive"
  else if request_timeout_secs c =? 0 then Err b!"points sync request timeout must be positive"
  else if max_attempts c <=? 0 then Err b!"points sync max attempts must be positive"
  else Ok ().

(** ** Tables *)

(** [device_points_daily] and the owner column of [gpu_assets]; a date is a day number. *)
Record DailyPoints := mkDaily {
  dp_client : bytes; dp_date : Z; dp_points : Q; dp_refreshed_at : Z }.
Record AssetOwner := mkOwner { ao_client : bytes; ao_user : option bytes }.
Record Source := mkSource { daily : list DailyPoints; owners : list AssetOwner }.

(** The values of the [status] column. *)
Inductive RowStatus := RPending | RFailed | RSynced | RSuperseded.
#[global] Instance RowStatus_eq_dec : EqDecision RowStatus.
Proof. solve_decision. Defined.

(** [device_points_credit_sync], keyed by [sync_key]. The columns [client_id],
    [client_id_hex] and [device_index] hold the same constants in every row and are left out. *)
Record Row := mkRow {
  row_user : Z; row_settle_date : Z; row_source_points : Q; row_credit : Z;
  row_target : option Z; row_previous : option Z; row_refreshed_at : Z;
  row_status : RowStatus; row_attempts : Z; row_last_error : option bytes;
  row_transaction_id : option Z; row_balance_after : option Z; row_synced_at : option Z;
  row_created_at : Z; row_updated_at : Z }.

Abbreviation SyncTable := (gmap bytes Row).

Definition is_live (r : Row) : bool :=
  bool_decide (row_status r = RPending) || bool_decide (row_status r = RFailed).

(** [sync_key LIKE prefix || '%']: the prefix has no wildcard of its own. *)
Definition cumulative (k : bytes) : bool := starts_with CUMULATIVE_SYNC_KEY_PREFIX k.

Definition sync_key (user target : Z) : bytes :=
  CUMULATIVE_SYNC_KEY_PREFIX ++ dec user ++ b!":" ++ dec target.

(** ** Staging *)

(** [user_id ~ '^[0-9]{1,18}$'] and [user_id::BIGINT]. *)
Definition is_digit (b : byte) : bool := (48 <=? Z_of_byte b) && (Z_of_byte b <=? 57).
Definition parse_user (s : bytes) : option Z :=
  if (1 <=? blen s) && (blen s <=? 18) && forallb is_digit s
  then Some (fold_left (fun acc b => acc * 10 + (Z_of_byte b - 48)) s 0)
  else None.

Definition Qlt_bool (a b : Q) : bool := negb (Qle_bool b a).

(** The rows behind [source_totals], with the user each belongs to. *)
Definition settled (src : Source) (cutoff : Z) : list (Z * DailyPoints) :=
  d ← daily src; a ← owners src;
  if bool_decide (ao_client a = dp_client d) && Qlt_bool 0 (dp_points d)
     && (dp_date d <=? cutoff)
  then match ao_user a ≫= parse_user with Some u => [(u, d)] | None => [] end
  else [].

Definition Qsum (l : list Q) : Q := fold_right Qplus 0%Q l.
Definition maximum (l : list Z) : Z :=
  match l with [] => 0 | x :: l => fold_left Z.max l x end.

Definition rows_of (u : Z) (l : list (Z * DailyPoints)) : list DailyPoints :=
  snd <$> List.filter (fun ud => ud.1 =? u) l.

(** [FLOOR(SUM(points * scale))]. *)
Definition target_amount (scale : Z) (l : list DailyPoints) : Z :=
  Qfloor (Qsum ((fun d => dp_points d * inject_Z scale)%Q <$> l)).

Definition synced_total (u : Z) (t : SyncTable) : Z :=
  gsum (fun r => if bool_decide (row_status r = RSynced) && (row_user r =? u)
                 then row_credit r else 0) t.

(** A row of [current_targets]. *)
Record Target := mkTarget {
  ct_user : Z; ct_settle_date : Z; ct_source_points : Q; ct_credit : Z; ct_target : Z;
  ct_previous : Z; ct_refreshed_at : Z }.

Definition current_target (scale : Z) (l : list (Z * DailyPoints)) (t : SyncTable) (u : Z)
    : Target :=
  let rows := rows_of u l in
  let target := target_amount scale rows in
  let synced := synced_total u t in
  mkTarget u (maximum (dp_date <$> rows)) (Qsum (dp_points <$> rows)) (target - synced) target
    synced (maximum (dp_refreshed_at <$> rows)).

Definition current_targets (scale : Z) (l : list (Z * DailyPoints)) (t : SyncTable)
    : list Target :=
  current_target scale l t <$> remove_dups l.*1.

Definition ct_key (c : Target) : bytes := sync_key (ct_user c) (ct_target c).
#[global] Arguments sync_key : simpl never.
#[global] Arguments ct_key : simpl never.
#[global] Arguments cumulative : simpl never.

(** [UPDATE ... SET status = 'superseded']. *)
Definition supersede (now : Z) (cts : list Target) (k : bytes) (r : Row) : Row :=
  if existsb (fun c => (row_user r =? ct_user c) && is_live r && cumulative k
                       && ((ct_credit c <=? 0) || negb (bool_decide (k = ct_key c)))) cts
  then mkRow (row_user r) (row_settle_date r) (row_source_points r) (row_credit r)
         (row_target r) (row_previous r) (row_refreshed_at r) RSuperseded (row_attempts r)
         (Some b!"superseded by cumulative floor target recalculation")
         (row_transaction_id r) (row_balance_after r) (row_synced_at r) (row_created_at r) now
  else r.

Definition new_row (now : Z) (c : Target) : Row :=
  mkRow (ct_user c) (ct_settle_date c) (ct_source_points c) (ct_credit c)
    (Some (ct_target c)) (Some (ct_previous c)) (ct_refreshed_at c) RPending 0 None None None
    None now now.

(** [ON CONFLICT (sync_key) DO UPDATE ... WHERE ...]. *)
Definition on_conflict (now : Z) (c : Target) (r : Row) : Row :=
  if is_live r
     && (negb (Qeq_bool (row_source_points r) (ct_source_points c))
         || negb (row_credit r =? ct_credit c)
         || negb (bool_decide (row_target r = Some (ct_target c)))
         || negb (bool_decide (row_previous r = Some (ct_previous c)))
         || negb (row_user r =? ct_user c))
  then mkRow (ct_user c) (row_settle_date r) (ct_source_points c) (ct_credit c)
         (Some (ct_target c)) (Some (ct_previous c)) (ct_refreshed_at c) (row_status r)
         (row_attempts r) (row_last_error r) (row_transaction_id r) (row_balance_after r)
         (row_synced_at r) (row_created_at r) now
  else r.

Definition insert_target (now : Z) (t : SyncTable) (c : Target) : SyncTable :=
  if (0 <? ct_credit c) && (ct_credit c <=? 2147483647)
  then <[ct_key c := match t !! ct_key c with
                     | Some r => on_conflict now c r
                     | None => new_row now c
                     end]> t
  else t.

Definition err_db : bytes := b!"database error".

(** The range of a timestamp, in days from 1970-01-01. *)
Definition in_timestamp_range (day : Z) : bool := (-2440588 <=? day) && (day <? 106762940).

(** The statement of [stage_ready_points]. Its parts see the table as it was before; the
    rows superseded and the rows inserted or updated are different ones. A value out of
    range fails the whole statement. *)
Definition stage_ready_points (cfg : PointsSyncConfig) (src : Source) (today now : Z)
    (t : SyncTable) : result SyncTable :=
  let cutoff := today - as_i32 (settle_lag_days cfg) in
  let cts := current_targets (credit_scale cfg) (settled src cutoff) t in
  if negb (in_timestamp_range cutoff)
     || existsb (fun c => negb (in_i64 (ct_target c)) || negb (in_i64 (ct_credit c))) cts
     || existsb (fun kr => negb (in_i64 (synced_total (row_user kr.2) t))) (map_to_list t)
  then Err err_db
  else Ok (fold_left (insert_target now) cts (map_imap (fun k r => Some (supersede now cts k r)) t)).

(** ** Granting *)
Record SyncItem := mkItem {
  si_key : bytes; si_user : Z; si_settle_date : Z; si_source_points : bytes; si_credit : Z;
  si_target : Z; si_previous : Z; si_attempts : Z }.

Record GrantCreditRequest := mkGrant {
  g_user_id : Z; g_amount : Z; g_credit_type : bytes; g_biz_no : bytes; g_source : bytes;
  g_description : bytes }.

Record GrantCreditData := mkData { transaction_id : Z; balance_after : Z }.
Record GrantCreditResponse := mkResponse {
  success : bool; code : Z; message : bytes; data : option GrantCreditData }.

(** The answer to a request: none, or a status with a body that may not decode. *)
Inductive HttpReply := SendError | Response (status : Z) (body : option GrantCreditResponse).

(** The credit service, and how the libraries print what goes into texts. *)
Class CreditService := {
  service_state : Type;
  post : bytes -> bytes -> GrantCreditRequest -> service_state -> HttpReply * service_state;
  status_text : Z -> bytes;
  date_text : Z -> bytes;
  numeric_text : Q -> bytes;
  collate : bytes -> bytes -> bool }.

(** A success: status 2xx and a body that says so and has its data. *)
Definition is_grant (r : HttpReply) : bool :=
  match r with
  | Response status (Some p) =>
      (200 <=? status) && (status <? 300) && success p && bool_decide (is_Some (data p))
  | _ => false
  end.

(** What the worker relies on: the service keeps what it granted by [biz_no], grants a
    number once, and grants nothing when its answer is not a success. *)
Class CreditServiceLaws (K : CreditService) := {
  grants : service_state -> gmap bytes (Z * Z);
  post_accepted ep tok rq s r s' : post ep tok rq s = (r, s') -> is_grant r = true ->
    grants s' = match grants s !! g_biz_no rq with
                | Some _ => grants s
                | None => <[g_biz_no rq := (g_user_id rq, g_amount rq)]> (grants s)
                end;
  post_refused ep tok rq s r s' : post ep tok rq s = (r, s') -> is_grant r = false ->
    grants s' = grants s }.

(** What the database answers during one run, and what it holds. *)
Record RunEnv := mkRunEnv {
  re_source : Source; re_today : Z; re_now : Z; acquire_ok : bool; try_lock : option bool;
  schema_ok : bool; stage_ok : bool; load_ok : bool; mark_ok : nat -> bool }.

Section Worker.
Context `{K : CreditService}.

Definition item_before (a b : SyncItem) : Prop :=
  si_settle_date a < si_settle_date b
  \/ (si_settle_date a = si_settle_date b /\ collate (si_key a) (si_key b) = true).
#[global] Instance item_before_dec : RelDecision item_before.
Proof. intros a b. unfold item_before. apply _. Defined.

Definition item_of (k : bytes) (r : Row) : SyncItem :=
  mkItem k (row_user r) (row_settle_date r) (numeric_text (row_source_points r)) (row_credit r)
    (default (row_credit r) (row_target r)) (default 0 (row_previous r)) (row_attempts r).

Definition load_pending_items (cfg : PointsSyncConfig) (t : SyncTable) : list SyncItem :=
  let rows := List.filter (fun kr => is_live kr.2 && (row_attempts kr.2 <? max_attempts cfg)
                                     && cumulative kr.1) (map_to_list t) in
  take (Z.to_nat (batch_size cfg)) (merge_sort item_before ((fun kr => item_of kr.1 kr.2) <$> rows)).

(** [grant_credit] after the answer to its request. *)
Definition read_reply (r : HttpReply) : result (Z * Z) :=
  match r with
  | SendError => Err b!"failed to call credit grant endpoint"
  | Response status body =>
      if (status =? 401) || (status =? 403)
      then Err (b!"credit grant endpoint rejected service token: " ++ status_text status)
      else if negb ((200 <=? status) && (status <? 300))
      then Err (b!"credit grant endpoint returned status " ++ status_text status)
      else
        let? payload := ok_or body b!"failed to decode credit grant response" in
        if negb (success payload)
        then Err (b!"credit grant failed code=" ++ dec (code payload) ++ b!" message="
                  ++ message payload)
        else
          let? d := ok_or (data payload) b!"credit grant response missing data" in
          Ok (transaction_id d, balance_after d)
  end.

Definition grant_request (i : SyncItem) : GrantCreditRequest :=
  mkGrant (si_user i) (si_credit i) CREDIT_TYPE (si_key i) SOURCE
    (b!"GPUFabric compute points cumulative cutoff=" ++ date_text (si_settle_date i)
     ++ b!" raw_points=" ++ si_source_points i ++ b!" target_units=" ++ dec (si_target i)
     ++ b!" previous_units=" ++ dec (si_previous i)).

Definition grant_credit (cfg : PointsSyncConfig) (i : SyncItem) (s : service_state)
    : result (Z * Z) * service_state :=
  let '(r, s) := post (trim (endpoint cfg)) (trim (service_token cfg)) (grant_request i) s in
  (read_reply r, s).

(** ** Recording the outcome *)
Definition mark_synced (now : Z) (k : bytes) (tx bal : Z) (t : SyncTable) : SyncTable :=
  alter (fun r => mkRow (row_user r) (row_settle_date r) (row_source_points r) (row_credit r)
                    (row_target r) (row_previous r) (row_refreshed_at r) RSynced (row_attempts r)
                    None (Some tx) (Some bal) (Some now) (row_created_at r) now) k t.

Definition truncate_error (e : bytes) : bytes :=
  if 2000 <? blen e then concat (take 2000 (Filter.chars e)) else e.

Definition mark_failed (now : Z) (k : bytes) (e : bytes) (t : SyncTable) : SyncTable :=
  alter (fun r => mkRow (row_user r) (row_settle_date r) (row_source_points r) (row_credit r)
                    (row_target r) (row_previous r) (row_refreshed_at r) RFailed
                    (row_attempts r + 1) (Some (truncate_error e)) (row_transaction_id r)
                    (row_balance_after r) (row_synced_at r) (row_created_at r) now) k t.

(** The sync table, the credit service and the requests posted to it so far. *)
Record State := mkState {
  table : SyncTable; service : service_state; posted : list GrantCreditRequest }.
Definition set_table (t : SyncTable) (st : State) : State := mkState t (service st) (posted st).

(** The [for] loop of [run_once], from the [n]-th item on. A failed update ends it. *)
Fixpoint run_items (cfg : PointsSyncConfig) (env : RunEnv) (n : nat) (items : list SyncItem)
    (st : State) : result () * State :=
  match items with
  | [] => (Ok (), st)
  | i :: items =>
      let '(r, s) := grant_credit cfg i (service st) in
      let st := mkState (table st) s (posted st ++ [grant_request i]) in
      if negb (mark_ok env n) then (Err err_db, st)
      else
        let t := match r with
                 | Ok (tx, bal) => mark_synced (re_now env) (si_key i) tx bal (table st)
                 | Err e => mark_failed (re_now env) (si_key i) e (table st)
                 end in
        run_items cfg env (S n) items (set_table t st)
  end.

(** Creating the table, when it exists already, changes nothing. *)
Definition run_once (cfg : PointsSyncConfig) (env : RunEnv) (st : State) : result () * State :=
  if negb (enabled cfg) then (Ok (), st)
  else if negb (acquire_ok env)
  then (Err b!"failed to acquire points sync lock connection", st)
  else match try_lock env with
  | None => (Err b!"failed to acquire points sync advisory lock", st)
  | Some false => (Ok (), st)
  | Some true =>
      if negb (schema_ok env) then (Err err_db, st)
      else if negb (stage_ok env) then (Err err_db, st)
      else match stage_ready_points cfg (re_source env) (re_today env) (re_now env) (table st) with
      | Err e => (Err e, st)
      | Ok t =>
          let st := set_table t st in
          if negb (load_ok env) then (Err err_db, st)
          else run_items cfg env 0 (load_pending_items cfg t) st
      end
  end.

(** [run_after_points_refresh]: errors are only logged. *)
Definition run_after_points_refresh (cfg : PointsSyncConfig) (env : RunEnv) (st : State) : State :=
  if negb (enabled cfg) then st
  else match validate cfg with
       | Err _ => st
       | Ok _ => (run_once cfg env st).2
       end.

Definition run_many (cfg : PointsSyncConfig) (envs : list RunEnv) (st : State) : State :=
  fold_left (fun st env => run_after_points_refresh cfg env st) envs st.
End Worker.

(** ** Theorems *)
Module PointsFacts.

(** *** Keys *)
Definition colon : byte := Byte.x3a.

Lemma pretty_go_no_colon (x : N) (s : string) :
  colon ∉ bs s -> colon ∉ bs (pretty.pretty_N_go x s).
Proof.
  revert s. induction (N.lt_wf_0 x) as [x _ IH]. intros s Hs.
  destruct (decide (0 < x)%N) as [Hx|Hx].
  - rewrite pretty.pretty_N_go_step by done. apply IH; [by apply N.div_lt|].
    unfold bs. cbn. apply not_elem_of_cons. split; [|exact Hs].
    unfold pretty.pretty_N_char. by repeat case_match.
  - assert (x = 0%N) as -> by lia. exact Hs.
Qed.

Lemma dec_no_colon (z : Z) : colon ∉ dec z.
Proof.
  assert (forall p, colon ∉ bs (pretty.pretty (N.pos p))) as HN.
  { intros p. unfold pretty.pretty, pretty.pretty_N. case_decide; [done|].
    apply pretty_go_no_colon, not_elem_of_nil. }
  destruct z as [|p|p]; [vm_compute; set_solver|exact (HN p)|].
  change (dec (Z.neg p)) with (Byte.x2d :: bs (pretty.pretty (N.pos p))).
  apply not_elem_of_cons. split; [discriminate|exact (HN p)].
Qed.

Lemma split_at_first {A} (c : A) (l1 l2 r1 r2 : list A) :
  c ∉ l1 -> c ∉ l2 -> l1 ++ c :: r1 = l2 ++ c :: r2 -> l1 = l2 /\ r1 = r2.
Proof.
  revert l2. induction l1 as [|x l1 IH]; intros [|y l2] H1 H2 E; cbn in E; simplify_eq; try done.
  - set_solver.
  - set_solver.
  - destruct (IH l2) as [-> ->]; set_solver.
Qed.

Lemma sync_key_inj (u t u' t' : Z) : sync_key u t = sync_key u' t' -> u = u' /\ t = t'.
Proof.
  unfold sync_key. intros E. apply app_inv_head in E.
  apply (split_at_first colon) in E as [E1 E2]; [|apply dec_no_colon..].
  split; by apply dec_inj.
Qed.

Lemma sync_key_cumulative u t : cumulative (sync_key u t) = true.
Proof. apply starts_with_spec. eexists. reflexivity. Qed.

(** *** Sums over the table *)
Definition oval {V} (f : V -> Z) (o : option V) : Z := match o with Some v => f v | None => 0 end.

Lemma gsum_at {V} (f : V -> Z) (m : gmap bytes V) (k : bytes) :
  gsum f m = oval f (m !! k) + gsum f (delete k m).
Proof.
  destruct (m !! k) as [v|] eqn:E; cbn; [by apply gsum_delete|].
  by rewrite delete_id.
Qed.

Lemma gsum_pointwise {V} (f : V -> Z) (m m' : gmap bytes V) :
  (forall k, oval f (m !! k) = oval f (m' !! k)) -> gsum f m = gsum f m'.
Proof.
  revert m'. induction m as [|k v m Hk IH] using map_ind; intros m' H.
  - rewrite gsum_empty. symmetry.
    assert (forall k v, m' !! k = Some v -> f v = 0) as H'.
    { intros k v E. specialize (H k). by rewrite E, lookup_empty in H. }
    clear H. induction m' as [|k v m Hk IH] using map_ind; [apply gsum_empty|].
    rewrite gsum_insert by done. rewrite (H' k v) by apply lookup_insert_eq.
    apply IH. intros k' v' E. apply (H' k'). rewrite lookup_insert_ne by congruence. done.
  - rewrite gsum_insert, (gsum_at f m' k) by done. pose proof (H k) as H1.
    rewrite lookup_insert_eq in H1. cbn in H1. rewrite H1. f_equal. apply IH. intros j.
    destruct (decide (j = k)) as [->|Hj]; [by rewrite Hk, lookup_delete_eq|].
    rewrite lookup_delete_ne by done. specialize (H j). by rewrite lookup_insert_ne in H.
Qed.

Definition contribution (u : Z) (r : Row) : Z :=
  if bool_decide (row_status r = RSynced) && (row_user r =? u) then row_credit r else 0.

Lemma synced_total_insert u t k r r' :
  t !! k = Some r ->
  synced_total u (<[k := r']> t) = synced_total u t - contribution u r + contribution u r'.
Proof.
  intros Hk. unfold synced_total. rewrite (gsum_at _ t k), (gsum_at _ (<[k := r']> t) k).
  rewrite Hk, lookup_insert_eq, delete_insert_eq. cbn. unfold contribution. lia.
Qed.

Lemma live_contributes_nothing u r : is_live r = true -> contribution u r = 0.
Proof. unfold is_live, contribution. by destruct (row_status r). Qed.

(** *** The invariant of the sync table *)

(** What was granted under cumulative keys, per user. *)
Definition granted_total (u : Z) (g : gmap bytes (Z * Z)) : Z :=
  gsum (fun ua : Z * Z => if ua.1 =? u then ua.2 else 0) (filter (fun kv => cumulative kv.1 = true) g).

(** The grant a row stands for. *)
Definition recorded (t : SyncTable) (k : bytes) : option (Z * Z) :=
  match t !! k with
  | Some r => if bool_decide (row_status r = RSynced) then Some (row_user r, row_credit r) else None
  | None => None
  end.

Record ledger_inv (base peak : Z -> Z) (t : SyncTable) (g : gmap bytes (Z * Z)) : Prop := {
  li_key k r : t !! k = Some r -> cumulative k = true ->
    exists tg, k = sync_key (row_user r) tg /\ row_target r = Some tg;
  li_live k r tg : t !! k = Some r -> is_live r = true -> k = sync_key (row_user r) tg ->
    row_credit r = tg - synced_total (row_user r) t /\ 0 < row_credit r
    /\ tg <= peak (row_user r);
  li_one k k' r r' : t !! k = Some r -> t !! k' = Some r' -> is_live r = true ->
    is_live r' = true -> cumulative k = true -> cumulative k' = true ->
    row_user r = row_user r' -> k = k';
  li_grants k : cumulative k = true -> g !! k = recorded t k;
  li_total u : granted_total u g = synced_total u t - base u;
  li_peak u : synced_total u t <= peak u }.

(** *** Staging *)
Definition insertable (c : Target) : bool := (0 <? ct_credit c) && (ct_credit c <=? 2147483647).
Definition upsert (now : Z) (c : Target) (o : option Row) : Row :=
  match o with Some r => on_conflict now c r | None => new_row now c end.

Lemma fold_insert_lookup now l t :
  NoDup (ct_key <$> l) ->
  (forall c, c ∈ l -> insertable c = true ->
     fold_left (insert_target now) l t !! ct_key c = Some (upsert now c (t !! ct_key c)))
  /\ (forall k, (forall c, c ∈ l -> insertable c = true -> k <> ct_key c) ->
     fold_left (insert_target now) l t !! k = t !! k).
Proof.
  revert t. induction l as [|c l IH]; intros t Hnd; cbn.
  { split; [intros c Hc; by apply elem_of_nil in Hc|done]. }
  apply NoDup_cons in Hnd as [Hc Hnd]. destruct (IH (insert_target now t c) Hnd) as [IH1 IH2].
  assert (forall k, (insertable c = true -> k <> ct_key c) -> insert_target now t c !! k = t !! k)
    as Hother.
  { intros k Hk. unfold insert_target. fold (insertable c). destruct (insertable c); [|done].
    rewrite lookup_insert_ne; [done|]. intros E. by apply Hk. }
  split.
  - intros d Hd Hins. apply elem_of_cons in Hd as [->|Hd].
    + rewrite IH2.
      * unfold insert_target. fold (insertable c). rewrite Hins, lookup_insert_eq. done.
      * intros c' Hc' _ E. apply Hc. rewrite E. apply list_elem_of_fmap. eauto.
    + rewrite IH1 by done. rewrite Hother; [done|]. intros _ E. apply Hc. rewrite <- E.
      apply list_elem_of_fmap. eauto.
  - intros k Hk. rewrite IH2 by (intros; apply Hk; [by right|done]).
    apply Hother. intros H. apply Hk; [left|done].
Qed.

Lemma current_targets_spec scale l t c :
  c ∈ current_targets scale l t ->
  c = current_target scale l t (ct_user c) /\ ct_user c ∈ l.*1.
Proof.
  intros (u & -> & Hu)%list_elem_of_fmap. split; [done|]. by rewrite elem_of_remove_dups in Hu.
Qed.

Lemma current_targets_users scale l t c c' :
  c ∈ current_targets scale l t -> c' ∈ current_targets scale l t -> ct_user c = ct_user c' -> c = c'.
Proof.
  intros [-> _]%current_targets_spec [-> _]%current_targets_spec E. cbn in E. by rewrite E.
Qed.

Lemma current_targets_keys scale l t : NoDup (ct_key <$> current_targets scale l t).
Proof.
  unfold current_targets. rewrite <- list_fmap_compose. apply NoDup_fmap_2_strong, NoDup_remove_dups.
  intros u u' _ _ E. by apply sync_key_inj in E as [E _].
Qed.

Section Staging.
Context (base peak : Z -> Z) (t : SyncTable) (g : gmap bytes (Z * Z)).
Context (Hinv : ledger_inv base peak t g) (scale now : Z) (l : list (Z * DailyPoints)).
Local Abbreviation cts := (current_targets scale l t).

Definition staged : SyncTable :=
  fold_left (insert_target now) cts (map_imap (fun k r => Some (supersede now cts k r)) t).

(** The current target of a row's own key does not supersede the row. *)
Lemma supersede_own c r :
  c ∈ cts -> insertable c = true -> t !! ct_key c = Some r -> supersede now cts (ct_key c) r = r.
Proof.
  intros Hc Hi Hr. unfold supersede. destruct (existsb _ cts) eqn:E; [exfalso|done].
  apply existsb_exists in E as (c' & Hc' & E). apply list_elem_of_In in Hc'.
  bool_hyps. destruct (li_key _ _ _ _ Hinv _ _ Hr ltac:(apply sync_key_cumulative)) as (tg & Ek & _).
  apply sync_key_inj in Ek as [Eu _].
  assert (c' = c) as -> by (eapply current_targets_users; eauto; congruence).
  unfold insertable in Hi. bool_hyps. match goal with H : (_ || _)%bool = true |- _ => apply orb_true_iff in H as [?|?] end;
    bool_hyps; [lia|done].
Qed.

(** Where a staged row comes from. *)
Lemma staged_cases k :
  (exists c, c ∈ cts /\ insertable c = true /\ k = ct_key c
     /\ staged !! k = Some (upsert now c (t !! k)))
  \/ ((forall c, c ∈ cts -> insertable c = true -> k <> ct_key c)
     /\ staged !! k = supersede now cts k <$> t !! k).
Proof.
  destruct (fold_insert_lookup now cts (map_imap (fun k r => Some (supersede now cts k r)) t)
              (current_targets_keys scale l t)) as [H1 H2].
  destruct (decide (Exists (fun c => insertable c = true /\ k = ct_key c) cts)) as [E|E].
  - apply Exists_exists in E as (c & Hc & Hi & ->). left. exists c. split_and!; try done.
    unfold staged. rewrite (H1 c Hc Hi), map_lookup_imap.
    destruct (t !! ct_key c) as [r|] eqn:Er; cbn; [|done]. by rewrite supersede_own.
  - assert (forall c, c ∈ cts -> insertable c = true -> k <> ct_key c) as Hk.
    { intros c Hc Hi ->. apply E, Exists_exists. eauto. }
    right. split; [exact Hk|]. unfold staged. rewrite (H2 k Hk), map_lookup_imap.
    by destruct (t !! k).
Qed.

Lemma supersede_cases k r :
  (supersede now cts k r = r
   /\ forall c, c ∈ cts -> row_user r = ct_user c -> is_live r = true -> cumulative k = true ->
      k = ct_key c)
  \/ (is_live r = true /\ row_status (supersede now cts k r) = RSuperseded
      /\ row_user (supersede now cts k r) = row_user r
      /\ row_target (supersede now cts k r) = row_target r).
Proof.
  unfold supersede. destruct (existsb _ cts) eqn:E.
  - right. apply existsb_exists in E as (c & _ & E). bool_hyps. done.
  - left. split; [done|]. intros c Hc Hu Hl Hcum.
    destruct (decide (k = ct_key c)) as [|Hne]; [done|exfalso].
    enough (existsb (fun c => (row_user r =? ct_user c) && is_live r && cumulative k
      && ((ct_credit c <=? 0) || negb (bool_decide (k = ct_key c)))) cts = true) by congruence.
    apply existsb_exists. exists c. split; [by apply list_elem_of_In|].
    rewrite Hu, Z.eqb_refl, Hl, Hcum, bool_decide_false by done. by rewrite orb_true_r.
Qed.

(** The row of a target: live rows carry its amounts, the others are left alone. *)
Lemma upsert_cases c :
  c ∈ cts ->
  let r' := upsert now c (t !! ct_key c) in
  (is_live r' = true /\ row_user r' = ct_user c /\ row_credit r' = ct_credit c
   /\ row_target r' = Some (ct_target c)
   /\ forall r, t !! ct_key c = Some r -> is_live r = true)
  \/ (is_live r' = false /\ t !! ct_key c = Some r').
Proof.
  intros Hc. cbn zeta. destruct (t !! ct_key c) as [r|] eqn:Er; cbn; [|left; naive_solver].
  unfold on_conflict. destruct (is_live r) eqn:Hl; cbn; [|by right].
  left. destruct (_ || _) eqn:E; cbn.
  - unfold is_live in *. cbn. naive_solver.
  - bool_hyps. split_and!; [done..|naive_solver].
Qed.

Lemma live_not_synced r : is_live r = true -> row_status r <> RSynced.
Proof. unfold is_live. by destruct (row_status r). Qed.

(** Staging leaves synced rows alone and makes none. *)
Lemma staged_status k :
  staged !! k = t !! k
  \/ ((forall r, t !! k = Some r -> row_status r <> RSynced)
      /\ exists r', staged !! k = Some r' /\ row_status r' <> RSynced).
Proof.
  destruct (staged_cases k) as [(c & Hc & Hi & -> & ->)|[_ ->]].
  - destruct (upsert_cases c Hc) as [(Hl & _ & _ & _ & Hr)|[_ Hr]]; [right|by left].
    split; [|eauto using live_not_synced]. intros r Er. by apply live_not_synced, Hr.
  - destruct (t !! k) as [r|]; [cbn|by left].
    destruct (supersede_cases k r) as [[-> _]|(Hl & Hs & _)]; [by left|right].
    split; [intros ? [= <-]; by apply live_not_synced|]. eexists. split; [done|]. by rewrite Hs.
Qed.

Lemma staged_synced_total u : synced_total u staged = synced_total u t.
Proof.
  apply gsum_pointwise. intros k.
  destruct (staged_status k) as [->|(Ht & r' & -> & Hr')]; [done|]. cbn.
  rewrite (bool_decide_false _ Hr'). destruct (t !! k) as [r|]; cbn; [|done].
  by rewrite (bool_decide_false _ (Ht r eq_refl)).
Qed.

Lemma staged_recorded k : recorded staged k = recorded t k.
Proof.
  unfold recorded. destruct (staged_status k) as [->|(Ht & r' & -> & Hr')]; [done|].
  rewrite (bool_decide_false _ Hr'). destruct (t !! k) as [r|]; cbn; [|done].
  by rewrite (bool_decide_false _ (Ht r eq_refl)).
Qed.

(** A live row after staging carries the current target of its user, if there is one. *)
Lemma staged_live k r :
  staged !! k = Some r -> is_live r = true -> cumulative k = true ->
  (exists c, c ∈ cts /\ 0 < ct_credit c /\ k = ct_key c /\ row_user r = ct_user c
     /\ row_credit r = ct_credit c /\ row_target r = Some (ct_target c))
  \/ (t !! k = Some r /\ forall c, c ∈ cts -> row_user r = ct_user c -> k = ct_key c).
Proof.
  intros Hk Hl Hcum. destruct (staged_cases k) as [(c & Hc & Hi & -> & E)|[_ E]];
    rewrite E in Hk.
  - injection Hk as <-. destruct (upsert_cases c Hc) as [(_ & Hu & Hcr & Ht & _)|[Hn _]];
      [left|congruence].
    exists c. unfold insertable in Hi. bool_hyps. done.
  - destruct (t !! k) as [r0|] eqn:Er; [injection Hk as Hk|done]. right.
    destruct (supersede_cases k r0) as [[Es Hs]|(_ & Hs & _)].
    + assert (r0 = r) as -> by congruence. split; [done|]. intros c Hc Hu. by apply Hs.
    + rewrite Hk in Hs. unfold is_live in Hl. by rewrite Hs in Hl.
Qed.

Lemma staged_key k r :
  staged !! k = Some r -> cumulative k = true ->
  exists tg, k = sync_key (row_user r) tg /\ row_target r = Some tg.
Proof.
  intros Hk Hcum. destruct (staged_cases k) as [(c & Hc & _ & -> & E)|[_ E]]; rewrite E in Hk.
  - injection Hk as <-. destruct (upsert_cases c Hc) as [(_ & Hu & _ & Ht & _)|[_ Hr]].
    + rewrite Hu. eauto.
    + by apply (li_key _ _ _ _ Hinv).
  - destruct (t !! k) as [r0|] eqn:Er; [injection Hk as Hk|done].
    destruct (li_key _ _ _ _ Hinv _ _ Er Hcum) as (tg & -> & Ht). exists tg.
    destruct (supersede_cases (sync_key (row_user r0) tg) r0) as [[Es _]|(_ & _ & Hu & Ht')].
    + by assert (r0 = r) as -> by congruence.
    + rewrite Hk in Hu, Ht'. by rewrite Hu, Ht'.
Qed.

Lemma staged_inv (peak' : Z -> Z) :
  (forall u, peak u <= peak' u) -> (forall c, c ∈ cts -> ct_target c <= peak' (ct_user c)) ->
  ledger_inv base peak' staged g.
Proof.
  intros Hp Hcts. split.
  - apply staged_key.
  - intros k r tg Hk Hl ->. rewrite staged_synced_total.
    destruct (staged_live _ _ Hk Hl ltac:(apply sync_key_cumulative))
      as [(c & Hc & H0 & Ek & Hu & Hcr & Ht)|[Ht _]].
    + apply sync_key_inj in Ek as [_ ->]. rewrite Hcr, Hu.
      pose proof (Hcts c Hc). apply current_targets_spec in Hc as [Ec _].
      split_and!; [|done|done]. by rewrite Ec.
    + destruct (li_live _ _ _ _ Hinv _ _ tg Ht Hl eq_refl) as (? & ? & ?).
      specialize (Hp (row_user r)). split_and!; [done..|lia].
  - intros k k' r r' Hk Hk' Hl Hl' Hc Hc' Eu.
    destruct (staged_live _ _ Hk Hl Hc) as [(c & Hin & _ & -> & Hu & _)|[Ht H1]],
      (staged_live _ _ Hk' Hl' Hc') as [(c' & Hin' & _ & -> & Hu' & _)|[Ht' H1']].
    + f_equal. eapply current_targets_users; eauto; congruence.
    + symmetry. apply H1'; congruence.
    + apply H1; congruence.
    + eapply (li_one _ _ _ _ Hinv); eauto.
  - intros k Hk. rewrite staged_recorded. by apply (li_grants _ _ _ _ Hinv).
  - intros u. rewrite staged_synced_total. apply (li_total _ _ _ _ Hinv).
  - intros u. rewrite staged_synced_total. pose proof (li_peak _ _ _ _ Hinv u). specialize (Hp u). lia.
Qed.
End Staging.

(** *** Granting *)
Lemma read_reply_ok `{K : CreditService} r : is_ok (read_reply r) = is_grant r.
Proof.
  destruct r as [|status [p|]]; [done|..]; unfold read_reply, is_grant.
  - destruct (_ || _) eqn:E.
    { cbn. symmetry. apply orb_true_iff in E as [E|E]; bool_hyps; subst; done. }
    destruct (_ && _); [|done]. cbn. destruct (success p); [|done]. by destruct (data p).
  - repeat (destruct (_ || _) || destruct (negb _)); done.
Qed.

Lemma alter_insert_Some {V} (f : V -> V) (k : bytes) (m : gmap bytes V) (v : V) :
  m !! k = Some v -> alter f k m = <[k := f v]> m.
Proof.
  intros Hk. apply map_eq. intros j. destruct (decide (j = k)) as [->|Hj].
  - by rewrite lookup_alter_eq, lookup_insert_eq, Hk.
  - by rewrite lookup_alter_ne, lookup_insert_ne.
Qed.

Lemma granted_total_insert u k v g :
  cumulative k = true -> g !! k = None ->
  granted_total u (<[k := v]> g) = granted_total u g + (if v.1 =? u then v.2 else 0).
Proof.
  intros Hc Hk. unfold granted_total. rewrite map_filter_insert_True by done.
  rewrite gsum_insert; [lia|]. rewrite map_lookup_filter, Hk. done.
Qed.

(** A row that keeps its user, amounts and key form. *)
Definition same_claim (r r' : Row) : Prop :=
  row_user r' = row_user r /\ row_credit r' = row_credit r /\ row_target r' = row_target r.

Lemma inv_failed base peak t g k r r' :
  ledger_inv base peak t g -> t !! k = Some r -> same_claim r r' -> is_live r = true ->
  is_live r' = true -> ledger_inv base peak (<[k := r']> t) g.
Proof.
  intros Hinv Hk (Eu & Ec & Et) Hl Hl'.
  assert (forall u, synced_total u (<[k := r']> t) = synced_total u t) as Hs.
  { intros u. rewrite (synced_total_insert u t k r r' Hk), !live_contributes_nothing by done. lia. }
  split.
  - intros j q Hj Hc. apply lookup_insert_Some in Hj as [[<- <-]|[_ Hj]].
    + rewrite Eu, Et. by apply (li_key _ _ _ _ Hinv).
    + by apply (li_key _ _ _ _ Hinv).
  - intros j q tg Hj Hlq Ej. rewrite Hs. apply lookup_insert_Some in Hj as [[<- <-]|[_ Hj]].
    + rewrite Ec, Eu in *. by apply (li_live _ _ _ _ Hinv k r).
    + by apply (li_live _ _ _ _ Hinv j q).
  - intros j j' q q' Hj Hj' Hlq Hlq' Hc Hc' E.
    apply lookup_insert_Some in Hj as [[<- <-]|[_ Hj]], Hj' as [[<- <-]|[_ Hj']]; [done|..];
      eapply (li_one _ _ _ _ Hinv); eauto; congruence.
  - intros j Hj. rewrite (li_grants _ _ _ _ Hinv j Hj). unfold recorded.
    destruct (decide (j = k)) as [->|Hne]; [|by rewrite lookup_insert_ne].
    rewrite lookup_insert_eq, Hk, !bool_decide_false by (by apply live_not_synced). done.
  - intros u. rewrite Hs. apply (li_total _ _ _ _ Hinv).
  - intros u. rewrite Hs. apply (li_peak _ _ _ _ Hinv).
Qed.

Lemma inv_synced base peak t g k r r' :
  ledger_inv base peak t g -> t !! k = Some r -> same_claim r r' -> is_live r = true ->
  cumulative k = true -> row_status r' = RSynced ->
  g !! k = None
  /\ (forall u, synced_total u (<[k := r']> t)
        = synced_total u t + (if row_user r =? u then row_credit r else 0))
  /\ ledger_inv base peak (<[k := r']> t) (<[k := (row_user r, row_credit r)]> g).
Proof.
  intros Hinv Hk (Eu & Ec & Et) Hl Hcum Hs'.
  assert (is_live r' = false) as Hl' by (unfold is_live; by rewrite Hs').
  assert (g !! k = None) as Hg.
  { rewrite (li_grants _ _ _ _ Hinv k Hcum). unfold recorded.
    by rewrite Hk, bool_decide_false by (by apply live_not_synced). }
  assert (forall u, synced_total u (<[k := r']> t)
            = synced_total u t + (if row_user r =? u then row_credit r else 0)) as Hs.
  { intros u. rewrite (synced_total_insert u t k r r' Hk), live_contributes_nothing by done.
    unfold contribution. rewrite bool_decide_true, Eu, Ec by done. cbn. lia. }
  destruct (li_key _ _ _ _ Hinv k r Hk Hcum) as (tg & Ek & Etg).
  destruct (li_live _ _ _ _ Hinv k r tg Hk Hl Ek) as (Hcr & H0 & Hp).
  split; [done|]. split; [done|]. split.
  - intros j q Hj Hc. apply lookup_insert_Some in Hj as [[<- <-]|[_ Hj]].
    + rewrite Eu, Et. eauto.
    + by apply (li_key _ _ _ _ Hinv).
  - intros j q tq Hj Hlq Ej. apply lookup_insert_Some in Hj as [[<- <-]|[Hne Hj]]; [congruence|].
    rewrite Hs. destruct (Z.eqb_spec (row_user r) (row_user q)) as [E|_].
    + destruct Hne. eapply (li_one _ _ _ _ Hinv); eauto. rewrite Ej. apply sync_key_cumulative.
    + rewrite Z.add_0_r. by apply (li_live _ _ _ _ Hinv j q).
  - intros j j' q q' Hj Hj' Hlq Hlq' Hc Hc' E.
    apply lookup_insert_Some in Hj as [[<- <-]|[_ Hj]], Hj' as [[<- <-]|[_ Hj']];
      [congruence..|]. eapply (li_one _ _ _ _ Hinv); eauto.
  - intros j Hj. unfold recorded. destruct (decide (j = k)) as [->|Hne].
    + by rewrite !lookup_insert_eq, bool_decide_true, Eu, Ec.
    + rewrite !lookup_insert_ne by done. by apply (li_grants _ _ _ _ Hinv).
  - intros u. rewrite Hs, granted_total_insert by done. rewrite (li_total _ _ _ _ Hinv u). cbn. lia.
  - intros u. rewrite Hs. pose proof (li_peak _ _ _ _ Hinv u).
    destruct (Z.eqb_spec (row_user r) u) as [<-|_]; lia.
Qed.

Section Runs.
Context `{K : CreditService} {L : CreditServiceLaws K}.

Definition matches (t : SyncTable) (i : SyncItem) : Prop :=
  exists r, t !! si_key i = Some r /\ is_live r = true /\ cumulative (si_key i) = true
    /\ si_user i = row_user r /\ si_credit i = row_credit r.

Lemma matches_insert t k r i : si_key i <> k -> matches t i -> matches (<[k := r]> t) i.
Proof. intros Hne (q & Hq & H). exists q. by rewrite lookup_insert_ne by done. Qed.

(** The table after the outcome of one item has been recorded. *)
Definition record (now : Z) (i : SyncItem) (r : result (Z * Z)) (t : SyncTable) : SyncTable :=
  match r with
  | Ok (tx, bal) => mark_synced now (si_key i) tx bal t
  | Err e => mark_failed now (si_key i) e t
  end.

Lemma item_step base peak cfg now i t s r s' :
  ledger_inv base peak t (grants s) -> matches t i -> grant_credit cfg i s = (r, s') ->
  ledger_inv base peak (record now i r t) (grants s')
  /\ (forall j, si_key j <> si_key i -> matches t j -> matches (record now i r t) j)
  /\ (is_ok r = true -> forall u, synced_total u (record now i r t)
        = synced_total u t + (if si_user i =? u then si_credit i else 0)).
Proof.
  intros Hinv (q & Hq & Hl & Hc & Eu & Ec) Hg. unfold grant_credit in Hg.
  destruct (post _ _ _ s) as [rep s1] eqn:Hpost. injection Hg as <- <-.
  pose proof (read_reply_ok rep) as Hrep.
  destruct (read_reply rep) as [[tx bal]|e] eqn:Er; cbn in Hrep; unfold record.
  - apply post_accepted in Hpost; [|done]. unfold mark_synced.
    rewrite (alter_insert_Some _ _ _ _ Hq).
    match goal with |- context [<[_ := ?r']> t] =>
      destruct (inv_synced _ _ _ _ _ q r' Hinv Hq ltac:(done) Hl Hc eq_refl) as (Hg & Hs & Hi) end.
    cbn in Hpost. rewrite Hg in Hpost. rewrite Hpost, Eu, Ec.
    split_and!; [exact Hi|intros; by apply matches_insert|intros _; exact Hs].
  - apply post_refused in Hpost; [|done]. rewrite Hpost. unfold mark_failed.
    rewrite (alter_insert_Some _ _ _ _ Hq).
    split_and!; [by eapply inv_failed|intros; by apply matches_insert|done].
Qed.

Lemma run_items_cons cfg env n i items st :
  run_items cfg env n (i :: items) st
  = let '(r, s) := grant_credit cfg i (service st) in
    let st := mkState (table st) s (posted st ++ [grant_request i]) in
    if negb (mark_ok env n) then (Err err_db, st)
    else run_items cfg env (S n) items (set_table (record (re_now env) i r (table st)) st).
Proof. reflexivity. Qed.

Definition item_amount (u : Z) (i : SyncItem) : Z := if si_user i =? u then si_credit i else 0.

Lemma run_items_inv base peak cfg env n items st r st' :
  ledger_inv base peak (table st) (grants (service st)) -> NoDup (si_key <$> items) ->
  Forall (matches (table st)) items -> (forall i, mark_ok env i = true) ->
  run_items cfg env n items st = (r, st') ->
  ledger_inv base peak (table st') (grants (service st'))
  /\ ((forall ep tok rq s, is_grant (post ep tok rq s).1 = true) -> forall u,
        synced_total u (table st') = synced_total u (table st) + sum_Z (item_amount u) items).
Proof.
  intros Hinv Hnd Hm Hok. revert n st Hinv Hm.
  induction items as [|i items IH]; intros n st Hinv Hm E.
  { injection E as <- <-. split; [done|]. intros _ u. cbn. lia. }
  rewrite fmap_cons, NoDup_cons in Hnd. destruct Hnd as [Hi Hnd].
  apply Forall_cons in Hm as [Hmi Hm]. rewrite run_items_cons in E.
  destruct (grant_credit cfg i (service st)) as [q s] eqn:Eg. cbv zeta in E.
  rewrite Hok in E. cbn [negb] in E.
  destruct (item_step _ _ _ (re_now env) _ _ _ _ _ Hinv Hmi Eg) as (Hinv' & Hm' & Hs).
  apply IH in E as [Hfin Hsum]; [|done|exact Hinv'|].
  - split; [exact Hfin|]. intros Hall u. rewrite (Hsum Hall u).
    change (sum_Z (item_amount u) (i :: items))
      with (item_amount u i + sum_Z (item_amount u) items).
    assert (is_ok q = true) as Hq.
    { unfold grant_credit in Eg. destruct (post _ _ _ _) as [rep s1] eqn:Hp. injection Eg as <- <-.
      rewrite read_reply_ok. by rewrite <- (Hall (trim (endpoint cfg)) (trim (service_token cfg))
        (grant_request i) (service st)), Hp. }
    cbn [table set_table]. rewrite (Hs Hq u). unfold item_amount at 2. lia.
  - cbn. apply Forall_forall. intros j Hj. apply Hm'; [|by apply (proj1 (Forall_forall _ _) Hm)].
    intros E'. apply Hi. rewrite <- E'. apply list_elem_of_fmap. eauto.
Qed.

Lemma run_items_posted cfg env n items st :
  exists m, posted (run_items cfg env n items st).2
            = posted st ++ (grant_request <$> take m items).
Proof.
  revert n st. induction items as [|i items IH]; intros n st; cbn [run_items].
  { exists O. cbn. by rewrite app_nil_r. }
  destruct (grant_credit cfg i (service st)) as [q s]. cbv zeta.
  destruct (negb (mark_ok env n)).
  { exists 1%nat. cbn. done. }
  edestruct IH as [m Em]. exists (S m). rewrite Em. cbn. by rewrite <- app_assoc.
Qed.

(** *** Loading *)
Definition loadable (cfg : PointsSyncConfig) (kr : bytes * Row) : bool :=
  is_live kr.2 && (row_attempts kr.2 <? max_attempts cfg) && cumulative kr.1.
Definition loaded (cfg : PointsSyncConfig) (t : SyncTable) : list SyncItem :=
  (fun kr => item_of kr.1 kr.2) <$> List.filter (loadable cfg) (map_to_list t).

Lemma load_pending_perm cfg t :
  exists l, l ≡ₚ loaded cfg t
    /\ load_pending_items cfg t = take (Z.to_nat (batch_size cfg)) l.
Proof.
  exists (merge_sort item_before (loaded cfg t)). split; [apply merge_sort_Permutation|done].
Qed.

Lemma NoDup_filter_fst {A B} (f : A * B -> bool) (l : list (A * B)) :
  NoDup l.*1 -> NoDup (List.filter f l).*1.
Proof.
  induction l as [|x l IH]; cbn; [done|]. intros [Hx Hl]%NoDup_cons.
  destruct (f x); [|by apply IH]. cbn. apply NoDup_cons. split; [|by apply IH].
  intros (y & Ey & Hy)%list_elem_of_fmap. apply Hx, list_elem_of_fmap.
  apply list_elem_of_In, filter_In in Hy as [Hy _]. apply list_elem_of_In in Hy. eauto.
Qed.

Lemma loaded_keys cfg t : si_key <$> loaded cfg t = (List.filter (loadable cfg) (map_to_list t)).*1.
Proof. unfold loaded. rewrite <- list_fmap_compose. by apply list_fmap_ext. Qed.

Lemma loaded_spec cfg t i :
  i ∈ loaded cfg t <-> exists k r, t !! k = Some r /\ loadable cfg (k, r) = true /\ i = item_of k r.
Proof.
  unfold loaded. rewrite list_elem_of_fmap. split.
  - intros ([k r] & -> & H). apply list_elem_of_In, filter_In in H as [H Hl].
    apply list_elem_of_In, elem_of_map_to_list in H. eauto.
  - intros (k & r & Hk & Hl & ->). exists (k, r). split; [done|].
    apply list_elem_of_In, filter_In. split; [|done]. by apply list_elem_of_In, elem_of_map_to_list.
Qed.

Lemma load_facts cfg t :
  NoDup (si_key <$> load_pending_items cfg t)
  /\ forall i, i ∈ load_pending_items cfg t -> i ∈ loaded cfg t.
Proof.
  destruct (load_pending_perm cfg t) as (l & Hp & ->). split.
  - rewrite fmap_take. eapply sublist_NoDup; [|apply sublist_take].
    rewrite Hp, loaded_keys. apply NoDup_filter_fst, NoDup_fst_map_to_list.
  - intros i Hi. rewrite <- Hp. apply elem_of_take in Hi as (? & Hi & _).
    by eapply list_elem_of_lookup_2.
Qed.

Lemma loaded_matches cfg t i : i ∈ loaded cfg t -> matches t i.
Proof.
  intros (k & r & Hk & Hl & ->)%loaded_spec. unfold loadable in Hl. cbn in Hl. bool_hyps.
  exists r. done.
Qed.

(** *** Runs *)
Definition cutoff (cfg : PointsSyncConfig) (env : RunEnv) : Z :=
  re_today env - as_i32 (settle_lag_days cfg).
Definition settled_rows (cfg : PointsSyncConfig) (env : RunEnv) : list (Z * DailyPoints) :=
  settled (re_source env) (cutoff cfg env).

(** What a user's settled points are worth at a run. *)
Definition settled_target (cfg : PointsSyncConfig) (env : RunEnv) (u : Z) : Z :=
  target_amount (credit_scale cfg) (rows_of u (settled_rows cfg env)).

Definition peak_target (cfg : PointsSyncConfig) (envs : list RunEnv) (u p : Z) : Z :=
  fold_left (fun p env => Z.max p (settled_target cfg env u)) envs p.

Lemma stage_ok_staged cfg env now t t' :
  stage_ready_points cfg (re_source env) (re_today env) now t = Ok t' ->
  t' = staged t (credit_scale cfg) now (settled_rows cfg env).
Proof. unfold stage_ready_points. destruct (_ || _); [done|]. by intros [= <-]. Qed.

Lemma stage_inv base peak cfg env now t t' g :
  ledger_inv base peak t g ->
  stage_ready_points cfg (re_source env) (re_today env) now t = Ok t' ->
  ledger_inv base (fun u => Z.max (peak u) (settled_target cfg env u)) t' g
  /\ (forall u, synced_total u t' = synced_total u t).
Proof.
  intros Hinv ->%stage_ok_staged. split; [|intros; by eapply staged_synced_total].
  apply staged_inv with (peak := peak); [done|intros; lia|].
  intros c [-> _]%current_targets_spec. cbn. fold (settled_target cfg env (ct_user c)). lia.
Qed.

Lemma ledger_inv_mono base peak peak' t g :
  (forall u, peak u <= peak' u) -> ledger_inv base peak t g -> ledger_inv base peak' t g.
Proof.
  intros Hp [H1 H2 H3 H4 H5 H6]. split; try done.
  - intros k r tg Hk Hl Ek. destruct (H2 k r tg Hk Hl Ek) as (? & ? & ?).
    specialize (Hp (row_user r)). split_and!; [done..|lia].
  - intros u. specialize (H6 u). specialize (Hp u). lia.
Qed.

(** A run either does nothing, or only stages, or stages and processes the loaded items. *)
Lemma run_cases cfg env st :
  run_after_points_refresh cfg env st = st
  \/ exists t, stage_ready_points cfg (re_source env) (re_today env) (re_now env) (table st) = Ok t
     /\ (run_after_points_refresh cfg env st = set_table t st
         \/ run_after_points_refresh cfg env st
            = (run_items cfg env 0 (load_pending_items cfg t) (set_table t st)).2).
Proof.
  unfold run_after_points_refresh, run_once.
  destruct (enabled cfg), (validate cfg); cbn; auto.
  destruct (acquire_ok env); cbn; auto. destruct (try_lock env) as [[]|]; cbn; auto.
  destruct (schema_ok env), (stage_ok env); cbn; auto.
  destruct (stage_ready_points _ _ _ _ _) as [t|e]; cbn; auto.
  right. exists t. split; [done|]. destruct (load_ok env); cbn; auto.
Qed.

Lemma run_inv base peak cfg env st :
  ledger_inv base peak (table st) (grants (service st)) -> (forall n, mark_ok env n = true) ->
  let st' := run_after_points_refresh cfg env st in
  ledger_inv base (fun u => Z.max (peak u) (settled_target cfg env u)) (table st')
    (grants (service st')).
Proof.
  intros Hinv Hok. cbv zeta. destruct (run_cases cfg env st) as [->|(t & Hst & Hrun)].
  { apply (ledger_inv_mono base peak); [intros; lia|done]. }
  destruct (stage_inv _ _ _ _ _ _ _ _ Hinv Hst) as [Hinv' _].
  destruct Hrun as [->| ->]; [done|].
  destruct (load_facts cfg t) as [Hnd Hin].
  destruct (run_items _ _ _ _ _) as [r st'] eqn:E.
  eapply run_items_inv in E as [H _]; eauto.
  apply Forall_forall. intros i Hi. by eapply loaded_matches, Hin.
Qed.

Lemma run_many_inv base peak cfg envs st :
  ledger_inv base peak (table st) (grants (service st)) ->
  Forall (fun e => forall n, mark_ok e n = true) envs ->
  let st' := run_many cfg envs st in
  ledger_inv base (fun u => peak_target cfg envs u (peak u)) (table st') (grants (service st')).
Proof.
  intros Hinv Hok. revert peak st Hinv. induction Hok as [|env envs He Hok IH]; intros peak st Hinv.
  - exact Hinv.
  - cbn. apply IH. by apply run_inv.
Qed.

(** No cumulative row and no cumulative grant yet. *)
Definition unsynced (t : SyncTable) (s : service_state) : Prop :=
  forall k, cumulative k = true -> t !! k = None /\ grants s !! k = None.

Lemma unsynced_inv t s :
  unsynced t s ->
  ledger_inv (fun u => synced_total u t) (fun u => synced_total u t) t (grants s).
Proof.
  intros H. split.
  - intros k r Hk Hc. destruct (H k Hc). congruence.
  - intros k r tg Hk _ ->. destruct (H _ (sync_key_cumulative (row_user r) tg)). congruence.
  - intros k k' r r' Hk _ _ _ Hc. destruct (H k Hc). congruence.
  - intros k Hc. destruct (H k Hc) as [Ht Hg]. unfold recorded. by rewrite Ht, Hg.
  - intros u. unfold granted_total.
    assert (filter (fun kv => cumulative kv.1 = true) (grants s) = ∅) as ->;
      [|rewrite gsum_empty; lia].
    apply map_empty. intros k. apply map_lookup_filter_None. right. intros v Hk Hc.
    destruct (H k Hc). congruence.
  - done.
Qed.


Lemma NoDup_users t (items : list SyncItem) base peak g :
  ledger_inv base peak t g -> NoDup (si_key <$> items) -> Forall (matches t) items ->
  NoDup (si_user <$> items).
Proof.
  intros Hinv. induction items as [|i items IH]; cbn; [constructor|].
  intros [Hi Hnd]%NoDup_cons [Hm Hms]%Forall_cons. apply NoDup_cons. split; [|by apply IH].
  intros (j & E & Hj)%list_elem_of_fmap. apply Hi, list_elem_of_fmap. exists j.
  split; [|exact Hj]. destruct Hm as (r & Hr & Hl & Hc & Eu & _).
  destruct (proj1 (Forall_forall _ _) Hms j Hj) as (r' & Hr' & Hl' & Hc' & Eu' & _).
  eapply (li_one _ _ _ _ Hinv); eauto. congruence.
Qed.

(** What an item of a run asks for. *)
Lemma item_asks cfg env base peak t t' g i :
  ledger_inv base peak t g ->
  stage_ready_points cfg (re_source env) (re_today env) (re_now env) t = Ok t' ->
  i ∈ loaded cfg t' ->
  exists tg, si_key i = sync_key (si_user i) tg
    /\ si_credit i = tg - synced_total (si_user i) t /\ 0 < si_credit i
    /\ (si_user i ∈ (settled_rows cfg env).*1 -> tg = settled_target cfg env (si_user i)).
Proof.
  intros Hinv Hst Hi. destruct (stage_inv _ _ _ _ _ _ _ _ Hinv Hst) as [Hinv' Hs].
  destruct (loaded_matches _ _ _ Hi) as (r & Hr & Hl & Hc & Eu & Ec).
  destruct (li_key _ _ _ _ Hinv' _ _ Hr Hc) as (tg & Ek & _). exists tg. rewrite Eu, Ec.
  destruct (li_live _ _ _ _ Hinv' _ _ tg Hr Hl Ek) as (Hcr & H0 & _). rewrite Hs in Hcr.
  split_and!; try done. intros Hu. apply stage_ok_staged in Hst as ->.
  assert (forall c, c ∈ current_targets (credit_scale cfg) (settled_rows cfg env) t ->
            row_user r = ct_user c -> si_key i = ct_key c ->
            tg = settled_target cfg env (row_user r)) as Hsame.
  { intros c [Ec' _]%current_targets_spec Eu' Ekc. rewrite Ek in Ekc.
    apply sync_key_inj in Ekc as [_ ->]. rewrite Ec', Eu'. done. }
  destruct (staged_live _ _ _ _ Hinv _ _ _ _ _ Hr Hl Hc) as [(c & Hin & _ & Ekc & Eu' & _)|[_ H]].
  - by apply (Hsame c).
  - set (c := current_target (credit_scale cfg) (settled_rows cfg env) t (row_user r)).
    apply (Hsame c); [|done|apply H; [|done]];
      apply list_elem_of_fmap; exists (row_user r); (split; [done|by rewrite elem_of_remove_dups]).
Qed.

(** The requests of a run: at most one per user, always for a positive amount, the
    difference between a target and what was synced for the user before the run, under the
    key made of user and target; the target is the value of the user's settled points. *)
Theorem requests_ask_for_the_difference (cfg : PointsSyncConfig) (t0 : SyncTable)
    (s0 : service_state) (envs : list RunEnv) (env : RunEnv) :
  unsynced t0 s0 -> Forall (fun e => forall n, mark_ok e n = true) envs ->
  let st := run_many cfg envs (mkState t0 s0 []) in
  exists new, posted (run_after_points_refresh cfg env st) = posted st ++ new
    /\ NoDup (g_user_id <$> new)
    /\ forall rq, rq ∈ new -> exists tg,
         g_biz_no rq = sync_key (g_user_id rq) tg
         /\ g_amount rq = tg - synced_total (g_user_id rq) (table st) /\ 0 < g_amount rq
         /\ (g_user_id rq ∈ (settled_rows cfg env).*1 -> tg = settled_target cfg env (g_user_id rq)).
Proof.
  intros H0 Hok. cbv zeta.
  pose proof (run_many_inv _ _ cfg envs (mkState t0 s0 []) (unsynced_inv t0 s0 H0) Hok) as Hinv.
  cbv zeta in Hinv. set (st := run_many cfg envs (mkState t0 s0 [])) in *. clearbody st.
  assert (exists new : list GrantCreditRequest, posted st = posted st ++ new /\ new = []) as Hnone
    by (exists []; by rewrite app_nil_r).
  destruct (run_cases cfg env st) as [->|(t & Hst & [->| ->])].
  - destruct Hnone as (new & E & ->). exists []. split_and!; [done|constructor|set_solver].
  - destruct Hnone as (new & E & ->). exists []. split_and!; [done|constructor|set_solver].
  - destruct (run_items_posted cfg env 0 (load_pending_items cfg t) (set_table t st)) as [m ->].
    destruct (load_facts cfg t) as [Hnd Hin].
    assert (forall i, i ∈ take m (load_pending_items cfg t) -> i ∈ loaded cfg t) as Hsub.
    { intros i Hi. apply Hin. eapply elem_of_take in Hi as (? & Hi & _).
      by eapply list_elem_of_lookup_2. }
    eexists. split; [done|]. split.
    + rewrite <- list_fmap_compose. change (g_user_id ∘ grant_request) with si_user.
      destruct (stage_inv _ _ _ _ _ _ _ _ Hinv Hst) as [Hinv' _].
      eapply NoDup_users; [exact Hinv'| |].
      * rewrite fmap_take. eapply sublist_NoDup; [exact Hnd|apply sublist_take].
      * apply Forall_forall. intros i Hi. by eapply loaded_matches, Hsub.
    + intros rq (i & -> & Hi)%list_elem_of_fmap. cbn.
      eapply item_asks; eauto.
Qed.

Definition all_well (env : RunEnv) : Prop :=
  acquire_ok env = true /\ try_lock env = Some true /\ schema_ok env = true
  /\ stage_ok env = true /\ load_ok env = true /\ forall n, mark_ok env n = true.

Lemma run_all_well cfg env st t :
  enabled cfg = true -> validate cfg = Ok () -> all_well env ->
  stage_ready_points cfg (re_source env) (re_today env) (re_now env) (table st) = Ok t ->
  run_after_points_refresh cfg env st
  = (run_items cfg env 0 (load_pending_items cfg t) (set_table t st)).2.
Proof.
  intros He Hv (Ha & Hl & Hs & Hg & Hp & _) Hst. unfold run_after_points_refresh, run_once.
  by rewrite He, Hv, Ha, Hl, Hs, Hg, Hst, Hp.
Qed.

Lemma sum_item_amount u i items :
  i ∈ items -> si_user i = u -> NoDup (si_user <$> items) ->
  sum_Z (item_amount u) items = si_credit i.
Proof.
  assert (forall l, u ∉ (si_user <$> l) -> sum_Z (item_amount u) l = 0) as Hnone.
  { induction l as [|x l IH]; cbn; [done|]. intros [Hx Hl]%not_elem_of_cons.
    rewrite IH by done. unfold item_amount. by rewrite (proj2 (Z.eqb_neq _ _)) by done. }
  intros Hi Hu. induction items as [|j items IH]; [by apply elem_of_nil in Hi|].
  cbn. intros [Hn Hnd]%NoDup_cons. unfold item_amount at 1.
  apply elem_of_cons in Hi as [->|Hi].
  - rewrite Hu, Z.eqb_refl, Hnone by congruence. lia.
  - rewrite (IH Hi Hnd), (proj2 (Z.eqb_neq _ _)); [lia|].
    intros E. apply Hn. rewrite E, <- Hu. apply list_elem_of_fmap. eauto.
Qed.

Lemma load_all cfg t :
  Z.of_nat (size t) <= batch_size cfg -> load_pending_items cfg t ≡ₚ loaded cfg t.
Proof.
  intros Hb. destruct (load_pending_perm cfg t) as (l & Hp & ->).
  rewrite take_ge; [done|]. rewrite Hp. unfold loaded. rewrite length_fmap.
  pose proof (List.filter_length_le (loadable cfg) (map_to_list t)) as Hle.
  rewrite length_map_to_list in Hle. lia.
Qed.

(** A target that was never staged before gets a row of its own. *)
Lemma target_staged cfg env base peak t t' g u :
  ledger_inv base peak t g ->
  stage_ready_points cfg (re_source env) (re_today env) (re_now env) t = Ok t' ->
  enabled cfg = true -> validate cfg = Ok () -> u ∈ (settled_rows cfg env).*1 ->
  0 < settled_target cfg env u - synced_total u t <= 2147483647 ->
  t !! sync_key u (settled_target cfg env u) = None ->
  exists i, i ∈ loaded cfg t' /\ si_user i = u
    /\ si_credit i = settled_target cfg env u - synced_total u t.
Proof.
  intros Hinv Hst He Hv Hu Hr Hk. apply stage_ok_staged in Hst as ->.
  set (c := current_target (credit_scale cfg) (settled_rows cfg env) t u).
  assert (c ∈ current_targets (credit_scale cfg) (settled_rows cfg env) t) as Hc.
  { apply list_elem_of_fmap. exists u. split; [done|]. by rewrite elem_of_remove_dups. }
  assert (insertable c = true) as Hins.
  { unfold insertable. apply andb_true_iff. split; [apply Z.ltb_lt|apply Z.leb_le];
      cbn; unfold settled_target in Hr; lia. }
  exists (item_of (ct_key c) (new_row (re_now env) c)). split; [|done].
  apply loaded_spec. exists (ct_key c), (new_row (re_now env) c). split_and!; [| |done].
  - destruct (staged_cases _ _ _ _ Hinv (credit_scale cfg) (re_now env) (settled_rows cfg env)
      (ct_key c)) as [(c' & Hc' & _ & Ek & ->)|[Hno _]]; [|by destruct (Hno c Hc Hins)].
    apply sync_key_inj in Ek as [Eu _].
    assert (c' = c) as -> by (eapply current_targets_users; eauto).
    change (ct_key c) with (sync_key u (settled_target cfg env u)). by rewrite Hk.
  - unfold loadable. cbn. change (cumulative (ct_key c)) with (cumulative (sync_key u (ct_target c))).
    rewrite sync_key_cumulative, andb_true_r. apply Z.ltb_lt.
    unfold validate in Hv. rewrite He in Hv. cbn in Hv.
    repeat (case_match; try discriminate). bool_hyps. lia.
Qed.

(** A run settles: when nothing fails, the batch holds all rows and the service grants
    every request, a user whose settled points are worth more than was synced, and whose
    target was not staged before, has that target synced after the run. *)
Theorem run_settles_user (cfg : PointsSyncConfig) (t0 : SyncTable) (s0 : service_state)
    (envs : list RunEnv) (env : RunEnv) (u : Z) (t : SyncTable) :
  unsynced t0 s0 -> Forall (fun e => forall n, mark_ok e n = true) envs ->
  (forall ep tok rq s, is_grant (post ep tok rq s).1 = true) ->
  enabled cfg = true -> validate cfg = Ok () -> all_well env ->
  let st := run_many cfg envs (mkState t0 s0 []) in
  stage_ready_points cfg (re_source env) (re_today env) (re_now env) (table st) = Ok t ->
  Z.of_nat (size t) <= batch_size cfg ->
  u ∈ (settled_rows cfg env).*1 ->
  0 < settled_target cfg env u - synced_total u (table st) <= 2147483647 ->
  table st !! sync_key u (settled_target cfg env u) = None ->
  synced_total u (table (run_after_points_refresh cfg env st)) = settled_target cfg env u.
Proof.
  intros H0 Hok Hall He Hv Hw. cbv zeta.
  pose proof (run_many_inv _ _ cfg envs (mkState t0 s0 []) (unsynced_inv t0 s0 H0) Hok) as Hinv.
  cbv zeta in Hinv. set (st := run_many cfg envs (mkState t0 s0 [])) in *. clearbody st.
  intros Hst Hb Hu Hr Hk. rewrite (run_all_well cfg env st t) by done.
  destruct (target_staged _ _ _ _ _ _ _ _ Hinv Hst He Hv Hu Hr Hk) as (i & Hi & Eu & Ec).
  destruct (stage_inv _ _ _ _ _ _ _ _ Hinv Hst) as [Hinv' Hs].
  destruct (load_facts cfg t) as [Hnd Hin].
  assert (Forall (matches t) (load_pending_items cfg t)) as Hm.
  { apply Forall_forall. intros j Hj. by eapply loaded_matches, Hin. }
  destruct (run_items _ _ _ _ _) as [r st'] eqn:E.
  eapply run_items_inv in E as [_ Hsum]; [|exact Hinv'|exact Hnd|exact Hm|apply Hw].
  cbn. rewrite (Hsum Hall u), (sum_item_amount u i); [cbn; rewrite Hs; lia| |done|].
  - by rewrite (load_all cfg t Hb).
  - by eapply NoDup_users.
Qed.

Lemma stage_keeps_dead cfg env t t' k r :
  stage_ready_points cfg (re_source env) (re_today env) (re_now env) t = Ok t' ->
  t !! k = Some r -> is_live r = false -> forall base peak g, ledger_inv base peak t g ->
  t' !! k = Some r.
Proof.
  intros ->%stage_ok_staged Hk Hl base peak g Hinv.
  destruct (staged_cases _ _ _ _ Hinv (credit_scale cfg) (re_now env) (settled_rows cfg env) k)
    as [(c & _ & _ & -> & ->)|[_ ->]]; rewrite Hk; cbn.
  - unfold on_conflict. by rewrite Hl.
  - destruct (supersede_cases t (credit_scale cfg) (re_now env) (settled_rows cfg env) k r)
      as [[-> _]|[Hl' _]]; congruence.
Qed.

(** A target that was superseded once is lost: when a user's settled points come back
    to a value whose row was superseded, the run asks the service for nothing on behalf of
    that user, although the value is not synced. *)
Theorem superseded_target_never_requested (cfg : PointsSyncConfig) (t0 : SyncTable)
    (s0 : service_state) (envs : list RunEnv) (env : RunEnv) (u : Z) (r : Row) :
  unsynced t0 s0 -> Forall (fun e => forall n, mark_ok e n = true) envs ->
  let st := run_many cfg envs (mkState t0 s0 []) in
  u ∈ (settled_rows cfg env).*1 ->
  table st !! sync_key u (settled_target cfg env u) = Some r -> row_status r = RSuperseded ->
  exists new, posted (run_after_points_refresh cfg env st) = posted st ++ new
    /\ u ∉ (g_user_id <$> new).
Proof.
  intros H0 Hok. cbv zeta.
  pose proof (run_many_inv _ _ cfg envs (mkState t0 s0 []) (unsynced_inv t0 s0 H0) Hok) as Hinv.
  cbv zeta in Hinv. set (st := run_many cfg envs (mkState t0 s0 [])) in *. clearbody st.
  intros Hu Hr Hsup. assert (is_live r = false) as Hl by (unfold is_live; by rewrite Hsup).
  destruct (run_cases cfg env st) as [->|(t & Hst & [->| ->])];
    [exists []; split; [by rewrite app_nil_r|apply not_elem_of_nil]..|].
  destruct (run_items_posted cfg env 0 (load_pending_items cfg t) (set_table t st)) as [m ->].
  eexists. split; [done|].
  rewrite <- list_fmap_compose. change (g_user_id ∘ grant_request) with si_user.
  intros (i & Eu & Hi)%list_elem_of_fmap.
  apply elem_of_take in Hi as (? & Hi & _). apply list_elem_of_lookup_2, load_facts in Hi.
  destruct (item_asks _ _ _ _ _ _ _ _ Hinv Hst Hi) as (tg & Ek & _ & _ & Htg).
  rewrite <- Eu in *. rewrite (Htg Hu) in Ek.
  destruct (loaded_matches _ _ _ Hi) as (q & Hq & Hlq & _).
  rewrite Ek, (stage_keeps_dead _ _ _ _ _ _ Hst Hr Hl _ _ _ Hinv) in Hq. congruence.
Qed.
End Runs.

(** *** Concrete runs *)
Definition no_rows : SyncTable := ∅.
Definition no_grants : gmap bytes (Z * Z) := ∅.

(** A service that grants every number once. *)
Definition prompt_service : CreditService := {|
  service_state := gmap bytes (Z * Z);
  post := fun _ _ rq s =>
    (Response 200 (Some (mkResponse true 20000 b!"success" (Some (mkData 9001 0)))),
     match s !! g_biz_no rq with
     | Some _ => s
     | None => <[g_biz_no rq := (g_user_id rq, g_amount rq)]> s
     end);
  status_text := dec; date_text := dec; numeric_text := fun _ => []; collate := fun _ _ => true |}.

#[global] Instance prompt_laws : CreditServiceLaws prompt_service.
Proof.
  refine {| grants := fun s : @service_state prompt_service => s : gmap bytes (Z * Z) |}.
  - intros ep tok rq s r s' [= <- <-] _. reflexivity.
  - intros ep tok rq s r s' [= <- <-] H. discriminate.
Defined.

(** A service that refuses everything. *)
Definition refusing_service : CreditService := {|
  service_state := gmap bytes (Z * Z);
  post := fun _ _ rq s => (Response 503 None, s);
  status_text := dec; date_text := dec; numeric_text := fun _ => []; collate := fun _ _ => true |}.

#[global] Instance refusing_laws : CreditServiceLaws refusing_service.
Proof.
  refine {| grants := fun s : @service_state refusing_service => s : gmap bytes (Z * Z) |}.
  - intros ep tok rq s r s' [= <- <-] H. discriminate.
  - intros ep tok rq s r s' [= <- <-] _. reflexivity.
Defined.

(** The same service, whose first answer is lost on the way. *)
Definition lossy_service : CreditService := {|
  service_state := nat * gmap bytes (Z * Z);
  post := fun ep tok rq s =>
    let '(r, g) := @post prompt_service ep tok rq s.2 in
    (match s.1 with O => SendError | _ => r end, (S s.1, g));
  status_text := dec; date_text := dec; numeric_text := fun _ => []; collate := fun _ _ => true |}.

Definition prompt_start : @State prompt_service := @mkState prompt_service no_rows no_grants [].
Definition refusing_start : @State refusing_service :=
  @mkState refusing_service no_rows no_grants [].
Definition lossy_start : @State lossy_service :=
  @mkState lossy_service no_rows (O, no_grants) [].

Definition demo_config : PointsSyncConfig := {|
  enabled := true; endpoint := b!"http://c/grant"; service_token := b!"t"; batch_size := 10;
  settle_lag_days := 1; credit_scale := 100; request_timeout_secs := 5; max_attempts := 3 |}.

(** User 42 with two devices of [p] points each, settled. *)
Definition demo_env (p : Q) : RunEnv :=
  mkRunEnv (mkSource [mkDaily b!"d" 10 p 0; mkDaily b!"d" 10 p 0] [mkOwner b!"d" (Some b!"42")])
    20 1000 true (Some true) true true true (fun _ => true).

Lemma nothing_synced `{K : CreditService} {L : CreditServiceLaws K} (s : service_state) :
  grants s = no_grants -> unsynced no_rows s.
Proof. intros E k _. by rewrite E. Qed.

Definition fits_batch (t : SyncTable) : bool := Z.of_nat (size t) <=? batch_size demo_config.
Definition is_superseded (r : Row) : bool := bool_decide (row_status r = RSuperseded).

Lemma ok_and {A} (f : A -> bool) (r : result A) :
  (match r with Ok x => f x | Err _ => false end) = true -> exists x, r = Ok x /\ f x = true.
Proof. destruct r as [x|]; [|discriminate]. eauto. Qed.

Lemma some_and {A} (f : A -> bool) (o : option A) :
  (match o with Some x => f x | None => false end) = true -> exists x, o = Some x /\ f x = true.
Proof. destruct o as [x|]; [|discriminate]. eauto. Qed.


Lemma requests_ask_for_the_difference_witness :
  exists new, posted (run_after_points_refresh (K := prompt_service) demo_config
      (demo_env (2 # 10)) (run_many demo_config [demo_env (95 # 1000)] prompt_start))
    = posted (run_many (K := prompt_service) demo_config [demo_env (95 # 1000)] prompt_start)
      ++ new /\ NoDup (g_user_id <$> new).
Proof.
  assert (unsynced (K := prompt_service) no_rows no_grants) as H0 by (by apply nothing_synced).
  destruct (requests_ask_for_the_difference (K := prompt_service) demo_config no_rows no_grants
    [demo_env (95 # 1000)] (demo_env (2 # 10)) H0 ltac:(repeat constructor)) as (new & E & Hn & _).
  exact (ex_intro _ new (conj E Hn)).
Defined.

Lemma run_settles_user_witness :
  synced_total 42 (table (run_after_points_refresh (K := prompt_service) demo_config
    (demo_env (95 # 1000)) prompt_start)) = 19.
Proof.
  assert (unsynced (K := prompt_service) no_rows no_grants) as H0 by (by apply nothing_synced).
  destruct (ok_and fits_batch (stage_ready_points demo_config
    (re_source (demo_env (95 # 1000))) 20 1000 no_rows) ltac:(vm_compute; reflexivity))
    as (t & Hst & Hsz%Z.leb_le).
  refine (run_settles_user (K := prompt_service) demo_config no_rows no_grants []
    (demo_env (95 # 1000)) 42 t H0 ltac:(constructor) ltac:(reflexivity) ltac:(reflexivity)
    ltac:(vm_compute; reflexivity) ltac:(repeat split) Hst Hsz _ _ ltac:(vm_compute; reflexivity)).
  - vm_compute. left.
  - vm_compute. split; [reflexivity|discriminate].
Defined.

Lemma superseded_target_never_requested_witness :
  let st := run_many (K := refusing_service) demo_config [demo_env (2 # 10); demo_env (1 # 10)]
              refusing_start in
  exists new, posted (run_after_points_refresh demo_config (demo_env (2 # 10)) st)
    = posted st ++ new /\ 42 ∉ (g_user_id <$> new).
Proof.
  assert (unsynced (K := refusing_service) no_rows no_grants) as H0 by (by apply nothing_synced).
  cbv zeta.
  destruct (some_and is_superseded
    (table (run_many (K := refusing_service) demo_config [demo_env (2 # 10); demo_env (1 # 10)]
      refusing_start) !! sync_key 42 (settled_target demo_config (demo_env (2 # 10)) 42)))
    as (r & Er & Hr%bool_decide_eq_true); [vm_compute; reflexivity|].
  refine (superseded_target_never_requested (K := refusing_service) demo_config no_rows no_grants
    [demo_env (2 # 10); demo_env (1 # 10)] (demo_env (2 # 10)) 42 r H0 ltac:(repeat constructor) _ Er Hr).
  vm_compute. left.
Defined.

(** When an answer is lost, the amount is granted but not recorded; if the user's target has
    grown by the next run, the whole difference is granted again under the new key: 20 and
    then 40 units for points worth 40. *)
Example lost_reply_over_credits :
  granted_total 42 (service (run_many (K := lossy_service) demo_config
    [demo_env (1 # 10); demo_env (2 # 10)] lossy_start)).2 = 60
  /\ settled_target demo_config (demo_env (2 # 10)) 42 = 40.
Proof. split; vm_compute; reflexivity. Qed.
End PointsFacts.
