(* ===== verification/Thinking.v ===== *)
(** * Thinking blocks in streamed answers ([gpuf-c/src/llm_engine/anthropic_server.rs])

    The splitter that separates reasoning inside [<think>] tags from the answer in a stream
    of tokens, the content-block events made of it, and the splitter of whole answers. A
    byte-by-byte scanner of the whole text is the reference they are compared with. *)
From S2P Require Import Prelude Text Output.
From Stdlib Require Import ZArith Lia String.
From Stdlib Require Import Strings.Byte.
From stdpp Require Import base list.

Local Open Scope Z_scope.

(** ** The splitter *)
Inductive BlockKind := BText | BThinking.
#[global] Instance BlockKind_eq_dec : EqDecision BlockKind.
Proof. solve_decision. Defined.

Inductive SplitEvent :=
  | SText (t : bytes) | StartThinking | SThinking (t : bytes) | EndThinking.

Definition OPEN_TAG : bytes := b!"<think>".
Definition CLOSE_TAG : bytes := b!"</think>".

Record StreamSplitter := mkSplitter { state : BlockKind; carry : bytes; enabled : bool }.
Definition StreamSplitter_new (on : bool) : StreamSplitter := mkSplitter BText [] on.

(** The loop of [split_tail]: the longest scanned suffix that begins the marker. *)
Definition tail_at (text marker : bytes) (carry_len l : nat) : nat :=
  let start := (length text - l)%nat in
  if negb (Phase.is_char_boundary text start) then carry_len
  else if starts_with (drop start text) marker then l else carry_len.

Definition split_tail (text marker : bytes) : bytes * bytes :=
  let max_scan := Nat.min (length marker - 1) (length text) in
  let carry_len := fold_left (tail_at text marker) (seq 1 max_scan) 0%nat in
  if (carry_len =? 0)%nat then (text, [])
  else
    let split := (length text - carry_len)%nat in
    if negb (Phase.is_char_boundary text split) then (text, [])
    else (take split text, drop split text).

(** What a kind of block is ended by, and the events of its text and of its end. *)
Definition marker_of (k : BlockKind) : bytes :=
  match k with BText => OPEN_TAG | BThinking => CLOSE_TAG end.
Definition text_event (k : BlockKind) (t : bytes) : SplitEvent :=
  match k with BText => SText t | BThinking => SThinking t end.
Definition turn_event (k : BlockKind) : SplitEvent :=
  match k with BText => StartThinking | BThinking => EndThinking end.
Definition other (k : BlockKind) : BlockKind :=
  match k with BText => BThinking | BThinking => BText end.

Definition emit_text (k : BlockKind) (t : bytes) : list SplitEvent :=
  match t with [] => [] | _ => [text_event k t] end.

(** The [while] loop of [push] on the text not consumed yet: events, state and carry. The
    two arms of the source differ in the marker and the constructors only. Every turn
    consumes a marker, so the length of the text is enough fuel. *)
Fixpoint push_loop (fuel : nat) (k : BlockKind) (rest : bytes)
    : list SplitEvent * (BlockKind * bytes) :=
  match fuel, rest with
  | S fuel, _ :: _ =>
      match find_sub (marker_of k) rest with
      | Some idx =>
          let '(evs, st) := push_loop fuel (other k) (drop (idx + length (marker_of k)) rest) in
          (emit_text k (take idx rest) ++ turn_event k :: evs, st)
      | None =>
          let '(safe, carry) := split_tail rest (marker_of k) in
          (emit_text k safe, (k, carry))
      end
  | _, _ => ([], (k, []))
  end.

Definition push (s : StreamSplitter) (text : bytes) : list SplitEvent * StreamSplitter :=
  if negb (enabled s) then ([SText text], s)
  else
    let combined := carry s ++ text in
    let '(evs, (k, c)) := push_loop (length combined) (state s) combined in
    (evs, mkSplitter k c (enabled s)).

Definition flush (s : StreamSplitter) : list SplitEvent :=
  if negb (enabled s) then emit_text BText (carry s)
  else emit_text (state s) (carry s)
       ++ (if bool_decide (state s = BThinking) then [EndThinking] else []).

(** The pushes of a whole stream and its final flush. *)
Fixpoint split_stream (s : StreamSplitter) (tokens : list bytes) : list SplitEvent :=
  match tokens with
  | [] => flush s
  | t :: tokens => let '(evs, s) := push s t in evs ++ split_stream s tokens
  end.

(** ** Whole answers *)
Inductive ContentBlock := CThinking (thinking signature : bytes) | CText (text : bytes).

Definition text_block (t : bytes) : list ContentBlock :=
  if bool_decide (trim t = []) then [] else [CText t].

(** The loop of [split_thinking_text]: blocks, and the rest it ends with. *)
Fixpoint thinking_loop (fuel : nat) (rest : bytes) : list ContentBlock * bytes :=
  match fuel with
  | O => ([], rest)
  | S fuel =>
      match find_sub OPEN_TAG rest with
      | None => ([], rest)
      | Some start =>
          let before := text_block (take start rest) in
          let rest := drop (start + length OPEN_TAG) rest in
          match find_sub CLOSE_TAG rest with
          | Some e =>
              let '(bs, r) := thinking_loop fuel (drop (e + length CLOSE_TAG) rest) in
              (before ++ CThinking (take e rest) [] :: bs, r)
          | None => (before ++ [CThinking rest []], [])
          end
      end
  end.

Definition split_thinking_text (text : bytes) : list ContentBlock :=
  let '(bs, rest) := thinking_loop (S (length text)) text in
  let bs := bs ++ text_block rest in
  match bs with [] => [CText text] | _ => bs end.

(** ** Content-block events *)
Inductive Sse :=
  | MessageStart
  | ContentBlockStart (index : Z) (kind : BlockKind)
  | ContentBlockDelta (index : Z) (kind : BlockKind) (text : bytes)
  | ContentBlockStop (index : Z)
  | MessageDelta
  | MessageStop.

(** [block_index] and [block_started]. *)
Record Blocks := mkBlocks { block_index : Z; block_started : bool }.

Definition append_event (ev : SplitEvent) (b : Blocks) : list Sse * Blocks :=
  let i := block_index b in
  match ev with
  | SText t =>
      ((if negb (block_started b) then [ContentBlockStart i BText] else [])
       ++ [ContentBlockDelta i BText t], mkBlocks i true)
  | StartThinking =>
      if block_started b
      then ([ContentBlockStop i; ContentBlockStart (i + 1) BThinking], mkBlocks (i + 1) true)
      else ([ContentBlockStart i BThinking], mkBlocks i true)
  | SThinking t => ([ContentBlockDelta i BThinking t], b)
  | EndThinking => ([ContentBlockStop i], mkBlocks (i + 1) false)
  end.

Fixpoint append_events (evs : list SplitEvent) (b : Blocks) : list Sse * Blocks :=
  match evs with
  | [] => ([], b)
  | ev :: evs =>
      let '(l, b) := append_event ev b in
      let '(l', b) := append_events evs b in (l ++ l', b)
  end.

Definition append_footer_events (b : Blocks) : list Sse :=
  (if block_started b then [ContentBlockStop (block_index b)] else [])
  ++ [MessageDelta; MessageStop].

(** The event stream of [messages_stream] for the tokens the engine yields; a failed token
    is logged and yields nothing. *)
Definition messages_events (has_thinking : bool) (tokens : list (result bytes)) : list Sse :=
  let good := omap (fun r => match r with Ok t => Some t | Err _ => None end) tokens in
  let '(l, b) := append_events (split_stream (StreamSplitter_new has_thinking) good)
                   (mkBlocks 0 false) in
  MessageStart :: l ++ append_footer_events b.

(** ** Reference: a scanner of the whole text *)
Inductive Tok := TByte (k : BlockKind) (b : byte) | TOpen | TClose.

Definition turn_tok (k : BlockKind) : Tok :=
  match k with BText => TOpen | BThinking => TClose end.

(** At every position either the marker of the current kind of block is there, or one
    byte of that kind. [skip] bytes of a marker are still to be passed over. *)
Fixpoint scan (k : BlockKind) (skip : nat) (s : bytes) : list Tok :=
  match s, skip with
  | [], _ => []
  | _ :: s, S skip => scan k skip s
  | b :: s', O =>
      if starts_with (marker_of k) s
      then turn_tok k :: scan (other k) (length (marker_of k) - 1) s'
      else TByte k b :: scan k 0 s'
  end.

Definition toks_of (ev : SplitEvent) : list Tok :=
  match ev with
  | SText t => TByte BText <$> t
  | SThinking t => TByte BThinking <$> t
  | StartThinking => [TOpen]
  | EndThinking => [TClose]
  end.
Definition flat (evs : list SplitEvent) : list Tok := evs ≫= toks_of.

Module ThinkingFacts.

(** *** The scanner *)
Lemma scan_skip k n s : scan k n s = scan k 0 (drop n s).
Proof.
  revert n. induction s as [|b s IH]; intros [|n]; cbn [scan drop]; [done..|].
  apply IH.
Qed.

Lemma scan_marker k s :
  starts_with (marker_of k) s = true ->
  scan k 0 s = turn_tok k :: scan (other k) 0 (drop (length (marker_of k)) s).
Proof.
  intros H. destruct s as [|b s]; [by destruct k|].
  cbn [scan]. rewrite H, scan_skip. by destruct k.
Qed.

Lemma scan_run k i s :
  (i <= length s)%nat ->
  (forall j, (j < i)%nat -> starts_with (marker_of k) (drop j s) = false) ->
  scan k 0 s = (TByte k <$> take i s) ++ scan k 0 (drop i s).
Proof.
  revert s. induction i as [|i IH]; intros s Hi H; [done|].
  destruct s as [|b s]; [cbn in Hi; lia|]. cbn [take drop fmap list_fmap app].
  assert (starts_with (marker_of k) (b :: s) = false) as E by exact (H O ltac:(lia)).
  cbn [scan]. rewrite E. f_equal. apply IH; [cbn in Hi; lia|].
  intros j Hj. apply (H (S j)). lia.
Qed.

Lemma starts_with_app_long p s f :
  (length p <= length s)%nat -> starts_with p (s ++ f) = starts_with p s.
Proof.
  revert s. induction p as [|x p IH]; intros s Hl; [done|].
  destruct s as [|y s]; cbn in *; [lia|]. by rewrite IH by lia.
Qed.

(** A marker that reaches over the end of [s] begins with the end of [s]. *)
Lemma starts_with_over p s f :
  (length s <= length p)%nat -> starts_with p (s ++ f) = true -> starts_with s p = true.
Proof.
  intros Hl [r E]%starts_with_spec. apply starts_with_spec.
  exists (drop (length s) p).
  assert (take (length s) (s ++ f) = take (length s) (p ++ r)) as E' by by rewrite E.
  rewrite take_app_length, take_app_le in E' by done.
  rewrite E' at 1. by rewrite take_drop.
Qed.

Lemma starts_with_short p s : (length s < length p)%nat -> starts_with p s = false.
Proof.
  intros Hl. destruct (starts_with p s) eqn:E; [|done]. apply starts_with_length in E. lia.
Qed.

Lemma scan_short k s :
  (length s < length (marker_of k))%nat -> scan k 0 s = TByte k <$> s.
Proof.
  intros Hl. rewrite (scan_run k (length s) s); [|done|].
  - rewrite firstn_all, drop_all. cbn. by rewrite app_nil_r.
  - intros j Hj. apply starts_with_short. rewrite length_drop. lia.
Qed.

(** *** What is held back *)
Lemma marker_head k s : s <> [] -> starts_with s (marker_of k) = true ->
  exists s', s = Byte.x3c :: s'.
Proof.
  intros Hs H. destruct s as [|x s]; [done|]. exists s. f_equal.
  destruct k; cbn in H; apply andb_true_iff in H as [H _]; by apply bool_decide_eq_true in H.
Qed.

Definition good_tail (k : BlockKind) (text : bytes) (l : nat) : Prop :=
  starts_with (drop (length text - l) text) (marker_of k) = true.

Lemma good_tail_boundary k text l :
  (1 <= l <= length text)%nat -> good_tail k text l ->
  Phase.is_char_boundary text (length text - l) = true.
Proof.
  intros Hl H. apply marker_head in H as [s' E].
  - unfold Phase.is_char_boundary. rewrite <- (Nat.add_0_r (length text - l)), <- lookup_drop, E. done.
  - intros E. apply (f_equal length) in E. rewrite length_drop in E. cbn in E. lia.
Qed.

Lemma tail_scan_spec k text n :
  (n <= length text)%nat ->
  let r := fold_left (tail_at text (marker_of k)) (seq 1 n) 0%nat in
  (r <= n)%nat /\ (r <> 0%nat -> good_tail k text r)
  /\ forall l, (1 <= l <= n)%nat -> good_tail k text l -> (l <= r)%nat.
Proof.
  induction n as [|n IH]; intros Hn; cbn zeta; [cbn; split_and!; [done..|lia]|].
  rewrite seq_S, fold_left_app. cbn [fold_left]. destruct IH as (H1 & H2 & H3); [lia|].
  set (r := fold_left _ (seq 1 n) 0%nat) in *.
  unfold tail_at. change (1 + n)%nat with (S n).
  destruct (starts_with (drop (length text - S n) text) (marker_of k)) eqn:E.
  - rewrite (good_tail_boundary k text (S n)) by (lia || done). cbn.
    split_and!; [lia|done|lia].
  - destruct (negb _); (split_and!; [lia|done|]; intros l Hl Hg;
      destruct (decide (l = S n)) as [->|]; [unfold good_tail in Hg; congruence|apply H3; [lia|done]]).
Qed.

Lemma split_tail_spec k text safe c :
  split_tail text (marker_of k) = (safe, c) ->
  safe ++ c = text /\ (length c < length (marker_of k))%nat
  /\ forall l, (1 <= l < length (marker_of k))%nat -> (l <= length text)%nat ->
       good_tail k text l -> (l <= length c)%nat.
Proof.
  unfold split_tail. set (n := Nat.min _ _).
  destruct (tail_scan_spec k text n) as (H1 & H2 & H3); [lia|].
  set (r := fold_left _ _ _) in *.
  assert (0 < length (marker_of k))%nat as Hm by (destruct k; cbn; lia).
  destruct (Nat.eqb_spec r 0) as [Hr|Hr].
  - intros [= <- <-]. rewrite app_nil_r. split_and!; [done|done|].
    intros l Hl Hlt Hg. specialize (H3 l ltac:(lia) Hg). lia.
  - rewrite (good_tail_boundary k text r ltac:(lia) (H2 Hr)). cbn.
    intros [= <- <-]. rewrite take_drop, length_drop.
    split_and!; [done|lia|]. intros l Hl Hlt Hg. specialize (H3 l ltac:(lia) Hg). lia.
Qed.

(** *** The loop follows the scanner, whatever comes next *)
Lemma flat_app a b : flat (a ++ b) = flat a ++ flat b.
Proof. apply bind_app. Qed.

Lemma flat_emit k t : flat (emit_text k t) = TByte k <$> t.
Proof. destruct t; [done|]. unfold flat. cbn. rewrite app_nil_r. by destruct k. Qed.

Lemma flat_turn k evs : flat (turn_event k :: evs) = turn_tok k :: flat evs.
Proof. by destruct k. Qed.

Lemma push_loop_scan fuel k rest evs k' c :
  (length rest <= fuel)%nat -> push_loop fuel k rest = (evs, (k', c)) ->
  (length c < length (marker_of k'))%nat
  /\ forall f, scan k 0 (rest ++ f) = flat evs ++ scan k' 0 (c ++ f).
Proof.
  revert k rest evs. induction fuel as [|fuel IH]; intros k rest evs Hf E.
  { destruct rest; [|cbn in Hf; lia]. injection E as <- <- <-.
    split; [destruct k; cbn; lia|done]. }
  destruct rest as [|b0 r0] eqn:Er; [injection E as <- <- <-; split; [destruct k; cbn; lia|done]|].
  rewrite <- Er in *.
  assert (push_loop (S fuel) k rest = match find_sub (marker_of k) rest with
      | Some idx =>
          let '(evs, st) := push_loop fuel (other k) (drop (idx + length (marker_of k)) rest) in
          (emit_text k (take idx rest) ++ turn_event k :: evs, st)
      | None => let '(safe, carry) := split_tail rest (marker_of k) in
                (emit_text k safe, (k, carry))
      end) as Hloop by (by rewrite Er).
  rewrite Hloop in E. clear Hloop Er b0 r0.
  assert (0 < length (marker_of k))%nat as Hm by (destruct k; cbn; lia).
  destruct (find_sub (marker_of k) rest) as [i|] eqn:Ei.
  - apply find_sub_Some in Ei as (Hat & Hlen & Hno).
    destruct (push_loop fuel _ _) as [evs' st] eqn:El. injection E as <- ->.
    apply IH in El as [Hc Hs]; [|rewrite length_drop; lia]. split; [done|]. intros f.
    rewrite (scan_run k i); [|rewrite length_app; lia|].
    2: { intros j Hj. rewrite drop_app_le by lia. rewrite starts_with_app_long; [by apply Hno|].
         rewrite length_drop. lia. }
    rewrite take_app_le, drop_app_le by lia.
    rewrite scan_marker; [|rewrite starts_with_app_long; [done|rewrite length_drop; lia]].
    rewrite drop_app_le by (rewrite length_drop; lia). rewrite drop_drop, Hs.
    by rewrite flat_app, flat_emit, flat_turn, <- app_assoc.
  - destruct (split_tail rest (marker_of k)) as [safe c'] eqn:Et. injection E as <- <- <-.
    apply split_tail_spec in Et as (Hsplit & Hc & Hmax). split; [done|]. intros f.
    rewrite flat_emit. rewrite <- Hsplit at 1. rewrite <- app_assoc.
    rewrite (scan_run k (length safe)); [by rewrite take_app_length, drop_app_length|
      rewrite length_app; lia|].
    intros j Hj. rewrite app_assoc, Hsplit.
    assert (length safe + length c' = length rest)%nat as Hl by (by rewrite <- Hsplit, length_app).
    rewrite drop_app_le by lia.
    destruct (decide (length (marker_of k) <= length rest - j)%nat).
    + rewrite starts_with_app_long by (rewrite length_drop; lia). by apply find_sub_None.
    + destruct (starts_with (marker_of k) (drop j rest ++ f)) eqn:Es; [exfalso|done].
      apply starts_with_over in Es; [|rewrite length_drop; lia].
      specialize (Hmax (length rest - j)%nat ltac:(lia) ltac:(lia)).
      unfold good_tail in Hmax.
      replace (length rest - (length rest - j))%nat with j in Hmax by lia.
      specialize (Hmax Es). lia.
Qed.

(** *** Which events may follow each other *)
Definition legal_step (k : BlockKind) (ev : SplitEvent) : option BlockKind :=
  match k, ev with
  | BText, SText _ => Some BText
  | BText, StartThinking => Some BThinking
  | BThinking, SThinking _ => Some BThinking
  | BThinking, EndThinking => Some BText
  | _, _ => None
  end.
Fixpoint legal (k : BlockKind) (evs : list SplitEvent) : option BlockKind :=
  match evs with [] => Some k | ev :: evs => k' ← legal_step k ev; legal k' evs end.

Lemma legal_app k a b : legal k (a ++ b) = k' ← legal k a; legal k' b.
Proof.
  revert k. induction a as [|ev a IH]; intros k; [done|]. cbn.
  destruct (legal_step k ev); [apply IH|done].
Qed.

Lemma legal_emit k t : legal k (emit_text k t) = Some k.
Proof. by destruct t, k. Qed.

Lemma push_loop_legal fuel k rest evs k' c :
  push_loop fuel k rest = (evs, (k', c)) -> legal k evs = Some k'.
Proof.
  revert k rest evs. induction fuel as [|fuel IH]; intros k rest evs E; cbn in E.
  { by injection E as <- <- _. }
  destruct rest; [by injection E as <- <- _|].
  destruct (find_sub _ _).
  - destruct (push_loop _ _ _) as [evs' st] eqn:El. injection E as <- ->. apply IH in El.
    rewrite legal_app, legal_emit. by destruct k.
  - destruct (split_tail _ _). injection E as <- <- _. apply legal_emit.
Qed.

Lemma push_legal s t evs s' :
  (enabled s = false -> state s = BText) -> push s t = (evs, s') ->
  enabled s' = enabled s /\ (enabled s = false -> s' = s) /\ legal (state s) evs = Some (state s').
Proof.
  intros Hs. unfold push. destruct (enabled s) eqn:He; cbn.
  - destruct (push_loop _ _ _) as [e [k c]] eqn:El. intros [= <- <-]. cbn.
    split_and!; [done|done|]. by eapply push_loop_legal.
  - intros [= <- <-]. rewrite Hs by done. done.
Qed.

(** The kind of block the tokens of a text end in. *)
Definition end_step (k : BlockKind) (t : Tok) : BlockKind :=
  match t with TByte _ _ => k | TOpen => BThinking | TClose => BText end.
Definition end_kind (k : BlockKind) (l : list Tok) : BlockKind := fold_left end_step l k.

Lemma end_kind_bytes k k' t l : end_kind k ((TByte k' <$> t) ++ l) = end_kind k l.
Proof. induction t; [done|]. cbn. done. Qed.

Lemma end_kind_legal k evs k' l :
  legal k evs = Some k' -> end_kind k (flat evs ++ l) = end_kind k' l.
Proof.
  revert k. induction evs as [|ev evs IH]; intros k H; [by injection H as <-|].
  change (flat (ev :: evs)) with (toks_of ev ++ flat evs). rewrite <- app_assoc.
  cbn in H. destruct k, ev; cbn in H; try discriminate; cbn [toks_of];
    rewrite ?end_kind_bytes; by apply IH.
Qed.

(** The end of an unclosed thinking block. *)
Definition closing (k : BlockKind) (l : list Tok) : list Tok :=
  if bool_decide (end_kind k l = BThinking) then [TClose] else [].

Lemma split_stream_scan tokens s :
  enabled s = true -> (length (carry s) < length (marker_of (state s)))%nat ->
  let l := scan (state s) 0 (carry s ++ concat tokens) in
  flat (split_stream s tokens) = l ++ closing (state s) l.
Proof.
  revert s. induction tokens as [|t tokens IH]; intros s He Hc; cbn zeta; cbn [split_stream concat].
  - rewrite app_nil_r, scan_short by done. unfold flush. rewrite He. cbn.
    rewrite flat_app, flat_emit. f_equal. unfold closing.
    rewrite <- (app_nil_r (_ <$> _)), end_kind_bytes. cbn. by case_bool_decide.
  - destruct (push s t) as [evs s'] eqn:Ep. rewrite flat_app.
    pose proof Ep as Ep'. apply push_legal in Ep' as (He' & _ & Hl); [|congruence].
    unfold push in Ep. rewrite He in Ep. cbn in Ep.
    destruct (push_loop _ _ _) as [e [k c]] eqn:El. injection Ep as -> <-.
    apply push_loop_scan in El as [Hc' Hs]; [|done]. cbn in *.
    rewrite app_assoc, Hs, (IH (mkSplitter k c true)) by done. cbn.
    rewrite <- app_assoc. do 2 f_equal. unfold closing. by rewrite (end_kind_legal _ _ _ _ Hl).
Qed.

(** [C26] However the model's output is cut into tokens, also inside a tag, the splitter
    yields the blocks a scanner of the whole text finds: the bytes of each kind in order,
    the tags between them, and the end of a block left open. *)
Theorem splitter_matches_scanner (tokens : list bytes) :
  let l := scan BText 0 (concat tokens) in
  flat (split_stream (StreamSplitter_new true) tokens) = l ++ closing BText l.
Proof. apply (split_stream_scan tokens (StreamSplitter_new true)); [done|cbn; lia]. Qed.

(** *** The event protocol *)

(** What a client of the event stream relies on: blocks are numbered from 0, opened and
    closed in turn, deltas belong to the open block and have its kind, and the stream ends
    with the message's delta and stop. *)
Fixpoint blocks_ok (next : Z) (open : option BlockKind) (l : list Sse) : bool :=
  match l, open with
  | [MessageDelta; MessageStop], None => true
  | ContentBlockStart i k :: l, None => (i =? next) && blocks_ok next (Some k) l
  | ContentBlockDelta i k _ :: l, Some k' =>
      (i =? next) && bool_decide (k = k') && blocks_ok next (Some k') l
  | ContentBlockStop i :: l, Some _ => (i =? next) && blocks_ok (next + 1) None l
  | _, _ => false
  end.
Definition protocol_ok (l : list Sse) : bool :=
  match l with MessageStart :: l => blocks_ok 0 None l | _ => false end.

(** The open block, as a function of the splitter's state. *)
Definition open_block (k : BlockKind) (b : Blocks) : option BlockKind :=
  if block_started b then Some k else None.
Definition consistent (k : BlockKind) (b : Blocks) : Prop :=
  k = BThinking -> block_started b = true.

Lemma append_event_ok k ev k' b l b' rest :
  legal_step k ev = Some k' -> consistent k b -> append_event ev b = (l, b') ->
  consistent k' b'
  /\ (blocks_ok (block_index b') (open_block k' b') rest = true ->
      blocks_ok (block_index b) (open_block k b) (l ++ rest) = true).
Proof.
  intros Hl Hc E. unfold consistent, open_block in *.
  destruct b as [i st], k, ev; cbn in Hl; simplify_eq; cbn in *;
    try (specialize (Hc eq_refl)); destruct st; simplify_eq; cbn;
    (split; [done|]); intros ->; rewrite ?Z.eqb_refl; done.
Qed.

Lemma append_events_ok k evs k' b l b' rest :
  legal k evs = Some k' -> consistent k b -> append_events evs b = (l, b') ->
  consistent k' b'
  /\ (blocks_ok (block_index b') (open_block k' b') rest = true ->
      blocks_ok (block_index b) (open_block k b) (l ++ rest) = true).
Proof.
  revert k b l. induction evs as [|ev evs IH]; intros k b l Hl Hc E; cbn in Hl, E.
  { simplify_eq. done. }
  destruct (legal_step k ev) as [k1|] eqn:E1; [|done].
  destruct (append_event ev b) as [l1 b1] eqn:E2.
  destruct (append_events evs b1) as [l2 b2] eqn:E3. injection E as <- <-.
  destruct (append_event_ok _ _ _ _ _ _ (l2 ++ rest) E1 Hc E2) as [Hc1 Hok1].
  destruct (IH _ _ _ Hl Hc1 E3) as [Hc2 Hok2]. split; [done|]. intros H.
  rewrite <- app_assoc. by apply Hok1, Hok2.
Qed.

Lemma split_stream_legal tokens s :
  (enabled s = false -> state s = BText) -> legal (state s) (split_stream s tokens) = Some BText.
Proof.
  revert s. induction tokens as [|t tokens IH]; intros s H; cbn.
  - unfold flush. destruct (enabled s) eqn:E; cbn.
    + rewrite legal_app, legal_emit. by destruct (state s).
    + rewrite H by done. apply legal_emit.
  - destruct (push s t) as [evs s'] eqn:Ep. apply push_legal in Ep as (He & Hsame & Hl); [|done].
    rewrite legal_app, Hl. cbn. apply IH. intros Hd. rewrite He in Hd. by rewrite Hsame, H.
Qed.

(** The bytes of the deltas, each with the kind of its block. *)
Definition delta_bytes (e : Sse) : list (BlockKind * byte) :=
  match e with ContentBlockDelta _ k t => pair k <$> t | _ => [] end.
Definition tok_byte (t : Tok) : list (BlockKind * byte) :=
  match t with TByte k b => [(k, b)] | _ => [] end.

Lemma tok_bytes k t : (TByte k <$> t) ≫= tok_byte = pair k <$> t.
Proof. induction t; [done|]. cbn. f_equal. done. Qed.

Lemma append_events_bytes evs b :
  (append_events evs b).1 ≫= delta_bytes = flat evs ≫= tok_byte.
Proof.
  revert b. induction evs as [|ev evs IH]; intros b; [done|].
  cbn [append_events]. destruct (append_event ev b) as [l b1] eqn:E.
  specialize (IH b1). destruct (append_events evs b1) as [l2 b2]. cbn in *.
  change (flat (ev :: evs)) with (toks_of ev ++ flat evs).
  rewrite !bind_app, IH. f_equal.
  destruct ev; cbn in E; [| |injection E as <- <-|injection E as <- <-]; cbn [toks_of].
  - injection E as <- <-. rewrite tok_bytes. destruct (negb _); cbn; by rewrite app_nil_r.
  - by destruct (block_started b); injection E as <- <-.
  - rewrite tok_bytes. cbn. by rewrite app_nil_r.
  - done.
Qed.

Lemma split_stream_off tokens :
  flat (split_stream (StreamSplitter_new false) tokens) = TByte BText <$> concat tokens.
Proof.
  induction tokens as [|t tokens IH]; [done|].
  change (split_stream (StreamSplitter_new false) (t :: tokens))
    with (SText t :: split_stream (StreamSplitter_new false) tokens).
  change (flat (SText t :: ?r)) with ((TByte BText <$> t) ++ flat r).
  rewrite IH. cbn [concat]. by rewrite fmap_app.
Qed.

(** [C40] The event stream of a message always follows the block protocol, whatever tokens
    and token errors the engine yields, and the bytes of its deltas, with the kinds of
    their blocks, are those the scanner finds in the tokens that arrived. *)
Theorem message_events_follow_protocol (tokens : list (result bytes)) :
  let good := omap (fun r => match r with Ok t => Some t | Err _ => None end) tokens in
  protocol_ok (messages_events true tokens) = true
  /\ protocol_ok (messages_events false tokens) = true
  /\ messages_events true tokens ≫= delta_bytes = scan BText 0 (concat good) ≫= tok_byte
  /\ messages_events false tokens ≫= delta_bytes = pair BText <$> concat good.
Proof.
  cbn zeta. set (good := omap _ tokens).
  assert (forall on, protocol_ok (messages_events on tokens) = true
    /\ messages_events on tokens ≫= delta_bytes
       = flat (split_stream (StreamSplitter_new on) good) ≫= tok_byte) as H.
  { intros on. unfold messages_events. fold good.
    pose proof (append_events_bytes (split_stream (StreamSplitter_new on) good) (mkBlocks 0 false)) as Hb.
    destruct (append_events _ _) as [l b] eqn:E. cbn [fst] in Hb.
    assert (legal BText (split_stream (StreamSplitter_new on) good) = Some BText) as Hl
      by (by apply (split_stream_legal good (StreamSplitter_new on))).
    destruct (append_events_ok _ _ _ _ _ _ (append_footer_events b) Hl ltac:(done) E) as [Hc Hok].
    split.
    - cbn. apply Hok. unfold append_footer_events, open_block.
      destruct (block_started b); cbn; by rewrite ?Z.eqb_refl.
    - cbn. rewrite bind_app, Hb. unfold append_footer_events.
      destruct (block_started b); cbn; by rewrite app_nil_r. }
  destruct (H true) as [Hp Hb], (H false) as [Hp' Hb'].
  split_and!; [done|done|..].
  - rewrite Hb, (split_stream_scan good (StreamSplitter_new true)) by (cbn; done || lia).
    cbn. rewrite bind_app. unfold closing. case_bool_decide; cbn; by rewrite app_nil_r.
  - by rewrite Hb', split_stream_off, tok_bytes.
Qed.

(** *** Whole answers *)
Definition thinking_byte (t : Tok) : bytes :=
  match t with TByte BThinking b => [b] | _ => [] end.
Definition thinking_of (c : ContentBlock) : bytes :=
  match c with CThinking t _ => t | CText _ => [] end.

Lemma thinking_bytes t : (TByte BThinking <$> t) ≫= thinking_byte = t.
Proof. induction t; [done|]. cbn. by f_equal. Qed.
Lemma no_thinking_bytes t : (TByte BText <$> t) ≫= thinking_byte = [].
Proof. by induction t. Qed.
Lemma text_block_thinking t : text_block t ≫= thinking_of = [].
Proof. unfold text_block. by case_bool_decide. Qed.

Lemma scan_found k i s :
  find_sub (marker_of k) s = Some i ->
  scan k 0 s = (TByte k <$> take i s)
               ++ turn_tok k :: scan (other k) 0 (drop (i + length (marker_of k)) s).
Proof.
  intros (Hat & Hlen & Hno)%find_sub_Some.
  rewrite (scan_run k i) by (lia || done). by rewrite scan_marker, drop_drop.
Qed.

Lemma scan_none k s : find_sub (marker_of k) s = None -> scan k 0 s = TByte k <$> s.
Proof.
  intros H. rewrite (scan_run k (length s)); [|done|intros j _; by apply find_sub_None].
  rewrite firstn_all, drop_all. apply app_nil_r.
Qed.

Lemma thinking_loop_spec fuel rest bs r :
  (length rest < fuel)%nat -> thinking_loop fuel rest = (bs, r) ->
  bs ≫= thinking_of = scan BText 0 rest ≫= thinking_byte.
Proof.
  revert rest bs. induction fuel as [|fuel IH]; intros rest bs Hf E; [lia|].
  cbn [thinking_loop] in E.
  change OPEN_TAG with (marker_of BText) in E. change CLOSE_TAG with (marker_of BThinking) in E.
  destruct (find_sub (marker_of BText) rest) as [i|] eqn:Ei.
  - rewrite (scan_found _ _ _ Ei), bind_app, no_thinking_bytes.
    apply find_sub_Some in Ei as (_ & Hlen & _).
    change (turn_tok BText :: scan (other BText) 0 ?r) with ([TOpen] ++ scan BThinking 0 r).
    rewrite bind_app. change ([TOpen] ≫= thinking_byte) with (@nil byte).
    set (r1 := drop (i + length (marker_of BText)) rest) in *.
    assert (0 < length (marker_of BText))%nat by (cbn; lia).
    assert (length r1 < length rest)%nat as Hr1 by (unfold r1; rewrite length_drop; lia).
    destruct (find_sub (marker_of BThinking) r1) as [e|] eqn:Ee.
    + rewrite (scan_found _ _ _ Ee), bind_app, thinking_bytes.
      destruct (thinking_loop _ _) as [bs' r'] eqn:El.
      injection E as <- <-. apply IH in El; [|rewrite length_drop; lia].
      rewrite bind_app, text_block_thinking.
      change ((CThinking ?a ?b :: bs') ≫= thinking_of) with (a ++ (bs' ≫= thinking_of)).
      by rewrite El.
    + injection E as <- <-. rewrite (scan_none _ _ Ee), bind_app, text_block_thinking, thinking_bytes.
      apply app_nil_r.
  - injection E as <- <-. by rewrite (scan_none _ _ Ei), no_thinking_bytes.
Qed.

(** The reasoning shown for a whole answer is the reasoning the stream of the same
    answer shows, however that stream is cut. *)
Theorem whole_and_streamed_thinking_agree (tokens : list bytes) :
  split_thinking_text (concat tokens) ≫= thinking_of
  = flat (split_stream (StreamSplitter_new true) tokens) ≫= thinking_byte.
Proof.
  rewrite (split_stream_scan tokens (StreamSplitter_new true)) by (cbn; done || lia).
  cbn [state carry StreamSplitter_new app]. rewrite bind_app.
  assert (closing BText (scan BText 0 (concat tokens)) ≫= thinking_byte = []) as ->
    by (unfold closing; by case_bool_decide).
  rewrite app_nil_r. unfold split_thinking_text.
  destruct (thinking_loop _ _) as [bs rest] eqn:El.
  apply thinking_loop_spec in El; [|lia]. rewrite <- El.
  assert ((bs ++ text_block rest) ≫= thinking_of = bs ≫= thinking_of) as <-
    by (by rewrite bind_app, text_block_thinking, app_nil_r).
  by destruct (bs ++ text_block rest).
Qed.
End ThinkingFacts.
