(* ===== verification/LlamaServer.v ===== *)
(** * The local LLM server ([gpuf-c/src/llm_engine/llama_server.rs], [anthropic_server.rs])

    The HTTP front end a device offers next to its worker: configuration from the
    environment, the API key, the limits on prompts, tokens and concurrency, the content
    filter of prompts, answers and streams, the prompt templates, and the request handlers
    of the OpenAI and Anthropic routes, with the security counters of
    [gpuf-c/src/util/security_metrics.rs]. The engine is what it answers; the Unicode
    lower-case mapping and [HeaderValue::to_str] are parameters. *)
From S2P Require Import Prelude Wire Text Output Thinking.
From Stdlib Require Import ZArith Lia String.
From Stdlib Require Import Strings.Byte.
From stdpp Require Import base list.

Local Open Scope Z_scope.

(** ** Security counters *)
Inductive Metric :=
  | auth_failures | prompt_rejections | max_token_rejections | rate_limit_rejections
  | content_filter_rejections | p2p_auth_rejections | p2p_replay_rejections
  | p2p_reassembly_rejections | checksum_failures | public_listen_uses
  | external_command_rejections.
#[global] Instance Metric_eq_dec : EqDecision Metric.
Proof. solve_decision. Defined.

(** One atomic counter each. [snapshot] reads them all. *)
Definition SecurityMetrics := Metric -> Z.
Definition SecurityMetrics_default : SecurityMetrics := fun _ => 0.
Definition inc (m : Metric) (s : SecurityMetrics) : SecurityMetrics :=
  fun k => if decide (k = m) then wrap 64 (s k + 1) else s k.

(** ** Configuration from the environment *)

(** [std::env::var(name).ok()]. *)
Definition Environment := bytes -> option bytes.

Definition read_usize_env (env : Environment) (name : bytes) (default_value : Z) : Z :=
  match (v ← env name; parse_uint 64 v) with
  | Some v => if 0 <? v then v else default_value
  | None => default_value
  end.

Definition read_bool_env (env : Environment) (name : bytes) : bool :=
  match env name with
  | Some v => existsb (fun w => bool_decide (to_ascii_lowercase (trim v) = w))
                [b!"1"; b!"true"; b!"yes"; b!"on"]
  | None => false
  end.

Definition comma : byte := Byte.x2c.
Definition non_empty (s : bytes) : bool := negb (bool_decide (s = [])).

Definition read_csv_env (env : Environment) (name : bytes) : list bytes :=
  match env name with
  | Some v => List.filter non_empty (trim <$> split_byte comma v)
  | None => []
  end.

Record SecurityLimits := mkLimits {
  max_prompt_bytes : Z; max_max_tokens : Z; max_concurrent_generations : Z;
  max_sse_connections : Z; request_body_limit_bytes : Z }.

Definition SecurityLimits_from_env (env : Environment) : SecurityLimits := {|
  max_prompt_bytes := read_usize_env env b!"GPUF_MAX_PROMPT_BYTES" (128 * 1024);
  max_max_tokens := read_usize_env env b!"GPUF_MAX_MAX_TOKENS" 4096;
  max_concurrent_generations := read_usize_env env b!"GPUF_MAX_CONCURRENT_GENERATIONS" 2;
  max_sse_connections := read_usize_env env b!"GPUF_MAX_SSE_CONNECTIONS" 8;
  request_body_limit_bytes := read_usize_env env b!"GPUF_REQUEST_BODY_LIMIT_BYTES" (1024 * 1024) |}.

Record ContentSafetyConfig := mkSafety {
  cs_enabled : bool; blocked_keywords : list bytes; block_special_tokens : bool }.

Definition ContentSafetyConfig_from_env (env : Environment) : ContentSafetyConfig :=
  let blocked := read_csv_env env b!"GPUF_BLOCKED_KEYWORDS" in
  let special := read_bool_env env b!"GPUF_BLOCK_SPECIAL_TOKENS" in
  mkSafety (read_bool_env env b!"GPUF_CONTENT_SAFETY"
            || read_bool_env env b!"GPUF_CONTENT_SAFETY_ENABLED"
            || special || negb (bool_decide (blocked = [])))
    blocked special.

Definition is_enabled (c : ContentSafetyConfig) : bool :=
  cs_enabled c && (negb (bool_decide (blocked_keywords c = [])) || block_special_tokens c).

Record ServerSecurityConfig := mkSecurity {
  api_key : option bytes; limits : SecurityLimits; content_safety : ContentSafetyConfig }.

Definition ServerSecurityConfig_from_env (env : Environment) : ServerSecurityConfig :=
  mkSecurity (v ← env b!"GPUF_API_KEY"; let v := trim v in if non_empty v then Some v else None)
    (SecurityLimits_from_env env) (ContentSafetyConfig_from_env env).

(** ** Errors *)
Record AppError := mkError {
  status : Z; public_message : bytes; error_type : bytes; source : option bytes }.
Definition bad_request (m : bytes) : AppError := mkError 400 m b!"invalid_request_error" None.
Definition unauthorized : AppError :=
  mkError 401 b!"missing or invalid API key" b!"authentication_error" None.
Definition payload_too_large (m : bytes) : AppError :=
  mkError 413 m b!"invalid_request_error" None.
Definition content_filter (m : bytes) : AppError := mkError 400 m b!"content_filter_error" None.
Definition too_many_requests (m : bytes) : AppError := mkError 429 m b!"rate_limit_error" None.
Definition internal (e : bytes) : AppError :=
  mkError 500 b!"internal server error" b!"internal_error" (Some e).

(** What a client sees of an error. *)
Definition into_response (e : AppError) : Z * bytes * bytes :=
  (status e, public_message e, error_type e).

(** ** Server state *)
Record ApiServerState := mkApi {
  security : ServerSecurityConfig; generation_semaphore : Z; sse_semaphore : Z;
  metrics : SecurityMetrics }.

Definition ApiServerState_new (sec : ServerSecurityConfig) (m : SecurityMetrics) : ApiServerState :=
  mkApi sec (Z.max (max_concurrent_generations (limits sec)) 1)
    (Z.max (max_sse_connections (limits sec)) 1) m.

Definition record_metric (m : Metric) (st : ApiServerState) : ApiServerState :=
  mkApi (security st) (generation_semaphore st) (sse_semaphore st) (inc m (metrics st)).
Definition add_permits (g s : Z) (st : ApiServerState) : ApiServerState :=
  mkApi (security st) (generation_semaphore st + g) (sse_semaphore st + s) (metrics st).

(** Handlers: a state transformer with errors. A failing step keeps the state it reached. *)
Definition Handler (A : Type) := ApiServerState -> (AppError + A) * ApiServerState.
Definition hret {A} (x : A) : Handler A := fun st => (inr x, st).
Definition hfail {A} (m : Metric) (e : AppError) : Handler A := fun st => (inl e, record_metric m st).
Definition hget : Handler ApiServerState := fun st => (inr st, st).
Definition hbind {A B} (h : Handler A) (f : A -> Handler B) : Handler B :=
  fun st => match h st with
            | (inl e, st) => (inl e, st)
            | (inr x, st) => f x st
            end.
Notation "'do!' x := h 'in' k" := (hbind h (fun x => k))
  (at level 10, x pattern, h at level 100, k at level 200) : bytes_scope.

Definition try_generation_permit : Handler () := fun st =>
  if 0 <? generation_semaphore st then (inr (), add_permits (-1) 0 st)
  else hfail rate_limit_rejections
         (too_many_requests b!"generation concurrency limit exceeded") st.

Definition try_sse_permit : Handler () := fun st =>
  if 0 <? sse_semaphore st then (inr (), add_permits 0 (-1) st)
  else hfail rate_limit_rejections (too_many_requests b!"SSE connection limit exceeded") st.

(** ** Limits and content filter *)
Definition validate_prompt_and_tokens (l : SecurityLimits) (prompt : bytes)
    (requested_max_tokens : option Z) : Handler () :=
  if max_prompt_bytes l <? blen prompt
  then hfail prompt_rejections (payload_too_large
         (b!"prompt too large: " ++ dec (blen prompt) ++ b!" bytes exceeds limit "
          ++ dec (max_prompt_bytes l)))
  else match requested_max_tokens with
       | Some n =>
           if max_max_tokens l <? n
           then hfail max_token_rejections (bad_request
                  (b!"max_tokens too large: " ++ dec n ++ b!" exceeds limit "
                   ++ dec (max_max_tokens l)))
           else hret ()
       | None => hret ()
       end.

Definition SPECIAL_PATTERNS : list bytes :=
  [b!"<|"; b!"<s>"; b!"</s>"; b!"[INST]"; b!"[/INST]"; b!"<|im_start|>"; b!"<|im_end|>";
   b!"<|begin_of_text|>"; b!"<|start_header_id|>"; b!"<|end_header_id|>"].

Section Filter.
Context (to_lowercase : bytes -> bytes).

Definition keyword_hit (lower keyword : bytes) : bool :=
  let needle := to_lowercase (trim keyword) in
  non_empty needle && contains_sub needle lower.

(** The error [validate_content_safety] returns, if any. *)
Definition safety_error (c : ContentSafetyConfig) (text direction : bytes) : option AppError :=
  if negb (is_enabled c) then None
  else match List.find (keyword_hit (to_lowercase text)) (blocked_keywords c) with
       | Some keyword => Some (content_filter
           (direction ++ b!" contains blocked keyword '" ++ keyword ++ b!"'"))
       | None =>
           if block_special_tokens c && existsb (fun p => contains_sub p text) SPECIAL_PATTERNS
           then Some (content_filter (direction ++ b!" contains blocked special token marker"))
           else None
       end.

Definition validate_content_safety (c : ContentSafetyConfig) (text direction : bytes) : Handler () :=
  match safety_error c text direction with
  | Some e => hfail content_filter_rejections e
  | None => hret ()
  end.

(** ** Prompt templates *)
Definition newline : bytes := [Byte.x0a].

Definition build_chatml_prompt (messages : list ChatMessage) : bytes :=
  concat ((fun m => b!"<|im_start|>" ++ role m ++ newline ++ content m ++ b!"<|im_end|>" ++ newline)
          <$> messages)
  ++ b!"<|im_start|>assistant" ++ newline.

Definition build_llama3_prompt (messages : list ChatMessage) : bytes :=
  b!"<|begin_of_text|>"
  ++ concat ((fun m => b!"<|start_header_id|>" ++ role m ++ b!"<|end_header_id|>" ++ newline ++ newline
                       ++ content m ++ b!"<|eot_id|>") <$> messages)
  ++ b!"<|start_header_id|>assistant<|end_header_id|>" ++ newline ++ newline.

Definition alpaca_heading (r : bytes) : bytes :=
  if bool_decide (r = b!"system") then b!"Instruction"
  else if bool_decide (r = b!"user") then b!"Input"
  else if bool_decide (r = b!"assistant") then b!"Response"
  else r.
Definition build_alpaca_prompt (messages : list ChatMessage) : bytes :=
  concat ((fun m => b!"### " ++ alpaca_heading (role m) ++ b!":" ++ newline ++ content m ++ newline
                    ++ newline) <$> messages)
  ++ b!"### Response:" ++ newline.

Definition simple_name (r : bytes) : bytes :=
  if bool_decide (r = b!"user") then b!"Human"
  else if bool_decide (r = b!"assistant") then b!"Assistant"
  else if bool_decide (r = b!"system") then b!"System"
  else r.
Definition build_simple_prompt (messages : list ChatMessage) : bytes :=
  concat ((fun m => simple_name (role m) ++ b!": " ++ content m ++ newline ++ newline) <$> messages)
  ++ b!"Assistant:".

Definition build_chat_prompt (env : Environment) (messages : list ChatMessage) : bytes :=
  let template := to_lowercase (default b!"simple" (env b!"CHAT_TEMPLATE")) in
  if bool_decide (template = b!"chatml") then build_chatml_prompt messages
  else if bool_decide (template = b!"llama3") then build_llama3_prompt messages
  else if bool_decide (template = b!"alpaca") then build_alpaca_prompt messages
  else build_simple_prompt messages.
End Filter.

(** ** API key *)

(** [http::HeaderMap] with lower-case names; [get] gives the first value. *)
Definition HeaderMap := list (bytes * bytes).
Definition header_get (name : bytes) (h : HeaderMap) : option bytes :=
  snd <$> List.find (fun nv => bool_decide (nv.1 = name)) h.

Definition constant_time_eq (a b : bytes) : bool :=
  if negb (length a =? length b)%nat then false
  else fold_left (fun diff lr => Z.lor diff (Z.lxor (Z_of_byte lr.1) (Z_of_byte lr.2)))
         (combine a b) 0 =? 0.

Section Auth.
Context (header_to_str : bytes -> option bytes).

Definition is_authorized (h : HeaderMap) (expected : bytes) : bool :=
  match (v ← header_get b!"authorization" h; s ← header_to_str v; Prelude.strip_prefix b!"Bearer " s) with
  | Some token => constant_time_eq token expected
  | None =>
      match (v ← header_get b!"x-api-key" h; header_to_str v) with
      | Some token => constant_time_eq token expected
      | None => false
      end
  end.

Definition require_api_key (h : HeaderMap) : Handler () := fun st =>
  match api_key (security st) with
  | Some expected =>
      if negb (is_authorized h expected) then hfail auth_failures unauthorized st
      else hret () st
  | None => hret () st
  end.
End Auth.

(** ** The address the server may listen on *)

(** [str::parse::<IpAddr>]: four decimal octets without leading zeros, or the groups of an
    IPv6 address with at most one gap and an optional IPv4 tail. *)
Definition octet (s : bytes) : option Z :=
  if ((1 <=? length s) && (length s <=? 3))%nat
     && negb (starts_with b!"0" s && (1 <? length s)%nat)
  then v ← digits_value s; if v <? 256 then Some v else None
  else None.
Definition parse_ipv4 (s : bytes) : option (list Z) :=
  match octet <$> split_byte Byte.x2e s with
  | [Some a; Some b; Some c; Some d] => Some [a; b; c; d]
  | _ => None
  end.

Definition hex_value (b : byte) : option Z :=
  let z := Z_of_byte b in
  if byte_in 48 57 b then Some (z - 48)
  else if byte_in 97 102 b then Some (z - 87)
  else if byte_in 65 70 b then Some (z - 55) else None.
Definition hex_group (s : bytes) : option Z :=
  if ((1 <=? length s) && (length s <=? 4))%nat
  then fold_left (fun acc b => a ← acc; d ← hex_value b; Some (a * 16 + d)) s (Some 0)
  else None.

Fixpoint ipv6_groups (parts : list bytes) (v4_last : bool) : option (list Z) :=
  match parts with
  | [] => Some []
  | [p] =>
      match hex_group p with
      | Some g => Some [g]
      | None =>
          if v4_last then
            match parse_ipv4 p with
            | Some [a; b; c; d] => Some [a * 256 + b; c * 256 + d]
            | _ => None
            end
          else None
      end
  | p :: parts => g ← hex_group p; gs ← ipv6_groups parts v4_last; Some (g :: gs)
  end.
Definition colon_groups (s : bytes) (v4_last : bool) : option (list Z) :=
  if bool_decide (s = []) then Some [] else ipv6_groups (split_byte Byte.x3a s) v4_last.
Definition parse_ipv6 (s : bytes) : option (list Z) :=
  match find_sub b!"::" s with
  | None => gs ← colon_groups s true; if (length gs =? 8)%nat then Some gs else None
  | Some i =>
      h ← colon_groups (take i s) false;
      t ← colon_groups (drop (i + 2) s) true;
      if (length h + length t <=? 7)%nat
      then Some (h ++ replicate (8 - length h - length t) 0 ++ t) else None
  end.

Definition ip_is_loopback (s : bytes) : option bool :=
  match parse_ipv4 s with
  | Some (a :: _) => Some (a =? 127)
  | _ => gs ← parse_ipv6 s; Some (bool_decide (gs = [0; 0; 0; 0; 0; 0; 0; 1]))
  end.

Definition is_loopback_host (host : bytes) : bool :=
  let normalized := trim_matches Byte.x5d (trim_matches Byte.x5b (trim host)) in
  if bool_decide (to_ascii_lowercase normalized = b!"localhost") then true
  else default false (ip_is_loopback normalized).

(** The check before [start_server_with_security] binds. *)
Definition start_server_with_security (host : bytes) (sec : ServerSecurityConfig)
    (m : SecurityMetrics) : result ApiServerState :=
  if bool_decide (api_key sec = None) && negb (is_loopback_host host)
  then Err (b!"API key is required when binding standalone API server to non-loopback host "
            ++ host ++ b!". Set --api-key or GPUF_API_KEY, or bind to 127.0.0.1.")
  else Ok (ApiServerState_new sec m).

(** ** Requests *)
Record SamplingParams := mkParams {
  sp_temperature : f32; sp_top_k : Z; sp_top_p : f32; sp_repeat_penalty : f32;
  sp_repeat_last_n : Z; sp_seed : Z; sp_min_keep : Z; sp_thinking_budget : option Z }.
(** 0.8, 0.95 and 1.1 as bit patterns. *)
Definition SamplingParams_default : SamplingParams :=
  mkParams 0x3f4ccccd 40 0x3f733333 0x3f8ccccd 64 0 1 None.

(** The optional sampling fields both OpenAI requests have. *)
Record SamplingFields := mkFields {
  f_temperature : option f32; f_top_k : option Z; f_top_p : option f32;
  f_repeat_penalty : option f32; f_repeat_last_n : option Z; f_seed : option Z;
  f_min_keep : option Z }.
Definition sampling_of (f : SamplingFields) : SamplingParams :=
  let d := SamplingParams_default in
  mkParams (default (sp_temperature d) (f_temperature f)) (default (sp_top_k d) (f_top_k f))
    (default (sp_top_p d) (f_top_p f)) (default (sp_repeat_penalty d) (f_repeat_penalty f))
    (default (sp_repeat_last_n d) (f_repeat_last_n f)) (default (sp_seed d) (f_seed f))
    (default (sp_min_keep d) (f_min_keep f)) None.

Record ChatCompletionRequest := mkChatReq {
  cq_model : option bytes; cq_messages : list ChatMessage; cq_max_tokens : option Z;
  cq_sampling : SamplingFields; cq_stream : bool }.
Record CompletionRequest := mkCompReq {
  pq_model : option bytes; pq_prompt : bytes; pq_max_tokens : option Z;
  pq_sampling : SamplingFields }.
Record ThinkingConfig := mkThinking { thinking_type : bytes; budget_tokens : option Z }.
Record MessagesRequest := mkMessages {
  mq_model : option bytes; mq_messages : list ChatMessage; mq_max_tokens : option Z;
  mq_stream : bool; mq_system : option bytes; mq_thinking : option ThinkingConfig;
  mq_temperature : option f32 }.
Inductive ApiRequest :=
  | ChatCompletions (r : ChatCompletionRequest)
  | Completions (r : CompletionRequest)
  | Messages (r : MessagesRequest).

(** What the engine is asked for, and whether an event stream is kept open for it. *)
Record Job := mkJob { j_prompt : bytes; j_max_tokens : Z; j_sampling : SamplingParams; j_sse : bool }.

Section Handlers.
Context (to_lowercase : bytes -> bytes) (header_to_str : bytes -> option bytes) (env : Environment).

(** [try_sse_permit]?, with a generation permit held that is dropped on failure. *)
Definition sse_permit_or_release : Handler () := fun st =>
  match try_sse_permit st with
  | (inl e, st) => (inl e, add_permits 1 0 st)
  | r => r
  end.

(** Each handler up to the call of the engine. *)
Definition chat_begin (req : ChatCompletionRequest) : Handler Job :=
  do! st := hget in
  let prompt := build_chat_prompt to_lowercase env (cq_messages req) in
  do! _ := validate_prompt_and_tokens (limits (security st)) prompt (cq_max_tokens req) in
  do! _ := validate_content_safety to_lowercase (content_safety (security st)) prompt b!"prompt" in
  do! _ := try_generation_permit in
  do! _ := (if cq_stream req then sse_permit_or_release else hret ()) in
  hret (mkJob prompt (default 100 (cq_max_tokens req)) (sampling_of (cq_sampling req))
           (cq_stream req)).

Definition completions_begin (req : CompletionRequest) : Handler Job :=
  do! st := hget in
  do! _ := validate_prompt_and_tokens (limits (security st)) (pq_prompt req) (pq_max_tokens req) in
  do! _ := validate_content_safety to_lowercase (content_safety (security st)) (pq_prompt req)
              b!"prompt" in
  do! _ := try_generation_permit in
  hret (mkJob (pq_prompt req) (default 100 (pq_max_tokens req)) (sampling_of (pq_sampling req))
           false).

Definition thinking_instruction (budget : option Z) : bytes :=
  match budget with
  | Some n =>
      b!"Please reason step by step inside <think> tags before giving your final answer. Aim to use approximately "
      ++ dec n ++ b!" tokens for your thinking, then provide your final answer after </think> tag."
  | None => b!"Please reason step by step inside <think> tags before giving your final answer."
  end.

Definition system_content (req : MessagesRequest) : bytes :=
  let base := default [] (mq_system req) in
  match mq_thinking req with
  | Some t =>
      if bool_decide (thinking_type t = b!"enabled") then
        let instruction := thinking_instruction (budget_tokens t) in
        if bool_decide (base = []) then instruction
        else base ++ newline ++ newline ++ instruction
      else base
  | None => base
  end.

Definition build_anthropic_prompt (req : MessagesRequest) : bytes :=
  let system := system_content req in
  build_chat_prompt to_lowercase env
    (if bool_decide (system = []) then mq_messages req
     else mkChatMessage b!"system" system :: mq_messages req).

Definition messages_sampling (req : MessagesRequest) : SamplingParams :=
  let d := SamplingParams_default in
  mkParams (default (sp_temperature d) (mq_temperature req)) (sp_top_k d) (sp_top_p d)
    (sp_repeat_penalty d) (sp_repeat_last_n d) (sp_seed d) (sp_min_keep d)
    (if mq_stream req then t ← mq_thinking req; budget_tokens t else None).

Definition messages_begin (req : MessagesRequest) : Handler Job :=
  do! st := hget in
  let prompt := build_anthropic_prompt req in
  do! _ := validate_prompt_and_tokens (limits (security st)) prompt (mq_max_tokens req) in
  do! _ := try_generation_permit in
  do! _ := (if mq_stream req then sse_permit_or_release else hret ()) in
  hret (mkJob prompt (default 1024 (mq_max_tokens req)) (messages_sampling req)
           (mq_stream req)).

(** The protected routes: the API key, then the handler. *)
Definition begin_request (h : HeaderMap) (rq : ApiRequest) : Handler Job :=
  do! _ := require_api_key header_to_str h in
  match rq with
  | ChatCompletions r => chat_begin r
  | Completions r => completions_begin r
  | Messages r => messages_begin r
  end.

(** The permits of a job are dropped with its response or its stream. *)
Definition release (j : Job) (st : ApiServerState) : ApiServerState :=
  add_permits 1 (if j_sse j then 1 else 0) st.

(** ** Answers *)
Record ApiUsage := mkUsage { ut_prompt : Z; ut_completion : Z; ut_total : Z }.
Inductive ApiResponse :=
  | ChatResponse (model text : bytes) (usage : ApiUsage)
  | TextResponse (model text : bytes) (usage : ApiUsage)
  | MessageResponse (model : bytes) (content : list ContentBlock) (input output : Z).

Definition model_or_default (m : option bytes) : bytes := default b!"llama.cpp" m.

(** The rest of the handlers that answer in one piece, given what the engine answered:
    the text and its token counts. *)
Definition finish_request (rq : ApiRequest) (j : Job) (answer : result (bytes * Z * Z))
    : Handler ApiResponse := fun st =>
  let '(r, st) :=
    (match answer with
     | Err e => (inl (internal e), st)
     | Ok (text, p, c) =>
         match rq with
         | ChatCompletions q =>
             (do! _ := validate_content_safety to_lowercase (content_safety (security st)) text
                         b!"output" in
              hret (ChatResponse (model_or_default (cq_model q)) text (mkUsage p c (p + c)))) st
         | Completions q =>
             (do! _ := validate_content_safety to_lowercase (content_safety (security st)) text
                         b!"output" in
              hret (TextResponse (model_or_default (pq_model q)) text (mkUsage p c (p + c)))) st
         | Messages q =>
             hret (MessageResponse (model_or_default (mq_model q))
                     (if bool_decide (mq_thinking q = None) then [CText text]
                      else split_thinking_text text) p c) st
         end
     end) in (r, release j st).

(** *** The streamed chat *)
Inductive ChatSse := ChunkEv (token : bytes) | ErrorEv (data : bytes) | DoneEv.

(** The engine's stream, or the error that ends the request and drops its permits. *)
Definition open_stream (j : Job) (answer : result (list (result bytes)))
    : Handler (list (result bytes)) := fun st =>
  match answer with
  | Ok tokens => (inr tokens, st)
  | Err e => (inl (internal e), release j st)
  end.

Definition WINDOW : Z := 65536.

(** [state.1.push_str(&token)] and the cut to the last [WINDOW] bytes; [String::drain]
    panics when the cut is inside a character. *)
Definition push_window (window token : bytes) : option bytes :=
  let w := window ++ token in
  if WINDOW <? blen w then
    let trim_to := Z.to_nat (blen w - WINDOW) in
    if Phase.is_char_boundary w trim_to then Some (drop trim_to w) else None
  else Some w.

(** The [filter_map] over the tokens, with the state of the output filter (stopped, window)
    and the counters, then the final event. [None] is a panic. *)
Fixpoint chat_stream (c : ContentSafetyConfig) (stopped : bool) (window : bytes)
    (tokens : list (result bytes)) (m : SecurityMetrics) : option (list ChatSse * SecurityMetrics) :=
  match tokens with
  | [] => Some ([DoneEv], m)
  | t :: tokens =>
      if stopped then chat_stream c stopped window tokens m
      else match t with
           | Err _ =>
               '(evs, m) ← chat_stream c false window tokens m;
               Some (ErrorEv b!"stream error" :: evs, m)
           | Ok token =>
               window ← push_window window token;
               match safety_error to_lowercase c window b!"output" with
               | Some e =>
                   '(evs, m) ← chat_stream c true window tokens (inc content_filter_rejections m);
                   Some (ErrorEv (public_message e) :: evs, m)
               | None =>
                   '(evs, m) ← chat_stream c false window tokens m;
                   Some (ChunkEv token :: evs, m)
               end
           end
  end.
End Handlers.

(** ** The server under concurrent requests *)

(** The shared state and the jobs in flight. *)
Record Server := mkServer { api : ApiServerState; jobs : list Job }.

Section Machine.
Context (to_lowercase : bytes -> bytes) (header_to_str : bytes -> option bytes) (env : Environment).
Local Abbreviation begin := (begin_request to_lowercase header_to_str env).
Local Abbreviation finish := (finish_request to_lowercase).

Inductive server_step : Server -> Server -> Prop :=
  | step_admit st js h rq j st' :
      begin h rq st = (inr j, st') -> server_step (mkServer st js) (mkServer st' (j :: js))
  | step_reject st js h rq e st' :
      begin h rq st = (inl e, st') -> server_step (mkServer st js) (mkServer st' js)
  | step_finish st js1 j js2 rq answer r st' :
      finish rq j answer st = (r, st') -> j_sse j = false ->
      server_step (mkServer st (js1 ++ j :: js2)) (mkServer st' (js1 ++ js2))
  | step_stream_error st js1 j js2 e r st' :
      open_stream j (Err e) st = (inl r, st') -> j_sse j = true ->
      server_step (mkServer st (js1 ++ j :: js2)) (mkServer st' (js1 ++ js2))
  | step_stream_dropped st js1 j js2 :
      j_sse j = true ->
      server_step (mkServer st (js1 ++ j :: js2)) (mkServer (release j st) (js1 ++ js2)).

Inductive server_reach (s0 : Server) : Server -> Prop :=
  | server_start : server_reach s0 s0
  | server_next s s' : server_reach s0 s -> server_step s s' -> server_reach s0 s'.
End Machine.

Module LlamaFacts.

(** *** The key comparison *)
Lemma lor_zero a b : 0 <= a -> 0 <= b -> Z.lor a b = 0 -> a = 0 /\ b = 0.
Proof. intros Ha Hb H. by apply Z.lor_eq_0_iff in H. Qed.

Lemma diff_fold l acc :
  fold_left (fun diff (lr : byte * byte) => Z.lor diff (Z.lxor (Z_of_byte lr.1) (Z_of_byte lr.2)))
    l acc = 0 <-> acc = 0 /\ Forall (fun lr => lr.1 = lr.2) l.
Proof.
  revert acc. induction l as [|[a b] l IH]; intros acc; cbn [fold_left fst snd].
  { split; [by intros ->|by intros [-> _]]. }
  rewrite IH, Z.lor_eq_0_iff, Forall_cons. cbn.
  split; [intros [[-> E] H]|intros [-> [-> H]]].
  - apply Z.lxor_eq in E. by apply Z_of_byte_inj in E as ->.
  - by rewrite Z.lxor_nilpotent.
Qed.

Lemma constant_time_eq_spec a b : constant_time_eq a b = true <-> a = b.
Proof.
  unfold constant_time_eq. destruct (Nat.eqb_spec (length a) (length b)) as [Hl|Hl]; cbn.
  - rewrite Z.eqb_eq, diff_fold. split; [intros [_ H]|intros ->].
    + revert b Hl H. induction a as [|x a IH]; intros [|y b] Hl H; try done.
      cbn [combine length] in *. apply Forall_cons in H as [E H]. cbn in E. subst y.
      f_equal. apply IH; [lia|done].
    + split; [done|]. clear. induction b; constructor; done.
  - split; [done|]. intros ->. done.
Qed.

(** *** Admission *)
Definition requested (rq : ApiRequest) : option Z :=
  match rq with
  | ChatCompletions r => cq_max_tokens r
  | Completions r => pq_max_tokens r
  | Messages r => mq_max_tokens r
  end.
Definition default_tokens (rq : ApiRequest) : Z :=
  match rq with Messages _ => 1024 | _ => 100 end.
Definition filtered_route (rq : ApiRequest) : bool :=
  match rq with Messages _ => false | _ => true end.

Section Admission.
Context (to_lowercase : bytes -> bytes) (header_to_str : bytes -> option bytes) (env : Environment).

(** A step that either fails, changing the counters only, or succeeds without effect. *)
Definition guard_spec (h : Handler ()) (P : Prop) : Prop := forall st,
  match h st with
  | (inr _, st') => st' = st /\ P
  | (inl _, st') => exists m, st' = record_metric m st
  end.

Lemma limits_guard l prompt n :
  guard_spec (validate_prompt_and_tokens l prompt n)
    (blen prompt <= max_prompt_bytes l /\ forall k, n = Some k -> k <= max_max_tokens l).
Proof.
  intros st. unfold validate_prompt_and_tokens.
  destruct (max_prompt_bytes l <? blen prompt) eqn:E; [cbn; eauto|].
  destruct n as [n|]; [destruct (max_max_tokens l <? n) eqn:E'; [cbn; eauto|]|];
    bool_hyps; (split; [done|split; [done|intros ? [=]; subst; done]]).
Qed.

Lemma safety_guard c text dir :
  guard_spec (validate_content_safety to_lowercase c text dir)
    (safety_error to_lowercase c text dir = None).
Proof.
  intros st. unfold validate_content_safety. destruct (safety_error _ _ _ _); [eexists|]; done.
Qed.

Lemma key_guard h st :
  match require_api_key header_to_str h st with
  | (inr _, st') => st' = st /\ forall key, api_key (security st) = Some key ->
      is_authorized header_to_str h key = true
  | (inl _, st') => exists m, st' = record_metric m st
  end.
Proof.
  unfold require_api_key. destruct (api_key (security st)) as [key|]; [|done].
  destruct (is_authorized _ h key) eqn:E; cbn; [|eauto]. split; [done|]. by intros ? [= <-].
Qed.

(** The permits, taken together. *)
Lemma permits_spec (sse : bool) st :
  match (do! _ := try_generation_permit in
         (if sse then sse_permit_or_release else hret ())) st with
  | (inr _, st') => st' = add_permits (-1) (if sse then -1 else 0) st
      /\ 0 < generation_semaphore st /\ (sse = true -> 0 < sse_semaphore st)
  | (inl _, st') => exists m, st' = record_metric m st
  end.
Proof.
  unfold hbind, try_generation_permit.
  destruct (0 <? generation_semaphore st) eqn:E; [|cbn; eauto].
  bool_hyps. destruct sse; cbn; [|done].
  unfold sse_permit_or_release, try_sse_permit. cbn.
  rewrite Z.add_0_r. destruct (0 <? sse_semaphore st) eqn:E'; bool_hyps.
  - split_and!; [|done|done]. destruct st. unfold add_permits. cbn. f_equal; lia.
  - exists rate_limit_rejections. destruct st. unfold add_permits, record_metric. cbn. f_equal; lia.
Qed.

(** A handler that fails changes the counters only; otherwise [Q] holds. *)
Definition admits {A} (h : Handler A) (st : ApiServerState) (Q : A -> ApiServerState -> Prop) : Prop :=
  match h st with
  | (inr x, st') => Q x st'
  | (inl _, st') => exists m, st' = record_metric m st
  end.

Lemma admits_bind {A} (h : Handler ()) P (f : () -> Handler A) st Q :
  guard_spec h P -> (P -> admits (f ()) st Q) -> admits (hbind h f) st Q.
Proof.
  intros H Hf. specialize (H st). unfold admits, hbind in *.
  destruct (h st) as [[e|[]] st']; [done|]. destruct H as [-> HP]. by apply Hf.
Qed.

Lemma admits_get {A} (f : ApiServerState -> Handler A) st Q :
  admits (f st) st Q -> admits (do! st := hget in f st) st Q.
Proof. done. Qed.

Lemma admits_permits (sse : bool) (j : Job) st (Q : Job -> ApiServerState -> Prop) :
  (0 < generation_semaphore st -> (sse = true -> 0 < sse_semaphore st) ->
   Q j (add_permits (-1) (if sse then -1 else 0) st)) ->
  admits (do! _ := try_generation_permit in
          do! _ := (if sse then sse_permit_or_release else hret ()) in hret j) st Q.
Proof.
  intros HQ. pose proof (permits_spec sse st) as H. unfold admits, hbind in *.
  destruct (try_generation_permit st) as [[e|[]] st1]; [done|].
  destruct ((if sse then sse_permit_or_release else hret ()) st1) as [[e|[]] st2]; [done|]. cbn.
  destruct H as (-> & ? & ?). auto.
Qed.

(** What a job that reaches the engine went through. *)
Definition checked (rq : ApiRequest) (st : ApiServerState) (j : Job) : Prop :=
  blen (j_prompt j) <= max_prompt_bytes (limits (security st))
  /\ (forall n, requested rq = Some n -> n <= max_max_tokens (limits (security st)))
  /\ j_max_tokens j = default (default_tokens rq) (requested rq)
  /\ (filtered_route rq = true ->
      safety_error to_lowercase (content_safety (security st)) (j_prompt j) b!"prompt" = None).

Definition admitted (rq : ApiRequest) (st : ApiServerState) (j : Job) (st' : ApiServerState) : Prop :=
  checked rq st j /\ st' = add_permits (-1) (if j_sse j then -1 else 0) st
  /\ 0 < generation_semaphore st /\ (j_sse j = true -> 0 < sse_semaphore st).

Lemma chat_admits r st :
  admits (chat_begin to_lowercase env r) st (admitted (ChatCompletions r) st).
Proof.
  unfold chat_begin. apply admits_get. eapply admits_bind; [apply limits_guard|]. intros [Hp Ht].
  eapply admits_bind; [apply safety_guard|]. intros Hs. by apply admits_permits.
Qed.

Lemma completions_admits r st :
  admits (completions_begin to_lowercase r) st (admitted (Completions r) st).
Proof.
  unfold completions_begin. apply admits_get. eapply admits_bind; [apply limits_guard|]. intros [Hp Ht].
  eapply admits_bind; [apply safety_guard|]. intros Hs.
  by apply (admits_permits false).
Qed.

Lemma messages_admits r st :
  admits (messages_begin to_lowercase env r) st (admitted (Messages r) st).
Proof.
  unfold messages_begin. apply admits_get. eapply admits_bind; [apply limits_guard|]. intros [Hp Ht].
  by apply admits_permits.
Qed.

Lemma begin_admits h rq st :
  admits (begin_request to_lowercase header_to_str env h rq) st (fun j st' =>
    (forall key, api_key (security st) = Some key -> is_authorized header_to_str h key = true)
    /\ admitted rq st j st').
Proof.
  pose proof (key_guard h st) as Hk. unfold begin_request, admits at 1, hbind.
  destruct (require_api_key header_to_str h st) as [[e|[]] st1]; [done|]. destruct Hk as [-> Hk].
  assert (admits (match rq with
    | ChatCompletions r => chat_begin to_lowercase env r
    | Completions r => completions_begin to_lowercase r
    | Messages r => messages_begin to_lowercase env r end) st (admitted rq st)) as H.
  { destruct rq; [apply chat_admits|apply completions_admits|apply messages_admits]. }
  unfold admits in *. destruct rq as [r|r|r];
    [destruct (chat_begin _ _ r st) as [[e|j] st']|destruct (completions_begin _ r st) as [[e|j] st']
    |destruct (messages_begin _ _ r st) as [[e|j] st']]; done.
Qed.

(** A request reaches the engine only with a valid key (when one is configured), a
    prompt within the limit, no more tokens requested than allowed and, on the OpenAI
    routes, a prompt the content filter accepts; it then holds its permits. A refused
    request changes nothing but a counter. *)
Theorem admission_checks (h : HeaderMap) (rq : ApiRequest) (st : ApiServerState) :
  match begin_request to_lowercase header_to_str env h rq st with
  | (inr j, st') =>
      (forall key, api_key (security st) = Some key -> is_authorized header_to_str h key = true)
      /\ checked rq st j
      /\ st' = add_permits (-1) (if j_sse j then -1 else 0) st
      /\ 0 < generation_semaphore st /\ (j_sse j = true -> 0 < sse_semaphore st)
  | (inl _, st') => exists m, st' = record_metric m st
  end.
Proof. apply begin_admits. Qed.

(** *** Concurrency *)
Definition count_sse (js : list Job) : Z := sum_Z (fun j => if j_sse j then 1 else 0) js.

Lemma count_sse_nonneg js : 0 <= count_sse js.
Proof. apply sum_Z_nonneg. intros j _. by destruct (j_sse j). Qed.

Definition max_generations (sec : ServerSecurityConfig) : Z :=
  Z.max (max_concurrent_generations (limits sec)) 1.
Definition max_sse (sec : ServerSecurityConfig) : Z := Z.max (max_sse_connections (limits sec)) 1.

(** Permits are neither lost nor made. *)
Definition permits_inv (sec : ServerSecurityConfig) (s : Server) : Prop :=
  security (api s) = sec
  /\ 0 <= generation_semaphore (api s) /\ 0 <= sse_semaphore (api s)
  /\ generation_semaphore (api s) + blen (jobs s) = max_generations sec
  /\ sse_semaphore (api s) + count_sse (jobs s) = max_sse sec.

Lemma remove_job sec st js1 j js2 st' :
  permits_inv sec (mkServer st (js1 ++ j :: js2)) ->
  (exists m, st' = add_permits 1 (if j_sse j then 1 else 0) (mkApi (security st)
     (generation_semaphore st) (sse_semaphore st) m)) ->
  permits_inv sec (mkServer st' (js1 ++ js2)).
Proof.
  intros (Hs & Hg & Hse & Eg & Ese) (m & ->). unfold permits_inv, count_sse in *. cbn in *.
  rewrite blen_app, sum_Z_app in *. cbn [sum_Z] in *. unfold blen in *. cbn [length] in *.
  split_and!; [done|destruct (j_sse j); lia..].
Qed.

Lemma finish_releases rq j answer st r st' :
  finish_request to_lowercase rq j answer st = (r, st') ->
  exists m, st' = add_permits 1 (if j_sse j then 1 else 0)
    (mkApi (security st) (generation_semaphore st) (sse_semaphore st) m).
Proof.
  unfold finish_request, release. intros E.
  destruct answer as [[[text p] c]|e]; [destruct rq; unfold hbind, validate_content_safety in E|];
    [destruct (safety_error _ _ _ _)..| |]; injection E as <- <-; destruct st; eauto.
Qed.

Lemma step_permits sec s s' :
  permits_inv sec s -> server_step to_lowercase header_to_str env s s' -> permits_inv sec s'.
Proof.
  intros Hinv Hstep. destruct Hstep as [st js h rq j st' E|st js h rq e st' E
    |st js1 j js2 rq ans r st' E Hj|st js1 j js2 e r st' E Hj|st js1 j js2 Hj].
  - pose proof (begin_admits h rq st) as H. unfold admits in H. rewrite E in H.
    destruct H as (_ & _ & -> & Hg & Hs). destruct Hinv as (H1 & H2 & H3 & H4 & H5).
    unfold permits_inv, count_sse, blen in *. cbn in *. destruct (j_sse j); split_and!; try done; try lia;
      specialize (Hs eq_refl); lia.
  - pose proof (begin_admits h rq st) as H. unfold admits in H. rewrite E in H.
    destruct H as (m & ->). exact Hinv.
  - eapply remove_job; [exact Hinv|]. by eapply finish_releases.
  - eapply remove_job; [exact Hinv|]. unfold open_stream, release in E. injection E as _ <-.
    destruct st. eauto.
  - eapply remove_job; [exact Hinv|]. unfold release. destruct st. eauto.
Qed.

End Admission.

(** *** The streamed chat *)
Definition sent (evs : list ChatSse) : bytes :=
  evs ≫= fun e => match e with ChunkEv t => t | _ => [] end.
Definition good_tokens (tokens : list (result bytes)) : list bytes :=
  omap (fun r => match r with Ok t => Some t | Err _ => None end) tokens.

Section Stream.
Context (to_lowercase : bytes -> bytes) (c : ContentSafetyConfig).

Lemma stopped_stream w tokens m : chat_stream to_lowercase c true w tokens m = Some ([DoneEv], m).
Proof. induction tokens; done. Qed.

Lemma chat_stream_run tokens w m :
  blen (w ++ concat (good_tokens tokens)) <= WINDOW ->
  exists evs m', chat_stream to_lowercase c false w tokens m = Some (evs ++ [DoneEv], m')
    /\ (sent evs = [] \/ safety_error to_lowercase c (w ++ sent evs) b!"output" = None)
    /\ ((sent evs = concat (good_tokens tokens) /\ m' = m)
        \/ (m' = inc content_filter_rejections m
            /\ exists e t rest, evs = rest ++ [ErrorEv (public_message e)]
               /\ concat (good_tokens tokens) = sent evs ++ t
               /\ exists p q, t = p ++ q
                  /\ safety_error to_lowercase c (w ++ sent evs ++ p) b!"output" = Some e)).
Proof.
  revert w m. induction tokens as [|[token|e] tokens IH]; intros w m Hb; cbn [chat_stream].
  - exists [], m. split_and!; [done|by left|by left].
  - change (good_tokens (Ok token :: tokens)) with (token :: good_tokens tokens) in *.
    cbn [concat] in *.
    assert (push_window w token = Some (w ++ token)) as Ew.
    { unfold push_window. rewrite (proj2 (Z.ltb_ge _ _)); [done|].
      rewrite !blen_app in *. pose proof (blen_nonneg (concat (good_tokens tokens))). lia. }
    rewrite Ew. cbn [mbind option_bind].
    destruct (safety_error to_lowercase c (w ++ token) b!"output") as [e|] eqn:Es.
    + rewrite stopped_stream. cbn. exists [ErrorEv (public_message e)], (inc content_filter_rejections m).
      split_and!; [done|by left|right]. split; [done|].
      exists e, (token ++ concat (good_tokens tokens)), []. split_and!; [done|done|].
      exists token, (concat (good_tokens tokens)). done.
    + destruct (IH (w ++ token) m) as (evs & m' & E & Hsafe & Hall); [by rewrite <- app_assoc|].
      rewrite E. cbn. exists (ChunkEv token :: evs), m'.
      change (sent (ChunkEv token :: evs)) with (token ++ sent evs).
      split_and!; [done| |].
      * right. destruct Hsafe as [-> |Hsafe]; [by rewrite app_nil_r|]. by rewrite app_assoc.
      * destruct Hall as [[-> ->]|(-> & e & t & rest & -> & Ht & p & q & -> & Hp)]; [by left|right].
        split; [done|]. exists e, (p ++ q), (ChunkEv token :: rest). rewrite Ht, !app_assoc.
        split_and!; [done|done|]. exists p, q. split; [done|].
        by rewrite <- !app_assoc in *.
  - destruct (IH w m Hb) as (evs & m' & E & Hsafe & Hall). rewrite E. cbn.
    exists (ErrorEv b!"stream error" :: evs), m'. split_and!; [done|done|].
    destruct Hall as [H|(-> & e' & t & rest & -> & Ht)]; [by left|right].
    split; [done|]. exists e', t, (ErrorEv b!"stream error" :: rest). done.
Qed.

(** A streamed answer of at most 65536 bytes is either sent in full, or cut by the
    content filter: what was sent passes the filter, the filter's error is the last event
    before the end of the stream, and text the filter objects to did come next. *)
Theorem streamed_chat_is_filtered (tokens : list (result bytes)) (m : SecurityMetrics) :
  blen (concat (good_tokens tokens)) <= WINDOW ->
  exists evs m', chat_stream to_lowercase c false [] tokens m = Some (evs ++ [DoneEv], m')
    /\ (sent evs = [] \/ safety_error to_lowercase c (sent evs) b!"output" = None)
    /\ ((sent evs = concat (good_tokens tokens) /\ m' = m)
        \/ (m' = inc content_filter_rejections m
            /\ exists e t rest, evs = rest ++ [ErrorEv (public_message e)]
               /\ concat (good_tokens tokens) = sent evs ++ t
               /\ exists p q, t = p ++ q
                  /\ safety_error to_lowercase c (sent evs ++ p) b!"output" = Some e)).
Proof. apply (chat_stream_run tokens []). Qed.

(** Beyond that length the window is cut at a byte; inside a character that is a panic. *)
Lemma window_cut_panics w token rest m :
  WINDOW < blen (w ++ token) ->
  Phase.is_char_boundary (w ++ token) (Z.to_nat (blen (w ++ token) - WINDOW)) = false ->
  chat_stream to_lowercase c false w (Ok token :: rest) m = None.
Proof.
  intros Hw Hb. cbn [chat_stream]. unfold push_window. rewrite (proj2 (Z.ltb_lt _ _) Hw), Hb. done.
Qed.
End Stream.

(** *** Where the checks miss their purpose *)
Section Gaps.
Context (to_lowercase : bytes -> bytes) (env : Environment).

Lemma contains_app p a b : contains_sub p b = true -> contains_sub p (a ++ b) = true.
Proof.
  rewrite !contains_sub_spec. intros (x & y & ->). exists (a ++ x), y. by rewrite <- app_assoc.
Qed.

(** With the filter of special tokens switched on and a ChatML or Llama 3 template, no
    chat request is ever admitted: the filter looks at the prompt after the template has
    put its own special tokens into it. *)
Theorem special_token_filter_refuses_all_chats (req : ChatCompletionRequest) (st : ApiServerState) :
  cs_enabled (content_safety (security st)) = true ->
  block_special_tokens (content_safety (security st)) = true ->
  to_lowercase (default b!"simple" (env b!"CHAT_TEMPLATE")) ∈ [b!"chatml"; b!"llama3"] ->
  exists e m, chat_begin to_lowercase env req st = (inl e, record_metric m st).
Proof.
  intros He Hb Ht. pose proof (chat_admits to_lowercase env req st) as H. unfold admits in H.
  destruct (chat_begin to_lowercase env req st) as [[e|j] st'] eqn:Ec; [destruct H as [m ->]; eauto|].
  exfalso. destruct H as [(_ & _ & _ & Hs) _]. specialize (Hs eq_refl).
  assert (j_prompt j = build_chat_prompt to_lowercase env (cq_messages req)) as Ej.
  { unfold chat_begin, hbind, hget, hret in Ec.
    repeat (case_match; simplify_eq; try done). }
  rewrite Ej in Hs. unfold safety_error, is_enabled in Hs. rewrite He, Hb, orb_true_r in Hs.
  cbn [negb andb] in Hs. case_match; [discriminate|].
  assert (contains_sub b!"<|" (build_chat_prompt to_lowercase env (cq_messages req)) = true) as Hc.
  { unfold build_chat_prompt. rewrite !elem_of_cons, elem_of_nil in Ht.
    destruct Ht as [-> |[-> |[]]]; cbn [bool_decide decide].
    - apply contains_app. reflexivity.
    - apply contains_sub_spec. eexists [], _. reflexivity. }
  assert (existsb (fun p => contains_sub p (build_chat_prompt to_lowercase env (cq_messages req)))
    SPECIAL_PATTERNS = true) as Hx.
  { apply existsb_exists. exists b!"<|". split; [by left|exact Hc]. }
  rewrite Hx in Hs. discriminate.
Qed.

(** The Anthropic route is not filtered: whatever the filter is configured to block, a
    message request within the limits is admitted and its answer returned. *)
Theorem messages_are_not_filtered (req : MessagesRequest) (st : ApiServerState) (c : ContentSafetyConfig)
    (text : bytes) (p q : Z) (j : Job) :
  let with_filter c := mkApi (mkSecurity (api_key (security st)) (limits (security st)) c)
        (generation_semaphore st) (sse_semaphore st) (metrics st) in
  fst (messages_begin to_lowercase env req (with_filter c)) = fst (messages_begin to_lowercase env req st)
  /\ exists content, fst (finish_request to_lowercase (Messages req) j (Ok (text, p, q)) (with_filter c))
       = inr (MessageResponse (model_or_default (mq_model req)) content p q).
Proof.
  cbn zeta. split; [|by eexists].
  unfold messages_begin, hbind, hget, validate_prompt_and_tokens. cbn.
  destruct (_ <? blen _); [done|].
  destruct (mq_max_tokens req) as [n|]; [destruct (_ <? n); [done|]|];
    cbn; unfold try_generation_permit; cbn; (destruct (0 <? generation_semaphore st); [|done]);
    cbn; (destruct (mq_stream req); [|done]); unfold sse_permit_or_release, try_sse_permit; cbn;
    rewrite Z.add_0_r; by destruct (0 <? sse_semaphore st).
Qed.
End Gaps.

(** *** Concrete requests *)
Definition demo_safety : ContentSafetyConfig := mkSafety true [b!"secret"] true.
Definition demo_limits : SecurityLimits := mkLimits 100 50 1 1 1000.
Definition demo_api : ApiServerState :=
  ApiServerState_new (mkSecurity (Some b!"k") demo_limits demo_safety) SecurityMetrics_default.
Definition demo_headers : HeaderMap := [(b!"authorization", b!"Bearer k")].
Definition no_fields : SamplingFields := mkFields None None None None None None None.
Definition no_env : Environment := fun _ => None.
Definition chatml_env : Environment := fun n =>
  if bool_decide (n = b!"CHAT_TEMPLATE") then Some b!"chatml" else None.
Definition demo_completion : ApiRequest := Completions (mkCompReq None b!"hi" None no_fields).
Definition demo_chat : ChatCompletionRequest :=
  mkChatReq None [mkChatMessage b!"user" b!"hi"] None no_fields false.

(** The limit on tokens does not apply to the default. *)
Example default_tokens_exceed_limit :
  match begin_request to_ascii_lowercase Some no_env demo_headers demo_completion demo_api with
  | (inr j, _) => max_max_tokens demo_limits < j_max_tokens j
  | _ => False
  end.
Proof. vm_compute. reflexivity. Qed.


Lemma streamed_chat_is_filtered_witness :
  exists evs m', chat_stream to_ascii_lowercase demo_safety false [] [Ok b!"a sec"; Err b!"x"; Ok b!"ret"]
    SecurityMetrics_default = Some (evs ++ [DoneEv], m') /\ sent evs = b!"a sec".
Proof.
  destruct (streamed_chat_is_filtered to_ascii_lowercase demo_safety
    [Ok b!"a sec"; Err b!"x"; Ok b!"ret"] SecurityMetrics_default ltac:(vm_compute; discriminate))
    as (evs & m' & E & _). exists evs, m'. split; [exact E|].
  assert ((fun r => sent r.1) <$> chat_stream to_ascii_lowercase demo_safety false []
    [Ok b!"a sec"; Err b!"x"; Ok b!"ret"] SecurityMetrics_default = Some b!"a sec") as E' by reflexivity.
  rewrite E in E'. cbn in E'. injection E' as E'. unfold sent in *.
  rewrite bind_app in E'. cbn in E'. by rewrite app_nil_r in E'.
Defined.

Lemma special_token_filter_refuses_all_chats_witness :
  exists e m, chat_begin to_ascii_lowercase chatml_env demo_chat demo_api = (inl e, record_metric m demo_api).
Proof.
  apply (special_token_filter_refuses_all_chats to_ascii_lowercase chatml_env demo_chat demo_api);
    [reflexivity|reflexivity|]. vm_compute. left.
Defined.

(** [n] times the two bytes of a character. *)
Definition accents (n : nat) : bytes := concat (replicate n [Byte.xc3; Byte.xa9]).
Lemma length_accents n : length (accents n) = (2 * n)%nat.
Proof. unfold accents. induction n; cbn; lia. Qed.

(** A long answer panics, with the content filter off too: 65536 bytes of two-byte
    characters fill the window, and one more byte cuts it inside a character. *)
Theorem long_answer_panics (to_lowercase : bytes -> bytes) (c : ContentSafetyConfig) (n : nat)
    (b : byte) (rest : list (result bytes)) (m : SecurityMetrics) :
  is_enabled c = false -> Z.of_nat (2 * n) = WINDOW ->
  chat_stream to_lowercase c false [] (Ok (accents n) :: Ok [b] :: rest) m = None.
Proof.
  intros Hc Hn.
  assert (blen (accents n) = WINDOW) as Hl by (unfold blen; by rewrite length_accents).
  assert (push_window [] (accents n) = Some (accents n)) as Hw.
  { unfold push_window. cbn [app]. by rewrite (proj2 (Z.ltb_ge _ _)) by lia. }
  cbn [chat_stream]. rewrite Hw. cbn [mbind option_bind].
  unfold safety_error. rewrite Hc. cbn [negb].
  assert (push_window (accents n) [b] = None) as ->; [|done].
  unfold push_window. rewrite blen_app, Hl.
  change (blen [b]) with 1. rewrite (proj2 (Z.ltb_lt _ _)) by lia.
  replace (Z.to_nat (WINDOW + 1 - WINDOW)) with 1%nat by lia.
  destruct n as [|n]; [done|]. reflexivity.
Qed.

Lemma long_answer_panics_witness :
  chat_stream to_ascii_lowercase (mkSafety false [] false) false []
    [Ok (accents (Z.to_nat 32768)); Ok b!"a"] SecurityMetrics_default = None.
Proof.
  apply (long_answer_panics to_ascii_lowercase (mkSafety false [] false) (Z.to_nat 32768));
    [reflexivity|unfold WINDOW; lia].
Defined.
End LlamaFacts.
