(* ===== verification/Stun.v ===== *)
(** * STUN and TURN messages ([handle_udp.rs], TURN over TLS in [handle_tcp.rs])

    Encoding and decoding of STUN messages and their attributes, the obfuscated
    addresses, the two binding clients, and the TURN clients over UDP (allocation,
    permissions, relayed datagrams, the acknowledged sender over a relay) and over TLS
    (allocation, [Connect], [ConnectionBind], the control loop). MD5, HMAC-SHA1 and CRC-32
    are the operations of [StunCrypto]; transaction ids (random in the code) and what the
    sockets receive are arguments. [None] of an [option (result _)] is a Rust panic. *)

From S2P Require Import Prelude Wire P2P P2PSend Text.
From Stdlib Require Import ZArith Lia String.
From Stdlib Require Import Strings.Byte.
From stdpp Require Import base list gmap.

Local Open Scope Z_scope.
Import Packet.

Class StunCrypto := {
  md5 : bytes -> bytes;
  hmac_sha1 : bytes -> bytes -> bytes;
  crc32 : bytes -> Z;
}.

(** An HMAC-SHA1 digest has 20 bytes; a CRC-32 is a [u32]. *)
Class StunCryptoLaws (C : StunCrypto) : Prop := {
  hmac_sha1_length k d : length (hmac_sha1 k d) = 20%nat;
  crc32_range d : in_u 32 (crc32 d);
}.

(** ** Messages and attributes *)

Definition COOKIE : Z := 0x2112A442.

Definition Attr : Type := Z * bytes.

Definition pad_of (l : nat) : nat := ((4 - l mod 4) mod 4)%nat.

Definition stun_write_attr (buf : bytes) (attr_type : Z) (value : bytes) : bytes :=
  buf ++ be_bytes 2 attr_type ++ be_bytes 2 (wrap 16 (blen value)) ++ value
      ++ replicate (pad_of (length value)) Byte.x00.

(** [msg[2..4].copy_from_slice(&(n as u16).to_be_bytes())] *)
Definition set_len (msg : bytes) (n : Z) : bytes :=
  take 2 msg ++ be_bytes 2 (wrap 16 n) ++ drop 4 msg.

Definition stun_header (msg_type : Z) (txid : bytes) : bytes :=
  be_bytes 2 msg_type ++ be_bytes 2 0 ++ be_bytes 4 COOKIE ++ txid.

Section Messages.
Context `{C : StunCrypto}.

(** The long-term credential key. *)
Definition mi_key (username realm password : bytes) : bytes :=
  md5 (username ++ b!":" ++ realm ++ b!":" ++ password).

Definition mi_head : bytes := be_bytes 2 0x0008 ++ be_bytes 2 20.

Definition stun_build_message (msg_type : Z) (txid : bytes) (attrs : list Attr)
    (mi : option (bytes * bytes * bytes)) (fingerprint : bool) : bytes :=
  let body := fold_left (fun b a => stun_write_attr b a.1 a.2) attrs [] in
  let msg := stun_header msg_type txid ++ body in
  let msg :=
    match mi with
    | Some (username, realm, password) =>
        let key := mi_key username realm password in
        let fp_total := if fingerprint then 8 else 0 in
        let msg := set_len msg (blen msg - 20 + 24 + fp_total) in
        let tmp := msg ++ mi_head ++ replicate 20 Byte.x00 in
        msg ++ mi_head ++ hmac_sha1 key tmp
    | None => set_len msg (blen msg - 20)
    end in
  if fingerprint then
    let msg := set_len msg (blen msg - 20 + 8) in
    let fp := Z.lxor (crc32 msg) 0x5354554e in
    msg ++ be_bytes 2 0x8028 ++ be_bytes 2 4 ++ be_bytes 4 fp
  else msg.
End Messages.

(** [read_exact] of [n] bytes from the bytes that arrive before the stream ends. *)
Definition read_exact (n : nat) (stream : bytes) : result (bytes * bytes) :=
  if (length stream <? n)%nat then Err b!"early eof"
  else Ok (take n stream, drop n stream).

Definition stun_read_message (stream : bytes) : result (bytes * bytes) :=
  let? (header, stream) := read_exact 20 stream in
  let len := Z.to_nat (of_be (sl 2 4 header)) in
  let? (body, stream) := read_exact len stream in
  Ok (header ++ body, stream).

(** The attribute loop: every iteration advances [pos] by at least 4, so the length of the
    message is enough fuel. *)
Fixpoint attr_loop (fuel : nat) (msg : bytes) (pos end_ : nat) : list Attr :=
  match fuel with
  | O => []
  | S fuel' =>
      if (pos + 4 <=? end_)%nat then
        let t := of_be (sl pos (pos + 2) msg) in
        let l := Z.to_nat (of_be (sl (pos + 2) (pos + 4) msg)) in
        let pos := (pos + 4)%nat in
        if (end_ <? pos + l)%nat then []
        else (t, sl pos (pos + l) msg) :: attr_loop fuel' msg (pos + l + pad_of l) end_
      else []
  end.

Definition stun_attr_iter (msg : bytes) : result (list Attr) :=
  if (length msg <? 20)%nat then Err b!"stun msg too short"
  else
    let len := Z.to_nat (of_be (sl 2 4 msg)) in
    if (length msg <? 20 + len)%nat then Err b!"stun msg len mismatch"
    else Ok (attr_loop (length msg) msg 20 (20 + len)).

(** [attrs.iter().find(|(k, _)| *k == t)] *)
Fixpoint find_attr (attrs : list Attr) (t : Z) : option bytes :=
  match attrs with
  | [] => None
  | (k, v) :: rest => if k =? t then Some v else find_attr rest t
  end.

Definition stun_get_text_attr (attrs : list Attr) (t : Z) : option bytes :=
  v ← find_attr attrs t; from_utf8 v.

(** ** Obfuscated addresses *)

Definition xor_byte (a b : byte) : byte := byte_of_Z (Z.lxor (Z_of_byte a) (Z_of_byte b)).

Definition xor_mask (txid : bytes) : bytes := be_bytes 4 COOKIE ++ txid.

Definition turn_encode_xor_peer_address (peer : SocketAddr) (txid : bytes) : bytes :=
  match sa_ip peer with
  | IpV4 a =>
      Byte.x00 :: Byte.x01 :: be_bytes 2 (Z.lxor (sa_port peer) 0x2112)
        ++ be_bytes 4 (Z.lxor a COOKIE)
  | IpV6 octets =>
      Byte.x00 :: Byte.x02 :: be_bytes 2 (Z.lxor (sa_port peer) 0x2112)
        ++ zip_with xor_byte octets (xor_mask txid)
  end.

Definition stun_parse_xor_addr (v txid : bytes) : option SocketAddr :=
  if (length v <? 8)%nat then None
  else
    let family := of_be (sl 1 2 v) in
    let port := Z.lxor (of_be (sl 2 4 v)) 0x2112 in
    if family =? 0x01 then
      Some (mkSocketAddr (IpV4 (Z.lxor (of_be (sl 4 8 v)) COOKIE)) port)
    else if (family =? 0x02) && (20 <=? length v)%nat then
      Some (mkSocketAddr (IpV6 (zip_with xor_byte (sl 4 20 v) (xor_mask txid))) port)
    else None.

(** ** Binding: the public address of a socket *)

Definition parse_stun_host_port (url : bytes) : option (bytes * Z) :=
  let url := trim url in
  let rest := default url (Prelude.strip_prefix b!"stun:" url) in
  let rest := default rest (Prelude.strip_prefix b!"//" rest) in
  '(host, port) ← rsplit_once Byte.x3a rest;
  port ← parse_uint 16 port;
  Some (host, port).

Definition build_stun_binding_request (txid : bytes) : bytes :=
  be_bytes 2 0x0001 ++ be_bytes 2 0 ++ be_bytes 4 COOKIE ++ txid.

Fixpoint mapped_loop (fuel : nat) (resp txid : bytes) (pos end_ : nat) : option SocketAddr :=
  match fuel with
  | O => None
  | S fuel' =>
      if (pos + 4 <=? end_)%nat then
        let attr_type := of_be (sl pos (pos + 2) resp) in
        let attr_len := Z.to_nat (of_be (sl (pos + 2) (pos + 4) resp)) in
        let pos := (pos + 4)%nat in
        let next := mapped_loop fuel' resp txid (pos + attr_len + pad_of attr_len) end_ in
        if (end_ <? pos + attr_len)%nat then None
        else if attr_type =? 0x0020 then
          if (attr_len <? 8)%nat then None
          else
            let family := of_be (sl (pos + 1) (pos + 2) resp) in
            let port := Z.lxor (of_be (sl (pos + 2) (pos + 4) resp)) 0x2112 in
            if family =? 0x01 then
              Some (mkSocketAddr (IpV4 (Z.lxor (of_be (sl (pos + 4) (pos + 8) resp)) COOKIE)) port)
            else if family =? 0x02 then
              if (attr_len <? 20)%nat then None
              else Some (mkSocketAddr
                     (IpV6 (zip_with xor_byte (sl (pos + 4) (pos + 20) resp) (xor_mask txid))) port)
            else next
        else next
      else None
  end.

Definition parse_xor_mapped_address (resp txid : bytes) : option SocketAddr :=
  if (length resp <? 20)%nat then None
  else if negb (of_be (sl 0 2 resp) =? 0x0101) then None
  else
    let msg_len := Z.to_nat (of_be (sl 2 4 resp)) in
    if (length resp <? 20 + msg_len)%nat then None
    else if bool_decide (sl 4 8 resp <> be_bytes 4 COOKIE) then None
    else if bool_decide (sl 8 20 resp <> txid) then None
    else mapped_loop (length resp) resp txid 20 (20 + msg_len).

Definition STUN_BUF : Z := 1500.

(** One request and one datagram ([recv]: the datagram, or the error of the timeout or of
    the socket), cut to the receive buffer. *)
Definition stun_binding_srflx (stun_url txid : bytes) (recv : result bytes)
    : list bytes * result SocketAddr :=
  match parse_stun_host_port stun_url with
  | None => ([], Err (b!"Invalid STUN url: " ++ stun_url))
  | Some _ =>
      ([build_stun_binding_request txid],
       let? resp := recv in
       ok_or (parse_xor_mapped_address (take (Z.to_nat STUN_BUF) resp) txid)
         b!"Failed to parse STUN XOR-MAPPED-ADDRESS")
  end.

(** [format!("0x{:04x}", msg_type)] *)
Definition hex_type (ty : Z) : bytes :=
  let digit n := byte_of_Z (if n <? 10 then 48 + n else 87 + n) in
  b!"0x" ++ ((fun i => digit (Z.land (Z.shiftr ty i) 15)) <$> [12; 8; 4; 0]).

Section Clients.
Context `{C : StunCrypto}.

(** [resolve]: the address lookup of the host. *)
Definition stun_binding_srflx_on_socket (resolve : bytes -> Z -> result SocketAddr)
    (stun_url txid : bytes) (recv : result bytes) : list bytes * result SocketAddr :=
  match parse_stun_host_port stun_url with
  | None => ([], Err (b!"Invalid STUN url: " ++ stun_url))
  | Some (host, port) =>
      match resolve host port with
      | Err e => ([], Err e)
      | Ok _ =>
          ([stun_build_message 0x0001 txid [] None true],
           let? resp := recv in
           let? attrs := stun_attr_iter (take (Z.to_nat STUN_BUF) resp) in
           ok_or (v ← find_attr attrs 0x0020; stun_parse_xor_addr v txid)
             b!"STUN response missing XOR-MAPPED-ADDRESS")
      end
  end.

(** ** TURN: allocation *)

Definition UDP_TRANSPORT : Z := 17.
Definition TCP_TRANSPORT : Z := 6.

Definition credential_attrs (username realm nonce : bytes) : list Attr :=
  [(0x0006, username); (0x0014, realm); (0x0015, nonce)].

Definition allocate_attrs (transport : Z) : list Attr :=
  [(0x0019, byte_of_Z transport :: replicate 3 Byte.x00); (0x000d, be_bytes 4 600)].

Definition allocate_request (transport : Z) (txid : bytes) : bytes :=
  stun_build_message 0x0003 txid (allocate_attrs transport) None true.

Definition allocate_request_auth (transport : Z) (txid username password realm nonce : bytes)
    : bytes :=
  stun_build_message 0x0003 txid
    (credential_attrs username realm nonce ++ allocate_attrs transport)
    (Some (username, realm, password)) true.

(** [u16::from_be_bytes([resp[0], resp[1]])], which panics on fewer than two bytes. *)
Definition msg_type_of (resp : bytes) : option Z :=
  if (length resp <? 2)%nat then None else Some (of_be (sl 0 2 resp)).

(** The challenge: REALM and NONCE of a 401 error response. *)
Definition read_challenge (resp : bytes) : option (result (bytes * bytes)) :=
  match msg_type_of resp with
  | None => None
  | Some ty => Some (
      if negb (ty =? 0x0113) then Err (b!"TURN Allocate expected 401, got type=" ++ hex_type ty)
      else
        let? attrs := stun_attr_iter resp in
        let? realm := ok_or (stun_get_text_attr attrs 0x0014) b!"TURN missing REALM" in
        let? nonce := ok_or (stun_get_text_attr attrs 0x0015) b!"TURN missing NONCE" in
        Ok (realm, nonce))
  end.

Definition read_allocated (resp txid2 : bytes) : option (result SocketAddr) :=
  match msg_type_of resp with
  | None => None
  | Some ty => Some (
      if negb (ty =? 0x0103) then Err (b!"TURN Allocate failed type=" ++ hex_type ty)
      else
        let? attrs := stun_attr_iter resp in
        ok_or (v ← find_attr attrs 0x0016; stun_parse_xor_addr v txid2)
          b!"TURN Allocate missing XOR-RELAYED-ADDRESS")
  end.

Definition RECV_BUF : Z := 2048.
Definition RELAY_BUF : Z := 4096.

(** [turn_allocate_udp] on a connected socket: the datagrams sent and the relayed address
    with the realm and the nonce. *)
Definition turn_allocate_udp (username password txid txid2 : bytes) (recv1 recv2 : result bytes)
    : list bytes * option (result (SocketAddr * bytes * bytes)) :=
  let req := allocate_request UDP_TRANSPORT txid in
  match recv1 with
  | Err e => ([req], Some (Err e))
  | Ok resp =>
      match read_challenge (take (Z.to_nat RECV_BUF) resp) with
      | None => ([req], None)
      | Some (Err e) => ([req], Some (Err e))
      | Some (Ok (realm, nonce)) =>
          let req2 := allocate_request_auth UDP_TRANSPORT txid2 username password realm nonce in
          ([req; req2],
           match recv2 with
           | Err e => Some (Err e)
           | Ok resp2 =>
               match read_allocated (take (Z.to_nat RECV_BUF) resp2) txid2 with
               | None => None
               | Some r => Some (let? relayed := r in Ok (relayed, realm, nonce))
               end
           end)
      end
  end.

Definition turn_create_permission (peer : SocketAddr)
    (username password realm nonce txid : bytes) (recv : result bytes)
    : list bytes * option (result ()) :=
  let attrs := credential_attrs username realm nonce
                 ++ [(0x0012, turn_encode_xor_peer_address peer txid)] in
  ([stun_build_message 0x0008 txid attrs (Some (username, realm, password)) true],
   match recv with
   | Err e => Some (Err e)
   | Ok resp =>
       match msg_type_of (take (Z.to_nat RECV_BUF) resp) with
       | None => None
       | Some ty => Some (
           if negb (ty =? 0x0108) then Err (b!"TURN CreatePermission failed type=" ++ hex_type ty)
           else Ok ())
       end
   end).

(** ** TURN: relayed datagrams *)

Definition send_indication_msg (peer : SocketAddr) (txid data : bytes) : bytes :=
  stun_build_message 0x0016 txid
    [(0x0012, turn_encode_xor_peer_address peer txid); (0x0013, data)] None true.

Definition turn_parse_data_indication (msg : bytes) : option (SocketAddr * bytes) :=
  if (length msg <? 20)%nat then None
  else if negb (of_be (sl 0 2 msg) =? 0x0017) then None
  else
    let txid := sl 8 20 msg in
    match stun_attr_iter msg with
    | Err _ => None
    | Ok attrs =>
        peer ← (v ← find_attr attrs 0x0012; stun_parse_xor_addr v txid);
        data ← find_attr attrs 0x0013;
        Some (peer, data)
    end.

(** *** The acknowledged sender over a relay *)
Context `{M : Mac} (peer : SocketAddr) (connection_id secret : bytes) (mid : Z).

Definition valid_relayed_ack (data : bytes) (now : Z) : bool :=
  match p2p_udp_parse_header data with
  | None => false
  | Some h =>
      negb (Z.land (flags h) P2P_UDP_FLAG_ACK =? 0) && (msg_id h =? mid)
      && (frag_idx h =? 0) && (frag_cnt h =? 0)
      && is_ok (p2p_udp_validate_fragment secret connection_id h [] now)
  end.

(** What one [timeout(400ms, sock.recv(..))] gives ([None]: timeout or error), the clock
    after it, and the transaction id of the indication sent before it. *)
Record RelayEvent := mkRelay { re_txid : bytes; re_recv : option bytes; re_now : Z }.

Definition RelayInbox : Type := list (SocketAddr * bytes).

(** The retry loop of one fragment: the indications sent, the unread events, the inbox and
    how it ended ([Waiting]: the events given are used up). *)
Fixpoint relay_await (pkt : bytes) (tries : Z) (env : list RelayEvent) (inbox : RelayInbox)
    : list bytes * list RelayEvent * RelayInbox * SendOutcome () :=
  match env with
  | [] => ([], [], inbox, Waiting)
  | ev :: env' =>
      let tries := tries + 1 in
      let ind := send_indication_msg peer (re_txid ev) pkt in
      let check_tries inbox :=
        if 10 <=? tries then ([ind], env', inbox, TimedOut)
        else let '(l, e, i, r) := relay_await pkt tries env' inbox in (ind :: l, e, i, r) in
      match re_recv ev with
      | None => check_tries inbox
      | Some dgram =>
          match turn_parse_data_indication (take (Z.to_nat RELAY_BUF) dgram) with
          | None => check_tries inbox
          | Some (src, data) =>
              if bool_decide (src = peer) && valid_relayed_ack data (re_now ev)
              then ([ind], env', inbox, Done ())
              else check_tries (inbox ++ [(src, data)])
          end
      end
  end.

Fixpoint relay_send_from (fuel : nat) (payload : bytes) (cnt idx : Z) (clock : Z -> Z)
    (env : list RelayEvent) (inbox : RelayInbox)
    : list (list bytes) * RelayInbox * SendOutcome () :=
  match fuel with
  | O => ([], inbox, Done ())
  | S fuel' =>
      let pkt := frag_packet connection_id secret mid payload cnt idx (clock idx) in
      match relay_await pkt 0 env inbox with
      | (sent, env', inbox, Done _) =>
          let '(l, i, r) := relay_send_from fuel' payload cnt (idx + 1) clock env' inbox in
          (sent :: l, i, r)
      | (sent, _, inbox, r) => ([sent], inbox, r)
      end
  end.

Definition turn_send_reliable_over_indication (payload : bytes) (clock : Z -> Z)
    (env : list RelayEvent) (inbox : RelayInbox)
    : result (list (list bytes) * RelayInbox * SendOutcome ()) :=
  if max_payload =? 0 then Err b!"p2p udp mtu too small"
  else
    let cnt := frag_count payload in
    if P2P_MAX_FRAGMENTS_PER_MESSAGE <? cnt then Err b!"p2p udp too many fragments"
    else Ok (relay_send_from (Z.to_nat cnt) payload cnt 0 clock env inbox).
End Clients.

(** ** TURN over TLS *)

Definition DEFAULT_TURNS_PORT : Z := 5349.

(** [Url::parse] gives the scheme, the host and the explicit port. *)
Definition parse_turns_url (url_parse : bytes -> result (bytes * option bytes * option Z))
    (url : bytes) : result (bytes * Z) :=
  match url_parse url with
  | Err e => Err (b!"Invalid TURN url: " ++ e)
  | Ok (scheme, host, port) =>
      if bool_decide (scheme <> b!"turns") then Err b!"TURN url must be turns://"
      else
        let? host := ok_or host b!"TURN url missing host" in
        Ok (host, default DEFAULT_TURNS_PORT port)
  end.

(** A connected TLS stream is the bytes that will arrive on it; what the client writes is
    returned with the result, and the bytes it has not read are the stream that remains. *)
Section Tls.
Context `{C : StunCrypto}.
Context (url_parse : bytes -> result (bytes * option bytes * option Z)).

Definition turn_allocate_tcp (tls_connect : bytes -> Z -> result bytes) (turn_url username password txid txid2 : bytes)
    : list bytes * result (bytes * SocketAddr * bytes * bytes) :=
  match (let? (host, port) := parse_turns_url url_parse turn_url in tls_connect host port) with
  | Err e => ([], Err e)
  | Ok tls =>
      let req := allocate_request TCP_TRANSPORT txid in
      match stun_read_message tls with
      | Err e => ([req], Err e)
      | Ok (resp, tls) =>
          match default (Err []) (read_challenge resp) with
          | Err e => ([req], Err e)
          | Ok (realm, nonce) =>
              let req2 := allocate_request_auth TCP_TRANSPORT txid2 username password realm nonce in
              ([req; req2],
               let? (resp2, tls) := stun_read_message tls in
               let? relayed := default (Err []) (read_allocated resp2 txid2) in
               Ok (tls, relayed, realm, nonce))
          end
      end
  end.

Definition turn_connect_peer (tls : bytes) (peer : SocketAddr)
    (username password realm nonce txid : bytes) : list bytes * result (bytes * bytes) :=
  let attrs := credential_attrs username realm nonce
                 ++ [(0x0012, turn_encode_xor_peer_address peer txid)] in
  ([stun_build_message 0x000a txid attrs (Some (username, realm, password)) true],
   let? (resp, tls) := stun_read_message tls in
   let ty := of_be (sl 0 2 resp) in
   if negb (ty =? 0x010a) then Err (b!"TURN Connect failed (type=" ++ hex_type ty ++ b!")")
   else
     let? attrs := stun_attr_iter resp in
     let? conn_id := ok_or (find_attr attrs 0x002a) b!"TURN Connect missing CONNECTION-ID" in
     Ok (conn_id, tls)).

(** Gives the data stream: what arrives on it after the response. *)
Definition turn_connection_bind (tls_connect : bytes -> Z -> result bytes)
    (turn_url conn_id username password realm nonce txid : bytes) : list bytes * result bytes :=
  match (let? (host, port) := parse_turns_url url_parse turn_url in tls_connect host port) with
  | Err e => ([], Err e)
  | Ok tls =>
      let attrs := credential_attrs username realm nonce ++ [(0x002a, conn_id)] in
      ([stun_build_message 0x000b txid attrs (Some (username, realm, password)) true],
       let? (resp, tls) := stun_read_message tls in
       let ty := of_be (sl 0 2 resp) in
       if negb (ty =? 0x010b)
       then Err (b!"TURN ConnectionBind failed (type=" ++ hex_type ty ++ b!")")
       else Ok tls)
  end.

(** What the control loop does with one message: nothing, or a binding attempt. *)
Definition control_message (msg : bytes) : option bytes :=
  if negb (of_be (sl 0 2 msg) =? 0x001c) then None
  else match stun_attr_iter msg with
       | Err _ => None
       | Ok attrs => find_attr attrs 0x002a
       end.

(** The loop ends when a read fails. The [n]-th binding attempt draws the transaction id and
    finds the network of [attempt n]; the data streams that bind are served, each in its own
    task. Every message has at least 20 bytes, so the length of the stream is enough fuel. *)
Fixpoint turn_control_loop (fuel : nat) (turn_url username password realm nonce : bytes)
    (attempt : nat -> bytes * (bytes -> Z -> result bytes)) (n : nat) (tls : bytes)
    : list bytes :=
  match fuel with
  | O => []
  | S fuel' =>
      match stun_read_message tls with
      | Err _ => []
      | Ok (msg, tls) =>
          let continue_ n :=
            turn_control_loop fuel' turn_url username password realm nonce attempt n tls in
          match control_message msg with
          | None => continue_ n
          | Some conn_id =>
              match (turn_connection_bind (attempt n).2 turn_url conn_id username password
                       realm nonce (attempt n).1).2 with
              | Ok data_stream => data_stream :: continue_ (S n)
              | Err _ => continue_ (S n)
              end
          end
      end
  end.
End Tls.

(** ** Facts *)
Module StunFacts.
Import PacketFacts.

(** *** Exclusive or on machine integers *)

Lemma lxor_in_u w a b : 0 <= w -> in_u w a -> in_u w b -> in_u w (Z.lxor a b).
Proof.
  unfold in_u. intros Hw Ha Hb.
  assert (0 <= Z.lxor a b) as Hpos by (apply Z.lxor_nonneg; lia).
  split; [done|]. destruct (decide (Z.lxor a b = 0)) as [->|Hne]; [lia|].
  apply Z.log2_lt_pow2; [lia|].
  assert (0 < w) by (destruct (decide (w = 0)) as [->|]; [|lia]; assert (a = 0) by lia;
    assert (b = 0) by lia; subst; done).
  eapply Z.le_lt_trans; [apply Z.log2_lxor; lia|].
  apply Z.max_lub_lt.
  - destruct (decide (a = 0)) as [->|]; [rewrite Z.log2_nonpos; lia|].
    apply Z.log2_lt_pow2; lia.
  - destruct (decide (b = 0)) as [->|]; [rewrite Z.log2_nonpos; lia|].
    apply Z.log2_lt_pow2; lia.
Qed.

Lemma lxor_cancel a b : Z.lxor (Z.lxor a b) b = a.
Proof. by rewrite Z.lxor_assoc, Z.lxor_nilpotent, Z.lxor_0_r. Qed.

Lemma xor_byte_cancel a b : xor_byte (xor_byte a b) b = a.
Proof.
  unfold xor_byte. rewrite Z_of_byte_of_Z.
  pose proof (lxor_in_u 8 (Z_of_byte a) (Z_of_byte b) ltac:(lia) (Z_of_byte_range a)
    (Z_of_byte_range b)) as H. unfold in_u in H. change (2 ^ 8) with 256 in H.
  rewrite Z.mod_small by done. rewrite lxor_cancel. apply byte_of_Z_of_byte.
Qed.

Lemma zip_xor_cancel (l m : bytes) :
  length l = length m -> zip_with xor_byte (zip_with xor_byte l m) m = l.
Proof.
  revert m. induction l as [|a l IH]; intros [|b m] H; try done.
  cbn. rewrite xor_byte_cancel, IH; [done|]. by injection H.
Qed.

(** *** Addresses *)

Definition addr_ok (a : SocketAddr) : Prop :=
  in_u 16 (sa_port a)
  /\ match sa_ip a with IpV4 x => in_u 32 x | IpV6 o => length o = 16%nat end.

Lemma port_parses p :
  in_u 16 p -> Z.lxor (of_be (be_bytes 2 (Z.lxor p 0x2112))) 0x2112 = p.
Proof.
  intros Hp. rewrite (of_be_be_bytes_u 2 16); [apply lxor_cancel|done|].
  apply lxor_in_u; [lia|done|]. unfold in_u. lia.
Qed.

Lemma length_xor_mask txid : length txid = 12%nat -> length (xor_mask txid) = 16%nat.
Proof. intros H. unfold xor_mask. rewrite length_app, length_be_bytes. lia. Qed.

Lemma length_encoded a txid :
  addr_ok a -> length txid = 12%nat ->
  length (turn_encode_xor_peer_address a txid)
  = match sa_ip a with IpV4 _ => 8%nat | IpV6 _ => 20%nat end.
Proof.
  intros [_ Hip] Ht. unfold turn_encode_xor_peer_address.
  destruct (sa_ip a) as [x|o]; cbn [length];
    rewrite length_app, !length_be_bytes; [done|].
  rewrite length_zip_with, (length_xor_mask txid Ht), Hip. lia.
Qed.

Lemma xor_addr_parses a txid :
  addr_ok a -> length txid = 12%nat ->
  stun_parse_xor_addr (turn_encode_xor_peer_address a txid) txid = Some a.
Proof.
  intros Ha Ht. pose proof (length_encoded a txid Ha Ht) as Hlen.
  destruct Ha as [Hp Hip]. pose proof (port_parses _ Hp) as Hport.
  unfold stun_parse_xor_addr. rewrite Hlen.
  destruct a as [[x|o] p]; unfold turn_encode_xor_peer_address; cbn [sa_ip sa_port] in *.
  - change (8 <? 8)%nat with false. cbv iota.
    change (sl 2 4 _) with (be_bytes 2 (Z.lxor p 0x2112)).
    change (sl 4 8 _) with (be_bytes 4 (Z.lxor x COOKIE)).
    change (of_be (sl 1 2 _) =? 1) with true. cbv iota. rewrite Hport. do 3 f_equal.
    rewrite (of_be_be_bytes_u 4 32); [apply lxor_cancel|done|].
    apply lxor_in_u; [lia|done|]. unfold in_u, COOKIE. lia.
  - change (20 <? 8)%nat with false. cbv iota.
    change (sl 2 4 _) with (be_bytes 2 (Z.lxor p 0x2112)).
    change (sl 4 20 _) with (take 16 (zip_with xor_byte o (xor_mask txid))).
    change (of_be (sl 1 2 _) =? 1) with false.
    change (of_be (sl 1 2 _) =? 2) with true.
    change (20 <=? 20)%nat with true. cbv iota. cbn [andb]. rewrite Hport.
    rewrite take_ge by (rewrite length_zip_with, (length_xor_mask txid Ht), Hip; lia).
    do 3 f_equal. apply zip_xor_cancel. by rewrite length_xor_mask.
Qed.

(** *** Attributes *)

Definition attr_ok (a : Attr) : Prop := in_u 16 a.1 /\ in_u 16 (blen a.2).

Definition encode_attr (a : Attr) : bytes := stun_write_attr [] a.1 a.2.

Definition write_attrs (l : list Attr) : bytes := concat (encode_attr <$> l).

Lemma write_attrs_fold l acc :
  fold_left (fun b a => stun_write_attr b a.1 a.2) l acc = acc ++ write_attrs l.
Proof.
  revert acc. induction l as [|a l IH]; intros acc; cbn [fold_left].
  - unfold write_attrs. cbn. by rewrite app_nil_r.
  - rewrite IH. unfold write_attrs at 2. cbn [fmap list_fmap concat].
    unfold encode_attr, stun_write_attr. cbn [app]. by rewrite <- app_assoc.
Qed.

Lemma write_attrs_app l k : write_attrs (l ++ k) = write_attrs l ++ write_attrs k.
Proof. unfold write_attrs. by rewrite fmap_app, concat_app. Qed.

Lemma length_encode_attr a : length (encode_attr a) = (4 + length a.2 + pad_of (length a.2))%nat.
Proof.
  unfold encode_attr, stun_write_attr. cbn [app].
  rewrite !length_app, !length_be_bytes, length_replicate. lia.
Qed.

Lemma write_attrs_one t v n :
  length v = n -> pad_of n = 0%nat ->
  write_attrs [(t, v)] = be_bytes 2 t ++ be_bytes 2 (wrap 16 (Z.of_nat n)) ++ v.
Proof.
  intros <- Hp. unfold write_attrs, encode_attr, stun_write_attr. cbn [fmap list_fmap concat].
  cbn [fst snd app]. by rewrite Hp, !app_nil_r.
Qed.

Lemma u16_be z : in_u 16 z -> of_be (be_bytes 2 z) = z.
Proof. by apply of_be_be_bytes_u. Qed.

(** Reading the head of an attribute. *)
Lemma attr_loop_cons fuel pre a rest end_ :
  attr_ok a ->
  (length pre + length (encode_attr a) <= end_)%nat ->
  attr_loop (S fuel) (pre ++ encode_attr a ++ rest) (length pre) end_
  = a :: attr_loop fuel (pre ++ encode_attr a ++ rest)
           (length pre + length (encode_attr a)) end_.
Proof.
  destruct a as [t v]. intros [Ht Hv] Hend. cbn [fst snd] in *.
  rewrite length_encode_attr in *. cbn [snd] in *.
  set (msg := pre ++ encode_attr (t, v) ++ rest).
  assert (forall i j, sl (length pre + i) (length pre + j) msg
    = sl i j (encode_attr (t, v) ++ rest)) as Hsl.
  { intros i j. unfold sl, msg. rewrite drop_app_add. f_equal. lia. }
  assert (sl (length pre) (length pre + 2) msg = be_bytes 2 t) as H1.
  { rewrite <- (Nat.add_0_r (length pre)) at 1. rewrite Hsl. reflexivity. }
  assert (sl (length pre + 2) (length pre + 4) msg = be_bytes 2 (wrap 16 (blen v))) as H2.
  { rewrite Hsl. reflexivity. }
  assert (sl (length pre + 4) (length pre + 4 + length v) msg = v) as H3.
  { rewrite <- (Nat.add_assoc _ 4), Hsl. unfold sl, encode_attr, stun_write_attr. cbn [fst snd].
    rewrite <- !app_assoc. replace (4 + length v - 4)%nat with (length v) by lia.
    change (drop 4 _) with (v ++ replicate (pad_of (length v)) Byte.x00 ++ rest).
    apply take_app_length. }
  cbn [attr_loop]. rewrite H1, H2.
  rewrite (wrap_small 16 (blen v)) by done. rewrite !u16_be by done. unfold blen. rewrite Nat2Z.id.
  rewrite (proj2 (Nat.leb_le _ _)) by lia.
  rewrite (proj2 (Nat.ltb_ge _ _)) by lia.
  rewrite H3. do 2 f_equal. lia.
Qed.

Lemma attr_loop_end fuel msg pos : attr_loop fuel msg pos pos = [].
Proof. destruct fuel; [done|]. cbn [attr_loop]. by rewrite (proj2 (Nat.leb_gt _ _)) by lia. Qed.

Lemma attr_loop_write l pre post fuel :
  Forall attr_ok l -> (length l <= fuel)%nat ->
  attr_loop fuel (pre ++ write_attrs l ++ post) (length pre)
    (length pre + length (write_attrs l)) = l.
Proof.
  revert pre fuel. induction l as [|a l IH]; intros pre fuel Hok Hf.
  { cbn. rewrite Nat.add_0_r. apply attr_loop_end. }
  apply Forall_cons in Hok as [Ha Hok]. destruct fuel as [|fuel]; [cbn in Hf; lia|].
  unfold write_attrs. cbn [fmap list_fmap concat]. fold (write_attrs l).
  rewrite <- app_assoc, attr_loop_cons by (done || rewrite length_app; lia).
  f_equal. etransitivity; [|apply (IH (pre ++ encode_attr a) fuel Hok); cbn in Hf; lia].
  rewrite !length_app, <- !app_assoc. f_equal. lia.
Qed.

Lemma length_write_attrs_ge l : (length l <= length (write_attrs l))%nat.
Proof.
  induction l as [|a l IH]; [done|]. unfold write_attrs. cbn [fmap list_fmap concat].
  rewrite length_app, length_encode_attr. fold (write_attrs l). cbn. lia.
Qed.

(** *** Messages *)

(** A message of type [ty] and transaction [txid] that carries the attributes [l]. *)
Definition framed (ty : Z) (txid : bytes) (l : list Attr) : bytes :=
  be_bytes 2 ty ++ be_bytes 2 (wrap 16 (blen (write_attrs l))) ++ be_bytes 4 COOKIE
    ++ txid ++ write_attrs l.

Lemma set_len_framed ty x rest n :
  set_len (be_bytes 2 ty ++ be_bytes 2 x ++ rest) n = be_bytes 2 ty ++ be_bytes 2 (wrap 16 n) ++ rest.
Proof. reflexivity. Qed.

Section Built.
Context `{C : StunCrypto} {L : StunCryptoLaws C}.

(** The text the code authenticates, and the one RFC 5389 (15.4) prescribes: the message
    before MESSAGE-INTEGRITY with a length that ends at that attribute. *)
Definition mi_text ty txid attrs (fingerprint : bool) : bytes :=
  set_len (stun_header ty txid ++ write_attrs attrs)
    (blen (write_attrs attrs) + 24 + (if fingerprint then 8 else 0))
  ++ mi_head ++ replicate 20 Byte.x00.

Definition rfc_mi_text ty txid attrs : bytes :=
  set_len (stun_header ty txid ++ write_attrs attrs) (blen (write_attrs attrs) + 24).

Definition mi_attrs ty txid attrs (mi : option (bytes * bytes * bytes)) fp : list Attr :=
  match mi with
  | Some (u, r, p) => [(0x0008, hmac_sha1 (mi_key u r p) (mi_text ty txid attrs fp))]
  | None => []
  end.

(** The built message is the frame of the given attributes, the integrity attribute and the
    fingerprint. *)
Lemma build_framed ty txid attrs mi fp :
  length txid = 12%nat ->
  exists fpv, length fpv = 4%nat /\
    stun_build_message ty txid attrs mi fp
    = framed ty txid (attrs ++ mi_attrs ty txid attrs mi fp ++ (if fp then [(0x8028, fpv)] else [])).
Proof.
  intros Ht. unfold stun_build_message. rewrite write_attrs_fold. cbn [app].
  set (body := write_attrs attrs).
  assert (blen (stun_header ty txid ++ body) - 20 = blen body) as Hb.
  { unfold stun_header, blen. rewrite !length_app, !length_be_bytes, Ht. lia. }
  rewrite Hb.
  assert (forall n, set_len (stun_header ty txid ++ body) n
    = be_bytes 2 ty ++ be_bytes 2 (wrap 16 n) ++ be_bytes 4 COOKIE ++ txid ++ body) as Hset.
  { intros n. unfold stun_header. rewrite <- !app_assoc. reflexivity. }
  set (msg := match mi with Some _ => _ | None => _ end).
  assert (exists n, msg = be_bytes 2 ty ++ be_bytes 2 (wrap 16 n) ++ be_bytes 4 COOKIE ++ txid
     ++ write_attrs (attrs ++ mi_attrs ty txid attrs mi fp)
     /\ (fp = false -> n = blen (write_attrs (attrs ++ mi_attrs ty txid attrs mi fp))))
    as (n & Hmsg & Hn).
  { subst msg. destruct mi as [[[u r] p]|]; cbn [mi_attrs].
    - exists (blen body + 24 + (if fp then 8 else 0)). unfold mi_text. fold body.
      rewrite Hset, write_attrs_app. fold body.
      rewrite (write_attrs_one _ _ 20) by (done || apply hmac_sha1_length).
      unfold mi_head. rewrite <- !app_assoc. split; [done|].
      intros ->. rewrite !blen_app. unfold blen. rewrite !length_be_bytes, hmac_sha1_length. lia.
    - exists (blen body). rewrite app_nil_r. fold body. split; [by rewrite Hset|done]. }
  clearbody msg. subst msg. destruct fp.
  - set (full := write_attrs (attrs ++ mi_attrs ty txid attrs mi true)) in *.
    eexists. split; [apply length_be_bytes|].
    rewrite (app_assoc attrs). unfold framed. rewrite write_attrs_app. fold full. cbv iota zeta.
    rewrite set_len_framed, (write_attrs_one _ _ 4) by (done || apply length_be_bytes).
    rewrite <- !app_assoc.
    do 4 f_equal.
    rewrite !blen_app. unfold blen. rewrite !length_be_bytes, Ht. lia.
  - exists (be_bytes 4 0). split; [done|]. rewrite app_nil_r. unfold framed. by rewrite Hn.
Qed.
End Built.

Definition frame_ok (ty : Z) (txid : bytes) (l : list Attr) : Prop :=
  in_u 16 ty /\ length txid = 12%nat /\ Forall attr_ok l /\ in_u 16 (blen (write_attrs l)).

Lemma frame_fields ty txid l :
  frame_ok ty txid l ->
  of_be (sl 0 2 (framed ty txid l)) = ty
  /\ of_be (sl 2 4 (framed ty txid l)) = blen (write_attrs l)
  /\ sl 4 8 (framed ty txid l) = be_bytes 4 COOKIE
  /\ sl 8 20 (framed ty txid l) = txid
  /\ length (framed ty txid l) = (20 + length (write_attrs l))%nat.
Proof.
  intros (Hty & Htx & _ & Hl). unfold framed. rewrite (wrap_small 16) by done.
  change (sl 0 2 _) with (be_bytes 2 ty).
  change (sl 2 4 _) with (be_bytes 2 (blen (write_attrs l))).
  change (sl 4 8 _) with (be_bytes 4 COOKIE).
  change (sl 8 20 _) with (take 12 (txid ++ write_attrs l)).
  rewrite !u16_be by done. rewrite <- Htx, take_app_length.
  rewrite !length_app, !length_be_bytes. repeat split; lia.
Qed.

Lemma attr_iter_framed ty txid l :
  frame_ok ty txid l -> stun_attr_iter (framed ty txid l) = Ok l.
Proof.
  intros Hok. destruct (frame_fields _ _ _ Hok) as (_ & Hlen & _ & _ & Hn).
  destruct Hok as (_ & Htx & Hl & _).
  unfold stun_attr_iter. rewrite Hlen, Hn. unfold blen. rewrite Nat2Z.id.
  rewrite (proj2 (Nat.ltb_ge _ _)) by lia. rewrite (proj2 (Nat.ltb_ge _ _)) by lia.
  f_equal. unfold framed.
  set (hd := be_bytes 2 ty ++ be_bytes 2 (wrap 16 (blen (write_attrs l))) ++ be_bytes 4 COOKIE
    ++ txid).
  assert (length hd = 20%nat) as Hhd
    by (unfold hd; rewrite !length_app, !length_be_bytes, Htx; done).
  transitivity (attr_loop (20 + length (write_attrs l)) (hd ++ write_attrs l ++ [])
    (length hd) (length hd + length (write_attrs l))).
  { rewrite Hhd, app_nil_r. unfold hd. by rewrite <- !app_assoc. }
  apply attr_loop_write; [done|]. pose proof (length_write_attrs_ge l). lia.
Qed.

Lemma read_framed ty txid l rest :
  frame_ok ty txid l ->
  stun_read_message (framed ty txid l ++ rest) = Ok (framed ty txid l, rest).
Proof.
  intros Hok. destruct (frame_fields _ _ _ Hok) as (_ & Hlen & _ & _ & Hn).
  unfold stun_read_message, read_exact. rewrite length_app, Hn.
  rewrite (proj2 (Nat.ltb_ge _ _)) by lia. cbn [rbind].
  rewrite take_app_le, drop_app_le by lia.
  assert (of_be (sl 2 4 (take 20 (framed ty txid l))) = blen (write_attrs l)) as ->.
  { rewrite <- Hlen. done. }
  unfold blen. rewrite Nat2Z.id. rewrite length_app, length_drop, Hn.
  rewrite (proj2 (Nat.ltb_ge _ _)) by lia. cbn [rbind].
  assert (length (drop 20 (framed ty txid l)) = length (write_attrs l)) as Hd
    by (rewrite length_drop, Hn; lia).
  destruct (take_drop_app _ (drop 20 (framed ty txid l)) rest Hd) as [-> ->].
  by rewrite take_drop.
Qed.

(** What a message carries, besides the caller's attributes: 24 bytes of MESSAGE-INTEGRITY
    and 8 of FINGERPRINT. *)
Definition trailer_types (mi : option (bytes * bytes * bytes)) (fp : bool) : list Z :=
  (if mi is Some _ then [0x0008] else []) ++ (if fp then [0x8028] else []).

Definition trailer_len (mi : option (bytes * bytes * bytes)) (fp : bool) : Z :=
  (if mi is Some _ then 24 else 0) + (if fp then 8 else 0).

Definition message_ok (ty : Z) (txid : bytes) (attrs : list Attr)
    (mi : option (bytes * bytes * bytes)) (fp : bool) : Prop :=
  in_u 16 ty /\ length txid = 12%nat /\ Forall attr_ok attrs
  /\ in_u 16 (blen (write_attrs attrs) + trailer_len mi fp).

#[global] Instance message_ok_dec ty txid attrs mi fp : Decision (message_ok ty txid attrs mi fp).
Proof. unfold message_ok, attr_ok. apply _. Defined.

Section Built2.
Context `{C : StunCrypto} {L : StunCryptoLaws C}.

Lemma built_frame ty txid attrs mi fp :
  message_ok ty txid attrs mi fp ->
  exists trailer, stun_build_message ty txid attrs mi fp = framed ty txid (attrs ++ trailer)
    /\ frame_ok ty txid (attrs ++ trailer) /\ trailer.*1 = trailer_types mi fp
    /\ (forall u r p, mi = Some (u, r, p) ->
          head trailer = Some (0x0008, hmac_sha1 (mi_key u r p) (mi_text ty txid attrs fp))).
Proof.
  intros (Hty & Htx & Hok & Hlen).
  destruct (build_framed ty txid attrs mi fp Htx) as (fpv & Hfp & E).
  eexists. split; [apply E|].
  assert (forall t v n, length v = n -> pad_of n = 0%nat ->
    blen (write_attrs [(t, v)]) = Z.of_nat (4 + n)) as Hone.
  { intros t v n Hn Hp. rewrite (write_attrs_one t v n Hn Hp). unfold blen.
    rewrite !length_app, !length_be_bytes, Hn. lia. }
  assert (blen (write_attrs (mi_attrs ty txid attrs mi fp)) = if mi is Some _ then 24 else 0) as Hmi.
  { destruct mi as [[[u r] p]|]; [|done]. cbn [mi_attrs].
    rewrite (Hone _ _ 20%nat) by (done || apply hmac_sha1_length). done. }
  assert (blen (write_attrs (if fp then [(0x8028, fpv)] else [])) = if fp then 8 else 0) as Hf.
  { destruct fp; [|done]. by rewrite (Hone _ _ 4%nat). }
  split; [|split].
  - split; [done|]. split; [done|]. split.
    + apply Forall_app. split; [done|]. apply Forall_app. split.
      * destruct mi as [[[u r] p]|]; [|constructor]. repeat constructor; cbn [fst snd];
          unfold in_u, blen; rewrite ?hmac_sha1_length; lia.
      * destruct fp; [|constructor]. repeat constructor; cbn [fst snd];
          unfold in_u, blen; rewrite ?Hfp; lia.
    + rewrite !write_attrs_app, !blen_app, Hmi, Hf. apply Hlen.
  - unfold trailer_types. rewrite fmap_app. destruct mi as [[[u r] p]|], fp; done.
  - intros u r p ->. done.
Qed.
End Built2.

(** [C27] STUN messages round trip: a message the code builds from attributes that fit in the
    16-bit length has the given type, the cookie and the transaction id, announces its own
    length, is read back from a byte stream exactly, whatever follows it, and its attributes
    parse to the given ones followed by the integrity attribute and the fingerprint. *)
Theorem stun_message_roundtrip `{C : StunCrypto} {L : StunCryptoLaws C}
    (ty : Z) (txid : bytes) (attrs : list Attr) (mi : option (bytes * bytes * bytes))
    (fp : bool) (rest : bytes) :
  message_ok ty txid attrs mi fp ->
  let msg := stun_build_message ty txid attrs mi fp in
  (exists trailer, stun_attr_iter msg = Ok (attrs ++ trailer)
     /\ trailer.*1 = trailer_types mi fp)
  /\ msg_type_of msg = Some ty
  /\ sl 4 8 msg = be_bytes 4 COOKIE /\ sl 8 20 msg = txid
  /\ blen msg = 20 + of_be (sl 2 4 msg)
  /\ stun_read_message (msg ++ rest) = Ok (msg, rest).
Proof.
  intros Hok msg. destruct (built_frame _ _ _ _ _ Hok) as (tr & E & Hf & Ht & _).
  unfold msg. rewrite E. destruct (frame_fields _ _ _ Hf) as (H1 & H2 & H3 & H4 & H5).
  split; [exists tr; split; [by apply attr_iter_framed|done]|].
  split. { unfold msg_type_of. rewrite H5, H1. done. }
  split; [done|]. split; [done|]. split; [|by apply read_framed].
  rewrite H2. unfold blen. rewrite H5. lia.
Qed.

Definition demo_crypto : StunCrypto := {|
  md5 := fun s => take 16 (s ++ replicate 16 Byte.x00);
  hmac_sha1 := fun k d => take 20 (k ++ d ++ replicate 20 Byte.x00);
  crc32 := fun d => blen d mod 2 ^ 32 |}.

#[global] Instance demo_crypto_laws : StunCryptoLaws demo_crypto.
Proof.
  split.
  - intros k d. unfold hmac_sha1, demo_crypto.
    rewrite length_take, !length_app, length_replicate. lia.
  - intros d. apply in_u_wrap. lia.
Qed.

Definition demo_txid : bytes := b!"transaction!".
Definition demo_attrs : list Attr := [(0x0006, b!"user"); (0x0014, b!"realm")].

Lemma stun_message_roundtrip_witness :
  stun_read_message
    (stun_build_message (C := demo_crypto) 0x0003 demo_txid demo_attrs
       (Some (b!"user", b!"realm", b!"pw")) true ++ b!"more")
  = Ok (stun_build_message (C := demo_crypto) 0x0003 demo_txid demo_attrs
          (Some (b!"user", b!"realm", b!"pw")) true, b!"more").
Proof.
  apply (stun_message_roundtrip (C := demo_crypto)).
  unfold message_ok, attr_ok, in_u. repeat constructor; vm_compute; congruence.
Defined.

(** *** Relayed datagrams *)

(** A TURN server (RFC 5766, 10.3) that gets a Send indication from the client whose
    relayed address is [from]: the peer it addresses and the Data indication that a client
    allocated at that peer receives. *)
Definition relay_forward `{C : StunCrypto} (from : SocketAddr) (txid' msg : bytes)
    : option (SocketAddr * bytes) :=
  if negb (bool_decide (msg_type_of msg = Some 0x0016)) then None
  else match stun_attr_iter msg with
       | Err _ => None
       | Ok attrs =>
           peer ← (v ← find_attr attrs 0x0012; stun_parse_xor_addr v (sl 8 20 msg));
           data ← find_attr attrs 0x0013;
           Some (peer, stun_build_message 0x0017 txid'
                   [(0x0012, turn_encode_xor_peer_address from txid'); (0x0013, data)] None false)
       end.

Lemma find_attr_app l k t v : find_attr l t = Some v -> find_attr (l ++ k) t = Some v.
Proof.
  induction l as [|[x w] l IH]; [done|]. cbn [find_attr app]. by destruct (x =? t).
Qed.

(** Attributes of an indication: an address and data of at most 65 000 bytes. *)
Lemma indication_ok ty a txid data fp :
  in_u 16 ty -> addr_ok a -> length txid = 12%nat -> blen data <= 65000 ->
  message_ok ty txid [(0x0012, turn_encode_xor_peer_address a txid); (0x0013, data)] None fp.
Proof.
  intros Hty Ha Htx Hd. pose proof (length_encoded a txid Ha Htx) as Hl.
  assert (length (turn_encode_xor_peer_address a txid) <= 20)%nat
    by (rewrite Hl; destruct (sa_ip a); lia).
  pose proof (blen_nonneg data).
  assert (forall n, (pad_of n <= 3)%nat) as Hpad
    by (intros n; unfold pad_of; pose proof (Nat.mod_upper_bound (4 - n mod 4) 4); lia).
  split; [done|]. split; [done|]. split.
  - repeat constructor; cbn [fst snd]; unfold in_u; try (unfold blen; lia); lia.
  - unfold write_attrs. cbn [fmap list_fmap concat]. rewrite app_nil_r, blen_app.
    unfold in_u, blen in *. rewrite !length_encode_attr. cbn [snd].
    pose proof (Hpad (length data)).
    pose proof (Hpad (length (turn_encode_xor_peer_address a txid))).
    unfold trailer_len. destruct fp; lia.
Qed.

Section Indications.
Context `{C : StunCrypto} {L : StunCryptoLaws C}.

(** The fields of a built message that the readers look at. *)
Lemma built_reads ty txid attrs mi fp :
  message_ok ty txid attrs mi fp ->
  exists tr, stun_attr_iter (stun_build_message ty txid attrs mi fp) = Ok (attrs ++ tr)
    /\ tr.*1 = trailer_types mi fp
    /\ of_be (sl 0 2 (stun_build_message ty txid attrs mi fp)) = ty
    /\ sl 4 8 (stun_build_message ty txid attrs mi fp) = be_bytes 4 COOKIE
    /\ sl 8 20 (stun_build_message ty txid attrs mi fp) = txid
    /\ msg_type_of (stun_build_message ty txid attrs mi fp) = Some ty
    /\ (20 <= length (stun_build_message ty txid attrs mi fp))%nat.
Proof.
  intros Hok. destruct (built_frame _ _ _ _ _ Hok) as (tr & E & Hf & Ht & _). exists tr.
  rewrite E. destruct (frame_fields _ _ _ Hf) as (H1 & H2 & H3 & H4 & H5).
  assert (msg_type_of (framed ty txid (attrs ++ tr)) = Some ty) as Hty.
  { unfold msg_type_of. rewrite H5, H1. done. }
  repeat split; try done; [by apply attr_iter_framed|]. rewrite H5. lia.
Qed.

Lemma data_indication_parses from txid data fp :
  addr_ok from -> length txid = 12%nat -> blen data <= 65000 ->
  turn_parse_data_indication
    (stun_build_message 0x0017 txid
       [(0x0012, turn_encode_xor_peer_address from txid); (0x0013, data)] None fp)
  = Some (from, data).
Proof.
  intros Ha Htx Hd.
  destruct (built_reads _ _ _ _ _ (indication_ok 0x0017 from txid data fp ltac:(unfold in_u; lia)
    Ha Htx Hd)) as (tr & H1 & _ & H2 & _ & H4 & _ & H5).
  unfold turn_parse_data_indication.
  rewrite (proj2 (Nat.ltb_ge _ _)), H1, H2, H4 by done. cbn.
  by rewrite xor_addr_parses.
Qed.
End Indications.

(** A datagram sent through a TURN relay arrives as it was sent: for any two addresses and
    data of at most 65 000 bytes, a relay that forwards the Send indication of the client at
    relayed address [from] addresses the intended peer, and that peer decodes the Data
    indication to exactly the sender's address and the data. *)
Theorem relayed_data_delivered `{C : StunCrypto} {L : StunCryptoLaws C}
    (from peer : SocketAddr) (txid txid' data : bytes) :
  addr_ok from -> addr_ok peer -> length txid = 12%nat -> length txid' = 12%nat ->
  blen data <= 65000 ->
  exists ind, relay_forward from txid' (send_indication_msg peer txid data) = Some (peer, ind)
    /\ turn_parse_data_indication ind = Some (from, data).
Proof.
  intros Hf Hp Ht Ht' Hd. eexists.
  split; [|by apply (data_indication_parses from txid' data false)].
  destruct (built_reads _ _ _ _ _ (indication_ok 0x0016 peer txid data true ltac:(unfold in_u; lia)
    Hp Ht Hd)) as (tr & H1 & _ & _ & _ & H4 & H5 & _).
  unfold relay_forward, send_indication_msg. rewrite H5, bool_decide_true by done.
  cbn [negb]. rewrite H1, H4. cbn [app find_attr Z.eqb Pos.eqb mbind option_bind].
  by rewrite xor_addr_parses.
Qed.

Definition demo_v6 : SocketAddr := mkSocketAddr (IpV6 (replicate 15 Byte.x20 ++ [Byte.x01])) 3478.

Lemma demo_v6_ok : addr_ok demo_v6.
Proof. split; [unfold in_u; cbn; lia|reflexivity]. Qed.

Lemma demo_peer_ok : addr_ok P2PSendFacts.demo_peer.
Proof. split; unfold in_u; cbn; lia. Qed.

Lemma relayed_data_delivered_witness :
  exists ind, relay_forward (C := demo_crypto) demo_v6 b!"another_txid"
      (send_indication_msg (C := demo_crypto) P2PSendFacts.demo_peer demo_txid b!"hello")
      = Some (P2PSendFacts.demo_peer, ind)
    /\ turn_parse_data_indication ind = Some (demo_v6, b!"hello").
Proof.
  apply (relayed_data_delivered (C := demo_crypto));
    [apply demo_v6_ok|apply demo_peer_ok|reflexivity|reflexivity|vm_compute; congruence].
Defined.

(** Obfuscated addresses round trip: every IPv4 or IPv6 socket address encodes to 8 or 20
    bytes that decode, under the same transaction id, to that address. *)
Theorem xor_address_roundtrip (a : SocketAddr) (txid : bytes) :
  addr_ok a -> length txid = 12%nat ->
  stun_parse_xor_addr (turn_encode_xor_peer_address a txid) txid = Some a
  /\ blen (turn_encode_xor_peer_address a txid)
     = match sa_ip a with IpV4 _ => 8 | IpV6 _ => 20 end.
Proof.
  intros Ha Ht. split; [by apply xor_addr_parses|].
  unfold blen. rewrite (length_encoded a txid Ha Ht). by destruct (sa_ip a).
Qed.

Lemma xor_address_roundtrip_witness :
  stun_parse_xor_addr (turn_encode_xor_peer_address demo_v6 demo_txid) demo_txid = Some demo_v6
  /\ blen (turn_encode_xor_peer_address demo_v6 demo_txid) = 20.
Proof. apply (xor_address_roundtrip demo_v6 demo_txid); [apply demo_v6_ok|reflexivity]. Defined.

(** *** The two readers of a mapped address *)

(** The first XOR-MAPPED-ADDRESS of a known family decides; a shorter one ends the search. *)
Fixpoint first_mapped (attrs : list Attr) (txid : bytes) : option SocketAddr :=
  match attrs with
  | [] => None
  | (t, v) :: rest =>
      if t =? 0x0020 then
        if (length v <? 8)%nat then None
        else if (of_be (sl 1 2 v) =? 1) || (of_be (sl 1 2 v) =? 2)
        then stun_parse_xor_addr v txid
        else first_mapped rest txid
      else first_mapped rest txid
  end.

Lemma sl_sl i j p q (m : bytes) :
  (p + j <= q)%nat -> sl i j (sl p q m) = sl (p + i) (p + j) m.
Proof.
  intros H. unfold sl. rewrite skipn_firstn_comm, firstn_firstn, drop_drop. f_equal. lia.
Qed.

Lemma mapped_loop_spec fuel resp txid pos end_ :
  (end_ <= length resp)%nat ->
  mapped_loop fuel resp txid pos end_ = first_mapped (attr_loop fuel resp pos end_) txid.
Proof.
  intros Hend. revert pos. induction fuel as [|fuel IH]; intros pos; [done|].
  cbn [mapped_loop attr_loop]. destruct (Nat.leb_spec (pos + 4) end_); [|done].
  set (l := Z.to_nat (of_be (sl (pos + 2) (pos + 4) resp))).
  destruct (Nat.ltb_spec end_ (pos + 4 + l)); [done|].
  cbn [first_mapped].
  assert (length (sl (pos + 4) (pos + 4 + l) resp) = l) as Hl.
  { rewrite length_sl by lia. lia. }
  destruct (_ =? 32); [|apply IH]. rewrite Hl.
  destruct (Nat.ltb_spec l 8); [done|].
  unfold stun_parse_xor_addr. rewrite Hl, (proj2 (Nat.ltb_ge l 8)) by done.
  rewrite !(sl_sl 1 2), (sl_sl 2 4), (sl_sl 4 8) by lia.
  destruct (of_be (sl (pos + 4 + 1) (pos + 4 + 2) resp) =? 1) eqn:E1; [done|]. cbn [orb].
  destruct (of_be (sl (pos + 4 + 1) (pos + 4 + 2) resp) =? 2) eqn:E2; [|apply IH].
  cbn [andb]. destruct (Nat.ltb_spec l 20).
  - by rewrite (proj2 (Nat.leb_gt _ _)) by done.
  - rewrite (proj2 (Nat.leb_le _ _)) by done. by rewrite sl_sl by lia.
Qed.

(** A binding success response of this transaction. *)
Definition response_matches (resp txid : bytes) : bool :=
  (of_be (sl 0 2 resp) =? 0x0101) && bool_decide (sl 4 8 resp = be_bytes 4 COOKIE)
  && bool_decide (sl 8 20 resp = txid).

Lemma parse_mapped_spec resp txid :
  parse_xor_mapped_address resp txid
  = match stun_attr_iter resp with
    | Ok attrs => if response_matches resp txid then first_mapped attrs txid else None
    | Err _ => None
    end.
Proof.
  unfold parse_xor_mapped_address, stun_attr_iter, response_matches.
  destruct (Nat.ltb_spec (length resp) 20); [done|].
  set (len := Z.to_nat (of_be (sl 2 4 resp))).
  destruct (Nat.ltb_spec (length resp) (20 + len)); [by destruct (_ =? 257)|].
  destruct (_ =? 257); [|done]. cbn [negb andb].
  rewrite mapped_loop_spec by done.
  destruct (decide (sl 4 8 resp = be_bytes 4 COOKIE)) as [E4|E4].
  - rewrite (bool_decide_false (_ <> _)), (bool_decide_true _ E4) by (intros H'; by apply H').
    cbn [andb]. destruct (decide (sl 8 20 resp = txid)) as [E8|E8].
    + rewrite (bool_decide_false (_ <> _)), (bool_decide_true _ E8) by (intros H'; by apply H').
      done.
    + by rewrite bool_decide_true, (bool_decide_false _ E8) by done.
  - by rewrite bool_decide_true, (bool_decide_false _ E4) by done.
Qed.

Lemma first_mapped_in attrs txid a :
  first_mapped attrs txid = Some a ->
  exists v, (0x0020, v) ∈ attrs /\ stun_parse_xor_addr v txid = Some a.
Proof.
  induction attrs as [|[t v] attrs IH]; [done|]. cbn [first_mapped]. intros H.
  assert (forall r, first_mapped attrs txid = r -> r = Some a ->
    exists w, (0x0020, w) ∈ (t, v) :: attrs /\ stun_parse_xor_addr w txid = Some a) as Hrest.
  { intros r <- Hr. destruct (IH Hr) as (w & Hw & Hp). exists w. split; [by right|done]. }
  destruct (Z.eqb_spec t 0x0020) as [->|]; [|by eapply Hrest].
  destruct (length v <? 8)%nat; [done|].
  destruct (_ || _); [|by eapply Hrest]. exists v. split; [by left|done].
Qed.

(** The hand-written parser of binding responses is the generic attribute parser with the
    header checks: it answers exactly when the message is a success response with the cookie
    and the transaction id of the request, with the address of the first XOR-MAPPED-ADDRESS
    of a known family; such an address is one the generic address decoder gives for an
    attribute of the message, and when the first attribute of that type decodes, the two
    readers agree. *)
Theorem mapped_address_parsers_agree (resp txid : bytes) :
  parse_xor_mapped_address resp txid
  = match stun_attr_iter resp with
    | Ok attrs => if response_matches resp txid then first_mapped attrs txid else None
    | Err _ => None
    end
  /\ (forall a, parse_xor_mapped_address resp txid = Some a ->
        exists attrs v, stun_attr_iter resp = Ok attrs /\ (0x0020, v) ∈ attrs
          /\ stun_parse_xor_addr v txid = Some a)
  /\ (forall attrs v a, stun_attr_iter resp = Ok attrs -> response_matches resp txid = true ->
        find_attr attrs 0x0020 = Some v -> stun_parse_xor_addr v txid = Some a ->
        parse_xor_mapped_address resp txid = Some a).
Proof.
  split; [apply parse_mapped_spec|]. split.
  - intros a. rewrite parse_mapped_spec. destruct (stun_attr_iter resp) as [attrs|]; [|done].
    destruct (response_matches resp txid); [|done].
    intros (v & Hv & Hp)%first_mapped_in. eauto.
  - intros attrs v a E Hm Hfind Hp. rewrite parse_mapped_spec, E, Hm.
    clear E. induction attrs as [|[t w] attrs IH]; [done|].
    cbn [find_attr first_mapped] in *. destruct (t =? 0x0020); [|by apply IH].
    injection Hfind as ->. unfold stun_parse_xor_addr in *.
    destruct (length v <? 8)%nat; [done|].
    destruct (of_be (sl 1 2 v) =? 1); [done|].
    by destruct (of_be (sl 1 2 v) =? 2).
Qed.

(** A binding response read on the data socket is not checked against the request: a
    datagram of any message type and any transaction id that carries an IPv4 address is taken
    as the public address, although the stand-alone binding client refuses it. *)
Theorem unchecked_binding_response `{C : StunCrypto} {L : StunCryptoLaws C}
    (resolve : bytes -> Z -> result SocketAddr) (url host : bytes) (port : Z)
    (server : SocketAddr) (ty : Z) (txid txid' : bytes) (x p : Z) :
  parse_stun_host_port url = Some (host, port) -> resolve host port = Ok server ->
  in_u 16 ty -> length txid' = 12%nat -> in_u 32 x -> in_u 16 p ->
  ty <> 0x0101 \/ txid' <> txid ->
  let a := mkSocketAddr (IpV4 x) p in
  let forged := stun_build_message ty txid'
                  [(0x0020, turn_encode_xor_peer_address a txid')] None true in
  (stun_binding_srflx_on_socket resolve url txid (Ok forged)).2 = Ok a
  /\ (stun_binding_srflx url txid (Ok forged)).2
     = Err b!"Failed to parse STUN XOR-MAPPED-ADDRESS".
Proof.
  intros Hurl Hres Hty Htx Hx Hp Hforged a forged.
  assert (addr_ok a) as Ha by done.
  assert (message_ok ty txid' [(0x0020, turn_encode_xor_peer_address a txid')] None true) as Hok.
  { split; [done|]. split; [done|]. pose proof (length_encoded a txid' Ha Htx) as Hl.
    cbn [sa_ip a] in Hl. split.
    - apply Forall_singleton. split; cbn [fst snd]; unfold in_u, blen; [|rewrite Hl]; lia.
    - unfold write_attrs. cbn [fmap list_fmap concat]. rewrite app_nil_r. unfold in_u, blen.
      rewrite length_encode_attr. cbn [snd]. rewrite Hl. split; vm_compute; congruence. }
  destruct (built_reads _ _ _ _ _ Hok) as (tr & H1 & _ & H2 & H3 & H4 & _).
  assert (take (Z.to_nat STUN_BUF) forged = forged) as Htake.
  { apply take_ge. destruct (build_framed ty txid' [(0x0020, turn_encode_xor_peer_address a txid')] None true Htx)
      as (fpv & Hfp & E'). unfold forged. rewrite E'. unfold framed.
    rewrite !length_app, !length_be_bytes, Htx. cbn [app mi_attrs].
    unfold write_attrs. cbn [fmap list_fmap concat].
    rewrite !length_app, !length_encode_attr. cbn [snd]. rewrite Hfp.
    change (Z.to_nat STUN_BUF) with (Z.to_nat 1500). cbn -[Z.to_nat]. lia. }
  unfold stun_binding_srflx_on_socket, stun_binding_srflx. rewrite Hurl, Hres.
  cbn [snd rbind]. rewrite Htake, parse_mapped_spec. unfold forged in *.
  rewrite H1. cbn [rbind app find_attr Z.eqb Pos.eqb mbind option_bind]. split.
  - change (turn_encode_xor_peer_address a txid') with (turn_encode_xor_peer_address a demo_txid).
    change (stun_parse_xor_addr ?v txid) with (stun_parse_xor_addr v demo_txid).
    by rewrite xor_addr_parses.
  - unfold response_matches. rewrite H2, H3, H4.
    rewrite (bool_decide_true (be_bytes 4 COOKIE = _)) by done.
    destruct (Z.eqb_spec ty 0x0101); [|done].
    rewrite bool_decide_false by (by destruct Hforged). done.
Qed.

Lemma unchecked_binding_response_witness :
  (stun_binding_srflx_on_socket (C := demo_crypto) (fun _ _ => Ok demo_v6) b!"stun:host:3478"
     demo_txid
     (Ok (stun_build_message (C := demo_crypto) 0x0001 b!"another_txid"
        [(0x0020, turn_encode_xor_peer_address P2PSendFacts.demo_peer b!"another_txid")]
        None true))).2 = Ok P2PSendFacts.demo_peer.
Proof.
  apply (unchecked_binding_response (C := demo_crypto) (fun _ _ => Ok demo_v6) b!"stun:host:3478"
    b!"host" 3478 demo_v6 0x0001 demo_txid b!"another_txid" 0x7f000001 9999);
    try reflexivity; try (unfold in_u; lia).
Defined.

(** *** Allocation *)

Lemma read_message_long stream msg rest :
  stun_read_message stream = Ok (msg, rest) -> (20 <= length msg)%nat.
Proof.
  unfold stun_read_message, read_exact. destruct (Nat.ltb_spec (length stream) 20); [done|].
  cbn [rbind]. destruct (_ <? _)%nat; [done|]. cbn [rbind]. intros [= <- <-].
  rewrite length_app, length_take. lia.
Qed.

(** Replies over TLS have a header, so the reads of the message type do not panic there. *)
Lemma tls_replies_never_panic stream msg rest txid :
  stun_read_message stream = Ok (msg, rest) ->
  read_challenge msg <> None /\ read_allocated msg txid <> None.
Proof.
  intros H%read_message_long. unfold read_challenge, read_allocated, msg_type_of.
  by rewrite (proj2 (Nat.ltb_ge _ _)) by lia.
Qed.

Section Allocation.
Context `{C : StunCrypto} {L : StunCryptoLaws C}.

Definition challenge_msg (txid reason realm nonce : bytes) : bytes :=
  stun_build_message 0x0113 txid [(0x0009, reason); (0x0014, realm); (0x0015, nonce)] None true.

Definition success_msg (txid2 : bytes) (relayed : SocketAddr) (lifetime : bytes) : bytes :=
  stun_build_message 0x0103 txid2
    [(0x000d, lifetime); (0x0016, turn_encode_xor_peer_address relayed txid2)] None true.

Lemma challenge_reads txid reason realm nonce :
  message_ok 0x0113 txid [(0x0009, reason); (0x0014, realm); (0x0015, nonce)] None true ->
  valid_utf8 realm = true -> valid_utf8 nonce = true ->
  read_challenge (challenge_msg txid reason realm nonce) = Some (Ok (realm, nonce)).
Proof.
  intros Hok Hr Hn. destruct (built_reads _ _ _ _ _ Hok) as (tr & H1 & _ & _ & _ & _ & H5 & _).
  unfold read_challenge, challenge_msg. rewrite H5, H1.
  unfold stun_get_text_attr, from_utf8. cbn. by rewrite Hr, Hn.
Qed.

Lemma success_reads txid2 relayed lifetime :
  message_ok 0x0103 txid2
    [(0x000d, lifetime); (0x0016, turn_encode_xor_peer_address relayed txid2)] None true ->
  addr_ok relayed ->
  read_allocated (success_msg txid2 relayed lifetime) txid2 = Some (Ok relayed).
Proof.
  intros Hok Ha. destruct (built_reads _ _ _ _ _ Hok) as (tr & H1 & _ & _ & _ & _ & H5 & _).
  unfold read_allocated, success_msg. rewrite H5, H1. cbn.
  rewrite xor_addr_parses; [done|done|]. apply Hok.
Qed.
End Allocation.

(** Allocation against a TURN server that challenges and then accepts: over UDP (replies of
    at most 2048 bytes) and over TLS (whatever follows on the stream) the client ends with the
    relayed address, the realm and the nonce of the server after exactly two requests, of
    which the second repeats the first with the credentials and a MESSAGE-INTEGRITY. Over UDP
    a reply of fewer than two bytes is a panic. *)
Theorem allocation_completes `{C : StunCrypto} {L : StunCryptoLaws C}
    (url_parse : bytes -> result (bytes * option bytes * option Z))
    (connect : bytes -> Z -> result bytes)
    (url host username password txid txid2 reason realm nonce lifetime rest : bytes)
    (port : option Z) (relayed : SocketAddr) :
  message_ok 0x0113 txid [(0x0009, reason); (0x0014, realm); (0x0015, nonce)] None true ->
  message_ok 0x0103 txid2
    [(0x000d, lifetime); (0x0016, turn_encode_xor_peer_address relayed txid2)] None true ->
  message_ok 0x0003 txid2
    (credential_attrs username realm nonce ++ allocate_attrs UDP_TRANSPORT)
    (Some (username, realm, password)) true ->
  valid_utf8 realm = true -> valid_utf8 nonce = true -> addr_ok relayed ->
  let challenge := challenge_msg txid reason realm nonce in
  let success := success_msg txid2 relayed lifetime in
  blen challenge <= RECV_BUF -> blen success <= RECV_BUF ->
  url_parse url = Ok (b!"turns", Some host, port) ->
  connect host (default 5349 port) = Ok (challenge ++ success ++ rest) ->
  turn_allocate_udp username password txid txid2 (Ok challenge) (Ok success)
  = ([allocate_request UDP_TRANSPORT txid;
      allocate_request_auth UDP_TRANSPORT txid2 username password realm nonce],
     Some (Ok (relayed, realm, nonce)))
  /\ turn_allocate_tcp url_parse connect url username password txid txid2
  = ([allocate_request TCP_TRANSPORT txid;
      allocate_request_auth TCP_TRANSPORT txid2 username password realm nonce],
     Ok (rest, relayed, realm, nonce))
  /\ (exists tag fpv, stun_attr_iter
        (allocate_request_auth UDP_TRANSPORT txid2 username password realm nonce)
        = Ok (credential_attrs username realm nonce ++ allocate_attrs UDP_TRANSPORT
                ++ [(0x0008, tag); (0x8028, fpv)]))
  /\ (forall short, (length short < 2)%nat ->
        (turn_allocate_udp username password txid txid2 (Ok short) (Ok success)).2 = None).
Proof.
  intros Hc Hs Ha Hr Hn Haddr challenge success Hlc Hls Hurl Hcon.
  pose proof (challenge_reads _ _ _ _ Hc Hr Hn) as Rc.
  pose proof (success_reads _ _ _ Hs Haddr) as Rs.
  split; [|split; [|split]].
  - unfold turn_allocate_udp. rewrite !take_ge by (unfold blen in *; lia).
    unfold challenge, success.
    by rewrite Rc, Rs.
  - unfold turn_allocate_tcp, parse_turns_url. rewrite Hurl.
    rewrite bool_decide_false by (intros H; by apply H). cbn [ok_or rbind].
    unfold DEFAULT_TURNS_PORT. rewrite Hcon.
    assert (forall ty t attrs r, message_ok ty t attrs None true ->
      stun_read_message (stun_build_message ty t attrs None true ++ r)
      = Ok (stun_build_message ty t attrs None true, r)) as Hread.
    { intros ty t attrs r Hok. destruct (built_frame _ _ _ _ _ Hok) as (tr & -> & Hf & _).
      by apply read_framed. }
    unfold challenge, challenge_msg. rewrite Hread by done.
    unfold challenge_msg in Rc. rewrite Rc. cbn [default from_option id].
    unfold success, success_msg. rewrite Hread by done. cbn [rbind].
    unfold success_msg in Rs. by rewrite Rs.
  - destruct (built_reads _ _ _ _ _ Ha) as (tr & H1 & Ht & _).
    unfold allocate_request_auth. rewrite H1, <- app_assoc.
    destruct tr as [|[t1 v1] [|[t2 v2] [|]]]; try discriminate Ht.
    injection Ht as -> ->. eauto.
  - intros short Hshort. unfold turn_allocate_udp, read_challenge, msg_type_of.
    rewrite (proj2 (Nat.ltb_lt _ _)); [done|]. rewrite length_take. lia.
Qed.

Lemma allocation_completes_witness :
  turn_allocate_udp (C := demo_crypto) b!"user" b!"pw" demo_txid b!"another_txid"
    (Ok (challenge_msg (C := demo_crypto) demo_txid b!"401" b!"realm" b!"nonce"))
    (Ok (success_msg (C := demo_crypto) b!"another_txid" demo_v6 (be_bytes 4 600)))
  = ([allocate_request (C := demo_crypto) UDP_TRANSPORT demo_txid;
      allocate_request_auth (C := demo_crypto) UDP_TRANSPORT b!"another_txid" b!"user" b!"pw"
        b!"realm" b!"nonce"],
     Some (Ok (demo_v6, b!"realm", b!"nonce"))).
Proof.
  refine (proj1 (allocation_completes (C := demo_crypto)
    (fun _ => Ok (b!"turns", Some b!"h", None))
    (fun _ _ => Ok (challenge_msg (C := demo_crypto) demo_txid b!"401" b!"realm" b!"nonce"
       ++ success_msg (C := demo_crypto) b!"another_txid" demo_v6 (be_bytes 4 600) ++ []))
    b!"turns://h" b!"h" b!"user" b!"pw" demo_txid b!"another_txid" b!"401" b!"realm" b!"nonce"
    (be_bytes 4 600) [] None demo_v6 _ _ _ _ _ demo_v6_ok _ _ _ _));
    lazymatch goal with
    | |- _ = _ => reflexivity
    | |- _ <= _ => vm_compute; congruence
    | |- _ => unfold message_ok, attr_ok, in_u; repeat constructor; vm_compute; congruence
    end.
Defined.

(** *** The acknowledged sender over a relay *)

Section RelaySender.
Context `{C : StunCrypto} `{M : Mac} (peer : SocketAddr) (connection_id secret : bytes) (mid : Z).

(** The relayed datagram an event leaves in the inbox: every one but the acknowledgement. *)
Definition kept (ev : RelayEvent) : option (SocketAddr * bytes) :=
  match re_recv ev with
  | None => None
  | Some dgram =>
      match turn_parse_data_indication (take (Z.to_nat RELAY_BUF) dgram) with
      | None => None
      | Some (src, data) =>
          if bool_decide (src = peer) && valid_relayed_ack connection_id secret mid data (re_now ev)
          then None else Some (src, data)
      end
  end.

Lemma relay_await_spec pkt env tries inbox :
  0 <= tries < 10 -> 10 - tries <= blen env ->
  exists used rest r,
    relay_await peer connection_id secret mid pkt tries env inbox
    = ((fun ev => send_indication_msg peer (re_txid ev) pkt) <$> used, rest,
       inbox ++ omap kept used, r)
    /\ env = used ++ rest /\ r <> Waiting /\ 1 <= blen used <= 10 - tries.
Proof.
  revert tries inbox. induction env as [|ev env IH]; intros tries inbox Ht Hlen.
  { unfold blen in Hlen. cbn in Hlen. lia. }
  assert (Hlen' : 9 - tries <= blen env) by (unfold blen in *; cbn [length] in Hlen; lia).
  assert (forall add, inbox ++ add = inbox ++ omap kept [ev] ->
    exists used rest r,
      (if 10 <=? tries + 1
       then ([send_indication_msg peer (re_txid ev) pkt], env, inbox ++ add, TimedOut)
       else let '(l, e, i, r) :=
              relay_await peer connection_id secret mid pkt (tries + 1) env (inbox ++ add) in
            (send_indication_msg peer (re_txid ev) pkt :: l, e, i, r))
      = ((fun ev => send_indication_msg peer (re_txid ev) pkt) <$> used, rest,
         inbox ++ omap kept used, r)
      /\ ev :: env = used ++ rest /\ r <> Waiting /\ 1 <= blen used <= 10 - tries) as Hcheck.
  { intros add Hadd. destruct (Z.leb_spec 10 (tries + 1)).
    - exists [ev], env, TimedOut. rewrite Hadd. repeat split; try done. unfold blen; cbn; lia.
    - destruct (IH (tries + 1) (inbox ++ add) ltac:(lia) ltac:(lia))
        as (used & rest & r & -> & -> & Hr & Hu).
      exists (ev :: used), rest, r. rewrite Hadd, <- app_assoc, <- omap_app.
      repeat split; try done; unfold blen in *; cbn [length] in *; lia. }
  assert (forall o, kept ev = o -> omap kept [ev] = from_option (fun x => [x]) [] o) as Hone
    by (intros o <-; cbn [omap list_omap]; by destruct (kept ev)).
  cbn [relay_await]. unfold kept in Hone at 1.
  destruct (re_recv ev) as [dgram|].
  2: { specialize (Hcheck []). rewrite (Hone None eq_refl), !app_nil_r in Hcheck.
       by apply Hcheck. }
  destruct (turn_parse_data_indication _) as [[src data]|].
  2: { specialize (Hcheck []). rewrite (Hone None eq_refl), !app_nil_r in Hcheck.
       by apply Hcheck. }
  destruct (bool_decide (src = peer) && _).
  - exists [ev], env, (Done ()). rewrite (Hone None eq_refl). cbn [from_option fmap list_fmap].
    rewrite app_nil_r. repeat split; try done; unfold blen; cbn [length]; lia.
  - apply Hcheck. by rewrite (Hone (Some (src, data))).
Qed.

Lemma relay_send_from_spec n payload cnt idx clock env inbox :
  10 * Z.of_nat n <= blen env ->
  exists sent used rest r,
    relay_send_from peer connection_id secret mid n payload cnt idx clock env inbox
    = (sent, inbox ++ omap kept used, r)
    /\ env = used ++ rest /\ r <> Waiting /\ (length sent <= n)%nat
    /\ Forall (fun l => 1 <= blen l <= 10) sent /\ (r = Done () -> length sent = n).
Proof.
  revert idx env inbox. induction n as [|n IH]; intros idx env inbox Hlen.
  { exists [], [], env, (Done ()). cbn. rewrite app_nil_r. repeat split; try done; constructor. }
  cbn [relay_send_from].
  set (pkt := frag_packet connection_id secret mid payload cnt idx (clock idx)).
  destruct (relay_await_spec pkt env 0 inbox) as (u & rest & r & E & Henv & Hr & Hu); [lia|lia|].
  rewrite E. set (sent := _ <$> u).
  assert (1 <= blen sent <= 10) as Hs by (unfold blen, sent; rewrite length_fmap; exact Hu).
  destruct r as [[]| |]; [| |done].
  - subst env. destruct (IH (idx + 1) rest (inbox ++ omap kept u)) as (l & u2 & rest2 & r2 & E2 & -> & Hr2 & Hl & Hf & Hd).
    { rewrite blen_app in Hlen. lia. }
    rewrite E2. exists (sent :: l), (u ++ u2), rest2, r2. rewrite omap_app, !app_assoc.
    repeat split; try done; cbn [length]; [lia|by constructor|]. intros H. by rewrite Hd.
  - exists [sent], u, rest, TimedOut. repeat split; try done; cbn [length]; [lia|].
    by apply Forall_singleton.
Qed.
End RelaySender.

(** The relayed sender always ends: for a payload of at most 128 fragments, ten events of the
    socket per fragment decide it. Each fragment is sent between one and ten times, success
    means every fragment was acknowledged, and each relayed datagram read meanwhile, from the
    peer or from others, that is not the acknowledgement is appended to the inbox in order. *)
Theorem relayed_send_terminates `{C : StunCrypto} `{M : Mac} (peer : SocketAddr)
    (connection_id secret : bytes) (mid : Z) (payload : bytes) (clock : Z -> Z)
    (env : list RelayEvent) (inbox : RelayInbox) :
  blen payload <= 146688 -> 10 * frag_count payload <= blen env ->
  exists sent used rest r,
    turn_send_reliable_over_indication peer connection_id secret mid payload clock env inbox
    = Ok (sent, inbox ++ omap (kept peer connection_id secret mid) used, r)
    /\ env = used ++ rest /\ r <> Waiting
    /\ Forall (fun l => 1 <= blen l <= 10) sent
    /\ blen sent <= frag_count payload /\ (r = Done () -> blen sent = frag_count payload).
Proof.
  intros Hp Henv. destruct (P2PSendFacts.frag_count_bounds payload) as (H1 & Hup & Hlo).
  assert (frag_count payload <= P2P_MAX_FRAGMENTS_PER_MESSAGE) as Hcnt.
  { unfold P2P_MAX_FRAGMENTS_PER_MESSAGE. rewrite P2PSendFacts.max_payload_val in *.
    destruct (decide (payload = [])) as [->|Hne]; [by vm_compute|]. specialize (Hlo Hne). lia. }
  destruct (relay_send_from_spec peer connection_id secret mid (Z.to_nat (frag_count payload))
    payload (frag_count payload) 0 clock env inbox) as (sent & u & rest & r & E & He & Hr & Hl & Hf & Hd).
  { lia. }
  exists sent, u, rest, r. unfold turn_send_reliable_over_indication.
  rewrite P2PSendFacts.max_payload_val. cbn [Z.eqb].
  rewrite (proj2 (Z.ltb_ge _ _)) by done. rewrite E. unfold blen.
  repeat split; try done; [lia|]. intros HD. rewrite (Hd HD). lia.
Qed.

Definition demo_silence : list RelayEvent := replicate 10 (mkRelay demo_txid None 0).

Lemma relayed_send_terminates_witness :
  exists sent used rest r,
    turn_send_reliable_over_indication (C := demo_crypto) (M := P2PSendFacts.demo_mac)
      P2PSendFacts.demo_peer [] [] 1 b!"hi" (fun _ => 0) demo_silence []
    = Ok (sent, [] ++ omap (kept (M := P2PSendFacts.demo_mac) P2PSendFacts.demo_peer [] [] 1) used, r)
    /\ demo_silence = used ++ rest /\ r <> Waiting
    /\ Forall (fun l => 1 <= blen l <= 10) sent
    /\ blen sent <= frag_count b!"hi" /\ (r = Done () -> blen sent = frag_count b!"hi").
Proof.
  apply (relayed_send_terminates (C := demo_crypto) (M := P2PSendFacts.demo_mac)
    P2PSendFacts.demo_peer [] [] 1 b!"hi" (fun _ => 0) demo_silence []); vm_compute; congruence.
Defined.

(** *** The control connection *)

Section Control.
Context `{C : StunCrypto} (url_parse : bytes -> result (bytes * option bytes * option Z))
        (turn_url username password realm nonce : bytes)
        (attempt : nat -> bytes * (bytes -> Z -> result bytes)).

(** Binding a list of connection ids, in order; the data streams that result. *)
Fixpoint bind_all (n : nat) (ids : list bytes) : list bytes :=
  match ids with
  | [] => []
  | id :: ids' =>
      match (turn_connection_bind url_parse (attempt n).2 turn_url id username password realm
               nonce (attempt n).1).2 with
      | Ok d => d :: bind_all (S n) ids'
      | Err _ => bind_all (S n) ids'
      end
  end.

(** The connection id a message announces. *)
Definition announced (m : Z * bytes * list Attr) : option bytes :=
  let '(ty, _, l) := m in if ty =? 0x001c then find_attr l 0x002a else None.

Definition frame_bytes (m : Z * bytes * list Attr) : bytes := let '(ty, tx, l) := m in framed ty tx l.

Lemma control_message_framed ty tx l :
  frame_ok ty tx l -> control_message (framed ty tx l) = announced (ty, tx, l).
Proof.
  intros Hok. unfold control_message, announced.
  destruct (frame_fields _ _ _ Hok) as (-> & _). rewrite attr_iter_framed by done.
  by destruct (ty =? 0x001c).
Qed.

Lemma control_loop_frames msgs tail fuel n :
  Forall (fun m => frame_ok m.1.1 m.1.2 m.2) msgs -> (length tail < 20)%nat ->
  (length msgs < fuel)%nat ->
  turn_control_loop url_parse fuel turn_url username password realm nonce attempt n
    (concat (frame_bytes <$> msgs) ++ tail)
  = bind_all n (omap announced msgs).
Proof.
  intros Hok Htail. revert fuel n. induction msgs as [|[[ty tx] l] msgs IH]; intros fuel n Hf.
  - destruct fuel as [|fuel]; [cbn in Hf; lia|]. cbn [turn_control_loop fmap list_fmap concat app].
    unfold stun_read_message, read_exact. by rewrite (proj2 (Nat.ltb_lt _ _)) by done.
  - apply Forall_cons in Hok as [Hm Hok]. destruct fuel as [|fuel]; [cbn in Hf; lia|].
    cbn [turn_control_loop fmap list_fmap concat frame_bytes]. rewrite <- app_assoc, read_framed by done.
    rewrite control_message_framed by done. cbn [omap list_omap].
    assert (length msgs < fuel)%nat as Hf' by (cbn in Hf; lia).
    destruct (announced (ty, tx, l)) as [id|]; [|by apply IH].
    cbn [bind_all]. by destruct (_.2); rewrite IH.
Qed.
End Control.

(** The control loop binds exactly the announced connections: on a stream made of any
    well-formed messages, cut anywhere inside the next header, every CONNECTION-ATTEMPT with a
    CONNECTION-ID gets one ConnectionBind, in order of arrival, other messages are skipped, a
    failed binding does not stop the loop, and the loop ends with the stream. *)
Theorem control_loop_binds_announced `{C : StunCrypto}
    (url_parse : bytes -> result (bytes * option bytes * option Z))
    (turn_url username password realm nonce : bytes)
    (attempt : nat -> bytes * (bytes -> Z -> result bytes))
    (msgs : list (Z * bytes * list Attr)) (tail : bytes) :
  Forall (fun m => frame_ok m.1.1 m.1.2 m.2) msgs -> (length tail < 20)%nat ->
  let stream := concat (frame_bytes <$> msgs) ++ tail in
  turn_control_loop url_parse (S (length stream)) turn_url username password realm nonce attempt
    0 stream
  = bind_all url_parse turn_url username password realm nonce attempt 0 (omap announced msgs).
Proof.
  intros Hok Htail stream. apply control_loop_frames; [done|done|].
  unfold stream. rewrite length_app. clear -Hok.
  induction Hok as [|[[ty tx] l] msgs Hm Hok IH]; [cbn; lia|].
  cbn [fmap list_fmap concat frame_bytes length]. rewrite length_app.
  destruct (frame_fields ty tx l Hm) as (_ & _ & _ & _ & ->). lia.
Qed.

Lemma control_loop_binds_announced_witness :
  turn_control_loop (C := demo_crypto) (fun _ => Ok (b!"turns", Some b!"h", None))
    (S (length (concat (frame_bytes <$> [(0x001c, demo_txid, [(0x002a, b!"id00")])]) ++ b!"x")))
    b!"turns://h" b!"u" b!"p" b!"r" b!"n"
    (fun _ => (demo_txid, fun _ _ => Ok (framed 0x010b demo_txid [] ++ b!"data")))
    0 (concat (frame_bytes <$> [(0x001c, demo_txid, [(0x002a, b!"id00")])]) ++ b!"x")
  = bind_all (C := demo_crypto) (fun _ => Ok (b!"turns", Some b!"h", None)) b!"turns://h" b!"u" b!"p"
      b!"r" b!"n" (fun _ => (demo_txid, fun _ _ => Ok (framed 0x010b demo_txid [] ++ b!"data")))
      0 (omap announced [(0x001c, demo_txid, [(0x002a, b!"id00")])]).
Proof.
  apply (control_loop_binds_announced (C := demo_crypto)); [|cbn; lia].
  unfold frame_ok, attr_ok, in_u. repeat constructor; vm_compute; congruence.
Defined.
End StunFacts.
