(* ===== verification/Downloader.v ===== *)
(** * The model downloader ([gpuf-c/src/util/model_downloader.rs])

    Downloading a model file in parallel ranges with resume: configuration checks, the size
    query, the split into chunks, the part files, their assembly, the SHA-256 check and the
    atomic rename into place. The disk is a finite map from paths to contents; the HTTP
    server, the scheduling of the parallel tasks, [canonicalize], [create_dir_all] and the
    hexadecimal SHA-256 digest are arguments. Disk errors other than a missing file and
    progress reports are left out. *)

From S2P Require Import Prelude Wire Text Ids Output Thinking LlamaServer.
From Stdlib Require Import ZArith Lia String.
From Stdlib Require Import Strings.Byte.
From stdpp Require Import base list gmap.

Local Open Scope Z_scope.

Record DownloadConfig := mkConfig {
  output_path : bytes; parallel_chunks : Z; chunk_size : Z;
  checksum : bytes; resume : bool }.

(** [DownloadConfig::default] with the fields [download_model] sets. *)
Definition download_model_config (output_path checksum : bytes) : DownloadConfig :=
  mkConfig output_path 4 (8 * 1024 * 1024) checksum true.

Record DownloadChunk := mkChunk { ch_start : Z; ch_end : Z; ch_index : nat }.

(** ** The server *)

Inductive Request := ReqHead | ReqGet | ReqRange (first : Z) (last : option Z).

(** What a response body gives: data, an error, or nothing for 30 seconds. *)
Inductive Item := Data (b : bytes) | ItemErr (e : bytes) | Stall.

Record Reply := mkReply {
  status : Z; content_length : option Z; content_range : option bytes; body : list Item }.

Definition is_success (s : Z) : bool := (200 <=? s) && (s <? 300).

(** ** The outside world of one run *)
Record Env := mkEnv {
  srv : Request -> result Reply;
  canonicalize : bytes -> result bytes;
  create_dir_all : bytes -> result ();
  unsafe_output : bool;      (* the output path names a symbolic link or no regular file *)
  pid : Z;
  cut : nat -> option nat;   (* bytes a task has written when the others are aborted *)
  first_failed : nat }.      (* which of the failed tasks is joined first *)

Record World := mkWorld { files : gmap bytes bytes; metrics : SecurityMetrics }.

(** How a call ends; [Hang] is a wait that nothing can end. *)
Inductive outcome (A : Type) := Ret (a : A) | Fail (e : bytes) | Panic | Hang.
Arguments Ret {A} a.
Arguments Fail {A} e.
Arguments Panic {A}.
Arguments Hang {A}.

Definition Io (A : Type) : Type := World -> outcome A * World.
Definition io_ret {A} (a : A) : Io A := fun w => (Ret a, w).
Definition io_fail {A} (e : bytes) : Io A := fun w => (Fail e, w).
Definition io_bind {A B} (m : Io A) (k : A -> Io B) : Io B :=
  fun w => match m w with
           | (Ret a, w) => k a w
           | (Fail e, w) => (Fail e, w)
           | (Panic, w) => (Panic, w)
           | (Hang, w) => (Hang, w)
           end.
Notation "'io!' x := m 'in' k" := (io_bind m (fun x => k))
  (at level 10, x pattern, m at level 100, k at level 200).

Definition lift {A} (r : result A) : Io A :=
  match r with Ok a => io_ret a | Err e => io_fail e end.
Definition read_file (p : bytes) : Io (option bytes) := fun w => (Ret (files w !! p), w).
Definition set_files (f : gmap bytes bytes -> gmap bytes bytes) : Io () :=
  fun w => (Ret (), mkWorld (f (files w)) (metrics w)).
Definition record_checksum_failure : Io () :=
  fun w => (Ret (), mkWorld (files w) (inc checksum_failures (metrics w))).

Definition not_found : bytes := b!"No such file or directory (os error 2)".

(** ** Paths *)

Definition slash : byte := Byte.x2f.
Definition is_absolute (p : bytes) : bool := starts_with [slash] p.

(** The components of a path after the root; a dot counts only in front. *)
Definition components (p : bytes) : list bytes :=
  let ps := List.filter non_empty (split_byte slash p) in
  match ps with
  | [] => []
  | c :: rest =>
      let rest := List.filter (fun c => negb (bool_decide (c = b!"."))) rest in
      if bool_decide (c = b!".") && is_absolute p then rest else c :: rest
  end.

Fixpoint join_slash (l : list bytes) : bytes :=
  match l with
  | [] => []
  | [c] => c
  | c :: rest => c ++ [slash] ++ join_slash rest
  end.

Definition path_parent (p : bytes) : option bytes :=
  match components p with
  | [] => None
  | cs => Some ((if is_absolute p then [slash] else []) ++ join_slash (removelast cs))
  end.

Definition file_name (p : bytes) : option bytes :=
  c ← last (components p);
  if bool_decide (c = b!".") || bool_decide (c = b!"..") then None else Some c.

Definition path_join (dir name : bytes) : bytes :=
  if ends_with [slash] dir || bool_decide (dir = []) then dir ++ name else dir ++ [slash] ++ name.

Definition extension (p : bytes) : option bytes :=
  name ← file_name p;
  '(before, after) ← rsplit_once Byte.x2e name;
  if bool_decide (before = []) then None else Some after.

Definition same_path (p q : bytes) : bool :=
  Bool.eqb (is_absolute p) (is_absolute q) && bool_decide (components p = components q).

(** ** Configuration checks *)

Definition is_ascii_hexdigit (b : byte) : bool :=
  byte_in 48 57 b || byte_in 65 70 b || byte_in 97 102 b.

Definition normalize_sha256 (raw : bytes) : result bytes :=
  let checksum := to_ascii_lowercase (trim (default raw (Prelude.strip_prefix b!"sha256:" raw))) in
  if negb (blen checksum =? 64) || negb (forallb is_ascii_hexdigit checksum)
  then Err b!"Model download requires a valid SHA256 checksum"
  else Ok checksum.

Definition validate_output_path (env : Env) (p : bytes) : result () :=
  if existsb (fun c => bool_decide (c = b!"..")) (components p)
  then Err b!"Model output path must not contain '..'"
  else match path_parent p with
  | None => Err b!"Model output path must have a parent directory"
  | Some parent =>
      let? _ := create_dir_all env parent in
      let? canonical_parent := canonicalize env parent in
      let? name := ok_or (file_name p) b!"Model output path must include a file name" in
      let checked_path := path_join canonical_parent name in
      let normalized :=
        q ← path_parent p;
        match canonicalize env q with Ok c => Some (path_join c name) | Err _ => None end in
      if negb (same_path checked_path p) && is_absolute p
         && negb (from_option (same_path checked_path) false normalized)
      then Err b!"Model output path escapes its parent directory"
      else
        let ext := to_ascii_lowercase (default [] (e ← extension checked_path; from_utf8 e)) in
        if existsb (fun x => bool_decide (ext = x)) [b!"gguf"; b!"bin"; b!"safetensors"]
        then Ok ()
        else Err b!"Model output path must end with .gguf, .bin, or .safetensors"
  end.

(** ** Size and chunks *)

Definition get_file_size (env : Env) : result Z :=
  let from_head :=
    match srv env ReqHead with
    | Ok r =>
        if is_success (status r) then
          match content_length r with Some n => if 0 <? n then Some n else None | None => None end
        else None
    | Err _ => None
    end in
  match from_head with
  | Some n => Ok n
  | None =>
      let? r := srv env (ReqRange 0 (Some 0)) in
      let from_range :=
        if status r =? 206 then
          h ← content_range r; t ← last (split_byte slash h); parse_uint 64 t
        else None in
      match from_range with
      | Some total => Ok total
      | None =>
          if is_success (status r) then
            match content_length r with
            | Some n => if 0 <? n then Ok n else Ok 0
            | None => Ok 0
            end
          else Ok 0
      end
  end.

(** [None] is the panic of a division by zero. *)
Definition calculate_chunks (cfg : DownloadConfig) (start_pos remaining total_size : Z)
    : option (list DownloadChunk) :=
  if (remaining <=? chunk_size cfg) || (parallel_chunks cfg =? 1) then
    Some [mkChunk start_pos (total_size - 1) 0]
  else if chunk_size cfg =? 0 then None
  else
    let chunk_count := Z.min (remaining / chunk_size cfg) (parallel_chunks cfg) in
    if chunk_count =? 0 then None
    else
      let actual_chunk_size := remaining / chunk_count in
      Some ((fun i =>
        let chunk_start := start_pos + Z.of_nat i * actual_chunk_size in
        let chunk_end := if Z.of_nat i =? chunk_count - 1 then total_size - 1
                         else chunk_start + actual_chunk_size - 1 in
        mkChunk chunk_start chunk_end i) <$> seq 0 (Z.to_nat chunk_count)).

(** ** Files of a download *)

Definition parts_dir (cfg : DownloadConfig) : bytes := output_path cfg ++ b!".parts".
Definition part_path (dir : bytes) (index : nat) : bytes :=
  dir ++ b!"/part-" ++ dec (Z.of_nat index).

(** [with_file_name] on a path whose last component is its file name. *)
Definition temp_output_path (env : Env) (cfg : DownloadConfig) : bytes :=
  output_path cfg ++ b!".tmp." ++ dec (pid env).

Definition remove_dir_all (dir : bytes) (fs : gmap bytes bytes) : gmap bytes bytes :=
  filter (fun kv : bytes * bytes => starts_with (dir ++ [slash]) kv.1 = false) fs.

Definition safe_remove_output_file (env : Env) (cfg : DownloadConfig) : Io () :=
  match path_parent (output_path cfg) with
  | None => io_fail b!"Model output path must have a parent directory"
  | Some parent =>
      io! _ := lift (canonicalize env parent) in
      io! _ := lift (ok_or (file_name (output_path cfg))
                       b!"Model output path must include a file name") in
      io! f := read_file (output_path cfg) in
      match f with
      | None => io_ret ()
      | Some _ =>
          if unsafe_output env then io_fail b!"Refusing to remove unsafe model output path"
          else set_files (delete (output_path cfg))
      end
  end.

Section Run.
Context (sha256_hex : bytes -> bytes).

Definition verify_checksum_at_path (path expected_checksum : bytes) : Io () :=
  io! expected := lift (normalize_sha256 expected_checksum) in
  io! f := read_file path in
  match f with
  | None => io_fail not_found
  | Some content =>
      let actual := sha256_hex content in
      if bool_decide (actual <> expected) then
        io! _ := record_checksum_failure in
        io_fail (b!"Checksum verification failed. Expected: " ++ expected ++ b!", Actual: " ++ actual)
      else io_ret ()
  end.

Definition verify_checksum (cfg : DownloadConfig) (expected_checksum : bytes) : Io () :=
  verify_checksum_at_path (output_path cfg) expected_checksum.

(** *** One chunk *)

(** The data written from a body, and how reading it ended. *)
Fixpoint drain (stall_error : bytes) (items : list Item) : bytes * result () :=
  match items with
  | [] => ([], Ok ())
  | Data b :: rest => let '(d, r) := drain stall_error rest in (b ++ d, r)
  | ItemErr e :: _ => ([], Err e)
  | Stall :: _ => ([], Err stall_error)
  end.

Definition chunk_len (c : DownloadChunk) : Z := (ch_end c - ch_start c) + 1.

(** What the task of a chunk appends to its part file ([None]: the file is not opened) and
    its result, given the length of the part file before. *)
Definition download_chunk_to_part (env : Env) (c : DownloadChunk) (existing_len : Z)
    : option bytes * result () :=
  let existing_len := Z.min existing_len (chunk_len c) in
  let start := ch_start c + existing_len in
  if ch_end c <? start then (None, Ok ())
  else match srv env (ReqRange start (Some (ch_end c))) with
  | Err e => (None, Err e)
  | Ok r =>
      if negb (status r =? 206) then
        (None, Err (b!"Server did not honor Range request for chunk " ++ dec (Z.of_nat (ch_index c))
                    ++ b!" (status: " ++ dec (status r) ++ b!")"))
      else
        let '(d, res) := drain b!"Chunk download stalled (timeout waiting for data)" (body r) in
        (Some d, res)
  end.

Definition append_file (p : bytes) (d : option bytes) (fs : gmap bytes bytes) : gmap bytes bytes :=
  match d with
  | None => fs
  | Some d => <[p := default [] (fs !! p) ++ d]> fs
  end.

(** *** All chunks *)

(** Part files longer than their chunk are removed before the start. *)
Definition trim_parts (dir : bytes) (chunks : list DownloadChunk) (fs : gmap bytes bytes)
    : gmap bytes bytes :=
  fold_left (fun fs c =>
    match fs !! part_path dir (ch_index c) with
    | Some d => if blen d <=? chunk_len c then fs else delete (part_path dir (ch_index c)) fs
    | None => fs
    end) chunks fs.

Definition part_len (dir : bytes) (fs : gmap bytes bytes) (c : DownloadChunk) : Z :=
  from_option blen 0 (fs !! part_path dir (ch_index c)).

(** The results of all tasks: they write to different files. *)
Definition chunk_results (env : Env) (dir : bytes) (chunks : list DownloadChunk)
    (fs : gmap bytes bytes) : list (DownloadChunk * (option bytes * result ())) :=
  (fun c => (c, download_chunk_to_part env c (part_len dir fs c))) <$> chunks.

Definition failures (rs : list (DownloadChunk * (option bytes * result ()))) : list (nat * bytes) :=
  omap (fun r => match r.2.2 with Err e => Some (ch_index r.1, e) | Ok _ => None end) rs.

Definition write_results (dir : bytes)
    (written : DownloadChunk -> option bytes -> option bytes)
    (rs : list (DownloadChunk * (option bytes * result ()))) (fs : gmap bytes bytes)
    : gmap bytes bytes :=
  fold_left (fun fs r => append_file (part_path dir (ch_index r.1)) (written r.1 r.2.1) fs) rs fs.

(** When a task has failed the others are aborted wherever they are. *)
Definition aborted (env : Env) (failed : nat) (c : DownloadChunk) (d : option bytes)
    : option bytes :=
  if (ch_index c =? failed)%nat then d
  else match cut env (ch_index c), d with
       | Some n, Some d => Some (take n d)
       | _, _ => None
       end.

(** The parts in order, up to the first that is missing. *)
Fixpoint assemble_loop (dir : bytes) (fs : gmap bytes bytes) (idxs : list nat) : bytes * result () :=
  match idxs with
  | [] => ([], Ok ())
  | i :: idxs' =>
      match fs !! part_path dir i with
      | None => ([], Err not_found)
      | Some d => let '(rest, r) := assemble_loop dir fs idxs' in (d ++ rest, r)
      end
  end.

Definition assemble_parts (dir output : bytes) (total_parts : nat) : Io () :=
  fun w =>
    let '(content, r) := assemble_loop dir (files w) (seq 0 total_parts) in
    lift r (mkWorld (<[output := content]> (files w)) (metrics w)).

(** [rename] of an existing file. *)
Definition rename (from to : bytes) : Io () :=
  io! f := read_file from in
  match f with
  | None => io_fail not_found
  | Some d => set_files (fun fs => <[to := d]> (delete from fs))
  end.

Definition fetch_chunks (env : Env) (dir : bytes) (chunks : list DownloadChunk) : Io () :=
  fun w =>
    let fs := trim_parts dir chunks (files w) in
    let rs := chunk_results env dir chunks fs in
    match failures rs with
    | [] => (Ret (), mkWorld (write_results dir (fun _ d => d) rs fs) (metrics w))
    | f :: fails =>
        let '(i, e) := default f ((f :: fails) !! first_failed env) in
        (Fail (b!"Chunk download failed: " ++ e),
         mkWorld (write_results dir (aborted env i) rs fs) (metrics w))
    end.

Definition download_chunks (env : Env) (cfg : DownloadConfig) (chunks : list DownloadChunk) : Io () :=
  let dir := parts_dir cfg in
  io! _ := lift (create_dir_all env dir) in
  (* without permits no task starts *)
  io! _ := (if (parallel_chunks cfg =? 0) && negb (bool_decide (chunks = []))
            then fun w => (Hang, mkWorld (trim_parts dir chunks (files w)) (metrics w))
            else io_ret ()) in
  io! _ := fetch_chunks env dir chunks in
  let temp_path := temp_output_path env cfg in
  io! _ := set_files (delete temp_path) in
  io! _ := assemble_parts dir temp_path (length chunks) in
  io! _ := verify_checksum_at_path temp_path (checksum cfg) in
  io! _ := rename temp_path (output_path cfg) in
  set_files (remove_dir_all dir).

(** *** Sequential download *)

Definition simple_download (env : Env) (cfg : DownloadConfig) : Io () :=
  io! existing := read_file (output_path cfg) in
  let resume_from := if resume cfg then from_option blen 0 existing else 0 in
  io! response := lift (srv env (if 0 <? resume_from then ReqRange resume_from None else ReqGet)) in
  if (status response =? 416) && (0 <? resume_from) then
    verify_checksum cfg (checksum cfg)
  else if negb (is_success (status response)) && negb (status response =? 206) then
    io_fail (b!"Download failed: " ++ dec (status response))
  else
    let effective_resume_from :=
      if (0 <? resume_from) && (status response =? 206) then resume_from else 0 in
    let temp_path := temp_output_path env cfg in
    io! _ := (match path_parent (output_path cfg) with
              | Some parent => lift (create_dir_all env parent)
              | None => io_ret ()
              end) in
    io! _ := (if effective_resume_from =? 0 then set_files (delete temp_path) else io_ret ()) in
    io! temp := read_file temp_path in
    let opened := if 0 <? effective_resume_from then default [] temp else [] in
    let '(d, r) := drain b!"operation timed out" (body response) in
    io! _ := set_files (<[temp_path := opened ++ d]>) in
    io! _ := lift r in
    io! _ := verify_checksum_at_path temp_path (checksum cfg) in
    rename temp_path (output_path cfg).

(** *** The download *)

Definition re_download (env : Env) (cfg : DownloadConfig) : Io Z :=
  io! _ := safe_remove_output_file env cfg in
  io! _ := set_files (remove_dir_all (parts_dir cfg)) in
  io_ret 0.

(** An existing file of the full size that verifies ends the download ([None]). *)
Definition check_existing (env : Env) (cfg : DownloadConfig) (downloaded_size file_size : Z)
    : Io (option Z) :=
  if file_size <? downloaded_size then
    io! z := re_download env cfg in io_ret (Some z)
  else if (downloaded_size =? file_size) && (0 <? file_size) then
    fun w =>
      match verify_checksum cfg (checksum cfg) w with
      | (Ret _, w) => (Ret None, w)
      | (Fail _, w) => (io! z := re_download env cfg in io_ret (Some z)) w
      | (Panic, w) => (Panic, w)
      | (Hang, w) => (Hang, w)
      end
  else io_ret (Some downloaded_size).

Definition download (env : Env) (cfg : DownloadConfig) : Io () :=
  io! _ := lift (normalize_sha256 (checksum cfg)) in
  io! _ := lift (validate_output_path env (output_path cfg)) in
  io! file_size := lift (get_file_size env) in
  if file_size =? 0 then simple_download env cfg
  else
    io! existing := read_file (output_path cfg) in
    let downloaded_size := if resume cfg then from_option blen 0 existing else 0 in
    io! _ := (match path_parent (output_path cfg) with
              | Some parent => lift (create_dir_all env parent)
              | None => io_ret ()
              end) in
    io! next := check_existing env cfg downloaded_size file_size in
    match next with
    | None => io_ret ()
    | Some downloaded_size =>
        if 0 <? downloaded_size then simple_download env cfg
        else
          let remaining_bytes := file_size - downloaded_size in
          if remaining_bytes =? 0 then io_ret ()
          else match calculate_chunks cfg downloaded_size remaining_bytes file_size with
          | None => fun w => (Panic, w)
          | Some chunks =>
              io! _ := download_chunks env cfg chunks in
              verify_checksum cfg (checksum cfg)
          end
    end.
End Run.

(** ** Facts *)
Module DownloaderFacts.

(** *** Chunks *)

(** The chunks cover the bytes from [a] to before [b] in order, without gap or overlap. *)
Fixpoint tile (a b : Z) (cs : list DownloadChunk) : Prop :=
  match cs with
  | [] => a = b
  | c :: cs' => ch_start c = a /\ a <= ch_end c /\ tile (ch_end c + 1) b cs'
  end.

Lemma tile_seq (start total act count : Z) (n i : nat) :
  0 < act -> start + count * act <= total -> Z.of_nat i + Z.of_nat n = count -> (0 < n)%nat ->
  tile (start + Z.of_nat i * act) total
    ((fun i =>
        let chunk_start := start + Z.of_nat i * act in
        let chunk_end := if Z.of_nat i =? count - 1 then total - 1 else chunk_start + act - 1 in
        mkChunk chunk_start chunk_end i) <$> seq i n).
Proof.
  intros Hact Htot. revert i. induction n as [|n IH]; intros i Hi Hn; [lia|].
  cbn [seq fmap list_fmap tile ch_start ch_end]. split; [done|].
  destruct (Z.eqb_spec (Z.of_nat i) (count - 1)) as [E|E].
  - split; [nia|]. assert (n = 0%nat) as -> by lia. cbn. lia.
  - split; [lia|].
    replace (start + Z.of_nat i * act + act - 1 + 1) with (start + Z.of_nat (S i) * act) by lia.
    apply IH; lia.
Qed.

Lemma chunk_count_bounds (cfg : DownloadConfig) remaining :
  0 < chunk_size cfg < remaining -> 0 < parallel_chunks cfg ->
  let count := Z.min (remaining / chunk_size cfg) (parallel_chunks cfg) in
  1 <= count <= parallel_chunks cfg /\ chunk_size cfg <= remaining / count
  /\ count * (remaining / count) <= remaining.
Proof.
  intros Hc Hp count.
  assert (1 <= remaining / chunk_size cfg) by (apply Z.div_le_lower_bound; lia).
  assert (1 <= count <= parallel_chunks cfg) by lia.
  split; [done|]. split; [|apply Z.mul_div_le; lia].
  apply Z.div_le_lower_bound; [lia|].
  pose proof (Z.mul_div_le remaining (chunk_size cfg) ltac:(lia)). nia.
Qed.

Lemma calculate_chunks_spec (cfg : DownloadConfig) (start remaining total : Z) :
  0 < chunk_size cfg -> 0 < parallel_chunks cfg -> 0 < remaining -> start + remaining = total ->
  exists cs, calculate_chunks cfg start remaining total = Some cs
    /\ tile start total cs /\ ch_index <$> cs = seq 0 (length cs)
    /\ 1 <= blen cs <= parallel_chunks cfg
    /\ (1 < blen cs -> forall c, c ∈ cs -> chunk_size cfg <= chunk_len c).
Proof.
  intros Hc Hp Hr Ht. unfold calculate_chunks.
  assert (exists cs, Some [mkChunk start (total - 1) 0] = Some cs
    /\ tile start total cs /\ ch_index <$> cs = seq 0 (length cs)
    /\ 1 <= blen cs <= parallel_chunks cfg
    /\ (1 < blen cs -> forall c, c ∈ cs -> chunk_size cfg <= chunk_len c)) as Hone.
  { eexists. split; [done|]. unfold blen. cbn. repeat split; try lia. }
  destruct (Z.leb_spec remaining (chunk_size cfg)) as [Hle|Hgt]; cbn [orb].
  { apply Hone. }
  destruct (Z.eqb_spec (parallel_chunks cfg) 1); cbn [orb].
  { apply Hone. }
  destruct (Z.eqb_spec (chunk_size cfg) 0); [lia|].
  destruct (chunk_count_bounds cfg remaining ltac:(lia) Hp) as (Hn & Hact & Hmul).
  set (count := Z.min (remaining / chunk_size cfg) (parallel_chunks cfg)) in *.
  destruct (Z.eqb_spec count 0); [lia|]. eexists. split; [done|].
  split; [|split; [|split]].
  - replace start with (start + Z.of_nat 0 * (remaining / count)) at 1 by lia.
    apply tile_seq; lia.
  - rewrite <- list_fmap_compose, length_fmap, length_seq. by apply list_fmap_id.
  - unfold blen. rewrite length_fmap, length_seq. lia.
  - intros _ c (i & -> & Hi)%list_elem_of_fmap. unfold chunk_len. cbn [ch_start ch_end].
    apply elem_of_seq in Hi. destruct (Z.eqb_spec (Z.of_nat i) (count - 1)); nia.
Qed.

(** Division into chunks: for any configuration with positive parameters, the chunks of a
    range tile it exactly (in order, without gap or overlap), are numbered from zero, are at
    most the configured number, and are at least the configured size when there are several;
    the division panics exactly when the file exceeds the chunk size, more than one parallel
    chunk is not the configured number, and one of the two parameters is zero. *)
Theorem chunks_partition_file (cfg : DownloadConfig) (start remaining total : Z) :
  0 <= chunk_size cfg -> 0 <= parallel_chunks cfg -> 0 < remaining -> start + remaining = total ->
  (0 < chunk_size cfg -> 0 < parallel_chunks cfg ->
     exists cs, calculate_chunks cfg start remaining total = Some cs
       /\ tile start total cs /\ ch_index <$> cs = seq 0 (length cs)
       /\ 1 <= blen cs <= parallel_chunks cfg
       /\ (1 < blen cs -> forall c, c ∈ cs -> chunk_size cfg <= chunk_len c))
  /\ (calculate_chunks cfg start remaining total = None <->
      chunk_size cfg < remaining /\ parallel_chunks cfg <> 1
      /\ (chunk_size cfg = 0 \/ parallel_chunks cfg = 0)).
Proof.
  intros Hc Hp Hr Ht. split; [intros; by apply calculate_chunks_spec|].
  unfold calculate_chunks.
  destruct (Z.leb_spec remaining (chunk_size cfg)) as [Hle|Hgt]; cbn [orb].
  { split; [done|]. intros (H & _). lia. }
  destruct (Z.eqb_spec (parallel_chunks cfg) 1); [split; [done|]; by intros (_ & H & _)|].
  destruct (Z.eqb_spec (chunk_size cfg) 0); [split; [|done]; intros _; auto|].
  destruct (Z.eqb_spec (Z.min (remaining / chunk_size cfg) (parallel_chunks cfg)) 0) as [E|E].
  - split; [|done]. intros _. split; [done|]. split; [done|]. right.
    assert (1 <= remaining / chunk_size cfg) by (apply Z.div_le_lower_bound; lia). lia.
  - split; [done|]. intros (_ & _ & [?|H0]); [lia|]. exfalso. apply E. rewrite H0.
    apply Z.min_r. apply Z.div_pos; lia.
Qed.

Lemma chunks_partition_file_witness :
  exists cs, calculate_chunks (mkConfig [] 4 1024 [] true) 0 5000 5000 = Some cs /\ tile 0 5000 cs.
Proof.
  destruct (proj1 (chunks_partition_file (mkConfig [] 4 1024 [] true) 0 5000 5000
    ltac:(cbn; lia) ltac:(cbn; lia) ltac:(lia) ltac:(lia)) ltac:(cbn; lia) ltac:(cbn; lia))
    as (cs & H1 & H2 & _).
  exists cs. split; [exact H1|exact H2].
Defined.

(** *** The files of a download are distinct *)

Lemma app_ne_self (p q : bytes) : q <> [] -> p ++ q <> p.
Proof. intros Hq E. apply (f_equal length) in E. rewrite length_app in E. destruct q; [done|cbn in E; lia]. Qed.

Lemma temp_ne_output env cfg : temp_output_path env cfg <> output_path cfg.
Proof. by apply app_ne_self. Qed.

Lemma part_ne_output cfg i : part_path (parts_dir cfg) i <> output_path cfg.
Proof. unfold part_path, parts_dir. rewrite <- app_assoc. by apply app_ne_self. Qed.

Lemma part_ne_temp env cfg i : part_path (parts_dir cfg) i <> temp_output_path env cfg.
Proof.
  unfold part_path, parts_dir, temp_output_path. rewrite <- app_assoc.
  intros E%app_inv_head. discriminate.
Qed.

Lemma part_path_inj dir i j : part_path dir i = part_path dir j -> i = j.
Proof. unfold part_path. intros E%app_inv_head%app_inv_head%dec_inj. lia. Qed.

Lemma remove_parts_output (cfg : DownloadConfig) (fs : gmap bytes bytes) :
  remove_dir_all (parts_dir cfg) fs !! output_path cfg = fs !! output_path cfg.
Proof.
  unfold remove_dir_all. destruct (fs !! output_path cfg) as [d|] eqn:E.
  - apply map_lookup_filter_Some. split; [done|]. cbn.
    apply not_true_iff_false. intros H%starts_with_length.
    unfold parts_dir in H. rewrite !length_app in H. cbn in H. lia.
  - apply map_lookup_filter_None. by left.
Qed.

Lemma trim_parts_other (dir : bytes) (cs : list DownloadChunk) (fs : gmap bytes bytes) (p : bytes) :
  (forall i, part_path dir i <> p) -> trim_parts dir cs fs !! p = fs !! p.
Proof.
  intros Hp. unfold trim_parts. revert fs. induction cs as [|c cs IH]; intros fs; [done|].
  cbn [fold_left]. rewrite IH. destruct (fs !! part_path dir (ch_index c)); [|done].
  destruct (_ <=? _); [done|]. by rewrite lookup_delete_ne.
Qed.

Lemma write_results_other (dir : bytes)
    (f : DownloadChunk -> option bytes -> option bytes)
    (rs : list (DownloadChunk * (option bytes * result ())))
    (fs : gmap bytes bytes) (p : bytes) :
  (forall i, part_path dir i <> p) -> write_results dir f rs fs !! p = fs !! p.
Proof.
  intros Hp. unfold write_results. revert fs. induction rs as [|[c [d r]] rs IH]; intros fs; [done|].
  cbn [fold_left]. rewrite IH. cbn [fst snd]. unfold append_file.
  destruct (f c d); [|done]. by rewrite lookup_insert_ne.
Qed.

Lemma bind_Ret {A B} (m : Io A) (k : A -> Io B) w b w' :
  io_bind m k w = (Ret b, w') -> exists a w1, m w = (Ret a, w1) /\ k a w1 = (Ret b, w').
Proof. unfold io_bind. destruct (m w) as [[a|e| |] w1]; intros H; simplify_eq. eauto. Qed.

Lemma bind_ok {A B} (m : Io A) (k : A -> Io B) w a w1 :
  m w = (Ret a, w1) -> io_bind m k w = k a w1.
Proof. unfold io_bind. by intros ->. Qed.

Section Safety.
Context (sha256_hex : bytes -> bytes) (env : Env) (cfg : DownloadConfig).

(** Content whose digest is the configured one. *)
Definition verified (o : option bytes) : Prop :=
  exists c, o = Some c /\ normalize_sha256 (checksum cfg) = Ok (sha256_hex c).

(** The output file is as before, gone, or verified. *)
Definition out_safe (w w' : World) : Prop :=
  files w' !! output_path cfg = files w !! output_path cfg
  \/ files w' !! output_path cfg = None
  \/ verified (files w' !! output_path cfg).

Definition safe {A} (m : Io A) : Prop := forall w, out_safe w (m w).2.

Lemma out_safe_trans w1 w2 w3 : out_safe w1 w2 -> out_safe w2 w3 -> out_safe w1 w3.
Proof.
  unfold out_safe. intros H12 [E|[E|E]]; [|auto..]. rewrite E. destruct H12 as [H|[H|H]]; auto.
Qed.

Lemma safe_bind {A B} (m : Io A) (k : A -> Io B) :
  safe m -> (forall a, safe (k a)) -> safe (io_bind m k).
Proof.
  intros Hm Hk w. unfold io_bind. specialize (Hm w). destruct (m w) as [[a|e| |] w1]; try done.
  eapply out_safe_trans; [exact Hm|apply Hk].
Qed.

Lemma safe_same {A} (m : Io A) :
  (forall w, files (m w).2 !! output_path cfg = files w !! output_path cfg) -> safe m.
Proof. intros H w. left. apply H. Qed.

Lemma safe_lift {A} (r : result A) : safe (lift r).
Proof. apply safe_same. by destruct r. Qed.

Lemma safe_set f :
  (forall fs, f fs !! output_path cfg = fs !! output_path cfg) -> safe (set_files f).
Proof. intros H. apply safe_same. intros w. apply H. Qed.

Lemma verify_outcome path ck w :
  files (verify_checksum_at_path sha256_hex path ck w).2 = files w
  /\ match (verify_checksum_at_path sha256_hex path ck w).1 with
     | Ret _ => exists c, files w !! path = Some c /\ normalize_sha256 ck = Ok (sha256_hex c)
     | Fail _ => True
     | _ => False
     end.
Proof.
  unfold verify_checksum_at_path, io_bind, lift, read_file, record_checksum_failure, io_ret, io_fail.
  destruct (normalize_sha256 ck) as [e|e]; [|done].
  destruct (files w !! path) as [c|]; [|done].
  destruct (bool_decide _) eqn:E; [done|]. apply bool_decide_eq_false in E.
  split; [done|]. exists c. split; [done|]. f_equal. symmetry. by apply dec_stable.
Qed.

Lemma safe_verify path : safe (verify_checksum_at_path sha256_hex path (checksum cfg)).
Proof. apply safe_same. intros w. by rewrite (proj1 (verify_outcome path _ w)). Qed.

(** A verified temporary file may be moved into place. *)
Lemma safe_verify_rename (k : Io ()) :
  safe k ->
  safe (io! _ := verify_checksum_at_path sha256_hex (temp_output_path env cfg) (checksum cfg) in
        io! _ := rename (temp_output_path env cfg) (output_path cfg) in k).
Proof.
  intros Hk w. unfold io_bind at 1.
  destruct (verify_outcome (temp_output_path env cfg) (checksum cfg) w) as [Hf Ho].
  destruct (verify_checksum_at_path _ _ _ w) as [[[]|e| |] w1]; cbn [fst snd] in *; try (by left; rewrite Hf).
  destruct Ho as (c & Hc & Hn). rewrite <- Hf in Hc.
  unfold io_bind at 1, rename, io_bind at 1, read_file. rewrite Hc. cbn.
  eapply out_safe_trans; [|apply Hk]. right. right. exists c. split; [|done].
  cbn. apply lookup_insert_eq.
Qed.

Lemma safe_ret {A} (a : A) : safe (io_ret a).
Proof. by apply safe_same. Qed.

Lemma safe_fail {A} e : safe (io_fail (A := A) e).
Proof. by apply safe_same. Qed.

Lemma safe_read p : safe (read_file p).
Proof. by apply safe_same. Qed.

Lemma safe_delete_temp : safe (set_files (delete (temp_output_path env cfg))).
Proof. apply safe_set. intros fs. apply lookup_delete_ne, temp_ne_output. Qed.

Lemma safe_rename_end :
  safe (io! _ := verify_checksum_at_path sha256_hex (temp_output_path env cfg) (checksum cfg) in
        rename (temp_output_path env cfg) (output_path cfg)).
Proof.
  intros w. pose proof (safe_verify_rename (io_ret ()) (safe_ret ()) w) as H.
  unfold io_bind at 1 in H. unfold io_bind at 1.
  destruct (verify_checksum_at_path _ _ _ w) as [[[]|e| |] w1]; try done.
  unfold io_bind in H. by destruct (rename _ _ w1) as [[[]|e| |] w2].
Qed.
End Safety.

#[export] Hint Resolve safe_lift safe_verify safe_ret safe_fail safe_read safe_delete_temp
  safe_rename_end : gpuf.

(** Safety of a program by its structure. *)
Ltac safe_steps :=
  repeat first
    [ solve [eauto with gpuf]
    | apply safe_bind; [|intros ?]
    | match goal with
      | |- safe _ _ (if ?b then _ else _) => destruct b
      | |- safe _ _ (match ?o with _ => _ end) => destruct o
      end ].

Section Safety2.
Context (sha256_hex : bytes -> bytes) (env : Env) (cfg : DownloadConfig).
#[local] Abbreviation safe := (safe sha256_hex cfg).

Lemma safe_fetch chunks : safe (fetch_chunks env (parts_dir cfg) chunks).
Proof.
  apply safe_same. intros w. unfold fetch_chunks. pose proof (part_ne_output cfg) as Hp.
  destruct (failures _) as [|f fs]; [|destruct (default f _) as [i e]];
    cbn [fst snd files]; rewrite write_results_other, trim_parts_other by done; done.
Qed.

Lemma safe_assemble n : safe (assemble_parts (parts_dir cfg) (temp_output_path env cfg) n).
Proof.
  apply safe_same. intros w. unfold assemble_parts.
  destruct (assemble_loop _ _ _) as [c [[]|e]]; cbn; apply lookup_insert_ne, temp_ne_output.
Qed.

Lemma safe_remove_parts : safe (set_files (remove_dir_all (parts_dir cfg))).
Proof. apply safe_set. intros fs. apply remove_parts_output. Qed.

Lemma safe_re_download : safe (re_download env cfg).
Proof.
  unfold re_download. apply safe_bind.
  - unfold safe_remove_output_file. safe_steps.
    intros w. right. left. cbn. apply lookup_delete_eq.
  - intros _. apply safe_bind; [apply safe_remove_parts|intros; apply safe_ret].
Qed.

Lemma safe_download_chunks chunks : safe (download_chunks sha256_hex env cfg chunks).
Proof.
  unfold download_chunks. apply safe_bind; [apply safe_lift|intros _].
  apply safe_bind; [|intros _].
  { destruct (_ && _); [|apply safe_ret]. apply safe_same. intros w. cbn.
    apply trim_parts_other, part_ne_output. }
  apply safe_bind; [apply safe_fetch|intros _].
  apply safe_bind; [apply safe_delete_temp|intros _].
  apply safe_bind; [apply safe_assemble|intros _].
  apply safe_verify_rename, safe_remove_parts.
Qed.

Lemma safe_simple_download : safe (simple_download sha256_hex env cfg).
Proof.
  unfold simple_download. apply safe_bind; [apply safe_read|intros existing].
  apply safe_bind; [apply safe_lift|intros response].
  destruct (_ && _); [apply safe_verify|]. destruct (_ && _); [apply safe_fail|].
  apply safe_bind; [safe_steps|intros _]. apply safe_bind; [safe_steps|intros _].
  apply safe_bind; [apply safe_read|intros temp]. destruct (drain _ _) as [d r].
  apply safe_bind; [apply safe_set; intros fs; apply lookup_insert_ne, temp_ne_output|intros _].
  apply safe_bind; [apply safe_lift|intros _]. apply safe_rename_end.
Qed.

Lemma safe_check_existing d n : safe (check_existing sha256_hex env cfg d n).
Proof.
  assert (safe (io! z := re_download env cfg in io_ret (Some z))) as Hre
    by (apply safe_bind; [apply safe_re_download|intros; apply safe_ret]).
  unfold check_existing. destruct (_ <? _); [done|]. destruct (_ && _); [|apply safe_ret].
  intros w. pose proof (safe_verify sha256_hex cfg (output_path cfg) w) as H.
  unfold verify_checksum. destruct (verify_checksum_at_path _ _ _ w) as [[[]|e| |] w1]; try done.
  eapply out_safe_trans; [exact H|apply Hre].
Qed.

Lemma safe_download : safe (download sha256_hex env cfg).
Proof.
  unfold download. apply safe_bind; [apply safe_lift|intros _].
  apply safe_bind; [apply safe_lift|intros _]. apply safe_bind; [apply safe_lift|intros n].
  destruct (_ =? _); [apply safe_simple_download|].
  apply safe_bind; [apply safe_read|intros existing]. apply safe_bind; [safe_steps|intros _].
  apply safe_bind; [apply safe_check_existing|intros [d|]]; [|apply safe_ret].
  destruct (_ <? _); [apply safe_simple_download|]. destruct (_ =? _); [apply safe_ret|].
  destruct (calculate_chunks _ _ _ _); [|by apply safe_same].
  apply safe_bind; [apply safe_download_chunks|intros _]. apply safe_verify.
Qed.

(** *** What success means *)

Lemma verify_Ret path ck w a w' :
  verify_checksum_at_path sha256_hex path ck w = (Ret a, w') ->
  files w' = files w /\ exists c, files w !! path = Some c /\ normalize_sha256 ck = Ok (sha256_hex c).
Proof.
  intros E. destruct (verify_outcome sha256_hex path ck w) as [H1 H2]. by rewrite E in H1, H2.
Qed.

Lemma simple_Ret w w' :
  simple_download sha256_hex env cfg w = (Ret (), w') ->
  verified sha256_hex cfg (files w' !! output_path cfg).
Proof.
  unfold simple_download. intros (existing & w1 & _ & H)%bind_Ret.
  apply bind_Ret in H as (response & w2 & _ & H).
  destruct (_ && _).
  { apply verify_Ret in H as (-> & c & Hc & Hn). by exists c. }
  destruct (_ && _); [done|]. apply bind_Ret in H as (? & w3 & _ & H).
  apply bind_Ret in H as (? & w4 & _ & H). apply bind_Ret in H as (temp & w5 & _ & H).
  destruct (drain _ _) as [d r]. apply bind_Ret in H as (? & w6 & _ & H).
  apply bind_Ret in H as (? & w7 & _ & H).
  apply bind_Ret in H as (? & w8 & (Hf & c & Hc & Hn)%verify_Ret & H).
  unfold rename in H. apply bind_Ret in H as (f & w9 & [= <- <-] & H).
  rewrite Hf, Hc in H. injection H as <-. exists c. split; [|done]. cbn. apply lookup_insert_eq.
Qed.

Lemma check_existing_None d n w w' :
  check_existing sha256_hex env cfg d n w = (Ret None, w') ->
  verified sha256_hex cfg (files w' !! output_path cfg).
Proof.
  assert (forall w1, (io! z := re_download env cfg in io_ret (Some z)) w1 <> (Ret None, w')) as Hre.
  { intros w1 (z & w2 & _ & H)%bind_Ret. discriminate. }
  unfold check_existing. destruct (_ <? _); [by intros H%Hre|]. destruct (_ && _); [|done].
  unfold verify_checksum. destruct (verify_checksum_at_path _ _ _ w) as [[[]|e| |] w1] eqn:E; try done.
  - intros [= <-]. apply verify_Ret in E as (-> & c & Hc & Hn). by exists c.
  - by intros H%Hre.
Qed.

Lemma check_existing_Some d n w z w' :
  check_existing sha256_hex env cfg d n w = (Ret (Some z), w') -> z = d \/ z = 0.
Proof.
  assert (forall w1, (io! z := re_download env cfg in io_ret (Some z)) w1 = (Ret (Some z), w') ->
    z = 0) as Hre.
  { intros w1 (z' & w2 & H & [= -> ->])%bind_Ret. unfold re_download in H.
    apply bind_Ret in H as (? & w3 & _ & H). by apply bind_Ret in H as (? & w4 & _ & [= <- _]). }
  unfold check_existing. destruct (_ <? _); [by intros H%Hre; right|].
  destruct (_ && _); [|intros [= <- _]; by left].
  destruct (verify_checksum _ _ _ w) as [[[]|e| |] w1]; try done. intros H%Hre. by right.
Qed.
End Safety2.

(** [C12] The downloader never leaves an unverified file in place: whatever the server sends, however
    the parallel tasks are scheduled and whatever part, temporary or output files an earlier
    run left, after [download] the output file is the one that was there before, is gone, or
    has exactly the configured SHA-256 digest; and when the download reports success it exists
    and has that digest. *)
Theorem download_only_installs_verified (sha256_hex : bytes -> bytes) (env : Env)
    (cfg : DownloadConfig) (w : World) :
  let r := download sha256_hex env cfg w in
  out_safe sha256_hex cfg w r.2
  /\ (r.1 = Ret () -> verified sha256_hex cfg (files r.2 !! output_path cfg)).
Proof.
  intros r. split; [apply safe_download|]. unfold r.
  destruct (download sha256_hex env cfg w) as [o w'] eqn:E. cbn [fst snd]. intros ->.
  unfold download in E. apply bind_Ret in E as (? & w1 & _ & E).
  apply bind_Ret in E as (? & w2 & _ & E). apply bind_Ret in E as (n & w3 & _ & E).
  destruct (Z.eqb_spec n 0) as [|Hn]; [by eapply simple_Ret|].
  apply bind_Ret in E as (existing & w4 & _ & E). apply bind_Ret in E as (? & w5 & _ & E).
  apply bind_Ret in E as ([d|] & w6 & Hc & E).
  2: { injection E as <-. by eapply check_existing_None. }
  destruct (Z.ltb_spec 0 d) as [|Hd]; [by eapply simple_Ret|].
  apply check_existing_Some in Hc.
  assert (d = 0) as ->.
  { destruct Hc as [->|]; [|done]. destruct (resume cfg); [|done].
    destruct existing as [ex|]; cbn in *; [pose proof (blen_nonneg ex)|]; lia. }
  destruct (Z.eqb_spec (n - 0) 0); [lia|].
  destruct (calculate_chunks _ _ _ _); [|done].
  apply bind_Ret in E as (? & w7 & _ & E).
  apply verify_Ret in E as (-> & c & Hcc & Hnn). by exists c.
Qed.

(** *** Resuming interrupted downloads *)

Section Resume.
Context (content : bytes).

(** The bytes from [s] to [e], both included. *)
Definition range (s e : Z) : bytes := take (Z.to_nat (e - s + 1)) (drop (Z.to_nat s) content).
Definition slice_of (c : DownloadChunk) : bytes := range (ch_start c) (ch_end c).
Definition in_file (c : DownloadChunk) : Prop := 0 <= ch_start c <= ch_end c /\ ch_end c < blen content.

(** A server that has the file and may stop anywhere: a partial response delivers a beginning of
    the range it was asked for, and all of it when the body ends without an error. *)
Definition honest (env : Env) : Prop :=
  forall s e, 0 <= s <= e -> e < blen content ->
    match srv env (ReqRange s (Some e)) with
    | Err _ => True
    | Ok r => status r = 206 -> forall msg,
        (drain msg (body r)).1 `prefix_of` range s e
        /\ ((drain msg (body r)).2 = Ok () -> (drain msg (body r)).1 = range s e)
    end.

(** A server that also delivers every range. *)
Definition responsive (env : Env) : Prop :=
  forall s e, 0 <= s <= e -> e < blen content ->
    exists r, srv env (ReqRange s (Some e)) = Ok r /\ status r = 206
      /\ forall msg, (drain msg (body r)).2 = Ok ().

Lemma length_range s e : 0 <= s <= e -> e < blen content -> blen (range s e) = e - s + 1.
Proof. intros Hs He. unfold range, blen in *. rewrite length_take, length_drop. lia. Qed.

Lemma range_rest s e (d : bytes) :
  0 <= s <= e -> e < blen content -> d `prefix_of` range s e ->
  range s e = d ++ range (s + blen d) e.
Proof.
  intros Hs He Hd. pose proof (length_range s e Hs He) as Hl.
  pose proof (prefix_length _ _ Hd) as Hle. destruct Hd as [k Hk]. rewrite Hk. f_equal.
  unfold blen in *. assert (k = drop (length d) (range s e)) as -> by (by rewrite Hk, drop_app_length).
  unfold range. rewrite skipn_firstn_comm, drop_drop. f_equal; [|f_equal]; lia.
Qed.

Lemma range_empty s e : e < s -> range s e = [].
Proof. intros H. unfold range. replace (Z.to_nat (e - s + 1)) with 0%nat by lia. done. Qed.

(** One task: what the part file holds afterwards. *)
Lemma chunk_task env c (d0 : bytes) :
  honest env -> in_file c -> d0 `prefix_of` slice_of c ->
  let '(od, res) := download_chunk_to_part env c (blen d0) in
  (forall d, od = Some d -> d0 ++ d `prefix_of` slice_of c)
  /\ (res = Ok () -> d0 ++ default [] od = slice_of c)
  /\ (od = None -> res = Ok () -> d0 <> [])
  /\ (responsive env -> res = Ok ()).
Proof.
  intros Hh [Hs He] Hd. pose proof (prefix_length _ _ Hd) as Hle.
  pose proof (length_range _ _ Hs He) as Hl. unfold slice_of in *.
  pose proof (range_rest _ _ _ Hs He Hd) as Hrest.
  assert (blen d0 <= chunk_len c) as Hdl by (unfold chunk_len, blen in *; lia).
  unfold download_chunk_to_part. rewrite Z.min_l by done. pose proof (blen_nonneg d0).
  destruct (Z.ltb_spec (ch_end c) (ch_start c + blen d0)) as [Hfull|Hpart].
  - split; [done|]. split; [|split; [|done]].
    + intros _. cbn. rewrite (range_empty (ch_start c + blen d0)) in Hrest by done. by rewrite Hrest.
    + intros _ _ ->. unfold blen in Hfull. cbn in Hfull. lia.
  - specialize (Hh (ch_start c + blen d0) (ch_end c) ltac:(lia) He).
    assert (responsive env -> exists r,
      srv env (ReqRange (ch_start c + blen d0) (Some (ch_end c))) = Ok r /\ status r = 206
      /\ forall msg, (drain msg (body r)).2 = Ok ()) as Hr by (intros H'; apply H'; lia).
    destruct (srv env _) as [r|e].
    2: { split; [done|]. split; [done|]. split; [done|]. intros (r & [=] & _)%Hr. }
    destruct (Z.eqb_spec (status r) 206) as [E|E]; cbn [negb].
    2: { split; [done|]. split; [done|]. split; [done|]. intros (r' & [= <-] & ? & _)%Hr. done. }
    specialize (Hh E b!"Chunk download stalled (timeout waiting for data)").
    destruct (drain _ (body r)) as [d res] eqn:Ed. cbn [fst snd] in Hh. destruct Hh as [Hp Hfull].
    split; [|split; [|split; [done|]]].
    + intros ? [= <-]. rewrite Hrest. by apply prefix_app.
    + intros ->. cbn. by rewrite Hrest, Hfull.
    + intros (r' & [= <-] & _ & Hok)%Hr. specialize (Hok b!"Chunk download stalled (timeout waiting for data)").
      by rewrite Ed in Hok.
Qed.

(** *** The part files *)
Context (dir : bytes) (cs : list DownloadChunk).

Definition parts_ok (fs : gmap bytes bytes) : Prop :=
  forall c d, c ∈ cs -> fs !! part_path dir (ch_index c) = Some d -> d `prefix_of` slice_of c.

Lemma trim_parts_ok fs : Forall in_file cs -> parts_ok fs -> trim_parts dir cs fs = fs.
Proof.
  unfold parts_ok, trim_parts. induction cs as [|c l IH]; intros Hin Hok; [done|].
  apply Forall_cons in Hin as [[Hs He] Hin]. cbn [fold_left].
  assert (forall d, fs !! part_path dir (ch_index c) = Some d -> (blen d <=? chunk_len c) = true) as Hd.
  { intros d Hf. apply Z.leb_le. specialize (Hok c d ltac:(by left) Hf).
    apply prefix_length in Hok. pose proof (length_range _ _ Hs He).
    unfold slice_of, chunk_len, blen in *. lia. }
  destruct (fs !! part_path dir (ch_index c)) as [d|]; [rewrite (Hd d eq_refl)|];
    apply IH; try done; intros c' d' Hc'; apply Hok; by right.
Qed.

Lemma write_results_lookup f rs fs c d r :
  NoDup (ch_index <$> rs.*1) -> (c, (d, r)) ∈ rs ->
  write_results dir f rs fs !! part_path dir (ch_index c)
  = append_file (part_path dir (ch_index c)) (f c d) fs !! part_path dir (ch_index c).
Proof.
  unfold write_results. revert fs. induction rs as [|[c' [d' r']] rs IH]; intros fs Hnd Hin.
  { by apply not_elem_of_nil in Hin. }
  cbn [fmap list_fmap] in Hnd. apply NoDup_cons in Hnd as [Hni Hnd]. cbn [fold_left fst snd] in *.
  apply elem_of_cons in Hin as [E|Hin].
  - injection E as <- <- <-. fold (write_results dir f rs
      (append_file (part_path dir (ch_index c)) (f c d) fs)).
    generalize (append_file (part_path dir (ch_index c)) (f c d) fs). intros fs'.
    clear IH. unfold write_results. revert fs'. induction rs as [|[c2 [d2 r2]] rs IH2]; intros fs'; [done|].
    cbn [fmap list_fmap fold_left fst snd] in *. apply not_elem_of_cons in Hni as [Hne Hni].
    apply NoDup_cons in Hnd as [_ Hnd]. rewrite IH2 by done.
    unfold append_file. destruct (f c2 d2); [|done]. apply lookup_insert_ne.
    by intros H%part_path_inj.
  - rewrite IH by done.
    assert (ch_index c <> ch_index c') as Hne.
    { intros Hc. apply Hni. rewrite <- Hc. apply list_elem_of_fmap_2, (list_elem_of_fmap_2 fst _ _ Hin). }
    unfold append_file. destruct (f c d), (f c' d'); rewrite ?lookup_insert_eq; try done;
      rewrite ?lookup_insert_ne by (intros H%part_path_inj; by apply Hne); done.
Qed.
End Resume.

Section Tasks.
Context (content dir : bytes) (cs : list DownloadChunk).

(** What is known of each task's result. *)
Lemma chunk_results_in env fs c d r :
  (c, (d, r)) ∈ chunk_results env dir cs fs ->
  c ∈ cs /\ (d, r) = download_chunk_to_part env c (part_len dir fs c).
Proof. unfold chunk_results. intros (c' & [= -> H] & Hc)%list_elem_of_fmap. done. Qed.

Lemma in_chunk_results env fs c :
  c ∈ cs -> exists d r, (c, (d, r)) ∈ chunk_results env dir cs fs.
Proof.
  intros Hc. destruct (download_chunk_to_part env c (part_len dir fs c)) as [d r] eqn:E.
  exists d, r. apply list_elem_of_fmap. exists c. by rewrite E.
Qed.

Lemma failures_nil rs : failures rs = [] <-> forall c d r, (c, (d, r)) ∈ rs -> r = Ok ().
Proof.
  unfold failures. induction rs as [|[c [d r]] rs IH]; cbn [omap list_omap].
  - split; [|done]. intros _ c d r H. by apply not_elem_of_nil in H.
  - cbn [snd]. destruct r as [[]|e].
    + rewrite IH. split; intros H c' d' r'; [intros [E|Hin]%elem_of_cons|].
      * by injection E as -> -> ->.
      * by eapply H.
      * intros Hin. eapply H. by right.
    + split; [done|]. intros H. specialize (H c d (Err e) ltac:(by left)). done.
Qed.

Context (Hnd : NoDup (ch_index <$> cs)) (Hin : Forall (in_file content) cs).

Lemma results_NoDup env fs : NoDup (ch_index <$> (chunk_results env dir cs fs).*1).
Proof. unfold chunk_results. rewrite <- !list_fmap_compose. exact Hnd. Qed.

(** Whatever each task managed to write, the part files stay beginnings of their slices. *)
Lemma written_parts_ok env fs f :
  honest content env -> parts_ok content dir cs fs ->
  (forall c d d', f c d = Some d' -> exists k, d = Some (d' ++ k)) ->
  parts_ok content dir cs (write_results dir f (chunk_results env dir cs fs) fs).
Proof.
  intros Hh Hok Hf c x Hc Hx. destruct (in_chunk_results env fs c Hc) as (d & r & Hr).
  rewrite (write_results_lookup dir f _ fs c d r (results_NoDup env fs) Hr) in Hx.
  apply chunk_results_in in Hr as [_ Hr]. unfold part_len in Hr.
  set (old := default [] (fs !! part_path dir (ch_index c))).
  assert (old `prefix_of` slice_of content c) as Hold.
  { unfold old. destruct (fs !! _) as [d0|] eqn:E0; [by eapply Hok|apply prefix_nil]. }
  assert (from_option blen 0 (fs !! part_path dir (ch_index c)) = blen old) as Hlen
    by (unfold old; by destruct (fs !! _)).
  rewrite Hlen in Hr.
  pose proof (chunk_task content env c old Hh (proj1 (Forall_forall _ _) Hin c Hc) Hold) as Ht.
  rewrite <- Hr in Ht. destruct Ht as (Ht & _). unfold append_file in Hx.
  destruct (f c d) as [d'|] eqn:Efc; [|by eapply Hok].
  rewrite lookup_insert_eq in Hx. injection Hx as <-. fold old.
  destruct (Hf c d d' Efc) as [k ->]. specialize (Ht _ eq_refl).
  rewrite app_assoc in Ht. by eapply prefix_app_l.
Qed.

Lemma fetch_spec env w :
  honest content env -> parts_ok content dir cs (files w) ->
  exists o w', fetch_chunks env dir cs w = (o, w')
    /\ parts_ok content dir cs (files w')
    /\ (forall p, (forall i, part_path dir i <> p) -> files w' !! p = files w !! p)
    /\ match o with
       | Ret _ => forall c, c ∈ cs ->
                    files w' !! part_path dir (ch_index c) = Some (slice_of content c)
       | Fail _ => ~ responsive content env
       | _ => False
       end.
Proof.
  intros Hh Hok. unfold fetch_chunks. rewrite (trim_parts_ok content) by done.
  set (rs := chunk_results env dir cs (files w)).
  assert (responsive content env -> failures rs = []) as Hresp.
  { intros Hr. apply failures_nil. intros c d r Hc%chunk_results_in. destruct Hc as [Hc E].
    unfold part_len in E. set (old := default [] (files w !! part_path dir (ch_index c))).
    assert (from_option blen 0 (files w !! part_path dir (ch_index c)) = blen old) as Hlen
      by (unfold old; by destruct (files w !! _)).
    rewrite Hlen in E.
    assert (old `prefix_of` slice_of content c) as Hold.
    { unfold old. destruct (files w !! _) as [d0|] eqn:E0; [by eapply Hok|apply prefix_nil]. }
    pose proof (chunk_task content env c old Hh (proj1 (Forall_forall _ _) Hin c Hc) Hold) as Ht.
    rewrite <- E in Ht. by apply Ht. }
  destruct (failures rs) as [|f fails] eqn:Ef.
  - eexists _, _. split; [done|]. cbn [files]. split; [|split].
    + apply written_parts_ok; [done..|]. intros c d d' ->. exists []. by rewrite app_nil_r.
    + intros p Hp. by apply write_results_other.
    + intros c Hc. destruct (in_chunk_results env (files w) c Hc) as (d & r & Hr).
      rewrite (write_results_lookup dir _ _ _ c d r (results_NoDup env _) Hr).
      assert (r = Ok ()) as -> by (by eapply (proj1 (failures_nil rs) Ef)).
      apply chunk_results_in in Hr as [_ Hr]. unfold part_len in Hr.
      destruct (files w !! part_path dir (ch_index c)) as [d0|] eqn:E0; cbn in Hr.
      * pose proof (chunk_task content env c d0 Hh (proj1 (Forall_forall _ _) Hin c Hc)
          (Hok c d0 Hc E0)) as Ht. rewrite <- Hr in Ht. destruct Ht as (_ & Ht & _).
        specialize (Ht eq_refl). unfold append_file. destruct d as [d|]; cbn in Ht.
        -- rewrite lookup_insert_eq, E0. cbn. by rewrite Ht.
        -- rewrite app_nil_r in Ht. by rewrite E0, Ht.
      * pose proof (chunk_task content env c [] Hh (proj1 (Forall_forall _ _) Hin c Hc)
          (prefix_nil _)) as Ht. change (blen []) with 0 in Ht. rewrite <- Hr in Ht.
        destruct Ht as (_ & Ht & Hne & _). specialize (Ht eq_refl). unfold append_file.
        destruct d as [d|]; [|by specialize (Hne eq_refl eq_refl)].
        rewrite lookup_insert_eq, E0. cbn in *. by rewrite Ht.
  - destruct (default f _) as [i e]. eexists _, _. split; [done|]. cbn [files]. split; [|split].
    + apply written_parts_ok; [done..|]. intros c d d'. unfold aborted.
      destruct (ch_index c =? i)%nat; [intros ->; exists []; by rewrite app_nil_r|].
      destruct (cut env (ch_index c)) as [n|], d as [d|]; try done. intros [= <-].
      exists (drop n d). by rewrite take_drop.
    + intros p Hp. by apply write_results_other.
    + intros Hr. by specialize (Hresp Hr).
Qed.

(** The slices of tiling chunks, in order, are the file. *)
Lemma tile_concat a b l :
  tile a b l -> 0 <= a -> b <= blen content ->
  concat (slice_of content <$> l) = take (Z.to_nat (b - a)) (drop (Z.to_nat a) content) /\ a <= b.
Proof.
  revert a. induction l as [|c l IH]; intros a Ht Ha Hb.
  - cbn in *. subst. rewrite Z.sub_diag. split; [done|lia].
  - destruct Ht as (Hs & He & Ht). destruct (IH _ Ht ltac:(lia) Hb) as [E Hle].
    cbn [fmap list_fmap concat]. rewrite E. unfold slice_of, range. rewrite Hs. split; [|lia].
    replace (Z.to_nat (b - a)) with (Z.to_nat (ch_end c - a + 1) + Z.to_nat (b - (ch_end c + 1)))%nat by lia.
    replace (Z.to_nat (ch_end c + 1)) with (Z.to_nat a + Z.to_nat (ch_end c - a + 1))%nat by lia.
    rewrite <- drop_drop. rewrite <- (take_drop (Z.to_nat (ch_end c - a + 1)) (drop (Z.to_nat a) content)) at 3.
    rewrite take_app_add'; [done|]. rewrite length_take, length_drop. unfold blen in Hb. lia.
Qed.

Lemma tile_in_file a b l :
  tile a b l -> 0 <= a -> b <= blen content -> Forall (in_file content) l.
Proof.
  revert a. induction l as [|c l IH]; intros a Ht Ha Hb; [constructor|].
  destruct Ht as (Hs & He & Ht). destruct (tile_concat _ _ _ Ht ltac:(lia) Hb) as [_ Hle].
  constructor; [|eapply IH; [done|lia|done]]. unfold in_file. lia.
Qed.

Lemma assemble_slices (fs : gmap bytes bytes) l :
  (forall c, c ∈ l -> fs !! part_path dir (ch_index c) = Some (slice_of content c)) ->
  assemble_loop dir fs (ch_index <$> l) = (concat (slice_of content <$> l), Ok ()).
Proof.
  induction l as [|c l IH]; intros H; [done|]. cbn [fmap list_fmap assemble_loop concat].
  rewrite (H c) by (by left). rewrite IH; [done|]. intros c' Hc'. apply H. by right.
Qed.
End Tasks.

(** *** Whole attempts *)

Section Attempts.
Context (sha256_hex : bytes -> bytes) (cfg : DownloadConfig) (content : bytes).

(** The surroundings of an attempt: the path is accepted, directories can be created and
    the size query gives the size of the file. *)
Definition attempt_ok (env : Env) : Prop :=
  validate_output_path env (output_path cfg) = Ok ()
  /\ (forall p, create_dir_all env p = Ok ())
  /\ get_file_size env = Ok (blen content).

Context (expected : bytes) (Hck : normalize_sha256 (checksum cfg) = Ok expected)
        (Hcs : 0 < chunk_size cfg) (Hpc : 0 < parallel_chunks cfg) (Hne : 0 < blen content).
Context (cs : list DownloadChunk)
        (Hcalc : calculate_chunks cfg 0 (blen content) (blen content) = Some cs).

Lemma the_chunks :
  tile 0 (blen content) cs /\ ch_index <$> cs = seq 0 (length cs)
  /\ NoDup (ch_index <$> cs) /\ Forall (in_file content) cs
  /\ concat (slice_of content <$> cs) = content /\ cs <> [].
Proof.
  destruct (calculate_chunks_spec cfg 0 (blen content) (blen content) Hcs Hpc Hne)
    as (cs' & E & Ht & Hi & Hl & _); [lia|]. rewrite Hcalc in E. injection E as <-.
  split; [done|]. split; [done|]. split; [rewrite Hi; apply NoDup_seq|].
  split; [by apply (tile_in_file content 0 (blen content))|].
  split; [|intros ->; unfold blen in Hl; cbn in Hl; lia].
  destruct (tile_concat content 0 (blen content) cs Ht) as [-> _]; [lia..|].
  rewrite Z.sub_0_r. unfold blen. rewrite Nat2Z.id, drop_0, firstn_all. done.
Qed.

(** Without an output file the download is the parallel one. *)
Lemma download_fresh env w :
  attempt_ok env -> files w !! output_path cfg = None ->
  download sha256_hex env cfg w
  = (io! _ := download_chunks sha256_hex env cfg cs in
     verify_checksum sha256_hex cfg (checksum cfg)) w.
Proof.
  intros (Hv & Hd & Hs) Hout. unfold download. rewrite Hck, Hv, Hs.
  cbn [lift io_bind]. unfold io_bind at 1 2 3, io_ret.
  destruct (Z.eqb_spec (blen content) 0); [lia|].
  unfold io_bind at 1, read_file. rewrite Hout. cbn [from_option].
  replace (if resume cfg then 0 else 0) with 0 by (by destruct (resume cfg)).
  unfold io_bind at 1.
  assert ((match path_parent (output_path cfg) with
           | Some parent => lift (create_dir_all env parent) | None => fun w => (Ret (), w) end) w
          = (Ret (), w)) as ->
    by (destruct (path_parent _); [rewrite Hd|]; done).
  unfold io_bind at 1, check_existing.
  rewrite (proj2 (Z.ltb_ge _ _)) by lia. rewrite (proj2 (Z.eqb_neq 0 _)) by lia.
  cbn [andb]. unfold io_ret. cbn [Z.ltb Z.compare].
  rewrite Z.sub_0_r, (proj2 (Z.eqb_neq (blen content) 0)) by lia. by rewrite Hcalc.
Qed.

(** After the parts are complete, assembling, verifying and moving them cannot fail. *)
Lemma finish_parts env w :
  expected = sha256_hex content ->
  (forall c, c ∈ cs -> files w !! part_path (parts_dir cfg) (ch_index c) = Some (slice_of content c)) ->
  exists w',
    (io! _ := set_files (delete (temp_output_path env cfg)) in
     io! _ := assemble_parts (parts_dir cfg) (temp_output_path env cfg) (length cs) in
     io! _ := verify_checksum_at_path sha256_hex (temp_output_path env cfg) (checksum cfg) in
     io! _ := rename (temp_output_path env cfg) (output_path cfg) in
     set_files (remove_dir_all (parts_dir cfg))) w = (Ret (), w')
    /\ files w' !! output_path cfg = Some content.
Proof.
  intros Hsha Hparts. destruct the_chunks as (_ & Hi & _ & _ & Hcc & _).
  unfold io_bind at 1, set_files at 1. unfold io_bind at 1, assemble_parts. cbn [files metrics].
  rewrite <- Hi, (assemble_slices content).
  2: { intros c Hc. rewrite lookup_delete_ne by (apply not_eq_sym, part_ne_temp). by apply Hparts. }
  rewrite Hcc. cbn [lift]. unfold io_ret, io_bind at 1.
  unfold verify_checksum_at_path, io_bind at 1. rewrite Hck. cbn [lift]. unfold io_ret, io_bind at 1.
  unfold read_file at 1. cbn [files]. rewrite lookup_insert_eq, Hsha.
  rewrite bool_decide_false by (intros H; by apply H).
  unfold io_bind at 1, rename, io_bind at 1, read_file. cbn [files]. rewrite lookup_insert_eq.
  unfold set_files. eexists. split; [done|]. cbn [files].
  rewrite remove_parts_output. apply lookup_insert_eq.
Qed.

Lemma attempt_spec env w :
  attempt_ok env -> honest content env -> expected = sha256_hex content ->
  files w !! output_path cfg = None -> parts_ok content (parts_dir cfg) cs (files w) ->
  exists o w', download sha256_hex env cfg w = (o, w')
    /\ match o with
       | Ret _ => files w' !! output_path cfg = Some content
       | Fail _ => files w' !! output_path cfg = None
                   /\ parts_ok content (parts_dir cfg) cs (files w') /\ ~ responsive content env
       | _ => False
       end.
Proof.
  intros Hat Hh Hsha Hout Hok. rewrite download_fresh by done.
  destruct the_chunks as (_ & _ & Hnd & Hin & _ & Hcne). destruct Hat as (_ & Hd & _).
  unfold io_bind at 1, download_chunks. rewrite Hd. cbn [lift]. unfold io_bind at 1, io_ret.
  rewrite (proj2 (Z.eqb_neq (parallel_chunks cfg) 0)) by lia. cbn [andb].
  unfold io_bind at 1, io_ret. unfold io_bind at 1.
  destruct (fetch_spec content (parts_dir cfg) cs Hnd Hin env w Hh Hok)
    as (o & w1 & E & Hok1 & Hother & Ho). rewrite E. destruct o as [[]|e| |]; [| |done|done].
  - destruct (finish_parts env w1 Hsha Ho) as (w2 & E2 & Hc2). rewrite E2.
    exists (Ret ()), w2. split; [|done]. unfold verify_checksum, verify_checksum_at_path, io_bind at 1.
    rewrite Hck. cbn [lift]. unfold io_ret, io_bind, read_file. rewrite Hc2, Hsha.
    by rewrite bool_decide_false by (intros H; by apply H).
  - eexists _, _. split; [done|]. cbn. split; [|done].
    rewrite Hother; [done|]. apply part_ne_output.
Qed.
End Attempts.

(** Attempts one after the other until one succeeds; each meets its own surroundings. *)
Fixpoint attempts (sha256_hex : bytes -> bytes) (cfg : DownloadConfig) (envs : list Env) (w : World)
    : bool * World :=
  match envs with
  | [] => (false, w)
  | env :: envs' =>
      match download sha256_hex env cfg w with
      | (Ret _, w') => (true, w')
      | (_, w') => attempts sha256_hex cfg envs' w'
      end
  end.


(** *** A concrete server *)

Definition demo_content : bytes := b!"model-bytes".
Definition demo_hash (s : bytes) : bytes :=
  if bool_decide (s = demo_content) then replicate 64 Byte.x61 else replicate 64 Byte.x30.
Definition demo_cfg : DownloadConfig := mkConfig b!"/m/a.gguf" 2 4 (replicate 64 Byte.x61) true.

(** Delivers ranges, all of them or only two bytes and then nothing. *)
Definition demo_srv (whole : bool) (q : Request) : result Reply :=
  match q with
  | ReqHead => Ok (mkReply 200 (Some 11) None [])
  | ReqRange s (Some e) =>
      let d := range demo_content s e in
      Ok (mkReply 206 (Some (blen d)) None (if whole then [Data d] else [Data (take 2 d); Stall]))
  | ReqRange s None =>
      Ok (mkReply 206 None None [Data (drop (Z.to_nat s) demo_content)])
  | ReqGet => Ok (mkReply 200 None None [Data demo_content])
  end.

Definition demo_env (whole : bool) : Env :=
  mkEnv (demo_srv whole) (fun p => Ok p) (fun _ => Ok ()) false 7 (fun _ => Some 1%nat) 0.

Lemma demo_honest whole : honest demo_content (demo_env whole).
Proof.
  intros s e Hs He. cbn [srv demo_env demo_srv]. intros _ msg. destruct whole; cbn.
  - by rewrite app_nil_r.
  - rewrite app_nil_r. split; [|done]. exists (drop 2 (range demo_content s e)). by rewrite take_drop.
Qed.

Lemma demo_responsive : responsive demo_content (demo_env true).
Proof. intros s e Hs He. eexists. split; [done|]. done. Qed.

Lemma demo_attempt_ok whole : attempt_ok demo_cfg demo_content (demo_env whole).
Proof. split; [by destruct whole|]. split; [done|]. by destruct whole. Qed.


(** *** Downloads that cannot recover *)

Section Corrupt.
Context (sha256_hex : bytes -> bytes) (cfg : DownloadConfig) (content expected : bytes)
        (Hck : normalize_sha256 (checksum cfg) = Ok expected)
        (Hcs : 0 < chunk_size cfg) (Hpc : 0 < parallel_chunks cfg) (Hne : 0 < blen content)
        (cs : list DownloadChunk)
        (Hcalc : calculate_chunks cfg 0 (blen content) (blen content) = Some cs)
        (part_of : DownloadChunk -> bytes).

(** Every part file has the length of its chunk. *)
Definition parts_full (fs : gmap bytes bytes) : Prop :=
  forall c, c ∈ cs -> fs !! part_path (parts_dir cfg) (ch_index c) = Some (part_of c)
                      /\ blen (part_of c) = chunk_len c.

Lemma fetch_full env w :
  parts_full (files w) -> fetch_chunks env (parts_dir cfg) cs w = (Ret (), w).
Proof.
  intros Hfull. unfold fetch_chunks.
  assert (forall l, (forall c, c ∈ l -> c ∈ cs) -> trim_parts (parts_dir cfg) l (files w) = files w) as Htrim.
  { unfold trim_parts. induction l as [|c l IH]; intros Hl; [done|]. cbn [fold_left].
    destruct (Hfull c (Hl c ltac:(by left))) as [-> Hlen].
    rewrite (proj2 (Z.leb_le _ _)) by lia. apply IH. intros c' Hc'. apply Hl. by right. }
  rewrite Htrim by done.
  assert (forall l, (forall c, c ∈ l -> c ∈ cs) ->
    chunk_results env (parts_dir cfg) l (files w) = (fun c => (c, (None, Ok ()))) <$> l) as Hres.
  { intros l Hl. apply list_fmap_ext. intros i c Hc%list_elem_of_lookup_2.
    destruct (Hfull c (Hl c Hc)) as [E Hlen]. unfold part_len. rewrite E. cbn.
    unfold download_chunk_to_part. rewrite Hlen, Z.min_id. unfold chunk_len.
    by rewrite (proj2 (Z.ltb_lt _ _)) by lia. }
  rewrite Hres by done.
  assert (forall l, failures ((fun c => (c, (None, Ok ()))) <$> l) = []) as ->
    by (induction l as [|c l IH]; [done|apply IH]).
  assert (forall l fs, write_results (parts_dir cfg) (fun _ d => d)
    ((fun c => (c, (None, Ok ()))) <$> l) fs = fs) as -> by (induction l as [|c l IH]; [done|apply IH]).
  by destruct w.
Qed.

Lemma corrupt_attempt env w :
  attempt_ok cfg content env -> files w !! output_path cfg = None -> parts_full (files w) ->
  sha256_hex (concat (part_of <$> cs)) <> expected ->
  exists e w', download sha256_hex env cfg w = (Fail e, w')
    /\ files w' !! output_path cfg = None /\ parts_full (files w').
Proof.
  intros Hat Hout Hfull Hbad.
  rewrite (download_fresh sha256_hex cfg content expected Hck Hne cs Hcalc env w Hat Hout).
  destruct (the_chunks cfg content Hcs Hpc Hne cs Hcalc) as (_ & Hi & _ & _ & _ & Hcne).
  destruct Hat as (_ & Hd & _).
  unfold io_bind at 1, download_chunks. rewrite Hd. cbn [lift]. unfold io_bind at 1, io_ret.
  rewrite (proj2 (Z.eqb_neq (parallel_chunks cfg) 0)) by lia. cbn [andb].
  unfold io_bind at 1, io_ret. unfold io_bind at 1. rewrite fetch_full by done.
  unfold io_bind at 1, set_files at 1. unfold io_bind at 1, assemble_parts. cbn [files metrics].
  set (fs0 := delete (temp_output_path env cfg) (files w)).
  assert (parts_full fs0) as Hfull0.
  { intros c Hc. unfold fs0. rewrite lookup_delete_ne by (apply not_eq_sym, part_ne_temp).
    by apply Hfull. }
  rewrite <- Hi.
  assert (forall l, (forall c, c ∈ l -> c ∈ cs) ->
    assemble_loop (parts_dir cfg) fs0 (ch_index <$> l) = (concat (part_of <$> l), Ok ())) as ->.
  { induction l as [|c l IH]; intros Hl; [done|]. cbn [fmap list_fmap assemble_loop concat].
    destruct (Hfull0 c (Hl c ltac:(by left))) as [-> _]. rewrite IH; [done|].
    intros c' Hc'. apply Hl. by right. }
  2: done.
  cbn [lift]. unfold io_ret, io_bind at 1.
  unfold verify_checksum_at_path at 1, io_bind at 1. rewrite Hck. cbn [lift]. unfold io_ret, io_bind at 1.
  unfold read_file at 1. cbn [files]. rewrite lookup_insert_eq.
  rewrite bool_decide_true by done. unfold io_bind, record_checksum_failure, io_fail.
  eexists _, _. split; [done|]. cbn [files]. split.
  - rewrite lookup_insert_ne by apply temp_ne_output. unfold fs0.
    by rewrite lookup_delete_ne by apply temp_ne_output.
  - intros c Hc. rewrite lookup_insert_ne by (apply not_eq_sym, part_ne_temp). by apply Hfull0.
Qed.
End Corrupt.

(** Part files of full length with wrong content are never replaced: when the assembled parts
    do not have the configured digest, every later attempt fails, whatever the server would
    send, keeps the same part files and installs nothing. *)
Theorem corrupt_parts_block_download (sha256_hex : bytes -> bytes) (cfg : DownloadConfig)
    (content expected : bytes) (cs : list DownloadChunk) (part_of : DownloadChunk -> bytes)
    (envs : list Env) (w : World) :
  normalize_sha256 (checksum cfg) = Ok expected ->
  0 < chunk_size cfg -> 0 < parallel_chunks cfg -> 0 < blen content ->
  calculate_chunks cfg 0 (blen content) (blen content) = Some cs ->
  files w !! output_path cfg = None -> parts_full cfg cs part_of (files w) ->
  sha256_hex (concat (part_of <$> cs)) <> expected ->
  Forall (attempt_ok cfg content) envs ->
  exists w', attempts sha256_hex cfg envs w = (false, w')
    /\ files w' !! output_path cfg = None /\ parts_full cfg cs part_of (files w').
Proof.
  intros Hck Hcs Hpc Hne Hcalc Hout Hfull Hbad Hall. revert w Hout Hfull.
  induction Hall as [|env envs Hat Hall IH]; intros w Hout Hfull; [by exists w|].
  destruct (corrupt_attempt sha256_hex cfg content expected Hck Hcs Hpc Hne cs Hcalc part_of env w
    Hat Hout Hfull Hbad) as (e & w' & E & Hout' & Hfull'). cbn [attempts]. rewrite E. by apply IH.
Qed.

Definition demo_bad_parts : gmap bytes bytes :=
  <[part_path (parts_dir demo_cfg) 0 := b!"MODEL"]>
  (<[part_path (parts_dir demo_cfg) 1 := b!"-bytes"]> ∅).

Lemma corrupt_parts_block_download_witness :
  exists w', attempts demo_hash demo_cfg [demo_env true; demo_env true]
               (mkWorld demo_bad_parts SecurityMetrics_default) = (false, w')
    /\ files w' !! output_path demo_cfg = None
    /\ parts_full demo_cfg [mkChunk 0 4 0; mkChunk 5 10 1]
         (fun c => if decide (ch_index c = 0%nat) then b!"MODEL" else b!"-bytes") (files w').
Proof.
  apply (corrupt_parts_block_download demo_hash demo_cfg demo_content (replicate 64 Byte.x61)
    [mkChunk 0 4 0; mkChunk 5 10 1]
    (fun c => if decide (ch_index c = 0%nat) then b!"MODEL" else b!"-bytes"));
    [vm_compute; reflexivity|reflexivity|reflexivity|reflexivity|vm_compute; reflexivity
    |vm_compute; reflexivity| | |].
  - intros c [->|[->|[]%not_elem_of_nil]%elem_of_cons]%elem_of_cons; split; vm_compute; reflexivity.
  - vm_compute. discriminate.
  - repeat (constructor; [apply demo_attempt_ok|]). constructor.
Defined.

(** Resuming from a partial output file cannot succeed: the bytes received are written to a
    temporary file that does not hold the ones already there, so the digest is taken of the
    wrong content. The partial file stays, although followed by the received bytes it is
    exactly the server's file, and the bytes received stay in the temporary file. *)
Theorem partial_output_never_resumes (sha256_hex : bytes -> bytes) (env : Env)
    (cfg : DownloadConfig) (w : World) (content expected d received : bytes) (r : Reply) :
  normalize_sha256 (checksum cfg) = Ok expected -> attempt_ok cfg content env ->
  resume cfg = true -> 0 < blen d < blen content -> content = d ++ received ->
  files w !! output_path cfg = Some d ->
  srv env (ReqRange (blen d) None) = Ok r -> status r = 206 ->
  (forall msg, drain msg (body r) = (received, Ok ())) ->
  let temp := default [] (files w !! temp_output_path env cfg) in
  sha256_hex (temp ++ received) <> expected ->
  exists e w', download sha256_hex env cfg w = (Fail e, w')
    /\ files w' !! output_path cfg = Some d
    /\ files w' !! temp_output_path env cfg = Some (temp ++ received).
Proof.
  intros Hck (Hv & Hd & Hs) Hres Hlen Hcont Hout Hsrv Hst Hdrain temp Hbad.
  assert (forall w, (match path_parent (output_path cfg) with
           | Some parent => lift (create_dir_all env parent) | None => io_ret () end) w
          = (Ret (), w)) as Hmk
    by (intros; destruct (path_parent _); [rewrite Hd|]; done).
  pose proof (proj2 (Z.ltb_lt 0 (blen d)) ltac:(lia)) as Hpos.
  unfold download. rewrite (bind_ok _ _ w expected w) by (by rewrite Hck).
  rewrite (bind_ok _ _ w () w) by (by rewrite Hv).
  rewrite (bind_ok _ _ w (blen content) w) by (by rewrite Hs).
  destruct (Z.eqb_spec (blen content) 0); [lia|].
  rewrite (bind_ok _ _ w (Some d) w) by (unfold read_file; by rewrite Hout).
  rewrite Hres, (bind_ok _ _ w () w (Hmk w)).
  rewrite (bind_ok _ _ w (Some (blen d)) w).
  2: { unfold check_existing. cbn [from_option]. rewrite (proj2 (Z.ltb_ge _ _)) by lia.
       by rewrite (proj2 (Z.eqb_neq (blen d) _)) by lia. }
  rewrite Hpos. unfold simple_download.
  rewrite (bind_ok _ _ w (Some d) w) by (unfold read_file; by rewrite Hout).
  rewrite Hres. cbn [from_option]. rewrite Hpos, (bind_ok _ _ w r w) by (by rewrite Hsrv).
  rewrite Hst. change (is_success 206) with true. cbn [Z.eqb Pos.eqb andb negb].
  rewrite (bind_ok _ _ w () w (Hmk w)), (proj2 (Z.eqb_neq (blen d) 0)) by lia.
  rewrite (bind_ok _ _ w () w) by done.
  rewrite (bind_ok _ _ w (files w !! temp_output_path env cfg) w) by done.
  rewrite Hpos, Hdrain. fold temp.
  set (w1 := mkWorld (<[temp_output_path env cfg := temp ++ received]> (files w)) (metrics w)).
  rewrite (bind_ok _ _ w () w1), (bind_ok _ _ w1 () w1) by done.
  unfold io_bind at 1, verify_checksum_at_path.
  rewrite (bind_ok _ _ w1 expected w1) by (by rewrite Hck).
  rewrite (bind_ok _ _ w1 (Some (temp ++ received)) w1)
    by (unfold read_file; cbn [files w1]; by rewrite lookup_insert_eq).
  rewrite bool_decide_true by done. unfold io_bind, record_checksum_failure, io_fail.
  eexists _, _. split; [done|]. cbn [files w1]. split; [|apply lookup_insert_eq].
  by rewrite lookup_insert_ne by apply temp_ne_output.
Qed.

Definition demo_partial : World :=
  mkWorld {[output_path demo_cfg := b!"model"]} SecurityMetrics_default.

Lemma partial_output_never_resumes_witness :
  exists e w', download demo_hash (demo_env true) demo_cfg demo_partial = (Fail e, w')
    /\ files w' !! output_path demo_cfg = Some b!"model"
    /\ files w' !! temp_output_path (demo_env true) demo_cfg
       = Some (default [] (files demo_partial !! temp_output_path (demo_env true) demo_cfg)
               ++ b!"-bytes").
Proof.
  apply (partial_output_never_resumes demo_hash (demo_env true) demo_cfg
    demo_partial demo_content
    (replicate 64 Byte.x61) b!"model" b!"-bytes"
    (mkReply 206 None None [Data b!"-bytes"]));
    [vm_compute; reflexivity|apply demo_attempt_ok|reflexivity|split; reflexivity|reflexivity
    |vm_compute; reflexivity|reflexivity|reflexivity|intros; reflexivity|vm_compute; discriminate].
Defined.

Lemma same_path_refl p : same_path p p = true.
Proof. unfold same_path. rewrite eqb_reflx. by rewrite bool_decide_true. Qed.

(** The output path is accepted exactly when it has no parent reference, its directory can be
    created and resolved, it names a file, and that file has one of the three extensions; the
    check against leaving the parent directory never refuses anything, because it compares the
    resolved directory with itself. *)
Theorem output_path_policy (env : Env) (p : bytes) :
  validate_output_path env p = Ok () <->
    b!".." ∉ components p
    /\ exists parent c name, path_parent p = Some parent /\ create_dir_all env parent = Ok ()
         /\ canonicalize env parent = Ok c /\ file_name p = Some name
         /\ to_ascii_lowercase (default [] (e ← extension (path_join c name); from_utf8 e))
            ∈ [b!"gguf"; b!"bin"; b!"safetensors"].
Proof.
  unfold validate_output_path.
  destruct (existsb _ (components p)) eqn:Edots.
  { apply existsb_exists in Edots as (c & Hc & ->%bool_decide_eq_true).
    split; [done|]. intros [H _]. by apply list_elem_of_In in Hc. }
  assert (b!".." ∉ components p) as Hdots.
  { intros Hin. apply not_true_iff_false in Edots. apply Edots, existsb_exists.
    exists b!"..". split; [by apply list_elem_of_In|by apply bool_decide_eq_true]. }
  destruct (path_parent p) as [parent|] eqn:Ep.
  2: { split; [done|]. by intros (_ & ? & ? & ? & [=] & _). }
  destruct (create_dir_all env parent) as [[]|] eqn:Ec; cbn [rbind].
  2: { split; [done|]. intros (_ & ? & ? & ? & [= <-] & E & _). congruence. }
  destruct (canonicalize env parent) as [c|] eqn:Ek; cbn [rbind].
  2: { split; [done|]. intros (_ & ? & ? & ? & [= <-] & _ & E & _). congruence. }
  destruct (file_name p) as [name|] eqn:Ef; cbn [ok_or rbind].
  2: { split; [done|]. by intros (_ & ? & ? & ? & _ & _ & _ & [=] & _). }
  cbn [mbind option_bind]. rewrite Ek. cbn [from_option]. rewrite same_path_refl. cbn [negb].
  rewrite andb_false_r. cbv iota.
  set (ext := to_ascii_lowercase _).
  destruct (existsb (fun x => bool_decide (ext = x)) _) eqn:Ee.
  - apply existsb_exists in Ee as (x & Hx & E%bool_decide_eq_true). split; [|done]. intros _.
    split; [done|]. exists parent, c, name. repeat split; try done. fold ext. rewrite E.
    by apply list_elem_of_In.
  - split; [done|]. intros (_ & ? & c' & name' & [= <-] & _ & Ek' & [= <-] & Hin).
    rewrite Ek in Ek'. injection Ek' as <-. fold ext in Hin. exfalso.
    apply not_true_iff_false in Ee. apply Ee, existsb_exists. exists ext.
    split; [by apply list_elem_of_In|by apply bool_decide_eq_true].
Qed.

(** A server that answers the size query with an unknown total is taken to hold one byte: the
    length of that partial response. *)
Example unknown_total_is_one_byte :
  get_file_size
    (mkEnv (fun q => match q with
                     | ReqRange _ _ => Ok (mkReply 206 (Some 1) (Some b!"bytes 0-0/*") [Data b!"m"])
                     | _ => Err b!"method not allowed"
                     end) Ok (fun _ => Ok ()) false 7 (fun _ => None) 0) = Ok 1.
Proof. reflexivity. Qed.
End DownloaderFacts.
