(* ===== verification/PeerServe.v ===== *)
(** * Serving inference to a peer ([gpuf-c/src/handle/handle_tcp.rs])

    The two ways a device answers requests on the peer-to-peer data plane:
    [serve_p2p_io_with_engine], the session over a direct or relayed TCP stream with signed
    envelopes, and the answer that the UDP and the TURN/UDP tasks send as acknowledged
    messages. The engine is what it yields for a prompt; the clock and the failures of
    writes are arguments. *)

From S2P Require Import Prelude Wire P2P P2PSend Reassembly Text Output Ids Scheduler Streams DeviceStream Thinking LlamaServer.
From Stdlib Require Import ZArith Lia String.
From Stdlib Require Import Strings.Byte.
From stdpp Require Import base list gmap.

Local Open Scope Z_scope.
Import Framing Packet Replay Envelope Datagram Filter Phase.

(** The engine slot of the worker: [stream_with_cached_model_sampling] fails or yields pieces
    and errors. *)
Inductive Engine :=
  | NoEngine
  | OtherEngine
  | LlamaEngine (generate : bytes -> Sampling -> result (list (result bytes))).

(** ** The session over a TCP stream *)

(** What has been written: each command with the envelope that carried it. *)
Record Conn := mkConn { outbound_seq : Z; written : list (Command * Command) }.

Record PeerLoop := mkPeer {
  p_seq : Z; p_buf : bytes; p_phase : OutputPhase; p_splitter : PhaseSplitter;
  p_analysis : Z; p_final : Z; p_conn : Conn }.

(** A step of the session: its value, or the error that ends the session with what had been
    written by then. *)
Inductive served (A : Type) := Going (a : A) | Ended (e : bytes) (c : Conn).
Arguments Going {A} a.
Arguments Ended {A} e c.

Definition sbind {A B} (r : served A) (f : A -> served B) : served B :=
  match r with Going a => f a | Ended e c => Ended e c end.
Notation "'let!' x := r 'in' k" := (sbind r (fun x => k))
  (at level 10, x pattern, r at level 100, k at level 200).

Section Tcp.
Context `{M : Mac} `{C : Codec}.
Context (connection_id secret : bytes) (clock : nat -> Z) (fails : nat -> bool).

Definition write_signed_p2p_command (command : Command) (c : Conn) : served Conn :=
  let n := length (written c) in
  match p2p_encode_data_plane_envelope command connection_id secret (outbound_seq c) (clock n) with
  | Err e => Ended e c
  | Ok signed =>
      let seq := wrap 64 (outbound_seq c + 1) in
      if fails n then Ended b!"broken pipe" (mkConn seq (written c))
      else Going (mkConn seq (written c ++ [(command, signed)]))
  end.

Definition peer_chunk (task_id : bytes) (s : PeerLoop) : Command :=
  V2 (P2PInferenceChunk connection_id task_id (p_seq s) (p_buf s) (p_phase s) false None
        (p_analysis s) (p_final s)).

(** Send the batch and empty it; the sequence number is left to the caller. *)
Definition peer_flush (task_id : bytes) (s : PeerLoop) : served PeerLoop :=
  let! c := write_signed_p2p_command (peer_chunk task_id s) (p_conn s) in
  Going (mkPeer (p_seq s) [] (p_phase s) (p_splitter s) (p_analysis s) (p_final s) c).

Definition MAX_BATCH : Z := 64.

Definition peer_seg (task_id : bytes) (s : PeerLoop) (ps : OutputPhase * bytes) : served PeerLoop :=
  let '(phase, seg) := ps in
  if bool_decide (seg = []) then Going s
  else
    let s := mkPeer (p_seq s) (p_buf s) (p_phase s) (p_splitter s)
               (match phase with Analysis => sat_add 32 (p_analysis s) 1 | _ => p_analysis s end)
               (match phase with Final => sat_add 32 (p_final s) 1 | _ => p_final s end)
               (p_conn s) in
    let! s :=
      if bool_decide (p_buf s = []) then
        Going (mkPeer (p_seq s) (p_buf s) phase (p_splitter s) (p_analysis s) (p_final s) (p_conn s))
      else if negb (bool_decide (p_phase s = phase)) then
        let! s := peer_flush task_id s in
        Going (mkPeer (wrap 32 (p_seq s + 1)) (p_buf s) phase (p_splitter s)
              (p_analysis s) (p_final s) (p_conn s))
      else Going s in
    let s := mkPeer (p_seq s) (p_buf s ++ seg) (p_phase s) (p_splitter s)
               (p_analysis s) (p_final s) (p_conn s) in
    if MAX_BATCH <=? blen (p_buf s) then peer_flush task_id s else Going s.

Fixpoint peer_segs (task_id : bytes) (s : PeerLoop) (l : list (OutputPhase * bytes))
    : served PeerLoop :=
  match l with
  | [] => Going s
  | x :: l => let! s := peer_seg task_id s x in peer_segs task_id s l
  end.

Fixpoint peer_pieces (task_id : bytes) (pieces : list (result bytes)) (s : PeerLoop)
    : served PeerLoop :=
  match pieces with
  | [] => Going s
  | Err e :: _ => Ended e (p_conn s)
  | Ok piece :: rest =>
      let '(segs, sp) := push (p_splitter s) (filter_control_tokens piece) in
      let! s := peer_segs task_id
                  (mkPeer (p_seq s) (p_buf s) (p_phase s) sp (p_analysis s) (p_final s) (p_conn s))
                  segs in
      peer_pieces task_id rest s
  end.

Definition peer_start (c : Conn) : PeerLoop := mkPeer 0 [] Unknown PhaseSplitter_default 0 0 c.

Definition peer_done (task_id : bytes) (s : PeerLoop) : Command :=
  V2 (P2PInferenceDone connection_id task_id 0 0 0 (p_analysis s) (p_final s)).

(** One request: an error of the engine or of the stream ends the session. *)
Definition answer_request (engine : Engine) (task_id prompt : bytes) (params : Sampling) (c : Conn)
    : served Conn :=
  match engine with
  | NoEngine => Ended b!"Engine not initialized" c
  | OtherEngine =>
      write_signed_p2p_command
        (V2 (P2PInferenceChunk connection_id task_id 0 [] Unknown true
               (Some b!"P2P streaming is only supported for LLAMA engine") 0 0)) c
  | LlamaEngine generate =>
      match generate prompt params with
      | Err e => Ended e c
      | Ok pieces =>
      let! s := peer_pieces task_id pieces (peer_start c) in
      let! s := if bool_decide (p_buf s = []) then Going s else peer_flush task_id s in
      write_signed_p2p_command (peer_done task_id s) (p_conn s)
      end
  end.

(** *** The session: frames as they arrive, with the clock at each, until a read fails *)
Record PeerSession := mkSession {
  replay : P2PReplayWindow; conn : Conn; counters : SecurityMetrics }.

Definition session_start (m : SecurityMetrics) : PeerSession := mkSession new (mkConn 1 []) m.

Definition on_frame (engine : Engine) (signed_cmd : Command) (now : Z) (s : PeerSession)
    : served PeerSession :=
  match p2p_decode_data_plane_envelope signed_cmd connection_id secret now (replay s) with
  | (Err e, w) =>
      let metric := if contains_sub b!"replay" e then p2p_replay_rejections else p2p_auth_rejections in
      Going (mkSession w (conn s) (inc metric (counters s)))
  | (Ok cmd, w) =>
      let s := mkSession w (conn s) (counters s) in
      match cmd with
      | V2 (P2PInferenceRequest req_conn_id task_id _ prompt params) =>
          if bool_decide (req_conn_id <> connection_id) then Going s
          else
            let! c := answer_request engine task_id prompt params (conn s) in
            Going (mkSession (replay s) c (counters s))
      | _ => Going s
      end
  end.

Fixpoint serve_p2p_io_with_engine (engine : Engine) (frames : list (Command * Z)) (s : PeerSession)
    : PeerSession * bytes :=
  match frames with
  | [] => (s, err_eof)
  | (cmd, now) :: frames' =>
      match on_frame engine cmd now s with
      | Going s => serve_p2p_io_with_engine engine frames' s
      | Ended e c => (mkSession (replay s) c (counters s), e)
      end
  end.
End Tcp.

(** ** The answer over UDP and TURN/UDP *)

Definition is_char_boundary (s : bytes) (i : nat) : bool :=
  match s !! i with
  | Some b => negb (cont b)
  | None => (i =? length s)%nat
  end.

(** [while end < len && !is_char_boundary(end) { end -= 1 }] *)
Fixpoint back_to_boundary (s : bytes) (end_ : nat) : nat :=
  if (end_ <? length s)%nat && negb (is_char_boundary s end_) then
    match end_ with O => O | S e => back_to_boundary s e end
  else end_.

(** [char_indices().nth(1)], or the length *)
Definition second_char (s : bytes) : nat :=
  default (length s) (List.find (is_char_boundary s) (seq 1 (length s - 1))).

(** The deltas of one piece, each of at most 64 bytes; [None] is the panic of a slice out of
    order. Every round advances, so the length of the piece is enough fuel. *)
Fixpoint split_deltas (fuel : nat) (s : bytes) (start : nat) : option (list bytes) :=
  match fuel with
  | O => Some []
  | S fuel' =>
      if (start <? length s)%nat then
        let end_ := back_to_boundary s (Nat.min (start + 64) (length s)) in
        let end_ := if (end_ =? start)%nat then second_char s else end_ in
        delta ← slice start end_ s;
        rest ← split_deltas fuel' s end_;
        Some (delta :: rest)
      else Some []
  end.

Section Udp.
Context `{M : Mac} `{C : Codec}.
(** The only difference between the two tasks is the name in one error text. *)
Context (connection_id only_llama : bytes).

Definition error_chunk (task_id : bytes) (seq : Z) (e : bytes) : Command :=
  V2 (P2PInferenceChunk connection_id task_id seq [] Unknown true (Some e) 0 0).

Definition delta_chunk (task_id : bytes) (seq : Z) (delta : bytes) : Command :=
  V2 (P2PInferenceChunk connection_id task_id seq delta Unknown false None 0 0).

(** Chunks of consecutive numbers, and the next number. *)
Fixpoint number_chunks (task_id : bytes) (seq : Z) (deltas : list bytes) : list Command * Z :=
  match deltas with
  | [] => ([], seq)
  | d :: ds =>
      let '(l, seq') := number_chunks task_id (wrap 32 (seq + 1)) ds in
      (delta_chunk task_id seq d :: l, seq')
  end.

Fixpoint udp_pieces (task_id : bytes) (seq : Z) (pieces : list (result bytes))
    : option (list Command) :=
  match pieces with
  | [] => Some []
  | Err e :: _ => Some [error_chunk task_id seq e]
  | Ok piece :: rest =>
      let filtered := filter_control_tokens piece in
      deltas ← split_deltas (length filtered) filtered 0;
      let '(l, seq) := number_chunks task_id seq deltas in
      more ← udp_pieces task_id seq rest;
      Some (l ++ more)
  end.

(** The commands sent for a request; also after an error in the stream the end is announced. *)
Definition udp_answer (engine : Engine) (task_id prompt : bytes) (params : Sampling)
    : option (list Command) :=
  match engine with
  | NoEngine => Some [error_chunk task_id 0 b!"Engine not initialized"]
  | OtherEngine => Some [error_chunk task_id 0 only_llama]
  | LlamaEngine generate =>
      match generate prompt params with
      | Err e => Some [error_chunk task_id 0 e]
      | Ok pieces =>
          l ← udp_pieces task_id 0 pieces;
          Some (l ++ [V2 (P2PInferenceDone connection_id task_id 0 0 0 0 0)])
      end
  end.

(** Commands that cannot be encoded are skipped; every other one gets the next message id. *)
Fixpoint udp_messages (next_msg_id : Z) (cmds : list Command) : list (Z * bytes) * Z :=
  match cmds with
  | [] => ([], next_msg_id)
  | c :: cmds' =>
      match udp_encode_command c with
      | Err _ => udp_messages next_msg_id cmds'
      | Ok pkt =>
          let '(l, n) := udp_messages (wrap 32 (next_msg_id + 1)) cmds' in
          ((next_msg_id, pkt) :: l, n)
      end
  end.

(** One round of the task: a datagram and, when it completes a request, the messages sent to
    its source, each by the acknowledged sender whose outcome is ignored. *)
Definition udp_round (secret buf : bytes) (from : SocketAddr) (secs_now t1 t2 t3 t4 t5 t6 : Z)
    (engine : Engine) (st : P2PUdpReassemblyState) (next_msg_id : Z)
    : option (list (Z * bytes) * P2PUdpReassemblyState * Z) :=
  match udp_receive secret connection_id buf from secs_now t1 t2 t3 t4 t5 t6 st with
  | (Delivered _ task_id prompt params, st) =>
      cmds ← udp_answer engine task_id prompt params;
      let '(l, n) := udp_messages next_msg_id cmds in
      Some (l, st, n)
  | (_, st) => Some ([], st, next_msg_id)
  end.
End Udp.

(** ** Facts *)
Module PeerFacts.
Import TextFacts.

(** *** Character boundaries *)

Lemma conts_lookup n s i : conts n s = n -> (i < n)%nat -> exists b, s !! i = Some b /\ cont b = true.
Proof.
  revert s i. induction n as [|n IH]; intros [|b s] i E Hi; cbn in E; try lia.
  destruct (cont b) eqn:Eb; [|lia]. injection E as E. destruct i as [|i]; [by exists b|].
  cbn. apply IH; [done|lia].
Qed.

Lemma byte_in_cont lo hi b : byte_in lo hi b = true -> 0x80 <= lo -> hi <= 0xBF -> cont b = true.
Proof.
  unfold cont, byte_in. rewrite !andb_true_iff, !Z.leb_le. lia.
Qed.

Lemma byte_in_lead lo hi b : byte_in lo hi b = true -> hi <= 0x7F \/ 0xC0 <= lo -> cont b = false.
Proof.
  unfold cont, byte_in. rewrite andb_true_iff, !Z.leb_le. intros H Hlo.
  apply andb_false_iff. rewrite !Z.leb_gt. lia.
Qed.

(** The shape of a well-formed head: a leading byte, then continuation bytes. *)
Lemma step_shape s n :
  utf8_step s = (true, n) ->
  (exists b, s !! 0%nat = Some b /\ cont b = false)
  /\ forall i, (0 < i < n)%nat -> exists b, s !! i = Some b /\ cont b = true.
Proof.
  destruct s as [|b0 s]; [done|]. intros E. split.
  - exists b0. split; [done|]. cbn -[conts Nat.sub] in E.
    repeat match type of E with
      | (if ?b then _ else _) = _ => destruct b eqn:?; [eapply byte_in_lead; [eassumption|lia]|]
      end. done.
  - assert (forall k lo hi, 0x80 <= lo -> hi <= 0xBF ->
      (match s with
       | b1 :: s'' => if byte_in lo hi b1
                      then let c := conts (k - 1) s'' in ((c =? k - 1)%nat, (2 + c)%nat)
                      else (false, 1%nat)
       | [] => (false, 1%nat)
       end = (true, n)) ->
      forall i, (0 < i < n)%nat -> exists b, (b0 :: s) !! i = Some b /\ cont b = true) as Hmulti.
    { intros k lo hi Hlo Hhi H i Hi. destruct s as [|b1 s]; [done|].
      destruct (byte_in lo hi b1) eqn:E1; [|done]. cbv zeta in H.
      apply pair_equal_spec in H as [Hc <-]. apply Nat.eqb_eq in Hc.
      destruct i as [|[|i]]; [lia|exists b1; split; [done|by eapply byte_in_cont]|].
      cbn. eapply conts_lookup; [exact Hc|lia]. }
    cbn -[conts Nat.sub] in E. destruct (byte_in 0 127 b0).
    { injection E as <-. intros i Hi. lia. }
    repeat match type of E with
      | (if ?b then _ else _) = _ => destruct b; [eapply Hmulti; [| |exact E]; lia|]
      end. done.
Qed.

Lemma boundary_drop s n k :
  (n <= length s)%nat -> is_char_boundary (drop n s) k = is_char_boundary s (n + k).
Proof.
  intros Hn. unfold is_char_boundary. rewrite lookup_drop, length_drop.
  destruct (s !! (n + k)%nat); [done|].
  destruct (Nat.eqb_spec k (length s - n)), (Nat.eqb_spec (n + k) (length s)); lia || done.
Qed.

Lemma boundary_0 s : utf8 s -> is_char_boundary s 0 = true.
Proof.
  intros H. destruct H as [|s n E H]; [done|]. apply step_shape in E as [(b & Hb & Hc) _].
  unfold is_char_boundary. by rewrite Hb, Hc.
Qed.

Lemma step_le s n : utf8_step s = (true, n) -> (1 <= n <= length s)%nat.
Proof.
  intros E. assert (s <> []) as Hne by (intros ->; done).
  pose proof (utf8_step_length s Hne) as Hl. pose proof (utf8_step_pos s) as Hp.
  rewrite E in Hl, Hp. cbn in *. lia.
Qed.

(** Well-formed text is cut into well-formed pieces at a boundary. *)
Lemma boundary_cut s i :
  utf8 s -> (i <= length s)%nat -> is_char_boundary s i = true -> utf8 (take i s) /\ utf8 (drop i s).
Proof.
  intros H. revert i. induction H as [|s n E H IH]; intros i Hi Hb.
  { rewrite take_nil, drop_nil. by repeat constructor. }
  destruct (step_shape s n E) as [_ Hconts]. pose proof (step_le s n E) as Hn.
  destruct (decide (i = 0%nat)) as [->|H0].
  { rewrite take_0, drop_0. split; [constructor|]. by eapply utf8_char. }
  destruct (decide (i < n)%nat) as [Hlt|Hge].
  { destruct (Hconts i ltac:(lia)) as (b & Hbi & Hbc). unfold is_char_boundary in Hb.
    rewrite Hbi, Hbc in Hb. done. }
  destruct (IH (i - n)%nat) as [IH1 IH2].
  { rewrite length_drop. lia. }
  { rewrite boundary_drop by lia. by replace (n + (i - n))%nat with i by lia. }
  split.
  - replace (take i s) with (take n s ++ take (i - n) (drop n s)).
    + apply utf8_app; [|done]. apply (utf8_char _ n); [|rewrite drop_ge by (rewrite length_take; lia); constructor].
      apply (utf8_step_unapp _ (drop n s)); [by rewrite take_drop|]. rewrite length_take. lia.
    + rewrite take_take_drop. f_equal. lia.
  - rewrite drop_drop in IH2. by replace (n + (i - n))%nat with i in IH2 by lia.
Qed.

(** No four consecutive positions are all inside a character. *)
Lemma boundary_near s j :
  utf8 s -> (j <= length s)%nat -> exists k, (k <= j <= k + 3)%nat /\ is_char_boundary s k = true.
Proof.
  intros H. revert j. induction H as [|s n E H IH]; intros j Hj.
  { exists 0%nat. cbn in *. split; [lia|done]. }
  pose proof (step_le s n E) as Hn. pose proof (utf8_step_max s n E).
  destruct (decide (j < n)%nat) as [Hlt|Hge].
  - exists 0%nat. split; [lia|]. apply boundary_0. by eapply utf8_char.
  - destruct (IH (j - n)%nat) as (k & Hk & Hb); [rewrite length_drop; lia|].
    exists (n + k)%nat. split; [lia|]. by rewrite <- boundary_drop by lia.
Qed.

Lemma back_spec s e :
  utf8 s -> (e <= length s)%nat ->
  (back_to_boundary s e <= e)%nat /\ is_char_boundary s (back_to_boundary s e) = true
  /\ forall k, (k <= e)%nat -> is_char_boundary s k = true -> (k <= back_to_boundary s e)%nat.
Proof.
  intros H. induction e as [|e IH]; intros He; cbn [back_to_boundary].
  - rewrite (boundary_0 s H), andb_false_r. split; [lia|]. split; [by apply boundary_0|]. lia.
  - destruct (is_char_boundary s (S e)) eqn:Eb; cbn [negb].
    + rewrite andb_false_r. split; [lia|]. split; [done|]. lia.
    + rewrite andb_true_r. destruct (Nat.ltb_spec (S e) (length s)) as [Hlt|Hge].
      * destruct (IH ltac:(lia)) as (H1 & H2 & H3). split; [lia|]. split; [done|].
        intros k Hk Hb. apply H3; [|done]. destruct (decide (k = S e)) as [->|]; [congruence|lia].
      * exfalso. unfold is_char_boundary in Eb. rewrite lookup_ge_None_2 in Eb by lia.
        apply Nat.eqb_neq in Eb. lia.
Qed.

Lemma split_deltas_from fuel s start :
  utf8 s -> (start <= length s)%nat -> is_char_boundary s start = true ->
  (length s - start <= fuel)%nat ->
  exists ds, split_deltas fuel s start = Some ds /\ concat ds = drop start s
    /\ Forall (fun d => d <> [] /\ blen d <= 64 /\ utf8 d) ds.
Proof.
  intros Hs. revert start. induction fuel as [|fuel IH]; intros start Hst Hb Hf; cbn [split_deltas].
  { exists []. rewrite drop_ge by lia. repeat split; constructor. }
  destruct (Nat.ltb_spec start (length s)) as [Hlt|Hge].
  2: { exists []. rewrite drop_ge by lia. repeat split; constructor. }
  set (lim := Nat.min (start + 64) (length s)).
  destruct (back_spec s lim Hs ltac:(lia)) as (H1 & H2 & H3).
  set (e := back_to_boundary s lim) in *.
  assert (start < e)%nat as Hse.
  { destruct (decide (lim = length s)) as [El|].
    - enough (lim <= e)%nat by lia. apply H3; [lia|]. rewrite El. unfold is_char_boundary.
      rewrite lookup_ge_None_2 by lia. apply Nat.eqb_refl.
    - destruct (boundary_near s lim Hs ltac:(lia)) as (k & Hk & Hkb).
      specialize (H3 k ltac:(lia) Hkb). lia. }
  rewrite (proj2 (Nat.eqb_neq _ _)) by lia.
  unfold slice. rewrite decide_True by lia. cbn [mbind option_bind].
  destruct (IH e ltac:(lia) H2 ltac:(lia)) as (ds & -> & Hc & Hf').
  eexists. split; [done|]. cbn [concat]. rewrite Hc.
  destruct (boundary_cut s start Hs Hst Hb) as [_ Hds].
  assert (is_char_boundary (drop start s) (e - start) = true) as Hb2.
  { rewrite boundary_drop by lia. by replace (start + (e - start))%nat with e by lia. }
  destruct (boundary_cut _ (e - start) Hds ltac:(rewrite length_drop; lia) Hb2) as [Ht _].
  split.
  - rewrite <- (take_drop (e - start) (drop start s)) at 2. rewrite drop_drop. do 2 f_equal. lia.
  - constructor; [|done]. split; [|split; [|done]].
    + intros Hn. apply (f_equal length) in Hn. rewrite length_take, length_drop in Hn. cbn in Hn. lia.
    + unfold blen. rewrite length_take. lia.
Qed.

(** Cutting a piece for the UDP data plane never panics, ends, and loses nothing: for every
    well-formed text the deltas are non-empty, well-formed, at most 64 bytes long, and their
    concatenation is the text. *)
Theorem udp_deltas_cover (s : bytes) :
  valid_utf8 s = true ->
  exists ds, split_deltas (length s) s 0 = Some ds /\ concat ds = s
    /\ Forall (fun d => d <> [] /\ blen d <= 64 /\ valid_utf8 d = true) ds.
Proof.
  intros Hs%valid_utf8_iff.
  destruct (split_deltas_from (length s) s 0 Hs ltac:(lia) (boundary_0 s Hs) ltac:(lia))
    as (ds & E & Hc & Hf). exists ds. split; [done|]. split; [done|].
  eapply Forall_impl; [exact Hf|]. intros d (? & ? & ?). by rewrite valid_utf8_iff.
Qed.

Lemma udp_deltas_cover_witness :
  exists ds, split_deltas 66 (replicate 63 Byte.x61 ++ [Byte.xe2; Byte.x82; Byte.xac]) 0 = Some ds
    /\ concat ds = replicate 63 Byte.x61 ++ [Byte.xe2; Byte.x82; Byte.xac]
    /\ Forall (fun d => d <> [] /\ blen d <= 64 /\ valid_utf8 d = true) ds.
Proof.
  apply (udp_deltas_cover (replicate 63 Byte.x61 ++ [Byte.xe2; Byte.x82; Byte.xac])). reflexivity.
Defined.

(** *** Answers over UDP *)

Section UdpAnswer.
Context (connection_id only_llama task_id : bytes).

(** Chunks numbered from [k]. *)
Definition numbered (k : Z) (ds : list bytes) : list Command :=
  imap (fun i d => delta_chunk connection_id task_id (wrap 32 (k + Z.of_nat i)) d) ds.

Lemma wrap_succ k : wrap 32 (wrap 32 k + 1) = wrap 32 (k + 1).
Proof. unfold wrap. by rewrite Z.add_mod_idemp_l. Qed.

Lemma numbered_cons k d ds :
  numbered k (d :: ds) = delta_chunk connection_id task_id (wrap 32 k) d :: numbered (k + 1) ds.
Proof.
  unfold numbered. rewrite imap_cons. cbn [Z.of_nat]. rewrite Z.add_0_r. f_equal.
  apply imap_ext. intros i x _. cbn. do 2 f_equal. lia.
Qed.

Lemma number_chunks_spec k ds :
  number_chunks connection_id task_id (wrap 32 k) ds = (numbered k ds, wrap 32 (k + blen ds)).
Proof.
  revert k. induction ds as [|d ds IH]; intros k; cbn [number_chunks].
  { unfold blen. cbn. by rewrite Z.add_0_r. }
  rewrite wrap_succ, IH, numbered_cons. f_equal. f_equal. unfold blen. cbn [length]. lia.
Qed.

Lemma numbered_app k ds es : numbered k (ds ++ es) = numbered k ds ++ numbered (k + blen ds) es.
Proof.
  revert k. induction ds as [|d ds IH]; intros k; cbn [app].
  { unfold blen. cbn. by rewrite Z.add_0_r. }
  rewrite !numbered_cons, IH. cbn [app]. do 3 f_equal. unfold blen. cbn [length]. lia.
Qed.

Definition small_delta (d : bytes) : Prop := d <> [] /\ blen d <= 64 /\ valid_utf8 d = true.

Lemma udp_pieces_spec ps rest k :
  Forall (fun p => valid_utf8 (filter_control_tokens p) = true) ps ->
  exists ds, concat ds = concat (filter_control_tokens <$> ps) /\ Forall small_delta ds
    /\ udp_pieces connection_id task_id (wrap 32 k) ((Ok <$> ps) ++ rest)
       = (app (numbered k ds)) <$> udp_pieces connection_id task_id (wrap 32 (k + blen ds)) rest.
Proof.
  revert k. induction ps as [|p ps IH]; intros k Hall.
  { exists []. split; [done|]. split; [constructor|]. unfold blen. cbn. rewrite Z.add_0_r.
    by destruct (udp_pieces _ _ _ _). }
  apply Forall_cons in Hall as [Hp Hall]. apply valid_utf8_iff in Hp.
  destruct (split_deltas_from _ _ 0 Hp ltac:(lia) (boundary_0 _ Hp) (Nat.le_refl _)) as (d1 & E1 & C1 & F1).
  rewrite Nat.sub_0_r in E1.
  destruct (IH (k + blen d1) Hall) as (d2 & C2 & F2 & E2). exists (d1 ++ d2).
  cbn [fmap list_fmap app udp_pieces]. rewrite E1. cbn [mbind option_bind].
  rewrite number_chunks_spec, E2, concat_app, C1, C2. split; [done|]. split.
  - apply Forall_app. split; [|done]. eapply Forall_impl; [exact F1|].
    intros d (? & ? & ?). unfold small_delta. by rewrite valid_utf8_iff.
  - rewrite blen_app, Z.add_assoc, numbered_app.
    destruct (udp_pieces _ _ _ rest); cbn; [|done]. by rewrite <- app_assoc.
Qed.
End UdpAnswer.

(** The answer to a request over UDP or TURN: when the engine yields well-formed pieces, the
    commands are chunks numbered consecutively from zero whose deltas, each well-formed and of
    at most 64 bytes, concatenate to the filtered text of the pieces, followed by the end
    message; an error of the engine inside the stream adds one numbered error chunk before the
    end message and drops what follows it. *)
Theorem udp_answer_complete (connection_id only_llama task_id prompt : bytes) (params : Sampling)
    (generate : bytes -> Sampling -> result (list (result bytes)))
    (ps : list bytes) (failure : option (bytes * list (result bytes))) :
  Forall (fun p => valid_utf8 (filter_control_tokens p) = true) ps ->
  generate prompt params
    = Ok ((Ok <$> ps) ++ from_option (fun f => Err f.1 :: f.2) [] failure) ->
  exists ds,
    udp_answer connection_id only_llama (LlamaEngine generate) task_id prompt params
    = Some (numbered connection_id task_id 0 ds
            ++ from_option (fun f => [error_chunk connection_id task_id (wrap 32 (blen ds)) f.1]) [] failure
            ++ [V2 (P2PInferenceDone connection_id task_id 0 0 0 0 0)])
    /\ concat ds = concat (filter_control_tokens <$> ps) /\ Forall small_delta ds.
Proof.
  intros Hall Hg. destruct (udp_pieces_spec connection_id task_id ps
    (from_option (fun f => Err f.1 :: f.2) [] failure) 0 Hall) as (ds & Hc & Hf & E).
  exists ds. split; [|done]. unfold udp_answer. rewrite Hg.
  change (wrap 32 0) with 0 in E. rewrite E, Z.add_0_l.
  destruct failure as [[e rest]|]; cbn [from_option udp_pieces fmap option_fmap option_map mbind option_bind fst snd].
  - by rewrite <- app_assoc.
  - by rewrite app_nil_r.
Qed.

Definition demo_params : Sampling := mkSampling 16 0 40 0 0 64 1.

Lemma udp_answer_complete_witness :
  exists ds,
    udp_answer b!"c" b!"x" (LlamaEngine (fun _ _ => Ok [Ok b!"hi"; Err b!"oom"])) b!"t" b!"p" demo_params
    = Some (numbered b!"c" b!"t" 0 ds ++ [error_chunk b!"c" b!"t" (wrap 32 (blen ds)) b!"oom"]
            ++ [V2 (P2PInferenceDone b!"c" b!"t" 0 0 0 0 0)])
    /\ concat ds = concat (filter_control_tokens <$> [b!"hi"]) /\ Forall small_delta ds.
Proof.
  apply (udp_answer_complete b!"c" b!"x" b!"t" b!"p" demo_params
    (fun _ _ => Ok [Ok b!"hi"; Err b!"oom"]) [b!"hi"] (Some (b!"oom", []))); [|reflexivity].
  constructor; [vm_compute; reflexivity|constructor].
Defined.

(** *** The signed session *)

Section Session.
Context `{M : Mac} `{C : Codec} {L : CodecLaws C}.
Context (connection_id secret : bytes) (clock : nat -> Z) (fails : nat -> bool).
#[local] Abbreviation write := (write_signed_p2p_command connection_id secret clock fails).

(** Envelopes with consecutive sequence numbers from [q], signed at the times of the clock
    from the [n]-th write on. *)
Fixpoint signed_run (q : Z) (n : nat) (l : list (Command * Command)) : Prop :=
  match l with
  | [] => True
  | (c, e) :: l' =>
      p2p_encode_data_plane_envelope c connection_id secret q (clock n) = Ok e
      /\ signed_run (wrap 64 (q + 1)) (S n) l'
  end.

Definition next_seq (q : Z) (l : list (Command * Command)) : Z :=
  fold_left (fun q _ => wrap 64 (q + 1)) l q.

(** [c'] is [c] after writing [l]. *)
Definition extends (c c' : Conn) (l : list (Command * Command)) : Prop :=
  written c' = written c ++ l
  /\ signed_run (outbound_seq c) (length (written c)) l
  /\ outbound_seq c' = next_seq (outbound_seq c) l.

Lemma signed_run_app q n l k :
  signed_run q n l -> signed_run (next_seq q l) (n + length l) k -> signed_run q n (l ++ k).
Proof.
  revert q n. induction l as [|[c e] l IH]; intros q n; cbn [signed_run app].
  - cbn. by rewrite Nat.add_0_r.
  - intros [He Hl] Hk. split; [done|]. apply IH; [done|].
    replace (S n + length l)%nat with (n + length ((c, e) :: l))%nat by (cbn; lia). exact Hk.
Qed.

Lemma extends_refl c : extends c c [].
Proof. split; [by rewrite app_nil_r|]. done. Qed.

Lemma extends_trans c1 c2 c3 l k : extends c1 c2 l -> extends c2 c3 k -> extends c1 c3 (l ++ k).
Proof.
  intros (W1 & S1 & N1) (W2 & S2 & N2). split; [by rewrite W2, W1, app_assoc|]. split.
  - apply signed_run_app; [done|]. by rewrite <- N1, <- length_app, <- W1.
  - rewrite N2, N1. unfold next_seq. by rewrite fold_left_app.
Qed.

Lemma write_extends cmd c c' : write cmd c = Going c' -> exists e, extends c c' [(cmd, e)].
Proof.
  unfold write_signed_p2p_command. destruct (p2p_encode_data_plane_envelope _ _ _ _ _) as [e|] eqn:E; [|done].
  destruct (fails _); [done|]. intros [= <-]. exists e. split; [done|]. cbn. done.
Qed.

(** The open chunk of a batch. *)
Definition batch_of (task_id : bytes) (c : Command) : option (OutputPhase * bytes) :=
  match c with
  | V2 (P2PInferenceChunk cid t _ delta phase false None _ _) =>
      if bool_decide (cid = connection_id /\ t = task_id /\ delta <> []) then Some (phase, delta) else None
  | _ => None
  end.

(** What has been split off so far is in the batches written and the one that is open. *)
Definition peer_inv (c0 : Conn) (task_id : bytes) (T : list (OutputPhase * byte)) (s : PeerLoop) : Prop :=
  exists l bs, extends c0 (p_conn s) l /\ mapM (batch_of task_id) l.*1 = Some bs
    /\ T = tagged bs ++ tagged [(p_phase s, p_buf s)].

Lemma peer_flush_inv c0 task_id T s s' :
  peer_inv c0 task_id T s -> p_buf s <> [] ->
  peer_flush connection_id secret clock fails task_id s = Going s' ->
  peer_inv c0 task_id T s' /\ p_buf s' = [] /\ p_splitter s' = p_splitter s.
Proof.
  intros (l & bs & He & Hb & ->) Hne E. unfold peer_flush in E.
  destruct (write_signed_p2p_command _ _ _ _ _ _) as [c'|] eqn:Ew; [|done]. cbn [sbind] in E.
  injection E as <-. split; [|done]. apply write_extends in Ew as [e Hw].
  exists (l ++ [(peer_chunk connection_id task_id s, e)]), (bs ++ [(p_phase s, p_buf s)]).
  split; [by eapply extends_trans|]. split.
  - rewrite fmap_app. apply mapM_Some. apply Forall2_app; [by apply mapM_Some|].
    repeat constructor. cbn. by rewrite bool_decide_true.
  - cbn [p_phase p_buf]. rewrite tagged_app. change (tagged [(p_phase s, [])]) with (@nil (OutputPhase * byte)).
    by rewrite app_nil_r.
Qed.

Lemma peer_inv_ext c0 task_id T s s' :
  peer_inv c0 task_id T s -> p_conn s' = p_conn s ->
  tagged [(p_phase s', p_buf s')] = tagged [(p_phase s, p_buf s)] -> peer_inv c0 task_id T s'.
Proof. intros (l & bs & H1 & H2 & ->) E1 E2. exists l, bs. by rewrite E1, E2. Qed.

Lemma seg_inv c0 task_id T s ps s' :
  peer_inv c0 task_id T s -> peer_seg connection_id secret clock fails task_id s ps = Going s' ->
  peer_inv c0 task_id (T ++ tagged [ps]) s' /\ p_splitter s' = p_splitter s.
Proof.
  destruct ps as [ph seg]. unfold peer_seg. intros Hinv E. case_bool_decide as Hseg.
  { injection E as <-. subst seg. change (tagged [(ph, [])]) with (@nil (OutputPhase * byte)).
    by rewrite app_nil_r. }
  set (s0 := mkPeer (p_seq s) (p_buf s) (p_phase s) (p_splitter s) _ _ (p_conn s)) in E.
  assert (peer_inv c0 task_id T s0) as Hinv0
    by (eapply peer_inv_ext; [exact Hinv|done|done]).
  match type of E with sbind ?m _ = _ => destruct m as [s1|] eqn:E1; [|done] end.
  cbn [sbind] in E.
  assert (peer_inv c0 task_id T s1 /\ p_phase s1 = ph /\ p_splitter s1 = p_splitter s) as (Hi & Hp & Hs).
  { revert E1. case_bool_decide as Hbuf; [intros [= <-]|case_bool_decide as Hph; cbn [negb]].
    - split; [|done]. eapply peer_inv_ext; [exact Hinv0|done|].
      cbn [p_phase p_buf s0] in *. by rewrite !tagged_single, Hbuf.
    - intros [= <-]. done.
    - destruct (peer_flush connection_id secret clock fails task_id s0) as [s2|] eqn:E2; [|by cbn [sbind]; intros].
      cbn [sbind]. intros [= <-].
      apply (peer_flush_inv c0 task_id T) in E2 as (Hi2 & Hb2 & Hs2); [|done..].
      split; [|done]. eapply peer_inv_ext; [exact Hi2|done|].
      cbn [p_phase p_buf]. by rewrite !tagged_single, Hb2. }
  set (s2 := mkPeer _ (p_buf s1 ++ seg) _ _ _ _ _) in E.
  assert (peer_inv c0 task_id (T ++ tagged [(ph, seg)]) s2) as Hi2.
  { destruct Hi as (l & bs & H1 & H2 & ->). exists l, bs. split; [done|]. split; [done|].
    cbn [p_phase p_buf s2]. by rewrite !tagged_single, fmap_app, Hp, app_assoc. }
  destruct (MAX_BATCH <=? _); [|by injection E as <-].
  apply (peer_flush_inv _ _ _ _ _ Hi2) in E as (? & _ & ->); [done|].
  cbn [p_buf s2]. destruct (p_buf s1); [done|]. done.
Qed.

Lemma segs_inv c0 task_id T s l s' :
  peer_inv c0 task_id T s -> peer_segs connection_id secret clock fails task_id s l = Going s' ->
  peer_inv c0 task_id (T ++ tagged l) s' /\ p_splitter s' = p_splitter s.
Proof.
  revert T s. induction l as [|x l IH]; intros T s Hi E; cbn [peer_segs] in E.
  { injection E as <-. change (tagged []) with (@nil (OutputPhase * byte)). by rewrite app_nil_r. }
  destruct (peer_seg _ _ _ _ _ _ x) as [s1|] eqn:E1; [|done]. cbn [sbind] in E.
  destruct (seg_inv _ _ _ _ _ _ Hi E1) as [Hi1 Hs1]. destruct (IH _ _ Hi1 E) as [Hi2 ->].
  split; [|done]. replace (T ++ tagged (x :: l)) with ((T ++ tagged [x]) ++ tagged l); [done|].
  by rewrite <- app_assoc, <- tagged_app.
Qed.

Lemma pieces_inv c0 task_id T s (pieces : list bytes) s' :
  peer_inv c0 task_id T s ->
  peer_pieces connection_id secret clock fails task_id (Ok <$> pieces) s = Going s' ->
  peer_inv c0 task_id
    (T ++ tagged (PhaseFacts.push_all (p_splitter s) (filter_control_tokens <$> pieces)).1) s'.
Proof.
  revert T s. induction pieces as [|p ps IH]; intros T s Hi E;
    cbn [fmap list_fmap peer_pieces PhaseFacts.push_all] in *.
  { injection E as <-. cbn. by rewrite app_nil_r. }
  destruct (push (p_splitter s) (filter_control_tokens p)) as [segs sp] eqn:Ep.
  destruct (peer_segs _ _ _ _ _ _ segs) as [s1|] eqn:E1; [|done]. cbn [sbind] in E.
  apply (segs_inv c0 task_id T) in E1 as [Hi1 Hs1];
    [|eapply peer_inv_ext; [exact Hi|done|done]].
  specialize (IH _ _ Hi1 E). cbn [p_splitter] in Hs1. rewrite Hs1 in IH.
  destruct (PhaseFacts.push_all sp _) as [out2 sp2]. cbn [fst] in *.
  by rewrite tagged_app, app_assoc.
Qed.

(** *** The other end *)
Import ReplayFacts EnvelopeFacts.

(** The peer decodes the envelopes one after the other, the [i]-th at time [now i]. *)
Fixpoint decode_all (now : nat -> Z) (i : nat) (es : list Command) (w : P2PReplayWindow)
    : list (result Command) :=
  match es with
  | [] => []
  | e :: es' =>
      let '(r, w) := p2p_decode_data_plane_envelope e connection_id secret (now i) w in
      r :: decode_all now (S i) es' w
  end.

Lemma prune_seen now w : seen (prune now w) ⊆ seen w.
Proof.
  assert (forall s o, (prune_age now s o).1 ⊆ s) as H1.
  { intros s o. revert s. induction o as [|[q t] o IH]; intros s; cbn; [done|].
    destruct (_ <=? _); [done|]. specialize (IH (s ∖ {[q]})). set_solver. }
  assert (forall s o, (prune_cap s o).1 ⊆ s) as H2.
  { intros s o. revert s. induction o as [|[q t] o IH]; intros s; cbn [prune_cap]; [done|].
    destruct (_ <? _); [|done]. specialize (IH (s ∖ {[q]})). set_solver. }
  unfold prune. specialize (H1 (seen w) (order w)). destruct (prune_age _ _ _) as [s o].
  specialize (H2 s o). destruct (prune_cap s o) as [s' o']. cbn in *. set_solver.
Qed.

Lemma decode_signed_run l q n i now w :
  signed_run q n l -> 0 <= q -> q + blen l < 2 ^ 64 ->
  (forall j, q <= j -> j ∉ seen w) ->
  (forall k, (k < length l)%nat -> p2p_timestamp_is_fresh (clock (n + k)) (now (i + k)%nat) = true) ->
  decode_all now i l.*2 w = Ok <$> l.*1.
Proof.
  revert q n i w. induction l as [|[c e] l IH]; intros q n i w Hl Hq Hmax Hw Hf; [done|].
  destruct Hl as [He Hl]. cbn [fmap list_fmap decode_all snd fst].
  assert (blen ((c, e) :: l) = blen l + 1) as Hbl by (unfold blen; cbn; lia).
  pose proof (blen_nonneg l).
  rewrite (decode_signed c connection_id secret q (clock n) e (now i) w He).
  2: { specialize (Hf 0%nat ltac:(cbn; lia)). by rewrite !Nat.add_0_r in Hf. }
  unfold accept_tcp_seq. rewrite bool_decide_false.
  2: { intros Hin. apply (Hw q ltac:(lia)). by apply prune_seen in Hin. }
  f_equal. rewrite wrap_small in Hl by (unfold in_u; lia).
  eapply IH; [exact Hl|lia|lia| |].
  - intros j Hj Hin. apply prune_seen in Hin. cbn [seen] in Hin.
    apply elem_of_union in Hin as [Hin%elem_of_singleton|Hin]; [lia|].
    apply prune_seen in Hin. by apply (Hw j ltac:(lia)).
  - intros k Hk. specialize (Hf (S k) ltac:(cbn; lia)).
    by rewrite !Nat.add_succ_r in Hf.
Qed.
End Session.

(** [C8] A peer receives the whole answer: when a session answers a request without an error, the
    envelopes it writes, decoded by a peer whose replay window has not seen their sequence
    numbers, within the freshness window and before the counter wraps, are all accepted and
    give in order non-empty open chunks of that task and connection and then one end message;
    the text of the chunks, with the phase of every byte, is exactly what filtering and
    splitting the engine's pieces yields. *)
Theorem peer_receives_answer `{M : Mac} `{C : Codec} {L : CodecLaws C}
    (connection_id secret task_id prompt : bytes) (clock : nat -> Z) (fails : nat -> bool)
    (generate : bytes -> Sampling -> result (list (result bytes))) (params : Sampling)
    (pieces : list bytes) (c c' : Conn) (now : nat -> Z) (w : P2PReplayWindow) :
  generate prompt params = Ok (Ok <$> pieces) ->
  answer_request connection_id secret clock fails (LlamaEngine generate) task_id prompt params c
    = Going c' ->
  0 <= outbound_seq c ->
  outbound_seq c + (blen (written c') - blen (written c)) < 2 ^ 64 ->
  (forall j, outbound_seq c <= j -> j ∉ seen w) ->
  (forall k, p2p_timestamp_is_fresh (clock k) (now k) = true) ->
  exists l bs analysis final,
    written c' = written c ++ l
    /\ decode_all connection_id secret now (length (written c)) l.*2 w = Ok <$> l.*1
    /\ (exists chunks, l.*1 = chunks
          ++ [V2 (P2PInferenceDone connection_id task_id 0 0 0 analysis final)]
        /\ mapM (batch_of connection_id task_id) chunks = Some bs)
    /\ tagged bs
       = tagged (PhaseFacts.push_all PhaseSplitter_default (filter_control_tokens <$> pieces)).1.
Proof.
  intros Hg E Hq Hmax Hw Hf. unfold answer_request in E. rewrite Hg in E.
  destruct (peer_pieces _ _ _ _ _ _ _) as [s|] eqn:E1; [|done]. cbn [sbind] in E.
  assert (peer_inv connection_id secret clock c task_id [] (peer_start c)) as H0.
  { exists [], []. split; [apply extends_refl|]. done. }
  apply (pieces_inv connection_id secret clock fails c task_id []) in E1; [|done].
  cbn [p_splitter peer_start app] in E1.
  set (T := tagged _) in E1.
  assert (exists s1, write_signed_p2p_command connection_id secret clock fails
      (peer_done connection_id task_id s1) (p_conn s1) = Going c'
    /\ peer_inv connection_id secret clock c task_id T s1 /\ p_buf s1 = []) as (s1 & Ew & Hi & Hb).
  { revert E. case_bool_decide as Hbuf; cbn [sbind]; intros E; [by exists s|].
    destruct (peer_flush connection_id secret clock fails task_id s) as [s1|] eqn:E2; [|done].
    cbn [sbind] in E. apply (peer_flush_inv connection_id secret clock fails c task_id T) in E2 as (Hi & Hb & _);
      [|done..]. by exists s1. }
  apply write_extends in Ew as [e Hx]. destruct Hi as (l & bs & Hl & Hm & HT).
  pose proof (extends_trans _ _ _ _ _ _ _ _ Hl Hx) as (Hwr & Hrun & _).
  exists (l ++ [(peer_done connection_id task_id s1, e)]), bs, (p_analysis s1), (p_final s1).
  split; [done|]. split.
  - apply (decode_signed_run connection_id secret clock _ (outbound_seq c) (length (written c)));
      [done|done| |done|intros; apply Hf].
    rewrite Hwr, blen_app in Hmax. lia.
  - split; [exists l.*1; by rewrite fmap_app|].
    fold T. rewrite HT, tagged_single, Hb. cbn. by rewrite app_nil_r.
Qed.

Definition pair_mac : Mac := fun k d => k ++ d.

(** A codec that writes the few commands of the example. *)
Definition demo_codec : Codec := {|
  encode_to_vec c :=
    match c with
    | V2 (P2PInferenceChunk [k] [t] 0 [x] Final false None 0 1) => Some [Byte.x01; k; t; x]
    | V2 (P2PInferenceDone [k] [t] 0 0 0 0 1) => Some [Byte.x02; k; t]
    | _ => None
    end;
  decode_from_slice b :=
    match b with
    | [Byte.x01; k; t; x] => Some (V2 (P2PInferenceChunk [k] [t] 0 [x] Final false None 0 1), 4%nat)
    | [Byte.x02; k; t] => Some (V2 (P2PInferenceDone [k] [t] 0 0 0 0 1), 3%nat)
    | _ => None
    end |}.

#[global] Instance demo_codec_laws : CodecLaws demo_codec.
Proof.
  intros c b. destruct c as [c|c]; cbn; [done|]. destruct c; cbn; try done; intros H;
    repeat (case_match; try discriminate H); injection H as <-; subst; done.
Qed.

Definition demo_conn : Conn := mkConn 1 [].
Definition demo_generate (_ : bytes) (_ : Sampling) : result (list (result bytes)) := Ok [Ok b!"7"].

Lemma peer_receives_answer_witness :
  exists c' l bs analysis final,
    answer_request (M := pair_mac) (C := demo_codec) b!"c" b!"s" (fun _ => 100) (fun _ => false)
      (LlamaEngine demo_generate) b!"t" b!"p" demo_params demo_conn = Going c'
    /\ written c' = written demo_conn ++ l
    /\ decode_all (M := pair_mac) (C := demo_codec) b!"c" b!"s" (fun _ => 101) 0 l.*2 new = Ok <$> l.*1
    /\ (exists chunks, l.*1 = chunks ++ [V2 (P2PInferenceDone b!"c" b!"t" 0 0 0 analysis final)]
        /\ mapM (batch_of b!"c" b!"t") chunks = Some bs)
    /\ tagged bs
       = tagged (PhaseFacts.push_all PhaseSplitter_default (filter_control_tokens <$> [b!"7"])).1.
Proof.
  assert (exists c', answer_request (M := pair_mac) (C := demo_codec) b!"c" b!"s" (fun _ => 100)
      (fun _ => false) (LlamaEngine demo_generate) b!"t" b!"p" demo_params demo_conn = Going c'
      /\ blen (written c') = 2) as (c' & E & Hl) by (eexists; split; vm_compute; reflexivity).
  exists c'.
  destruct (peer_receives_answer (M := pair_mac) (C := demo_codec) b!"c" b!"s" b!"t" b!"p"
    (fun _ => 100) (fun _ => false) demo_generate demo_params [b!"7"] demo_conn c' (fun _ => 101) new
    eq_refl E ltac:(cbn; lia) ltac:(rewrite Hl; vm_compute; reflexivity)
    ltac:(intros j _; apply not_elem_of_empty) ltac:(intros; reflexivity)) as (l & bs & a & f & H).
  exists l, bs, a, f. split; [exact E|exact H].
Defined.

(** Frames that do not authenticate change nothing but a counter: a frame that is not an
    envelope of this connection with the right tag leaves the replay window and the
    connection untouched and counts one rejection; a request for another connection is
    ignored; and as long as every frame is of these kinds nothing is ever written. *)
Theorem unauthenticated_frames_ignored `{M : Mac} `{C : Codec} (connection_id secret : bytes)
    (clock : nat -> Z) (fails : nat -> bool) (engine : Engine) (frames : list (Command * Z))
    (s : PeerSession) :
  Forall (fun f => match f.1 with
                   | V2 (P2PDataPlaneEnvelope cid q t p tag) =>
                       cid <> connection_id
                       \/ tag <> hmac_sha256 secret (tcp_mac_input connection_id q t p)
                   | _ => True
                   end) frames ->
  let '(s', e) := serve_p2p_io_with_engine connection_id secret clock fails engine frames s in
  replay s' = replay s /\ conn s' = conn s /\ e = err_eof
  /\ (in_u 64 (counters s p2p_auth_rejections + blen frames) -> 0 <= counters s p2p_auth_rejections ->
      counters s' p2p_auth_rejections = counters s p2p_auth_rejections + blen frames).
Proof.
  revert s. induction frames as [|[f t] frames IH]; intros s Hall; cbn [serve_p2p_io_with_engine].
  { repeat split; try done. unfold blen. cbn. lia. }
  apply Forall_cons in Hall as [Hf Hall]. cbn [fst] in Hf.
  assert (exists e, p2p_decode_data_plane_envelope f connection_id secret t (replay s)
                    = (Err e, replay s) /\ contains_sub b!"replay" e = false) as (e & E & He).
  { unfold p2p_decode_data_plane_envelope. destruct f as [f|f]; [by eexists|].
    destruct f; try (by eexists). case_bool_decide; [by eexists|].
    destruct (MAX_MESSAGE_SIZE <? _); [by eexists|]. destruct (negb _); [by eexists|].
    rewrite bool_decide_true by (destruct Hf; congruence). by eexists. }
  unfold on_frame. rewrite E, He.
  specialize (IH (mkSession (replay s) (conn s) (inc p2p_auth_rejections (counters s))) Hall).
  destruct (serve_p2p_io_with_engine _ _ _ _ _ frames _) as [s' e']. cbn [replay conn counters] in IH.
  destruct IH as (H1 & H2 & H3 & H4). repeat split; try done. intros Hu Hpos.
  assert (blen ((f, t) :: frames) = blen frames + 1) as Hbl by (unfold blen; cbn; lia).
  pose proof (blen_nonneg frames). rewrite Hbl in *.
  assert (inc p2p_auth_rejections (counters s) p2p_auth_rejections
          = counters s p2p_auth_rejections + 1) as Hinc.
  { unfold inc. rewrite decide_True by done. apply wrap_small. unfold in_u in *. lia. }
  rewrite Hinc in H4. rewrite H4; unfold in_u in *; lia.
Qed.

Lemma unauthenticated_frames_ignored_witness :
  let '(s', e) := serve_p2p_io_with_engine (M := pair_mac) (C := demo_codec) b!"c" b!"s"
      (fun _ => 100) (fun _ => false) NoEngine
      [(V2 (P2PDataPlaneEnvelope b!"c" 1 100 b!"x" b!"forged"), 100);
       (V2 (P2PCancelInference b!"c" b!"t"), 100)]
      (session_start SecurityMetrics_default) in
  replay s' = new /\ conn s' = mkConn 1 [] /\ e = err_eof
  /\ (in_u 64 (0 + 2) -> 0 <= 0 -> counters s' p2p_auth_rejections = 0 + 2).
Proof.
  apply (unauthenticated_frames_ignored (M := pair_mac) (C := demo_codec) b!"c" b!"s"
      (fun _ => 100) (fun _ => false) NoEngine
      [(V2 (P2PDataPlaneEnvelope b!"c" 1 100 b!"x" b!"forged"), 100);
       (V2 (P2PCancelInference b!"c" b!"t"), 100)] (session_start SecurityMetrics_default)).
  constructor; [right; vm_compute; discriminate|]. constructor; [exact I|constructor].
Defined.

(** Over TCP the sequence number is counted only when the phase changes: two batches of the
    same phase that are sent because they are full carry the same number. *)
Theorem tcp_chunks_repeat_numbers `{M : Mac} `{C : Codec} (connection_id secret task_id : bytes)
    (clock : nat -> Z) (fails : nat -> bool) (phase : OutputPhase) (x y : bytes)
    (s s1 s2 : PeerLoop) :
  p_buf s = [] -> MAX_BATCH <= blen x -> MAX_BATCH <= blen y ->
  peer_seg connection_id secret clock fails task_id s (phase, x) = Going s1 ->
  peer_seg connection_id secret clock fails task_id s1 (phase, y) = Going s2 ->
  exists e1 e2 a1 f1 a2 f2,
    written (p_conn s2) = written (p_conn s)
      ++ [(V2 (P2PInferenceChunk connection_id task_id (p_seq s) x phase false None a1 f1), e1);
          (V2 (P2PInferenceChunk connection_id task_id (p_seq s) y phase false None a2 f2), e2)].
Proof.
  assert (forall s z s', p_buf s = [] -> MAX_BATCH <= blen z ->
    peer_seg connection_id secret clock fails task_id s (phase, z) = Going s' ->
    p_buf s' = [] /\ p_seq s' = p_seq s
    /\ exists e a f, written (p_conn s') = written (p_conn s)
         ++ [(V2 (P2PInferenceChunk connection_id task_id (p_seq s) z phase false None a f), e)]) as Hone.
  { intros s0 z s' Hb Hz. unfold peer_seg.
    rewrite bool_decide_false by (intros ->; unfold MAX_BATCH, blen in Hz; cbn in Hz; lia).
    cbn [p_buf]. rewrite Hb. rewrite bool_decide_true by done. cbn [sbind p_buf app].
    rewrite (proj2 (Z.leb_le _ _)) by done. unfold peer_flush. cbn [p_conn].
    destruct (write_signed_p2p_command _ _ _ _ _ _) as [c|] eqn:Ew; [|done]. cbn [sbind].
    intros [= <-]. split; [done|]. split; [done|]. apply write_extends in Ew as (e & Hw & _).
    cbn [p_conn]. rewrite Hw. unfold peer_chunk. cbn. eauto. }
  intros Hb Hx Hy E1 E2. destruct (Hone _ _ _ Hb Hx E1) as (Hb1 & Hs1 & e1 & a1 & f1 & W1).
  destruct (Hone _ _ _ Hb1 Hy E2) as (_ & _ & e2 & a2 & f2 & W2).
  exists e1, e2, a1, f1, a2, f2. by rewrite W2, W1, Hs1, <- app_assoc.
Qed.
End PeerFacts.
