(* ===== verification/Relay.v ===== *)
(** * The TURN/UDP task ([gpuf-c/src/handle/handle_tcp.rs], after [turn_allocate_udp])

    The loop that serves peers through a TURN relay: taking datagrams from the inbox of the
    acknowledged sender or from the socket, asking for permissions, reassembling requests and
    sending the answers back through the relay. Built from [Stun], [Reassembly] and
    [PeerServe]; what the socket receives is an argument. *)

From S2P Require Import Prelude Wire P2P P2PSend Reassembly Text Output Ids Scheduler Streams DeviceStream Thinking LlamaServer Stun PeerServe.
From Stdlib Require Import ZArith Lia String.
From Stdlib Require Import Strings.Byte.
From stdpp Require Import base list gmap.

Local Open Scope Z_scope.
Import Framing Packet.

Record TurnTask := mkTask {
  permitted : gset SocketAddr; tt_reassembly : P2PUdpReassemblyState;
  tt_inbox : RelayInbox; tt_next_msg_id : Z }.

Definition task_start : TurnTask := mkTask ∅ reassembly_new [] 1.

(** The readings of the clocks in one round. *)
Record Instants := mkInstants { secs_now : Z; i1 : Z; i2 : Z; i3 : Z; i4 : Z; i5 : Z; i6 : Z }.

(** What one round finds: the datagram the socket gives when the inbox is empty ([Err] ends the
    task), the transaction id of a permission request and its reply, and the events of the
    socket during each message of the answer. *)
Record RoundEnv := mkRound {
  r_recv : result bytes; r_perm_txid : bytes; r_perm_reply : result bytes;
  r_instants : Instants; r_ack_txid : bytes; r_clock : Z -> Z; r_events : list (list RelayEvent) }.

Section Task.
Context `{S : StunCrypto} `{M : Mac} `{C : Codec}.
Context (connection_id secret username password realm nonce : bytes) (engine : Engine).

(** The datagram of the round: [Err] ends the task, [None] skips the round. *)
Definition next_datagram (env : RoundEnv) (inbox : RelayInbox)
    : result (option (SocketAddr * bytes) * RelayInbox) :=
  match inbox with
  | pd :: rest => Ok (Some pd, rest)
  | [] =>
      let? dgram := r_recv env in
      Ok (turn_parse_data_indication (take (Z.to_nat RELAY_BUF) dgram), [])
  end.

(** As over UDP, except that a datagram without a header is not held against its source. *)
Definition turn_receive (data : bytes) (from : SocketAddr) (t : Instants) (st : P2PUdpReassemblyState)
    : RecvResult * P2PUdpReassemblyState :=
  let '(banned, st) := is_source_banned from (i1 t) (i2 t) st in
  if banned then (Dropped, st)
  else match p2p_udp_parse_header data with
  | None => (Dropped, st)
  | Some h =>
      if negb (Z.land (flags h) P2P_UDP_FLAG_ACK =? 0) then (Dropped, st)
      else
        let payload := drop (Z.to_nat P2P_UDP_HEADER_LEN) data in
        match p2p_udp_validate_fragment secret connection_id h payload (secs_now t) with
        | Err _ => (Dropped, record_invalid_source from (i3 t) (i4 t) st)
        | Ok _ =>
            match accept_fragment from (msg_id h) (frag_idx h) (frag_cnt h) payload (i3 t) (i4 t) st with
            | (Err _, st) => (Dropped, record_invalid_source from (i5 t) (i6 t) st)
            | (Ok full, st) =>
                let ack := p2p_udp_ack_packet connection_id secret (msg_id h) (secs_now t) in
                match full with
                | None => (Acked ack, st)
                | Some full =>
                    match Datagram.udp_decode_command full with
                    | Ok (V2 (P2PInferenceRequest req_conn_id task model prompt params)) =>
                        if bool_decide (req_conn_id <> connection_id) then (Acked ack, st)
                        else (Delivered ack task prompt params, st)
                    | _ => (Acked ack, st)
                    end
                end
            end
        end
  end.

(** The messages of an answer, each by the acknowledged sender; failures are ignored. *)
Fixpoint relay_messages (peer : SocketAddr) (clock : Z -> Z) (msgs : list (Z * bytes))
    (events : list (list RelayEvent)) (inbox : RelayInbox) : list bytes * RelayInbox :=
  match msgs with
  | [] => ([], inbox)
  | (mid, pkt) :: msgs' =>
      let '(evs, events) := match events with e :: r => (e, r) | [] => ([], []) end in
      let '(sent, inbox) :=
        match turn_send_reliable_over_indication peer connection_id secret mid pkt clock evs inbox with
        | Ok (sent, inbox, _) => (concat sent, inbox)
        | Err _ => ([], inbox)
        end in
      let '(rest, inbox) := relay_messages peer clock msgs' events inbox in
      (sent ++ rest, inbox)
  end.

(** The permission of the round: asked for when the peer has none yet; [None] is a panic. *)
Definition ask_permission (env : RoundEnv) (peer : SocketAddr) (granted : gset SocketAddr)
    : option (list bytes * gset SocketAddr) :=
  if bool_decide (peer ∈ granted) then Some ([], granted)
  else
    let '(sent, r) := turn_create_permission peer username password realm nonce
                        (r_perm_txid env) (r_perm_reply env) in
    r ← r;
    Some (sent, match r with Ok _ => {[peer]} ∪ granted | Err _ => granted end).

Inductive RoundResult :=
  | TaskEnds
  | TaskPanics
  | TaskGoesOn (sent : list bytes) (task : TurnTask).

Definition only_llama_turn : bytes := b!"P2P TURN/UDP streaming is only supported for LLAMA engine".

Definition turn_round (env : RoundEnv) (task : TurnTask) : RoundResult :=
  match next_datagram env (tt_inbox task) with
  | Err _ => TaskEnds
  | Ok (None, inbox) =>
      TaskGoesOn [] (mkTask (permitted task) (tt_reassembly task) inbox (tt_next_msg_id task))
  | Ok (Some (peer, data), inbox) =>
      match ask_permission env peer (permitted task) with
      | None => TaskPanics
      | Some (asked, granted) =>
          let '(r, st) := turn_receive data peer (r_instants env) (tt_reassembly task) in
          let ack_sent ack := [send_indication_msg peer (r_ack_txid env) ack] in
          match r with
          | Dropped => TaskGoesOn asked (mkTask granted st inbox (tt_next_msg_id task))
          | Acked ack => TaskGoesOn (asked ++ ack_sent ack) (mkTask granted st inbox (tt_next_msg_id task))
          | Delivered ack task_id prompt params =>
              match udp_answer connection_id only_llama_turn engine task_id prompt params with
              | None => TaskPanics
              | Some cmds =>
                  let '(msgs, next) := udp_messages (tt_next_msg_id task) cmds in
                  let '(sent, inbox) := relay_messages peer (r_clock env) msgs (r_events env) inbox in
                  TaskGoesOn (asked ++ ack_sent ack ++ sent) (mkTask granted st inbox next)
              end
          end
      end
  end.
End Task.

(** ** Facts *)
Module RelayFacts.
Import ReassemblyFacts StunFacts.

Section Rounds.
Context `{S : StunCrypto} `{M : Mac} `{C : Codec}.
Context (connection_id secret username password realm nonce : bytes) (engine : Engine).
#[local] Abbreviation round := (turn_round connection_id secret username password realm nonce engine).

(** The states of the task, with the peers whose datagrams it has taken. *)
Inductive task_reach : TurnTask -> gset SocketAddr -> Prop :=
  | task_init : task_reach task_start ∅
  | task_next t H env sent t' :
      task_reach t H -> round env t = TaskGoesOn sent t' ->
      task_reach t'
        (match next_datagram env (tt_inbox t) with
         | Ok (Some (peer, _), _) => {[peer]} ∪ H
         | _ => H
         end).

Lemma parse_header_idx buf h : p2p_udp_parse_header buf = Some h -> 0 <= frag_idx h.
Proof.
  unfold p2p_udp_parse_header. repeat case_match; try done. intros [= <-]. cbn.
  apply of_be_range.
Qed.

Lemma turn_receive_reachable data from t st :
  reachable st -> reachable (turn_receive connection_id secret data from t st).2.
Proof.
  intros Hr. unfold turn_receive.
  pose proof (reach_banned st from (i1 t) (i2 t) Hr) as Hb.
  destruct (is_source_banned from (i1 t) (i2 t) st) as [banned st1]. cbn [snd] in Hb.
  destruct banned; [done|]. destruct (p2p_udp_parse_header data) as [h|] eqn:Eh; [|done].
  destruct (negb _); [done|]. destruct (p2p_udp_validate_fragment _ _ _ _ _); [|by apply reach_invalid].
  pose proof (reach_accept st1 from (msg_id h) (frag_idx h) (frag_cnt h)
    (drop (Z.to_nat P2P_UDP_HEADER_LEN) data) (i3 t) (i4 t) Hb (parse_header_idx _ _ Eh)) as Ha.
  destruct (accept_fragment _ _ _ _ _ _ _ _) as [[full|e] st2]; cbn [snd] in Ha.
  - destruct full as [full|]; [|done]. by repeat case_match.
  - by apply reach_invalid.
Qed.

Lemma ask_permission_grants env peer granted sent granted' :
  ask_permission username password realm nonce env peer granted = Some (sent, granted') ->
  granted' ⊆ {[peer]} ∪ granted /\ blen sent <= 1 /\ (peer ∈ granted -> sent = []).
Proof.
  unfold ask_permission. case_bool_decide as Hp.
  - intros [= <- <-]. split; [set_solver|]. split; [done|done].
  - unfold turn_create_permission. destruct (r_perm_reply env) as [reply|e].
    + destruct (msg_type_of _) as [ty|]; [|done]. cbn. intros [= <- <-].
      destruct (ty =? 0x0108); cbn; (split; [set_solver|]); split; done.
    + cbn. intros [= <- <-]. split; [set_solver|]. split; done.
Qed.

Lemma round_spec env t sent t' :
  round env t = TaskGoesOn sent t' ->
  (reachable (tt_reassembly t) -> reachable (tt_reassembly t'))
  /\ (permitted t' = permitted t
      \/ exists peer data inbox, next_datagram env (tt_inbox t) = Ok (Some (peer, data), inbox)
           /\ permitted t' ⊆ {[peer]} ∪ permitted t).
Proof.
  unfold turn_round. destruct (next_datagram env (tt_inbox t)) as [[[[peer data]|] inbox]|e] eqn:En; [| |done].
  2: { intros [= <- <-]. split; [done|]. by left. }
  destruct (ask_permission _ _ _ _ _ _ _) as [[asked granted]|] eqn:Ea; [|done].
  pose proof (turn_receive_reachable data peer (r_instants env) (tt_reassembly t)) as Hr.
  destruct (turn_receive _ _ _ _ _ _) as [r st]. cbn [snd] in Hr.
  apply ask_permission_grants in Ea as (Hg & _). intros H.
  assert (tt_reassembly t' = st /\ permitted t' = granted) as [-> ->].
  { destruct r; [by injection H as <- <-..|].
    destruct (udp_answer _ _ _ _ _ _); [|done]. destruct (udp_messages _ _) as [msgs next].
    destruct (relay_messages _ _ _ _ _ _ _) as [s i]. by injection H as <- <-. }
  split; [done|]. right. eauto.
Qed.

Lemma reach_inv t H : task_reach t H -> reachable (tt_reassembly t) /\ permitted t ⊆ H.
Proof.
  induction 1 as [|t H env sent t' _ [IHr IHp] E]; [split; [constructor|done]|].
  apply round_spec in E as [Hr Hp]. split; [by apply Hr|].
  destruct Hp as [->|(peer & data & inbox & -> & Hp)]; [|set_solver].
  destruct (next_datagram _ _) as [[[[peer data]|] inbox]|e]; set_solver.
Qed.
End Rounds.

(** The relay task stays within bounds whatever arrives: in every state it can reach its
    reassembly memory satisfies the data plane's limits, and it holds permissions only for
    peers whose datagrams it has already received. *)
Theorem relay_task_bounded `{S : StunCrypto} `{M : Mac} `{C : Codec}
    (connection_id secret username password realm nonce : bytes) (engine : Engine)
    (t : TurnTask) (heard : gset SocketAddr) :
  task_reach connection_id secret username password realm nonce engine t heard ->
  state_inv (tt_reassembly t) /\ permitted t ⊆ heard.
Proof.
  intros H. apply reach_inv in H as [Hr Hp]. split; [|done]. by apply reassembly_reachable_inv.
Qed.

Definition demo_round (reply : result bytes) : RoundEnv :=
  mkRound (Ok (stun_build_message (C := demo_crypto) 0x0017 demo_txid
                 [(0x0012, turn_encode_xor_peer_address P2PSendFacts.demo_peer demo_txid); (0x0013, b!"x")]
                 None false))
    demo_txid reply (mkInstants 0 0 0 0 0 0 0) demo_txid (fun _ => 0) [].

Definition noise_round : RoundEnv :=
  mkRound (Ok b!"not a STUN message") demo_txid (Err []) (mkInstants 0 0 0 0 0 0 0) demo_txid
    (fun _ => 0) [].

Lemma relay_task_bounded_witness :
  state_inv (tt_reassembly task_start) /\ permitted task_start ⊆ ∅.
Proof.
  apply (relay_task_bounded (S := demo_crypto) (M := P2PSendFacts.demo_mac)
    (C := FramingFacts.demo_codec) b!"c" b!"s" b!"u" b!"p" b!"r" b!"n" NoEngine).
  apply (task_next (S := demo_crypto) (M := P2PSendFacts.demo_mac) (C := FramingFacts.demo_codec)
    b!"c" b!"s" b!"u" b!"p" b!"r" b!"n" NoEngine task_start ∅ noise_round [] task_start);
    [constructor|reflexivity].
Defined.

(** A datagram that arrives while the task waits for the answer to a permission request is
    lost: it is taken for the answer, so the round is the one in which nothing arrived. *)
Theorem permission_wait_loses_datagram `{S : StunCrypto} {L : StunCryptoLaws S} `{M : Mac} `{C : Codec}
    (connection_id secret username password realm nonce : bytes) (engine : Engine)
    (env : RoundEnv) (t : TurnTask) (from : SocketAddr) (txid data : bytes) :
  addr_ok from -> length txid = 12%nat -> blen data <= 1024 ->
  let ind := stun_build_message 0x0017 txid
               [(0x0012, turn_encode_xor_peer_address from txid); (0x0013, data)] None true in
  let with_reply r := mkRound (r_recv env) (r_perm_txid env) r (r_instants env)
                        (r_ack_txid env) (r_clock env) (r_events env) in
  turn_parse_data_indication ind = Some (from, data)
  /\ turn_round connection_id secret username password realm nonce engine (with_reply (Ok ind)) t
     = turn_round connection_id secret username password realm nonce engine
         (with_reply (Err b!"deadline has elapsed")) t.
Proof.
  intros Ha Htx Hd ind with_reply. split; [apply data_indication_parses; [done..|lia]|].
  assert (forall peer granted,
    ask_permission username password realm nonce (with_reply (Ok ind)) peer granted
    = ask_permission username password realm nonce (with_reply (Err b!"deadline has elapsed")) peer granted) as Hask.
  { intros peer granted. unfold ask_permission, turn_create_permission.
    case_bool_decide; [done|]. cbn [r_perm_reply r_perm_txid with_reply].
    assert (msg_type_of (take (Z.to_nat RECV_BUF) ind) = Some 0x0017) as ->; [|done].
    destruct (built_reads _ _ _ _ _ (indication_ok 0x0017 from txid data true ltac:(unfold in_u; lia)
      Ha Htx ltac:(lia))) as (tr & _ & _ & H2 & _ & _ & _ & H5).
    unfold msg_type_of. rewrite length_take.
    rewrite (proj2 (Nat.ltb_ge _ _)) by (unfold RECV_BUF; fold ind in H5; lia).
    apply (f_equal Some). etransitivity; [|exact H2]. apply (f_equal of_be).
    unfold sl. by rewrite !drop_0, firstn_firstn. }
  unfold turn_round. cbn [next_datagram].
  change (next_datagram (with_reply (Ok ind))) with (next_datagram env).
  change (next_datagram (with_reply (Err b!"deadline has elapsed"))) with (next_datagram env).
  destruct (next_datagram env (tt_inbox t)) as [[[[peer d]|] inbox]|e]; [|done|done].
  rewrite Hask. done.
Qed.

Lemma permission_wait_loses_datagram_witness :
  turn_round (S := demo_crypto) (M := P2PSendFacts.demo_mac) (C := FramingFacts.demo_codec)
    b!"c" b!"s" b!"u" b!"p" b!"r" b!"n" NoEngine
    (demo_round (Ok (stun_build_message (C := demo_crypto) 0x0017 demo_txid
       [(0x0012, turn_encode_xor_peer_address demo_v6 demo_txid); (0x0013, b!"data")] None true)))
    task_start
  = turn_round (S := demo_crypto) (M := P2PSendFacts.demo_mac) (C := FramingFacts.demo_codec)
      b!"c" b!"s" b!"u" b!"p" b!"r" b!"n" NoEngine
      (demo_round (Err b!"deadline has elapsed")) task_start.
Proof.
  refine (proj2 (permission_wait_loses_datagram (S := demo_crypto) (M := P2PSendFacts.demo_mac)
    (C := FramingFacts.demo_codec) b!"c" b!"s" b!"u" b!"p" b!"r" b!"n" NoEngine
    (demo_round (Ok [])) task_start demo_v6 demo_txid b!"data" demo_v6_ok eq_refl _)).
  vm_compute. congruence.
Defined.
End RelayFacts.
