(* ===== verification/Heartbeats.v ===== *)
(** * Heartbeats and daily statistics ([gpuf-s/src/consumer], [gpuf-s/src/db/stats.rs],
    [gpuf-s/src/bin/heartbeat_consumer.rs], [scripts/device_points_daily_incremental.sql])

    The way from a heartbeat of a device to the points it earns: the consumer batches the
    messages of the topic, the processor records each in one transaction (raw heartbeat,
    status of the client, current devices, daily statistics of client and devices), a sweep
    marks silent clients offline, and the points of a day are computed from its statistics.
    The tables are finite maps keyed by their primary keys, a statement is a function of the
    tables that may fail, and a transaction that fails leaves them as they were. Times are
    microseconds, a date is a day number. The columns [id], [created_at] and [updated_at] of
    the statistics are not read and are left out. *)
From S2P Require Import Prelude Wire Ids Catalog Scheduler Session Points.
From Stdlib Require Import ZArith QArith Qround Lia String.
From Stdlib Require Import Strings.Byte.
From stdpp Require Import base list list_numbers gmap fin_maps.

Local Open Scope Z_scope.
Import Lanes.

(** ** The consumer: messages are collected and sent on in batches *)
Section Consumer.
Context {Msg : Type}.

(** What a wait of at most a second for the next message ends with, and when. *)
Inductive KafkaEvent := Received (m : Msg) (t : Z) | RecvError | Timeout (t : Z).

Record Consumer := mkConsumer {
  message_buffer : list Msg; last_flush : Z; batches : list (list Msg); running : bool }.

Definition flush_interval : Z := 1000000.

(** Send the buffer; [closed] says whether the processor is gone at the k-th batch. *)
Definition send_batch (closed : nat -> bool) (t : Z) (c : Consumer) : Consumer :=
  if closed (length (batches c)) then mkConsumer [] (last_flush c) (batches c) false
  else mkConsumer [] t (batches c ++ [message_buffer c]) true.

Definition on_event (closed : nat -> bool) (batch_size : Z) (c : Consumer) (e : KafkaEvent)
    : Consumer :=
  if negb (running c) then c
  else match e with
  | Received m t =>
      let c := mkConsumer (message_buffer c ++ [m]) (last_flush c) (batches c) true in
      if batch_size <=? blen (message_buffer c) then send_batch closed t c else c
  | RecvError => c
  | Timeout t =>
      if negb (bool_decide (length (message_buffer c) = 0%nat))
         && (flush_interval <=? t - last_flush c)
      then send_batch closed t c else c
  end.

Definition start_consumer (closed : nat -> bool) (batch_size now : Z) (events : list KafkaEvent)
    : Consumer :=
  fold_left (on_event closed batch_size) events (mkConsumer [] now [] true).
End Consumer.
Arguments KafkaEvent : clear implicits.
Arguments Consumer : clear implicits.

(** ** Numbers of the statistics *)

(** [double precision], with the operations the statements use. *)
Class Float := {
  F : Type; f_of_Z : Z -> F; f_add : F -> F -> F; f_mul : F -> F -> F; f_div : F -> F -> F }.

(** Exact arithmetic. *)
Definition QFloat : Float := {|
  F := Q; f_of_Z := inject_Z; f_add := Qplus; f_mul := Qmult; f_div := Qdiv |}.

Definition as_i16 (z : Z) : Z := (z + 2 ^ 15) mod 2 ^ 16 - 2 ^ 15.
Definition as_i64 (z : Z) : Z := (z + 2 ^ 63) mod 2 ^ 64 - 2 ^ 63.

(** [u32::try_into::<i32>().unwrap_or(0)] and the same for [u64] and [i64]. *)
Definition i32_or_0 (z : Z) : Z := if z <? 2 ^ 31 then z else 0.
Definition i64_or_0 (z : Z) : Z := if z <? 2 ^ 63 then z else 0.

Definition date_naive (ts : Z) : Z := ts / 86400000000.
Definition timestamp_secs (ts : Z) : Z := ts / 1000000.

(** [EXTRACT(EPOCH FROM ts)::BIGINT] rounds to the nearest second. *)
Definition epoch_bigint (ts : Z) : Z :=
  if 0 <=? ts then (ts + 500000) / 1000000 else - ((- ts + 500000) / 1000000).

(** ** Tables *)

(** A raw heartbeat, keyed by client and time. *)
Record HeartbeatRow := mkHbRow {
  h_cpu : Z; h_mem : Z; h_disk : Z; h_network_up : Z; h_network_down : Z }.

Record SystemRow := mkSystemRow {
  y_cpu : Z; y_mem : Z; y_disk : Z; y_total_tflops : Z; y_device_memsize : Z;
  y_device_count : Z }.

(** A current device, keyed by client and index. *)
Record DeviceRow := mkDeviceRow {
  v_device_name : bytes; v_device_id : Z; v_vendor_id : Z; v_memusage : Z; v_gpuusage : Z;
  v_powerusage : Z; v_temp : Z }.

(** An asset is that of [Catalog], with the time of its last update in microseconds. *)
Section Stats.
Context `{Fl : Float}.

(** Keyed by client and date. *)
Record ClientDailyStats := mkClientStats {
  c_total_heartbeats : Z; c_avg_cpu : option F; c_avg_memory : option F; c_avg_disk : option F;
  c_network_in : option Z; c_network_out : option Z; c_last_heartbeat : Z; c_bucket : Z }.

(** Keyed by client, device index and date. *)
Record DeviceDailyStats := mkDeviceStats {
  d_device_name : bytes; d_total_heartbeats : Z; d_avg_utilization : option F;
  d_avg_temperature : option F; d_avg_power : option F; d_avg_memory : option F;
  d_last_heartbeat : Z; d_bucket : Z }.

Record Db := mkDb {
  heartbeat : gmap (ClientId * Z) HeartbeatRow;
  assets : gmap ClientId Asset;
  system_info : gmap ClientId SystemRow;
  device_info : gmap (ClientId * Z) DeviceRow;
  client_stats : gmap (ClientId * Z) ClientDailyStats;
  device_stats : gmap (ClientId * Z * Z) DeviceDailyStats;
  heartbeat_config_daily : gmap Z Z }.

Definition set_heartbeat t db := mkDb t (assets db) (system_info db) (device_info db)
  (client_stats db) (device_stats db) (heartbeat_config_daily db).
Definition set_assets t db := mkDb (heartbeat db) t (system_info db) (device_info db)
  (client_stats db) (device_stats db) (heartbeat_config_daily db).
Definition set_system_info t db := mkDb (heartbeat db) (assets db) t (device_info db)
  (client_stats db) (device_stats db) (heartbeat_config_daily db).
Definition set_device_info t db := mkDb (heartbeat db) (assets db) (system_info db) t
  (client_stats db) (device_stats db) (heartbeat_config_daily db).
Definition set_client_stats t db := mkDb (heartbeat db) (assets db) (system_info db)
  (device_info db) t (device_stats db) (heartbeat_config_daily db).
Definition set_device_stats t db := mkDb (heartbeat db) (assets db) (system_info db)
  (device_info db) (client_stats db) t (heartbeat_config_daily db).

(** ** Transactions: a statement fails when the connection does ([fails], by its position in
    the transaction) or by itself; a panic of the code is a third outcome. *)
Inductive txr (A : Type) := TRet (a : A) (n : nat) (db : Db) | TErr (e : bytes) | TPanic.
Arguments TRet {A} a n db.
Arguments TErr {A} e.
Arguments TPanic {A}.

Definition Tx (A : Type) : Type := nat -> Db -> txr A.
Definition tret {A} (a : A) : Tx A := fun n db => TRet a n db.
Definition tpanic {A} : Tx A := fun _ _ => TPanic.
Definition tbind {A B} (x : Tx A) (f : A -> Tx B) : Tx B := fun n db =>
  match x n db with TRet a n db => f a n db | TErr e => TErr e | TPanic => TPanic end.
Notation "'tx!' x := r 'in' k" := (tbind r (fun x => k))
  (at level 10, x pattern, r at level 100, k at level 200).

Section Run.
Context (fails : nat -> bool).

Definition stmt (f : Db -> result Db) : Tx () := fun n db =>
  if fails n then TErr err_db
  else match f db with Ok db => TRet () (S n) db | Err e => TErr e end.

Definition query {A} (f : Db -> A) : Tx A := fun n db =>
  if fails n then TErr err_db else TRet (f db) (S n) db.

(** *** The daily statistics of a client *)

(** [(COALESCE(avg, 0) * n + new) / (n + 1)]. *)
Definition avg_next (n : Z) (old new : option F) : option F :=
  x ← new; Some (f_div (f_add (f_mul (default (f_of_Z 0) old) (f_of_Z n)) x) (f_of_Z (n + 1))).

Definition err_overflow : bytes := b!"value out of range".
Definition err_division : bytes := b!"division by zero".
Definition err_syntax : bytes := b!"syntax error".
Definition err_unique : bytes := b!"duplicate key value violates unique constraint".
Definition err_twice : bytes := b!"ON CONFLICT DO UPDATE command cannot affect row a second time".

(** The sum of two [BIGINT] columns, [NULL] counting as zero. *)
Definition bigint_add (a b : option Z) : result (option Z) :=
  let s := default 0 a + default 0 b in
  if in_i64 s then Ok (Some s) else Err err_overflow.

(** [ON CONFLICT (client_id, date) DO UPDATE]. *)
Definition merge_client (new old : ClientDailyStats) : result ClientDailyStats :=
  let n := c_total_heartbeats old in
  if c_bucket old <? c_bucket new then
    let? net_in := bigint_add (c_network_in new) (c_network_in old) in
    let? net_out := bigint_add (c_network_out new) (c_network_out old) in
    if 2 ^ 31 <=? n + 1 then Err err_overflow
    else Ok (mkClientStats (n + 1) (avg_next n (c_avg_cpu old) (c_avg_cpu new))
               (avg_next n (c_avg_memory old) (c_avg_memory new))
               (avg_next n (c_avg_disk old) (c_avg_disk new)) net_in net_out
               (Z.max (c_last_heartbeat old) (c_last_heartbeat new)) (c_bucket new))
  else Ok (mkClientStats n (c_avg_cpu old) (c_avg_memory old) (c_avg_disk old)
             (c_network_in old) (c_network_out old)
             (Z.max (c_last_heartbeat old) (c_last_heartbeat new)) (c_bucket old)).

Definition client_stats_upsert (client_id : ClientId) (cpu memory disk : option F)
    (network_in network_out : option Z) (timestamp : Z) (db : Db) : result Db :=
  let day := date_naive timestamp in
  let interval := default 120 (heartbeat_config_daily db !! day) in
  if interval =? 0 then Err err_division
  else
    let new := mkClientStats 1 cpu memory disk network_in network_out timestamp
                 (Z.quot (epoch_bigint timestamp) interval) in
    let? row := match client_stats db !! (client_id, day) with
                | None => Ok new
                | Some old => merge_client new old
                end in
    Ok (set_client_stats (<[(client_id, day) := row]> (client_stats db)) db).

(** *** The daily statistics of the devices *)

(** [ON CONFLICT (date, client_id, device_index) DO UPDATE]. *)
Definition avg_or_new (n : Z) (old new : option F) : option F :=
  if n =? 0 then new else avg_next n old new.

Definition merge_device (new old : DeviceDailyStats) : result DeviceDailyStats :=
  let n := d_total_heartbeats old in
  if d_bucket old <? d_bucket new then
    if 2 ^ 31 <=? n + 1 then Err err_overflow
    else Ok (mkDeviceStats (d_device_name new) (n + 1)
               (avg_or_new n (d_avg_utilization old) (d_avg_utilization new))
               (avg_or_new n (d_avg_temperature old) (d_avg_temperature new))
               (avg_or_new n (d_avg_power old) (d_avg_power new))
               (avg_or_new n (d_avg_memory old) (d_avg_memory new))
               (Z.max (d_last_heartbeat old) (d_last_heartbeat new)) (d_bucket new))
  else Ok (mkDeviceStats (d_device_name new) n (d_avg_utilization old) (d_avg_temperature old)
             (d_avg_power old) (d_avg_memory old)
             (Z.max (d_last_heartbeat old) (d_last_heartbeat new)) (d_bucket old)).

(** The name of a model comes from the configuration file of [common]. *)
Context (id_to_model : Z -> option bytes).

Definition device_name (vendor device : Z) : bytes :=
  default b!"Unknown" (id_to_vendor vendor) ++ b!" " ++ default b!"Unknown" (id_to_model device).

(** One row of the batch; [None] is the panic of the lane accessors. *)
Definition stats_row (timestamp bucket : Z) (id : Z * DevicesInfo)
    : option (Z * DeviceDailyStats) :=
  let '(index, device) := id in
  let lane := wrap 64 index in
  vendor ← get_u16_from_u128 (vendor_id device) lane;
  model ← get_u16_from_u128 (device_id device) lane;
  Some (index, mkDeviceStats (device_name vendor model) 1
                 (Some (f_of_Z (usage device))) (Some (f_of_Z (temp device)))
                 (Some (f_of_Z (power_usage device))) (Some (f_of_Z (mem_usage device)))
                 timestamp bucket).

Definition flattened_devices (devices : list DevicesInfo) : list (Z * DevicesInfo) :=
  device ← devices; (fun index => (as_i16 index, device)) <$> seqZ 0 (Wire.num device).

Fixpoint upsert_rows (client_id : ClientId) (day : Z) (rows : list (Z * DeviceDailyStats))
    (t : gmap (ClientId * Z * Z) DeviceDailyStats)
    : result (gmap (ClientId * Z * Z) DeviceDailyStats) :=
  match rows with
  | [] => Ok t
  | (index, new) :: rows =>
      let? row := match t !! (client_id, index, day) with
                  | None => Ok new
                  | Some old => merge_device new old
                  end in
      upsert_rows client_id day rows (<[(client_id, index, day) := row]> t)
  end.

(** The statement: without rows it is malformed, and no row may be affected twice. *)
Definition device_stats_insert (client_id : ClientId) (day : Z)
    (rows : list (Z * DeviceDailyStats)) (db : Db) : result Db :=
  if bool_decide (rows = []) then Err err_syntax
  else if negb (bool_decide (NoDup rows.*1)) then Err err_twice
  else let? t := upsert_rows client_id day rows (device_stats db) in Ok (set_device_stats t db).

Definition upsert_batch (client_id : ClientId) (devices : list DevicesInfo) (timestamp : Z)
    : Tx () :=
  if bool_decide (length devices = 0%nat) then tret ()
  else
    let day := date_naive timestamp in
    tx! interval := query (fun db => default 120 (heartbeat_config_daily db !! day)) in
    let interval := Z.max interval 1 in
    let bucket := Z.max (Z.quot (timestamp_secs timestamp) interval) 0 in
    match mapM (stats_row timestamp bucket) (flattened_devices devices) with
    | None => tpanic
    | Some rows => stmt (device_stats_insert client_id day rows)
    end.

(** *** The heartbeat itself *)

Definition insert_raw (client_id : ClientId) (i : SystemInfo) (timestamp : Z) (db : Db) : result Db :=
  Ok (match heartbeat db !! (client_id, timestamp) with
      | Some _ => db
      | None =>
          set_heartbeat
            (<[(client_id, timestamp) :=
                 mkHbRow (cpu_usage i) (memory_usage i) (disk_usage i)
                   (as_i64 (network_tx i)) (as_i64 (network_rx i))]> (heartbeat db)) db
      end).

Definition mark_online (client_id : ClientId) (now : Z) (db : Db) : result Db :=
  Ok (match assets db !! client_id with
      | Some a =>
          if as_valid a
          then set_assets (<[client_id := mkAsset true b!"online" (as_os_type a) now]> (assets db)) db
          else db
      | None => db
      end).

Definition upsert_system (client_id : ClientId) (i : SystemInfo) (tflops memtotal count : Z)
    (db : Db) : result Db :=
  Ok (set_system_info
        (<[client_id := mkSystemRow (cpu_usage i) (memory_usage i) (disk_usage i) tflops memtotal
                          count]> (system_info db)) db).

Definition delete_devices (client_id : ClientId) (db : Db) : result Db :=
  Ok (set_device_info (filter (fun kv => kv.1.1 <> client_id) (device_info db)) db).

Definition device_row (id : Z * DevicesInfo) : option (Z * DeviceRow) :=
  let '(i, d) := id in
  vendor ← get_u16_from_u128 (vendor_id d) i;
  model ← get_u16_from_u128 (device_id d) i;
  mem ← get_u8_from_u64 (mem_usage d) i;
  gpu ← get_u8_from_u64 (usage d) i;
  power ← get_u8_from_u64 (power_usage d) i;
  t ← get_u8_from_u64 (temp d) i;
  Some (as_i16 i, mkDeviceRow (device_name vendor model) model vendor mem gpu power t).

(** The loop nest over the devices, with the index as the [u16] it is there. *)
Definition device_indices (devices : list DevicesInfo) : list (Z * DevicesInfo) :=
  device ← devices; (fun index => (index, device)) <$> seqZ 0 (Wire.num device).

Fixpoint insert_unique (client_id : ClientId) (rows : list (Z * DeviceRow))
    (t : gmap (ClientId * Z) DeviceRow) : result (gmap (ClientId * Z) DeviceRow) :=
  match rows with
  | [] => Ok t
  | (index, r) :: rows =>
      match t !! (client_id, index) with
      | Some _ => Err err_unique
      | None => insert_unique client_id rows (<[(client_id, index) := r]> t)
      end
  end.

(** Without rows the [VALUES] list is empty. *)
Definition insert_devices (client_id : ClientId) (rows : list (Z * DeviceRow)) (db : Db)
    : result Db :=
  if bool_decide (length rows = 0%nat) then Err err_syntax
  else let? t := insert_unique client_id rows (device_info db) in Ok (set_device_info t db).

Definition insert_heartbeat (client_id : ClientId) (i : SystemInfo) (devices : list DevicesInfo)
    (device_memtotal_gb device_count total_tflops timestamp now : Z) : Tx () :=
  tx! _ := stmt (insert_raw client_id i timestamp) in
  tx! _ := stmt (mark_online client_id now) in
  tx! _ := stmt (upsert_system client_id i total_tflops device_memtotal_gb device_count) in
  tx! _ := stmt (delete_devices client_id) in
  if bool_decide (length devices = 0%nat) then tret ()
  else match mapM device_row (device_indices devices) with
       | None => tpanic
       | Some rows => stmt (insert_devices client_id rows)
       end.

(** The statements of one heartbeat. *)
Definition heartbeat_tx (hb : HeartbeatMessage) (event_ts now : Z) : Tx () :=
  let i := hb_system_info hb in
  tx! _ := insert_heartbeat (hb_client_id hb) i (hb_devices_info hb)
             (i32_or_0 (hb_device_memtotal_gb hb)) (i32_or_0 (hb_device_count hb))
             (i32_or_0 (hb_total_tflops hb)) event_ts now in
  tx! _ := stmt (client_stats_upsert (hb_client_id hb)
             (Some (f_of_Z (cpu_usage i))) (Some (f_of_Z (memory_usage i)))
             (Some (f_of_Z (disk_usage i))) (Some (i64_or_0 (network_rx i)))
             (Some (i64_or_0 (network_tx i))) event_ts) in
  upsert_batch (hb_client_id hb) (hb_devices_info hb) event_ts.
End Run.

(** ** The processor *)
Inductive Timestamp := NotAvailable | CreateTime (ms : Z) | LogAppendTime (ms : Z).
Record OwnedMessage := mkMessage {
  m_key : option bytes; m_timestamp : Timestamp; m_payload : option bytes }.

(** What the processing of one message depends on: the clock, the time of the transaction,
    whether it begins, which statements fail and whether the commit takes effect. *)
Record TxEnv := mkTxEnv {
  e_utc_now : Z; e_tx_now : Z; e_begin : bool; e_stmt_fails : nat -> bool; e_commit : bool }.

(** The decoder of the payload, the times [chrono] can represent, the model names. *)
Context (decode : bytes -> option HeartbeatMessage) (millis_ok : Z -> bool)
        (id_to_model : Z -> option bytes).

Definition event_ts (now : Z) (t : Timestamp) : Z :=
  match t with
  | NotAvailable => now
  | CreateTime ms | LogAppendTime ms => if millis_ok ms then ms * 1000 else now
  end.

Definition process_message (env : TxEnv) (m : OwnedMessage) (db : Db) : option Db :=
  match m_key m with
  | None => Some db
  | Some _ =>
      let ts := event_ts (e_utc_now env) (m_timestamp m) in
      match m_payload m ≫= decode with
      | None => Some db
      | Some hb =>
          if negb (e_begin env) then Some db
          else match heartbeat_tx (e_stmt_fails env) id_to_model hb ts (e_tx_now env) 0%nat db with
               | TRet _ _ db' => Some (if e_commit env then db' else db)
               | TErr _ => Some db
               | TPanic => None
               end
      end
  end.

(** [None]: the process has panicked. *)
Fixpoint process_batch (messages : list (TxEnv * OwnedMessage)) (db : Db) : option Db :=
  match messages with
  | [] => Some db
  | (env, m) :: rest => process_message env m db ≫= process_batch rest
  end.

Fixpoint start_processor (bs : list (list (TxEnv * OwnedMessage))) (db : Db) : option Db :=
  match bs with
  | [] => Some db
  | b :: rest => process_batch b db ≫= start_processor rest
  end.

(** ** The sweep of [main] *)
Definition sweep (offline_after_secs now : Z) (db : Db) : Db :=
  set_assets
    ((fun a => if as_valid a && negb (bool_decide (as_status a = b!"offline"))
                  && (as_updated_at a <? now - offline_after_secs * 1000000)
               then mkAsset true b!"offline" (as_os_type a) now else a) <$> assets db) db.
End Stats.
Arguments TRet {_ A} a n db.
Arguments TErr {_ A} e.
Arguments TPanic {_ A}.

(** ** The points of a day ([refresh_device_points_daily]) *)

(** A row of [device_points_daily], keyed by client, device index and date. *)
Record PointsRow := mkPoints {
  p_total_heartbeats : Z; p_device_id : option Z; p_multiplier : Q; p_base_hours : Z;
  p_points : Q; p_refreshed_at : Z }.

Abbreviation PointsTable := (gmap (ClientId * Z * Z) PointsRow).

Section Refresh.
Context `{Fl : Float}.

(** [device_types] gives the multiplier of a device id; [0.05] without an entry. *)
Definition points_row (device_types : gmap Z Q) (now : Z) (db : Db)
    (k : ClientId * Z * Z) (s : DeviceDailyStats) : PointsRow :=
  let '(client_id, index, date) := k in
  let interval := default 120 (heartbeat_config_daily db !! date) in
  let base_hours := Z.quot (d_total_heartbeats s * interval) 3600 in
  let device_id := v_device_id <$> device_info db !! (client_id, index) in
  let multiplier := default (5 # 100)%Q (device_id ≫= fun i => device_types !! i) in
  mkPoints (d_total_heartbeats s) device_id multiplier base_hours
    (inject_Z base_hours * multiplier)%Q now.

(** Yesterday and today are computed anew, older rows stay. *)
Definition refresh_device_points_daily (device_types : gmap Z Q) (today now : Z) (db : Db)
    (t : PointsTable) : PointsTable :=
  map_imap (fun k s => if (today - 1 <=? k.2) && (k.2 <=? today)
                       then Some (points_row device_types now db k s) else None) (device_stats db)
  ∪ t.
End Refresh.

(** The table as the points synchronisation reads it. *)
Definition daily_points (t : PointsTable) : list DailyPoints :=
  (fun kr => mkDaily kr.1.1.1 kr.1.2 (p_points kr.2) (p_refreshed_at kr.2)) <$> map_to_list t.

(** ** Facts *)
Module HeartbeatFacts.

(** *** Batching *)
Section Batching.
Context {Msg : Type}.

Definition received (e : KafkaEvent Msg) : list Msg :=
  match e with Received m _ => [m] | _ => [] end.

(** What the consumer keeps: everything received, until a batch is refused. *)
Definition consumer_ok (batch_size : Z) (l : list Msg) (c : Consumer Msg) : Prop :=
  (exists lost, l = concat (batches c) ++ message_buffer c ++ lost /\ (running c = true -> lost = []))
  /\ Forall (fun b => 1 <= blen b <= Z.max 1 batch_size) (batches c)
  /\ blen (message_buffer c) < Z.max 1 batch_size.

Lemma send_ok closed bs t l c :
  l = concat (batches c) ++ message_buffer c ->
  Forall (fun b => 1 <= blen b <= Z.max 1 bs) (batches c) ->
  1 <= blen (message_buffer c) <= Z.max 1 bs ->
  consumer_ok bs l (send_batch closed t c).
Proof.
  intros El H Hb. unfold send_batch. destruct (closed _); (split; [|split]); cbn; try done;
    try (unfold blen; cbn; lia).
  - by exists (message_buffer c).
  - exists []. rewrite concat_app. cbn. by rewrite !app_nil_r.
  - apply Forall_app. split; [done|by constructor].
Qed.

Lemma event_ok closed bs l c e :
  consumer_ok bs l c -> consumer_ok bs (l ++ received e) (on_event closed bs c e).
Proof.
  intros ((lost & El & Hl) & Hbs & Hb). unfold on_event. destruct (running c) eqn:Er; cbn [negb].
  2: { split; [|done]. exists (lost ++ received e). rewrite El, <- !app_assoc. by rewrite Er. }
  rewrite (Hl eq_refl), app_nil_r in El. destruct e as [m t| |t]; cbn [received].
  - cbn [message_buffer last_flush batches]. rewrite blen_app. change (blen [m]) with 1.
    destruct (Z.leb_spec bs (blen (message_buffer c) + 1)) as [Hle|Hgt].
    + apply send_ok; cbn; [by rewrite El, app_assoc|done|]. rewrite blen_app. change (blen [m]) with 1.
      pose proof (blen_nonneg (message_buffer c)). lia.
    + split; [exists []; cbn; by rewrite El, app_nil_r, app_assoc|]. split; [done|]. cbn.
      rewrite blen_app. change (blen [m]) with 1. lia.
  - rewrite app_nil_r. split; [exists []; by rewrite app_nil_r|done].
  - rewrite app_nil_r. case_bool_decide as Hn; cbn [negb andb].
    { split; [exists []; by rewrite app_nil_r|done]. }
    destruct (_ <=? _); [|split; [exists []; by rewrite app_nil_r|done]].
    apply send_ok; try done. unfold blen in *. lia.
Qed.

Lemma event_running closed bs (c : Consumer Msg) e :
  (forall k, closed k = false) -> running c = true -> running (on_event closed bs c e) = true.
Proof.
  intros Hc Hr. assert (forall t (c : Consumer Msg), running (send_batch closed t c) = true) as Hs.
  { intros t c'. unfold send_batch. by rewrite Hc. }
  unfold on_event. rewrite Hr. cbn [negb].
  destruct e as [m t| |t]; [destruct (_ <=? _)| |destruct (_ && _)]; by try apply Hs.
Qed.

(** The consumer loses nothing while the processor takes its batches: at every moment what was
    received is what was sent on, in batches of at least one and at most the configured number
    of messages, followed by what is held, which is less than a batch; and a wait that ends
    a second after the last batch leaves nothing held. When a batch is refused the consumer
    stops, and what it had sent on is a beginning of what it received. *)
Theorem consumer_preserves_messages (closed : nat -> bool) (batch_size now : Z)
    (events : list (KafkaEvent Msg)) :
  let c := start_consumer closed batch_size now events in
  let l := events ≫= received in
  consumer_ok batch_size l c
  /\ ((forall k, closed k = false) -> running c = true)
  /\ (forall t, running c = true -> closed (length (batches c)) = false ->
      flush_interval <= t - last_flush c ->
      concat (batches (on_event closed batch_size c (Timeout t))) = l).
Proof.
  cbv zeta. assert (consumer_ok batch_size (events ≫= received)
                      (start_consumer closed batch_size now events)) as Hok.
  { unfold start_consumer. induction events as [|e events IH] using rev_ind.
    - split; [by exists []|]. split; [constructor|]. cbn. unfold blen. cbn. lia.
    - rewrite fold_left_app, bind_app. cbn. rewrite app_nil_r. by apply event_ok. }
  split; [done|]. split.
  - intros Hc. clear Hok. unfold start_consumer.
    induction events as [|e events IH] using rev_ind; [done|]. rewrite fold_left_app.
    cbn [fold_left]. apply event_running; [done|exact IH].
  - intros t Hr Hc Ht. destruct Hok as ((lost & El & Hl) & _). rewrite (Hl Hr), app_nil_r in El.
    unfold on_event. rewrite Hr. cbn [negb]. case_bool_decide as Hn; cbn [negb andb].
    + apply nil_length_inv in Hn. by rewrite El, Hn, app_nil_r.
    + rewrite (proj2 (Z.leb_le _ _) Ht). unfold send_batch. rewrite Hc. cbn.
      rewrite concat_app. cbn. by rewrite app_nil_r.
Qed.
End Batching.

(** *** The observations that count: those in a later bucket than all before *)
Section Kept.
Context {A : Type} (bucket : A -> Z).

Definition keep (ks : list A) (o : A) : list A :=
  match last ks with
  | None => [o]
  | Some k => if bucket k <? bucket o then ks ++ [o] else ks
  end.

Definition kept (l : list A) : list A := fold_left keep l [].

Lemma kept_snoc l o : kept (l ++ [o]) = keep (kept l) o.
Proof. unfold kept. by rewrite fold_left_app. Qed.

Definition increasing (l : list A) : Prop :=
  forall i j a b, (i < j)%nat -> l !! i = Some a -> l !! j = Some b -> bucket a < bucket b.

Lemma kept_spec l :
  (l <> [] -> exists k, last (kept l) = Some k /\ Forall (fun o => bucket o <= bucket k) l)
  /\ increasing (kept l) /\ kept l ⊆ l.
Proof.
  induction l as [|o l (IH1 & IH2 & IH3)] using rev_ind.
  { split; [done|]. split; [|done]. intros i j a b _ E. apply lookup_lt_Some in E. cbn in E. lia. }
  rewrite kept_snoc. unfold keep. destruct (last (kept l)) as [k|] eqn:Ek.
  - assert (l <> []) as Hne by (intros ->; done). destruct (IH1 Hne) as (k' & Ek' & Hk').
    assert (k' = k) as -> by congruence. destruct (Z.ltb_spec (bucket k) (bucket o)) as [Hlt|Hge].
    + split.
      { intros _. exists o. rewrite last_snoc. split; [done|]. apply Forall_app. split.
        - eapply Forall_impl; [exact Hk'|]. cbn. lia.
        - by constructor. }
      split; [|set_solver]. intros i j a b Hij Ea Eb.
      apply lookup_snoc_Some in Eb as [(Hj & Eb)|(Hj & ->)].
      * rewrite lookup_app_l in Ea by lia. exact (IH2 i j a b Hij Ea Eb).
      * rewrite lookup_app_l in Ea by lia. apply list_elem_of_lookup_2 in Ea.
        rewrite Forall_forall in Hk'. specialize (Hk' a (IH3 a Ea)). lia.
    + split; [|split; [done|set_solver]]. intros _. exists k. split; [done|].
      apply Forall_app. split; [done|]. by constructor.
  - assert (l = []) as ->.
    { destruct l as [|a l]; [done|]. destruct (IH1 ltac:(done)) as (k & Ek' & _). congruence. }
    split; [|split; [|set_solver]].
    + intros _. exists o. split; [done|by repeat constructor].
    + intros i j a b Hij Ea Eb. apply lookup_lt_Some in Eb. cbn in Eb. lia.
Qed.

(** Increasing buckets within a range are no more than the range. *)
Lemma increasing_length l lo hi :
  increasing l -> Forall (fun a => lo <= bucket a <= hi) l -> blen l <= Z.max 0 (hi - lo + 1).
Proof.
  revert hi. induction l as [|a l IH] using rev_ind; intros hi Hi Hf; [unfold blen; cbn; lia|].
  apply Forall_app in Hf as [Hf Ha]. inversion_clear Ha as [|? ? Hb _].
  rewrite blen_app. change (blen [a]) with 1. specialize (IH (bucket a - 1)).
  destruct l as [|x l]; [unfold blen; cbn; lia|]. pose proof (blen_nonneg (x :: l)).
  enough (blen (x :: l) <= Z.max 0 (bucket a - 1 - lo + 1)) by lia.
  apply IH.
  - intros i j c d Hij Ec Ed. eapply Hi; [exact Hij| |]; by apply lookup_app_l_Some.
  - apply Forall_forall. intros c Hc. rewrite Forall_forall in Hf. specialize (Hf c Hc).
    apply list_elem_of_lookup in Hc as [i Ei]. pose proof (lookup_lt_Some _ _ _ Ei).
    enough (bucket c < bucket a) by lia. eapply (Hi i (length (x :: l))); [lia| |].
    + by apply lookup_app_l_Some.
    + by rewrite lookup_app_r, Nat.sub_diag by lia.
Qed.
End Kept.

(** *** Transactions *)
Section Daily.
Context `{Fl : Float} (id_to_model : Z -> option bytes).

Lemma tbind_ret {A B} (x : Tx A) (f : A -> Tx B) n db b n' db' :
  tbind x f n db = TRet b n' db' ->
  exists a m db1, x n db = TRet a m db1 /\ f a m db1 = TRet b n' db'.
Proof. unfold tbind. destruct (x n db) as [a m db1| |]; [by exists a, m, db1|done..]. Qed.

Lemma stmt_ret fails f n db u n' db' :
  stmt fails f n db = TRet u n' db' -> f db = Ok db'.
Proof.
  unfold stmt. destruct (fails n); [done|]. destruct (f db); [|done]. intros E. by injection E as _ _ <-.
Qed.

Lemma query_ret {A} fails (f : Db -> A) n db a n' db' :
  query fails f n db = TRet a n' db' -> a = f db /\ db' = db.
Proof. unfold query. destruct (fails n); [done|]. intros E. by injection E as -> _ <-. Qed.

Lemma tbind_eq {A B} (x : Tx A) (f : A -> Tx B) n db r :
  x n db = r ->
  tbind x f n db
  = match r with TRet a n db => f a n db | TErr e => TErr e | TPanic => TPanic end.
Proof. by intros <-. Qed.

(** Take a successful transaction apart. *)
Ltac tx_inv :=
  repeat match goal with
  | H : tbind _ _ _ _ = TRet _ _ _ |- _ =>
      apply tbind_ret in H; destruct H as (? & ? & ? & ? & ?)
  | H : stmt _ _ _ _ = TRet _ _ _ |- _ => apply stmt_ret in H
  | H : query _ _ _ _ = TRet _ _ _ |- _ => apply query_ret in H; destruct H as [? ?]; subst
  | H : tret _ _ _ = TRet _ _ _ |- _ => injection H as _ _ <-
  | H : tpanic _ _ = TRet _ _ _ |- _ => discriminate H
  end.

(** The tables of statistics and the configuration. *)
Definition stats_of (db : Db) := (client_stats db, device_stats db, heartbeat_config_daily db).

Lemma insert_raw_frame c i ts db db' : insert_raw c i ts db = Ok db' -> stats_of db' = stats_of db.
Proof. intros E. injection E as <-. by destruct (heartbeat db !! _). Qed.

Lemma mark_online_frame c now db db' : mark_online c now db = Ok db' -> stats_of db' = stats_of db.
Proof.
  intros E. injection E as <-. destruct (assets db !! c) as [a|]; [|done]. by destruct (as_valid a).
Qed.

Lemma insert_devices_frame c rows db db' :
  insert_devices c rows db = Ok db' -> stats_of db' = stats_of db.
Proof.
  unfold insert_devices. case_bool_decide; [done|].
  intros (t & _ & E)%rbind_Ok. by injection E as <-.
Qed.

Lemma insert_heartbeat_frame fails c i ds mem count tflops ts now n db u n' db' :
  insert_heartbeat fails id_to_model c i ds mem count tflops ts now n db = TRet u n' db' ->
  stats_of db' = stats_of db.
Proof.
  unfold insert_heartbeat. intros H. tx_inv.
  repeat match goal with
  | H : insert_raw _ _ _ _ = Ok _ |- _ => apply insert_raw_frame in H
  | H : mark_online _ _ _ = Ok _ |- _ => apply mark_online_frame in H
  | H : upsert_system _ _ _ _ _ _ = Ok ?d |- _ =>
      assert (stats_of d = stats_of _) by (by injection H as <-); clear H
  | H : delete_devices _ _ = Ok ?d |- _ =>
      assert (stats_of d = stats_of _) by (by injection H as <-); clear H
  end.
  match goal with H : context [bool_decide (length ds = 0%nat)] |- _ =>
    case_bool_decide; [|destruct (mapM _ _) as [rows|]]; tx_inv end.
  2: match goal with H : insert_devices _ _ _ = Ok _ |- _ => apply insert_devices_frame in H end.
  all: congruence.
Qed.

Definition hb_bucket (cfg : gmap Z Z) (ts : Z) : Z :=
  Z.max (Z.quot (timestamp_secs ts) (Z.max (default 120 (cfg !! date_naive ts)) 1)) 0.

(** The rows a heartbeat adds. *)
Definition hb_rows (cfg : gmap Z Z) (hb : HeartbeatMessage) (ts : Z)
    : option (list (Z * DeviceDailyStats)) :=
  mapM (stats_row id_to_model ts (hb_bucket cfg ts)) (flattened_devices (hb_devices_info hb)).

Definition client_row (cfg : gmap Z Z) (hb : HeartbeatMessage) (ts : Z) : ClientDailyStats :=
  let i := hb_system_info hb in
  mkClientStats 1 (Some (f_of_Z (cpu_usage i))) (Some (f_of_Z (memory_usage i)))
    (Some (f_of_Z (disk_usage i))) (Some (i64_or_0 (network_rx i))) (Some (i64_or_0 (network_tx i)))
    ts (Z.quot (epoch_bigint ts) (default 120 (cfg !! date_naive ts))).

Lemma heartbeat_tx_inv fails hb ts now n db u n' db' :
  heartbeat_tx fails id_to_model hb ts now n db = TRet u n' db' ->
  let cfg := heartbeat_config_daily db in
  let c := hb_client_id hb in
  let d := date_naive ts in
  heartbeat_config_daily db' = cfg
  /\ (exists row, client_stats db' = <[(c, d) := row]> (client_stats db)
      /\ match client_stats db !! (c, d) with
         | None => Ok (client_row cfg hb ts)
         | Some old => merge_client (client_row cfg hb ts) old
         end = Ok row)
  /\ exists rows, hb_rows cfg hb ts = Some rows
     /\ upsert_rows c d rows (device_stats db) = Ok (device_stats db').
Proof.
  unfold heartbeat_tx. intros H. tx_inv.
  match goal with H : insert_heartbeat _ _ _ _ _ _ _ _ _ _ _ _ = _ |- _ =>
    apply insert_heartbeat_frame in H; injection H as E1 E2 E3 end.
  match goal with H : client_stats_upsert _ _ _ _ _ _ _ _ = Ok _ |- _ =>
    unfold client_stats_upsert in H; rewrite E1, E3 in H;
    destruct (_ =? 0); [discriminate H|];
    apply rbind_Ok in H as (row & Hrow & H); injection H as <- end.
  match goal with H : upsert_batch _ _ _ _ _ _ _ = _ |- _ => rename H into Hd end.
  unfold upsert_batch in Hd. unfold hb_rows.
  case_bool_decide as Hlen.
  - tx_inv. cbn. split; [done|]. split; [by exists row|]. exists [].
    apply nil_length_inv in Hlen. rewrite Hlen. cbn. by rewrite E2.
  - apply tbind_ret in Hd as (? & ? & ? & Hq & Hd). apply query_ret in Hq as [-> ->].
    cbn [heartbeat_config_daily set_client_stats] in Hd. rewrite E3 in Hd.
    fold (hb_bucket (heartbeat_config_daily db) ts) in Hd.
    destruct (mapM _ _) as [rows|] eqn:Em; [apply stmt_ret in Hd|done].
    unfold device_stats_insert in Hd.
    case_bool_decide; [done|]. case_bool_decide; [|done]. cbn [negb] in Hd.
    apply rbind_Ok in Hd as (t & Ht & E). injection E as <-. cbn in Ht |- *. rewrite E2 in Ht.
    split; [done|]. split; [by exists row|]. by exists rows.
Qed.

(** *** A row as the result of merging observations *)
Section Merge.
Context {A : Type} (merge : A -> A -> result A).

Fixpoint merge_all (o : option A) (l : list A) : result (option A) :=
  match l with
  | [] => Ok o
  | new :: l =>
      let? r := match o with None => Ok new | Some old => merge new old end in
      merge_all (Some r) l
  end.

Lemma merge_all_app o l l' :
  merge_all o (l ++ l') = let? o' := merge_all o l in merge_all o' l'.
Proof.
  revert o. induction l as [|a l IH]; intros o; cbn; [done|].
  destruct (match o with None => _ | Some _ => _ end); cbn; [apply IH|done].
Qed.

Lemma merge_all_snoc o l a r :
  merge_all o (l ++ [a]) = Ok r ->
  exists o' r', merge_all o l = Ok o' /\ r = Some r'
    /\ match o' with None => Ok a | Some old => merge a old end = Ok r'.
Proof.
  rewrite merge_all_app. intros (o' & -> & E)%rbind_Ok. cbn in E.
  apply rbind_Ok in E as (r' & E & Er). injection Er as <-. by exists o', r'.
Qed.
End Merge.

(** The observations a heartbeat holds for a device and a day. *)
Definition observed (cfg : gmap Z Z) (k : ClientId * Z * Z) (h : HeartbeatMessage * Z)
    : list DeviceDailyStats :=
  if bool_decide (hb_client_id h.1 = k.1.1 /\ date_naive h.2 = k.2)
  then snd <$> filter (fun r => r.1 = k.1.2) (default [] (hb_rows cfg h.1 h.2))
  else [].

Definition observed_client (cfg : gmap Z Z) (k : ClientId * Z) (h : HeartbeatMessage * Z)
    : list ClientDailyStats :=
  if bool_decide (hb_client_id h.1 = k.1 /\ date_naive h.2 = k.2)
  then [client_row cfg h.1 h.2] else [].

Lemma upsert_rows_merge c day rows t t' :
  upsert_rows c day rows t = Ok t' ->
  (forall i, merge_all merge_device (t !! (c, i, day)) (snd <$> filter (fun r => r.1 = i) rows)
             = Ok (t' !! (c, i, day)))
  /\ (forall c' i d', ~ (c = c' /\ day = d') -> t' !! (c', i, d') = t !! (c', i, d')).
Proof.
  revert t. induction rows as [|[j new] rows IH]; intros t E; cbn in E.
  { injection E as <-. by split. }
  apply rbind_Ok in E as (row & Er & E). apply IH in E as [E1 E2]. split.
  - intros i. specialize (E1 i). rewrite filter_cons. cbn. case_decide as Hj.
    + subst j. cbn. rewrite Er. cbn. by rewrite lookup_insert_eq in E1.
    + rewrite lookup_insert_ne in E1 by congruence. done.
  - intros c' i d' Hn. rewrite E2 by done. apply lookup_insert_ne. intros [= -> _ ->]. by apply Hn.
Qed.

(** The tables hold what merging the recorded heartbeats gives. *)
Definition table_inv (cfg : gmap Z Z) (log : list (HeartbeatMessage * Z)) (db : Db) : Prop :=
  heartbeat_config_daily db = cfg
  /\ (forall k, merge_all merge_device None (log ≫= observed cfg k) = Ok (device_stats db !! k))
  /\ (forall k, merge_all merge_client None (log ≫= observed_client cfg k)
                = Ok (client_stats db !! k)).

Lemma table_inv_tx cfg log db fails hb ts now n u n' db' :
  table_inv cfg log db ->
  heartbeat_tx fails id_to_model hb ts now n db = TRet u n' db' ->
  table_inv cfg (log ++ [(hb, ts)]) db'.
Proof.
  intros (<- & Hd & Hc) E%heartbeat_tx_inv. cbv zeta in E.
  destruct E as (Ecfg & (row & Ec & Erow) & rows & Erows & Ed).
  apply upsert_rows_merge in Ed as [E1 E2]. split; [done|]. split.
  - intros [[c i] d]. rewrite bind_app, merge_all_app, Hd. cbn [rbind].
    unfold observed at 1. cbn. rewrite app_nil_r. rewrite Erows. cbn [default].
    case_bool_decide as Hk; cbn.
    + destruct Hk as [<- <-]. apply E1.
    + by rewrite E2.
  - intros [c d]. rewrite bind_app, merge_all_app, Hc. cbn [rbind].
    unfold observed_client at 1. cbn. rewrite app_nil_r, Ec. case_bool_decide as Hk.
    + destruct Hk as [<- <-]. cbn. rewrite Erow. cbn. by rewrite lookup_insert_eq.
    + cbn. rewrite lookup_insert_ne; [done|]. intros [= Hc1 Hc2]. by apply Hk.
Qed.

Context (decode : bytes -> option HeartbeatMessage) (millis_ok : Z -> bool).

(** The heartbeat a message records, if its transaction takes effect. *)
Definition recorded (env : TxEnv) (m : OwnedMessage) (db : Db) : list (HeartbeatMessage * Z) :=
  match m_key m, m_payload m ≫= decode with
  | Some _, Some hb =>
      let ts := event_ts millis_ok (e_utc_now env) (m_timestamp m) in
      match heartbeat_tx (e_stmt_fails env) id_to_model hb ts (e_tx_now env) 0%nat db with
      | TRet _ _ _ => if e_begin env && e_commit env then [(hb, ts)] else []
      | _ => []
      end
  | _, _ => []
  end.

(** Any messages, with any failures, and sweeps in between; the log of what was recorded. *)
Inductive reach (db0 : Db) : Db -> list (HeartbeatMessage * Z) -> Prop :=
  | reach_start : reach db0 db0 []
  | reach_message db log env m db' :
      reach db0 db log -> process_message decode millis_ok id_to_model env m db = Some db' ->
      reach db0 db' (log ++ recorded env m db)
  | reach_sweep db log offline_after now :
      reach db0 db log -> reach db0 (sweep offline_after now db) log.

(** A database before the first heartbeat. *)
Definition no_stats (db : Db) : Prop := client_stats db = ∅ /\ device_stats db = ∅.

Lemma process_inv cfg log env m db db' :
  table_inv cfg log db -> process_message decode millis_ok id_to_model env m db = Some db' ->
  table_inv cfg (log ++ recorded env m db) db'.
Proof.
  intros Hi. unfold process_message, recorded. destruct (m_key m) as [key|].
  2: { intros [= <-]. by rewrite app_nil_r. }
  destruct (m_payload m ≫= decode) as [hb|]; [|intros [= <-]; by rewrite app_nil_r].
  cbv zeta. destruct (heartbeat_tx _ _ _ _ _ _ _) as [u n db1| |] eqn:Et.
  - destruct (e_begin env), (e_commit env); cbn; intros [= <-]; try by rewrite app_nil_r.
    by eapply table_inv_tx.
  - rewrite app_nil_r. destruct (e_begin env); cbn; by intros [= <-].
  - rewrite app_nil_r. destruct (e_begin env); cbn; [done|by intros [= <-]].
Qed.

Lemma stats_reach_inv db0 db log :
  no_stats db0 -> reach db0 db log -> table_inv (heartbeat_config_daily db0) log db.
Proof.
  intros [Hc Hd]. induction 1 as [|db log env m db' _ IH E|db log offl now _ IH].
  - split; [done|]. rewrite Hc, Hd. split; intros k; cbn; by rewrite lookup_empty.
  - by eapply process_inv.
  - exact IH.
Qed.

(** *** What merging computes *)
Definition running_step (na : Z * option F) (v : option F) : Z * option F :=
  (na.1 + 1, avg_or_new na.1 na.2 v).
Definition running_avg (l : list (option F)) : Z * option F := fold_left running_step l (0, None).

Lemma running_avg_count l : (running_avg l).1 = blen l.
Proof.
  unfold running_avg. induction l as [|v l IH] using rev_ind; [done|].
  rewrite fold_left_app. cbn. rewrite IH, blen_app. done.
Qed.

Lemma running_avg_snoc l v : (running_avg (l ++ [v])).2 = avg_or_new (blen l) (running_avg l).2 v.
Proof.
  unfold running_avg at 1. rewrite fold_left_app. cbn. fold (running_avg l).
  by rewrite running_avg_count.
Qed.

Lemma merge_all_none {A} (merge : A -> A -> result A) l :
  merge_all merge None l = Ok None -> l = [].
Proof.
  destruct l as [|a l] using rev_ind; [done|]. intros (o & r & _ & E & _)%merge_all_snoc. done.
Qed.

Definition device_summary (ks : list DeviceDailyStats) (r : DeviceDailyStats) : Prop :=
  d_total_heartbeats r = blen ks /\ d_bucket <$> last ks = Some (d_bucket r)
  /\ d_avg_utilization r = (running_avg (d_avg_utilization <$> ks)).2
  /\ d_avg_temperature r = (running_avg (d_avg_temperature <$> ks)).2
  /\ d_avg_power r = (running_avg (d_avg_power <$> ks)).2
  /\ d_avg_memory r = (running_avg (d_avg_memory <$> ks)).2.

Lemma kept_max {A} (bucket : A -> Z) l b :
  l <> [] -> bucket <$> last (kept bucket l) = Some b -> Forall (fun o => bucket o <= b) l.
Proof.
  intros (k & E & H)%(kept_spec bucket l) Eb. rewrite E in Eb. by injection Eb as <-.
Qed.

Lemma kept_not_nil {A} (bucket : A -> Z) l : l <> [] -> kept bucket l <> [].
Proof. intros (k & E & _)%(kept_spec bucket l) E'. by rewrite E' in E. Qed.

Lemma merge_device_summary l r :
  Forall (fun o => d_total_heartbeats o = 1) l ->
  merge_all merge_device None l = Ok (Some r) -> device_summary (kept d_bucket l) r.
Proof.
  revert r. induction l as [|o l IH] using rev_ind; intros r H1 E; [done|].
  apply Forall_app in H1 as [H1 Ho]. inversion_clear Ho as [|? ? Ho1 _].
  apply merge_all_snoc in E as (o' & r' & E & [= <-] & Er). rewrite kept_snoc.
  destruct o' as [old|].
  2: { apply merge_all_none in E as ->. injection Er as <-. by repeat split. }
  destruct (IH old H1 E) as (It & Ib & Iu & Ite & Ip & Im).
  unfold keep. destruct (last (kept d_bucket l)) as [k|] eqn:Ek; [|done]. injection Ib as Ib.
  unfold merge_device in Er. rewrite <- Ib in Er. destruct (d_bucket k <? d_bucket o).
  2: { injection Er as <-. split; [done|]. by rewrite Ek; cbn; rewrite Ib. }
  destruct (_ <=? _); [done|]. injection Er as <-. rewrite It, Iu, Ite, Ip, Im. unfold device_summary.
  rewrite blen_app, !fmap_app, last_snoc. cbn [fmap list_fmap]. rewrite !running_avg_snoc.
  unfold blen. by rewrite !length_fmap.
Qed.

Lemma avg_or_new_pos n old new : n <> 0 -> avg_or_new n old new = avg_next n old new.
Proof. intros Hn. unfold avg_or_new. by rewrite (proj2 (Z.eqb_neq _ _) Hn). Qed.

Definition total_bytes (l : list (option Z)) : Z := foldr Z.add 0 (default 0 <$> l).

Lemma total_bytes_snoc l v : total_bytes (l ++ [v]) = default 0 v + total_bytes l.
Proof. unfold total_bytes. induction l as [|w l IH]; cbn in *; lia. Qed.

Definition client_summary (ks : list ClientDailyStats) (r : ClientDailyStats) : Prop :=
  c_total_heartbeats r = blen ks /\ c_bucket <$> last ks = Some (c_bucket r)
  /\ c_avg_cpu r = (running_avg (c_avg_cpu <$> ks)).2
  /\ c_avg_memory r = (running_avg (c_avg_memory <$> ks)).2
  /\ c_avg_disk r = (running_avg (c_avg_disk <$> ks)).2
  /\ c_network_in r = Some (total_bytes (c_network_in <$> ks))
  /\ c_network_out r = Some (total_bytes (c_network_out <$> ks)).

(** A row as one heartbeat gives it. *)
Definition fresh_client (o : ClientDailyStats) : Prop :=
  c_total_heartbeats o = 1 /\ is_Some (c_network_in o) /\ is_Some (c_network_out o)
  /\ is_Some (c_avg_cpu o) /\ is_Some (c_avg_memory o) /\ is_Some (c_avg_disk o).

Lemma merge_client_summary l r :
  Forall fresh_client l ->
  merge_all merge_client None l = Ok (Some r) -> client_summary (kept c_bucket l) r.
Proof.
  revert r. induction l as [|o l IH] using rev_ind; intros r H1 E; [done|].
  apply Forall_app in H1 as [H1 Ho]. inversion_clear Ho as [|? ? Ho1 _].
  apply merge_all_snoc in E as (o' & r' & E & [= <-] & Er). rewrite kept_snoc.
  destruct o' as [old|].
  2: { apply merge_all_none in E as ->. injection Er as <-.
       destruct Ho1 as (? & [vi Hi] & [vo Hv] & _). unfold client_summary, total_bytes. cbn.
       rewrite Hi, Hv. cbn. by rewrite !Z.add_0_r. }
  destruct (IH old H1 E) as (It & Ib & Ic & Im & Id & Ii & Io).
  unfold keep. destruct (last (kept c_bucket l)) as [k|] eqn:Ek; [|done]. injection Ib as Ib.
  unfold merge_client in Er. rewrite <- Ib in Er. destruct (c_bucket k <? c_bucket o).
  2: { injection Er as <-. split; [done|]. by rewrite Ek; cbn; rewrite Ib. }
  apply rbind_Ok in Er as (ni & Eni & Er). apply rbind_Ok in Er as (no & Eno & Er).
  unfold bigint_add in Eni, Eno. rewrite Ii in Eni. rewrite Io in Eno.
  destruct (in_i64 _); [|done]. injection Eni as <-. destruct (in_i64 _); [|done]. injection Eno as <-.
  destruct (2 ^ 31 <=? _); [done|]. injection Er as <-. rewrite It, Ic, Im, Id. unfold client_summary.
  rewrite blen_app, !fmap_app, last_snoc. cbn [fmap list_fmap]. rewrite !running_avg_snoc, !total_bytes_snoc.
  assert (blen (kept c_bucket l) <> 0) as Hn.
  { destruct (kept c_bucket l); [done|]. unfold blen. cbn. lia. }
  unfold blen in *. rewrite !length_fmap, !avg_or_new_pos by done. done.
Qed.

(** An observation of a device, as [stats_row] makes it. *)
Definition fresh_device (cfg : gmap Z Z) (day : Z) (o : DeviceDailyStats) : Prop :=
  d_total_heartbeats o = 1
  /\ (is_Some (d_avg_utilization o) /\ is_Some (d_avg_temperature o)
      /\ is_Some (d_avg_power o) /\ is_Some (d_avg_memory o))
  /\ exists ts, date_naive ts = day /\ d_bucket o = hb_bucket cfg ts.

Lemma observed_fresh cfg log k : Forall (fresh_device cfg k.2) (log ≫= observed cfg k).
Proof.
  apply Forall_forall. intros o (h & Ho & _)%list_elem_of_bind. unfold observed in Ho.
  case_bool_decide as Hk; [|by apply not_elem_of_nil in Ho]. destruct Hk as [_ Hd].
  apply list_elem_of_fmap in Ho as ([i o'] & -> & Ho%list_elem_of_filter).
  destruct Ho as [_ Ho]. unfold hb_rows in Ho.
  destruct (mapM _ _) as [rows|] eqn:Em; [|by apply not_elem_of_nil in Ho]. cbn in Ho.
  apply mapM_Some_1 in Em. apply list_elem_of_lookup in Ho as [j Ej].
  destruct (Forall2_lookup_r _ _ _ _ _ Em Ej) as ([i' d] & _ & Er).
  unfold stats_row in Er. destruct (get_u16_from_u128 (vendor_id d) _); [|done]. cbn in Er.
  destruct (get_u16_from_u128 (device_id d) _); [|done]. injection Er as _ <-.
  split; [done|]. split; [by repeat split; eexists|]. by exists h.2.
Qed.

Lemma observed_client_fresh cfg log k : Forall fresh_client (log ≫= observed_client cfg k).
Proof.
  apply Forall_forall. intros o (h & Ho & _)%list_elem_of_bind. unfold observed_client in Ho.
  case_bool_decide; [|by apply not_elem_of_nil in Ho]. apply list_elem_of_singleton in Ho as ->.
  by repeat split; eexists.
Qed.
End Daily.

(** *** Exact averages *)
Definition mean_of (l : list (option Q)) (a : option Q) : Prop :=
  exists qs q, l = Some <$> qs /\ a = Some q /\ (q == Qsum qs / inject_Z (blen qs))%Q.

Lemma Qsum_snoc l v : (Qsum (l ++ [v]) == Qsum l + v)%Q.
Proof. unfold Qsum. induction l as [|w l IH]; cbn; [ring|]. rewrite IH. ring. Qed.

Lemma running_mean (l : list (option Q)) :
  l <> [] -> Forall is_Some l -> mean_of l (running_avg (Fl:=QFloat) l).2.
Proof.
  induction l as [|v l IH] using rev_ind; [done|]. intros _ Hs.
  apply Forall_app in Hs as [Hs Hv]. inversion_clear Hv as [|? ? [x ->] _].
  refine (eq_ind_r (mean_of _) _ (running_avg_snoc (Fl:=QFloat) l (Some x))).
  destruct l as [|w l].
  { exists [x], x. split; [done|]. split; [done|].
    change (blen [x]) with 1. change (inject_Z 1) with 1%Q. unfold Qsum. cbn [fold_right]. field. }
  destruct (IH ltac:(done) Hs) as (qs & q & El & Ea & Eq). rewrite Ea, El.
  assert (blen qs <> 0) as Hn by (destruct qs; [done|unfold blen; cbn; lia]).
  exists (qs ++ [x]). rewrite avg_or_new_pos by (unfold blen in *; by rewrite length_fmap).
  eexists. split; [by rewrite fmap_app|]. split; [done|]. cbn.
  rewrite Eq, Qsum_snoc, blen_app. change (blen [x]) with 1.
  replace (blen (Some <$> qs)) with (blen qs) by (unfold blen; by rewrite length_fmap).
  rewrite inject_Z_plus. pose proof (blen_nonneg qs). field. split.
  - change 1%Q with (inject_Z 1). rewrite <- inject_Z_plus. unfold Qeq. cbn. lia.
  - unfold Qeq. cbn. lia.
Qed.

Lemma means {A} (p : A -> option Q) (ks : list A) :
  ks <> [] -> Forall (fun x => is_Some (p x)) ks ->
  mean_of (p <$> ks) (running_avg (Fl:=QFloat) (p <$> ks)).2.
Proof.
  intros Hk Hs. apply running_mean; [|by apply Forall_fmap]. intros E. by apply fmap_nil_inv in E.
Qed.

Lemma kept_Forall {A} (P : A -> Prop) (bucket : A -> Z) l : Forall P l -> Forall P (kept bucket l).
Proof.
  intros H. destruct (kept_spec bucket l) as (_ & _ & Hs). apply Forall_forall. intros x Hx.
  rewrite Forall_forall in H. by apply H, Hs.
Qed.

Section Exact.
#[local] Existing Instance QFloat.
Context (id_to_model : Z -> option bytes) (decode : bytes -> option HeartbeatMessage)
        (millis_ok : Z -> bool).

(** [C18] The daily statistics are what they are named after: after any sequence of messages, with
    any failures of the database, the row of a client or device for a day counts, of the
    recorded heartbeats of that day in the order they were processed, those in a later
    interval than all before; its averages are the means over these, and its network
    totals their sums. There is no row exactly when nothing was recorded. *)
Theorem daily_statistics_correct (db0 db : Db) (log : list (HeartbeatMessage * Z)) :
  no_stats db0 -> reach id_to_model decode millis_ok db0 db log ->
  let cfg := heartbeat_config_daily db0 in
  (forall k, let l := log ≫= observed id_to_model cfg k in
     let ks := kept d_bucket l in
     match device_stats db !! k with
     | None => l = []
     | Some r =>
         d_total_heartbeats r = blen ks /\ d_bucket <$> last ks = Some (d_bucket r)
         /\ mean_of (d_avg_utilization <$> ks) (d_avg_utilization r)
         /\ mean_of (d_avg_temperature <$> ks) (d_avg_temperature r)
         /\ mean_of (d_avg_power <$> ks) (d_avg_power r)
         /\ mean_of (d_avg_memory <$> ks) (d_avg_memory r)
     end)
  /\ (forall k, let l := log ≫= observed_client cfg k in
     let ks := kept c_bucket l in
     match client_stats db !! k with
     | None => l = []
     | Some r =>
         c_total_heartbeats r = blen ks /\ c_bucket <$> last ks = Some (c_bucket r)
         /\ mean_of (c_avg_cpu <$> ks) (c_avg_cpu r)
         /\ mean_of (c_avg_memory <$> ks) (c_avg_memory r)
         /\ mean_of (c_avg_disk <$> ks) (c_avg_disk r)
         /\ c_network_in r = Some (total_bytes (c_network_in <$> ks))
         /\ c_network_out r = Some (total_bytes (c_network_out <$> ks))
     end).
Proof.
  intros Hn Hr. destruct (stats_reach_inv _ _ _ _ _ _ Hn Hr) as (_ & Hd & Hc). cbv zeta. split; intros k.
  - specialize (Hd k). pose proof (observed_fresh id_to_model (heartbeat_config_daily db0) log k) as Hf.
    destruct (device_stats db !! k) as [r|]; [|by apply merge_all_none in Hd].
    set (l := log ≫= _) in *. assert (l <> []) as Hl by (intros E; by rewrite E in Hd).
    pose proof (kept_not_nil d_bucket l Hl) as Hk. pose proof (kept_Forall _ d_bucket _ Hf) as Hfk.
    apply merge_device_summary in Hd as (H1 & H2 & -> & -> & -> & ->).
    2: { eapply Forall_impl; [exact Hf|]. by intros x (? & _). }
    do 2 (split; [done|]). repeat split; apply means; try done.
    all: eapply Forall_impl; [exact Hfk|]; intros x (_ & ? & _); cbn; tauto.
  - specialize (Hc k). pose proof (observed_client_fresh (heartbeat_config_daily db0) log k) as Hf.
    destruct (client_stats db !! k) as [r|]; [|by apply merge_all_none in Hc].
    set (l := log ≫= _) in *. assert (l <> []) as Hl by (intros E; by rewrite E in Hc).
    pose proof (kept_not_nil c_bucket l Hl) as Hk. pose proof (kept_Forall _ c_bucket _ Hf) as Hfk.
    apply merge_client_summary in Hc as (H1 & H2 & -> & -> & -> & H3 & H4); [|done].
    do 2 (split; [done|]). split; [|split; [|split]]; [apply means; [done|]..|done].
    all: eapply Forall_impl; [exact Hfk|]; intros x (_ & _ & _ & ?); cbn; tauto.
Qed.
End Exact.

(** *** The cap on the points of a day *)
Definition interval_on (cfg : gmap Z Z) (day : Z) : Z := default 120 (cfg !! day).

(** An interval that divides the day. *)
Definition interval_ok (i : Z) : Prop := 0 < i /\ (i | 86400).

Lemma hb_bucket_range cfg ts day :
  date_naive ts = day -> interval_ok (interval_on cfg day) ->
  let m := 86400 / interval_on cfg day in
  Z.max 0 (day * m) <= hb_bucket cfg ts <= Z.max 0 (day * m) + m - 1.
Proof.
  unfold interval_on. intros <- [Hi [m Hm]]. unfold hb_bucket.
  set (i := default 120 _) in *. cbv zeta. rewrite (Z.max_l i 1) by lia.
  replace (86400 / i) with m by (rewrite Hm; by rewrite Z.div_mul by lia).
  assert (0 < m) by nia.
  assert (date_naive ts = timestamp_secs ts / 86400) as Ed.
  { unfold date_naive, timestamp_secs. by rewrite Z.div_div by lia. }
  rewrite Ed. set (sec := timestamp_secs ts). pose proof (Z.div_mod sec 86400 ltac:(lia)) as E.
  pose proof (Z.mod_pos_bound sec 86400 ltac:(lia)). set (d := sec / 86400) in *.
  destruct (Z.ltb_spec d 0).
  - assert (Z.quot sec i <= 0). { pose proof (Z.quot_opp_l sec i ltac:(lia)).
      pose proof (Z.quot_pos (- sec) i ltac:(lia) ltac:(lia)). lia. }
    assert (d * m <= 0) by nia. lia.
  - rewrite Z.quot_div_nonneg by lia. assert (0 <= d * m) by nia.
    assert (d * m <= sec / i) by (apply Z.div_le_lower_bound; nia).
    assert (sec / i < d * m + m) by (apply Z.div_lt_upper_bound; nia). lia.
Qed.

Section Capped.
Context `{Fl : Float} (id_to_model : Z -> option bytes)
        (decode : bytes -> option HeartbeatMessage) (millis_ok : Z -> bool).

Lemma total_capped db0 db log k s :
  no_stats db0 -> reach id_to_model decode millis_ok db0 db log ->
  interval_ok (interval_on (heartbeat_config_daily db0) k.2) ->
  device_stats db !! k = Some s ->
  0 < d_total_heartbeats s
  /\ d_total_heartbeats s * interval_on (heartbeat_config_daily db0) k.2 <= 86400.
Proof.
  intros Hn Hr Hi Hs. destruct (stats_reach_inv _ _ _ _ _ _ Hn Hr) as (_ & Hd & _).
  specialize (Hd k). rewrite Hs in Hd. set (cfg := heartbeat_config_daily db0) in *.
  pose proof (observed_fresh id_to_model cfg log k) as Hf. set (l := log ≫= _) in *.
  assert (l <> []) as Hl by (intros E; by rewrite E in Hd).
  apply merge_device_summary in Hd as (-> & _).
  2: { eapply Forall_impl; [exact Hf|]. by intros x (? & _). }
  pose proof (kept_not_nil d_bucket l Hl). destruct (kept_spec d_bucket l) as (_ & Hinc & _).
  set (m := 86400 / interval_on cfg k.2) in *.
  assert (blen (kept d_bucket l) <= Z.max 0 m) as Hb.
  { eapply Z.le_trans.
    - apply (increasing_length d_bucket _ (Z.max 0 (k.2 * m)) (Z.max 0 (k.2 * m) + m - 1)); [done|].
      apply kept_Forall. eapply Forall_impl; [exact Hf|]. intros x (_ & _ & ts & Hts & ->).
      by apply hb_bucket_range.
    - lia. }
  destruct Hi as [Hi [q Hq]]. assert (m = q) as E.
  { unfold m. rewrite Hq. by rewrite Z.div_mul by lia. }
  split; [|nia]. destruct (kept d_bucket l); [done|]. unfold blen. cbn. lia.
Qed.

(** No row is worth more than the 24 hours of its day. *)
Definition capped (M : Q) (t : PointsTable) : Prop :=
  map_Forall (fun _ r => (0 <= p_points r)%Q /\ (p_points r <= inject_Z 24 * M)%Q) t.

Lemma Qsum_capped (l : list Q) (b : Q) :
  Forall (fun q => q <= b)%Q l -> (Qsum l <= inject_Z (blen l) * b)%Q.
Proof.
  induction 1 as [|q l Hq _ IH]; [unfold Qsum; cbn; rewrite Qmult_0_l; apply Qle_refl|].
  replace (blen (q :: l)) with (1 + blen l) by (unfold blen; cbn; lia).
  rewrite inject_Z_plus. change (Qsum (q :: l)) with (q + Qsum l)%Q.
  assert ((inject_Z 1 + inject_Z (blen l)) * b == b + inject_Z (blen l) * b)%Q as -> by ring.
  by apply Qplus_le_compat.
Qed.

Lemma row_capped cfg device_types now db M k s :
  heartbeat_config_daily db = cfg ->
  0 <= d_total_heartbeats s * interval_on cfg k.2 <= 86400 ->
  map_Forall (fun _ q => (0 <= q)%Q /\ (q <= M)%Q) device_types -> (5 # 100 <= M)%Q ->
  let r := points_row device_types now db k s in
  (0 <= p_points r)%Q /\ (p_points r <= inject_Z 24 * M)%Q.
Proof.
  destruct k as [[c i] d]. intros Ecfg Ht Htypes HM. cbn in Ht |- *. rewrite Ecfg.
  fold (interval_on cfg d). set (hours := Z.quot _ 3600).
  assert (0 <= hours <= 24) as Hh.
  { unfold hours. rewrite Z.quot_div_nonneg by lia. split; [apply Z.div_pos; lia|].
    change 24 with (86400 / 3600). apply Z.div_le_mono; lia. }
  set (mult := default _ _). assert ((0 <= mult)%Q /\ (mult <= M)%Q) as [Hm0 HmM].
  { unfold mult. destruct (device_info db !! (c, i)) as [v|]; cbn; [|split; [discriminate|done]].
    destruct (device_types !! v_device_id v) as [q|] eqn:E; cbn; [by apply (Htypes _ _ E)|].
    split; [discriminate|done]. }
  split.
  - apply Qmult_le_0_compat; [|done]. change 0%Q with (inject_Z 0). rewrite <- Zle_Qle. lia.
  - apply Qle_trans with (inject_Z 24 * mult)%Q.
    + apply Qmult_le_compat_r; [|done]. rewrite <- Zle_Qle. lia.
    + rewrite !(Qmult_comm (inject_Z 24)). apply Qmult_le_compat_r; [done|]. by compute.
Qed.

(** [C19] However many heartbeats arrive, and however often they are repeated, a device earns at
    most the 24 hours of a day: when every interval divides the day, the counted heartbeats
    of a device and day cover at most the day, each refresh keeps every row of the points
    table between zero and 24 times the largest multiplier, and the credit target computed
    from any rows of it is bounded by their number. *)
Theorem points_capped_per_day (db0 db : Db) (log : list (HeartbeatMessage * Z))
    (device_types : gmap Z Q) (M : Q) (today now : Z) (t : PointsTable) :
  let cfg := heartbeat_config_daily db0 in
  no_stats db0 -> reach id_to_model decode millis_ok db0 db log ->
  (forall day, interval_ok (interval_on cfg day)) ->
  map_Forall (fun _ q => (0 <= q)%Q /\ (q <= M)%Q) device_types -> (5 # 100 <= M)%Q ->
  capped M t ->
  let t' := refresh_device_points_daily device_types today now db t in
  (forall k s, device_stats db !! k = Some s ->
     0 < d_total_heartbeats s /\ d_total_heartbeats s * interval_on cfg k.2 <= 86400)
  /\ capped M t'
  /\ (forall scale l, 0 <= scale -> l ⊆ daily_points t' ->
        (inject_Z (target_amount scale l) <= inject_Z (blen l) * (inject_Z 24 * M * inject_Z scale))%Q).
Proof.
  intros cfg Hn Hr Hi Htypes HM Hc t'.
  assert (forall k s, device_stats db !! k = Some s ->
     0 < d_total_heartbeats s /\ d_total_heartbeats s * interval_on cfg k.2 <= 86400) as Htot.
  { intros k s Hs. by eapply total_capped. }
  assert (capped M t') as Hc'.
  { intros k r [Hk|[_ Hk]]%lookup_union_Some_raw; [|by apply (Hc k)].
    rewrite map_lookup_imap in Hk. destruct (device_stats db !! k) as [s|] eqn:Es; [|done]. cbn in Hk.
    destruct (_ && _); [|done]. injection Hk as <-. destruct (Htot _ _ Es) as [? ?].
    destruct (stats_reach_inv _ _ _ _ _ _ Hn Hr) as (Ecfg & _). apply (row_capped cfg); try done.
    split; [|done]. apply Z.mul_nonneg_nonneg; [lia|]. by apply Z.lt_le_incl, Hi. }
  split; [done|]. split; [done|]. intros scale l Hsc Hl. unfold target_amount.
  eapply Qle_trans; [apply Qfloor_le|]. eapply Qle_trans; [apply Qsum_capped|].
  - apply Forall_fmap, Forall_forall. intros d Hd. apply Hl in Hd. cbn.
    apply list_elem_of_fmap in Hd as ([k r] & -> & Hk%elem_of_map_to_list). cbn.
    apply Qmult_le_compat_r; [by apply (Hc' k)|]. change 0%Q with (inject_Z 0). by rewrite <- Zle_Qle.
  - unfold blen. rewrite length_fmap. apply Qle_refl.
Qed.
End Capped.

(** *** Repeated messages *)
Section Repeated.
Context `{Fl : Float} (id_to_model : Z -> option bytes)
        (decode : bytes -> option HeartbeatMessage) (millis_ok : Z -> bool).

(** A row without the name and the time last seen. *)
Definition device_core (s : DeviceDailyStats) :=
  (d_total_heartbeats s, d_avg_utilization s, d_avg_temperature s, d_avg_power s, d_avg_memory s,
   d_bucket s).
Definition client_core (s : ClientDailyStats) :=
  (c_total_heartbeats s, c_avg_cpu s, c_avg_memory s, c_avg_disk s, c_network_in s, c_network_out s,
   c_bucket s).

Lemma merge_device_late l r r' :
  Forall (fun o => d_bucket o <= d_bucket r) l ->
  merge_all merge_device (Some r) l = Ok r' -> device_core <$> r' = Some (device_core r).
Proof.
  revert r. induction l as [|o l IH]; intros r Hl E; [by injection E as <-|].
  inversion_clear Hl as [|? ? Ho Hl']. cbn in E. unfold merge_device at 1 in E.
  rewrite (proj2 (Z.ltb_ge _ _)) in E by done. cbn in E. by apply IH in E.
Qed.

Lemma merge_client_late l r r' :
  Forall (fun o => c_bucket o <= c_bucket r) l ->
  merge_all merge_client (Some r) l = Ok r' -> client_core <$> r' = Some (client_core r).
Proof.
  revert r. induction l as [|o l IH]; intros r Hl E; [by injection E as <-|].
  inversion_clear Hl as [|? ? Ho Hl']. cbn in E. unfold merge_client at 1 in E.
  rewrite (proj2 (Z.ltb_ge _ _)) in E by done. cbn in E. by apply IH in E.
Qed.

(** The topic delivers a message at least once: a heartbeat that was recorded before, at any
    time and whatever was recorded since, changes no count, no average, no total and no
    interval of the statistics when it is processed again. *)
Theorem redelivery_counts_once (db0 db db' : Db) (log : list (HeartbeatMessage * Z))
    (env : TxEnv) (m : OwnedMessage) (hb : HeartbeatMessage) (ts : Z) :
  no_stats db0 -> reach id_to_model decode millis_ok db0 db log ->
  process_message decode millis_ok id_to_model env m db = Some db' ->
  recorded id_to_model decode millis_ok env m db = [(hb, ts)] -> (hb, ts) ∈ log ->
  (forall k, device_core <$> device_stats db' !! k = device_core <$> device_stats db !! k)
  /\ (forall k, client_core <$> client_stats db' !! k = client_core <$> client_stats db !! k).
Proof.
  intros Hn Hr Hp Hrec Hin. pose proof (stats_reach_inv _ _ _ _ _ _ Hn Hr) as Hi.
  pose proof (process_inv _ _ _ _ _ _ _ _ _ Hi Hp) as (_ & Hd' & Hc'). rewrite Hrec in Hd', Hc'.
  destruct Hi as (_ & Hd & Hc). set (cfg := heartbeat_config_daily db0) in *. split; intros k.
  - specialize (Hd k). specialize (Hd' k). rewrite bind_app, merge_all_app, Hd in Hd'. cbn in Hd'.
    rewrite app_nil_r in Hd'.
    assert (observed id_to_model cfg k (hb, ts) ⊆ log ≫= observed id_to_model cfg k) as Hsub.
    { intros o Ho. apply list_elem_of_bind. by exists (hb, ts). }
    destruct (device_stats db !! k) as [r|].
    + cbn. eapply merge_device_late; [|exact Hd'].
      pose proof (observed_fresh id_to_model cfg log k) as Hf.
      set (l := log ≫= _) in *. assert (l <> []) as Hl by (intros E; by rewrite E in Hd).
      apply merge_device_summary in Hd as (_ & Hb & _).
      2: { eapply Forall_impl; [exact Hf|]. by intros y (? & _). }
      apply (kept_max _ _ _ Hl) in Hb. apply Forall_forall. intros o Ho.
      rewrite Forall_forall in Hb. by apply Hb, Hsub.
    + apply merge_all_none in Hd. rewrite Hd in Hsub.
      apply list_nil_subseteq in Hsub. rewrite Hsub in Hd'. by injection Hd' as <-.
  - specialize (Hc k). specialize (Hc' k). rewrite bind_app, merge_all_app, Hc in Hc'. cbn in Hc'.
    rewrite app_nil_r in Hc'.
    assert (observed_client cfg k (hb, ts) ⊆ log ≫= observed_client cfg k) as Hsub.
    { intros o Ho. apply list_elem_of_bind. by exists (hb, ts). }
    destruct (client_stats db !! k) as [r|].
    + cbn. eapply merge_client_late; [|exact Hc'].
      pose proof (observed_client_fresh cfg log k) as Hf.
      set (l := log ≫= _) in *. assert (l <> []) as Hl by (intros E; by rewrite E in Hc).
      apply merge_client_summary in Hc as (_ & Hb & _); [|done].
      apply (kept_max _ _ _ Hl) in Hb. apply Forall_forall. intros o Ho.
      rewrite Forall_forall in Hb. by apply Hb, Hsub.
    + apply merge_all_none in Hc. rewrite Hc in Hsub.
      apply list_nil_subseteq in Hsub. rewrite Hsub in Hc'. by injection Hc' as <-.
Qed.
End Repeated.

(** *** Which device lists are accepted *)
Section Accepted.
Context `{Fl : Float} (id_to_model : Z -> option bytes).

Lemma lane_row_some d i : 0 <= i < 8 -> exists r, device_row id_to_model (i, d) = Some (i, r).
Proof.
  intros Hi. unfold device_row, get_u16_from_u128, get_u8_from_u64, lane_get.
  rewrite (proj2 (Z.ltb_lt i 8)) by lia. cbn. assert (as_i16 i = i) as ->.
  { unfold as_i16. rewrite Z.mod_small by lia. lia. } by eexists.
Qed.

Lemma lane_row_none d i : 8 <= i -> device_row id_to_model (i, d) = None.
Proof.
  intros Hi. unfold device_row, get_u16_from_u128, lane_get. by rewrite (proj2 (Z.ltb_ge i 8)) by lia.
Qed.

Lemma stats_row_some ts b d i :
  0 <= i < 8 -> exists r, stats_row id_to_model ts b (as_i16 i, d) = Some (i, r).
Proof.
  intros Hi. assert (as_i16 i = i) as ->.
  { unfold as_i16. rewrite Z.mod_small by lia. lia. }
  unfold stats_row, get_u16_from_u128, lane_get. rewrite wrap_small by (unfold in_u; lia).
  rewrite (proj2 (Z.ltb_lt i 8)) by lia. cbn. by eexists.
Qed.

Lemma device_indices_elem ds i d :
  (i, d) ∈ device_indices ds <-> d ∈ ds /\ 0 <= i < Wire.num d.
Proof.
  unfold device_indices. rewrite list_elem_of_bind. split.
  - intros (d' & Hi & Hd). apply list_elem_of_fmap in Hi as (j & [= -> ->] & Hj).
    split; [done|]. apply elem_of_seqZ in Hj. lia.
  - intros [Hd Hi]. exists d. split; [|done]. apply list_elem_of_fmap. exists i. split; [done|].
    apply elem_of_seqZ. lia.
Qed.

(** The lane accessors panic exactly when an entry has more than eight devices. *)
Lemma device_rows_panic ds :
  mapM (device_row id_to_model) (device_indices ds) = None <-> Exists (fun d => 8 < Wire.num d) ds.
Proof.
  rewrite mapM_None, !Exists_exists. split.
  - intros ([i d] & Hi & E). exists d. apply device_indices_elem in Hi as [Hd Hi]. split; [done|].
    destruct (Z.ltb_spec i 8); [|lia]. destruct (lane_row_some d i ltac:(lia)) as [r Er]. congruence.
  - intros (d & Hd & H). exists (8, d). split; [apply device_indices_elem; split; [done|lia]|].
    apply lane_row_none. lia.
Qed.

(** The entries that name a device. *)
Definition populated (ds : list DevicesInfo) : list DevicesInfo :=
  filter (fun d => 0 < Wire.num d) ds.

Lemma populated_indices ds :
  (device_indices ds).*1 = populated ds ≫= fun d => seqZ 0 (Wire.num d).
Proof.
  unfold device_indices, populated. induction ds as [|d ds IH]; [done|].
  rewrite filter_cons, bind_cons, fmap_app, IH, <- list_fmap_compose.
  change (fst ∘ (fun index => (index, d))) with (@id Z). rewrite list_fmap_id.
  case_decide as H; [by rewrite bind_cons|]. by rewrite seqZ_nil by lia.
Qed.

Lemma indices_nodup ds :
  NoDup (device_indices ds).*1 <-> populated ds = [] \/ exists d, populated ds = [d].
Proof.
  rewrite populated_indices.
  assert (Forall (fun d => 0 < Wire.num d) (populated ds)) as Hp.
  { apply Forall_forall. by intros d [? _]%list_elem_of_filter. }
  destruct (populated ds) as [|d [|d' l]]; cbn.
  - split; [by left|intros _; constructor].
  - rewrite app_nil_r. split; [intros _; right; by exists d|intros _; apply NoDup_seqZ].
  - split; [|intros [?|[? ?]]; done]. intros H%NoDup_app. destruct H as (_ & H & _). exfalso.
    apply Forall_cons in Hp as [Hd Hp]. apply Forall_cons in Hp as [Hd' _].
    apply (H 0); [apply elem_of_seqZ; lia|]. apply elem_of_app. left. apply elem_of_seqZ. lia.
Qed.

Lemma indices_nil ds : (device_indices ds).*1 = [] <-> populated ds = [].
Proof.
  rewrite populated_indices. split; [|by intros ->].
  destruct (populated ds) as [|d l] eqn:E; [done|]. cbn. intros [H _]%app_eq_nil.
  assert (d ∈ populated ds) as Hd by (rewrite E; left). apply list_elem_of_filter in Hd as [Hd _].
  rewrite seqZ_cons in H by lia. done.
Qed.

(** The keys of the rows made of a device list without a panic. *)
Lemma device_rows_keys ds rows :
  mapM (device_row id_to_model) (device_indices ds) = Some rows -> rows.*1 = (device_indices ds).*1.
Proof.
  intros E. assert (~ Exists (fun d => 8 < Wire.num d) ds) as Hn.
  { rewrite <- device_rows_panic. congruence. }
  apply mapM_Some_1 in E. apply list_eq_Forall2.
  assert (forall id, id ∈ device_indices ds -> 0 <= id.1 < 8) as Hid.
  { intros [i d] [Hd Hi]%device_indices_elem. cbn. destruct (Z.ltb_spec 8 (Wire.num d)); [|lia].
    exfalso. apply Hn, Exists_exists. by exists d. }
  revert Hid. induction E as [|[i d] r l rows Er _ IH]; intros Hid; [constructor|].
  cbn. constructor; [|apply IH; intros id ?; apply Hid; by right].
  destruct (lane_row_some d i (Hid (i, d) ltac:(left))) as [r' Er']. rewrite Er in Er'.
  by injection Er' as ->.
Qed.

Lemma stats_rows_keys ts b ds :
  ~ Exists (fun d => 8 < Wire.num d) ds ->
  exists rows, mapM (stats_row id_to_model ts b) (flattened_devices ds) = Some rows
    /\ rows.*1 = (device_indices ds).*1.
Proof.
  intros Hn. assert (flattened_devices ds
                     = (fun id => (as_i16 id.1, id.2)) <$> device_indices ds) as ->.
  { unfold flattened_devices, device_indices. clear Hn. induction ds as [|d ds IH]; [done|].
    rewrite !bind_cons, fmap_app, IH, <- list_fmap_compose. done. }
  assert (forall id, id ∈ device_indices ds -> 0 <= id.1 < 8) as Hid.
  { intros [i d] [Hd Hi]%device_indices_elem. cbn. destruct (Z.ltb_spec 8 (Wire.num d)); [|lia].
    exfalso. apply Hn, Exists_exists. by exists d. }
  revert Hid. induction (device_indices ds) as [|[i d] l IH]; intros Hid; [by exists []|].
  destruct IH as (rows & E & Ek); [intros id ?; apply Hid; by right|].
  destruct (stats_row_some ts b d i (Hid (i, d) ltac:(left))) as [r Er].
  exists ((i, r) :: rows). cbn -[stats_row]. by rewrite Er; cbn -[stats_row]; rewrite E; cbn; rewrite Ek.
Qed.

Lemma insert_unique_dup (c : ClientId) (rows : list (Z * DeviceRow)) (j : Z)
    (t t' : gmap (ClientId * Z) DeviceRow) :
  is_Some (t !! (c, j)) -> j ∈ rows.*1 -> insert_unique c rows t <> Ok t'.
Proof.
  revert t. induction rows as [|[i s] rows IH]; intros t H0 Hj; cbn in *.
  - by apply not_elem_of_nil in Hj.
  - destruct (decide (i = j)) as [->|Hne]; [destruct H0 as [x ->]; done|].
    apply elem_of_cons in Hj as [->|Hj]; [done|]. destruct (t !! (c, i)); [done|].
    apply IH; [|done]. by rewrite lookup_insert_ne by congruence.
Qed.

Lemma insert_unique_ok c rows t :
  (forall i, i ∈ rows.*1 -> t !! (c, i) = None) ->
  NoDup rows.*1 <-> exists t', insert_unique c rows t = Ok t'.
Proof.
  revert t. induction rows as [|[j r] rows IH]; intros t Ht; cbn.
  { split; [by exists t|intros _; constructor]. }
  rewrite (Ht j) by left. split.
  - intros Hn. apply NoDup_cons in Hn as [Hj Hn]. apply IH; [|done]. intros i Hi.
    rewrite lookup_insert_ne by (intros [= ->]; done). apply Ht. by right.
  - intros [t' E]. destruct (decide (j ∈ rows.*1)) as [Hj|Hj].
    + exfalso. eapply insert_unique_dup; [|exact Hj|exact E]. rewrite lookup_insert_eq. by eexists.
    + apply NoDup_cons. split; [done|]. apply (IH (<[(c, j) := r]> t)); [|by exists t'].
      intros i Hi. rewrite lookup_insert_ne by (intros [= ->]; done). apply Ht. by right.
Qed.

Lemma upsert_rows_ok (c : ClientId) (day : Z) (rows : list (Z * DeviceDailyStats))
    (t : gmap (ClientId * Z * Z) DeviceDailyStats) :
  NoDup rows.*1 ->
  (forall i old, i ∈ rows.*1 -> t !! (c, i, day) = Some old -> d_total_heartbeats old + 1 < 2 ^ 31) ->
  exists t', upsert_rows c day rows t = Ok t'.
Proof.
  revert t. induction rows as [|[j new] rows IH]; intros t Hn Ht; cbn; [by exists t|].
  cbn in Hn. apply NoDup_cons in Hn as [Hj Hn].
  assert (exists row, match t !! (c, j, day) with
                      | None => Ok new | Some old => merge_device new old end = Ok row) as [row Er].
  { destruct (t !! (c, j, day)) as [old|] eqn:E; [|by exists new]. unfold merge_device.
    rewrite (proj2 (Z.leb_gt _ _)) by (apply (Ht j); [by left|done]). destruct (_ <? _); by eexists. }
  rewrite Er. cbn. apply IH; [done|]. intros i old Hi E.
  rewrite lookup_insert_ne in E by (intros [= ->]; done). apply (Ht i); [by right|done].
Qed.

(** What the heartbeat of a healthy database comes down to: the devices. *)
Definition no_failure (n : nat) : bool := false.

Lemma stmt_run f n db :
  stmt no_failure f n db = match f db with Ok db => TRet () (S n) db | Err e => TErr e end.
Proof. done. Qed.

Lemma insert_heartbeat_run c i ds mem count tflops ts now n db :
  exists db4, stats_of db4 = stats_of db /\ (forall j, device_info db4 !! (c, j) = None)
  /\ insert_heartbeat no_failure id_to_model c i ds mem count tflops ts now n db
     = if bool_decide (length ds = 0%nat) then TRet () (4 + n)%nat db4
       else match mapM (device_row id_to_model) (device_indices ds) with
            | None => TPanic
            | Some rows => stmt no_failure (insert_devices c rows) (4 + n)%nat db4
            end.
Proof.
  unfold insert_heartbeat, tbind, stmt. cbn [no_failure].
  destruct (insert_raw c i ts db) as [db1|e] eqn:E1; [|done].
  destruct (mark_online c now db1) as [db2|e] eqn:E2; [|done].
  destruct (upsert_system c i tflops mem count db2) as [db3|e] eqn:E3; [|done].
  destruct (delete_devices c db3) as [db4|e] eqn:E4; [|done]. exists db4.
  apply insert_raw_frame in E1. apply mark_online_frame in E2. injection E3 as <-. injection E4 as <-.
  split; [|split].
  - transitivity (stats_of db2); [done|congruence].
  - intros j. cbn. apply map_lookup_filter_None. right. intros x _ H. by apply H.
  - case_bool_decide; [done|]. by destruct (mapM _ _).
Qed.

(** Room in the counters of the rows the heartbeat would change. *)
Definition room (hb : HeartbeatMessage) (ts : Z) (db : Db) : Prop :=
  (forall i old, device_stats db !! (hb_client_id hb, i, date_naive ts) = Some old ->
     d_total_heartbeats old + 1 < 2 ^ 31)
  /\ (forall old, client_stats db !! (hb_client_id hb, date_naive ts) = Some old ->
     c_total_heartbeats old + 1 < 2 ^ 31
     /\ in_i64 (i64_or_0 (network_rx (hb_system_info hb)) + default 0 (c_network_in old)) = true
     /\ in_i64 (i64_or_0 (network_tx (hb_system_info hb)) + default 0 (c_network_out old)) = true).

Lemma client_upsert_run hb ts db :
  interval_on (heartbeat_config_daily db) (date_naive ts) <> 0 -> room hb ts db ->
  let i := hb_system_info hb in
  exists db', client_stats_upsert (hb_client_id hb) (Some (f_of_Z (cpu_usage i)))
      (Some (f_of_Z (memory_usage i))) (Some (f_of_Z (disk_usage i)))
      (Some (i64_or_0 (network_rx i))) (Some (i64_or_0 (network_tx i))) ts db = Ok db'
    /\ device_stats db' = device_stats db.
Proof.
  intros Hi [_ Hr]. cbv zeta. unfold client_stats_upsert. fold (interval_on (heartbeat_config_daily db) (date_naive ts)).
  rewrite (proj2 (Z.eqb_neq _ _) Hi). destruct (client_stats db !! _) as [old|] eqn:E; cbn; [|by eexists].
  destruct (Hr _ eq_refl) as (Ht & Hin & Hout). unfold merge_client, bigint_add. cbn [c_network_in c_network_out default].
  destruct (_ <? _); cbn; [|by eexists]. unfold default, from_option, id in *. rewrite Hin. cbn. rewrite Hout. cbn.
  rewrite (proj2 (Z.leb_gt _ _)) by done. by eexists.
Qed.

Lemma upsert_batch_run c ds ts n db :
  ~ Exists (fun d => 8 < Wire.num d) ds ->
  (forall i old, device_stats db !! (c, i, date_naive ts) = Some old ->
     d_total_heartbeats old + 1 < 2 ^ 31) ->
  ds = [] \/ (exists d, populated ds = [d]) ->
  exists n' db', upsert_batch no_failure id_to_model c ds ts n db = TRet () n' db'.
Proof.
  intros H8 Hr Hds. unfold upsert_batch. case_bool_decide as Hl; [by do 2 eexists|].
  destruct Hds as [->|[d Hd]]; [done|]. unfold tbind, query. cbn [no_failure].
  match goal with |- context [mapM (stats_row _ _ ?b) _] =>
    destruct (stats_rows_keys ts b ds H8) as (rows & -> & Ek) end.
  assert (NoDup rows.*1) as Hnd by (rewrite Ek; apply indices_nodup; right; by exists d).
  unfold stmt, device_stats_insert. cbn [no_failure].
  case_bool_decide as Hn.
  { subst rows. symmetry in Ek. apply indices_nil in Ek. congruence. }
  rewrite bool_decide_eq_true_2 by done. cbn [negb].
  destruct (upsert_rows_ok c (date_naive ts) rows (device_stats db) Hnd) as [t' ->].
  { intros i old _. apply Hr. }
  by do 2 eexists.
Qed.

(** The statements after the devices. *)
Lemma statistics_run hb ts n db db5 :
  let ds := hb_devices_info hb in
  let i := hb_system_info hb in
  ~ Exists (fun d => 8 < Wire.num d) ds ->
  interval_on (heartbeat_config_daily db) (date_naive ts) <> 0 -> room hb ts db ->
  stats_of db5 = stats_of db -> ds = [] \/ (exists d, populated ds = [d]) ->
  exists n' db', tbind (stmt no_failure (client_stats_upsert (hb_client_id hb)
      (Some (f_of_Z (cpu_usage i))) (Some (f_of_Z (memory_usage i))) (Some (f_of_Z (disk_usage i)))
      (Some (i64_or_0 (network_rx i))) (Some (i64_or_0 (network_tx i))) ts))
    (fun _ => upsert_batch no_failure id_to_model (hb_client_id hb) ds ts) n db5 = TRet () n' db'.
Proof.
  intros ds i H8 Hi Hr E5 Hds. injection E5 as E1 E2 E3.
  destruct (client_upsert_run hb ts db5) as (db6 & Eu & E6).
  { by rewrite E3. }
  { unfold room in *. by rewrite E1, E2. }
  unfold tbind, stmt. cbn [no_failure]. fold i in Eu. rewrite Eu. apply upsert_batch_run; [done| |done].
  rewrite E6, E2. apply Hr.
Qed.

(** Which heartbeats are recorded, on a healthy database with room in its counters: a list
    with an entry of more than eight devices panics, and any other is recorded exactly when
    it is empty or exactly one of its entries has devices. In particular a device that
    reports one entry with no devices, and one that reports two entries with devices, are
    never recorded: the transaction fails, so that they are not even marked online. *)
Theorem device_lists_accepted (hb : HeartbeatMessage) (ts now : Z) (db : Db) :
  let ds := hb_devices_info hb in
  let run := heartbeat_tx no_failure id_to_model hb ts now 0%nat db in
  interval_on (heartbeat_config_daily db) (date_naive ts) <> 0 -> room hb ts db ->
  (run = TPanic <-> Exists (fun d => 8 < Wire.num d) ds)
  /\ ((exists n db', run = TRet () n db') <->
        ~ Exists (fun d => 8 < Wire.num d) ds /\ (ds = [] \/ exists d, populated ds = [d])).
Proof.
  intros ds run Hi Hr. unfold run, heartbeat_tx.
  destruct (insert_heartbeat_run (hb_client_id hb) (hb_system_info hb) (hb_devices_info hb)
    (i32_or_0 (hb_device_memtotal_gb hb)) (i32_or_0 (hb_device_count hb))
    (i32_or_0 (hb_total_tflops hb)) ts now 0%nat db) as (db4 & Es & Hfree & Eins).
  rewrite (tbind_eq _ _ _ _ _ Eins). clear Eins. fold ds. destruct (decide (Exists (fun d => 8 < Wire.num d) ds)) as [H8|H8].
  { rewrite bool_decide_eq_false_2 by (by destruct H8).
    apply (device_rows_panic ds) in H8 as Hm. rewrite Hm. split; [by split|].
    split; [intros (? & ? & E); discriminate E|by intros [? _]]. }
  case_bool_decide as Hl.
  { destruct (statistics_run hb ts 4 db db4 H8 Hi Hr Es) as (n' & db' & E); [left; by apply nil_length_inv|].
    cbn [Nat.add]. fold ds in E. rewrite E. split; [split; [done|by intros ?]|].
    split; [|by do 2 eexists]. intros _. split; [done|]. left. by apply nil_length_inv. }
  destruct (mapM (device_row id_to_model) (device_indices ds)) as [rows|] eqn:Em.
  2: { by apply device_rows_panic in Em. }
  pose proof (device_rows_keys ds rows Em) as Ek.
  rewrite (stmt_run (insert_devices _ _)). unfold insert_devices.
  assert (NoDup rows.*1 <-> exists t', insert_unique (hb_client_id hb) rows (device_info db4) = Ok t')
    as Hu by (apply insert_unique_ok; intros; apply Hfree).
  rewrite Ek in Hu. rewrite indices_nodup in Hu.
  case_bool_decide as Hrl.
  { cbn. split; [split; [done|by intros ?]|]. split; [by intros (? & ? & ?)|].
    intros [_ [->|[d Hd]]]; [done|]. apply nil_length_inv in Hrl. subst rows. symmetry in Ek.
    apply indices_nil in Ek. congruence. }
  destruct (insert_unique _ _ _) as [t'|e] eqn:Ei; cbn [rbind].
  - destruct (proj2 Hu (ex_intro _ t' eq_refl)) as [Hp|Hp].
    { apply indices_nil in Hp. rewrite Hp in Ek. by apply fmap_nil_inv in Ek as ->. }
    destruct (statistics_run hb ts (S (4 + 0)) db (set_device_info t' db4) H8 Hi Hr) as (n' & db' & E); [done|by right|].
    fold ds in E. rewrite E. split; [split; [done|by intros ?]|]. split; [|by do 2 eexists]. intros _. by split; [|right].
  - cbn. split; [split; [done|by intros ?]|]. split; [by intros (? & ? & ?)|].
    intros [_ [->|Hp]]; [done|]. by destruct (proj1 Hu (or_intror Hp)).
Qed.
End Accepted.

(** *** What the pieces do together *)

(** A heartbeat is put on the topic for whatever client it names, also on a connection that
    never logged in. *)
Lemma heartbeats_need_no_login `{C : Framing.Codec} `{H : Hex} hmac_sha1 base64 print_f32
    (env : Session.Env) (wr : Z) (hb : HeartbeatMessage) (s : Server) :
  e_kafka env = true ->
  let c := V1 (Heartbeat (hb_client_id hb) (hb_system_info hb) (hb_device_count hb)
                 (hb_device_memtotal_gb hb) (hb_total_tflops hb) (hb_devices_info hb)) in
  handle_command hmac_sha1 base64 print_f32 env wr (Some c) session_start s
  = (Go session_start, set_heartbeats (heartbeats s ++ [hb]) s).
Proof. intros E. unfold handle_command, handle_heartbeat. rewrite E. by destruct hb. Qed.

(** *** Concrete runs *)
Section Examples.
#[local] Existing Instance QFloat.

Definition w_device : DevicesInfo :=
  mkDevicesInfo 1 0 5 8 0 0 LINUX EngineNone 50 40 30 20 0x10de 1 8 0.
Definition w_heartbeat : HeartbeatMessage :=
  mkHeartbeat [Byte.x01] (mkSystemInfo 10 20 30 5 6) 8 1 5 [w_device].
Definition w_db0 : Db (Fl:=QFloat) := mkDb ∅ ∅ ∅ ∅ ∅ ∅ ∅.
Definition w_env : TxEnv := mkTxEnv 0 0 true no_failure true.
Definition w_message (ms : Z) : OwnedMessage := mkMessage (Some []) (CreateTime ms) (Some []).
Definition w_process (m : OwnedMessage) (db : Db (Fl:=QFloat)) : option (Db (Fl:=QFloat)) :=
  process_message (fun _ => Some w_heartbeat) (fun _ => true) (fun _ => None) w_env m db.
Definition w_db1 : Db (Fl:=QFloat) := default w_db0 (w_process (w_message 86400000) w_db0).
Definition w_db2 : Db (Fl:=QFloat) := default w_db0 (w_process (w_message 86520000) w_db1).
Definition w_db3 : Db (Fl:=QFloat) := default w_db0 (w_process (w_message 86400000) w_db2).
Definition w_log : list (HeartbeatMessage * Z) :=
  [(w_heartbeat, 86400000000); (w_heartbeat, 86520000000)].

Lemma w_reach :
  reach (fun _ => None) (fun _ => Some w_heartbeat) (fun _ => true) w_db0 w_db2 w_log.
Proof.
  change w_log with (([] ++ [(w_heartbeat, 86400000000)]) ++ [(w_heartbeat, 86520000000)]).
  assert (recorded (Fl:=QFloat) (fun _ => None) (fun _ => Some w_heartbeat) (fun _ => true) w_env
            (w_message 86400000) w_db0 = [(w_heartbeat, 86400000000)]) as <- by (by vm_compute).
  assert (recorded (Fl:=QFloat) (fun _ => None) (fun _ => Some w_heartbeat) (fun _ => true) w_env
            (w_message 86520000) w_db1 = [(w_heartbeat, 86520000000)]) as <- by (by vm_compute).
  apply reach_message; [apply reach_message; [apply reach_start|]|]; by vm_compute.
Qed.

Definition w_key : ClientId * Z * Z := ([Byte.x01], 0, 1).

Lemma w_no_stats : no_stats w_db0.
Proof. by split. Qed.

Lemma daily_statistics_correct_witness :
  exists r, device_stats w_db2 !! w_key = Some r
    /\ d_total_heartbeats r
       = blen (kept d_bucket (w_log ≫= observed (Fl:=QFloat) (fun _ => None) ∅ w_key))
    /\ mean_of (d_avg_utilization
                <$> kept d_bucket (w_log ≫= observed (Fl:=QFloat) (fun _ => None) ∅ w_key))
         (d_avg_utilization r).
Proof.
  pose proof (proj1 (daily_statistics_correct (fun _ => None) (fun _ => Some w_heartbeat)
    (fun _ => true) w_db0 w_db2 w_log w_no_stats w_reach) w_key) as H.
  cbv zeta in H. destruct (device_stats w_db2 !! w_key) as [r|] eqn:E.
  - exists r. destruct H as (H1 & _ & H2 & _). split; [reflexivity|]. split; [exact H1|exact H2].
  - exfalso. vm_compute in E. discriminate E.
Defined.

Lemma w_intervals day : interval_ok (interval_on (heartbeat_config_daily w_db0) day).
Proof. unfold interval_on. cbn. rewrite lookup_empty. split; [done|]. by exists 720. Qed.

Lemma points_capped_per_day_witness :
  capped 1 (refresh_device_points_daily ∅ 1 5 w_db2 ∅)
  /\ exists s, device_stats w_db2 !! w_key = Some s /\ d_total_heartbeats s * 120 <= 86400.
Proof.
  destruct (points_capped_per_day (fun _ => None) (fun _ => Some w_heartbeat) (fun _ => true)
    w_db0 w_db2 w_log ∅ 1 1 5 ∅ w_no_stats w_reach w_intervals (map_Forall_empty _)
    ltac:(discriminate) (map_Forall_empty _)) as (H1 & H2 & _).
  split; [exact H2|]. destruct (device_stats w_db2 !! w_key) as [s|] eqn:E.
  - exists s. split; [reflexivity|]. destruct (H1 w_key s E) as [_ H]. exact H.
  - exfalso. vm_compute in E. discriminate E.
Defined.

Lemma redelivery_counts_once_witness :
  device_core <$> device_stats w_db3 !! w_key = device_core <$> device_stats w_db2 !! w_key
  /\ device_core <$> device_stats w_db2 !! w_key <> None.
Proof.
  split; [|by vm_compute].
  assert (w_process (w_message 86400000) w_db2 = Some w_db3) as Hp by (by vm_compute).
  assert (recorded (Fl:=QFloat) (fun _ => None) (fun _ => Some w_heartbeat) (fun _ => true) w_env
            (w_message 86400000) w_db2 = [(w_heartbeat, 86400000000)]) as Hr by (by vm_compute).
  refine (proj1 (redelivery_counts_once (fun _ => None) (fun _ => Some w_heartbeat) (fun _ => true)
    w_db0 w_db2 w_db3 w_log w_env (w_message 86400000) w_heartbeat 86400000000
    w_no_stats w_reach Hp Hr _) w_key).
  left.
Defined.

(** A device without a detected GPU reports one entry with no devices. *)
Definition w_no_gpu : HeartbeatMessage :=
  mkHeartbeat [Byte.x01] (mkSystemInfo 10 20 30 5 6) 8 0 5 [DevicesInfo_default].

Lemma w_room hb ts : room hb ts w_db0.
Proof. split; [intros i old E|intros old E]; exact (False_ind _ (lookup_empty_Some _ _ E)). Qed.

Lemma device_lists_accepted_witness :
  (exists n db', heartbeat_tx no_failure (fun _ => None) w_heartbeat 0 0 0%nat w_db0 = TRet () n db')
  /\ ~ (exists n db', heartbeat_tx no_failure (fun _ => None) w_no_gpu 0 0 0%nat w_db0 = TRet () n db').
Proof.
  assert (interval_on (heartbeat_config_daily w_db0) (date_naive 0) <> 0) as Hi by (by vm_compute).
  split.
  - apply (proj2 (device_lists_accepted (fun _ => None) w_heartbeat 0 0 w_db0 Hi (w_room _ _))).
    split.
    + intros H. inversion H as [? ? H'|? ? H']; subst; [by vm_compute in H'|inversion H'].
    + right. exists w_device. reflexivity.
  - intros H. apply (proj2 (device_lists_accepted (fun _ => None) w_no_gpu 0 0 w_db0 Hi (w_room _ _))) in H.
    destruct H as [_ [H|[d H]]]; discriminate H.
Defined.

(** The averages of a device are taken of the packed fields of all devices of the entry, not of
    its own lane: 50 and 60 per cent are recorded as 15410. *)
Example packed_usage_recorded :
  let d := mkDevicesInfo 2 0 5 8 0 0 LINUX EngineNone (50 + 60 * 256) 40 30 20 0 0 8 0 in
  stats_row (Fl:=QFloat) (fun _ => None) 0 0 (0, d)
  = Some (0, mkDeviceStats (Fl:=QFloat) b!"Unknown Unknown" 1 (Some 15410%Q) (Some 20%Q)
                 (Some 30%Q) (Some 40%Q) 0 0).
Proof. by vm_compute. Qed.

(** The interval of the client row is computed from the rounded second, that of the device rows
    from the second begun: half a second before an interval ends they differ. *)
Example intervals_disagree :
  c_bucket (client_row (Fl:=QFloat) ∅ w_heartbeat 119500000) = 1 /\ hb_bucket ∅ 119500000 = 0.
Proof. by vm_compute. Qed.

End Examples.
End HeartbeatFacts.
