(* ===== verification/LlamaEngine.v ===== *)
(** * The embedded llama.cpp engine ([gpuf-c/src/llm_engine/llama_engine.rs])

    [LlamaEngine] as a state machine: model paths and their validation, loading and caching
    a model, [init], [set_models], [load_model], [start_worker], [stop_worker], the status
    strings and the process-wide [MODEL_STATUS] ([gpuf-c/src/lib.rs]). The engine is [Clone]:
    what is behind an [Arc] is shared by all clones ([Shared]), the rest belongs to each
    clone ([LlamaEngine]). llama.cpp itself (parsing a model file, the backend, the device
    list) and the file system are arguments ([EngineEnv]), and they may differ at each call. *)

From S2P Require Import Prelude Wire Text Ids Output LlamaServer Downloader.
From Stdlib Require Import ZArith Lia String.
From Stdlib Require Import Strings.Byte.
From stdpp Require Import base list gmap.

Local Open Scope Z_scope.

(** ** [ModelStatusInfo], the process-wide [MODEL_STATUS] *)

Record ModelStatusInfo := mkStatus {
  current_model : option bytes; ms_loading_status : bytes;
  is_loaded : bool; error_message : option bytes }.

Definition ModelStatusInfo_new : ModelStatusInfo := mkStatus None b!"Not initialized" false None.
Definition ms_set_loading (model_path : bytes) (s : ModelStatusInfo) : ModelStatusInfo :=
  mkStatus (Some model_path) b!"Loading..." false None.
Definition ms_set_loaded (model_path : bytes) (s : ModelStatusInfo) : ModelStatusInfo :=
  mkStatus (Some model_path) b!"Loaded" true None.
Definition ms_set_error (error : bytes) (s : ModelStatusInfo) : ModelStatusInfo :=
  mkStatus (current_model s) b!"Error" false (Some error).
Definition ms_clear (s : ModelStatusInfo) : ModelStatusInfo := mkStatus None b!"Not initialized" false None.

(** ** The engine *)

Inductive LlamaSplitMode := SplitNone | SplitLayer | SplitRow.

Record ModelInfo := mkModelInfo { mi_id : bytes; mi_name : bytes; mi_status : bytes }.

(** The parameters of the model that llama.cpp loads. *)
Record LoadParams := mkLoadParams {
  lp_gpu_layers : Z; lp_split_mode : LlamaSplitMode; lp_main_gpu : Z; lp_devices : option (list Z) }.

Section Engine.
(** The models of llama.cpp. *)
Context {M : Type}.

Record LlamaEngine := mkEngine {
  models_name : list bytes;
  model_path : option bytes;
  n_ctx : Z; n_batch : Z; n_gpu_layers : Z;
  llama_split_mode : LlamaSplitMode; llama_main_gpu : Z; llama_devices : option bytes;
  is_initialized : bool;
  models_dir : bytes;
  cached_backend : bool;
  cached_model : option M;
  cached_model_path : option bytes }.

(** What the clones of an engine share, with [MODEL_STATUS]. *)
Record Shared := mkShared {
  models : list ModelInfo;
  loading_status : bytes;
  current_loading_model : option bytes;
  model_status : ModelStatusInfo }.

(** The outside of one call: the regular file a path names (links followed), the
    directories, [canonicalize], the NVSwitch check, the backend, llama.cpp's model loader
    on a file's content and whether it accepts a device list. *)
Record EngineEnv := mkEngineEnv {
  read_path : bytes -> option bytes;
  is_dir : bytes -> bool;
  real_path : bytes -> result bytes;
  nvswitch_ok : bool;
  backend_ok : bool;
  parse_model : bytes -> LoadParams -> result M;
  devices_ok : list Z -> bool }.

Definition with_runtime_config (n_ctx n_batch n_gpu_layers : Z) (split : LlamaSplitMode)
    (main_gpu : Z) (devices : option bytes) (dir : bytes) : LlamaEngine :=
  mkEngine [] None n_ctx n_batch n_gpu_layers split main_gpu devices false dir false None None.

Definition with_config (path : bytes) (n_ctx n_batch n_gpu_layers : Z) (split : LlamaSplitMode)
    (main_gpu : Z) (devices : option bytes) (dir : bytes) : LlamaEngine :=
  mkEngine [] (Some path) n_ctx n_batch n_gpu_layers split main_gpu devices false dir false None None.

Definition LlamaEngine_new (dir : bytes) : LlamaEngine :=
  mkEngine [] None 2048 4096 99 SplitLayer 0 None false dir false None None.

Definition shared_new (status : ModelStatusInfo) : Shared :=
  mkShared [] b!"not_loaded" None status.

Definition set_initialized (b : bool) (e : LlamaEngine) : LlamaEngine :=
  mkEngine (models_name e) (model_path e) (n_ctx e) (n_batch e) (n_gpu_layers e)
    (llama_split_mode e) (llama_main_gpu e) (llama_devices e) b (models_dir e)
    (cached_backend e) (cached_model e) (cached_model_path e).
Definition set_model_path (p : option bytes) (e : LlamaEngine) : LlamaEngine :=
  mkEngine (models_name e) p (n_ctx e) (n_batch e) (n_gpu_layers e)
    (llama_split_mode e) (llama_main_gpu e) (llama_devices e) (is_initialized e) (models_dir e)
    (cached_backend e) (cached_model e) (cached_model_path e).
Definition set_models_name (l : list bytes) (e : LlamaEngine) : LlamaEngine :=
  mkEngine l (model_path e) (n_ctx e) (n_batch e) (n_gpu_layers e)
    (llama_split_mode e) (llama_main_gpu e) (llama_devices e) (is_initialized e) (models_dir e)
    (cached_backend e) (cached_model e) (cached_model_path e).
Definition set_cache (backend : bool) (m : option M) (path : option bytes) (e : LlamaEngine) : LlamaEngine :=
  mkEngine (models_name e) (model_path e) (n_ctx e) (n_batch e) (n_gpu_layers e)
    (llama_split_mode e) (llama_main_gpu e) (llama_devices e) (is_initialized e) (models_dir e)
    backend m path.

(** ** Model paths *)

(** [Path::join]: an absolute second part replaces the first. *)
Definition join (dir name : bytes) : bytes := if is_absolute name then name else path_join dir name.

(** [Path::starts_with]: by components. *)
Definition path_starts_with (base p : bytes) : bool :=
  Bool.eqb (is_absolute base) (is_absolute p)
  && bool_decide (take (length (components base)) (components p) = components base).

Definition has_parent_dir (p : bytes) : bool :=
  existsb (fun c => bool_decide (c = b!"..")) (components p).

Definition model_extension (p : bytes) : bytes :=
  to_ascii_lowercase (default [] (e ← extension p; from_utf8 e)).

Definition allowed_extension (ext : bytes) : bool :=
  existsb (fun x => bool_decide (ext = x)) [b!"gguf"; b!"bin"; b!"safetensors"].

Definition path_exists (env : EngineEnv) (p : bytes) : bool :=
  is_dir env p || bool_decide (is_Some (read_path env p)).

Definition validate_model_path_candidate (env : EngineEnv) (dir path : bytes)
    (must_stay_in_models_dir : bool) : result bytes :=
  if negb (path_exists env path) then Err (b!"Model file does not exist: " ++ path)
  else match real_path env path with
  | Err x => Err (b!"Invalid model path '" ++ path ++ b!"': " ++ x)
  | Ok canonical =>
      if negb (bool_decide (is_Some (read_path env canonical)))
      then Err (b!"Model path is not a file: " ++ canonical)
      else if negb (allowed_extension (model_extension canonical))
      then Err (b!"Model path must end with .gguf, .bin, or .safetensors: " ++ canonical)
      else if must_stay_in_models_dir then
        match real_path env dir with
        | Err x => Err (b!"Invalid models dir '" ++ dir ++ b!"': " ++ x)
        | Ok d => if path_starts_with d canonical then Ok canonical
                  else Err (b!"Model path escapes models directory: " ++ canonical)
        end
      else Ok canonical
  end.

Definition resolve_model_path (env : EngineEnv) (dir path : bytes) : result bytes :=
  if is_absolute path then validate_model_path_candidate env dir path false
  else if has_parent_dir path then Err (b!"Model path must not contain '..': " ++ path)
  else validate_model_path_candidate env dir (join dir path) true.

Definition validate_model_path (env : EngineEnv) (e : LlamaEngine) (path : bytes) : result bytes :=
  resolve_model_path env (models_dir e) path.

(** ** Loading *)

(** [usize::from_str] of every device; one that does not parse drops the whole list. *)
Fixpoint parse_devices (l : list bytes) : option (list Z) :=
  match l with
  | [] => Some []
  | s :: l => n ← parse_uint 64 (trim s); ns ← parse_devices l; Some (n :: ns)
  end.

Definition comma : byte := Byte.x2c.

Definition load_params (env : EngineEnv) (e : LlamaEngine) : LoadParams :=
  let base := mkLoadParams (n_gpu_layers e) (llama_split_mode e) (llama_main_gpu e) None in
  match llama_devices e with
  | None => base
  | Some devs =>
      let devs := trim devs in
      if bool_decide (devs = []) then base
      else match parse_devices (split_byte comma devs) with
      | Some ds => if devices_ok env ds
                   then mkLoadParams (n_gpu_layers e) (llama_split_mode e) (llama_main_gpu e) (Some ds)
                   else base
      | None => base
      end
  end.

Definition clear_cache (e : LlamaEngine) : LlamaEngine :=
  match cached_model e with
  | Some _ => set_initialized false (set_cache false None None e)
  | None => e
  end.

(** [LlamaModel::load_from_file] in the blocking task. *)
Definition load_from_file (env : EngineEnv) (path : bytes) (ps : LoadParams) : result M :=
  if negb (backend_ok env) then Err b!"task panicked"
  else if negb (nvswitch_ok env) then
    Err b!"NVSwitch/HGX not ready - CUDA will fail with error 802. Run: sudo systemctl start nvidia-fabricmanager"
  else match read_path env path with
  | None => Err b!"Failed to load model: NullResult"
  | Some content =>
      match parse_model env content ps with
      | Ok m => Ok m
      | Err x => Err (b!"Failed to load model: " ++ x)
      end
  end.

Definition load_and_cache (env : EngineEnv) (path : bytes) (e : LlamaEngine) : result () * LlamaEngine :=
  match load_from_file env path (load_params env e) with
  | Err x => (Err x, e)
  | Ok m => (Ok (), set_initialized true (set_cache true (Some m) (Some path) e))
  end.

Definition initialize_model (env : EngineEnv) (e : LlamaEngine) : result () * LlamaEngine :=
  match model_path e with
  | None => (Err b!"Model path not set", e)
  | Some p =>
      match validate_model_path env e p with
      | Err x => (Err x, e)
      | Ok resolved =>
          let resolved := from_utf8_lossy resolved in
          match cached_model_path e with
          | Some c =>
              if bool_decide (c = resolved) then
                match cached_model e with
                | Some _ => (Ok (), e)
                | None => load_and_cache env resolved e
                end
              else load_and_cache env resolved (clear_cache e)
          | None => load_and_cache env resolved e
          end
      end
  end.

Definition ensure_initialized (env : EngineEnv) (e : LlamaEngine) : result () * LlamaEngine :=
  if is_initialized e then (Ok (), e) else initialize_model env e.

(** ** The engine's operations, on a clone and what the clones share *)

Definition St : Type := LlamaEngine * Shared.

Definition set_model_infos (l : list ModelInfo) (s : Shared) : Shared :=
  mkShared l (loading_status s) (current_loading_model s) (model_status s).
Definition set_loading_status (b : bytes) (m : option bytes) (s : Shared) : Shared :=
  mkShared (models s) b m (model_status s).
Definition on_status (f : ModelStatusInfo -> ModelStatusInfo) (s : Shared) : Shared :=
  mkShared (models s) (loading_status s) (current_loading_model s) (f (model_status s)).

Definition begin_loading (path : bytes) (s : Shared) : Shared :=
  set_loading_status b!"loading" (Some path) (on_status (ms_set_loading path) s).

Definition end_loading (path : bytes) (r : result ()) (s : Shared) : Shared :=
  match r with
  | Ok _ => set_loading_status b!"loaded" None (on_status (ms_set_loaded path) s)
  | Err x => set_loading_status (b!"error: " ++ x) None (on_status (ms_set_error x) s)
  end.

Definition init (env : EngineEnv) (st : St) : result () * St :=
  let '(e, s) := st in
  match model_path e with
  | None => (Ok (), st)
  | Some path =>
      let s := begin_loading path s in
      let '(r, e) := ensure_initialized env e in
      (r, (e, end_loading path r s))
  end.

Definition set_models (env : EngineEnv) (paths : list bytes) (st : St) : result () * St :=
  let '(e, s) := st in
  match paths with
  | [] => (Err b!"At least one model must be specified", st)
  | path :: _ =>
      match validate_model_path env e path with
      | Err x => (Err x, st)
      | Ok _ =>
          let e := if is_initialized e && negb (bool_decide (Some path = model_path e))
                   then set_initialized false (set_cache false None (cached_model_path e) e)
                   else e in
          let e := set_models_name [path] (set_model_path (Some path) e) in
          let '(r, e) := ensure_initialized env e in
          match r with
          | Err x => (Err x, (e, s))
          | Ok _ => (Ok (), (e, set_model_infos [mkModelInfo b!"llama_cpp_model" path b!"loaded"] s))
          end
      end
  end.

Definition load_model (env : EngineEnv) (path : bytes) (st : St) : result () * St :=
  let '(e, s) := st in
  let s := begin_loading path s in
  if negb (path_exists env path) then
    let x := b!"Model file not found: " ++ path in
    (Err x, (e, end_loading path (Err x) s))
  else
    let e := if is_initialized e then set_initialized false e else e in
    let e := set_model_path (Some path) e in
    let '(r, e) := ensure_initialized env e in
    (r, (e, end_loading path r s)).

Definition start_worker (env : EngineEnv) (st : St) : result () * St :=
  let '(e, s) := st in
  let '(r, e) := ensure_initialized env e in (r, (e, s)).

Definition stop_worker (st : St) : result () * St :=
  let '(e, s) := st in
  if is_initialized e then
    (Ok (), (set_initialized false (set_model_path None e),
             set_model_infos ((fun i => mkModelInfo (mi_id i) (mi_name i) b!"unloaded") <$> models s) s))
  else (Ok (), st).

(** ** Queries *)

Definition get_model_status (s : Shared) : bytes := loading_status s.
Definition get_current_model (e : LlamaEngine) : bytes := default [] (model_path e).
Definition is_model_loaded (s : Shared) : bool := bool_decide (loading_status s = b!"loaded").

Definition get_loading_status (e : LlamaEngine) (s : Shared) : bytes :=
  let st := loading_status s in
  if bool_decide (st = b!"loading") then
    match current_loading_model s with
    | Some m => b!"Loading model: " ++ m
    | None => b!"Loading..."
    end
  else if bool_decide (st = b!"loaded") then
    match model_path e with
    | Some m => b!"Model loaded: " ++ m
    | None => b!"Model loaded"
    end
  else if bool_decide (st = b!"not_loaded") then b!"No model loaded"
  else if starts_with b!"error:" st then b!"Loading error: " ++ drop 6 st
  else b!"Unknown status: " ++ st.

Definition is_ready (e : LlamaEngine) : bool := is_initialized e.
Definition get_config (e : LlamaEngine) : option (bytes * Z * Z) :=
  (fun p => (p, n_ctx e, n_gpu_layers e)) <$> model_path e.

(** ** Files of the models directory: entries with their content, [None] for what is no file *)

Definition list_local_models (dir_exists : bool) (entries : list (bytes * option bytes)) : list bytes :=
  if negb dir_exists then []
  else omap (fun en : bytes * option bytes =>
         match en.2 with
         | None => None
         | Some _ =>
             x ← extension en.1;
             if bool_decide (x = b!"gguf") || bool_decide (x = b!"bin")
             then from_utf8_lossy <$> file_name en.1 else None
         end) entries.

Definition delete_model (e : LlamaEngine) (filename : bytes) (fs : gmap bytes bytes)
    : result () * gmap bytes bytes :=
  let p := join (models_dir e) filename in
  match fs !! p with
  | None => (Err (b!"Model file does not exist: " ++ filename), fs)
  | Some _ => (Ok (), delete p fs)
  end.

Definition get_model_size (e : LlamaEngine) (filename : bytes) (fs : gmap bytes bytes) : result Z :=
  match fs !! join (models_dir e) filename with
  | None => Err not_found
  | Some c => Ok (blen c)
  end.

(** What the two generation calls require before they start. *)
Definition serving (e : LlamaEngine) : result M :=
  if negb (is_initialized e) then Err b!"Engine not initialized - call load_model() first"
  else match cached_backend e, cached_model e with
  | true, Some m => Ok m
  | _, _ => Err b!"Model not loaded - call load_model() first"
  end.
End Engine.
Arguments LlamaEngine M : clear implicits.
Arguments EngineEnv M : clear implicits.
Arguments St M : clear implicits.

(** ** Facts *)
Section Facts.
Context {M : Type} (dir : bytes).
Implicit Types (e : LlamaEngine M) (env : EngineEnv M) (st : St M).

Inductive op := OpInit | OpSetModels (l : list bytes) | OpLoad (p : bytes) | OpStart | OpStop | OpClear.

Definition run_op env (o : op) st : result () * St M :=
  match o with
  | OpInit => init env st
  | OpSetModels l => set_models env l st
  | OpLoad p => load_model env p st
  | OpStart => start_worker env st
  | OpStop => stop_worker st
  | OpClear => (Ok (), (clear_cache st.1, st.2))
  end.

(** Calls one after the other, each in surroundings of its own; failed calls included. *)
Fixpoint run (l : list (EngineEnv M * op)) st : St M :=
  match l with
  | [] => st
  | (env, o) :: l => run l (run_op env o st).2
  end.

(** Where a loaded model comes from: a validated path and the content found there. *)
Definition origin (m : M) : Prop :=
  exists env p resolved content ps,
    resolve_model_path env dir p = Ok resolved
    /\ read_path env (from_utf8_lossy resolved) = Some content /\ parse_model env content ps = Ok m.

Record engine_inv e : Prop := {
  inv_dir : models_dir e = dir;
  inv_cached : forall m, cached_model e = Some m -> cached_backend e = true /\ origin m;
  inv_ready : is_initialized e = true ->
    exists m p q, cached_model e = Some m /\ model_path e = Some p /\ cached_model_path e = Some q }.

Lemma load_from_file_Ok env path ps m :
  load_from_file env path ps = Ok m ->
  exists content, read_path env path = Some content /\ parse_model env content ps = Ok m.
Proof.
  unfold load_from_file. destruct (backend_ok env), (nvswitch_ok env); try done. cbn.
  destruct (read_path env path) as [c|]; [|done]. destruct (parse_model env c ps) eqn:E; [|done].
  intros [= <-]. eauto.
Qed.

Lemma inv_clear e : engine_inv e -> engine_inv (clear_cache e).
Proof.
  intros H. unfold clear_cache. destruct (cached_model e); [|done].
  destruct H as [H1 H2 H3]. by split; cbn.
Qed.

(** Changing what is not cached keeps the invariant when the engine is not initialised. *)
Lemma inv_path e p : engine_inv e -> is_initialized e = false -> engine_inv (set_model_path p e).
Proof. intros [H1 H2 H3] Hi. split; cbn; [done|done|congruence]. Qed.

Lemma inv_load env p resolved e :
  engine_inv e -> model_path e = Some p -> resolve_model_path env dir p = Ok resolved ->
  is_initialized e = false -> engine_inv (load_and_cache env (from_utf8_lossy resolved) e).2.
Proof.
  intros [H1 H2 H3] Hp Hr Hi. unfold load_and_cache.
  destruct (load_from_file env _ _) as [m|x] eqn:El; cbn; [|by split].
  apply load_from_file_Ok in El as (c & Hc & Hm).
  split; cbn; [done|intros m' [= <-]|by eauto 6].
  split; [done|]. unfold origin. eauto 8.
Qed.

Lemma initialize_inv env e : engine_inv e -> is_initialized e = false -> engine_inv (initialize_model env e).2.
Proof.
  intros Hinv Hi. unfold initialize_model, validate_model_path. destruct (model_path e) as [p|] eqn:Hp; [|done].
  rewrite (inv_dir e Hinv). destruct (resolve_model_path env dir p) as [q|x] eqn:Hq; [|done].
  destruct (cached_model_path e) as [c|]; [|by eapply inv_load].
  case_bool_decide.
  - destruct (cached_model e); [done|by eapply inv_load].
  - eapply inv_load; [by apply inv_clear| |done|].
    + unfold clear_cache. by destruct (cached_model e).
    + unfold clear_cache. by destruct (cached_model e).
Qed.

Lemma ensure_inv env e : engine_inv e -> engine_inv (ensure_initialized env e).2.
Proof.
  intros H. unfold ensure_initialized. destruct (is_initialized e) eqn:Hi; [done|].
  by apply initialize_inv.
Qed.

Lemma inv_names l e : engine_inv e -> engine_inv (set_models_name l e).
Proof. by intros [H1 H2 H3]; split. Qed.

Lemma set_models_inv env l st : engine_inv st.1 -> engine_inv (set_models env l st).2.1.
Proof.
  destruct st as [e s]. intros H. unfold set_models. destruct l as [|p l]; [done|].
  destruct (validate_model_path env e p); [|done].
  set (e1 := if _ && _ then _ else e).
  assert (engine_inv (set_models_name [p] (set_model_path (Some p) e1))) as H1.
  { apply inv_names. unfold e1. destruct (is_initialized e) eqn:Hi; cbn [andb]; [|by apply inv_path].
    case_bool_decide as Hp; cbn [negb].
    - destruct H as [H1 H2 H3]. split; cbn; [done|done|]. intros _.
      destruct (H3 Hi) as (m & p' & q & ? & ? & ?). eauto 6.
    - destruct H as [H1 H2 H3]. by split; cbn. }
  apply (ensure_inv env) in H1. destruct (ensure_initialized env _) as [r e2]. by destruct r.
Qed.

Lemma load_model_inv env p st : engine_inv st.1 -> engine_inv (load_model env p st).2.1.
Proof.
  destruct st as [e s]. intros H. unfold load_model. destruct (path_exists env p); [|done]. cbn [negb].
  assert (engine_inv (set_model_path (Some p) (if is_initialized e then set_initialized false e else e))) as H1.
  { destruct (is_initialized e) eqn:Hi; [|by apply inv_path].
    destruct H as [H1 H2 H3]. by split; cbn. }
  apply (ensure_inv env) in H1. by destruct (ensure_initialized env _) as [r e2].
Qed.

Lemma run_op_inv env o st : engine_inv st.1 -> engine_inv (run_op env o st).2.1.
Proof.
  intros H. destruct o; cbn [run_op].
  - destruct st as [e s]. unfold init. destruct (model_path e); [|done].
    pose proof (ensure_inv env e H). by destruct (ensure_initialized env e).
  - by apply set_models_inv.
  - by apply load_model_inv.
  - destruct st as [e s]. unfold start_worker. pose proof (ensure_inv env e H).
    by destruct (ensure_initialized env e).
  - destruct st as [e s]. unfold stop_worker. destruct (is_initialized e); [|done].
    destruct H as [H1 H2 H3]. by split; cbn.
  - by apply inv_clear.
Qed.

Lemma engine_run_inv l st : engine_inv st.1 -> engine_inv (run l st).1.
Proof. revert st. induction l as [|[env o] l IH]; intros st H; [done|]. by apply IH, run_op_inv. Qed.

Lemma serving_Ok e m : serving e = Ok m <-> is_initialized e = true /\ cached_backend e = true /\ cached_model e = Some m.
Proof.
  unfold serving. destruct (is_initialized e), (cached_backend e), (cached_model e); cbn;
    (split; [intros H|intros (H1 & H2 & H3)]); try discriminate; simplify_eq; auto.
Qed.

Lemma inv_serving e : engine_inv e -> is_initialized e = true -> exists m, serving e = Ok m.
Proof.
  intros [H1 H2 H3] Hi. destruct (H3 Hi) as (m & p & q & Hm & _). exists m.
  apply serving_Ok. split; [done|]. split; [by eapply H2|done].
Qed.

Lemma not_serving e : is_initialized e = false -> serving e = Err b!"Engine not initialized - call load_model() first".
Proof. intros H. unfold serving. by rewrite H. Qed.

(** What validation promises about an accepted path. *)
Lemma resolve_spec env p q :
  resolve_model_path env dir p = Ok q ->
  is_Some (read_path env q) /\ allowed_extension (model_extension q) = true
  /\ (is_absolute p = false ->
      has_parent_dir p = false /\ exists d, real_path env dir = Ok d /\ path_starts_with d q = true).
Proof.
  assert (forall path b, validate_model_path_candidate env dir path b = Ok q ->
    is_Some (read_path env q) /\ allowed_extension (model_extension q) = true
    /\ (b = true -> exists d, real_path env dir = Ok d /\ path_starts_with d q = true)) as Hc.
  { intros path b. unfold validate_model_path_candidate. destruct (path_exists env path); [|done]. cbn [negb].
    destruct (real_path env path) as [c|]; [|done].
    case_bool_decide as Hf; [|done]. cbn [negb].
    destruct (allowed_extension (model_extension c)) eqn:Hx; [|done]. cbn [negb].
    destruct b; [|by intros [= <-]].
    destruct (real_path env dir) as [d|]; [|done].
    destruct (path_starts_with d c) eqn:Hd; [|done]. intros [= <-]. eauto. }
  unfold resolve_model_path. destruct (is_absolute p).
  - intros (? & ? & _)%Hc. done.
  - destruct (has_parent_dir p); [done|]. intros (? & ? & ?)%Hc. auto.
Qed.
End Facts.


Section Loading.
Context {M : Type}.
Implicit Types (e : LlamaEngine M) (env : EngineEnv M).

(** The cache holds the model of this resolved path. *)
Definition cached_for (q : bytes) e : bool :=
  bool_decide (is_Some (cached_model e)) && bool_decide (cached_model_path e = Some q).

(** An engine that is not initialised and has no model it could fall back to. *)
Definition unloaded e : Prop := is_initialized e = false /\ cached_model e = None.

Lemma load_and_cache_spec env q e r e' :
  load_and_cache env q e = (r, e') ->
  match load_from_file env q (load_params env e) with
  | Ok m => r = Ok () /\ serving e' = Ok m /\ model_path e' = model_path e /\ cached_model_path e' = Some q
  | Err x => r = Err x /\ e' = e
  end.
Proof. unfold load_and_cache. destruct (load_from_file _ _ _); by intros [= <- <-]. Qed.

(** What [ensure_initialized] does to an engine that is not initialised. *)
Lemma ensure_spec env e p resolved r e' :
  is_initialized e = false -> model_path e = Some p -> validate_model_path env e p = Ok resolved ->
  ensure_initialized env e = (r, e') ->
  let q := from_utf8_lossy resolved in
  if cached_for q e then r = Ok () /\ e' = e
  else match load_from_file env q (load_params env e) with
       | Ok m => r = Ok () /\ serving e' = Ok m /\ model_path e' = Some p /\ cached_model_path e' = Some q
       | Err x => r = Err x /\ is_initialized e' = false /\ model_path e' = Some p
                  /\ (cached_model e = None -> cached_model e' = None)
       end.
Proof.
  intros Hi Hp Hv E q. unfold ensure_initialized in E. rewrite Hi in E.
  unfold initialize_model in E. rewrite Hp, Hv in E. fold q in E.
  assert (forall e0, is_initialized e0 = false -> model_path e0 = Some p ->
    (cached_model e = None -> cached_model e0 = None) ->
    load_params env e0 = load_params env e -> load_and_cache env q e0 = (r, e') ->
    match load_from_file env q (load_params env e) with
    | Ok m => r = Ok () /\ serving e' = Ok m /\ model_path e' = Some p /\ cached_model_path e' = Some q
    | Err x => r = Err x /\ is_initialized e' = false /\ model_path e' = Some p
               /\ (cached_model e = None -> cached_model e' = None)
    end) as Hload.
  { intros e0 Hi0 Hp0 Hc0 Hl El. apply load_and_cache_spec in El. rewrite Hl in El.
    destruct (load_from_file env q _); destruct El as [-> El]; [by rewrite Hp0 in El|].
    subst e'. by rewrite Hp0. }
  unfold cached_for. destruct (cached_model_path e) as [c|] eqn:Hc.
  2: { rewrite (bool_decide_false (None = Some q)), andb_false_r by done. by apply (Hload e). }
  destruct (decide (c = from_utf8_lossy resolved)) as [Hcq|Hcq]; fold q in Hcq;
    [rewrite (bool_decide_true (c = q)) in E by done|rewrite (bool_decide_false (c = q)) in E by done].
  - subst c. rewrite (bool_decide_true (Some q = Some q)), andb_true_r by done.
    destruct (cached_model e) as [m|] eqn:Hm.
    + rewrite bool_decide_true by eauto. by injection E as <- <-.
    + rewrite bool_decide_false by (by intros []). apply (Hload e); auto.
  - rewrite (bool_decide_false (Some c = Some q)), andb_false_r by congruence.
    apply (Hload (clear_cache e)); [| |..|done]; unfold clear_cache; by destruct (cached_model e) eqn:Hm.
Qed.
End Loading.

(** What [set_models] does, case by case. *)
Lemma set_models_effect {M : Type} (env : EngineEnv M) (paths : list bytes) (st : St M) :
  let '(r, st') := set_models env paths st in
  match paths with
  | [] => is_ok r = false /\ st' = st
  | p :: _ =>
      match validate_model_path env st.1 p with
      | Err x => r = Err x /\ st' = st
      | Ok resolved =>
          let q := from_utf8_lossy resolved in
          if is_initialized st.1 && bool_decide (model_path st.1 = Some p) then
            r = Ok () /\ serving st'.1 = serving st.1
          else if negb (is_initialized st.1) && cached_for q st.1 then
            r = Ok () /\ is_ok (serving st'.1) = false
          else
            match load_from_file env q (load_params env st.1) with
            | Ok m => r = Ok () /\ serving st'.1 = Ok m /\ model_path st'.1 = Some p
            | Err x => r = Err x /\ is_initialized st'.1 = false
                       /\ (is_initialized st.1 = true -> unloaded st'.1)
            end
      end
  end.
Proof.
  destruct st as [e s]. cbn [fst]. unfold set_models. destruct paths as [|p l]; [done|].
  destruct (validate_model_path env e p) as [resolved|x] eqn:Hv; [|done].
  set (q := from_utf8_lossy resolved). rewrite (bool_decide_ext (Some p = model_path e) (model_path e = Some p)) by done.
  destruct (is_initialized e && bool_decide (model_path e = Some p)) eqn:Hsame.
  { apply andb_true_iff in Hsame as [Hi Hp]. rewrite Hi, Hp. cbn [andb negb].
    unfold ensure_initialized. cbn [is_initialized set_models_name set_model_path]. rewrite Hi. done. }
  set (e1 := if is_initialized e && _ then _ else e).
  destruct (ensure_initialized env (set_models_name [p] (set_model_path (Some p) e1))) as [r e2] eqn:Ee.
  assert (is_initialized e1 = false /\ validate_model_path env e1 p = Ok resolved
    /\ load_params env e1 = load_params env e
    /\ cached_for q e1 = negb (is_initialized e) && cached_for q e
    /\ (is_initialized e = true -> cached_model e1 = None)) as (H1 & H2 & H3 & H4 & H5).
  { unfold e1. destruct (is_initialized e) eqn:Hi; cbn [andb] in *; [by rewrite Hsame|done]. }
  eapply ensure_spec in Ee; [|exact H1|done|exact H2]. cbn zeta in Ee. fold q in Ee.
  change (cached_for q (set_models_name _ _)) with (cached_for q e1) in Ee. rewrite H4 in Ee.
  change (load_params env (set_models_name _ _)) with (load_params env e1) in Ee. rewrite H3 in Ee.
  destruct (negb (is_initialized e) && cached_for q e).
  { destruct Ee as [-> ->]. split; [done|]. cbn [fst]. unfold serving. cbn [is_initialized set_models_name set_model_path].
    by rewrite H1. }
  destruct (load_from_file env q (load_params env e)) as [m|x].
  - by destruct Ee as (-> & Hs & Hp & _).
  - destruct Ee as (-> & Hi2 & _ & Hc). split; [done|]. split; [done|]. intros Hi. split; [done|]. apply Hc, H5, Hi.
Qed.

(** Switching models: [set_models] refuses an empty list and a path that fails
    validation and then changes nothing; asked for the path it already serves it keeps serving
    the same model without reading the file; otherwise it loads the file, and either succeeds
    and serves the file's model under that path, or reports the loader's error and is left
    not initialised, with the model it had been serving unloaded. The one exception is an
    engine that is not initialised and still caches the model of that very file: the call
    reports success and the engine still refuses to generate. *)
Theorem set_models_spec {M : Type} (env : EngineEnv M) (paths : list bytes) (st : St M) :
  let '(r, st') := set_models env paths st in
  match paths with
  | [] => is_ok r = false /\ st' = st
  | p :: _ =>
      match validate_model_path env st.1 p with
      | Err x => r = Err x /\ st' = st
      | Ok resolved =>
          let q := from_utf8_lossy resolved in
          if is_initialized st.1 && bool_decide (model_path st.1 = Some p) then
            r = Ok () /\ serving st'.1 = serving st.1
          else if negb (is_initialized st.1) && cached_for q st.1 then
            r = Ok () /\ is_ok (serving st'.1) = false
          else
            match load_from_file env q (load_params env st.1) with
            | Ok m => r = Ok () /\ serving st'.1 = Ok m /\ model_path st'.1 = Some p
            | Err x => r = Err x /\ is_initialized st'.1 = false
                       /\ (is_initialized st.1 = true -> unloaded st'.1)
            end
      end
  end.
Proof. apply set_models_effect. Qed.

(** Asking for the model of this path again, in any of the ways there are. *)
Definition asks_for {M} (dir p c : bytes) (call : EngineEnv M * op) : Prop :=
  (exists resolved, resolve_model_path call.1 dir p = Ok resolved /\ from_utf8_lossy resolved = c)
  /\ path_exists call.1 p = true
  /\ match call.2 with
     | OpInit | OpStart => True
     | OpLoad p' => p' = p
     | OpSetModels l => head l = Some p
     | OpStop | OpClear => False
     end.

Lemma stuck_step {M} (p c : bytes) (call : EngineEnv M * op) (st : St M) :
  is_initialized st.1 = false -> model_path st.1 = Some p -> cached_for c st.1 = true ->
  asks_for (models_dir st.1) p c call ->
  let '(r, st') := run_op call.1 call.2 st in
  r = Ok () /\ is_initialized st'.1 = false /\ model_path st'.1 = Some p /\ cached_for c st'.1 = true
  /\ models_dir st'.1 = models_dir st.1.
Proof.
  destruct call as [env o], st as [e s]. cbn [fst snd]. intros Hi Hp Hc ((q & Hq & <-) & Hex & Ho).
  cbn [fst snd] in Hq, Hex, Ho.
  assert (forall e0, is_initialized e0 = false -> model_path e0 = Some p -> models_dir e0 = models_dir e ->
    cached_for (from_utf8_lossy q) e0 = true -> ensure_initialized env e0 = (Ok (), e0)) as Hen.
  { intros e0 Hi0 Hp0 Hd0 Hc0. destruct (ensure_initialized env e0) as [r e1] eqn:Ee.
    eapply ensure_spec in Ee; [|done|done|by unfold validate_model_path; rewrite Hd0].
    cbn zeta in Ee. rewrite Hc0 in Ee. by destruct Ee as [-> ->]. }
  destruct o as [|l|p'| | |]; cbn [run_op] in *; try done.
  - unfold init. rewrite Hp, Hen by done. done.
  - destruct l as [|? l]; [done|]. injection Ho as ->. unfold set_models, validate_model_path.
    rewrite Hq, Hi. cbn [andb]. rewrite Hen by done. done.
  - subst p'. unfold load_model. rewrite Hex, Hi. cbn [negb]. rewrite Hen by done. done.
  - unfold start_worker. rewrite Hen by done. done.
Qed.

(** Loading the current model again disables the engine: [load_model] with the path it
    already serves reports success, the status reads as loaded, and from then on the engine
    refuses every generation; asking for that model again through [load_model], [set_models],
    [init] or [start_worker], however often, succeeds each time and changes nothing. *)
Theorem reload_disables_engine {M : Type} (env : EngineEnv M) (p q : bytes) (st : St M)
    (calls : list (EngineEnv M * op)) :
  is_ok (serving st.1) = true -> cached_model_path st.1 = Some (from_utf8_lossy q) ->
  resolve_model_path env (models_dir st.1) p = Ok q -> path_exists env p = true ->
  Forall (asks_for (models_dir st.1) p (from_utf8_lossy q)) calls ->
  let '(r, st1) := load_model env p st in
  r = Ok () /\ is_model_loaded st1.2 = true /\ is_loaded (model_status st1.2) = true
  /\ serving (run calls st1).1 = Err b!"Engine not initialized - call load_model() first".
Proof.
  destruct st as [e s]. cbn [fst snd]. intros Hs Hc Hq Hex Hall.
  assert (is_initialized e = true /\ is_Some (cached_model e)) as [Hi Hm].
  { destruct (serving e) as [m|] eqn:E; [|done]. apply serving_Ok in E as (? & _ & ?). eauto. }
  unfold load_model. rewrite Hex, Hi. cbn [negb].
  set (e1 := set_model_path (Some p) (set_initialized false e)).
  destruct (ensure_initialized env e1) as [r e2] eqn:Ee.
  assert (cached_for (from_utf8_lossy q) e1 = true) as Hc1.
  { unfold cached_for. cbn. by rewrite Hc, !bool_decide_true. }
  eapply ensure_spec in Ee; [|done|done|exact Hq]. cbn zeta in Ee. rewrite Hc1 in Ee.
  destruct Ee as [-> ->]. split; [done|]. split; [done|]. split; [done|].
  set (s1 := end_loading p (Ok ()) (begin_loading p s)). clearbody s1. clear Hs Hc Hq Hex Hi Hm.
  assert (is_initialized (e1, s1).1 = false) as H1 by done.
  assert (model_path (e1, s1).1 = Some p) as H2 by done.
  change (cached_for (from_utf8_lossy q) (e1, s1).1 = true) in Hc1.
  change (models_dir e) with (models_dir (e1, s1).1) in Hall.
  revert H1 H2 Hc1 Hall. generalize (e1, s1). clear. intros st H1 H2 H3 Hall.
  remember (models_dir st.1) as dir eqn:Hd. revert st H1 H2 H3 Hd.
  induction Hall as [|[env o] calls Hc Hall IH]; intros st H1 H2 H3 Hd; [by apply not_serving|].
  cbn [run]. rewrite Hd in Hc. pose proof (stuck_step p _ (env, o) st H1 H2 H3 Hc) as Hst.
  cbn [fst snd] in Hst. destruct (run_op env o st) as [r st']. destruct Hst as (_ & ? & ? & ? & ?).
  cbn [snd]. apply IH; [done..|congruence].
Qed.

(** The status strings follow the result of the last [load_model]; a failed load keeps the
    path it was asked for as the current model. *)
Theorem load_model_status {M : Type} (env : EngineEnv M) (p : bytes) (st : St M) :
  let '(r, st') := load_model env p st in
  is_model_loaded st'.2 = is_ok r /\ is_loaded (model_status st'.2) = is_ok r
  /\ current_model (model_status st'.2) = Some p /\ current_loading_model st'.2 = None
  /\ (forall x, r = Err x -> get_loading_status st'.1 st'.2 = b!"Loading error:  " ++ x
                             /\ error_message (model_status st'.2) = Some x).
Proof.
  assert (forall (e : LlamaEngine M) s r, let s' := end_loading p r (begin_loading p s) in
    is_model_loaded s' = is_ok r /\ is_loaded (model_status s') = is_ok r
    /\ current_model (model_status s') = Some p /\ current_loading_model s' = None
    /\ (forall x, r = Err x -> get_loading_status e s' = b!"Loading error:  " ++ x
                               /\ error_message (model_status s') = Some x)) as H.
  { intros e s [[]|x]; (split; [done|]); split; [done| |done|]; split; [done| |done|]; split; done || intros ? [= <-]; done. }
  destruct st as [e s]. unfold load_model. destruct (path_exists env p); cbn [negb]; [|apply H].
  destruct (ensure_initialized env _) as [r e']. apply H.
Qed.

(** [delete_model] joins the name it is given unchecked: a name with [..] or an absolute
    name reaches files outside the models directory. *)
Theorem delete_model_unconfined {M : Type} (e : LlamaEngine M) (name : bytes) (fs : gmap bytes bytes) (c : bytes) :
  is_absolute name = true -> fs !! name = Some c ->
  delete_model e name fs = (Ok (), delete name fs).
Proof. intros Ha Hf. unfold delete_model, join. by rewrite Ha, Hf. Qed.

(** *** A concrete disk: two model files in the models directory. The model is its content. *)
Section Demo.
Definition demo_dir : bytes := b!"/h/.llama/models".
Definition demo_disk (p : bytes) : option bytes :=
  if bool_decide (p = b!"/h/.llama/models/a.gguf") then Some b!"A"
  else if bool_decide (p = b!"/h/.llama/models/b.gguf") then Some b!"broken" else None.
Definition demo_load (content : bytes) (_ : LoadParams) : result bytes :=
  if bool_decide (content = b!"broken") then Err b!"bad magic" else Ok content.
Definition demo_env : EngineEnv bytes :=
  mkEngineEnv demo_disk (fun p => bool_decide (p = demo_dir)) (fun p => Ok p) true true demo_load (fun _ => true).
Definition demo_st : St bytes :=
  (with_runtime_config 2048 512 99 SplitLayer 0 None demo_dir, shared_new ModelStatusInfo_new).
Definition demo_ready : St bytes := (set_models demo_env [b!"a.gguf"] demo_st).2.
Definition a_path : bytes := b!"a.gguf".


Lemma demo_ready_at : cached_model_path demo_ready.1 = Some (from_utf8_lossy b!"/h/.llama/models/a.gguf").
Proof. reflexivity. Qed.

Definition demo_env2 : EngineEnv bytes :=
  mkEngineEnv demo_disk (fun p => bool_decide (p = a_path) || bool_decide (p = demo_dir)) (fun p => Ok p)
    true true demo_load (fun _ => true).

Lemma demo_asks (o : op) :
  o = OpStart \/ o = OpLoad a_path \/ o = OpSetModels [a_path] ->
  asks_for demo_dir a_path (from_utf8_lossy b!"/h/.llama/models/a.gguf") (demo_env2, o).
Proof.
  intros Ho. split; [exists b!"/h/.llama/models/a.gguf"; split; reflexivity|]. split; [reflexivity|].
  destruct Ho as [->|[->| ->]]; done.
Qed.

Lemma reload_disables_engine_witness :
  serving (run [(demo_env2, OpStart); (demo_env2, OpSetModels [a_path])]
            (load_model demo_env2 a_path demo_ready).2).1
  = Err b!"Engine not initialized - call load_model() first".
Proof.
  pose proof (reload_disables_engine demo_env2 a_path b!"/h/.llama/models/a.gguf" demo_ready
    [(demo_env2, OpStart); (demo_env2, OpSetModels [a_path])] eq_refl demo_ready_at eq_refl eq_refl
    ltac:(constructor; [apply demo_asks; auto|]; constructor; [apply demo_asks; auto|constructor])) as H.
  destruct (load_model demo_env2 a_path demo_ready) as [r st1]. exact (proj2 (proj2 (proj2 H))).
Defined.

Lemma delete_model_unconfined_witness :
  delete_model demo_st.1 b!"/etc/x" (<[b!"/etc/x" := b!"1"]> (∅ : gmap bytes bytes))
  = (Ok (), delete b!"/etc/x" (<[b!"/etc/x" := b!"1"]> (∅ : gmap bytes bytes))).
Proof. apply (delete_model_unconfined demo_st.1 _ _ b!"1"); [reflexivity|apply lookup_insert_eq]. Defined.
End Demo.
