(* ===== verification/Generate.v ===== *)
(** * Text generation in the embedded engine ([gpuf-c/src/llm_engine/llama_engine.rs])

    The two generation calls of [LlamaEngine]: [generate_with_cached_model_sampling], which
    returns the whole text, and [stream_with_cached_model_sampling], whose blocking task sends
    the pieces over a channel; the sampler chain both build; composed with [DeviceStream],
    which forwards the pieces to the server. llama.cpp's context, tokenizer and sampler are
    an argument ([LlamaCpp]). *)

From S2P Require Import Prelude Wire Text Output Ids LlamaServer Downloader LlamaEngine Scheduler Streams DeviceStream.
From Stdlib Require Import ZArith Lia String.
From Stdlib Require Import Strings.Byte.
From stdpp Require Import base list gmap.

Local Open Scope Z_scope.

(** ** Comparison of [f32] values given by their bit patterns *)

Definition f32_nan (b : f32) : bool := 0x7f800000 <? b mod 2 ^ 31.
Definition f32_key (b : f32) : Z := if b <? 2 ^ 31 then b else 2 ^ 31 - b.
Definition f32_lt (a b : f32) : bool := negb (f32_nan a) && negb (f32_nan b) && (f32_key a <? f32_key b).
Definition f32_le (a b : f32) : bool := negb (f32_nan a) && negb (f32_nan b) && (f32_key a <=? f32_key b).
Definition f32_eq (a b : f32) : bool := negb (f32_nan a) && negb (f32_nan b) && (f32_key a =? f32_key b).
Definition f32_one : f32 := 0x3f800000.
Definition f32_zero : f32 := 0.

(** ** The sampler chain *)

Inductive Sampler :=
  | Penalties (last_n : Z) (repeat : f32) | TopK (k : Z) | TopP (p : f32) (min_keep : Z)
  | TempSampler (t : f32) | Greedy | Dist (seed : Z).

Definition samplers (s : SamplingParams) : list Sampler :=
  (if f32_eq (sp_repeat_penalty s) f32_one then []
   else [Penalties (sp_repeat_last_n s) (sp_repeat_penalty s)])
  ++ (if 0 <? sp_top_k s then [TopK (sp_top_k s)] else [])
  ++ (if f32_lt f32_zero (sp_top_p s) && f32_lt (sp_top_p s) f32_one
      then [TopP (sp_top_p s) (sp_min_keep s)] else [])
  ++ [TempSampler (sp_temperature s)]
  ++ (if f32_le (sp_temperature s) f32_zero then [Greedy] else [Dist (sp_seed s)]).

(** llama.cpp on one loaded model. [sample chain history] is the next token when [history]
    (prompt and generated tokens) has been decoded and accepted; [decode_next history t]
    decodes [t] at the position after it; [token_to_piece] decodes one token's bytes with a
    fresh decoder. *)
Record LlamaCpp := mkLlamaCpp {
  new_context : Z -> Z -> result ();
  str_to_token : bytes -> result (list Z);
  decode_prompt : list Z -> result ();
  decode_next : list Z -> Z -> result ();
  sample : list Sampler -> list Z -> Z;
  token_eos : Z;
  token_to_piece : Z -> option bytes }.

Definition stop_sequences : list bytes := [b!"<|im_end|>"; b!"<|eot_id|>"; b!"<|end_of_text|>"; b!"</s>"].
Definition has_stop (piece : bytes) : bool := existsb (fun s => contains_sub s piece) stop_sequences.

Section Loops.
Context (L : LlamaCpp) (chain : list Sampler).

(** One token: [None] when generation stops, else the token's piece. *)
Definition next_token (history : list Z) : option (Z * option bytes) :=
  let t := sample L chain history in
  if t =? token_eos L then None
  else match token_to_piece L t with
       | Some piece => if has_stop piece then None else Some (t, Some piece)
       | None => Some (t, None)
       end.

(** [for i in 0..max_tokens] of [generate_with_cached_model_sampling]. *)
Fixpoint generate_loop (fuel : nat) (history : list Z) (text : bytes) (output_tokens : list Z)
    : result (bytes * list Z) :=
  match fuel with
  | O => Ok (text, output_tokens)
  | S fuel =>
      match next_token history with
      | None => Ok (text, output_tokens)
      | Some (t, piece) =>
          let? _ := decode_next L history t in
          generate_loop fuel (history ++ [t]) (text ++ default [] piece) (output_tokens ++ [t])
      end
  end.

(** The loop of the streaming task. [open_ n]: whether the receiver is still there when the
    [n]-th piece is sent. Gives the pieces received and the task's own result. *)
Fixpoint stream_pieces (fuel : nat) (history : list Z) (open_ : nat -> bool) (n : nat)
    : list bytes * result () :=
  match fuel with
  | O => ([], Ok ())
  | S fuel =>
      match next_token history with
      | None => ([], Ok ())
      | Some (t, piece) =>
          let continue_ n :=
            match decode_next L history t with
            | Err x => ([], Err x)
            | Ok _ => stream_pieces fuel (history ++ [t]) open_ n
            end in
          match piece with
          | None => continue_ n
          | Some p => if open_ n then let '(ps, r) := continue_ (S n) in (p :: ps, r)
                      else ([], Ok ())
          end
      end
  end.

(** Context, tokens and prompt decoding, which both calls start with. *)
Definition begin (ctx_len batch_len : Z) (prompt : bytes) : result (list Z) :=
  let? _ := new_context L ctx_len batch_len in
  let? tokens := str_to_token L prompt in
  let? _ := decode_prompt L tokens in
  Ok tokens.
End Loops.

Section Calls.
Context {M : Type} (cpp : M -> LlamaCpp).

Definition generate_with_cached_model_sampling (e : LlamaEngine M) (prompt : bytes) (max_tokens : Z)
    (sampling : SamplingParams) : result (bytes * Z * Z) :=
  let? m := serving e in
  let chain := samplers sampling in
  let? tokens := begin (cpp m) (n_ctx e) (n_batch e) prompt in
  let? out := generate_loop (cpp m) chain (Z.to_nat max_tokens) tokens [] [] in
  Ok (out.1, blen tokens, blen out.2).

(** The outer result is the call's; the inner one is what the spawned task ends with, which
    nothing reads. *)
Definition stream_with_cached_model_sampling (e : LlamaEngine M) (prompt : bytes) (max_tokens : Z)
    (sampling : SamplingParams) (open_ : nat -> bool) : result (list bytes * result ()) :=
  let? m := serving e in
  let chain := samplers sampling in
  Ok (match begin (cpp m) (n_ctx e) (n_batch e) prompt with
      | Err x => ([], Err x)
      | Ok tokens => stream_pieces (cpp m) chain (Z.to_nat max_tokens) tokens open_ 0
      end).

Definition generate_with_cached_model (e : LlamaEngine M) (prompt : bytes) (max_tokens : Z) :=
  generate_with_cached_model_sampling e prompt max_tokens SamplingParams_default.

Definition generate_response (e : LlamaEngine M) (prompt : bytes) (max_tokens : Z) : result bytes :=
  if negb (is_initialized e) then Err b!"Llama.cpp engine is not initialized"
  else let? r := generate_with_cached_model e prompt max_tokens in Ok r.1.1.

Definition generate_with_params := generate_response.

Definition generate (e : LlamaEngine M) (prompt : bytes) (max_tokens : Z) : result (bytes * Z * Z) :=
  if negb (is_initialized e) then Err b!"Llama.cpp engine is not initialized"
  else generate_with_cached_model e prompt max_tokens.
End Calls.

(** ** Facts *)
Section LoopFacts.
Context (L : LlamaCpp) (chain : list Sampler).

(** Accumulators of the generating loop are only appended to. *)
Lemma generate_loop_acc fuel history text out :
  generate_loop L chain fuel history text out
  = let? r := generate_loop L chain fuel history [] [] in Ok (text ++ r.1, out ++ r.2).
Proof.
  revert history text out. induction fuel as [|fuel IH]; intros history text out; cbn.
  { by rewrite !app_nil_r. }
  destruct (next_token L chain history) as [[t piece]|]; [|cbn; by rewrite !app_nil_r].
  destruct (decode_next L history t) as [[]|x]; [|done]. cbn.
  rewrite IH, (IH _ (default [] piece) [t]).
  destruct (generate_loop L chain fuel (history ++ [t]) [] []) as [[txt o]|x]; [|done].
  cbn [rbind fst snd]. by rewrite <- !app_assoc.
Qed.

Definition always_open (_ : nat) : bool := true.

(** With a receiver that stays, the streaming task goes through the same tokens. *)
Lemma stream_generate fuel history n :
  let '(ps, r) := stream_pieces L chain fuel history always_open n in
  match generate_loop L chain fuel history [] [] with
  | Ok (text, out) => r = Ok () /\ concat ps = text /\ (length ps <= length out <= fuel)%nat
  | Err x => r = Err x
  end.
Proof.
  revert history n. induction fuel as [|fuel IH]; intros history n; cbn; [repeat split; lia|].
  destruct (next_token L chain history) as [[t piece]|] eqn:Et; [|cbn; repeat split; lia].
  cbn. destruct (decode_next L history t) as [[]|x] eqn:Ed; [|by destruct piece].
  cbn. rewrite generate_loop_acc. destruct piece as [p|].
  - specialize (IH (history ++ [t]) (S n)).
    destruct (stream_pieces L chain fuel (history ++ [t]) always_open (S n)) as [ps r].
    destruct (generate_loop L chain fuel (history ++ [t]) [] []) as [[txt o]|x]; [|done].
    destruct IH as (-> & <- & Hl). cbn. split; [done|]. split; [done|lia].
  - specialize (IH (history ++ [t]) n).
    destruct (stream_pieces L chain fuel (history ++ [t]) always_open n) as [ps r].
    destruct (generate_loop L chain fuel (history ++ [t]) [] []) as [[txt o]|x]; [|done].
    destruct IH as (-> & <- & Hl). cbn. split; [done|]. split; [done|lia].
Qed.

(** A receiver that leaves cuts the stream: what it got is a beginning of the whole. *)
Lemma stream_prefix fuel history open_ n :
  (stream_pieces L chain fuel history open_ n).1
  `prefix_of` (stream_pieces L chain fuel history always_open n).1.
Proof.
  revert history n. induction fuel as [|fuel IH]; intros history n; cbn; [done|].
  destruct (next_token L chain history) as [[t [p|]]|]; [| |done].
  - cbn. destruct (open_ n); [|apply prefix_nil].
    destruct (decode_next L history t) as [[]|x]; [|done].
    specialize (IH (history ++ [t]) (S n)).
    destruct (stream_pieces _ _ _ _ open_ _), (stream_pieces _ _ _ _ always_open _).
    cbn in *. by apply prefix_cons.
  - cbn. destruct (decode_next L history t) as [[]|x]; [|done]. apply IH.
Qed.

(** No piece that is sent or returned contains a stop sequence. *)
Lemma stream_no_stop fuel history open_ n :
  Forall (fun p => has_stop p = false) (stream_pieces L chain fuel history open_ n).1.
Proof.
  revert history n. induction fuel as [|fuel IH]; intros history n; cbn; [constructor|].
  unfold next_token. destruct (_ =? _); [constructor|].
  destruct (token_to_piece L _) as [p|] eqn:Ep.
  - destruct (has_stop p) eqn:Hs; [constructor|]. destruct (open_ n); [|constructor].
    destruct (decode_next L history _) as [[]|x]; [|by repeat constructor].
    specialize (IH (history ++ [sample L chain history]) (S n)).
    destruct (stream_pieces _ _ _ _ _ _). by constructor.
  - destruct (decode_next L history _) as [[]|x]; [apply IH|constructor].
Qed.
End LoopFacts.

(** [C23] Streaming and whole answers agree: a stream whose receiver stays delivers exactly the
    text the non-streaming call returns, at most one piece per generated token, at most
    [max_tokens] of them and none with a stop sequence inside; a receiver that leaves gets a
    beginning of it. When the non-streaming call fails after the model check, the stream does
    not fail: it just ends, and the error stays in a task result that nobody reads. *)
Theorem stream_matches_generate {M : Type} (cpp : M -> LlamaCpp) (e : LlamaEngine M) (prompt : bytes)
    (max_tokens : Z) (sampling : SamplingParams) (open_ : nat -> bool) :
  match serving e with
  | Err x =>
      stream_with_cached_model_sampling cpp e prompt max_tokens sampling open_ = Err x
      /\ generate_with_cached_model_sampling cpp e prompt max_tokens sampling = Err x
  | Ok _ =>
      exists part whole r r',
        stream_with_cached_model_sampling cpp e prompt max_tokens sampling open_ = Ok (part, r)
        /\ stream_with_cached_model_sampling cpp e prompt max_tokens sampling always_open = Ok (whole, r')
        /\ part `prefix_of` whole /\ Forall (fun p => has_stop p = false) whole
        /\ match generate_with_cached_model_sampling cpp e prompt max_tokens sampling with
           | Ok (text, prompt_tokens, completion_tokens) =>
               r' = Ok () /\ concat whole = text
               /\ blen whole <= completion_tokens <= Z.max 0 max_tokens
           | Err x => r' = Err x
           end
  end.
Proof.
  unfold stream_with_cached_model_sampling, generate_with_cached_model_sampling.
  destruct (serving e) as [m|x]; cbn [rbind]; [|done].
  destruct (begin (cpp m) (n_ctx e) (n_batch e) prompt) as [tokens|x]; cbn [rbind].
  2: { exists [], [], (Err x), (Err x). split; [done|]. split; [done|]. split; [done|]. by split; [constructor|]. }
  pose proof (stream_generate (cpp m) (samplers sampling) (Z.to_nat max_tokens) tokens 0) as Hs.
  pose proof (stream_prefix (cpp m) (samplers sampling) (Z.to_nat max_tokens) tokens open_ 0) as Hp.
  pose proof (stream_no_stop (cpp m) (samplers sampling) (Z.to_nat max_tokens) tokens always_open 0) as Hn.
  destruct (stream_pieces _ _ _ _ open_ 0) as [part r], (stream_pieces _ _ _ _ always_open 0) as [whole r'].
  exists part, whole, r, r'. split; [done|]. split; [done|]. split; [done|]. split; [done|].
  destruct (generate_loop _ _ _ _ [] []) as [[text out]|x]; [|done].
  cbn. destruct Hs as (-> & -> & Hl). split; [done|]. split; [done|]. unfold blen. lia.
Qed.


(** *** A two-token model whose third decoding fails *)
Definition demo_cpp (fail_at : nat) (_ : bytes) : LlamaCpp := {|
  new_context := fun _ _ => Ok ();
  str_to_token := fun p => Ok (Z_of_byte <$> p);
  decode_prompt := fun _ => Ok ();
  decode_next := fun h _ => if (length h <? fail_at)%nat then Ok () else Err b!"Failed to decode token";
  sample := fun _ h => if (length h <? 4)%nat then 65 + blen h else 0;
  token_eos := 0;
  token_to_piece := fun t => Some [byte_of_Z t] |}.

