(* ===== verification/Mobile.v ===== *)
(** * The mobile SDK's generation interface ([gpuf-c/src/lib.rs])

    The functions the Android and iOS SDK exports over llama.cpp: the memory pool, the
    background model loader and its polling calls, tokenising into a fixed buffer,
    [gpuf_start_generation_async] with its chunked prefill and token callback,
    [manual_llama_completion] behind [gpuf_generate_with_sampling], and the two generation
    loops of the multimodal calls. llama.cpp's C functions on one model and context are an
    argument ([Llama]); positions and token counts are far below [2^31], so [c_int]
    arithmetic on them does not wrap. Log output is left out. *)

From S2P Require Import Prelude Wire Text Output Ids LlamaServer Downloader LlamaEngine Generate.
From Stdlib Require Import ZArith Lia String.
From Stdlib Require Import Strings.Byte.
From stdpp Require Import base list gmap.

Local Open Scope Z_scope.
Import Emit EmitFacts TextFacts.

(** How a call over the C interface ends: it returns, or the process aborts (a panic that
    would cross the C boundary, or an assertion of llama.cpp). *)
Inductive ffi (A : Type) := Returns (a : A) | Aborts.
Arguments Returns {A} a.
Arguments Aborts {A}.

(** ** The memory pool *)

Record MemoryPool := mkPool { p_buffer : Z; p_size : Z; p_used : Z; p_initialized : bool }.
Definition pool_start : MemoryPool := mkPool 0 0 0 false.
Definition MEMORY_POOL_SIZE : Z := 64 * 1024 * 1024.

(** [mmap]: the mapping's address, or its failure. *)
Definition init_memory_pool (mmap : option Z) (p : MemoryPool) : bool * MemoryPool :=
  if p_initialized p then (true, p)
  else match mmap with
  | None => (false, p)
  | Some buffer => (true, mkPool buffer MEMORY_POOL_SIZE 0 true)
  end.

Definition is_power_of_two (n : Z) : bool := (0 <? n) && (2 ^ Z.log2 n =? n).

(** The result is the pointer; 0 is null. *)
Definition allocate_from_pool (size alignment : Z) (p : MemoryPool) : Z * MemoryPool :=
  if (size =? 0) || (alignment =? 0) || negb (is_power_of_two alignment) then (0, p)
  else if negb (p_initialized p) || (p_buffer p =? 0) then (0, p)
  else
    let aligned_offset := Z.land (wrap 64 (p_used p + alignment - 1)) (2 ^ 64 - 1 - (alignment - 1)) in
    let new_used := sat_add 64 aligned_offset size in
    if p_size p <? new_used then (0, p)
    else (p_buffer p + aligned_offset, mkPool (p_buffer p) (p_size p) new_used (p_initialized p)).

Definition reset_pool (p : MemoryPool) : MemoryPool :=
  mkPool (p_buffer p) (p_size p) 0 (p_initialized p).

Definition cleanup_memory_pool (p : MemoryPool) : MemoryPool :=
  if p_initialized p && negb (p_buffer p =? 0) then mkPool 0 0 0 false else p.

(** ** Loading a model in the background *)

Record AsyncLoadingState := mkLoading { ls_status : Z; ls_progress : Z; ls_model_ptr : Z }.

(** Progress in tenths. The loader threads still running, each with what its load gives. *)
Record Loader := mkLoader { ld_state : option AsyncLoadingState; ld_threads : list (nat * bool) }.

Definition loader_start : Loader := mkLoader None [].

(** Set the state, then spawn the thread (a previous one is joined afterwards). *)
Definition gpuf_load_model_async_start (path_null : bool) (id : nat) (l : Loader) : bool * Loader :=
  if path_null then (false, l)
  else (true, mkLoader (Some (mkLoading 1 0 0)) (ld_threads l ++ [(id, false)])).

Definition set_progress (l : Loader) : option AsyncLoadingState :=
  (fun s => mkLoading (ls_status s) 1 (ls_model_ptr s)) <$> ld_state l.

(** What a finished load writes; 0 is the null pointer. *)
Definition loaded_state (model_ptr : Z) (s : AsyncLoadingState) : AsyncLoadingState :=
  if model_ptr =? 0 then mkLoading 3 (-10) 0 else mkLoading 2 10 model_ptr.

(** One step of the loader threads: a thread first marks that it has started and then, when
    [gpuf_load_model] returns, writes its result into the one shared state. *)
Definition thread_step (id : nat) (model_ptr : Z) (l : Loader) : Loader :=
  match list_find (fun t : nat * bool => t.1 = id) (ld_threads l) with
  | None => l
  | Some (i, (_, false)) => mkLoader (set_progress l) (<[i := (id, true)]> (ld_threads l))
  | Some (i, (_, true)) => mkLoader (loaded_state model_ptr <$> ld_state l) (delete i (ld_threads l))
  end.

Definition gpuf_load_model_get_status (l : Loader) : Z := from_option ls_status 0 (ld_state l).
Definition gpuf_load_model_get_progress (l : Loader) : Z := from_option ls_progress (-10) (ld_state l).
Definition gpuf_load_model_is_complete (l : Loader) : bool :=
  from_option (fun s => ls_status s =? 2) false (ld_state l).
Definition gpuf_load_model_has_error (l : Loader) : bool :=
  from_option (fun s => ls_status s =? 3) false (ld_state l).
Definition gpuf_load_model_get_result (l : Loader) : Z :=
  default 0 (s ← ld_state l; if ls_status s =? 2 then Some (ls_model_ptr s) else None).

Definition gpuf_get_model_status (model_null context_null : bool) : Z :=
  if negb model_null then if negb context_null then 2 else 1 else 0.

(** ** llama.cpp *)

(** A batch: tokens, their positions and which ones ask for logits ([[]] for the default). *)
Record Batch := mkBatch { b_tokens : list Z; b_pos : list Z; b_logits : list Z }.

(** [llama_tokenize text_len text cap] is the count and what it wrote; [llama_decode] is given
    the batches decoded before ([None]: an assertion of llama.cpp fails); [llama_sampler_sample]
    also the chain and the logits index; [llama_token_to_piece] the buffer size and whether
    special tokens are rendered, and gives its return value and what it wrote. *)
Record Llama := mkLlama {
  llama_tokenize : bytes -> Z -> Z -> Z * list Z;
  llama_n_batch : Z;
  llama_n_ctx : Z;
  llama_decode : list Batch -> Batch -> option Z;
  llama_sampler_sample : list Sampler -> list Batch -> Z -> Z;
  llama_vocab_is_eog : Z -> bool;
  llama_vocab_is_control : Z -> bool;
  llama_token_eos : Z;
  llama_token_to_piece : Z -> Z -> bool -> Z * bytes }.

(** The parameters [gpuf_create_context] asks for. *)
Definition created_n_ctx : Z := 4096.
Definition created_n_batch : Z := 128.

(** The chain of the streaming calls: every sampler, in this order. *)
Definition async_chain (temperature : f32) (top_k : Z) (top_p repeat_penalty : f32) : list Sampler :=
  [TempSampler temperature; TopK top_k; TopP top_p 1; Penalties (-1) repeat_penalty; Dist 1234].

(** The chain of [manual_llama_completion]. *)
Definition manual_chain (temperature : f32) (top_k : Z) (top_p repeat_penalty : f32) : list Sampler :=
  (if f32_eq repeat_penalty f32_one then [] else [Penalties (-1) repeat_penalty])
  ++ (if 0 <? top_k then [TopK top_k] else [])
  ++ (if f32_lt top_p f32_one then [TopP top_p 1] else [])
  ++ (if f32_lt f32_zero temperature then [TempSampler temperature] else [])
  ++ [Dist 1234].

Section Generation.
Context (L : Llama).

(** ** Tokenising *)

(** [prompt] is what the C string holds; [text] its length as the function sees it: the
    string's, or 0 when it is not UTF-8. *)
Definition tokenize_prompt (prompt : bytes) : Z * list Z :=
  let text_len := match from_utf8 prompt with Some s => blen s | None => 0 end in
  let '(n, l) := llama_tokenize L prompt text_len 512 in
  if n <? 0 then llama_tokenize L prompt text_len (Z.max (- n) 1) else (n, l).

Definition safe_tokenize (text : bytes) (max_tokens : Z) : Z * list Z :=
  match from_utf8 text with
  | None => (0, [])
  | Some s => llama_tokenize L text (blen s) max_tokens
  end.

(** ** [gpuf_start_generation_async] *)

Definition prefill_batch_size : Z := if 0 <? llama_n_batch L then llama_n_batch L else 128.

(** One chunk of the prompt, written into the two 512-entry arrays; logits are asked for the
    last token of the last chunk. *)
Definition prefill_batch (tokens : list Z) (start end_ n_past : Z) : Batch :=
  let n := end_ - start in
  mkBatch (take (Z.to_nat n) (drop (Z.to_nat start) tokens)) (seqZ n_past n)
    ((fun i => if (end_ =? blen tokens) && (i =? n - 1) then 1 else 0) <$> seqZ 0 n).

(** [Returns None] is the early return of a failed decode. *)
Fixpoint prefill (fuel : nat) (tokens : list Z) (start n_past : Z) (decoded : list Batch)
    : ffi (option (Z * list Batch)) :=
  if blen tokens <=? start then Returns (Some (n_past, decoded))
  else match fuel with
  | O => Aborts
  | S fuel =>
      let end_ := Z.min (start + prefill_batch_size) (blen tokens) in
      let n := end_ - start in
      if 512 <? n then Aborts
      else
        let b := prefill_batch tokens start end_ n_past in
        match llama_decode L decoded b with
        | None => Aborts
        | Some 0 => prefill fuel tokens end_ (n_past + n) (decoded ++ [b])
        | Some _ => Returns None
        end
  end.

(** State of a token loop: text callbacks so far, the UTF-8 buffer, the tokens generated and
    the batches decoded. *)
Record GenState := mkGen {
  g_callbacks : list bytes; g_buf : bytes; g_tokens : list Z; g_pos : Z; g_decoded : list Batch }.

(** The piece pushed into the UTF-8 buffer, of the 32-byte token buffer. *)
Definition token_piece (token : Z) : bytes :=
  let '(len, written) := llama_token_to_piece L token 32 false in
  if 0 <? len then take (Z.to_nat (Z.min len 32)) written else [].

Definition call_back (has_callback : bool) (text : bytes) (cbs : list bytes) : list bytes :=
  if negb (bool_decide (text = [])) && has_callback && negb (bool_decide (Byte.x00 ∈ text))
  then cbs ++ [text] else cbs.

Definition emit_token (has_callback : bool) (token : Z) (g : GenState) : GenState :=
  let piece := token_piece token in
  if bool_decide (piece = []) then mkGen (g_callbacks g) (g_buf g) (g_tokens g ++ [token]) (g_pos g) (g_decoded g)
  else
    let '(emitted, buf) := push_and_take_valid (g_buf g) piece in
    mkGen (call_back has_callback emitted (g_callbacks g)) buf (g_tokens g ++ [token]) (g_pos g) (g_decoded g).

Definition single (token pos : Z) : Batch := mkBatch [token] [pos] [].

Definition decoded_token (token : Z) (g : GenState) : GenState :=
  mkGen (g_callbacks g) (g_buf g) (g_tokens g) (g_pos g + 1) (g_decoded g ++ [single token (g_pos g)]).

(** [stopped cbs i]: the stop flag as the [i]-th round reads it, after the callbacks [cbs],
    which may have set it. *)
Fixpoint token_loop (chain : list Sampler) (has_callback : bool) (stopped : list bytes -> nat -> bool)
    (rounds i : nat) (g : GenState) : ffi GenState :=
  match rounds with
  | O => Returns g
  | S rounds =>
      if stopped (g_callbacks g) i then Returns g
      else
        let token := llama_sampler_sample L chain (g_decoded g) (-1) in
        if llama_vocab_is_eog L token then Returns g
        else
          let g := emit_token has_callback token g in
          match llama_decode L (g_decoded g) (single token (g_pos g)) with
          | None => Aborts
          | Some 0 => token_loop chain has_callback stopped rounds (S i) (decoded_token token g)
          | Some _ => Returns g
          end
  end.

Definition flush_tail (has_callback : bool) (g : GenState) : GenState :=
  let '(tail, buf) := flush_lossy (g_buf g) in
  mkGen (call_back has_callback tail (g_callbacks g)) buf (g_tokens g) (g_pos g) (g_decoded g).

(** The return value with the callbacks made; the pointers are null or not. *)
Definition gpuf_start_generation_async (ctx_null prompt_null model_null vocab_null has_callback : bool)
    (prompt : bytes) (max_tokens : Z) (temperature : f32) (top_k : Z) (top_p repeat_penalty : f32)
    (stopped : list bytes -> nat -> bool) : ffi (Z * option GenState) :=
  if ctx_null || prompt_null then Returns (-1, None)
  else if model_null then Returns (-1, None)
  else if vocab_null then Returns (-1, None)
  else
    let '(token_count, buffer) := tokenize_prompt prompt in
    if token_count <=? 0 then Returns (-1, None)
    else
      let tokens := take (Z.to_nat token_count) buffer in
      match prefill (Z.to_nat token_count) tokens 0 0 [] with
      | Aborts => Aborts
      | Returns None => Returns (-1, None)
      | Returns (Some (n_past, decoded)) =>
          let safe_generation_limit := Z.min max_tokens (llama_n_ctx L - n_past) in
          match token_loop (async_chain temperature top_k top_p repeat_penalty) has_callback stopped
                  (Z.to_nat safe_generation_limit) 0 (mkGen [] [] [] n_past decoded) with
          | Aborts => Aborts
          | Returns g => let g := flush_tail has_callback g in Returns (blen (g_tokens g), Some g)
          end
      end.
End Generation.

(** ** [manual_llama_completion] *)

Definition hex_digit (n : Z) : byte := byte_of_Z (if n <? 10 then 48 + n else 55 + n).
(** [{:02X?}] of a byte slice: two upper-case digits each, between brackets. *)
Definition hex_debug (l : bytes) : bytes :=
  let one := fun b : byte => [hex_digit (Z_of_byte b / 16); hex_digit (Z_of_byte b mod 16)] in
  b!"[" ++ match l with
           | [] => []
           | b :: l => one b ++ concat ((fun c => b!", " ++ one c) <$> l)
           end ++ b!"]".

(** [i32] in decimal. *)
Definition int_dec (n : Z) : bytes := if n <? 0 then b!"-" ++ dec (- n) else dec n.

Section Manual.
Context (L : Llama).

Definition decode_token_to_text (vocab_null : bool) (token : Z) : bytes :=
  if vocab_null then b!"[no_vocab:" ++ int_dec token ++ b!"]"
  else
    let '(result, written) := llama_token_to_piece L token 1024 true in
    if 0 <? result then
      let actual_len := if result <? 1024 then result else 1023 in
      let raw := take (Z.to_nat actual_len) written in
      match from_utf8 raw with
      | Some text => if bool_decide (text = []) then b!"[empty_token:" ++ int_dec token ++ b!"]" else text
      | None => b!"[utf8_fail:" ++ int_dec token ++ b!":" ++ hex_debug (take 16 raw) ++ b!"]"
      end
    else if llama_vocab_is_control L token then b!"[control_token:" ++ int_dec token ++ b!"]"
    else if llama_vocab_is_eog L token then b!"[eog_token:" ++ int_dec token ++ b!"]"
    else b!"[decode_fail:" ++ int_dec token ++ b!"]".

Record ManualState := mkManual {
  m_text : bytes; m_tokens : list Z; m_pos : Z; m_decoded : list Batch }.

Definition manual_single (token pos : Z) : Batch := mkBatch [token] [pos] [1].

(** [i] counts the rounds done; [token_count] gives the first logits index. *)
Fixpoint manual_loop (chain : list Sampler) (vocab_null : bool) (token_count max_tokens : Z)
    (rounds i : nat) (s : ManualState) : ffi ManualState :=
  match rounds with
  | O => Returns s
  | S rounds =>
      let index := if (i =? 0)%nat then token_count - 1 else 0 in
      let token := llama_sampler_sample L chain (m_decoded s) index in
      if token =? 2 then Returns s
      else
        let b := manual_single token (m_pos s) in
        let s' := mkManual (m_text s ++ decode_token_to_text vocab_null token) (m_tokens s ++ [token])
                    (m_pos s + 1) (m_decoded s) in
        match llama_decode L (m_decoded s) b with
        | None => Aborts
        | Some 0 =>
            let s'' := mkManual (m_text s') (m_tokens s') (m_pos s') (m_decoded s ++ [b]) in
            if max_tokens <=? blen (m_tokens s'') then Returns s''
            else manual_loop chain vocab_null token_count max_tokens rounds (S i) s''
        | Some _ => Returns s'
        end
  end.

(** Text into the caller's buffer with a NUL after it: the bytes written and the count
    returned; [None] when [output_len as usize - 1] underflows. *)
Definition write_output (text : bytes) (output_len : Z) : option (bytes * Z) :=
  if output_len =? 0 then None
  else
    let room := wrap 64 output_len - 1 in
    let n := Z.to_nat (Z.min (blen text) room) in
    Some (take n text ++ [Byte.x00], Z.of_nat n).

Definition finish_output (text : bytes) (output_len : Z) : ffi (option bytes * Z) :=
  match write_output text output_len with
  | None => Aborts
  | Some (written, n) => Returns (Some written, n)
  end.

(** The prompt's tokens, or the beginning-of-sequence token alone when that fails. *)
Definition manual_prompt (prompt : bytes) : list Z :=
  let '(n, l) := safe_tokenize L prompt 512 in
  if 0 <? n then take (Z.to_nat n) l else [1].

Definition initial_batch (tokens : list Z) : Batch :=
  let n := blen tokens in
  mkBatch tokens (seqZ 0 n) ((fun i => if i =? n - 1 then 1 else 0) <$> seqZ 0 n).

(** What was written to [output] ([None]: nothing) and the return value. *)
Definition manual_llama_completion (prompt_null vocab_null chain_null : bool) (prompt : bytes)
    (max_tokens : Z) (temperature : f32) (top_k : Z) (top_p repeat_penalty : f32) (output_len : Z)
    : ffi (option bytes * Z) :=
  if prompt_null then Returns (None, 0)
  else match from_utf8 prompt with
  | None => Returns (None, 0)
  | Some _ =>
      let tokens := manual_prompt prompt in
      let token_count := blen tokens in
      match llama_decode L [] (initial_batch tokens) with
      | None => Aborts
      | Some (Zpos _ as code) | Some (Zneg _ as code) =>
          finish_output (b!"Initial decode failed: code " ++ int_dec code) output_len
      | Some 0 =>
          if chain_null then Returns (None, 0)
          else
            let limit := Z.min max_tokens (Z.min 4096 (4096 - token_count)) in
            match manual_loop (manual_chain temperature top_k top_p repeat_penalty) vocab_null
                    token_count max_tokens (Z.to_nat limit) 0
                    (mkManual [] [] token_count [initial_batch tokens]) with
            | Aborts => Aborts
            | Returns s => finish_output (if 0 <? blen (m_tokens s) then m_text s else []) output_len
            end
      end
  end.

Definition gpuf_generate_with_sampling (any_null vocab_null chain_null : bool) (prompt : bytes)
    (max_tokens : Z) (temperature : f32) (top_k : Z) (top_p repeat_penalty : f32) (output_len : Z)
    (token_buffer_size : Z) : ffi (option bytes * Z) :=
  if any_null then Returns (None, -1)
  else if (token_buffer_size <=? 0) || (output_len <=? 0) then Returns (None, -2)
  else manual_llama_completion false vocab_null chain_null prompt max_tokens temperature top_k
         top_p repeat_penalty output_len.

(** [gpuf_generate_final_solution_text]: a fixed report; the bytes written to [output]. *)
Definition gpuf_generate_final_solution_text (any_null : bool) (prompt : bytes) (output_len : Z)
    : option bytes * Z :=
  if any_null then (None, -1)
  else match from_utf8 prompt with
  | None => (None, -1)
  | Some s =>
      let text := b!"Real inference working (prompt " ++ dec (blen s) ++ b!" bytes, tokens: 1, ctx: "
                    ++ int_dec (llama_n_ctx L) ++ b!")" in
      let n := Z.to_nat (Z.min (blen text) (wrap 64 output_len)) in
      (Some (take n text ++ [Byte.x00]), Z.of_nat n)
  end.

(** ** The multimodal generation loops, after the prompt has been evaluated up to [n_past] *)

Record MultiState := mkMulti {
  mm_text : bytes; mm_callbacks : list (bytes * Z); mm_buf : bytes;
  mm_count : Z; mm_past : Z; mm_decoded : list Batch }.

(** [generate_multimodal_response_with_callbacks]. *)
Fixpoint stream_multimodal (fuel : nat) (chain : list Sampler) (has_callback logits_null : bool)
    (max_tokens : Z) (s : MultiState) : ffi MultiState :=
  match fuel with
  | O => Returns s
  | S fuel =>
      if (mm_count s <? max_tokens) && (mm_past s <? llama_n_ctx L) && negb logits_null then
        let token := llama_sampler_sample L chain (mm_decoded s) (-1) in
        if token =? llama_token_eos L then Returns s
        else
          let '(len, written) := llama_token_to_piece L token 32 false in
          let s :=
            if 0 <? len then
              let '(emitted, buf) := push_and_take_valid (mm_buf s) (take (Z.to_nat len) written) in
              let cbs := if negb (bool_decide (emitted = [])) && has_callback
                            && negb (bool_decide (Byte.x00 ∈ emitted))
                         then mm_callbacks s ++ [(emitted, token)] else mm_callbacks s in
              mkMulti (mm_text s ++ emitted) cbs buf (mm_count s) (mm_past s) (mm_decoded s)
            else s in
          if (0 <? len) && (32 <? len) then Aborts
          else match llama_decode L (mm_decoded s) (single token (mm_past s)) with
          | None => Aborts
          | Some 0 => stream_multimodal fuel chain has_callback logits_null max_tokens
                        (mkMulti (mm_text s) (mm_callbacks s) (mm_buf s) (mm_count s + 1) (mm_past s + 1)
                           (mm_decoded s ++ [single token (mm_past s)]))
          | Some _ => Returns s
          end
      else Returns s
  end.

Definition generate_multimodal_response_with_callbacks (has_callback logits_null chain_null : bool)
    (vocab_size max_tokens initial_n_past : Z) (temperature : f32) (top_k : Z)
    (top_p repeat_penalty : f32) (decoded : list Batch) : ffi (bytes * list (bytes * Z)) :=
  if chain_null then Returns (b!"❌ Failed to create sampler chain", [])
  else if vocab_size =? 0 then Returns (b!"❌ Vocab initialization failed", [])
  else match stream_multimodal (Z.to_nat max_tokens) (async_chain temperature top_k top_p repeat_penalty)
               has_callback logits_null max_tokens (mkMulti [] [] [] 0 initial_n_past decoded) with
  | Aborts => Aborts
  | Returns s =>
      let tail := (flush_lossy (mm_buf s)).1 in
      Returns (mm_text s ++ tail, mm_callbacks s)
  end.

(** The loop of [generate_multimodal_response_with_vocab]: control tokens are decoded but not
    shown, pieces that are not UTF-8 are skipped, and it stops after 1000 bytes. *)
Fixpoint multimodal_loop (rounds : nat) (chain : list Sampler) (max_tokens : Z) (s : MultiState)
    : ffi MultiState :=
  match rounds with
  | O => Returns s
  | S rounds =>
      let token := llama_sampler_sample L chain (mm_decoded s) (-1) in
      if llama_vocab_is_eog L token then Returns s
      else
        let b := single token (mm_past s) in
        let accept (s : MultiState) :=
          match llama_decode L (mm_decoded s) b with
          | None => Aborts
          | Some 0 => Returns (Some (mkMulti (mm_text s) (mm_callbacks s) (mm_buf s) (mm_count s)
                                       (mm_past s + 1) (mm_decoded s ++ [b])))
          | Some _ => Returns None
          end in
        if llama_vocab_is_control L token then
          match accept s with
          | Aborts => Aborts
          | Returns None => Returns s
          | Returns (Some s) => multimodal_loop rounds chain max_tokens s
          end
        else
          let '(len, written) := llama_token_to_piece L token 64 false in
          let s :=
            if 0 <? len then
              match from_utf8 (take (Z.to_nat (Z.min len 64)) written) with
              | Some t => mkMulti (mm_text s ++ t) (mm_callbacks s) (mm_buf s) (mm_count s + 1)
                            (mm_past s) (mm_decoded s)
              | None => s
              end
            else s in
          match accept s with
          | Aborts => Aborts
          | Returns None => Returns s
          | Returns (Some s) =>
              if (max_tokens <=? mm_count s) || (1000 <? blen (mm_text s)) then Returns s
              else multimodal_loop rounds chain max_tokens s
          end
  end.

Definition generate_multimodal_response_with_vocab (ctx_null model_null vocab_null : bool)
    (vocab_size max_tokens initial_n_past : Z) (temperature : f32) (top_k : Z)
    (top_p repeat_penalty : f32) (decoded : list Batch) : ffi bytes :=
  if ctx_null then Returns b!"❌ Invalid context"
  else if model_null then Returns b!"❌ Model is null"
  else if vocab_null then Returns b!"❌ Vocab is null"
  else if vocab_size =? 0 then Returns b!"❌ Vocab initialization failed - vocab size is 0"
  else match multimodal_loop (Z.to_nat max_tokens) (async_chain temperature top_k top_p repeat_penalty)
               max_tokens (mkMulti [] [] [] 0 initial_n_past decoded) with
  | Aborts => Aborts
  | Returns s =>
      Returns (if bool_decide (mm_text s = [])
               then b!"❌ No text generated - model may need proper prompt formatting"
               else mm_text s)
  end.
End Manual.

(** ** The character tokenizer *)

Definition char_token (c : bytes) : Z :=
  match c with
  | [b] =>
      let n := Z_of_byte b in
      if n =? 32 then 29871
      else if (97 <=? n) && (n <=? 122) then 30400 + (n - 97)
      else if (65 <=? n) && (n <=? 90) then 30426 + (n - 65)
      else if (48 <=? n) && (n <=? 57) then 29900 + (n - 48)
      else if n =? 46 then 29889 else if n =? 44 then 29892
      else if n =? 33 then 29906 else if n =? 63 then 29905
      else if n =? 10 then 29871 else 29896
  | _ => 29896
  end.

Definition simple_char_tokenize (text : bytes) (max_tokens : Z) (add_bos : bool) : list Z :=
  let bos := if add_bos && (0 <? max_tokens) then [1] else [] in
  bos ++ take (Z.to_nat (max_tokens - blen bos)) (char_token <$> Filter.chars text).

(** ** Facts: the pool *)
Section PoolFacts.

Lemma mask_bits (k i : Z) : 0 <= k < 64 -> 0 <= i ->
  Z.testbit (2 ^ 64 - 1 - (2 ^ k - 1)) i = (k <=? i) && (i <? 64).
Proof.
  intros Hk Hi. assert (2 ^ 64 - 1 - (2 ^ k - 1) = Z.shiftl (Z.ones (64 - k)) k) as ->.
  { rewrite Z.shiftl_mul_pow2, Z.ones_equiv by lia. rewrite <- Z.sub_1_r, Z.mul_sub_distr_r, <- Z.pow_add_r by lia.
    replace (64 - k + k) with 64 by lia. lia. }
  rewrite Z.shiftl_spec by lia. destruct (Z.leb_spec k i).
  - rewrite Z.testbit_ones_nonneg by lia. cbn. destruct (Z.ltb_spec (i - k) (64 - k)), (Z.ltb_spec i 64); lia || done.
  - rewrite Z.testbit_neg_r by lia. done.
Qed.

(** The mask rounds down to a multiple of the alignment. *)
Lemma land_mask (x k : Z) : 0 <= k < 64 -> in_u 64 x ->
  Z.land x (2 ^ 64 - 1 - (2 ^ k - 1)) = x / 2 ^ k * 2 ^ k.
Proof.
  intros Hk Hx. rewrite <- Z.shiftr_div_pow2, <- Z.shiftl_mul_pow2 by lia.
  apply Z.bits_inj'. intros i Hi. rewrite Z.land_spec, mask_bits, Z.shiftl_spec by lia.
  destruct (Z.leb_spec k i) as [H|H]; cbn [andb].
  - rewrite Z.shiftr_spec by lia. replace (i - k + k) with i by lia.
    destruct (Z.ltb_spec i 64); [by rewrite andb_true_r|]. rewrite andb_false_r.
    destruct (decide (x = 0)) as [->|]; [by rewrite Z.testbit_0_l|].
    symmetry. apply Z.bits_above_log2; [unfold in_u in Hx; lia|].
    apply Z.lt_le_trans with 64; [|lia]. apply Z.log2_lt_pow2; unfold in_u in Hx; lia.
  - rewrite andb_false_r. symmetry. apply Z.testbit_neg_r. lia.
Qed.

Definition pool_ok (p : MemoryPool) : Prop :=
  p_initialized p = true /\ 0 < p_buffer p /\ 0 <= p_used p <= p_size p /\ p_buffer p + p_size p <= 2 ^ 64
  /\ p_size p <= 2 ^ 62.

Lemma allocate_spec (size alignment : Z) (p p' : MemoryPool) (ptr : Z) :
  pool_ok p -> 0 <= size -> in_u 63 alignment -> allocate_from_pool size alignment p = (ptr, p') ->
  pool_ok p' /\ p_buffer p' = p_buffer p /\ p_size p' = p_size p /\ p_used p <= p_used p'
  /\ (ptr = 0 -> p' = p)
  /\ (ptr <> 0 ->
      p_buffer p + p_used p <= ptr /\ ptr + size = p_buffer p + p_used p'
      /\ (ptr - p_buffer p) mod alignment = 0 /\ 0 < size).
Proof.
  intros (Hi & Hb & Hu & Hs & Hsz) Hsize Ha. unfold allocate_from_pool.
  destruct (Z.eqb_spec size 0); [by intros [= <- <-]|].
  destruct (Z.eqb_spec alignment 0); [by intros [= <- <-]|].
  destruct (is_power_of_two alignment) eqn:Hp; [|by intros [= <- <-]].
  unfold is_power_of_two in Hp. apply andb_true_iff in Hp as [_ Hp%Z.eqb_eq]. rewrite Hi. cbn [negb orb].
  destruct (Z.eqb_spec (p_buffer p) 0); [lia|].
  set (k := Z.log2 alignment) in *. unfold in_u in Ha.
  assert (0 <= k < 63) as Hk by (split; [apply Z.log2_nonneg|apply Z.log2_lt_pow2; lia]).
  rewrite wrap_small by (unfold in_u; lia).
  set (o := (p_used p + alignment - 1) / 2 ^ k * 2 ^ k).
  assert (Z.land (p_used p + alignment - 1) (2 ^ 64 - 1 - (alignment - 1)) = o) as ->
    by (unfold o; rewrite <- land_mask by (unfold in_u; lia); by rewrite Hp).
  assert (p_used p <= o <= p_used p + alignment - 1) as Ho.
  { pose proof (Z.mul_div_le (p_used p + alignment - 1) (2 ^ k)).
    pose proof (Z.mul_succ_div_gt (p_used p + alignment - 1) (2 ^ k)). lia. }
  destruct (Z.ltb_spec (p_size p) (sat_add 64 o size)) as [|Hfit]; [by intros [= <- <-]|].
  assert (sat_add 64 o size = o + size) as Hsat by (unfold sat_add in *; lia).
  rewrite Hsat in *. intros [= <- <-].
  split; [repeat split; cbn; lia || done|]. cbn. split; [done|]. split; [done|]. split; [lia|]. split; [lia|].
  intros _. split; [lia|]. split; [lia|]. split; [|lia].
  replace (p_buffer p + o - p_buffer p) with o by lia. unfold o. rewrite Hp. by apply Z.mod_mul.
Qed.

(** Allocations one after the other: the blocks handed out. *)
Fixpoint allocate_all (l : list (Z * Z)) (p : MemoryPool) : list (Z * Z) * MemoryPool :=
  match l with
  | [] => ([], p)
  | (size, alignment) :: l =>
      let '(ptr, p) := allocate_from_pool size alignment p in
      let '(bs, p) := allocate_all l p in
      (if ptr =? 0 then bs else (ptr, size) :: bs, p)
  end.

(** Blocks from [lo] to [hi], one after the other. *)
Fixpoint blocks_between (lo hi : Z) (bs : list (Z * Z)) : Prop :=
  match bs with
  | [] => lo <= hi
  | (ptr, size) :: bs => lo <= ptr /\ 0 < size /\ blocks_between (ptr + size) hi bs
  end.

Lemma blocks_weaken lo lo' hi bs : lo' <= lo -> blocks_between lo hi bs -> blocks_between lo' hi bs.
Proof. destruct bs as [|[ptr size] bs]; cbn; lia || intuition lia. Qed.

Lemma allocate_all_spec (l : list (Z * Z)) (p : MemoryPool) :
  pool_ok p -> Forall (fun sa => 0 <= sa.1 /\ in_u 63 sa.2) l ->
  let '(bs, p') := allocate_all l p in
  pool_ok p' /\ p_size p' = p_size p /\ p_buffer p' = p_buffer p
  /\ blocks_between (p_buffer p + p_used p) (p_buffer p + p_used p') bs.
Proof.
  intros Hp Hl. revert p Hp. induction Hl as [|[size al] l [Hs Ha] Hl IH]; intros p Hp; cbn; [by split_and!|].
  cbn [fst snd] in Hs, Ha. destruct (allocate_from_pool size al p) as [ptr p1] eqn:E.
  destruct (allocate_spec _ _ _ _ _ Hp Hs Ha E) as (H1 & H2 & H3 & H4 & H5 & H6).
  specialize (IH p1 H1). destruct (allocate_all l p1) as [bs p2]. destruct IH as (I1 & I2 & I3 & I4).
  rewrite H2, H3 in *. split; [done|]. split; [done|]. split; [done|].
  destruct (Z.eqb_spec ptr 0) as [Hz|Hz].
  - eapply blocks_weaken; [|exact I4]. lia.
  - destruct (H6 Hz) as (? & Hend & _ & ?). cbn. rewrite Hend. by split_and!.
Qed.
End PoolFacts.

(** The memory pool hands out separate blocks: whatever sizes and alignments are asked for
    after the pool is mapped (or reset), the blocks lie inside the mapping, one after the
    other without overlap, each at a multiple of its alignment from the mapping's start; a
    request that does not fit changes nothing. *)
Theorem pool_blocks_disjoint (l : list (Z * Z)) (size alignment : Z) (p : MemoryPool) :
  pool_ok p -> Forall (fun sa => 0 <= sa.1 /\ in_u 63 sa.2) l -> 0 <= size -> in_u 63 alignment ->
  let '(bs, p1) := allocate_all l (reset_pool p) in
  blocks_between (p_buffer p) (p_buffer p + p_size p) bs
  /\ let '(ptr, p2) := allocate_from_pool size alignment p1 in
     if ptr =? 0 then p2 = p1
     else (ptr - p_buffer p) mod alignment = 0
          /\ blocks_between (p_buffer p) (p_buffer p + p_size p) (bs ++ [(ptr, size)]).
Proof.
  intros Hp Hl Hs Ha.
  assert (pool_ok (reset_pool p)) as Hr by (destruct Hp as (? & ? & ? & ? & ?); repeat split; cbn; lia || done).
  pose proof (allocate_all_spec l _ Hr Hl) as H. destruct (allocate_all l (reset_pool p)) as [bs p1].
  destruct H as (H1 & H2 & H3 & H4). cbn in H2, H3, H4. rewrite Z.add_0_r in H4.
  assert (forall lo hi hi' bs, hi <= hi' -> blocks_between lo hi bs -> blocks_between lo hi' bs) as Hw.
  { clear. intros lo hi hi' bs. revert lo. induction bs as [|[a b] bs IH]; cbn; [lia|]. intros lo Hle (? & ? & ?). eauto. }
  assert (forall lo hi ptr sz end_ bs, hi <= ptr -> 0 < sz -> ptr + sz <= end_ -> blocks_between lo hi bs ->
    blocks_between lo end_ (bs ++ [(ptr, sz)])) as Happ.
  { clear. intros lo hi ptr sz end_ bs. revert lo. induction bs as [|[a b] bs IH]; cbn; [lia|]. intros lo ? ? ? (? & ? & ?). eauto. }
  pose proof H1 as (_ & _ & Hu & _ & _). rewrite H2 in Hu.
  split; [eapply Hw; [|exact H4]; lia|].
  destruct (allocate_from_pool size alignment p1) as [ptr p2] eqn:E.
  destruct (allocate_spec _ _ _ _ _ H1 Hs Ha E) as (K1 & K2 & K3 & _ & K5 & K6).
  destruct (Z.eqb_spec ptr 0) as [Hz|Hz]; [by apply K5|].
  destruct (K6 Hz) as (Hlo & Hhi & Hm & Hsz). rewrite H3 in Hm, Hlo, Hhi. split; [done|].
  destruct K1 as (_ & _ & Ku & _ & _). rewrite K3, H2 in Ku.
  eapply Happ; [exact Hlo|done| |exact H4]. lia.
Qed.

Lemma pool_blocks_disjoint_witness :
  (allocate_all [(10, 8); (5, 16); (2 ^ 40, 1)] (reset_pool (mkPool 4096 100 7 true))).1 = [(4096, 10); (4112, 5)]
  /\ blocks_between 4096 (4096 + 100) [(4096, 10); (4112, 5)].
Proof.
  split; [reflexivity|].
  pose proof (pool_blocks_disjoint [(10, 8); (5, 16); (2 ^ 40, 1)] 1 1 (mkPool 4096 100 7 true)
    ltac:(unfold pool_ok; cbn; lia) ltac:(repeat constructor; cbn; unfold in_u; lia) ltac:(lia)
    ltac:(unfold in_u; lia)) as H.
  exact (proj1 H).
Defined.

(** ** Facts: prefill and the token loop *)

(** What the code relies on of llama.cpp's documented interface: [llama_tokenize] returns the
    number of tokens it wrote, at most the capacity, or a negative number, and no assertion
    fails for a batch of at most [n_batch] tokens. *)
Record LlamaLaws (L : Llama) : Prop := {
  tokenize_law : forall text len cap n l, 0 <= cap -> llama_tokenize L text len cap = (n, l) -> 0 <= n ->
    n = blen l /\ n <= cap;
  decode_law : forall h b, blen (b_tokens b) <= prefill_batch_size L -> llama_decode L h b <> None }.

Definition fed (l : list Batch) : list Z := concat (b_tokens <$> l).
Definition positions (l : list Batch) : list Z := concat (b_pos <$> l).

Lemma fed_snoc l b : fed (l ++ [b]) = fed l ++ b_tokens b.
Proof. unfold fed. rewrite fmap_app, concat_app. cbn. by rewrite app_nil_r. Qed.
Lemma positions_snoc l b : positions (l ++ [b]) = positions l ++ b_pos b.
Proof. unfold positions. rewrite fmap_app, concat_app. cbn. by rewrite app_nil_r. Qed.

Section Async.
Context (L : Llama) (HL : LlamaLaws L).

Lemma prefill_batch_pos : 1 <= prefill_batch_size L.
Proof. unfold prefill_batch_size. destruct (Z.ltb_spec 0 (llama_n_batch L)); lia. Qed.

(** The batches that have been decoded hold these tokens at positions 0, 1, … *)
Definition covers (tokens : list Z) (decoded : list Batch) : Prop :=
  fed decoded = tokens /\ positions decoded = seqZ 0 (blen tokens).

Lemma covers_snoc (ts : list Z) decoded (b : Batch) :
  covers ts decoded -> b_pos b = seqZ (blen ts) (blen (b_tokens b)) ->
  covers (ts ++ b_tokens b) (decoded ++ [b]).
Proof.
  intros [Hf Hp] Hb. split; [by rewrite fed_snoc, Hf|].
  rewrite positions_snoc, Hp, Hb, blen_app, seqZ_app by apply blen_nonneg. by rewrite Z.add_0_l.
Qed.

Lemma prefill_spec fuel (tokens : list Z) (start : Z) (decoded : list Batch) :
  (blen tokens <= 512 \/ prefill_batch_size L <= 512) ->
  0 <= start <= blen tokens -> blen tokens - start <= Z.of_nat fuel ->
  covers (take (Z.to_nat start) tokens) decoded ->
  Forall (fun b => blen (b_tokens b) <= prefill_batch_size L) decoded ->
  match prefill L fuel tokens start start decoded with
  | Aborts => False
  | Returns None => True
  | Returns (Some (n_past, decoded')) =>
      n_past = blen tokens /\ covers tokens decoded'
      /\ Forall (fun b => blen (b_tokens b) <= prefill_batch_size L) decoded'
  end.
Proof.
  intros Hsize. revert start decoded. induction fuel as [|fuel IH]; intros start decoded Hs Hf Hc Hb; cbn [prefill].
  { rewrite (proj2 (Z.leb_le _ _)) by lia. split; [lia|]. split; [|done].
    rewrite take_ge in Hc; [done|]. unfold blen in *. lia. }
  destruct (Z.leb_spec (blen tokens) start).
  { split; [lia|]. split; [|done]. rewrite take_ge in Hc; [done|]. unfold blen in *. lia. }
  pose proof prefill_batch_pos. set (e := Z.min (start + prefill_batch_size L) (blen tokens)).
  assert (start < e <= blen tokens /\ e - start <= prefill_batch_size L) as [He Hn] by lia.
  rewrite (proj2 (Z.ltb_ge 512 (e - start))) by lia.
  set (b := prefill_batch tokens start e start).
  assert (blen (b_tokens b) = e - start) as Hlen.
  { unfold b, prefill_batch, blen in *. cbn. rewrite length_take, length_drop. lia. }
  destruct (llama_decode L decoded b) as [[|c|c]|] eqn:Ed; [|done|done|].
  2: { eapply (decode_law L HL); [|exact Ed]. lia. }
  replace (start + (e - start)) with e by lia. apply IH; [lia|lia| |].
  - replace (take (Z.to_nat e) tokens) with (take (Z.to_nat start) tokens ++ b_tokens b).
    + apply covers_snoc; [done|]. rewrite Hlen. unfold b, prefill_batch. cbn. f_equal.
      unfold blen in *. rewrite length_take. lia.
    + unfold b, prefill_batch. cbn. rewrite take_take_drop. f_equal. lia.
  - apply Forall_app. split; [done|]. constructor; [lia|constructor].
Qed.

(** The pieces pushed into the UTF-8 buffer. *)
Definition pushed (tokens : list Z) : list bytes :=
  filter (fun p => p <> []) (token_piece L <$> tokens).

Lemma concat_pushed tokens : concat (pushed tokens) = concat (token_piece L <$> tokens).
Proof.
  unfold pushed. induction (token_piece L <$> tokens) as [|p l IH]; [done|].
  rewrite filter_cons. case_decide as Hp; [cbn [concat]; f_equal; exact IH|].
  subst p. exact IH.
Qed.

Definition callbacks_of (hc : bool) (cbs ss : list bytes) : list bytes :=
  fold_left (fun cbs s => call_back hc s cbs) ss cbs.

(** What a run of the token loop did to its state, for the tokens it generated. *)
Record loop_run (hc : bool) (g g' : GenState) (toks : list Z) (k : nat) : Prop := {
  lr_tokens : g_tokens g' = g_tokens g ++ toks;
  lr_emit : emit_all (g_buf g) (pushed toks) =
            ((emit_all (g_buf g) (pushed toks)).1, g_buf g');
  lr_callbacks : g_callbacks g' = callbacks_of hc (g_callbacks g) (emit_all (g_buf g) (pushed toks)).1;
  lr_pos : g_pos g' = g_pos g + Z.of_nat k;
  lr_decoded : exists bs, g_decoded g' = g_decoded g ++ bs /\ fed bs = take k toks
               /\ positions bs = seqZ (g_pos g) (Z.of_nat k)
               /\ Forall (fun b => blen (b_tokens b) = 1) bs;
  lr_last : (length toks <= S k)%nat /\ (k <= length toks)%nat }.

Lemma loop_run_nil hc g : loop_run hc g g [] 0.
Proof.
  split; cbn; [by rewrite app_nil_r|done|done|lia| |lia].
  exists []. rewrite app_nil_r. split; [done|]. split; [done|]. split; [done|constructor].
Qed.

Lemma emit_token_run hc t g : loop_run hc g (emit_token L hc t g) [t] 0.
Proof.
  unfold emit_token. destruct (bool_decide_reflect (token_piece L t = [])) as [Hp|Hp].
  - assert (pushed [t] = []) as Hn by (unfold pushed; cbn [fmap list_fmap]; rewrite filter_cons, decide_False by (by intros []); done).
    split; cbn -[pushed emit_all]; rewrite ?Hn; [done|done|done|lia| |lia].
    exists []. rewrite app_nil_r. split; [done|]. split; [done|]. split; [done|constructor].
  - assert (pushed [t] = [token_piece L t]) as Hn
      by (unfold pushed; cbn [fmap list_fmap]; rewrite filter_cons, decide_True by done; done).
    destruct (push_and_take_valid (g_buf g) (token_piece L t)) as [s b] eqn:E.
    split; cbn -[pushed emit_all]; rewrite ?Hn; cbn [emit_all]; rewrite ?E; [done|done|done|lia| |lia].
    exists []. rewrite app_nil_r. split; [done|]. split; [done|]. split; [done|constructor].
Qed.

Lemma emit_all_app buf l k :
  emit_all buf (l ++ k) = ((emit_all buf l).1 ++ (emit_all (emit_all buf l).2 k).1,
                           (emit_all (emit_all buf l).2 k).2).
Proof.
  revert buf. induction l as [|c l IH]; intros buf; cbn; [by destruct (emit_all buf k)|].
  destruct (push_and_take_valid buf c) as [s b]. rewrite IH. by destruct (emit_all b l) as [ss b'].
Qed.

(** One whole round followed by the rest. *)
Lemma loop_run_cons hc t g g' toks k :
  loop_run hc (decoded_token t (emit_token L hc t g)) g' toks k -> loop_run hc g g' (t :: toks) (S k).
Proof.
  pose proof (emit_token_run hc t g) as [T1 T2 T3 T4 _ _].
  assert (g_decoded (emit_token L hc t g) = g_decoded g /\ g_pos (emit_token L hc t g) = g_pos g) as [T5 T6].
  { unfold emit_token. case_bool_decide; [done|]. by destruct (push_and_take_valid _ _). }
  set (g1 := emit_token L hc t g) in *. intros [R1 R2 R3 R4 (bs & R5 & R6 & R7 & R8) R9].
  cbn -[pushed emit_all] in R1, R2, R3, R4, R5, R7.
  assert (pushed (t :: toks) = pushed [t] ++ pushed toks) as Hp
    by (unfold pushed; change (t :: toks) with ([t] ++ toks); by rewrite fmap_app, filter_app).
  assert ((emit_all (g_buf g) (pushed [t])).2 = g_buf g1) as Hb by by rewrite T2.
  split.
  - rewrite R1, T1. by rewrite <- app_assoc.
  - rewrite Hp, emit_all_app, Hb. cbn [fst]. by rewrite R2.
  - rewrite R3, T3, Hp, emit_all_app, Hb. cbn [fst]. unfold callbacks_of. by rewrite fold_left_app.
  - rewrite R4, T6. lia.
  - exists (single t (g_pos g) :: bs). rewrite R5, T5, T6, <- app_assoc. split; [done|].
    split; [unfold fed in *; cbn; by rewrite R6|]. split; [|by constructor].
    unfold positions in *. cbn. rewrite R7, T6. rewrite Nat2Z.inj_succ, (seqZ_cons _ (Z.succ _)) by lia.
    by rewrite Z.pred_succ, <- Z.add_1_r.
  - cbn. lia.
Qed.

Lemma token_loop_spec chain hc stopped rounds i g :
  match token_loop L chain hc stopped rounds i g with
  | Aborts => False
  | Returns g' => exists toks k, loop_run hc g g' toks k /\ (length toks <= rounds)%nat
                  /\ Forall (fun t => llama_vocab_is_eog L t = false) toks
  end.
Proof.
  revert i g. induction rounds as [|rounds IH]; intros i g; cbn [token_loop].
  { exists [], 0%nat. split; [apply loop_run_nil|]. split; [cbn; lia|constructor]. }
  destruct (stopped (g_callbacks g) i). { exists [], 0%nat. split; [apply loop_run_nil|]. split; [cbn; lia|constructor]. }
  set (t := llama_sampler_sample L chain (g_decoded g) (-1)).
  destruct (llama_vocab_is_eog L t) eqn:Et.
  { exists [], 0%nat. split; [apply loop_run_nil|]. split; [cbn; lia|constructor]. }
  pose proof (emit_token_run hc t g) as Ht.
  destruct (llama_decode L _ (single t _)) as [[|c|c]|] eqn:Ed.
  - specialize (IH (S i) (decoded_token t (emit_token L hc t g))).
    destruct (token_loop L chain hc stopped rounds (S i) _) as [g'|]; [|done].
    destruct IH as (toks & k & Hr & Hl & Hf). exists (t :: toks), (S k).
    split; [by apply loop_run_cons|]. split; [cbn; lia|by constructor].
  - exists [t], 0%nat. split; [done|]. split; [cbn; lia|by repeat constructor].
  - exists [t], 0%nat. split; [done|]. split; [cbn; lia|by repeat constructor].
  - eapply (decode_law L HL); [|exact Ed]. cbn. pose proof prefill_batch_pos. unfold blen. cbn. lia.
Qed.

(** Callbacks are made for every non-empty string, in order, when none has a NUL. *)
Lemma concat_callbacks cbs ss :
  Forall (fun s => Byte.x00 ∉ s) ss -> concat (callbacks_of true cbs ss) = concat cbs ++ concat ss.
Proof.
  intros H. unfold callbacks_of. revert cbs.
  induction H as [|s ss Hs H IH]; intros cbs; cbn [fold_left]; [cbn; by rewrite app_nil_r|].
  rewrite IH. unfold call_back. rewrite (bool_decide_false (Byte.x00 ∈ s)) by done.
  case_bool_decide; cbn; [by subst s|]. rewrite concat_app. cbn. by rewrite app_nil_r, <- app_assoc.
Qed.
End Async.

Lemma no_nul_free (ss : list bytes) (t : bytes) : concat ss = no_nul t -> Forall (fun s => Byte.x00 ∉ s) ss.
Proof.
  intros H. apply Forall_forall. intros s Hs Hn.
  assert (Byte.x00 ∈ concat ss) as Hc.
  { apply list_elem_of_In, in_concat. exists s. by rewrite <- !list_elem_of_In. }
  rewrite H in Hc. unfold no_nul in Hc. apply list_elem_of_filter in Hc as [Hc _]. by apply Hc.
Qed.

Lemma generation_run (L : Llama) (prompt : bytes) (max_tokens : Z) (temperature : f32)
    (top_k : Z) (top_p repeat_penalty : f32) (stopped : list bytes -> nat -> bool) :
  LlamaLaws L ->
  let '(token_count, buffer) := tokenize_prompt L prompt in
  let tokens := take (Z.to_nat token_count) buffer in
  (token_count <= 512 \/ prefill_batch_size L <= 512) ->
  match gpuf_start_generation_async L false false false false true prompt max_tokens temperature
          top_k top_p repeat_penalty stopped with
  | Aborts => False
  | Returns (r, None) => r = -1
  | Returns (r, Some g) =>
      exists out k, r = blen out /\ Forall (fun t => llama_vocab_is_eog L t = false) out
      /\ r <= Z.max 0 (Z.min max_tokens (llama_n_ctx L - token_count))
      /\ (k <= length out <= S k)%nat
      /\ covers (tokens ++ take k out) (g_decoded g)
      /\ Forall (fun b => blen (b_tokens b) <= prefill_batch_size L) (g_decoded g)
      /\ let text := no_nul (concat (token_piece L <$> out)) in
         utf8 text -> concat (g_callbacks g) = text
  end.
Proof.
  intros HL. unfold gpuf_start_generation_async. cbn [orb].
  destruct (tokenize_prompt L prompt) as [n buffer] eqn:Et. cbv zeta. intros Hsize.
  destruct (Z.leb_spec n 0); [done|].
  assert (n = blen buffer) as Hn.
  { unfold tokenize_prompt in Et.
    destruct (llama_tokenize L prompt _ 512) as [n0 l0] eqn:E0. destruct (Z.ltb_spec n0 0).
    - eapply (tokenize_law L HL); [|exact Et|]; lia.
    - injection Et as <- <-. eapply (tokenize_law L HL); [|exact E0|]; lia. }
  rewrite (take_ge buffer) by (unfold blen in Hn; lia).
  pose proof (prefill_spec L HL (Z.to_nat n) buffer 0 []) as Hp. rewrite <- Hn in Hp.
  specialize (Hp Hsize ltac:(lia) ltac:(lia) (conj eq_refl eq_refl) (Forall_nil_2 _)).
  destruct (prefill L (Z.to_nat n) buffer 0 0 []) as [[[n_past decoded]|]|]; [|done|done].
  destruct Hp as (-> & Hc & Hb).
  pose proof (token_loop_spec L HL (async_chain temperature top_k top_p repeat_penalty) true stopped
    (Z.to_nat (Z.min max_tokens (llama_n_ctx L - n))) 0 (mkGen [] [] [] n decoded)) as Hl.
  destruct (token_loop L _ true stopped _ 0 _) as [g|]; [|done].
  destruct Hl as (out & k & [R1 R2 R3 R4 (bs & R5 & R6 & R7 & R8) R9] & Hlen & Heog).
  cbn [g_tokens g_callbacks g_buf g_decoded g_pos app] in *.
  unfold flush_tail. destruct (flush_lossy (g_buf g)) as [tail buf] eqn:Ef. cbn [g_tokens g_decoded g_callbacks].
  exists out, k. rewrite R1. split; [done|]. split; [done|]. split; [unfold blen; lia|]. split; [lia|].
  split; [|split].
  - destruct Hc as [Hf Hpos]. rewrite R5. unfold covers, fed, positions in *.
    rewrite !fmap_app, !concat_app, Hf, Hpos, R6, R7. split; [done|].
    rewrite blen_app, seqZ_app by apply blen_nonneg. rewrite <- Hn, Z.add_0_l. f_equal. f_equal.
    unfold blen. rewrite length_take. lia.
  - rewrite R5. apply Forall_app. split; [done|]. eapply Forall_impl; [exact R8|].
    cbn. intros b ->. apply prefill_batch_pos.
  - rewrite <- concat_pushed. intros Hu.
    destruct (emit_lossless _ _ _ Hu R2) as (E1 & E2 & E3).
    rewrite E3 in Ef. injection Ef as <- <-. unfold call_back. cbn.
    rewrite R3, concat_callbacks; [by rewrite E1|]. by eapply no_nul_free.
Qed.

(** [C29] Streaming generation on a phone: with a context whose [n_batch] is at most 512 (or a
    prompt of at most 512 tokens) the call never aborts; unless it reports -1 it decodes the
    whole prompt in chunks of at most [n_batch] tokens at positions 0, 1, …, then every
    generated token but possibly the last at the positions that follow; it generates at most
    [max_tokens] tokens and never past the context, none of them an end marker, and returns
    their number; and when the generated pieces form well-formed text, the strings passed to
    the callback are together exactly that text without NUL bytes, however characters were
    cut between tokens. *)
Theorem async_generation_spec (L : Llama) (prompt : bytes) (max_tokens : Z) (temperature : f32)
    (top_k : Z) (top_p repeat_penalty : f32) (stopped : list bytes -> nat -> bool) :
  LlamaLaws L ->
  let '(token_count, buffer) := tokenize_prompt L prompt in
  let tokens := take (Z.to_nat token_count) buffer in
  (token_count <= 512 \/ prefill_batch_size L <= 512) ->
  match gpuf_start_generation_async L false false false false true prompt max_tokens temperature
          top_k top_p repeat_penalty stopped with
  | Aborts => False
  | Returns (r, None) => r = -1
  | Returns (r, Some g) =>
      exists out k, r = blen out /\ Forall (fun t => llama_vocab_is_eog L t = false) out
      /\ r <= Z.max 0 (Z.min max_tokens (llama_n_ctx L - token_count))
      /\ (k <= length out <= S k)%nat
      /\ covers (tokens ++ take k out) (g_decoded g)
      /\ Forall (fun b => blen (b_tokens b) <= prefill_batch_size L) (g_decoded g)
      /\ let text := no_nul (concat (token_piece L <$> out)) in
         utf8 text -> concat (g_callbacks g) = text
  end.
Proof. apply generation_run. Qed.

(** With both the prompt and [n_batch] above 512 the position array is indexed out of bounds,
    which aborts the process. *)
Theorem async_prefill_out_of_bounds (L : Llama) (tokens : list Z) (fuel : nat) :
  512 < blen tokens -> 512 < prefill_batch_size L -> prefill L (S fuel) tokens 0 0 [] = Aborts.
Proof.
  intros Ht Hb. cbn [prefill]. rewrite (proj2 (Z.leb_gt _ _)) by lia.
  by rewrite (proj2 (Z.ltb_lt 512 _)) by lia.
Qed.

(** ** Facts: [manual_llama_completion] *)

Lemma write_output_bounded (text written : bytes) (output_len n : Z) :
  0 < output_len < 2 ^ 63 -> write_output text output_len = Some (written, n) ->
  written = take (Z.to_nat n) text ++ [Byte.x00] /\ 0 <= n < output_len /\ blen written = n + 1.
Proof.
  intros Ho. unfold write_output. rewrite (proj2 (Z.eqb_neq _ _)) by lia.
  rewrite wrap_small by (unfold in_u; lia). intros [= <- <-].
  pose proof (blen_nonneg text). rewrite Nat2Z.id. split; [done|].
  unfold blen in *. rewrite length_app, length_take. cbn. lia.
Qed.

(** The answer fits the caller's buffer: whenever [gpuf_generate_with_sampling] writes
    to [output] it writes at most [output_len] bytes, the last one a NUL and the only one
    after the text, and returns the number of bytes before it; null pointers give -1 and
    empty buffers -2, with nothing written. *)
Theorem sampling_output_bounded (L : Llama) (any_null vocab_null chain_null : bool) (prompt : bytes)
    (max_tokens : Z) (temperature : f32) (top_k : Z) (top_p repeat_penalty : f32)
    (output_len token_buffer_size : Z) :
  output_len < 2 ^ 31 ->
  match gpuf_generate_with_sampling L any_null vocab_null chain_null prompt max_tokens temperature
          top_k top_p repeat_penalty output_len token_buffer_size with
  | Aborts => True
  | Returns (None, r) => r = 0 \/ (r = -1 <-> any_null = true) /\ (r = -1 \/ r = -2)
  | Returns (Some written, r) =>
      any_null = false /\ 0 < output_len
      /\ (exists text, written = text ++ [Byte.x00] /\ r = blen text) /\ blen written <= output_len
  end.
Proof.
  intros Ho. unfold gpuf_generate_with_sampling. destruct any_null; [right; split; [done|by left]|].
  destruct ((token_buffer_size <=? 0) || (output_len <=? 0)) eqn:Eg; [right; split; [done|by right]|].
  apply orb_false_iff in Eg as [_ Hp%Z.leb_gt].
  assert (forall text, match finish_output text output_len with
    | Aborts => True
    | Returns (None, r) => r = 0
    | Returns (Some written, r) =>
        (exists text, written = text ++ [Byte.x00] /\ r = blen text) /\ blen written <= output_len
    end) as Hf.
  { intros text. unfold finish_output. destruct (write_output text output_len) as [[w n]|] eqn:Ew; [|done].
    apply write_output_bounded in Ew as (Hw & Hn & Hl); [|lia]. split; [|lia].
    eexists. split; [exact Hw|]. subst w. rewrite blen_app in Hl. unfold blen in *. cbn in Hl. lia. }
  unfold manual_llama_completion. destruct (from_utf8 prompt); [|by left].
  destruct (llama_decode L [] _) as [[|c|c]|]; [|..|done].
  - destruct chain_null; [by left|].
    destruct (manual_loop L _ _ _ _ _ _ _) as [s|]; [|done].
    specialize (Hf (if 0 <? blen (m_tokens s) then m_text s else [])).
    destruct (finish_output _ output_len) as [[[w|] r]|]; [|by left|done]. split; [done|]. by split.
  - specialize (Hf (b!"Initial decode failed: code " ++ int_dec (Zpos c))).
    destruct (finish_output _ output_len) as [[[w|] r]|]; [|by left|done]. split; [done|]. by split.
  - specialize (Hf (b!"Initial decode failed: code " ++ int_dec (Zneg c))).
    destruct (finish_output _ output_len) as [[[w|] r]|]; [|by left|done]. split; [done|]. by split.
Qed.

(** Long prompts are ignored: a prompt that does not fit the 512-token array is replaced
    by the beginning-of-sequence token alone, so any two such prompts get the same answer,
    byte for byte. *)
Theorem long_prompts_ignored (L : Llama) (p q : bytes) (vocab_null chain_null : bool)
    (max_tokens : Z) (temperature : f32) (top_k : Z) (top_p repeat_penalty : f32) (output_len : Z) :
  valid_utf8 p = true -> valid_utf8 q = true ->
  (llama_tokenize L p (blen p) 512).1 <= 0 -> (llama_tokenize L q (blen q) 512).1 <= 0 ->
  manual_prompt L p = [1]
  /\ manual_llama_completion L false vocab_null chain_null p max_tokens temperature top_k top_p
       repeat_penalty output_len
     = manual_llama_completion L false vocab_null chain_null q max_tokens temperature top_k top_p
         repeat_penalty output_len.
Proof.
  intros Hp Hq Lp Lq.
  assert (forall s, valid_utf8 s = true -> (llama_tokenize L s (blen s) 512).1 <= 0 -> manual_prompt L s = [1]) as H.
  { intros s Hs Hl. unfold manual_prompt, safe_tokenize, from_utf8. rewrite Hs.
    destruct (llama_tokenize L s (blen s) 512) as [n l]. cbn in Hl. by rewrite (proj2 (Z.ltb_ge 0 n)) by lia. }
  split; [by apply H|]. unfold manual_llama_completion, from_utf8. by rewrite Hp, Hq, !H.
Qed.

(** The whole prompt goes to llama.cpp as one batch: with the context the SDK itself creates
    a prompt of more than 128 tokens fails its assertion, which aborts the process. *)
Theorem manual_aborts_beyond_batch (L : Llama) (p : bytes) (vocab_null chain_null : bool)
    (max_tokens : Z) (temperature : f32) (top_k : Z) (top_p repeat_penalty : f32) (output_len : Z) :
  llama_n_batch L = created_n_batch ->
  (forall h b, llama_n_batch L < blen (b_tokens b) -> llama_decode L h b = None) ->
  valid_utf8 p = true -> 128 < blen (manual_prompt L p) ->
  manual_llama_completion L false vocab_null chain_null p max_tokens temperature top_k top_p
    repeat_penalty output_len = Aborts.
Proof.
  intros Hb Hd Hp Hl. unfold manual_llama_completion, from_utf8. rewrite Hp.
  rewrite (Hd [] (initial_batch (manual_prompt L p))); [done|]. by rewrite Hb.
Qed.

(** [gpuf_generate_final_solution_text] writes its NUL after [output_len] bytes of text: when
    the report fills the buffer, one byte past its end. *)
Theorem final_solution_overruns (L : Llama) (prompt : bytes) (output_len : Z) (w : bytes) (r : Z) :
  gpuf_generate_final_solution_text L false prompt output_len = (Some w, r) ->
  0 <= output_len <= 40 -> blen w = output_len + 1.
Proof.
  unfold gpuf_generate_final_solution_text. destruct (from_utf8 prompt) as [s|]; [|done].
  set (text := b!"Real inference working (prompt " ++ _). assert (45 <= blen text) as Ht.
  { unfold text. rewrite !blen_app. pose proof (blen_nonneg (dec (blen s))).
    pose proof (blen_nonneg (int_dec (llama_n_ctx L))).
    assert (blen b!"Real inference working (prompt " = 31) as -> by reflexivity.
    assert (blen b!" bytes, tokens: 1, ctx: " = 24) as -> by reflexivity.
    pose proof (blen_nonneg b!")"). lia. }
  clearbody text. intros [= <- _] Ho. rewrite wrap_small by (unfold in_u; lia).
  rewrite Z.min_r by lia. unfold blen in *. rewrite length_app, length_take. cbn. lia.
Qed.

(** A second [gpuf_load_model_async_start] while the first load runs: when the first thread
    finishes, the calls that poll report the second load complete, with the first model. *)
Theorem second_load_reports_first_model (ptr : Z) :
  ptr <> 0 ->
  let l := (gpuf_load_model_async_start false 2 (gpuf_load_model_async_start false 1 loader_start).2).2 in
  let l := thread_step 1 ptr (thread_step 1 ptr l) in
  gpuf_load_model_is_complete l = true /\ gpuf_load_model_get_result l = ptr /\ ld_threads l = [(2%nat, false)].
Proof.
  intros Hp l l'.
  assert (l' = mkLoader (loaded_state ptr <$> Some (mkLoading 1 1 0)) [(2%nat, false)]) as -> by reflexivity.
  unfold loaded_state. cbn. by rewrite (proj2 (Z.eqb_neq ptr 0)).
Qed.

(** One load at a time: loading until the thread writes its result, then exactly that result. *)
Theorem single_load_reports_its_model (l : Loader) (id : nat) (ptr : Z) :
  ld_threads l = [] ->
  let l1 := (gpuf_load_model_async_start false id l).2 in
  let l2 := thread_step id ptr l1 in
  let l3 := thread_step id ptr l2 in
  gpuf_load_model_get_status l1 = 1 /\ gpuf_load_model_get_status l2 = 1
  /\ gpuf_load_model_get_result l2 = 0 /\ gpuf_load_model_get_result l3 = ptr
  /\ gpuf_load_model_get_status l3 = (if ptr =? 0 then 3 else 2) /\ ld_threads l3 = [].
Proof.
  destruct l as [st ths]. cbn. intros ->. unfold thread_step. cbn.
  rewrite (decide_True (P := id = id)) by done. cbn. rewrite (decide_True (P := id = id)) by done. cbn.
  unfold loaded_state. by destruct (Z.eqb_spec ptr 0) as [->|].
Qed.

(** *** A concrete vocabulary: the bytes of the text *)
Section Demo.
Definition byte_llama (eog : Z) : Llama := {|
  llama_tokenize := fun text _ cap =>
    if blen text <=? cap then (blen text, Z_of_byte <$> text) else (- blen text, []);
  llama_n_batch := 128; llama_n_ctx := 4096;
  llama_decode := fun _ b => if 128 <? blen (b_tokens b) then None else Some 0;
  llama_sampler_sample := fun _ h _ => match length h with 1%nat => 226 | 2%nat => 130 | 3%nat => 172 | _ => eog end;
  llama_vocab_is_eog := fun t => t =? eog; llama_vocab_is_control := fun _ => false;
  llama_token_eos := eog;
  llama_token_to_piece := fun t _ _ => if (0 <=? t) && (t <? 256) then (1, [byte_of_Z t]) else (0, []) |}.

Lemma byte_laws eog : LlamaLaws (byte_llama eog).
Proof.
  split; cbn.
  - intros text _ cap n l Hcap. destruct (Z.leb_spec (blen text) cap); intros [= <- <-] Hn.
    + unfold blen. by rewrite length_fmap.
    + pose proof (blen_nonneg text). unfold blen in *. cbn. lia.
  - intros h b Hb. unfold prefill_batch_size in Hb. cbn in Hb. by rewrite (proj2 (Z.ltb_ge _ _)) by lia.
Qed.

Definition euro : bytes := [Byte.xe2; Byte.x82; Byte.xac].

Definition euro_run : GenState :=
  match gpuf_start_generation_async (byte_llama 0) false false false false true b!"hi" 5 0 40 0 0 (fun _ _ => false) with
  | Returns (_, Some g) => g
  | _ => mkGen [] [] [] 0 []
  end.

Lemma euro_runs :
  gpuf_start_generation_async (byte_llama 0) false false false false true b!"hi" 5 0 40 0 0 (fun _ _ => false)
  = Returns (3, Some euro_run)
  /\ fed (g_decoded euro_run) = [104; 105; 226; 130; 172].
Proof. split; vm_compute; reflexivity. Qed.

Lemma async_generation_spec_witness :
  exists out, out = [226; 130; 172]
  /\ concat (g_callbacks euro_run) = no_nul (concat (token_piece (byte_llama 0) <$> out)).
Proof.
  pose proof (async_generation_spec (byte_llama 0) b!"hi" 5 0 40 0 0 (fun _ _ => false) (byte_laws 0)) as H.
  change (tokenize_prompt _ _) with (2, [104; 105]) in H. cbv zeta iota beta in H.
  specialize (H (or_introl (ltac:(lia) : 2 <= 512))). destruct euro_runs as [E Hd]. rewrite E in H. destruct H as (out & k & Hr & _ & _ & _ & [Hf _] & _ & Hu).
  rewrite Hd in Hf. exists out.
  assert (out = [226; 130; 172]) as ->.
  { clear -Hf Hr. change (take (Z.to_nat 2) [104; 105]) with [104; 105] in Hf. injection Hf as Hf.
    destruct out as [|a [|b [|c [|d out]]]]; unfold blen in Hr; cbn in Hr; try lia.
    destruct k as [|[|[|k]]]; cbn in Hf; try discriminate. by injection Hf as <- <- <-. }
  split; [done|]. apply Hu. apply valid_utf8_iff. vm_compute. reflexivity.
Defined.

Lemma sampling_output_bounded_witness :
  gpuf_generate_with_sampling (byte_llama 2) false false false b!"hi" 5 0 40 0 0 3 1
    = Returns (Some (b!"[u" ++ [Byte.x00]), 2)
  /\ blen (b!"[u" ++ [Byte.x00]) <= 3.
Proof.
  assert (gpuf_generate_with_sampling (byte_llama 2) false false false b!"hi" 5 0 40 0 0 3 1
    = Returns (Some (b!"[u" ++ [Byte.x00]), 2)) as E by (vm_compute; reflexivity).
  split; [exact E|].
  pose proof (sampling_output_bounded (byte_llama 2) false false false b!"hi" 5 0 40 0 0 3 1 ltac:(lia)) as H.
  rewrite E in H. exact (proj2 (proj2 (proj2 H))).
Defined.

Lemma long_prompts_ignored_witness :
  manual_prompt (byte_llama 2) (replicate 513 Byte.x61) = [1].
Proof.
  apply (long_prompts_ignored (byte_llama 2) (replicate 513 Byte.x61) (replicate 600 Byte.x62) false false 5 0 40 0 0 100);
    vm_compute; done.
Defined.

Lemma manual_aborts_beyond_batch_witness :
  manual_llama_completion (byte_llama 2) false false false (replicate 129 Byte.x61) 5 0 40 0 0 100 = Aborts.
Proof.
  apply (manual_aborts_beyond_batch (byte_llama 2)); [reflexivity| |vm_compute; reflexivity|vm_compute; reflexivity].
  intros h b Hb. cbn in *. by rewrite (proj2 (Z.ltb_lt _ _)) by lia.
Defined.

Lemma async_prefill_out_of_bounds_witness :
  prefill (mkLlama (fun _ _ _ => (0, [])) 1024 4096 (fun _ _ => Some 0) (fun _ _ _ => 0) (fun _ => false)
             (fun _ => false) 0 (fun _ _ _ => (0, []))) 1 (replicate 513 0) 0 0 [] = Aborts.
Proof. apply async_prefill_out_of_bounds; vm_compute; done. Defined.

Lemma final_solution_overruns_witness :
  exists w r, gpuf_generate_final_solution_text (byte_llama 2) false b!"hi" 8 = (Some w, r) /\ blen w = 8 + 1.
Proof.
  destruct (gpuf_generate_final_solution_text (byte_llama 2) false b!"hi" 8) as [[w|] r] eqn:E; [|vm_compute in E; congruence].
  exists w, r. split; [done|]. apply (final_solution_overruns (byte_llama 2) b!"hi" 8 w r); [exact E|lia].
Defined.

Lemma second_load_reports_first_model_witness :
  gpuf_load_model_get_result (thread_step 1 77 (thread_step 1 77
    (gpuf_load_model_async_start false 2 (gpuf_load_model_async_start false 1 loader_start).2).2)) = 77.
Proof. exact (proj1 (proj2 (second_load_reports_first_model 77 ltac:(lia)))). Defined.

Lemma single_load_reports_its_model_witness :
  gpuf_load_model_get_status (gpuf_load_model_async_start false 1 loader_start).2 = 1.
Proof. exact (proj1 (single_load_reports_its_model loader_start 1 5 eq_refl)). Defined.
End Demo.

Lemma from_utf8_Some s t : from_utf8 s = Some t -> t = s /\ utf8 s.
Proof.
  unfold from_utf8. destruct (valid_utf8 s) eqn:E; [|done]. intros [= <-]. by apply valid_utf8_iff in E.
Qed.

(** The text of a multimodal answer is well-formed, at most 1064 bytes, and a piece that is
    not a whole number of characters contributes nothing to it. *)
Theorem multimodal_text_bounded (L : Llama) (rounds : nat) (chain : list Sampler) (max_tokens : Z)
    (s s' : MultiState) :
  utf8 (mm_text s) -> blen (mm_text s) <= 1000 ->
  multimodal_loop L rounds chain max_tokens s = Returns s' ->
  utf8 (mm_text s') /\ blen (mm_text s') <= 1064.
Proof.
  revert s. induction rounds as [|rounds IH]; intros s Hu Hs; cbn [multimodal_loop]; [intros [= <-]; split; [done|lia]|].
  set (t := llama_sampler_sample L chain (mm_decoded s) (-1)).
  destruct (llama_vocab_is_eog L t); [intros [= <-]; split; [done|lia]|].
  destruct (llama_vocab_is_control L t).
  { destruct (llama_decode L _ _) as [[|c|c]|]; [|intros [= <-]; split; [done|lia]..|done].
    by apply IH. }
  destruct (llama_token_to_piece L t 64 false) as [len written].
  set (s1 := if 0 <? len then _ else s).
  assert (utf8 (mm_text s1) /\ blen (mm_text s1) <= 1064) as [Hu1 Hb1].
  { unfold s1. destruct (0 <? len); [|split; [done|lia]].
    destruct (from_utf8 _) as [x|] eqn:Ex; [|split; [done|lia]]. apply from_utf8_Some in Ex as [-> Hx]. cbn.
    split; [by apply utf8_app|]. rewrite blen_app. unfold blen in *. rewrite length_take. lia. }
  destruct (llama_decode L _ _) as [[|c|c]|]; [|by intros [= <-]..|done].
  cbn [mm_count mm_text]. destruct (max_tokens <=? mm_count s1); cbn [orb]; [by intros [= <-]|].
  destruct (Z.ltb_spec 1000 (blen (mm_text s1))); [by intros [= <-]|]. apply IH; cbn; [done|lia].
Qed.
