(* ===== verification/Worker.v ===== *)
(** * The device worker ([gpuf-c/src/handle/handle_tcp.rs], [handle/mod.rs], [main.rs])

    [ClientWorker]: the engine a worker starts with and the process-wide engine cache behind
    reconnections, the login, the model and heartbeat reports, and [handler], the loop that
    reads the server's commands: pulling a pod's model, answering inference tasks,
    cancellation, and the two peer-to-peer commands. What outlives a connection ([Machine])
    is separate from the state of one connection ([ClientWorker]); the spawned tasks are
    listed, and those with a protocol of their own are modelled in [DeviceStream],
    [PeerServe], [Relay] and [Stun]. Builds for Linux and Windows; the Android build's
    variants are left out. *)

From S2P Require Import Prelude Wire Text Output Ids Stun LlamaServer Downloader LlamaEngine Generate Scheduler Streams DeviceStream.
From Stdlib Require Import ZArith Lia String.
From Stdlib Require Import Strings.Byte.
From stdpp Require Import base list gmap.

Local Open Scope Z_scope.

(** ** State *)

Record Args := mkArgs {
  a_client_id : bytes; a_engine_type : EngineType;
  llama_model_path : option bytes; a_auto_models : bool;
  a_n_ctx : Z; a_n_batch : Z; a_n_gpu_layers : Z;
  a_split_mode : LlamaSplitMode; a_main_gpu : Z; a_devices : option bytes;
  p2p_bind_addr : bytes; p2p_udp_port : Z; p2p_public_listen : bool;
  p2p_advertise_ip : option bytes; stream_chunk_bytes : Z }.

Record P2PConnectionRuntimeConfig := mkRuntimeConfig {
  rc_turn_urls : list bytes; rc_turn_username : bytes; rc_turn_password : bytes;
  rc_data_plane_secret : bytes }.

(** Tasks a worker spawns. *)
Inductive Spawn :=
  | SpawnProxy (proxy_conn_id : bytes)
  | SpawnModelTask | SpawnHeartbeatTask
  | SpawnUdp (connection_id secret : bytes) (port : Z)
  | SpawnTurnUdp (connection_id secret turn_url : bytes)
  | SpawnDirect (connection_id secret addr : bytes)
  | SpawnTurnStream (connection_id secret : bytes).

Section Worker.
Context {M : Type}.

Inductive AnyEngine := EngineVLLM | EngineOllama | EngineLlama (e : LlamaEngine M).

(** What the process keeps between connections: the disk, what the clones of the engine share
    (with [MODEL_STATUS]), [GLOBAL_ENGINE], the engine the local HTTP server was started
    with, and the UDP ports that its sockets hold. *)
Record Machine := mkMachine {
  disk : Downloader.World; shared : Shared; global_engine : option (LlamaEngine M);
  http_engine : option (LlamaEngine M); udp_ports : list Z }.

Record ClientWorker := mkWorker {
  args : Args; engine : option AnyEngine; cancelled : gset bytes;
  p2p_turn_config : gmap bytes P2PConnectionRuntimeConfig;
  sent : list Command; spawned : list Spawn }.

Definition WState : Type := Machine * ClientWorker.

Definition set_disk d (m : Machine) := mkMachine d (shared m) (global_engine m) (http_engine m) (udp_ports m).
Definition set_shared s (m : Machine) := mkMachine (disk m) s (global_engine m) (http_engine m) (udp_ports m).
Definition set_ports p (m : Machine) := mkMachine (disk m) (shared m) (global_engine m) (http_engine m) p.
Definition set_engine e (w : ClientWorker) := mkWorker (args w) e (cancelled w) (p2p_turn_config w) (sent w) (spawned w).
Definition set_cancelled c (w : ClientWorker) := mkWorker (args w) (engine w) c (p2p_turn_config w) (sent w) (spawned w).
Definition set_config c (w : ClientWorker) := mkWorker (args w) (engine w) (cancelled w) c (sent w) (spawned w).
Definition set_sent l (w : ClientWorker) := mkWorker (args w) (engine w) (cancelled w) (p2p_turn_config w) l (spawned w).
Definition add_spawn t (w : ClientWorker) :=
  mkWorker (args w) (engine w) (cancelled w) (p2p_turn_config w) (sent w) (spawned w ++ [t]).

(** ** The monad of the handler: [Fail] is an [Err], which ends the handler unless caught *)

Definition W (A : Type) : Type := WState -> outcome A * WState.
Definition wret {A} (a : A) : W A := fun s => (Ret a, s).
Definition wfail {A} (e : bytes) : W A := fun s => (Fail e, s).
Definition wbind {A B} (m : W A) (k : A -> W B) : W B := fun s =>
  match m s with
  | (Ret a, s) => k a s
  | (Fail e, s) => (Fail e, s)
  | (Panic, s) => (Panic, s)
  | (Hang, s) => (Hang, s)
  end.
Notation "'do!' x := m 'in' k" := (wbind m (fun x => k))
  (at level 10, x pattern, m at level 100, k at level 200).
Definition wlift {A} (r : result A) : W A := match r with Ok a => wret a | Err e => wfail e end.
Definition wget : W WState := fun s => (Ret s, s).
Definition on_machine (f : Machine -> Machine) : W () := fun s => (Ret (), (f s.1, s.2)).
Definition on_worker (f : ClientWorker -> ClientWorker) : W () := fun s => (Ret (), (s.1, f s.2)).
Definition on_model_status (f : ModelStatusInfo -> ModelStatusInfo) : W () :=
  on_machine (fun m => set_shared (on_status f (shared m)) m).

(** [if let Err(e) = m { … }]: the error, if there is one. *)
Definition catch (m : W ()) : W (option bytes) := fun s =>
  match m s with
  | (Ret _, s) => (Ret None, s)
  | (Fail e, s) => (Ret (Some e), s)
  | (Panic, s) => (Panic, s)
  | (Hang, s) => (Hang, s)
  end.

(** ** Starting a worker: the engine of [ClientWorker::new] *)

Definition fs_env (env : EngineEnv M) (fs : gmap bytes bytes) : EngineEnv M :=
  mkEngineEnv (fun p => fs !! p) (is_dir env) (real_path env) (nvswitch_ok env) (backend_ok env)
    (parse_model env) (devices_ok env).

(** The status of a configured local model. *)
Definition mark_local_model (path : bytes) (s : ModelStatusInfo) : ModelStatusInfo :=
  mkStatus (Some path) b!"Loaded" true (error_message s).

Definition first_engine (a : Args) (models_dir : bytes) : LlamaEngine M :=
  match llama_model_path a with
  | Some p => with_config p (a_n_ctx a) (a_n_batch a) (a_n_gpu_layers a) (a_split_mode a)
                (a_main_gpu a) (a_devices a) models_dir
  | None => with_runtime_config (a_n_ctx a) (a_n_batch a) (a_n_gpu_layers a) (a_split_mode a)
              (a_main_gpu a) (a_devices a) models_dir
  end.

(** The first start: create the engine, [init] it and start its worker; errors are logged. *)
Definition first_start (env : EngineEnv M) (a : Args) (models_dir : bytes) (m : Machine)
    : LlamaEngine M * Machine :=
  let env := fs_env env (files (disk m)) in
  let '(r, (e, s)) := init env (first_engine a models_dir, shared m) in
  match r with
  | Err _ => (e, set_shared s m)
  | Ok _ =>
      let s := match llama_model_path a with
               | Some p => on_status (mark_local_model p) s
               | None => s
               end in
      let '(_, (e, s)) := start_worker env (e, s) in
      (e, set_shared s m)
  end.

Definition start_llama (env : EngineEnv M) (a : Args) (models_dir : bytes) (m : Machine)
    : LlamaEngine M * Machine :=
  let '(e, m) :=
    match global_engine m with
    | Some existing =>
        let s := match llama_model_path a with
                 | Some p => if bool_decide (current_model (model_status (shared m)) = None)
                             then on_status (mark_local_model p) (shared m) else shared m
                 | None => shared m
                 end in
        (existing, set_shared s m)
    | None =>
        let '(e, m) := first_start env a models_dir m in
        (e, mkMachine (disk m) (shared m) (Some e) (http_engine m) (udp_ports m))
    end in
  match http_engine m with
  | Some _ => (e, m)
  | None => (e, mkMachine (disk m) (shared m) (global_engine m) (Some e) (udp_ports m))
  end.

(** A worker whose control connection has just been opened. *)
Definition ClientWorker_new (env : EngineEnv M) (a : Args) (models_dir : bytes) (m : Machine) : WState :=
  match a_engine_type a with
  | Llama =>
      let '(e, m) := start_llama env a models_dir m in
      (m, mkWorker a (Some (EngineLlama e)) ∅ ∅ [] [])
  | Vllm => (m, mkWorker a (Some EngineVLLM) ∅ ∅ [] [])
  | _ => (m, mkWorker a None ∅ ∅ [] [])
  end.

(** ** Surroundings of one command *)

(** [w_fails n]: whether the [n]-th write on the control connection fails. [w_downloads i]: the
    surroundings of the [i]-th download attempt. [w_connect]: a TCP connection within three
    seconds. The two TLS connections of a TURN fallback and its transaction ids follow. *)
Record WEnv := mkWEnv {
  w_fails : nat -> bool;
  w_engine : EngineEnv M;
  w_models_root : bytes;
  w_create_models_dir : result ();
  w_downloads : nat -> Downloader.Env;
  w_set_other : result ();
  w_pull_ollama : bytes -> result ();
  w_chat_template : option bytes;
  w_bind : result Z;
  w_released : list Z;
  w_outbound_ip : result bytes;
  w_resolve : bytes -> Z -> result SocketAddr;
  w_stun_reply : result bytes;
  w_connect : bytes -> result ();
  w_tls_allocate : bytes -> Z -> result bytes;
  w_tls_bind : bytes -> Z -> result bytes;
  w_txid : nat -> bytes }.

Context (cpp : M -> LlamaCpp) (apply_template : M -> list ChatMessage -> option bytes).
Context (sha256_hex : bytes -> bytes) (percentage : Z -> Z -> f32).
Context `{SC : StunCrypto} (url_parse : bytes -> result (bytes * option bytes * option Z)).
(** [SocketAddr]'s textual form. *)
Context (parse_addr : bytes -> option SocketAddr) (print_addr : SocketAddr -> bytes).

Definition send_command (env : WEnv) (c : Command) : W () := fun s =>
  if w_fails env (length (sent s.2)) then (Fail b!"broken pipe", s)
  else (Ret (), (s.1, set_sent (sent s.2 ++ [c]) s.2)).

Fixpoint send_all (env : WEnv) (l : list Command) : W () :=
  match l with
  | [] => wret ()
  | c :: l => do! _ := send_command env c in send_all env l
  end.

(** ** Login and the periodic reports *)

Definition login_command (a : Args) (os : OsType) (i : SystemInfo) (mem tflops : Z) (ds : list DevicesInfo)
    (version : Z) : Command :=
  V1 (Login (a_client_id a) version os (bool_decide (llama_model_path a = None)) i mem tflops ds).

(** One round of [model_task]; [engine_models] is what Ollama reports. *)
Definition model_report (engine_models : result (list Model)) (ds : list DevicesInfo) (s : WState) : Command :=
  let a := args s.2 in
  let models :=
    match a_engine_type a with
    | Ollama => match engine_models with Ok l => l | Err _ => [] end
    | Llama =>
        match current_model (model_status (shared s.1)) with
        | Some p => [mkModel (ModelId.derive_model_id_from_path p) b!"model" 0 b!"gpuf-c"]
        | None => []
        end
    | _ => []
    end in
  V1 (ModelStatus (a_client_id a) models
        (if a_auto_models a && bool_decide (llama_model_path a = None) then ds else [])).

(** One round of [heartbeat_task]: nothing when the system cannot be read, the default device
    when the devices cannot. *)
Definition heartbeat_report (a : Args) (system : result SystemInfo) (device : result DevicesInfo)
    : option Command :=
  match system with
  | Err _ => None
  | Ok i =>
      let d := match device with Ok d => d | Err _ => DevicesInfo_default end in
      Some (V1 (Heartbeat (a_client_id a) i (wrap 16 (num d)) (wrap 32 (memtotal_gb d))
                  (wrap 32 (total_tflops d)) [d]))
  end.

(** ** Pulling a model *)

Definition send_download_progress (env : WEnv) (name : bytes) (downloaded total : Z) (pct : f32)
    (speed : Z) (status : DownloadStatus) (error : option bytes) : W () := fun s =>
  send_command env (V1 (ModelDownloadProgress (a_client_id (args s.2)) name downloaded total pct
                          speed status error)) s.

(** [engine.set_models] on the worker's own clone. *)
Definition engine_set_models (env : WEnv) (path : bytes) : W (option (result ())) := fun s =>
  match engine s.2 with
  | None => (Ret None, s)
  | Some (EngineLlama e) =>
      let '(r, (e, sh)) := set_models (fs_env (w_engine env) (files (disk s.1))) [path] (e, shared s.1) in
      (Ret (Some r), (set_shared sh s.1, set_engine (Some (EngineLlama e)) s.2))
  | Some _ => (Ret (Some (w_set_other env)), s)
  end.

Definition load_into_engine (env : WEnv) (path : bytes) : W () :=
  do! _ := on_model_status (fun _ => mkStatus (Some path) b!"Loading into engine" false None) in
  do! r := engine_set_models env path in
  match r with
  | None => wret ()
  | Some (Ok _) =>
      on_model_status (fun s => mkStatus (current_model s) b!"Loaded" true (error_message s))
  | Some (Err e) =>
      on_model_status (fun s => mkStatus (current_model s) (b!"Load failed: " ++ e) (is_loaded s) (Some e))
  end.

(** Total length of the files directly in a directory. *)
Definition dir_size (dir : bytes) (fs : gmap bytes bytes) : Z :=
  map_fold (fun p c acc =>
    match Prelude.strip_prefix (dir ++ [slash]) p with
    | Some rest => if bool_decide (rest = []) || bool_decide (slash ∈ rest) then acc
                   else sat_add 64 acc (blen c)
    | None => acc
    end) 0 fs.

Definition pct_full : f32 := 0x42c80000.
Definition MAX_RETRIES : nat := 10.

Definition download_once (denv : Downloader.Env) (cfg : DownloadConfig) : W () := fun s =>
  let '(o, d) := download sha256_hex denv cfg (disk s.1) in (o, (set_disk d s.1, s.2)).

(** The attempts that are left, and the last error. *)
Fixpoint download_with_retry (env : WEnv) (cfg : DownloadConfig) (left_ i : nat) (last_error : option bytes)
    : W (result ()) :=
  match left_ with
  | O => wret (Err (default b!"Download failed after 10 retries" last_error))
  | S left_ =>
      do! r := catch (download_once (w_downloads env i) cfg) in
      match r with
      | None => wret (Ok ())
      | Some e => download_with_retry env cfg left_ (S i) (Some e)
      end
  end.

Definition deal_with_pod_model (env : WEnv) (pod : PodModel) : W () :=
  match pm_model_name pod with
  | None => wret ()
  | Some name =>
  match pm_download_url pod with
  | None => wret ()
  | Some url =>
  do! ck := wlift (ok_or (pm_checksum pod) (b!"Model " ++ name ++ b!" is missing required SHA256 checksum")) in
  do! _ := wlift (w_create_models_dir env) in
  let path := LlamaEngine.join (w_models_root env) name in
  let path_str := from_utf8_lossy path in
  do! s := wget in
  let status := model_status (shared s.1) in
  if bool_decide (current_model status = Some path_str) && is_loaded status then wret ()
  else
    let existing := files (disk s.1) !! path in
    let complete := match existing with
                    | None => false
                    | Some c => match pm_expected_size pod with Some n => blen c =? n | None => true end
                    end in
    if complete then load_into_engine env path_str
    else
      let on_disk := from_option blen 0 existing in
      let already_downloaded :=
        if on_disk =? 0 then dir_size (path ++ b!".parts") (files (disk s.1)) else on_disk in
      let expected := default 0 (pm_expected_size pod) in
      do! _ := if 0 <? already_downloaded then
                 send_download_progress env name already_downloaded expected
                   (if 0 <? expected then percentage already_downloaded expected else 0) 0 Downloading None
               else wret () in
      do! r := download_with_retry env (download_model_config path ck) MAX_RETRIES 0 None in
      match r with
      | Ok _ =>
          do! _ := send_download_progress env name expected expected pct_full 0 Completed None in
          load_into_engine env path_str
      | Err e =>
          do! _ := send_download_progress env name 0 expected 0 0 Failed (Some e) in
          wfail e
      end
  end end.

(** The other engines: only Ollama pulls models. *)
Definition deal_with_model (env : WEnv) (engine_type : EngineType) (name : bytes) : result () :=
  match engine_type with Ollama => w_pull_ollama env name | _ => Ok () end.

(** The models of a login or pull answer, one after the other; errors are logged. *)
Definition deal_with_pod (env : WEnv) (engine_type : EngineType) (pod : PodModel) : W () :=
  do! _ := (if bool_decide (engine_type = Llama) then catch (deal_with_pod_model env pod)
            else match pm_model_name pod with
                 | Some name => catch (wlift (deal_with_model env engine_type name))
                 | None => wret None
                 end) in
  wret ().

Fixpoint deal_with_pods (env : WEnv) (engine_type : EngineType) (pods : list PodModel) : W () :=
  match pods with
  | [] => wret ()
  | pod :: pods => do! _ := deal_with_pod env engine_type pod in deal_with_pods env engine_type pods
  end.

Definition pull_models (env : WEnv) (pods : list PodModel) : W () := fun s =>
  let a := args s.2 in
  if bool_decide (llama_model_path a = None) && a_auto_models a
  then deal_with_pods env (a_engine_type a) pods s
  else wret () s.

(** ** Inference *)

Definition signed32 (n : Z) : Z := if n <? 2 ^ 31 then n else n - 2 ^ 32.

Definition task_sampling (p : Sampling) : SamplingParams :=
  mkParams (temperature p) (signed32 (top_k p)) (top_p p) (repeat_penalty p) (repeat_last_n p) 0
    (min_keep p) None.

(** What the streaming loop sees: the loop checks the cancelled set before each piece, and
    nothing can add to the set while the handler waits for the loop. *)
Definition stream_inputs (c : gset bytes) (task_id : bytes) (pieces : list bytes) : list Input :=
  if bool_decide (task_id ∈ c) then [Cancelled] else Piece <$> pieces.

(** The chunks are computed by the loop of [DeviceStream] and written one by one; a write that
    fails ends the loop there. *)
Definition stream_task (env : WEnv) (task_id prompt : bytes) (params : Sampling) : W () := fun s =>
  match engine s.2 with
  | None => wfail b!"Engine not initialized" s
  | Some (EngineLlama e) =>
      match cached_model e with
      | None => wfail b!"Model not loaded - call load_model() first" s
      | Some m =>
          (do! tokens := wlift (str_to_token (cpp m) prompt) in
           do! stream := wlift (stream_with_cached_model_sampling cpp e prompt (max_tokens params)
                                  (task_sampling params) always_open) in
           do! chunks := wlift (stream_inference_task_to_server task_id
                                  (Z.min (blen tokens) (2 ^ 32 - 1)) (stream_chunk_bytes (args s.2))
                                  (fun _ => false) (stream_inputs (cancelled s.2) task_id stream.1)) in
           do! _ := send_all env (V1 <$> chunks) in
           on_worker (fun w => set_cancelled (cancelled w ∖ {[task_id]}) w)) s
      end
  | Some _ => wfail b!"stream_inference_task_to_server is only supported for LLAMA engine" s
  end.

Definition failed_chunk (task_id e : bytes) : Command :=
  V1 (InferenceResultChunk task_id 0 [] Unknown true (Some e) 0 0 0 0).

Definition inference_task (env : WEnv) (task_id prompt : bytes) (params : Sampling) : W () :=
  do! r := catch (stream_task env task_id prompt params) in
  match r with
  | Some e => send_command env (failed_chunk task_id e)
  | None => wret ()
  end.

Definition newline : byte := Byte.x0a.
Definition simple_role (r : bytes) : bytes :=
  if bool_decide (r = b!"user") then b!"Human"
  else if bool_decide (r = b!"assistant") then b!"Assistant" else b!"System".

Definition build_chat_prompt_fallback (chat_template : option bytes) (messages : list ChatMessage) : bytes :=
  let template := to_ascii_lowercase (default b!"simple" chat_template) in
  if bool_decide (template = b!"chatml") then
    concat ((fun m => role m ++ [newline] ++ content m ++ [newline]) <$> messages)
    ++ [newline] ++ b!"assistant" ++ [newline]
  else if bool_decide (template = b!"llama3") then
    b!"<|begin_of_text|>"
    ++ concat ((fun m => b!"<|start_header_id|>" ++ role m ++ [newline; newline] ++ content m
                           ++ [newline] ++ b!"<|eot_id|>") <$> messages)
    ++ b!"<|start_header_id|>assistant" ++ [newline; newline]
  else
    concat ((fun m => simple_role (role m) ++ b!": " ++ content m ++ [newline; newline]) <$> messages)
    ++ b!"Assistant: ".

(** The prompt of a chat task; an engine or model that is missing ends the handler. *)
Definition chat_prompt (env : WEnv) (messages : list ChatMessage) : W bytes := fun s =>
  match engine s.2 with
  | None => wfail b!"Engine not initialized" s
  | Some (EngineLlama e) =>
      match cached_model e with
      | None => wfail b!"Model not loaded - call load_model() first" s
      | Some m => wret (default (build_chat_prompt_fallback (w_chat_template env) messages)
                          (apply_template m messages)) s
      end
  | Some _ => wfail b!"ChatInferenceTask is only supported for LLAMA engine" s
  end.

(** ** Peer-to-peer *)

(** [str::trim_matches] with a set of characters. *)
Fixpoint trim_start_set (cs : list byte) (s : bytes) : bytes :=
  match s with
  | b :: s' => if bool_decide (b ∈ cs) then trim_start_set cs s' else s
  | [] => []
  end.
Definition trim_set (cs : list byte) (s : bytes) : bytes :=
  rev (trim_start_set cs (rev (trim_start_set cs s))).

Definition is_public_bind_addr (bind_addr : bytes) : bool :=
  default false
    ('(host, _) ← rsplit_once Byte.x3a bind_addr;
     loopback ← ip_is_loopback (trim_set [Byte.x5b; Byte.x5d] host);
     Some (negb loopback)).

Definition p2p_udp_bind_addr (a : Args) : bytes := p2p_bind_addr a ++ b!":" ++ dec (p2p_udp_port a).

(** [UdpSocket::bind] then [local_addr]: the port; one of this process's own sockets makes a
    fixed port unavailable, and [w_bind] is what the system says otherwise. *)
Definition udp_bind (env : WEnv) (port : Z) (held : list Z) : result Z :=
  if negb (port =? 0) && bool_decide (port ∈ held) then Err b!"Address already in use (os error 98)"
  else let? p := w_bind env in Ok (if port =? 0 then p else port).

(** Ports whose receiving task has ended since the last command. *)
Definition release_ports (env : WEnv) (m : Machine) : Machine :=
  set_ports (filter (fun p => p ∉ w_released env) (udp_ports m)) m.

Definition get_advertise_ip (env : WEnv) (a : Args) : result bytes :=
  match p2p_advertise_ip a with Some ip => Ok ip | None => w_outbound_ip env end.

Definition host_candidate (ip : bytes) (port : Z) : P2PCandidate :=
  mkP2PCandidate Host Udp (ip ++ b!":" ++ dec port) 200.

Definition srflx_candidate (env : WEnv) (stun_urls : list bytes) : list P2PCandidate :=
  match stun_urls with
  | [] => []
  | url :: _ =>
      match (stun_binding_srflx_on_socket (w_resolve env) url (w_txid env 0) (w_stun_reply env)).2 with
      | Ok addr => [mkP2PCandidate Srflx Udp (print_addr addr) 100]
      | Err _ => []
      end
  end.

Definition on_p2p_config (env : WEnv) (peer_id connection_id : bytes) (stun_urls turn_urls : list bytes)
    (turn_username turn_password secret : bytes) : W () := fun s =>
  let a := args s.2 in
  let bind_addr := p2p_udp_bind_addr a in
  (do! _ := on_worker (fun w => set_config
              (<[connection_id := mkRuntimeConfig turn_urls turn_username turn_password secret]>
                 (p2p_turn_config w)) w) in
   do! _ := on_machine (fun m => if is_public_bind_addr bind_addr
              then set_disk (Downloader.mkWorld (files (disk m)) (inc public_listen_uses (Downloader.metrics (disk m)))) m
              else m) in
   if is_public_bind_addr bind_addr && negb (p2p_public_listen a)
   then wfail (b!"Refusing P2P UDP public bind " ++ bind_addr ++ b!" without --p2p-public-listen")
   else
     do! st := wget in
     do! port := wlift (match udp_bind env (p2p_udp_port a) (udp_ports st.1) with
                        | Ok p => Ok p
                        | Err e => Err (b!"P2P UDP bind failed on " ++ bind_addr ++ b!": " ++ e)
                        end) in
     do! ip := wlift (get_advertise_ip env a) in
     do! _ := on_machine (fun m => set_ports (udp_ports m ++ [port]) m) in
     do! _ := on_worker (add_spawn (SpawnUdp connection_id secret port)) in
     do! _ := match turn_urls with
              | [] => wret ()
              | url :: _ => on_worker (add_spawn (SpawnTurnUdp connection_id secret url))
              end in
     send_command env (V2 (P2PCandidates (a_client_id a) peer_id connection_id
                             (host_candidate ip port :: srflx_candidate env stun_urls)))) s.

Definition is_direct (c : P2PCandidate) : bool :=
  match candidate_type c with Host | Srflx => true | Relay => false end.

(** The direct attempts: [None] when a stream is being served or none failed last, else the
    last error. *)
Fixpoint try_direct (env : WEnv) (source connection_id : bytes) (cs : list P2PCandidate)
    (last_err : option bytes) : W (option bytes) :=
  match cs with
  | [] => wret last_err
  | c :: cs =>
      if negb (is_direct c) then try_direct env source connection_id cs last_err
      else match w_connect env (addr c) with
      | Err e => try_direct env source connection_id cs (Some e)
      | Ok _ =>
          do! _ := send_command env (V2 (P2PConnectionEstablished source connection_id ConnDirect)) in
          do! s := wget in
          match p2p_turn_config s.2 !! connection_id with
          | None => try_direct env source connection_id cs last_err
          | Some rc =>
              do! _ := on_worker (add_spawn (SpawnDirect connection_id (rc_data_plane_secret rc) (addr c))) in
              wret None
          end
      end
  end.

(** The TURN fallback: [None] when it cannot be tried, else whether a relayed stream opened. *)
Definition turn_fallback (env : WEnv) (rc : P2PConnectionRuntimeConfig) (cs : list P2PCandidate)
    : option (result ()) :=
  match rc_turn_urls rc with
  | [] => None
  | url :: _ =>
      match (turn_allocate_tcp url_parse (w_tls_allocate env) url (rc_turn_username rc)
               (rc_turn_password rc) (w_txid env 1) (w_txid env 2)).2 with
      | Err e => Some (Err e)
      | Ok (tls, _, realm, nonce) =>
          match (c ← List.find (fun c => negb (is_direct c)) cs; parse_addr (addr c)) with
          | None => None
          | Some peer =>
              match (turn_connect_peer tls peer (rc_turn_username rc) (rc_turn_password rc) realm nonce
                       (w_txid env 3)).2 with
              | Err e => Some (Err e)
              | Ok (id, _) =>
                  match (turn_connection_bind url_parse (w_tls_bind env) url id (rc_turn_username rc)
                           (rc_turn_password rc) realm nonce (w_txid env 4)).2 with
                  | Err e => Some (Err e)
                  | Ok _ => Some (Ok ())
                  end
              end
          end
      end
  end.

Definition on_p2p_candidates (env : WEnv) (source target connection_id : bytes) (cs : list P2PCandidate)
    : W () := fun s =>
  if negb (bool_decide (target = a_client_id (args s.2))) then wret () s
  else
    (do! last_err := try_direct env source connection_id cs None in
     match last_err with
     | None => wret ()
     | Some e =>
         do! s := wget in
         let rc := p2p_turn_config s.2 !! connection_id in
         let fallback := rc ← rc; turn_fallback env rc cs in
         match fallback with
         | Some (Ok _) =>
             do! _ := send_command env (V2 (P2PConnectionEstablished source connection_id ConnTURN)) in
             on_worker (add_spawn (SpawnTurnStream connection_id (from_option rc_data_plane_secret [] rc)))
         | _ =>
             let e := match fallback with Some (Err e2) => e2 | _ => e end in
             send_command env (V2 (P2PConnectionFailed source connection_id (b!"connect failed: " ++ e)))
         end
     end) s.

(** ** The handler *)

Definition on_v1 (env : WEnv) (c : CommandV1) : W () :=
  match c with
  | CancelInference task_id => on_worker (fun w => set_cancelled ({[task_id]} ∪ cancelled w) w)
  | LoginResult true pods _ =>
      do! s := wget in
      if bool_decide (pods = []) && bool_decide (current_model (model_status (shared s.1)) = None)
      then wfail b!"device is not compatible with the model"
      else
        do! _ := pull_models env pods in
        do! _ := on_worker (add_spawn SpawnModelTask) in
        on_worker (add_spawn SpawnHeartbeatTask)
  | LoginResult false _ _ => wfail b!"Login failed"
  | PullModelResult pods error =>
      match error with
      | Some _ => wfail b!"Pull model failed"
      | None => if bool_decide (pods = []) then wret () else pull_models env pods
      end
  | RequestNewProxyConn id => on_worker (add_spawn (SpawnProxy id))
  | ChatInferenceTask task_id _ messages params =>
      do! prompt := chat_prompt env messages in
      inference_task env task_id prompt params
  | InferenceTask task_id prompt params => inference_task env task_id prompt params
  | _ => wret ()
  end.

Definition on_v2 (env : WEnv) (c : CommandV2) : W () :=
  match c with
  | P2PConnectionConfig peer_id connection_id stun_urls turn_urls user pass secret _ _ =>
      on_p2p_config env peer_id connection_id stun_urls turn_urls user pass secret
  | P2PCandidates source target connection_id cs => on_p2p_candidates env source target connection_id cs
  | _ => wret ()
  end.

Definition on_command (env : WEnv) (c : Command) : W () :=
  do! _ := on_machine (release_ports env) in
  match c with V1 c => on_v1 env c | V2 c => on_v2 env c end.

(** How reading the next command fails. *)
Inductive ReadError := ConnectionLost | OtherReadError (e : bytes).

Definition read_error (r : ReadError) : bytes :=
  match r with ConnectionLost => b!"Connection closed by server" | OtherReadError e => e end.

(** [handler]: the commands read until reading fails. *)
Fixpoint handler (cs : list (WEnv * Command)) (last : ReadError) : W () :=
  match cs with
  | [] => wfail (read_error last)
  | (env, c) :: cs => do! _ := on_command env c in handler cs last
  end.

(** [main]'s loop: each connection starts from what the last one left of the process, whether
    it ended with an error or not; only a panic ends the process. *)
Fixpoint connections (runs : list (EngineEnv M * list (WEnv * Command) * ReadError)) (a : Args)
    (models_dir : bytes) (m : Machine) : option Machine :=
  match runs with
  | [] => Some m
  | (env, cs, last) :: runs =>
      match handler cs last (ClientWorker_new env a models_dir m) with
      | (Panic, _) | (Hang, _) => None
      | (_, s) => connections runs a models_dir s.1
      end
  end.
End Worker.
