(* ===== verification/WorkerFacts.v ===== *)
(** * What a device worker does with its tasks, its models and its reconnections

    Theorems on [Worker]: every inference task is answered once, an answer of the engine
    reaches the HTTP client, cancellation, pulled models, reconnection and the peer-to-peer
    commands. *)

From S2P Require Import Prelude Wire Text Output Ids Stun LlamaServer Downloader LlamaEngine Generate Scheduler Streams DeviceStream Worker.
From Stdlib Require Import ZArith Lia String.
From Stdlib Require Import Strings.Byte.
From stdpp Require Import base list gmap.

Local Open Scope Z_scope.
Import Filter Phase PhaseFacts DownloaderFacts.

Notation "'do!' x := m 'in' k" := (wbind m (fun x => k))
  (at level 10, x pattern, m at level 100, k at level 200).

(** ** The monad *)
Section Monad.
Context {M : Type}.
Implicit Types s : WState (M := M).

Lemma wbind_Ret {A B} (m : W A) (k : A -> W B) s a s' :
  m s = (Ret a, s') -> wbind m k s = k a s'.
Proof. unfold wbind. by intros ->. Qed.

Lemma wbind_Fail {A B} (m : W A) (k : A -> W B) s e s' :
  m s = (Fail e, s') -> wbind m k s = (Fail e, s').
Proof. unfold wbind. by intros ->. Qed.

Lemma catch_Ret (m : W ()) s s' : m s = (Ret (), s') -> catch m s = (Ret None, s').
Proof. unfold catch. by intros ->. Qed.

Lemma catch_Fail (m : W ()) s e s' : m s = (Fail e, s') -> catch m s = (Ret (Some e), s').
Proof. unfold catch. by intros ->. Qed.

(** A component of the state that a call leaves as it is. *)
Definition keeps {X A} (f : WState -> X) (m : W A) : Prop := forall s, f (m s).2 = f s.

Lemma keeps_ret {X A} (f : WState -> X) (a : A) : keeps f (wret a).
Proof. done. Qed.
Lemma keeps_fail {X A} (f : WState -> X) e : keeps f (wfail (A := A) e).
Proof. done. Qed.
Lemma keeps_lift {X A} (f : WState -> X) (r : result A) : keeps f (wlift r).
Proof. by destruct r. Qed.
Lemma keeps_get {X} (f : WState -> X) : keeps f wget.
Proof. done. Qed.

Lemma keeps_bind {X A B} (f : WState -> X) (m : W A) (k : A -> W B) :
  keeps f m -> (forall a, keeps f (k a)) -> keeps f (wbind m k).
Proof.
  intros Hm Hk s. unfold wbind. specialize (Hm s). destruct (m s) as [[a|e| |] s']; cbn in *; [|done..].
  by rewrite Hk.
Qed.

Lemma keeps_catch {X} (f : WState -> X) (m : W ()) : keeps f m -> keeps f (catch m).
Proof. intros Hm s. unfold catch. specialize (Hm s). by destruct (m s) as [[] ?]. Qed.

Lemma keeps_machine {X} (f : WState -> X) g : (forall m w, f (g m, w) = f (m, w)) -> keeps f (on_machine g).
Proof. intros H [m w]. apply H. Qed.

Lemma keeps_worker {X} (f : WState -> X) g : (forall m w, f (m, g w) = f (m, w)) -> keeps f (on_worker g).
Proof. intros H [m w]. apply H. Qed.

(** The engines that outlive the connection. *)
Definition engines s : option (LlamaEngine M) * option (LlamaEngine M) := (global_engine s.1, http_engine s.1).
End Monad.

Create HintDb keeps.
#[export] Hint Resolve keeps_ret keeps_fail keeps_lift keeps_get keeps_catch : keeps.

(** Walks down a handler's body. *)
Ltac keeps_tac :=
  repeat first
    [ solve [auto with keeps]
    | apply keeps_bind; [|intros ?]
    | apply keeps_catch
    | apply keeps_machine; intros [] ?; by repeat case_match
    | apply keeps_worker; by intros ? []
    | match goal with |- keeps _ (match ?x with _ => _ end) => destruct x end
    | match goal with |- keeps _ (if ?x then _ else _) => destruct x end ].

(** ** Writes on the control connection *)
Section Facts.
Context {M : Type}.
Implicit Types (s : WState (M := M)) (env : WEnv (M := M)).

(** The control connection takes every write. *)
Definition writable env : Prop := forall n, w_fails env n = false.

Lemma send_command_ok env c s :
  writable env -> send_command env c s = (Ret (), (s.1, set_sent (sent s.2 ++ [c]) s.2)).
Proof. unfold send_command. by intros ->. Qed.

Lemma send_all_ok env l s :
  writable env ->
  send_all env l s = (Ret (), (s.1, set_sent (sent s.2 ++ l) s.2)).
Proof.
  intros Hok. revert s. induction l as [|c l IH]; intros [m w]; cbn [send_all].
  - rewrite app_nil_r. by destruct w.
  - rewrite (wbind_Ret _ _ _ _ _ (send_command_ok env c _ Hok)), IH. cbn. by rewrite <- app_assoc.
Qed.

Lemma keeps_send {X} (f : WState -> X) env c :
  (forall m w l, f (m, set_sent l w) = f (m, w)) -> keeps f (send_command env c).
Proof. intros H [m w]. unfold send_command. cbn. destruct (w_fails _ _); [done|]. apply H. Qed.

Lemma keeps_send_all {X} (f : WState -> X) env l :
  (forall m w l, f (m, set_sent l w) = f (m, w)) -> keeps f (send_all env l).
Proof.
  intros H. induction l as [|c l IH]; cbn [send_all]; [apply keeps_ret|].
  apply keeps_bind; [by apply keeps_send|done].
Qed.
End Facts.

(** ** Inference tasks *)
Section Inference.
Context {M : Type} (cpp : M -> LlamaCpp).
Implicit Types (s : WState (M := M)) (env : WEnv (M := M)).

(** What a task that is served sends: the chunks of [DeviceStream] for its pieces. *)
Definition task_chunks (s : WState (M := M)) (task_id : bytes) (tokens : list Z) (pieces : list bytes)
    : result (list CommandV1) :=
  stream_inference_task_to_server task_id (Z.min (blen tokens) (2 ^ 32 - 1))
    (stream_chunk_bytes (args s.2)) (fun _ => false) (stream_inputs (cancelled s.2) task_id pieces).

Definition answered (s : WState (M := M)) (task_id : bytes) (l : list CommandV1) : WState :=
  (s.1, set_cancelled (cancelled s.2 ∖ {[task_id]}) (set_sent (sent s.2 ++ (V1 <$> l)) s.2)).

Lemma task_chunks_shape s task_id tokens pieces :
  exists opens fin, task_chunks s task_id tokens pieces = Ok (opens ++ [fin])
    /\ Forall (open_of task_id) opens /\ final_of task_id fin.
Proof.
  unfold task_chunks, stream_inputs. case_bool_decide; [|apply stream_total].
  rewrite cancelled_stream. exists [], (InferenceResultChunk task_id 0 [] Final true None
    (Z.min (blen tokens) (2 ^ 32 - 1)) 0 0 0). split; [done|]. split; [constructor|]. by repeat eexists.
Qed.

(** A task that the engine takes. *)
Lemma stream_task_served env task_id prompt params s e m tokens out l :
  writable env ->
  engine s.2 = Some (EngineLlama e) -> cached_model e = Some m ->
  str_to_token (cpp m) prompt = Ok tokens ->
  stream_with_cached_model_sampling cpp e prompt (max_tokens params) (task_sampling params) always_open
    = Ok out ->
  task_chunks s task_id tokens out.1 = Ok l ->
  stream_task cpp env task_id prompt params s = (Ret (), answered s task_id l).
Proof.
  intros Hok He Hm Ht Hs Hl. unfold stream_task. rewrite He, Hm, Ht. cbn [wlift].
  erewrite wbind_Ret by reflexivity. rewrite Hs. cbn [wlift]. erewrite wbind_Ret by reflexivity.
  unfold task_chunks in Hl. rewrite Hl. cbn [wlift]. erewrite wbind_Ret by reflexivity.
  erewrite wbind_Ret by (by apply send_all_ok). done.
Qed.

(** A task the engine refuses changes nothing; any other is answered. *)
Lemma stream_task_spec env task_id prompt params s :
  writable env ->
  (exists e, stream_task cpp env task_id prompt params s = (Fail e, s))
  \/ exists opens fin, stream_task cpp env task_id prompt params s
                         = (Ret (), answered s task_id (opens ++ [fin]))
       /\ Forall (open_of task_id) opens /\ final_of task_id fin.
Proof.
  intros Hok. destruct (engine s.2) as [[| |e]|] eqn:He.
  1,2,4: left; eexists; unfold stream_task; by rewrite He.
  destruct (cached_model e) as [m|] eqn:Hm; [|left; eexists; unfold stream_task; by rewrite He, Hm].
  destruct (str_to_token (cpp m) prompt) as [tokens|x] eqn:Ht.
  2: { left. eexists. unfold stream_task. by rewrite He, Hm, Ht. }
  destruct (stream_with_cached_model_sampling cpp e prompt (max_tokens params) (task_sampling params)
    always_open) as [out|x] eqn:Hs.
  2: { left. eexists. unfold stream_task. by rewrite He, Hm, Ht; cbn; unfold wbind, wret; rewrite Hs. }
  destruct (task_chunks_shape s task_id tokens out.1) as (opens & fin & Hl & ? & ?).
  right. exists opens, fin. split; [|done]. by eapply stream_task_served.
Qed.

(** An inference task whatever the engine's state. *)
Lemma inference_task_spec env task_id prompt params s :
  writable env ->
  exists opens fin s', inference_task cpp env task_id prompt params s = (Ret (), s')
    /\ s'.1 = s.1 /\ engine s'.2 = engine s.2 /\ spawned s'.2 = spawned s.2
    /\ sent s'.2 = sent s.2 ++ (V1 <$> opens ++ [fin])
    /\ Forall (open_of task_id) opens /\ final_of task_id fin.
Proof.
  intros Hok. unfold inference_task.
  destruct (stream_task_spec env task_id prompt params s Hok) as [[e He]|(opens & fin & He & Ho & Hf)].
  - erewrite wbind_Ret by (by apply catch_Fail).
    eexists [], _, _. rewrite send_command_ok by done. cbn.
    do 5 (split; [done|]). split; [constructor|]. by repeat eexists.
  - erewrite wbind_Ret by (by apply catch_Ret).
    exists opens, fin. eexists. split; [done|]. by repeat split.
Qed.

Lemma inference_task_served env task_id prompt params s e m tokens out l :
  writable env ->
  engine s.2 = Some (EngineLlama e) -> cached_model e = Some m ->
  str_to_token (cpp m) prompt = Ok tokens ->
  stream_with_cached_model_sampling cpp e prompt (max_tokens params) (task_sampling params) always_open
    = Ok out ->
  task_chunks s task_id tokens out.1 = Ok l ->
  inference_task cpp env task_id prompt params s = (Ret (), answered s task_id l).
Proof.
  intros. unfold inference_task. erewrite wbind_Ret; [|apply catch_Ret; by eapply stream_task_served]. done.
Qed.

(** A task for an engine without a model. *)
Lemma inference_task_no_model env task_id prompt params s e :
  writable env ->
  engine s.2 = Some (EngineLlama e) -> cached_model e = None ->
  inference_task cpp env task_id prompt params s
  = (Ret (), (s.1, set_sent (sent s.2 ++ [failed_chunk task_id b!"Model not loaded - call load_model() first"]) s.2)).
Proof.
  intros Hok He Hm. unfold inference_task. erewrite wbind_Ret.
  2: { apply catch_Fail. unfold stream_task. by rewrite He, Hm. }
  by apply send_command_ok.
Qed.

(** [C7] Every inference task is answered exactly once: whatever the engine, with or without a
    model, cancelled or not, and whether tokenising, the context or decoding fails, when the
    control connection can be written the task adds chunks of its own only, all open but the
    last, which is final and carries no text; nothing else of the worker changes that outlives
    the task, and the server's entry for a streamed task is closed by these chunks. *)
Theorem task_answered_once env task_id prompt params s (now : Z) (w : Scheduler.World) :
  writable env ->
  exists opens fin s', inference_task cpp env task_id prompt params s = (Ret (), s')
    /\ s'.1 = s.1 /\ engine s'.2 = engine s.2 /\ spawned s'.2 = spawned s.2
    /\ sent s'.2 = sent s.2 ++ (V1 <$> opens ++ [fin])
    /\ Forall (open_of task_id) opens /\ final_of task_id fin
    /\ (task_id ∈ pending_streams w ->
        task_id ∉ pending_streams (feed now task_id (omap as_chunk (opens ++ [fin])) w)).
Proof.
  intros Hok. destruct (inference_task_spec env task_id prompt params s Hok)
    as (opens & fin & s' & H1 & H2 & H3 & H4 & H5 & H6 & H7).
  exists opens, fin, s'. do 7 (split; [done|]). intros Hw.
  rewrite omap_app, feed_app. rewrite (stream_open now task_id (omap as_chunk opens) w Hw).
  2: { clear -H6. induction H6 as [|c l (?&?&?&?&?&?&?&->) _ IH]; [constructor|]. by constructor. }
  destruct H7 as (sq & ph & er & p & n & a & f & ->). cbn.
  unfold handle_inference_result_chunk. cbn [pending_streams set_events].
  rewrite bool_decide_true by done. unfold stream_chunk. cbn [c_error c_done].
  destruct er; cbn -[difference]; set_solver.
Qed.

(** [C2] From the engine to the HTTP client: when the worker's engine serves a model and the
    whole-answer call gives a text for the task's prompt, the task sends chunks from which
    the server builds deltas, one [Finish] with the prompt's token count and [Done]; the text
    of the deltas, with the phase of each byte, is that text cut into pieces, each
    filtered for control tokens, and split into analysis and final parts. *)
Theorem engine_answer_reaches_client env task_id prompt params s e (text : bytes) (n k now : Z)
    (w : Scheduler.World) :
  writable env ->
  engine s.2 = Some (EngineLlama e) -> task_id ∉ cancelled s.2 ->
  generate_with_cached_model_sampling cpp e prompt (max_tokens params) (task_sampling params)
    = Ok (text, n, k) ->
  task_id ∈ pending_streams w -> stream_usages w !! task_id = None ->
  exists pieces l evs u s',
    inference_task cpp env task_id prompt params s = (Ret (), s')
    /\ sent s'.2 = sent s.2 ++ (V1 <$> l) /\ concat pieces = text
    /\ events (feed now task_id (omap as_chunk l) w)
         = events w ++ (pair task_id <$> evs ++ [Finish (Some u); EvDone])
    /\ evs = (fun ps => Delta ps.2 ps.1) <$> delta_pairs evs
    /\ tagged (delta_pairs evs)
         = tagged (push_all PhaseSplitter_default (filter_control_tokens <$> pieces)).1
    /\ u_prompt_tokens u = Z.min n (2 ^ 32 - 1) /\ u_completion_tokens u <= Z.max 0 (max_tokens params).
Proof.
  intros Hok He Hc Hg Hw Hu. unfold generate_with_cached_model_sampling in Hg.
  apply rbind_Ok in Hg as (m & Hm & Hg). apply rbind_Ok in Hg as (tokens & Hb & Hg).
  apply rbind_Ok in Hg as ([txt outs] & Hgen & [= -> <- _]). cbn [fst] in *.
  pose proof (stream_generate (cpp m) (samplers (task_sampling params))
    (Z.to_nat (max_tokens params)) tokens 0) as Hs.
  rewrite Hgen in Hs. destruct (stream_pieces _ _ _ _ always_open 0) as [pieces r] eqn:Ep.
  destruct Hs as (-> & Htext & Hl1 & Hl2).
  assert (str_to_token (cpp m) prompt = Ok tokens) as Ht.
  { unfold begin in Hb. apply rbind_Ok in Hb as (_ & _ & Hb). apply rbind_Ok in Hb as (? & -> & Hb).
    by apply rbind_Ok in Hb as (_ & _ & [= ->]). }
  assert (exists l, task_chunks s task_id tokens pieces = Ok l) as [l El].
  { destruct (task_chunks_shape s task_id tokens pieces) as (? & ? & -> & _). eauto. }
  assert (inference_task cpp env task_id prompt params s = (Ret (), answered s task_id l)) as Hi.
  { pose proof Hm as Hm'. apply serving_Ok in Hm as (_ & _ & Hm).
    eapply (inference_task_served env task_id prompt params s e m tokens (pieces, Ok ()) l); try done.
    unfold stream_with_cached_model_sampling. rewrite Hm'. cbn [rbind]. rewrite Hb, Ep. done. }
  unfold task_chunks, stream_inputs in El. rewrite bool_decide_false in El by done.
  destruct (answer_events task_id pieces l _ _ now _ w El Hw Hu)
    as (evs & u & H1 & H2 & H3 & H4 & H5 & _).
  exists pieces, l, evs, u, (answered s task_id l). do 6 (split; [done|]).
  split; [done|]. rewrite H5. unfold blen. lia.
Qed.
End Inference.

(** ** Commands and connections *)
Section Handler.
Context {M : Type} (cpp : M -> LlamaCpp) (apply_template : M -> list ChatMessage -> option bytes).
Context (sha256_hex : bytes -> bytes) (percentage : Z -> Z -> f32).
Context `{SC : StunCrypto} (url_parse : bytes -> result (bytes * option bytes * option Z)).
Context (parse_addr : bytes -> option SocketAddr) (print_addr : SocketAddr -> bytes).
Implicit Types (s : WState (M := M)) (env : WEnv (M := M)) (m : Machine (M := M)) (e : LlamaEngine M).

Abbreviation on_command' :=
  (on_command cpp apply_template sha256_hex percentage url_parse parse_addr print_addr).
Abbreviation on_v1' := (on_v1 cpp apply_template sha256_hex percentage).
Abbreviation on_v2' := (on_v2 url_parse parse_addr print_addr).
Abbreviation handler' :=
  (handler cpp apply_template sha256_hex percentage url_parse parse_addr print_addr).
Abbreviation connections' :=
  (connections cpp apply_template sha256_hex percentage url_parse parse_addr print_addr).

Lemma on_command_v1 env c s :
  on_command' env (V1 c) s = on_v1' env c (release_ports env s.1, s.2).
Proof. done. Qed.

Lemma on_command_v2 env c s :
  on_command' env (V2 c) s = on_v2' env c (release_ports env s.1, s.2).
Proof. done. Qed.

(** Cancelling never stops an answer: a [CancelInference] is read only when the handler is
    back from the task, so a task that is cancelled after it started has already sent its
    whole answer; the id then stays in the cancelled set, where it waits for another task of
    the same id, which the engine is asked to start and which gets an empty answer that ends
    normally. *)
Theorem cancellation_hits_only_the_next_task env1 env2 env3 task_id prompt params prompt' params' s :
  writable env1 -> writable env3 ->
  exists opens fin s1 s2,
    on_command' env1 (V1 (InferenceTask task_id prompt params)) s = (Ret (), s1)
    /\ sent s1.2 = sent s.2 ++ (V1 <$> opens ++ [fin]) /\ final_of task_id fin
    /\ on_command' env2 (V1 (CancelInference task_id)) s1 = (Ret (), s2)
    /\ sent s2.2 = sent s1.2 /\ task_id ∈ cancelled s2.2
    /\ forall e mdl tokens, engine s.2 = Some (EngineLlama e) -> serving e = Ok mdl ->
         str_to_token (cpp mdl) prompt' = Ok tokens ->
         exists s3, on_command' env3 (V1 (InferenceTask task_id prompt' params')) s2 = (Ret (), s3)
           /\ sent s3.2 = sent s2.2
                ++ [V1 (InferenceResultChunk task_id 0 [] Final true None
                          (Z.min (blen tokens) (2 ^ 32 - 1)) 0 0 0)]
           /\ task_id ∉ cancelled s3.2.
Proof.
  intros Hok1 Hok3. rewrite on_command_v1. cbn [on_v1].
  destruct (inference_task_spec cpp env1 task_id prompt params (release_ports env1 s.1, s.2) Hok1)
    as (opens & fin & s1 & H1 & _ & Heng & _ & Hsent & _ & Hf).
  exists opens, fin, s1. eexists. split; [done|]. split; [done|]. split; [done|]. split; [done|].
  split; [done|]. cbn [snd fst cancelled set_cancelled]. split; [set_solver|].
  intros e mdl tokens He Hs Ht. cbn [snd] in Heng. rewrite <- Heng in He.
  eexists. rewrite on_command_v1. cbn [on_v1 fst snd].
  split.
  - pose proof Hs as Hm. apply serving_Ok in Hm as (_ & _ & Hm).
    assert (exists out, stream_with_cached_model_sampling cpp e prompt' (max_tokens params')
      (task_sampling params') always_open = Ok out) as [out Hout].
    { unfold stream_with_cached_model_sampling. rewrite Hs. by eexists. }
    eapply (inference_task_served cpp env3 task_id prompt' params'); [done|exact He|done|done|exact Hout|].
    unfold task_chunks, stream_inputs. cbn [snd cancelled set_cancelled].
    rewrite bool_decide_true by set_solver. apply cancelled_stream.
  - cbn. split; [done|]. set_solver.
Qed.

(** *** No command touches the engines that outlive the connection *)

Lemma keeps_send_engines env c : keeps (M := M) engines (send_command env c).
Proof. by apply keeps_send. Qed.
#[local] Hint Resolve keeps_send_engines : keeps.

Lemma keeps_load env path : keeps engines (load_into_engine env path).
Proof.
  unfold load_into_engine, on_model_status. keeps_tac.
  intros [m w]. unfold engine_set_models. cbn [fst snd]. destruct (engine w) as [[| |e]|]; [done..| |done].
  match goal with |- context [set_models ?x ?y ?z] => by destruct (set_models x y z) as [r [e' sh]] end.
Qed.

Lemma keeps_progress env name d t p v st er : keeps engines (send_download_progress env name d t p v st er).
Proof. intros [m w]. unfold send_download_progress. by rewrite keeps_send. Qed.

Lemma keeps_retry env cfg l i er : keeps engines (download_with_retry sha256_hex env cfg l i er).
Proof.
  revert i er. induction l as [|l IH]; intros i er; cbn [download_with_retry]; [apply keeps_ret|].
  apply keeps_bind; [apply keeps_catch|intros [x|]; [apply IH|apply keeps_ret]].
  intros [m w]. unfold download_once. cbn. by destruct (download _ _ _ _).
Qed.
#[local] Hint Resolve keeps_load keeps_progress keeps_retry : keeps.

Lemma keeps_pod_model env pod : keeps engines (deal_with_pod_model sha256_hex percentage env pod).
Proof. unfold deal_with_pod_model. keeps_tac. Qed.
#[local] Hint Resolve keeps_pod_model : keeps.

Lemma keeps_pods env t pods : keeps engines (deal_with_pods sha256_hex percentage env t pods).
Proof.
  induction pods as [|pod pods IH]; cbn [deal_with_pods]; [apply keeps_ret|].
  apply keeps_bind; [|by intros _]. unfold deal_with_pod. keeps_tac.
Qed.

Lemma keeps_pull env pods : keeps engines (pull_models sha256_hex percentage env pods).
Proof. intros s. unfold pull_models. destruct (_ && _); [apply keeps_pods|done]. Qed.

Lemma keeps_stream env t p params : keeps engines (stream_task cpp env t p params).
Proof.
  intros s. unfold stream_task. destruct (engine s.2) as [[| |e]|]; [done..| |done].
  destruct (cached_model e); [|done]. apply (keeps_bind engines); [apply keeps_lift|intros tokens].
  apply keeps_bind; [apply keeps_lift|intros out]. apply keeps_bind; [apply keeps_lift|intros chunks].
  apply keeps_bind; [by apply keeps_send_all|intros ?]. apply keeps_worker. by intros ? [].
Qed.

Lemma keeps_inference env t p params : keeps engines (inference_task cpp env t p params).
Proof.
  unfold inference_task. apply keeps_bind; [apply keeps_catch, keeps_stream|].
  intros [e|]; [by apply keeps_send|done].
Qed.
#[local] Hint Resolve keeps_pull keeps_inference : keeps.

Lemma keeps_v1 env c : keeps engines (on_v1' env c).
Proof.
  destruct c; cbn [on_v1]; keeps_tac.
  intros s. unfold chat_prompt. by repeat case_match.
Qed.

Lemma keeps_direct env source id cs er : keeps engines (try_direct env source id cs er).
Proof.
  revert er. induction cs as [|c cs IH]; intros er; cbn [try_direct]; [done|].
  keeps_tac; apply IH.
Qed.
#[local] Hint Resolve keeps_direct : keeps.

Lemma keeps_v2 env c : keeps engines (on_v2' env c).
Proof.
  destruct c; cbn [on_v2]; keeps_tac; intros s.
  - unfold on_p2p_config. apply (keeps_bind engines); [apply keeps_worker; by intros ? []|intros ?].
    keeps_tac.
  - unfold on_p2p_candidates. destruct (negb _); [done|].
    apply (keeps_bind engines); [apply keeps_direct|intros last]. keeps_tac.
Qed.

Lemma keeps_command env c : keeps engines (on_command' env c).
Proof.
  unfold on_command. apply keeps_bind; [by apply keeps_machine|intros _].
  destruct c; [apply keeps_v1|apply keeps_v2].
Qed.

Lemma keeps_handler cs last : keeps engines (handler' cs last).
Proof.
  induction cs as [|[env c] cs IH]; cbn [handler]; [done|].
  apply keeps_bind; [apply keeps_command|by intros _].
Qed.

(** *** Loading a file that is on the disk *)

(** The engine's own checks pass for the file at an absolute path. *)
Definition loadable (eenv : EngineEnv M) (e : LlamaEngine M) (path content : bytes) (mdl : M) : Prop :=
  is_absolute path = true /\ from_utf8_lossy path = path /\ real_path eenv path = Ok path
  /\ allowed_extension (model_extension path) = true
  /\ backend_ok eenv = true /\ nvswitch_ok eenv = true
  /\ parse_model eenv content (load_params eenv e) = Ok mdl.

Lemma loadable_resolves (eenv : EngineEnv M) e (path content : bytes) (mdl : M) (fs : gmap bytes bytes) :
  loadable eenv e path content mdl -> fs !! path = Some content ->
  validate_model_path (fs_env eenv fs) e path = Ok path
  /\ load_from_file (fs_env eenv fs) path (load_params eenv e) = Ok mdl.
Proof.
  intros (Ha & Hu & Hr & Hx & Hb & Hn & Hp) Hf. split.
  - unfold validate_model_path, resolve_model_path. rewrite Ha.
    unfold validate_model_path_candidate, path_exists. cbn [read_path is_dir real_path fs_env].
    rewrite Hf, Hr, Hf, Hx. rewrite bool_decide_true by eauto. by rewrite orb_true_r.
  - unfold load_from_file. cbn. rewrite Hb, Hn, Hf, Hp. done.
Qed.

Lemma set_models_keeps_status (eenv : EngineEnv M) paths (st : St M) :
  model_status (set_models eenv paths st).2.2 = model_status st.2.
Proof.
  destruct st as [e sh]. unfold set_models. destruct paths as [|p l]; [done|].
  destruct (validate_model_path _ _ _); [|done]. by destruct (ensure_initialized _ _) as [[[]|x] e'].
Qed.

Lemma load_into_engine_spec env (path content : bytes) (mdl : M) e s :
  engine s.2 = Some (EngineLlama e) -> unloaded e ->
  loadable (w_engine env) e path content mdl -> files (disk s.1) !! path = Some content ->
  exists s' e', load_into_engine env path s = (Ret (), s')
    /\ engine s'.2 = Some (EngineLlama e') /\ serving e' = Ok mdl
    /\ model_status (shared s'.1) = mkStatus (Some path) b!"Loaded" true None
    /\ disk s'.1 = disk s.1 /\ sent s'.2 = sent s.2.
Proof.
  destruct s as [m w]. cbn [fst snd]. intros He [Hi Hc] Hl Hf. pose proof Hl as (_ & Hu & _).
  destruct (loadable_resolves _ _ _ _ _ _ Hl Hf) as [Hv Hld].
  unfold load_into_engine, on_model_status. erewrite wbind_Ret by reflexivity.
  unfold wbind, engine_set_models. cbn [fst snd set_shared disk shared engine]. rewrite He.
  match goal with |- context [set_models ?x ?y ?z] =>
    pose proof (set_models_effect x y z) as Hs; pose proof (set_models_keeps_status x y z) as Hst;
    destruct (set_models x y z) as [r [e' sh']] end. cbn [fst snd] in Hs, Hst.
  rewrite Hv, Hi, Hu in Hs. unfold cached_for in Hs. cbn [fst andb negb] in Hs.
  rewrite (bool_decide_false (is_Some (cached_model e))) in Hs by (rewrite Hc; by intros []).
  cbn [andb] in Hs.
  change (load_params (fs_env (w_engine env) (files (disk m))) e) with (load_params (w_engine env) e) in Hs.
  rewrite Hld in Hs. destruct Hs as (-> & Hs & _).
  eexists _, e'. split; [reflexivity|]. split; [done|]. split; [done|].
  split; [|done]. cbn [fst shared set_shared on_status model_status]. by rewrite Hst.
Qed.

(** *** Pulling a pod's model *)
Section Retry.
Context (cfg : DownloadConfig) (content : bytes).
Context (Hck : normalize_sha256 (checksum cfg) = Ok (sha256_hex content)).
Context (Hcs : 0 < chunk_size cfg) (Hpc : 0 < parallel_chunks cfg) (Hne : 0 < blen content).
Context (cs : list DownloadChunk)
        (Hcalc : calculate_chunks cfg 0 (blen content) (blen content) = Some cs).

(** Attempts at an honest server of which one responds. *)
Lemma retry_spec env left_ k er s :
  (forall i, (k <= i < k + left_)%nat ->
     attempt_ok cfg content (w_downloads env i) /\ honest content (w_downloads env i)) ->
  (exists i, (k <= i < k + left_)%nat /\ responsive content (w_downloads env i)) ->
  files (disk s.1) !! output_path cfg = None ->
  parts_ok content (parts_dir cfg) cs (files (disk s.1)) ->
  exists d, download_with_retry sha256_hex env cfg left_ k er s = (Ret (Ok ()), (set_disk d s.1, s.2))
    /\ files d !! output_path cfg = Some content.
Proof.
  revert k er s. induction left_ as [|l IH]; intros k er [m w] Hall (i & Hi & Hr) Hout Hok; [lia|].
  destruct (Hall k ltac:(lia)) as [Hat Hh]. cbn [download_with_retry].
  destruct (attempt_spec sha256_hex cfg content _ Hck Hcs Hpc Hne cs Hcalc (w_downloads env k) (disk m)
    Hat Hh eq_refl Hout Hok) as (o & d & E & Ho).
  destruct o as [[]|x| |]; [| |done|done].
  - erewrite wbind_Ret by (apply catch_Ret; unfold download_once; cbn [fst]; rewrite E; reflexivity).
    by exists d.
  - destruct Ho as (Ho1 & Ho2 & Hnr).
    erewrite wbind_Ret by (apply catch_Fail; unfold download_once; cbn [fst]; rewrite E; reflexivity).
    destruct (IH (S k) (Some x) (set_disk d m, w)) as (d' & E' & Hd'); cbn [fst disk set_disk].
    + intros j Hj. apply Hall. lia.
    + exists i. split; [|done]. destruct (decide (i = k)) as [->|]; [done|lia].
    + done.
    + done.
    + exists d'. split; [exact E'|done].
Qed.
End Retry.

(** What is known of a pod whose model is to be pulled. *)
Record pod_of (env : WEnv (M := M)) (pod : PodModel) (name ck content path : bytes) : Prop := {
  pod_name : pm_model_name pod = Some name;
  pod_url : is_Some (pm_download_url pod);
  pod_checksum : pm_checksum pod = Some ck;
  pod_dir : w_create_models_dir env = Ok ();
  pod_path : path = LlamaEngine.join (w_models_root env) name;
  pod_digest : normalize_sha256 ck = Ok (sha256_hex content) }.

Lemma pod_is_served env pod (name ck content path : bytes) (mdl : M) e s :
  pod_of env pod name ck content path -> 0 < blen content ->
  writable env ->
  engine s.2 = Some (EngineLlama e) -> unloaded e -> loadable (w_engine env) e path content mdl ->
  let st := model_status (shared s.1) in
  ~ (current_model st = Some path /\ is_loaded st = true) ->
  files (disk s.1) !! path = None ->
  (forall i, files (disk s.1) !! part_path (path ++ b!".parts") i = None) ->
  let cfg := download_model_config path ck in
  (forall i, (i < MAX_RETRIES)%nat ->
     attempt_ok cfg content (w_downloads env i) /\ honest content (w_downloads env i)) ->
  (exists i, (i < MAX_RETRIES)%nat /\ responsive content (w_downloads env i)) ->
  exists s' e' reports, deal_with_pod_model sha256_hex percentage env pod s = (Ret (), s')
    /\ engine s'.2 = Some (EngineLlama e') /\ serving e' = Ok mdl
    /\ files (disk s'.1) !! path = Some content
    /\ model_status (shared s'.1) = mkStatus (Some path) b!"Loaded" true None
    /\ sent s'.2 = sent s.2 ++ reports
    /\ last reports = Some (V1 (ModelDownloadProgress (a_client_id (args s.2)) name
         (default 0 (pm_expected_size pod)) (default 0 (pm_expected_size pod)) pct_full 0 Completed None)).
Proof.
  intros [Hn [url Hu] Hk Hd Hp Hdig] Hne Hok He Hun Hl st Hst Hf Hparts cfg Hall Hex.
  destruct s as [m w]. cbn [fst snd] in *. pose proof Hl as (_ & Hutf & _).
  unfold deal_with_pod_model. rewrite Hn, Hu, Hk, Hd. cbn [ok_or wlift].
  erewrite wbind_Ret by reflexivity. erewrite wbind_Ret by reflexivity. rewrite <- Hp, Hutf.
  erewrite wbind_Ret by reflexivity. cbn [fst snd].
  match goal with |- context [if ?b then _ else _] => replace b with false end.
  2: { symmetry. apply andb_false_iff. fold st. destruct (is_loaded st); [left|by right].
       apply bool_decide_eq_false. intros ?. by apply Hst. }
  rewrite Hf. cbn [from_option].
  match goal with |- context [wbind (if ?b then ?x else ?y) _] =>
    assert (exists r1, (if b then x else y) (m, w) = (Ret (), (m, set_sent (sent w ++ r1) w))) as [r1 E1] end.
  { destruct (0 <? _).
    - unfold send_download_progress. rewrite send_command_ok by done. by eexists.
    - exists []. rewrite app_nil_r. by destruct w. }
  rewrite (wbind_Ret _ _ _ _ _ E1). clear E1.
  destruct (calculate_chunks_spec cfg 0 (blen content) (blen content) ltac:(done) ltac:(done) Hne)
    as (cs & Hcalc & _); [lia|].
  destruct (retry_spec cfg content Hdig ltac:(done) ltac:(done) Hne cs Hcalc env MAX_RETRIES 0 None
    (m, set_sent (sent w ++ r1) w)) as (d & E & Hd'); cbn [fst].
  { intros i Hi. apply Hall. lia. }
  { destruct Hex as (i & Hi & Hr). exists i. split; [lia|done]. }
  { done. }
  { intros c dd _ Hdd. by rewrite Hparts in Hdd. }
  erewrite wbind_Ret by exact E. cbn [fst snd].
  erewrite wbind_Ret by (unfold send_download_progress; by apply send_command_ok).
  cbn [fst snd]. set (w2 := set_sent _ _).
  destruct (load_into_engine_spec env path content mdl e (set_disk d m, w2))
    as (s' & e' & E' & H1 & H2 & H3 & H4 & H5); [done..|].
  exists s', e'. eexists. split; [exact E'|]. split; [done|]. split; [done|].
  split; [by rewrite H4|]. split; [done|]. rewrite H5. unfold w2. cbn [sent set_sent snd].
  rewrite <- app_assoc. split; [done|]. by rewrite last_app.
Qed.

Lemma pull_one env pod s s' :
  a_engine_type (args s.2) = Llama -> llama_model_path (args s.2) = None -> a_auto_models (args s.2) = true ->
  deal_with_pod_model sha256_hex percentage env pod s = (Ret (), s') ->
  pull_models sha256_hex percentage env [pod] s = (Ret (), s').
Proof.
  intros Ht Hp Ha E. unfold pull_models. rewrite Ht, Hp, Ha. cbn [andb deal_with_pods].
  rewrite bool_decide_true by done. cbn [andb].
  unfold deal_with_pod. rewrite bool_decide_true by done.
  erewrite wbind_Ret; [|erewrite wbind_Ret; [|apply catch_Ret, E]; reflexivity]. done.
Qed.

Lemma pull_command_serves env pod (name ck content path : bytes) (mdl : M) e s :
  a_engine_type (args s.2) = Llama -> llama_model_path (args s.2) = None -> a_auto_models (args s.2) = true ->
  pod_of env pod name ck content path -> 0 < blen content ->
  writable env ->
  engine s.2 = Some (EngineLlama e) -> unloaded e -> loadable (w_engine env) e path content mdl ->
  let st := model_status (shared s.1) in
  ~ (current_model st = Some path /\ is_loaded st = true) ->
  files (disk s.1) !! path = None ->
  (forall i, files (disk s.1) !! part_path (path ++ b!".parts") i = None) ->
  let cfg := download_model_config path ck in
  (forall i, (i < MAX_RETRIES)%nat ->
     attempt_ok cfg content (w_downloads env i) /\ honest content (w_downloads env i)) ->
  (exists i, (i < MAX_RETRIES)%nat /\ responsive content (w_downloads env i)) ->
  exists s' e' reports, on_command' env (V1 (PullModelResult [pod] None)) s = (Ret (), s')
    /\ engine s'.2 = Some (EngineLlama e') /\ serving e' = Ok mdl
    /\ files (disk s'.1) !! path = Some content
    /\ model_status (shared s'.1) = mkStatus (Some path) b!"Loaded" true None
    /\ sent s'.2 = sent s.2 ++ reports
    /\ last reports = Some (V1 (ModelDownloadProgress (a_client_id (args s.2)) name
         (default 0 (pm_expected_size pod)) (default 0 (pm_expected_size pod)) pct_full 0 Completed None)).
Proof.
  intros Ht Hp Ha Hpod Hne Hok He Hun Hl st Hst Hf Hparts cfg Hall Hex.
  destruct (pod_is_served env pod name ck content path mdl e (release_ports env s.1, s.2))
    as (s' & e' & reports & E & H); try done.
  exists s', e', reports. split; [|exact H]. rewrite on_command_v1. cbn [on_v1].
  rewrite bool_decide_false by done. by apply pull_one.
Qed.

(** [C6] A pod's model ends up being served: when the server offers a model whose file is not yet
    on the disk, and the file's host is honest, answers the size query and delivers every
    range in at least one of the ten attempts, the other attempts breaking off anywhere, then
    the worker downloads exactly the file with the announced digest, reports the download
    complete, loads that file into its own engine, which serves the model parsed from it, and
    marks it loaded. *)
Theorem honest_pod_is_served env pod (name ck content path : bytes) (mdl : M) e s :
  a_engine_type (args s.2) = Llama -> llama_model_path (args s.2) = None -> a_auto_models (args s.2) = true ->
  pod_of env pod name ck content path -> 0 < blen content ->
  writable env ->
  engine s.2 = Some (EngineLlama e) -> unloaded e -> loadable (w_engine env) e path content mdl ->
  let st := model_status (shared s.1) in
  ~ (current_model st = Some path /\ is_loaded st = true) ->
  files (disk s.1) !! path = None ->
  (forall i, files (disk s.1) !! part_path (path ++ b!".parts") i = None) ->
  let cfg := download_model_config path ck in
  (forall i, (i < MAX_RETRIES)%nat ->
     attempt_ok cfg content (w_downloads env i) /\ honest content (w_downloads env i)) ->
  (exists i, (i < MAX_RETRIES)%nat /\ responsive content (w_downloads env i)) ->
  exists s' e' reports, on_command' env (V1 (PullModelResult [pod] None)) s = (Ret (), s')
    /\ engine s'.2 = Some (EngineLlama e') /\ serving e' = Ok mdl
    /\ files (disk s'.1) !! path = Some content
    /\ model_status (shared s'.1) = mkStatus (Some path) b!"Loaded" true None
    /\ sent s'.2 = sent s.2 ++ reports
    /\ last reports = Some (V1 (ModelDownloadProgress (a_client_id (args s.2)) name
         (default 0 (pm_expected_size pod)) (default 0 (pm_expected_size pod)) pct_full 0 Completed None)).
Proof. apply pull_command_serves. Qed.

(** A file that is already there is loaded as it is: when a pod's file exists with the announced
    length, or with any length when none is announced, the worker neither downloads nor
    computes a digest, whatever digest the pod announces. *)
Theorem existing_file_is_not_verified env pod (name url ck c path : bytes) (mdl : M) e s :
  pm_model_name pod = Some name -> pm_download_url pod = Some url -> pm_checksum pod = Some ck ->
  w_create_models_dir env = Ok () -> path = LlamaEngine.join (w_models_root env) name ->
  files (disk s.1) !! path = Some c -> from_option (Z.eqb (blen c)) true (pm_expected_size pod) = true ->
  engine s.2 = Some (EngineLlama e) -> unloaded e -> loadable (w_engine env) e path c mdl ->
  is_loaded (model_status (shared s.1)) = false ->
  exists s' e', deal_with_pod_model sha256_hex percentage env pod s = (Ret (), s')
    /\ engine s'.2 = Some (EngineLlama e') /\ serving e' = Ok mdl /\ disk s'.1 = disk s.1
    /\ sent s'.2 = sent s.2.
Proof.
  intros Hn Hu Hk Hd Hp Hf Hsz He Hun Hl Hst. pose proof Hl as (_ & Hutf & _).
  destruct (load_into_engine_spec env path c mdl e s He Hun Hl Hf)
    as (s' & e' & E & H1 & H2 & _ & H3 & H4).
  exists s', e'. split; [|done]. unfold deal_with_pod_model. rewrite Hn, Hu, Hk, Hd. cbn [ok_or wlift].
  erewrite wbind_Ret by reflexivity. erewrite wbind_Ret by reflexivity. rewrite <- Hp, Hutf.
  erewrite wbind_Ret by reflexivity. rewrite Hst, andb_false_r, Hf.
  destruct (pm_expected_size pod) as [n|]; cbn in Hsz |- *; [by rewrite Hsz|done].
Qed.

(** *** Reconnecting *)

(** A machine whose outliving engines have never had a model. *)
Definition modelless m : Prop :=
  (forall e, global_engine m = Some e -> unloaded e) /\ (forall e, http_engine m = Some e -> unloaded e).

(** A worker that starts without a local model. *)
Lemma new_worker_modelless eenv a dir m :
  a_engine_type a = Llama -> llama_model_path a = None -> modelless m ->
  exists e h, ClientWorker_new eenv a dir m
    = ((mkMachine (disk m) (shared m) (Some e) (Some h) (udp_ports m)),
       mkWorker a (Some (EngineLlama e)) ∅ ∅ [] [])
    /\ unloaded e /\ unloaded h.
Proof.
  intros Ht Hp [Hg Hh]. unfold ClientWorker_new, start_llama, first_start, first_engine. rewrite Ht, Hp.
  destruct m as [d sh [g|] [h|] ps]; cbn in *; eexists _, _; (split; [reflexivity|]); auto.
  all: split; auto; done.
Qed.

Lemma handler_modelless cs last s : modelless s.1 -> modelless (handler' cs last s).2.1.
Proof.
  intros [Hg Hh]. pose proof (keeps_handler cs last s) as E. unfold engines in E.
  injection E as E1 E2. split; intros e; [rewrite E1|rewrite E2]; auto.
Qed.

Lemma connections_modelless runs a dir m m' :
  a_engine_type a = Llama -> llama_model_path a = None ->
  modelless m -> connections' runs a dir m = Some m' -> modelless m'.
Proof.
  intros Ht Hp. revert m. induction runs as [|[[eenv cs] last] runs IH]; intros m Hm E; cbn [connections] in E.
  { by injection E as <-. }
  destruct (new_worker_modelless eenv a dir m Ht Hp Hm) as (e & h & Hnew & He & Hh).
  pose proof (handler_modelless cs last (ClientWorker_new eenv a dir m)) as Hk.
  destruct (handler' cs last _) as [o s'] eqn:Eh.
  assert (modelless s'.1) as Hs'.
  { apply Hk. rewrite Hnew. by split; intros ? [= <-]. }
  destruct o; [by eapply IH|by eapply IH|done|done].
Qed.

(** A reconnection loses the model: however many connections a worker without a local model
    has had and whatever was pulled on them, the next one starts with an engine that has no
    model, because a pulled model is only loaded into the connection's own clone of the engine;
    the engine of the local HTTP server never has one. The process-wide status survives, so
    when it says that the model is loaded the worker does not load it again when the server
    offers it after the login; every task is answered with the error "Model not loaded",
    and the first chat task ends the connection unanswered. *)
Theorem reconnect_loses_model runs eenv a dir m m' :
  a_engine_type a = Llama -> llama_model_path a = None ->
  global_engine m = None -> http_engine m = None ->
  connections' runs a dir m = Some m' ->
  let s := ClientWorker_new eenv a dir m' in
  shared s.1 = shared m' /\ disk s.1 = disk m'
  /\ (exists e h, engine s.2 = Some (EngineLlama e) /\ unloaded e /\ http_engine s.1 = Some h /\ unloaded h)
  /\ (forall env pod name url ck,
        pm_model_name pod = Some name -> pm_download_url pod = Some url -> pm_checksum pod = Some ck ->
        w_create_models_dir env = Ok () -> is_loaded (model_status (shared m')) = true ->
        current_model (model_status (shared m'))
          = Some (from_utf8_lossy (LlamaEngine.join (w_models_root env) name)) ->
        exists s', on_command' env (V1 (LoginResult true [pod] None)) s = (Ret (), s')
          /\ engine s'.2 = engine s.2 /\ sent s'.2 = [])
  /\ (forall env task_id prompt params, writable env ->
        exists s', on_command' env (V1 (InferenceTask task_id prompt params)) s = (Ret (), s')
          /\ engine s'.2 = engine s.2
          /\ sent s'.2 = [failed_chunk task_id b!"Model not loaded - call load_model() first"])
  /\ (forall env task_id model messages params,
        exists s', on_command' env (V1 (ChatInferenceTask task_id model messages params)) s
          = (Fail b!"Model not loaded - call load_model() first", s') /\ sent s'.2 = []).
Proof.
  intros Ht Hp Hg Hh Hc s.
  assert (modelless m') as Hm'.
  { eapply connections_modelless; [..|exact Hc]; [done..|]. split; intros e; congruence. }
  destruct (new_worker_modelless eenv a dir m' Ht Hp Hm') as (e & h & Hnew & He & Hhn).
  unfold s. rewrite Hnew. cbn [fst snd]. split; [done|]. split; [done|].
  split; [by exists e, h|]. split; [|split].
  - intros env pod name url ck H1 H2 H3 H4 H5 H6. rewrite on_command_v1. cbn [on_v1 release_ports set_ports fst snd].
    eexists. split.
    + erewrite wbind_Ret by reflexivity. rewrite bool_decide_false by done. cbn [andb].
      erewrite wbind_Ret; [reflexivity|]. instantiate (1 := (_, _)).
      unfold pull_models. cbn [args snd]. rewrite Hp. destruct (a_auto_models a); [|reflexivity].
      cbn [andb]. rewrite bool_decide_true by done. rewrite Ht. cbn [deal_with_pods].
      unfold deal_with_pod. rewrite bool_decide_true by done.
      erewrite wbind_Ret; [reflexivity|]. erewrite wbind_Ret; [reflexivity|]. apply catch_Ret.
      unfold deal_with_pod_model. rewrite H1, H2, H3, H4. cbn [ok_or wlift].
      erewrite wbind_Ret by reflexivity. erewrite wbind_Ret by reflexivity.
      erewrite wbind_Ret by reflexivity. cbn [fst shared set_ports release_ports].
      rewrite H5, H6. rewrite bool_decide_true by done. reflexivity.
    + done.
  - intros env t p params Hok. rewrite on_command_v1. cbn [on_v1].
    eexists. split; [eapply inference_task_no_model; [done|reflexivity|apply He]|done].
  - intros env t mo msgs params. rewrite on_command_v1. cbn [on_v1].
    eexists. split; [apply wbind_Fail; unfold chat_prompt; cbn; by rewrite (proj2 He)|done].
Qed.

(** *** Peer-to-peer commands *)

(** A direct candidate that accepts the connection. *)
Definition reachable env (c : P2PCandidate) : bool := is_direct c && is_ok (w_connect env (addr c)).

(** The error of the last direct candidate that did not. *)
Fixpoint last_error env (cs : list P2PCandidate) (er : option bytes) : option bytes :=
  match cs with
  | [] => er
  | c :: cs => last_error env cs (if is_direct c then match w_connect env (addr c) with Err x => Some x | Ok _ => er end else er)
  end.

Lemma last_error_direct env cs er :
  (forall c, c ∈ cs -> reachable env c = false) -> existsb is_direct cs = true -> is_Some (last_error env cs er).
Proof.
  revert er. induction cs as [|c cs IH]; intros er Hu Hd; cbn in *; [done|].
  assert (forall cs er, is_Some er -> is_Some (last_error env cs er)) as Hsome.
  { clear. induction cs as [|c cs IH]; intros er He; cbn; [done|]. apply IH.
    destruct (is_direct c); [|done]. by destruct (w_connect _ _). }
  pose proof (Hu c ltac:(set_solver)) as Hc. unfold reachable in Hc.
  destruct (is_direct c); cbn in *.
  - destruct (w_connect env (addr c)); [done|]. apply Hsome. by eexists.
  - apply IH; [|done]. intros c' Hc'. apply Hu. set_solver.
Qed.

Lemma last_error_relay env cs er : existsb is_direct cs = false -> last_error env cs er = er.
Proof.
  revert er. induction cs as [|c cs IH]; intros er Hd; cbn in *; [done|].
  apply orb_false_iff in Hd as [Hc Hd]. rewrite Hc. by apply IH.
Qed.

Definition established source id k : Command := V2 (P2PConnectionEstablished source id k).

Lemma try_direct_spec env source id cs er s rc :
  writable env -> p2p_turn_config s.2 !! id = Some rc ->
  try_direct env source id cs er s
  = match List.find (reachable env) cs with
    | Some c => (Ret None, (s.1, add_spawn (SpawnDirect id (rc_data_plane_secret rc) (addr c))
                                   (set_sent (sent s.2 ++ [established source id ConnDirect]) s.2)))
    | None => (Ret (last_error env cs er), s)
    end.
Proof.
  intros Hok Hrc. revert er. induction cs as [|c cs IH]; intros er; cbn [try_direct List.find last_error]; [done|].
  unfold reachable at 1. destruct (is_direct c); cbn [negb andb]; [|apply IH].
  destruct (w_connect env (addr c)) as [[]|x]; cbn [is_ok]; [|apply IH].
  erewrite wbind_Ret by (by apply send_command_ok). erewrite wbind_Ret by reflexivity.
  cbn [snd p2p_turn_config set_sent]. rewrite Hrc. done.
Qed.

(** Without the connection's configuration, every reachable candidate is reported. *)
Lemma try_direct_unconfigured env source id cs er s :
  writable env -> p2p_turn_config s.2 !! id = None ->
  try_direct env source id cs er s
  = (Ret (last_error env cs er),
     (s.1, set_sent (sent s.2 ++ ((fun _ => established source id ConnDirect) <$> List.filter (reachable env) cs)) s.2)).
Proof.
  intros Hok. revert er s. induction cs as [|c cs IH]; intros er [m w] Hrc; cbn [try_direct last_error].
  { cbn. rewrite app_nil_r. by destruct w. }
  cbn [List.filter]. unfold reachable at 1.
  destruct (is_direct c); cbn [negb andb is_ok]; [|by apply IH].
  destruct (w_connect env (addr c)) as [[]|x]; cbn [is_ok]; [|by apply IH].
  erewrite wbind_Ret by (by apply send_command_ok).
  erewrite wbind_Ret by reflexivity. cbn [snd p2p_turn_config set_sent] in *. rewrite Hrc.
  rewrite IH by done. cbn. by rewrite <- app_assoc.
Qed.

Definition failed source id (x : bytes) : Command :=
  V2 (P2PConnectionFailed source id (b!"connect failed: " ++ x)).

(** One report per connection attempt: for candidates meant for this worker and a connection
    whose configuration it has, the first direct candidate that accepts a connection is
    reported as established and served, and no other is tried; when all of them refuse, the
    TURN relay is used if it can be set up, and otherwise exactly one failure is
    reported. A list without a direct candidate is not answered at all: the relay is tried only
    after a direct attempt failed. Without the configuration every reachable candidate is
    reported as established and none is served, and a failure is reported as well when
    any of the direct candidates refuses. *)
Theorem p2p_one_report env source id (cs : list P2PCandidate) s :
  writable env ->
  exists s', on_command' env (V2 (P2PCandidates source (a_client_id (args s.2)) id cs)) s = (Ret (), s')
    /\ engine s'.2 = engine s.2
    /\ match p2p_turn_config s.2 !! id with
       | Some rc =>
           match List.find (reachable env) cs with
           | Some c => sent s'.2 = sent s.2 ++ [established source id ConnDirect]
                       /\ spawned s'.2 = spawned s.2 ++ [SpawnDirect id (rc_data_plane_secret rc) (addr c)]
           | None =>
               if existsb is_direct cs then
                 match turn_fallback url_parse parse_addr env rc cs with
                 | Some (Ok _) =>
                     sent s'.2 = sent s.2 ++ [established source id ConnTURN]
                     /\ spawned s'.2 = spawned s.2 ++ [SpawnTurnStream id (rc_data_plane_secret rc)]
                 | _ => (exists x, sent s'.2 = sent s.2 ++ [failed source id x]) /\ spawned s'.2 = spawned s.2
                 end
               else sent s'.2 = sent s.2 /\ spawned s'.2 = spawned s.2
           end
       | None =>
           spawned s'.2 = spawned s.2
           /\ sent s'.2 = sent s.2
                ++ ((fun _ => established source id ConnDirect) <$> List.filter (reachable env) cs)
                ++ match last_error env cs None with Some x => [failed source id x] | None => [] end
       end.
Proof.
  intros Hok. rewrite on_command_v2. cbn [on_v2]. unfold on_p2p_candidates. cbn [fst snd].
  rewrite bool_decide_true by done. cbn [negb].
  destruct (p2p_turn_config s.2 !! id) as [rc|] eqn:Hrc.
  - pose proof (try_direct_spec env source id cs None (release_ports env s.1, s.2) rc Hok Hrc) as Ed.
    destruct (List.find (reachable env) cs) as [c|] eqn:Ef.
    + rewrite (wbind_Ret _ _ _ _ _ Ed). eexists. split; [reflexivity|]. done.
    + rewrite (wbind_Ret _ _ _ _ _ Ed). destruct (existsb is_direct cs) eqn:Ex.
      * destruct (last_error_direct env cs None) as [x Hx]; [|done|].
        { intros c Hc. eapply List.find_none in Ef; [exact Ef|by apply list_elem_of_In]. }
        rewrite Hx. erewrite wbind_Ret by reflexivity. cbn [snd]. rewrite Hrc. cbn [mbind option_bind].
        destruct (turn_fallback _ _ _ _ _) as [[[]|x2]|] eqn:Et.
        -- erewrite wbind_Ret by (by apply send_command_ok).
           eexists. split; [reflexivity|]. done.
        -- rewrite send_command_ok by done.
           eexists. split; [reflexivity|]. split; [done|]. split; [by eexists|done].
        -- rewrite send_command_ok by done.
           eexists. split; [reflexivity|]. split; [done|]. split; [by eexists|done].
      * rewrite last_error_relay by done. eexists. split; [reflexivity|]. done.
  - pose proof (try_direct_unconfigured env source id cs None (release_ports env s.1, s.2) Hok Hrc) as Ed.
    rewrite (wbind_Ret _ _ _ _ _ Ed). cbn [fst snd].
    destruct (last_error env cs None) as [x|].
    + erewrite wbind_Ret by reflexivity. cbn [snd p2p_turn_config set_sent]. rewrite Hrc. cbn [mbind option_bind].
      rewrite send_command_ok by done. eexists. split; [reflexivity|]. cbn. by rewrite <- app_assoc.
    + eexists. split; [reflexivity|]. cbn. by rewrite app_nil_r.
Qed.

(** The answer to a connection configuration: refused on a public bind address without the
    flag (though the configuration is stored and the use counted), an error when the socket
    cannot be bound or no address to advertise is found, and otherwise one list of candidates,
    the worker's own first, whose port is the bound socket's, a receiving task on that
    socket and, with a TURN server, a relaying task. Every error ends the connection. *)
Theorem p2p_config_spec env peer id stun turn user pass secret expires tls s :
  writable env ->
  let a := args s.2 in
  let m0 := release_ports env s.1 in
  let '(r, s') := on_command' env (V2 (P2PConnectionConfig peer id stun turn user pass secret expires tls)) s in
  p2p_turn_config s'.2 !! id = Some (mkRuntimeConfig turn user pass secret)
  /\ if is_public_bind_addr (p2p_udp_bind_addr a) && negb (p2p_public_listen a)
     then (exists x, r = Fail x) /\ sent s'.2 = sent s.2 /\ spawned s'.2 = spawned s.2
     else match udp_bind env (p2p_udp_port a) (udp_ports m0), get_advertise_ip env a with
          | Ok port, Ok ip =>
              r = Ret ()
              /\ sent s'.2 = sent s.2 ++ [V2 (P2PCandidates (a_client_id a) peer id
                               (host_candidate ip port :: srflx_candidate print_addr env stun))]
              /\ spawned s'.2 = spawned s.2 ++ SpawnUdp id secret port
                   :: from_option (fun url => [SpawnTurnUdp id secret url]) [] (head turn)
              /\ udp_ports s'.1 = udp_ports m0 ++ [port]
          | _, _ => (exists x, r = Fail x) /\ sent s'.2 = sent s.2 /\ spawned s'.2 = spawned s.2
          end.
Proof.
  intros Hok a m0. rewrite on_command_v2. cbn [on_v2]. unfold on_p2p_config. cbn [fst snd]. fold a m0.
  erewrite wbind_Ret by reflexivity. erewrite wbind_Ret by reflexivity. cbn [fst snd].
  destruct (is_public_bind_addr (p2p_udp_bind_addr a) && negb (p2p_public_listen a)).
  { cbn [wfail]. unfold wfail. split; [apply lookup_insert_eq|]. eauto. }
  erewrite wbind_Ret by reflexivity. cbn [fst snd].
  replace (udp_ports (if is_public_bind_addr (p2p_udp_bind_addr a) then _ else m0)) with (udp_ports m0)
    by (by destruct (is_public_bind_addr (p2p_udp_bind_addr a))).
  destruct (udp_bind env (p2p_udp_port a) (udp_ports m0)) as [port|x].
  2: { erewrite wbind_Fail by reflexivity. split; [apply lookup_insert_eq|]. eauto. }
  erewrite wbind_Ret by reflexivity.
  destruct (get_advertise_ip env a) as [ip|x].
  2: { erewrite wbind_Fail by reflexivity. split; [apply lookup_insert_eq|]. eauto. }
  erewrite wbind_Ret by reflexivity. erewrite wbind_Ret by reflexivity. erewrite wbind_Ret by reflexivity.
  destruct turn as [|url turn]; erewrite wbind_Ret by reflexivity; rewrite send_command_ok by done;
    cbn -[is_public_bind_addr]; (split; [apply lookup_insert_eq|]); split_and!; try done.
  all: by destruct (is_public_bind_addr (p2p_udp_bind_addr a)); rewrite <- ?app_assoc.
Qed.

(** The second connection on a fixed port: while the socket of an earlier connection is open
    the port cannot be bound again, and the error ends the control connection; sockets are
    not closed by that, so the same happens after reconnecting. *)
Theorem second_p2p_connection_ends_handler env peer id stun turn user pass secret expires tls cs last s :
  p2p_udp_port (args s.2) <> 0 -> p2p_udp_port (args s.2) ∈ udp_ports s.1 -> w_released env = [] ->
  (is_public_bind_addr (p2p_udp_bind_addr (args s.2)) && negb (p2p_public_listen (args s.2))) = false ->
  exists s', handler' ((env, V2 (P2PConnectionConfig peer id stun turn user pass secret expires tls)) :: cs) last s
    = (Fail (b!"P2P UDP bind failed on " ++ p2p_udp_bind_addr (args s.2)
             ++ b!": Address already in use (os error 98)"), s')
    /\ sent s'.2 = sent s.2 /\ p2p_udp_port (args s.2) ∈ udp_ports s'.1.
Proof.
  intros Hp Hin Hr Hpub. cbn [handler].
  assert (udp_ports (release_ports env s.1) = udp_ports s.1) as Hports.
  { unfold release_ports. cbn. rewrite Hr. clear. induction (udp_ports s.1) as [|p ps IH]; [done|].
    rewrite filter_cons, decide_True by set_solver. by rewrite IH. }
  eexists. split.
  - apply wbind_Fail. rewrite on_command_v2. cbn [on_v2]. unfold on_p2p_config. cbn [fst snd].
    erewrite wbind_Ret by reflexivity. erewrite wbind_Ret by reflexivity. cbn [fst snd].
    rewrite Hpub. erewrite wbind_Ret by reflexivity. cbn [fst snd].
    match goal with |- context [udp_bind env ?p ?l] => replace (udp_bind env p l) with (@Err Z b!"Address already in use (os error 98)") end.
    { erewrite wbind_Fail by reflexivity. reflexivity. }
    unfold udp_bind. rewrite (proj2 (Z.eqb_neq _ 0)) by done.
    rewrite bool_decide_true; [done|]. destruct (is_public_bind_addr (p2p_udp_bind_addr (args s.2))); cbn [udp_ports set_disk]; by rewrite Hports.
  - cbn [fst snd]. split; [done|]. destruct (is_public_bind_addr (p2p_udp_bind_addr (args s.2))); cbn [udp_ports set_disk]; by rewrite Hports.
Qed.
End Handler.

(** ** A concrete worker *)
Section Demo.
Definition demo_args : Args :=
  mkArgs b!"device-000000001" Llama None true 2048 512 99 SplitLayer 0 None
    b!"127.0.0.1" 40000 false (Some b!"10.0.0.7") 1.

(** Models are their files; all is well with the directories, and the second of two host
    candidates accepts connections. *)
Definition demo_eenv : EngineEnv bytes :=
  mkEngineEnv (fun _ => None) (fun _ => false) (fun p => Ok p) true true (fun c _ => Ok c) (fun _ => true).
Definition demo_wenv : WEnv (M := bytes) :=
  mkWEnv (fun _ => false) demo_eenv b!"/m" (Ok ()) (fun i => DownloaderFacts.demo_env (Nat.eqb i 2)) (Ok ())
    (fun _ => Ok ()) None (Ok 40000) [] (Ok b!"10.0.0.7") (fun _ _ => Err b!"no such host")
    (Err b!"timeout") (fun p => if bool_decide (p = b!"10.0.0.9:2") then Ok () else Err b!"refused")
    (fun _ _ => Err b!"no relay") (fun _ _ => Err b!"no relay") (fun _ => b!"transaction!").

Definition demo_machine : Machine (M := bytes) :=
  mkMachine (Downloader.mkWorld ∅ SecurityMetrics_default) (shared_new ModelStatusInfo_new) None None [].
Definition demo_pod (n : option Z) : PodModel :=
  mkPodModel 1 (Some b!"a.gguf") (Some b!"https://h/a.gguf") (Some (replicate 64 Byte.x61)) n.
Definition demo_params : Sampling := mkSampling 10 0x3f4ccccd 40 0x3f733333 0x3f8ccccd 64 1.
Definition demo_template (_ : bytes) (_ : list ChatMessage) : option bytes := None.
Definition demo_percentage (_ _ : Z) : f32 := 0.
Definition demo_url (_ : bytes) : result (bytes * option bytes * option Z) := Err b!"no url".
Definition demo_parse (_ : bytes) : option SocketAddr := None.
Definition demo_print (_ : SocketAddr) : bytes := [].
Definition demo_start : WState (M := bytes) := ClientWorker_new demo_eenv demo_args b!"/m" demo_machine.

(** The demo worker's command handler. *)
Definition demo_on_command :=
  on_command (demo_cpp 100) demo_template demo_hash demo_percentage (SC := StunFacts.demo_crypto) demo_url demo_parse demo_print.

Definition demo_engine : LlamaEngine bytes := with_runtime_config 2048 512 99 SplitLayer 0 None b!"/m".
Definition demo_path : bytes := b!"/m/a.gguf".

Lemma demo_loadable content : loadable demo_eenv demo_engine demo_path content content.
Proof. by repeat split. Qed.

Lemma demo_pod_of n :
  pod_of demo_hash demo_wenv (demo_pod n) b!"a.gguf" (replicate 64 Byte.x61) demo_content demo_path.
Proof. split; [done|by eexists|done|done|done|vm_compute; reflexivity]. Qed.

Lemma demo_downloads i :
  attempt_ok (download_model_config demo_path (replicate 64 Byte.x61)) demo_content (w_downloads demo_wenv i)
  /\ honest demo_content (w_downloads demo_wenv i).
Proof. cbn [w_downloads demo_wenv]. split; [|apply demo_honest]. split; [by destruct (i =? 2)%nat|]. split; [done|]. by destruct (i =? 2)%nat. Qed.

Lemma honest_pod_is_served_witness :
  exists s' e', demo_on_command demo_wenv (V1 (PullModelResult [demo_pod (Some 11)] None)) demo_start = (Ret (), s')
    /\ engine s'.2 = Some (EngineLlama e') /\ serving e' = Ok demo_content.
Proof.
  destruct (honest_pod_is_served (demo_cpp 100) demo_template demo_hash demo_percentage (SC := StunFacts.demo_crypto)
    demo_url demo_parse demo_print demo_wenv (demo_pod (Some 11)) b!"a.gguf" (replicate 64 Byte.x61)
    demo_content demo_path demo_content demo_engine demo_start)
    as (s' & e' & reports & H1 & H2 & H3 & _).
  - reflexivity.
  - reflexivity.
  - reflexivity.
  - apply demo_pod_of.
  - reflexivity.
  - intros n. reflexivity.
  - reflexivity.
  - by split.
  - apply demo_loadable.
  - cbv. intros [? _]. discriminate.
  - reflexivity.
  - reflexivity.
  - intros i _. apply demo_downloads.
  - exists 2%nat. split; [unfold MAX_RETRIES; lia|apply demo_responsive].
  - exists s', e'. split; [exact H1|]. split; [exact H2|exact H3].
Defined.

(** A worker whose engine serves [demo_content], reading three tokens of any prompt. *)
Definition demo_served : LlamaEngine bytes :=
  set_model_path (Some demo_path) (set_initialized true (set_cache true (Some demo_content) (Some demo_path) demo_engine)).
Definition demo_serving : WState (M := bytes) :=
  (demo_start.1, set_engine (Some (EngineLlama demo_served)) demo_start.2).
Definition demo_world : Scheduler.World := set_streams {[b!"t"]} (scheduler_new ∅).

Lemma task_answered_once_witness :
  exists opens fin s', inference_task (demo_cpp 3) demo_wenv b!"t" b!"hi" demo_params demo_serving = (Ret (), s')
    /\ sent s'.2 = V1 <$> opens ++ [fin] /\ final_of b!"t" fin.
Proof.
  destruct (task_answered_once (demo_cpp 3) demo_wenv b!"t" b!"hi" demo_params demo_serving 0 demo_world
    (fun _ => eq_refl)) as (opens & fin & s' & H1 & _ & _ & _ & H2 & _ & H3 & _).
  exists opens, fin, s'. split; [exact H1|]. split; [exact H2|exact H3].
Defined.

Lemma engine_answer_reaches_client_witness :
  exists pieces l evs u s',
    inference_task (demo_cpp 100) demo_wenv b!"t" b!"hi" demo_params demo_serving = (Ret (), s')
    /\ sent s'.2 = V1 <$> l /\ concat pieces = b!"CD"
    /\ events (feed 0 b!"t" (omap as_chunk l) demo_world) = pair b!"t" <$> evs ++ [Finish (Some u); EvDone].
Proof.
  destruct (engine_answer_reaches_client (demo_cpp 100) demo_wenv b!"t" b!"hi" demo_params demo_serving
    demo_served b!"CD" 2 2 0 demo_world (fun _ => eq_refl) eq_refl (not_elem_of_empty _)
    ltac:(vm_compute; reflexivity) (elem_of_singleton_2 _ _ eq_refl) (lookup_empty _))
    as (pieces & l & evs & u & s' & H1 & H2 & H3 & H4 & _).
  exists pieces, l, evs, u, s'. split; [exact H1|]. split; [exact H2|]. split; [exact H3|exact H4].
Defined.

Lemma cancellation_hits_only_the_next_task_witness :
  exists s1 s2 s3,
    demo_on_command demo_wenv (V1 (InferenceTask b!"t" b!"hi" demo_params)) demo_serving = (Ret (), s1)
    /\ demo_on_command demo_wenv (V1 (CancelInference b!"t")) s1 = (Ret (), s2)
    /\ demo_on_command demo_wenv (V1 (InferenceTask b!"t" b!"hi" demo_params)) s2 = (Ret (), s3)
    /\ sent s3.2 = sent s2.2 ++ [V1 (InferenceResultChunk b!"t" 0 [] Final true None 2 0 0 0)].
Proof.
  destruct (cancellation_hits_only_the_next_task (demo_cpp 100) demo_template demo_hash demo_percentage
    (SC := StunFacts.demo_crypto) demo_url demo_parse demo_print demo_wenv demo_wenv demo_wenv b!"t" b!"hi"
    demo_params b!"hi" demo_params demo_serving (fun _ => eq_refl) (fun _ => eq_refl))
    as (opens & fin & s1 & s2 & H1 & _ & _ & H2 & _ & _ & H3).
  destruct (H3 demo_served demo_content [104; 105] eq_refl eq_refl eq_refl) as (s3 & H4 & H5 & _).
  exists s1, s2, s3. split; [exact H1|]. split; [exact H2|]. split; [exact H4|exact H5].
Defined.

(** The file on the disk is not the one announced. *)
Definition demo_forged : WState (M := bytes) :=
  (set_disk (Downloader.mkWorld {[demo_path := b!"evil"]} SecurityMetrics_default) demo_start.1, demo_start.2).

Lemma existing_file_is_not_verified_witness :
  normalize_sha256 (replicate 64 Byte.x61) <> Ok (demo_hash b!"evil")
  /\ exists s' e', deal_with_pod_model demo_hash demo_percentage demo_wenv (demo_pod (Some 4)) demo_forged = (Ret (), s')
    /\ engine s'.2 = Some (EngineLlama e') /\ serving e' = Ok b!"evil".
Proof.
  split; [vm_compute; discriminate|].
  destruct (existing_file_is_not_verified demo_hash demo_percentage demo_wenv (demo_pod (Some 4)) b!"a.gguf"
    b!"https://h/a.gguf" (replicate 64 Byte.x61) b!"evil" demo_path b!"evil" demo_engine demo_forged
    eq_refl eq_refl eq_refl eq_refl eq_refl (lookup_singleton_eq _ _) eq_refl eq_refl
    ltac:(by split) (demo_loadable _) eq_refl) as (s' & e' & H1 & H2 & H3 & _).
  exists s', e'. split; [exact H1|]. split; [exact H2|exact H3].
Defined.

(** One connection on which the pod's model was pulled and served. *)
Definition demo_connection : list (EngineEnv bytes * list (WEnv * Command) * ReadError) :=
  [(demo_eenv, [(demo_wenv, V1 (PullModelResult [demo_pod (Some 11)] None))], ConnectionLost)].

Lemma demo_connected :
  exists m', connections (demo_cpp 100) demo_template demo_hash demo_percentage (SC := StunFacts.demo_crypto)
      demo_url demo_parse demo_print demo_connection demo_args b!"/m" demo_machine = Some m'
    /\ model_status (shared m') = mkStatus (Some demo_path) b!"Loaded" true None.
Proof.
  destruct (pull_command_serves (demo_cpp 100) demo_template demo_hash demo_percentage (SC := StunFacts.demo_crypto)
    demo_url demo_parse demo_print demo_wenv (demo_pod (Some 11)) b!"a.gguf" (replicate 64 Byte.x61)
    demo_content demo_path demo_content demo_engine demo_start eq_refl eq_refl eq_refl (demo_pod_of _) eq_refl
    (fun _ => eq_refl) eq_refl ltac:(by split) (demo_loadable _) ltac:(cbv; intros [? _]; discriminate)
    eq_refl (fun _ => eq_refl) (fun i _ => demo_downloads i))
    as (s' & e' & reports & H1 & _ & _ & _ & H2 & _).
  { exists 2%nat. split; [unfold MAX_RETRIES; lia|apply demo_responsive]. }
  exists s'.1. split; [|exact H2]. cbn [connections demo_connection].
  change (ClientWorker_new demo_eenv demo_args b!"/m" demo_machine) with demo_start. cbn [handler].
  rewrite (wbind_Ret _ _ _ _ _ H1). done.
Qed.

Lemma reconnect_loses_model_witness :
  exists m' s', model_status (shared m') = mkStatus (Some demo_path) b!"Loaded" true None
    /\ let s := ClientWorker_new demo_eenv demo_args b!"/m" m' in
    demo_on_command demo_wenv (V1 (LoginResult true [demo_pod (Some 11)] None)) s = (Ret (), s')
    /\ engine s'.2 = engine s.2
    /\ exists s2, demo_on_command demo_wenv (V1 (InferenceTask b!"t" b!"hi" demo_params)) s = (Ret (), s2)
      /\ sent s2.2 = [failed_chunk b!"t" b!"Model not loaded - call load_model() first"].
Proof.
  destruct demo_connected as (m' & Hc & Hst).
  destruct (reconnect_loses_model (demo_cpp 100) demo_template demo_hash demo_percentage
    (SC := StunFacts.demo_crypto) demo_url demo_parse demo_print demo_connection demo_eenv demo_args b!"/m"
    demo_machine m' eq_refl eq_refl eq_refl eq_refl Hc) as (_ & _ & _ & H1 & H2 & _).
  destruct (H1 demo_wenv (demo_pod (Some 11)) b!"a.gguf" b!"https://h/a.gguf" (replicate 64 Byte.x61)
    eq_refl eq_refl eq_refl eq_refl) as (s' & H3 & H4 & _).
  - rewrite Hst. reflexivity.
  - rewrite Hst. reflexivity.
  - destruct (H2 demo_wenv b!"t" b!"hi" demo_params (fun _ => eq_refl)) as (s2 & H5 & _ & H6).
    exists m', s'. split; [exact Hst|]. split; [exact H3|]. split; [exact H4|]. exists s2. split; [exact H5|exact H6].
Defined.

(** A connection's configuration is known and the second candidate accepts. *)
Definition demo_p2p : WState (M := bytes) :=
  (demo_start.1, set_config {[b!"c" := mkRuntimeConfig [] [] [] b!"secret"]} demo_start.2).
Definition demo_candidates : list P2PCandidate :=
  [mkP2PCandidate Relay Udp b!"10.0.0.9:1" 1; mkP2PCandidate Host Udp b!"10.0.0.9:1" 200;
   mkP2PCandidate Srflx Udp b!"10.0.0.9:2" 100].

Lemma p2p_one_report_witness :
  exists s', demo_on_command demo_wenv (V2 (P2PCandidates b!"peer" b!"device-000000001" b!"c" demo_candidates)) demo_p2p
      = (Ret (), s')
    /\ sent s'.2 = [established b!"peer" b!"c" ConnDirect]
    /\ spawned s'.2 = [SpawnDirect b!"c" b!"secret" b!"10.0.0.9:2"].
Proof.
  destruct (p2p_one_report (demo_cpp 100) demo_template demo_hash demo_percentage (SC := StunFacts.demo_crypto)
    demo_url demo_parse demo_print demo_wenv b!"peer" b!"c" demo_candidates demo_p2p (fun _ => eq_refl))
    as (s' & H1 & _ & H2). exists s'. split; [exact H1|exact H2].
Defined.

Lemma second_p2p_connection_ends_handler_witness :
  exists s', handler (demo_cpp 100) demo_template demo_hash demo_percentage (SC := StunFacts.demo_crypto)
      demo_url demo_parse demo_print
      [(demo_wenv, V2 (P2PConnectionConfig b!"peer" b!"d" [] [] [] [] b!"secret" 0 false))] ConnectionLost
      (set_ports [40000] demo_start.1, demo_start.2)
    = (Fail b!"P2P UDP bind failed on 127.0.0.1:40000: Address already in use (os error 98)", s').
Proof.
  destruct (second_p2p_connection_ends_handler (demo_cpp 100) demo_template demo_hash demo_percentage
    (SC := StunFacts.demo_crypto) demo_url demo_parse demo_print demo_wenv b!"peer" b!"d" [] [] [] [] b!"secret"
    0 false [] ConnectionLost (set_ports [40000] demo_start.1, demo_start.2))
    as (s' & H & _); [discriminate|left; reflexivity|reflexivity|reflexivity|].
  exists s'. exact H.
Defined.

Lemma p2p_config_spec_witness :
  exists s', demo_on_command demo_wenv (V2 (P2PConnectionConfig b!"peer" b!"d" [] [] [] [] b!"secret" 0 false)) demo_start
      = (Ret (), s')
    /\ sent s'.2 = [V2 (P2PCandidates b!"device-000000001" b!"peer" b!"d" [host_candidate b!"10.0.0.7" 40000])].
Proof.
  pose proof (p2p_config_spec (demo_cpp 100) demo_template demo_hash demo_percentage (SC := StunFacts.demo_crypto)
    demo_url demo_parse demo_print demo_wenv b!"peer" b!"d" [] [] [] [] b!"secret" 0 false demo_start
    (fun _ => eq_refl)) as H.
  unfold demo_on_command. destruct (on_command _ _ _ _ _ _ _ _ _ _) as [r s'].
  destruct H as (_ & -> & H & _). exists s'. split; [reflexivity|exact H].
Defined.
End Demo.
