(* ===== verification/Api.v ===== *)
(** * API server: records and administration ([gpuf-s/src/api_server])

    The handlers of the administration routes over the tables they keep: application
    packages ([apk.rs], [db/apk.rs]), the model catalogue ([models.rs], [db/models.rs]),
    registering and editing clients ([client.rs], [db/client.rs], [db/stats.rs]) and the
    progress of model downloads. A statement on a table is a function of it, with the
    column types, checks and unique keys of [scripts/db.sql]; a database that cannot be
    reached fails every statement. Values drawn from a sequence, the time of a statement
    and the text of floats are arguments. *)
From S2P Require Import Prelude Wire Ids Text Scheduler Catalog Session.
From Stdlib Require Import ZArith Lia String.
From Stdlib Require Import Strings.Byte.
From stdpp Require Import base list gmap sorting pretty.

Local Open Scope Z_scope.
Local Open Scope bytes_scope.

(** ** Text of requests and columns *)

(** [str::parse] to a signed integer of [w] bits. *)
Definition parse_int (w : Z) (s : bytes) : option Z :=
  match s with
  | b :: (_ :: _ as r) =>
      if bool_decide (b = Byte.x2d)
      then v ← digits_value r; if v <=? 2 ^ (w - 1) then Some (- v) else None
      else parse_uint (w - 1) s
  | _ => parse_uint (w - 1) s
  end.

Definition parse_bool (s : bytes) : option bool :=
  if bool_decide (s = b!"true") then Some true
  else if bool_decide (s = b!"false") then Some false else None.

(** The characters of a string. *)
Fixpoint chars_fuel (fuel : nat) (s : bytes) : list bytes :=
  match fuel, s with
  | S fuel, _ :: _ => let n := (utf8_step s).2 in take n s :: chars_fuel fuel (drop n s)
  | _, _ => []
  end.
Definition chars (s : bytes) : list bytes := chars_fuel (length s) s.

(** A text the database accepts: it holds no NUL. *)
Definition pg_text (s : bytes) : option bytes :=
  if existsb (fun b => bool_decide (b = Byte.x00)) s then None else Some s.

(** Storing into [VARCHAR(n)]: what is longer is refused, unless only blanks are lost. *)
Definition varchar (n : Z) (s : bytes) : option bytes :=
  s ← pg_text s;
  let cs := chars s in
  if blen cs <=? n then Some s
  else if forallb (fun c => bool_decide (c = [Byte.x20])) (drop (Z.to_nat n) cs)
  then Some (concat (take (Z.to_nat n) cs)) else None.

(** Storing into [CHAR(n)], which pads with blanks. *)
Definition char_n (n : Z) (s : bytes) : option bytes :=
  s ← varchar n s; Some (s ++ replicate (Z.to_nat n - length (chars s)) Byte.x20).

(** A nullable column: outer [None] when the value cannot be stored. *)
Definition nullable (store : bytes -> option bytes) (o : option bytes) : option (option bytes) :=
  match o with None => Some None | Some s => Some <$> store s end.

Definition coalesce {A} (a b : option A) : option A := match a with Some _ => a | None => b end.

(** ** Answers *)
Record ApiResponse (A : Type) := mkResponse {
  success : bool; resp_data : option A; message : bytes; resp_timestamp : Z }.
Arguments mkResponse {A}.
Arguments success {A}.
Arguments resp_data {A}.
Arguments message {A}.

Definition ApiResponse_success {A} (now : Z) (a : A) : ApiResponse A :=
  mkResponse true (Some a) b!"success" now.
Definition ApiResponse_error {A} (now : Z) (msg : bytes) : ApiResponse A :=
  mkResponse false None msg now.

(** A handler answers with a document or with a bare status code. *)
Inductive Reply (A : Type) := Json (r : ApiResponse A) | StatusCode (code : Z).
Arguments Json {A}.
Arguments StatusCode {A}.

Definition BAD_REQUEST : Z := 400.
Definition INTERNAL_SERVER_ERROR : Z := 500.
Definition db_error : bytes := b!"database error".

Abbreviation Query := (gmap bytes bytes).

(** ** Application packages *)
Record ApkVersion := mkApk {
  apk_id : Z; package_name : bytes; version_name : bytes; version_code : Z;
  apk_download_url : bytes; channel : option bytes; min_os_version : option bytes;
  sha256 : option bytes; file_size_bytes : option Z; apk_is_active : bool;
  released_at : option Z; created_at : Z; updated_at : Z }.

Record UpsertApkRequest := mkUpsertApk {
  ua_package_name : bytes; ua_version_name : bytes; ua_version_code : Z;
  ua_download_url : bytes; ua_channel : option bytes; ua_min_os_version : option bytes;
  ua_sha256 : option bytes; ua_file_size_bytes : option Z; ua_is_active : option bool;
  ua_released_at : option Z }.

(** [apk_versions], under its unique key. *)
Abbreviation ApkTable := (gmap (bytes * Z) ApkVersion).

(** The row a request describes, as the columns take it; [id] comes from the sequence. *)
Definition apk_insert_row (now id : Z) (r : UpsertApkRequest) : option ApkVersion :=
  package ← varchar 255 (ua_package_name r);
  version ← varchar 64 (ua_version_name r);
  url ← pg_text (ua_download_url r);
  ch ← nullable (varchar 32) (ua_channel r);
  os ← nullable (varchar 32) (ua_min_os_version r);
  sha ← nullable (char_n 64) (ua_sha256 r);
  if 0 <? ua_version_code r
  then Some (mkApk id package version (ua_version_code r) url ch os sha (ua_file_size_bytes r)
               (default true (ua_is_active r)) (ua_released_at r) now now)
  else None.

(** [ON CONFLICT (package_name, version_code) DO UPDATE]. *)
Definition apk_merge (now : Z) (is_active : option bool) (new old : ApkVersion) : ApkVersion :=
  mkApk (apk_id old) (package_name old) (version_name new) (version_code old)
    (apk_download_url new) (coalesce (channel new) (channel old))
    (coalesce (min_os_version new) (min_os_version old)) (coalesce (sha256 new) (sha256 old))
    (coalesce (file_size_bytes new) (file_size_bytes old))
    (default (apk_is_active old) is_active) (coalesce (released_at new) (released_at old))
    (created_at old) now.

Definition upsert_apk_version (up : bool) (now id : Z) (r : UpsertApkRequest) (t : ApkTable)
    : result ApkVersion * ApkTable :=
  if negb up then (Err db_error, t)
  else match apk_insert_row now id r with
       | None => (Err db_error, t)
       | Some new =>
           let k := (package_name new, version_code new) in
           let row := match t !! k with
                      | Some old => apk_merge now (ua_is_active r) new old
                      | None => new
                      end in
           (Ok row, <[k := row]> t)
       end.

Definition get_apk_version (up : bool) (package : bytes) (code : Z) (t : ApkTable)
    : result (option ApkVersion) :=
  if negb up then Err db_error
  else let? package := ok_or (pg_text package) db_error in Ok (t !! (package, code)).

(** [DESC NULLS LAST] and [DESC]. *)
Definition desc_nulls_last (a b : option Z) : bool :=
  match a, b with Some x, Some y => y <? x | Some _, None => true | None, _ => false end.

(** [ORDER BY version_code DESC, released_at DESC NULLS LAST, created_at DESC]. *)
Definition apk_before (a b : ApkVersion) : Prop :=
  version_code b < version_code a
  \/ (version_code a = version_code b
      /\ (desc_nulls_last (released_at a) (released_at b) = true
          \/ (released_at a = released_at b /\ created_at b <= created_at a))).

#[global] Instance apk_before_dec a b : Decision (apk_before a b).
Proof. unfold apk_before. solve_decision. Defined.

Definition apk_matches (package ch : option bytes) (is_active : option bool) (v : ApkVersion)
    : bool :=
  opt_all package (fun p => bool_decide (package_name v = p))
  && opt_all ch (fun c => bool_decide (channel v = Some c))
  && opt_all is_active (fun a => Bool.eqb (apk_is_active v) a).

(** Rows that the order does not tell apart come in any order; the model picks one. *)
Definition list_apk_versions (up : bool) (package ch : option bytes) (is_active : option bool)
    (limit : option Z) (t : ApkTable) : result (list ApkVersion) :=
  if negb up then Err db_error
  else let? package := ok_or (nullable pg_text package) db_error in
       let? ch := ok_or (nullable pg_text ch) db_error in
       let limit := Z.min (default 50 limit) 200 in
       Ok (take (Z.to_nat limit)
             (merge_sort apk_before
                (filter (fun v => apk_matches package ch is_active v = true)
                   (map_to_list t).*2))).

(** [validate]: lengths in characters. *)
Definition length_in (min max : Z) (s : bytes) : bool :=
  (min <=? blen (chars s)) && (blen (chars s) <=? max).

Definition validate_apk (r : UpsertApkRequest) : bool :=
  length_in 1 255 (ua_package_name r) && length_in 1 64 (ua_version_name r)
  && (1 <=? blen (chars (ua_download_url r))).

Definition is_empty (s : bytes) : bool := bool_decide (s = []).

Definition upsert_apk (up : bool) (now id : Z) (r : UpsertApkRequest) (t : ApkTable)
    : Reply ApkVersion * ApkTable :=
  if negb (validate_apk r) then (StatusCode BAD_REQUEST, t)
  else if is_empty (ua_package_name r) || is_empty (ua_version_name r)
          || is_empty (ua_download_url r) || (ua_version_code r <=? 0)
  then (StatusCode BAD_REQUEST, t)
  else match upsert_apk_version up now id r t with
       | (Ok v, t) => (Json (ApiResponse_success now v), t)
       | (Err _, t) => (StatusCode INTERNAL_SERVER_ERROR, t)
       end.

Definition get_apk (up : bool) (now : Z) (params : Query) (t : ApkTable)
    : Reply (option ApkVersion) :=
  match params !! b!"package_name", (params !! b!"version_code" ≫= parse_int 64) with
  | Some package, Some code =>
      match get_apk_version up package code t with
      | Ok v => Json (ApiResponse_success now v)
      | Err _ => StatusCode INTERNAL_SERVER_ERROR
      end
  | _, _ => StatusCode BAD_REQUEST
  end.

Definition list_apk (up : bool) (now : Z) (params : Query) (t : ApkTable)
    : Reply (list ApkVersion) :=
  match list_apk_versions up (params !! b!"package_name") (params !! b!"channel")
          (params !! b!"is_active" ≫= parse_bool) (params !! b!"limit" ≫= parse_uint 32) t with
  | Ok l => Json (ApiResponse_success now l)
  | Err _ => StatusCode INTERNAL_SERVER_ERROR
  end.

(** ** Model catalogue *)

(** A row of [client_models]; the column [is_active] may be NULL. *)
Record ModelRow := mkModelRow {
  mr_id : Z; mr_name : bytes; mr_version : bytes; mr_version_code : Z;
  mr_is_active : option bool; mr_min_memory_mb : option Z; mr_min_gpu_memory_gb : option Z;
  mr_created_at : Z; mr_download_url : option bytes; mr_checksum : option bytes;
  mr_expected_size : option Z; mr_engine_type : Z }.

Record CreateOrUpdateModelRequest := mkModelRequest {
  mq_name : bytes; mq_version : bytes; mq_version_code : Z; mq_engine_type : Z;
  mq_is_active : option bool; mq_min_memory_mb : option Z; mq_min_gpu_memory_gb : option Z;
  mq_download_url : option bytes; mq_checksum : option bytes; mq_expected_size : option Z }.

(** The row the statement proposes: [is_active] is named in it, so its default is not used. *)
Definition model_insert_row (now id : Z) (r : CreateOrUpdateModelRequest) : option ModelRow :=
  name ← varchar 100 (mq_name r);
  version ← varchar 50 (mq_version r);
  url ← nullable pg_text (mq_download_url r);
  sum ← nullable (varchar 128) (mq_checksum r);
  if 0 <? mq_version_code r
  then Some (mkModelRow id name version (mq_version_code r) (mq_is_active r)
               (mq_min_memory_mb r) (mq_min_gpu_memory_gb r) now url sum (mq_expected_size r)
               (mq_engine_type r))
  else None.

Definition model_merge (new old : ModelRow) : ModelRow :=
  mkModelRow (mr_id old) (mr_name old) (mr_version old) (mr_version_code new)
    (coalesce (mr_is_active new) (mr_is_active old)) (mr_min_memory_mb new)
    (mr_min_gpu_memory_gb new) (mr_created_at old) (mr_download_url new) (mr_checksum new)
    (mr_expected_size new) (mr_engine_type new).

Definition model_key (r : ModelRow) : bytes * bytes := (mr_name r, mr_version r).

(** [UNIQUE (name, version_code)], against the rows of other versions. *)
Definition code_taken (new : ModelRow) (t : list ModelRow) : bool :=
  existsb (fun r => negb (bool_decide (model_key r = model_key new))
                    && bool_decide (mr_name r = mr_name new)
                    && (mr_version_code r =? mr_version_code new)) t.

Definition create_or_update_model_db (up : bool) (now id : Z) (r : CreateOrUpdateModelRequest)
    (t : list ModelRow) : result () * list ModelRow :=
  if negb up then (Err db_error, t)
  else match model_insert_row now id r with
       | None => (Err db_error, t)
       | Some new =>
           if code_taken new t then (Err db_error, t)
           else if existsb (fun o => bool_decide (model_key o = model_key new)) t
           then (Ok (), (fun o => if bool_decide (model_key o = model_key new)
                                  then model_merge new o else o) <$> t)
           else (Ok (), t ++ [new])
       end.

Definition create_or_update_model (up : bool) (now id : Z) (r : CreateOrUpdateModelRequest)
    (t : list ModelRow) : Reply () * list ModelRow :=
  if is_empty (mq_name r) || is_empty (mq_version r) then (StatusCode BAD_REQUEST, t)
  else match create_or_update_model_db up now id r t with
       | (Ok _, t) => (Json (ApiResponse_success now ()), t)
       | (Err _, t) => (StatusCode INTERNAL_SERVER_ERROR, t)
       end.

(** A row as the query decodes it: a NULL in [is_active] does not fit its [bool]. *)
Definition decode_model (r : ModelRow) : option Models :=
  a ← mr_is_active r;
  Some (mkModels (mr_id r) (mr_name r) (mr_version r) (mr_version_code r) a
          (mr_min_memory_mb r) (mr_min_gpu_memory_gb r) (mr_created_at r) (mr_download_url r)
          (mr_checksum r) (mr_expected_size r) (mr_engine_type r)).

(** The WHERE clause on the columns; a comparison with NULL is not true. *)
Definition row_matches (is_active : option bool) (engine_type min_gpu_memory_gb : option Z)
    (r : ModelRow) : bool :=
  opt_all is_active (fun a => bool_decide (mr_is_active r = Some a))
  && opt_all min_gpu_memory_gb (fun mem =>
       match mr_min_gpu_memory_gb r with None => true | Some g => g <=? mem end)
  && opt_all engine_type (fun e => mr_engine_type r =? e).

Definition row_rank (r : ModelRow) : Z := default 0 (mr_min_gpu_memory_gb r).
Definition row_before (a b : ModelRow) : Prop :=
  row_rank b < row_rank a
  \/ (row_rank a = row_rank b /\ (mr_version_code b < mr_version_code a
      \/ (mr_version_code a = mr_version_code b /\ mr_created_at b <= mr_created_at a))).

#[global] Instance row_before_dec a b : Decision (row_before a b).
Proof. unfold row_before. solve_decision. Defined.

(** [get_models_list] on the table with its NULLs: one row that does not decode fails the
    query. *)
Definition models_query (up : bool) (is_active : option bool)
    (engine_type min_gpu_memory_gb : option Z) (t : list ModelRow) : result (list Models) :=
  if negb up then Err db_error
  else ok_or (mapM decode_model
                (merge_sort row_before
                   (filter (fun r => row_matches is_active engine_type min_gpu_memory_gb r = true)
                      t))) db_error.

Record ModelResponse := mkModelResponse {
  ms_id : Z; ms_name : bytes; ms_version : bytes; ms_version_code : Z; ms_is_active : bool;
  ms_min_memory_mb : option Z; ms_min_gpu_memory_gb : option Z; ms_created_at : Z;
  ms_download_url : option bytes; ms_checksum : option bytes; ms_expected_size : option Z }.

Definition model_response (m : Models) : ModelResponse :=
  mkModelResponse (mo_id m) (mo_name m) (mo_version m) (mo_version_code m) (mo_is_active m)
    (mo_min_memory_mb m) (mo_min_gpu_memory_gb m) (mo_created_at m) (mo_download_url m)
    (mo_checksum m) (mo_expected_size m).

Definition get_models (up : bool) (now : Z) (params : Query) (t : list ModelRow)
    : Reply (list ModelResponse) :=
  match models_query up (params !! b!"is_active" ≫= parse_bool) None
          (params !! b!"min_gpu_memory_gb" ≫= parse_int 32) t with
  | Ok l => Json (ApiResponse_success now (model_response <$> l))
  | Err _ => StatusCode INTERNAL_SERVER_ERROR
  end.

(** ** Clients *)

(** A row of [gpu_assets]; the columns of the recommended model are left out. *)
Record AssetRow := mkAssetRow {
  ar_user_id : option bytes; ar_client_name : option bytes; ar_client_status : option bytes;
  ar_valid_status : option bytes; ar_os_type : option bytes; ar_created_at : Z;
  ar_updated_at : Z }.
Abbreviation AssetTable := (gmap bytes AssetRow).

Record CreateClientRequest := mkCreateClient {
  cc_user_id : bytes; cc_client_id : bytes; cc_client_status : bytes;
  cc_os_type : option bytes; cc_name : bytes }.

Record EditClientRequest := mkEditClient {
  ec_user_id : bytes; ec_client_id : bytes; ec_os_type : option bytes; ec_name : option bytes;
  ec_client_status : option bytes; ec_valid_status : option bytes;
  ec_model : option bytes; ec_model_version : option bytes }.

Record ClientInfoResponse := mkClientInfoResponse {
  ci_client_id : bytes; ci_authed : bool; ci_connected_at : Z }.

Section Clients.
Context `{H : Hex}.

(** The insert leaves [valid_status] and [os_type] to their defaults; on a known client id
    it sets name and status, whoever owns the client. *)
Definition upsert_client_info (up : bool) (now : Z) (user_id : bytes) (client_id : ClientId)
    (client_status name : bytes) (t : AssetTable) : result () * AssetTable :=
  if negb up then (Err db_error, t)
  else match pg_text user_id, pg_text client_status, pg_text name with
  | Some user_id, Some client_status, Some name =>
      (Ok (), <[client_id := match t !! client_id with
         | Some o => mkAssetRow (ar_user_id o) (Some name) (Some client_status)
                       (ar_valid_status o) (ar_os_type o) (ar_created_at o) now
         | None => mkAssetRow (Some user_id) (Some name) (Some client_status)
                     (Some b!"valid") None now now
         end]> t)
  | _, _, _ => (Err db_error, t)
  end.

Definition insert_client (up : bool) (now : Z) (r : CreateClientRequest) (t : AssetTable)
    : Reply (list ClientInfoResponse) * AssetTable :=
  if is_empty (cc_user_id r) || is_empty (cc_client_id r) then (StatusCode BAD_REQUEST, t)
  else match ClientId_from_str (cc_client_id r) with
  | Err _ => (StatusCode BAD_REQUEST, t)
  | Ok client_id =>
      let t := (upsert_client_info up now (cc_user_id r) client_id (cc_client_status r)
                  (cc_name r) t).2 in
      (Json (ApiResponse_success now []), t)
  end.

Definition err_invalid_client : bytes := b!"Invalid client_id".

(** [UPDATE ... WHERE user_id = $ AND client_id = $]: no row, or the row of that owner. *)
Definition update_gpu_asset_status (up : bool) (now : Z) (p : EditClientRequest)
    (t : AssetTable) : result bytes * AssetTable :=
  match ClientId_from_str (ec_client_id p) with
  | Err _ => (Err err_invalid_client, t)
  | Ok client_id =>
      if negb up then (Err db_error, t)
      else match nullable pg_text (ec_os_type p), nullable pg_text (ec_name p),
                 nullable pg_text (ec_client_status p), nullable pg_text (ec_valid_status p),
                 pg_text (ec_user_id p) with
      | Some os, Some name, Some status, Some valid, Some user =>
          (Ok (ec_client_id p),
           match t !! client_id with
           | Some o =>
               if bool_decide (ar_user_id o = Some user)
               then <[client_id :=
                        mkAssetRow (ar_user_id o) (coalesce name (ar_client_name o))
                          (coalesce status (ar_client_status o))
                          (coalesce valid (ar_valid_status o)) (coalesce os (ar_os_type o))
                          (ar_created_at o) now]> t
               else t
           | None => t
           end)
      | _, _, _, _, _ => (Err db_error, t)
      end
  end.

Definition valid_statuses : list bytes :=
  [b!"active"; b!"online"; b!"offline"; b!"maintenance"; b!"error"].

Definition edit_client_info (up : bool) (now : Z) (p : EditClientRequest) (t : AssetTable)
    : Reply () * AssetTable :=
  if is_empty (ec_user_id p) || is_empty (ec_client_id p) then (StatusCode BAD_REQUEST, t)
  else if negb (opt_all (ec_client_status p) (fun s => bool_decide (s ∈ valid_statuses)))
  then (StatusCode BAD_REQUEST, t)
  else if negb (opt_all (ec_valid_status p)
                  (fun s => bool_decide (s = b!"valid") || bool_decide (s = b!"invalid")))
  then (StatusCode BAD_REQUEST, t)
  else match update_gpu_asset_status up now p t with
       | (Ok _, t) => (Json (ApiResponse_success now ()), t)
       | (Err e, t) => (Json (ApiResponse_error now e), t)
       end.
End Clients.

(** The columns of [gpu_assets] that sessions read. *)
Definition asset_of (r : AssetRow) : Asset :=
  mkAsset (bool_decide (ar_valid_status r = Some b!"valid")) (default [] (ar_client_status r))
    (ar_os_type r) (ar_updated_at r).

(** ** Download progress *)
Record ModelDownloadProgressResponse := mkProgress {
  pr_client_id : bytes; pr_model_name : option bytes; pr_downloaded_bytes : option Z;
  pr_total_bytes : option Z; pr_percentage : option f32; pr_speed_bps : option Z;
  pr_status : option bytes; pr_error : option bytes; pr_timestamp : option Z }.

Definition no_progress (client_id : bytes) : ModelDownloadProgressResponse :=
  mkProgress client_id None None None None None None None None.

Section Progress.
Context (parse_f32 : bytes -> option f32).

Definition set_field (p : ModelDownloadProgressResponse) (f : bytes * bytes)
    : ModelDownloadProgressResponse :=
  let '(mkProgress id n d t pc sp st e ts) := p in
  let '(field, value) := f in
  if bool_decide (field = b!"model_name") then mkProgress id (Some value) d t pc sp st e ts
  else if bool_decide (field = b!"downloaded_bytes")
  then mkProgress id n (parse_uint 64 value) t pc sp st e ts
  else if bool_decide (field = b!"total_bytes")
  then mkProgress id n d (parse_uint 64 value) pc sp st e ts
  else if bool_decide (field = b!"percentage")
  then mkProgress id n d t (parse_f32 value) sp st e ts
  else if bool_decide (field = b!"speed_bps")
  then mkProgress id n d t pc (parse_uint 64 value) st e ts
  else if bool_decide (field = b!"status") then mkProgress id n d t pc sp (Some value) e ts
  else if bool_decide (field = b!"error") then mkProgress id n d t pc sp st (Some value) ts
  else if bool_decide (field = b!"timestamp")
  then mkProgress id n d t pc sp st e (parse_int 64 value)
  else p.

(** [HGETALL client:{id}:model_download]. Sessions write the key with the printed id, so
    the hash a query names is that of the client whose id prints as the query's text. *)
Definition progress_hash `{Hex} (now : Z) (client_id : bytes)
    (redis : gmap bytes (list (bytes * bytes) * Z)) : list (bytes * bytes) :=
  match hex_decode client_id with
  | Some id =>
      if bool_decide (ClientId_display id = client_id)
      then match redis !! id with
           | Some (fields, expiry) => if now <? expiry then fields else []
           | None => []
           end
      else []
  | None => []
  end.

(** [redis_get_connection]: whether a connection can be had; [hgetall_ok]: whether the
    command succeeds on it. *)
Definition get_model_download_progress `{Hex} (connection hgetall_ok : bool) (now : Z)
    (client_id : bytes) (redis : gmap bytes (list (bytes * bytes) * Z))
    : Reply ModelDownloadProgressResponse :=
  if negb connection then StatusCode INTERNAL_SERVER_ERROR
  else
    let fields := if hgetall_ok then progress_hash now client_id redis else [] in
    Json (ApiResponse_success now (fold_left set_field fields (no_progress client_id))).
End Progress.

(** ** Facts *)
Module ApiFacts.

(** *** Numbers as text *)

Lemma digit_value (d : N) : (d < 10)%N ->
  byte_in 48 57 (Ascii.byte_of_ascii (pretty_N_char d)) = true
  /\ Z_of_byte (Ascii.byte_of_ascii (pretty_N_char d)) - 48 = Z.of_N d.
Proof.
  intros Hd. assert (d ∈ [0; 1; 2; 3; 4; 5; 6; 7; 8; 9]%N) as Hin by (set_unfold; lia).
  set_unfold in Hin. repeat destruct Hin as [->|Hin]; try done; vm_compute; done.
Qed.

Lemma digits_value_app s k : digits_value (s ++ k)
  = fold_left (fun acc b => v ← acc;
       if byte_in 48 57 b then Some (v * 10 + (Z_of_byte b - 48)) else None) k (digits_value s).
Proof. apply fold_left_app. Qed.

Lemma digits_value_go (x : N) (s : string) :
  digits_value (bs (pretty_N_go x s))
  = fold_left (fun acc b => v ← acc;
       if byte_in 48 57 b then Some (v * 10 + (Z_of_byte b - 48)) else None)
      (bs s) (Some (Z.of_N x)).
Proof.
  revert s. induction (N.lt_wf_0 x) as [x _ IH]. intros s.
  destruct (decide (0 < x)%N) as [Hx|Hx].
  - rewrite pretty_N_go_step by done. rewrite IH by (by apply N.div_lt).
    assert (x mod 10 < 10)%N as Hm by (apply N.mod_lt; lia).
    destruct (digit_value _ Hm) as [H1 H2].
    change (bs (String.String (pretty_N_char (x mod 10)%N) s)) with (Ascii.byte_of_ascii (pretty_N_char (x mod 10)%N) :: bs s).
    cbn [fold_left mbind option_bind]. rewrite H1, H2.
    do 2 f_equal. rewrite (N.div_mod x 10) at 3 by lia. lia.
  - assert (x = 0%N) as -> by lia. rewrite pretty_N_go_0. reflexivity.
Qed.

Lemma digits_value_dec z : 0 <= z -> digits_value (dec z) = Some z.
Proof.
  intros Hz. unfold dec. destruct z as [|p|p]; [reflexivity| |lia].
  change (pretty.pretty (Z.pos p)) with (pretty_N_go (N.pos p) "").
  rewrite digits_value_go. reflexivity.
Qed.

Lemma dec_digits z : 0 <= z -> exists b r, dec z = b :: r /\ byte_in 48 57 b = true.
Proof.
  intros Hz. pose proof (digits_value_dec z Hz) as H.
  destruct (dec z) as [|b r] eqn:E.
  - destruct (decide (z = 0)) as [->|]; [done|]. cbn in H. congruence.
  - exists b, r. split; [done|]. destruct (byte_in 48 57 b) eqn:Hb; [done|].
    unfold digits_value in H. cbn in H. rewrite Hb in H.
    exfalso. clear E Hb. revert H. induction r as [|c r IH]; cbn; [done|exact IH].
Qed.

Lemma parse_uint_dec w z : 0 <= z < 2 ^ w -> parse_uint w (dec z) = Some z.
Proof.
  intros Hz. destruct (dec_digits z ltac:(lia)) as (b & r & E & Hb).
  unfold parse_uint. assert ((match dec z with
    | b :: (_ :: _ as r) => if bool_decide (b = Byte.x2b) then r else dec z
    | _ => dec z end) = dec z) as Hd.
  { rewrite E. destruct r; [done|]. rewrite bool_decide_false; [done|]. intros ->. by vm_compute in Hb. }
  rewrite Hd. rewrite E at 1. rewrite digits_value_dec by lia. cbn.
  by rewrite (proj2 (Z.ltb_lt _ _)) by lia.
Qed.

Lemma parse_int_dec w z : 0 <= z < 2 ^ (w - 1) -> parse_int w (dec z) = Some z.
Proof.
  intros Hz. destruct (dec_digits z ltac:(lia)) as (b & r & E & Hb).
  pose proof (parse_uint_dec (w - 1) z Hz) as Hp. unfold parse_int.
  rewrite E in *. destruct r; [done|]. rewrite bool_decide_false; [done|].
  intros ->. by vm_compute in Hb.
Qed.

(** *** Columns *)

Lemma pg_text_Some s s' : pg_text s = Some s' -> s' = s.
Proof. unfold pg_text. case_match; congruence. Qed.

Lemma varchar_short n s s' : blen (chars s) <= n -> varchar n s = Some s' -> s' = s.
Proof.
  unfold varchar. intros Hn (k & ->%pg_text_Some & H)%bind_Some.
  rewrite (proj2 (Z.leb_le _ _)) in H by done. congruence.
Qed.

Lemma is_empty_false s : is_empty s = false <-> s <> [].
Proof. unfold is_empty. apply bool_decide_eq_false. Qed.

(** *** Packages *)

Inductive apk_reach : ApkTable -> Prop :=
  | ar_empty : apk_reach ∅
  | ar_upsert up now id r t : apk_reach t -> apk_reach (upsert_apk up now id r t).2.

Definition apk_row_ok (k : bytes * Z) (v : ApkVersion) : Prop :=
  k = (package_name v, version_code v) /\ 0 < version_code v.

Lemma apk_insert_row_Some now id r v :
  apk_insert_row now id r = Some v ->
  varchar 255 (ua_package_name r) = Some (package_name v)
  /\ varchar 64 (ua_version_name r) = Some (version_name v)
  /\ version_code v = ua_version_code r /\ apk_download_url v = ua_download_url r
  /\ nullable (varchar 32) (ua_channel r) = Some (channel v)
  /\ nullable (varchar 32) (ua_min_os_version r) = Some (min_os_version v)
  /\ nullable (char_n 64) (ua_sha256 r) = Some (sha256 v)
  /\ file_size_bytes v = ua_file_size_bytes r
  /\ apk_is_active v = default true (ua_is_active r) /\ released_at v = ua_released_at r
  /\ created_at v = now /\ updated_at v = now /\ 0 < version_code v.
Proof.
  unfold apk_insert_row.
  intros (p & Hp & (n & Hn & (u & ->%pg_text_Some & (c & Hc & (o & Ho & (s & Hs & H)%bind_Some)%bind_Some)%bind_Some)%bind_Some)%bind_Some)%bind_Some.
  destruct (Z.ltb_spec 0 (ua_version_code r)); simplify_eq/=. naive_solver.
Qed.

Lemma apk_merge_ok now a new old k :
  apk_row_ok k old -> apk_row_ok k (apk_merge now a new old).
Proof. done. Qed.

Lemma apk_reach_ok t : apk_reach t -> map_Forall apk_row_ok t.
Proof.
  induction 1 as [|up now id r t _ IH]; [apply map_Forall_empty|].
  unfold upsert_apk. case_match; [done|]. case_match; [done|].
  unfold upsert_apk_version. destruct up; [|done]. cbn.
  destruct (apk_insert_row now id r) as [v|] eqn:E; [|done]. cbn.
  apply map_Forall_insert_2; [|done].
  destruct (t !! _) as [old|] eqn:Ht; [by apply apk_merge_ok, (IH _ _ Ht)|].
  apply apk_insert_row_Some in E. unfold apk_row_ok. naive_solver.
Qed.

(** What the handler itself requires of a request. *)
Definition apk_acceptable (r : UpsertApkRequest) : bool :=
  length_in 1 255 (ua_package_name r) && length_in 1 64 (ua_version_name r)
  && (1 <=? blen (chars (ua_download_url r))) && (0 <? ua_version_code r).

Lemma chars_nonempty s : 1 <= blen (chars s) -> is_empty s = false.
Proof. intros H. apply is_empty_false. intros ->. by cbn in H. Qed.

Lemma upsert_apk_unfold up now id r t :
  upsert_apk up now id r t
  = if apk_acceptable r
    then match upsert_apk_version up now id r t with
         | (Ok v, t) => (Json (ApiResponse_success now v), t)
         | (Err _, t) => (StatusCode INTERNAL_SERVER_ERROR, t)
         end
    else (StatusCode BAD_REQUEST, t).
Proof.
  unfold upsert_apk, apk_acceptable, validate_apk.
  destruct (length_in 1 255 _) eqn:H1; [|done]. destruct (length_in 1 64 _) eqn:H2; [|done].
  destruct (1 <=? blen (chars (ua_download_url r))) eqn:H3; [|done]. cbn.
  unfold length_in in H1, H2. bool_hyps. rewrite !chars_nonempty by lia. cbn.
  destruct (Z.leb_spec (ua_version_code r) 0); destruct (Z.ltb_spec 0 (ua_version_code r)); lia || done.
Qed.

(** The columns of the stored row that a request may leave out. *)
Definition kept_or_set {A} (store : A -> option A) (given : option A) (old new : option A) : Prop :=
  match given with Some a => store a = new | None => new = old end.

Lemma nullable_coalesce store given new old :
  nullable store given = Some new -> kept_or_set store given old (coalesce new old).
Proof.
  destruct given as [s|]; cbn; [|by intros [= <-]].
  destruct (store s) as [s'|] eqn:E; cbn; [|done]. by intros [= <-].
Qed.

Lemma nullable_fresh store given new :
  nullable store given = Some new -> kept_or_set store given None new.
Proof.
  destruct given as [s|]; cbn; [|by intros [= <-]].
  destruct (store s) as [s'|] eqn:E; cbn; [|done]. by intros [= <-].
Qed.

Lemma coalesce_kept {A} (given old : option A) : kept_or_set Some given old (coalesce given old).
Proof. by destruct given. Qed.
Lemma coalesce_fresh {A} (given : option A) : kept_or_set Some given None given.
Proof. by destruct given. Qed.

(** What an accepted request stores, given the row it replaces. *)
Definition stored_row (now : Z) (r : UpsertApkRequest) (old : option ApkVersion) (v : ApkVersion)
    : Prop :=
  package_name v = ua_package_name r /\ version_code v = ua_version_code r
  /\ version_name v = ua_version_name r /\ apk_download_url v = ua_download_url r
  /\ kept_or_set (varchar 32) (ua_channel r) (old ≫= channel) (channel v)
  /\ kept_or_set (varchar 32) (ua_min_os_version r) (old ≫= min_os_version) (min_os_version v)
  /\ kept_or_set (char_n 64) (ua_sha256 r) (old ≫= sha256) (sha256 v)
  /\ kept_or_set Some (ua_file_size_bytes r) (old ≫= file_size_bytes) (file_size_bytes v)
  /\ kept_or_set Some (ua_released_at r) (old ≫= released_at) (released_at v)
  /\ apk_is_active v = default (default true (apk_is_active <$> old)) (ua_is_active r)
  /\ created_at v = default now (created_at <$> old) /\ updated_at v = now.

Lemma upsert_stores now id r t v t' :
  apk_reach t -> apk_acceptable r = true ->
  upsert_apk_version true now id r t = (Ok v, t') ->
  let k := (ua_package_name r, ua_version_code r) in
  stored_row now r (t !! k) v /\ t' = <[k := v]> t.
Proof.
  intros Hr Ha. unfold upsert_apk_version. cbn.
  destruct (apk_insert_row now id r) as [w|] eqn:E; [|done].
  apply apk_insert_row_Some in E as (Hp & Hn & Hc & Hu & Hch & Hos & Hs & Hf & Hact & Hrel & Hcr & Hup & _).
  unfold apk_acceptable, length_in in Ha. bool_hyps.
  apply varchar_short in Hp; [|lia]. apply varchar_short in Hn; [|lia].
  rewrite Hp, Hc. intros [= <- <-]. split; [|done].
  destruct (t !! _) as [old|] eqn:Ht; unfold stored_row; cbn.
  - apply (apk_reach_ok t Hr) in Ht as [[= Hk1 Hk2] _]. rewrite Hf, Hrel.
    split_and!; auto using nullable_coalesce, coalesce_kept; congruence.
  - rewrite Hf, Hrel, Hact. split_and!; auto using nullable_fresh, coalesce_fresh.
Qed.

Definition apk_params (package : bytes) (code : Z) : Query :=
  {[ b!"package_name" := package; b!"version_code" := dec code ]}.

Lemma get_apk_params now package code t :
  pg_text package = Some package -> 0 <= code < 2 ^ 63 ->
  get_apk true now (apk_params package code) t
  = Json (ApiResponse_success now (t !! (package, code))).
Proof.
  intros Hp Hc. unfold get_apk, apk_params. rewrite lookup_insert_eq.
  rewrite lookup_insert_ne, lookup_singleton_eq by done. cbn [mbind option_bind].
  rewrite parse_int_dec by done. unfold get_apk_version. cbn. by rewrite Hp.
Qed.

(** Registering a package. After any earlier requests, a request is refused with 400
    exactly when a name is empty or too long, the address is empty or the version code is
    not positive, and with 500 when the database cannot store it; then no record has
    changed. Otherwise the record of that package and code is the one described: the given
    fields replaced, the fields left out kept from the earlier record, the activity kept or
    true; no other record changes, and a query by package and code returns it. *)
Theorem apk_upsert_spec (up : bool) (now id later : Z) (r : UpsertApkRequest) (t : ApkTable) :
  apk_reach t -> - 2 ^ 63 <= ua_version_code r < 2 ^ 63 ->
  match upsert_apk up now id r t with
  | (StatusCode c, t') =>
      t' = t /\ (c = BAD_REQUEST \/ c = INTERNAL_SERVER_ERROR)
      /\ (c = BAD_REQUEST <-> apk_acceptable r = false)
  | (Json a, t') =>
      let k := (ua_package_name r, ua_version_code r) in
      apk_acceptable r = true
      /\ exists v, a = ApiResponse_success now v /\ stored_row now r (t !! k) v
         /\ t' !! k = Some v /\ (forall k', k' <> k -> t' !! k' = t !! k')
         /\ get_apk true later (apk_params k.1 k.2) t' = Json (ApiResponse_success later (Some v))
  end.
Proof.
  intros Hr Hc. rewrite upsert_apk_unfold.
  destruct (apk_acceptable r) eqn:Ha; [|split_and!; auto; done].
  destruct (upsert_apk_version up now id r t) as [[v|e] t'] eqn:E.
  - destruct up; [|done]. destruct (upsert_stores _ _ _ _ _ _ Hr Ha E) as [Hv ->].
    split; [done|]. exists v. split; [done|]. split; [done|].
    split; [apply lookup_insert_eq|]. split; [intros; by apply lookup_insert_ne|].
    cbn [fst snd]. rewrite get_apk_params.
    + by rewrite lookup_insert_eq.
    + unfold upsert_apk_version in E. cbn in E.
      destruct (apk_insert_row now id r) as [w|] eqn:E'; [|done].
      apply bind_Some in E' as (p & Hp & _). unfold varchar in Hp.
      apply bind_Some in Hp as (s & Hs & _). rewrite Hs. by apply pg_text_Some in Hs as ->.
    + unfold apk_acceptable in Ha. bool_hyps. lia.
  - assert (t' = t) as ->.
    { unfold upsert_apk_version in E. destruct up; [|cbn in E; congruence].
      cbn in E. destruct (apk_insert_row now id r); congruence. }
    split; [done|]. split; [by right|]. done.
Qed.

Definition demo_apk : UpsertApkRequest :=
  mkUpsertApk b!"com.gpuf.app" b!"1.2" 12 b!"https://x/a.apk" (Some b!"beta") None None None None None.
Definition demo_apk' : UpsertApkRequest :=
  mkUpsertApk b!"com.gpuf.app" b!"1.2.1" 12 b!"https://x/b.apk" None None (Some b!"ab") None (Some false)
    None.

Definition is_json {A} (a : Reply A) : bool := match a with Json _ => true | _ => false end.

Lemma apk_upsert_spec_witness :
  exists v, get_apk true 30 (apk_params b!"com.gpuf.app" 12)
              (upsert_apk true 20 2 demo_apk' (upsert_apk true 10 1 demo_apk ∅).2).2
            = Json (ApiResponse_success 30 (Some v))
            /\ version_name v = b!"1.2.1" /\ apk_is_active v = false.
Proof.
  assert (is_json (upsert_apk true 20 2 demo_apk' (upsert_apk true 10 1 demo_apk ∅).2).1 = true)
    as E by (vm_compute; reflexivity).
  pose proof (apk_upsert_spec true 20 2 30 demo_apk' (upsert_apk true 10 1 demo_apk ∅).2
    (ar_upsert true 10 1 demo_apk ∅ ar_empty)
    ltac:(vm_compute; split; [discriminate|reflexivity])) as H.
  cbv zeta in H. destruct (upsert_apk true 20 2 demo_apk' _) as [[a|c] t'] eqn:E'; [|discriminate].
  destruct H as (_ & v & _ & Hv & _ & _ & Hg). exists v. split; [exact Hg|].
  destruct Hv as (_ & _ & Hn & _ & _ & _ & _ & _ & _ & Ha & _). split; [exact Hn|exact Ha].
Defined.

#[global] Instance apk_before_trans : Transitive apk_before.
Proof.
  intros a b c. unfold apk_before, desc_nulls_last.
  destruct (released_at a), (released_at b), (released_at c); rewrite ?Z.ltb_lt;
    intros [|[? [?|[E ?]]]] [|[? [?|[E' ?]]]]; try discriminate; simplify_eq; try lia;
    right; (split; [lia|]); first [by left; lia|right; split; [done|lia]].
Qed.

#[global] Instance apk_before_total : Total apk_before.
Proof.
  intros a b. unfold apk_before, desc_nulls_last.
  destruct (Z.lt_trichotomy (version_code a) (version_code b)) as [|[Hv|]];
    [by right; left| |by left; left]. rewrite Hv.
  destruct (released_at a) as [x|] eqn:Ea, (released_at b) as [y|] eqn:Eb; rewrite ?Z.ltb_lt.
  - destruct (Z.lt_trichotomy x y) as [|[->|]];
      [right; right; auto| |left; right; auto].
    destruct (Z.le_ge_cases (created_at a) (created_at b)); naive_solver.
  - left. right. split; [done|]. by left.
  - right. right. split; [done|]. by left.
  - destruct (Z.le_ge_cases (created_at a) (created_at b)); naive_solver.
Qed.

Lemma StronglySorted_take {A} (R : A -> A -> Prop) n (l : list A) :
  StronglySorted R l -> StronglySorted R (take n l).
Proof.
  intros Hs. revert n. induction Hs as [|a l Hs IH Ha]; intros [|n]; cbn; constructor; [done|].
  by apply Forall_take.
Qed.

(** Cutting a sorted list: what is left out comes after what is kept. *)
Lemma sorted_take {A} (R : A -> A -> Prop) n (l : list A) x :
  StronglySorted R l -> x ∈ l ->
  x ∈ take n l \/ (length (take n l) = n /\ forall y, y ∈ take n l -> R y x).
Proof.
  intros Hs. revert n. induction Hs as [|a l Hs IH Ha]; intros n Hx; [by apply elem_of_nil in Hx|].
  destruct n as [|n]; cbn.
  { right. split; [done|]. intros y Hy. by apply elem_of_nil in Hy. }
  apply elem_of_cons in Hx as [->|Hx]; [by left; left|].
  destruct (IH n Hx) as [IHx|[IHn IHx]]; [by left; right|].
  right. split; [by rewrite IHn|]. intros y [->|Hy]%elem_of_cons; [|by apply IHx].
  by apply (proj1 (Forall_forall _ _) Ha).
Qed.

Definition list_limit (params : Query) : Z :=
  Z.min (default 50 (params !! b!"limit" ≫= parse_uint 32)) 200.

Definition list_wants (params : Query) (v : ApkVersion) : bool :=
  apk_matches (params !! b!"package_name") (params !! b!"channel")
    (params !! b!"is_active" ≫= parse_bool) v.

(** Listing packages: the answer holds matching records only, newest version code first
    (then the latest release, records without a release date last), at most the limit that
    was asked for, 50 by default and never more than 200; a matching record is left out
    only when the limit is reached, and then it comes after every listed one. A limit or
    an activity that does not parse is treated as absent. *)
Theorem apk_list_spec (now : Z) (params : Query) (t : ApkTable) (l : list ApkVersion) :
  list_apk true now params t = Json (ApiResponse_success now l) ->
  StronglySorted apk_before l /\ blen l <= Z.max 0 (list_limit params)
  /\ (forall v, v ∈ l -> list_wants params v = true /\ exists k, t !! k = Some v)
  /\ (forall k v, t !! k = Some v -> list_wants params v = true ->
        v ∈ l \/ (blen l = Z.max 0 (list_limit params) /\ forall w, w ∈ l -> apk_before w v)).
Proof.
  unfold list_apk, list_apk_versions, list_wants, list_limit. cbn [negb].
  set (n := Z.min _ _).
  intros H. destruct (ok_or _ _) as [p|] eqn:Ep in H; [|done]. cbn in H.
  destruct (ok_or _ _) as [c|] eqn:Ec in H; [|done]. cbn in H.
  assert (forall o o' : option bytes, ok_or (nullable pg_text o) db_error = Ok o' -> o' = o) as Hn.
  { intros [s|] o'; cbn; [|congruence].
    destruct (pg_text s) as [s'|] eqn:E; cbn; [|done]. apply pg_text_Some in E as ->. congruence. }
  apply Hn in Ep as ->. apply Hn in Ec as ->. fold n in H.
  set (m := filter _ _) in H. unfold ApiResponse_success in H.
  assert (l = take (Z.to_nat n) (merge_sort apk_before m)) as -> by congruence. clear H Hn.
  assert (merge_sort apk_before m ≡ₚ m) as Hp by apply merge_sort_Permutation.
  assert (StronglySorted apk_before (merge_sort apk_before m)) as Hsort
    by (apply StronglySorted_merge_sort; apply _).
  assert (forall v, v ∈ m <-> apk_matches (params !! b!"package_name") (params !! b!"channel")
     (params !! b!"is_active" ≫= parse_bool) v = true /\ exists k, t !! k = Some v) as Hm.
  { intros v. unfold m. rewrite list_elem_of_filter, list_elem_of_fmap. split.
    - intros [Hw ([k v'] & -> & Hk%elem_of_map_to_list)]. eauto.
    - intros [Hw [k Hk%elem_of_map_to_list]]. split; [done|]. by exists (k, v). }
  split; [by apply StronglySorted_take|]. split; [unfold blen; rewrite length_take; lia|]. split.
  - intros v Hv%subseteq_take. rewrite Hp in Hv. by apply Hm.
  - intros k v Hk Hw.
    assert (v ∈ merge_sort apk_before m) as Hv by (rewrite Hp; apply Hm; eauto).
    destruct (sorted_take apk_before (Z.to_nat n) _ v Hsort Hv) as [Hin|[Hlen Hall]]; [by left|].
    right. split; [|done]. unfold blen. rewrite Hlen. lia.
Qed.

Definition demo_version (code : Z) : UpsertApkRequest :=
  mkUpsertApk b!"p" b!"v" code b!"u" None None None None None None.
Definition demo_apks : ApkTable :=
  (upsert_apk true 2 2 (demo_version 2) (upsert_apk true 1 1 (demo_version 1) ∅).2).2.

Lemma apk_list_spec_witness :
  list_apk true 5 {[ b!"limit" := b!"1" ]} demo_apks
  = Json (ApiResponse_success 5 [mkApk 2 b!"p" b!"v" 2 b!"u" None None None None true None 2 2])
  /\ blen [2] <= Z.max 0 (list_limit {[ b!"limit" := b!"1" ]}).
Proof.
  assert (list_apk true 5 {[ b!"limit" := b!"1" ]} demo_apks
    = Json (ApiResponse_success 5 [mkApk 2 b!"p" b!"v" 2 b!"u" None None None None true None 2 2]))
    as E by (vm_compute; reflexivity).
  split; [exact E|]. exact (proj1 (proj2 (apk_list_spec 5 _ _ _ E))).
Defined.

(** *** Models *)

(** Sorting commutes with a map that keeps the order. *)
Section SortMap.
Context {A B} (f : A -> B) (R : A -> A -> Prop) (S : B -> B -> Prop)
  `{!RelDecision R, !RelDecision S} (RS : forall a b, R a b <-> S (f a) (f b)).

Lemma list_merge_fmap l k : list_merge S (f <$> l) (f <$> k) = f <$> list_merge R l k.
Proof.
  revert k. induction l as [|a l IH]; intros k; [by destruct k|].
  induction k as [|b k IHk]; [done|]. cbn.
  destruct (decide (R a b)) as [Hr|Hr], (decide (S (f a) (f b))) as [Hs|Hs];
    try (rewrite RS in Hr; done); cbn; f_equal; [apply (IH (b :: k))|exact IHk].
Qed.

Definition map_stack (st : list (option (list A))) : list (option (list B)) := map (option_map (map f)) st.

Lemma merge_list_to_stack_fmap st l :
  merge_list_to_stack S (map_stack st) (f <$> l) = map_stack (merge_list_to_stack R st l).
Proof.
  revert l. induction st as [|[k|] st IH]; intros l; cbn; [done| |done].
  f_equal. by rewrite list_merge_fmap, IH.
Qed.

Lemma merge_stack_fmap st : merge_stack S (map_stack st) = f <$> merge_stack R st.
Proof.
  induction st as [|[k|] st IH]; cbn; [done| |done].
  by rewrite <- list_merge_fmap, <- IH.
Qed.

Lemma merge_sort_fmap l : merge_sort S (f <$> l) = f <$> merge_sort R l.
Proof.
  unfold merge_sort. change (@nil (option (list B))) with (map_stack []).
  generalize (@nil (option (list A))). induction l as [|a l IH]; intros st; cbn.
  - apply merge_stack_fmap.
  - rewrite <- IH. f_equal. apply (merge_list_to_stack_fmap st [a]).
Qed.
End SortMap.

(** A row whose activity is known, as sessions see it. *)
Definition decode_total (r : ModelRow) : Models :=
  mkModels (mr_id r) (mr_name r) (mr_version r) (mr_version_code r)
    (default false (mr_is_active r)) (mr_min_memory_mb r) (mr_min_gpu_memory_gb r)
    (mr_created_at r) (mr_download_url r) (mr_checksum r) (mr_expected_size r)
    (mr_engine_type r).

Lemma decode_model_spec r :
  decode_model r = match mr_is_active r with Some _ => Some (decode_total r) | None => None end.
Proof. unfold decode_model, decode_total. by destruct (mr_is_active r). Qed.

Lemma row_matches_decode act e m r : is_Some (mr_is_active r) ->
  model_matches act e m (decode_total r) = row_matches act e m r.
Proof.
  intros [a Ha]. unfold model_matches, row_matches, decode_total. cbn. rewrite Ha. cbn.
  destruct act as [[]|], a; reflexivity.
Qed.

Definition unknown (r : ModelRow) : bool := bool_decide (mr_is_active r = None).

Lemma filter_decode act e m t :
  existsb (fun r => row_matches act e m r && unknown r) t = false ->
  filter (fun r => model_matches act e m r = true) (omap decode_model t)
  = decode_total <$> filter (fun r => row_matches act e m r = true) t.
Proof.
  induction t as [|r t IH]; [done|]. cbn [existsb]. intros [Hr Ht]%orb_false_iff.
  change (omap decode_model (r :: t))
    with (match decode_model r with Some x => x :: omap decode_model t | None => omap decode_model t end).
  rewrite decode_model_spec. unfold unknown in Hr.
  destruct (mr_is_active r) as [a|] eqn:Ha.
  - rewrite !filter_cons, row_matches_decode, IH by (rewrite ?Ha; done).
    by destruct (decide (row_matches act e m r = true)).
  - cbn in Hr. rewrite andb_true_r in Hr.
    rewrite filter_cons, decide_False by congruence. by apply IH.
Qed.

Lemma mapM_decode l :
  mapM decode_model l
  = if existsb unknown l then None else Some (decode_total <$> l).
Proof.
  induction l as [|r l IH]; [done|]. cbn. rewrite decode_model_spec, IH. unfold unknown.
  destruct (mr_is_active r) as [a|]; cbn; [|done]. by destruct (existsb _ l).
Qed.

Lemma existsb_perm {A} (p : A -> bool) l k : l ≡ₚ k -> existsb p l = existsb p k.
Proof. induction 1; cbn; [done|congruence|by rewrite !orb_assoc, (orb_comm (p y))|congruence]. Qed.

Lemma existsb_filter {A} (p q : A -> bool) (l : list A) :
  existsb p (filter (fun x => q x = true) l) = existsb (fun x => q x && p x) l.
Proof.
  induction l as [|x l IH]; [done|]. rewrite filter_cons. cbn.
  destruct (decide (q x = true)) as [Hq|Hq%not_true_is_false]; rewrite Hq; cbn; by rewrite IH.
Qed.

Lemma models_query_eq (act : option bool) (e m : option Z) (t : list ModelRow) :
  models_query true act e m t
  = if existsb (fun r => row_matches act e m r && unknown r) t then Err db_error
    else get_models_list (Some (omap decode_model t)) act e m.
Proof.
  unfold models_query, get_models_list. cbn. rewrite mapM_decode.
  rewrite (existsb_perm _ _ _ (merge_sort_Permutation row_before _)), existsb_filter.
  destruct (existsb _ t) eqn:Hex; [done|]. cbn. f_equal.
  rewrite filter_decode by done. symmetry. by apply merge_sort_fmap.
Qed.

(** The catalogue that sessions use is the table as the query sees it: on the rows with a
    known activity both give the same models in the same order, and the only difference is
    that a matching row without one fails the query; with a filter on the activity no such
    row matches, so the query of a device session never fails on a reachable database. *)
Theorem models_query_refines_catalogue (act : option bool) (e m : option Z)
    (t : list ModelRow) :
  models_query true act e m t
  = (if existsb (fun r => row_matches act e m r && bool_decide (mr_is_active r = None)) t
     then Err db_error
     else get_models_list (Some (omap decode_model t)) act e m)
  /\ forall a, models_query true (Some a) e m t
     = get_models_list (Some (omap decode_model t)) (Some a) e m.
Proof.
  split; [apply models_query_eq|]. intros a. rewrite models_query_eq.
  destruct (existsb _ t) eqn:Hex; [|done]. exfalso.
  apply existsb_exists in Hex as (r & _ & Hr). unfold row_matches, unknown in Hr. cbn in Hr.
  bool_hyps. congruence.
Qed.

Definition code_key (r : ModelRow) : bytes * Z := (mr_name r, mr_version_code r).

Inductive models_reach : list ModelRow -> Prop :=
  | mr_nil : models_reach []
  | mr_step up now id r t : models_reach t -> models_reach (create_or_update_model up now id r t).2.

Definition unique_keys (t : list ModelRow) : Prop :=
  forall i j r s, t !! i = Some r -> t !! j = Some s ->
    model_key r = model_key s \/ code_key r = code_key s -> i = j.

Lemma code_taken_false new t : code_taken new t = false ->
  forall i r, t !! i = Some r -> model_key r <> model_key new -> code_key r <> code_key new.
Proof.
  intros H i r Hr%list_elem_of_lookup_2 Hk [= H1 H2]. apply not_true_iff_false in H. apply H.
  unfold code_taken. apply existsb_exists. exists r. split; [by apply list_elem_of_In|].
  by rewrite bool_decide_false, bool_decide_true, H2, Z.eqb_refl.
Qed.

Lemma merge_key new old : model_key (model_merge new old) = model_key old.
Proof. done. Qed.

Lemma update_row_key new o :
  let u := if bool_decide (model_key o = model_key new) then model_merge new o else o in
  model_key u = model_key o
  /\ code_key u = (if bool_decide (model_key o = model_key new) then code_key new else code_key o).
Proof.
  cbn. case_bool_decide as E; [|done]. split; [done|]. unfold code_key. cbn.
  by injection E as -> _.
Qed.

Lemma update_unique new t :
  unique_keys t -> code_taken new t = false ->
  unique_keys ((fun o => if bool_decide (model_key o = model_key new) then model_merge new o else o)
                 <$> t).
Proof.
  intros Hu Hc i j r s. rewrite !list_lookup_fmap.
  intros (r0 & Hr & ->)%fmap_Some (s0 & Hs & ->)%fmap_Some.
  destruct (update_row_key new r0) as [-> ->], (update_row_key new s0) as [-> ->].
  intros [E|E]; [apply (Hu i j r0 s0); auto|].
  pose proof (code_taken_false new t Hc i r0 Hr). pose proof (code_taken_false new t Hc j s0 Hs).
  repeat case_bool_decide; [apply (Hu i j r0 s0); try done; left; congruence|naive_solver..|].
  apply (Hu i j r0 s0); auto.
Qed.

Lemma append_unique new t :
  unique_keys t -> code_taken new t = false ->
  existsb (fun o => bool_decide (model_key o = model_key new)) t = false ->
  unique_keys (t ++ [new]).
Proof.
  intros Hu Hc Hn.
  assert (forall i r, t !! i = Some r ->
    model_key r <> model_key new /\ code_key r <> code_key new) as Hne.
  { intros i r Hr. assert (model_key r <> model_key new) as Hk.
    - intros E. apply not_true_iff_false in Hn. apply Hn, existsb_exists. exists r.
      split; [by apply list_elem_of_In, (list_elem_of_lookup_2 _ i)|by apply bool_decide_true].
    - split; [done|]. by apply (code_taken_false new t Hc i r Hr). }
  intros i j r s Hr Hs.
  apply lookup_app_Some in Hr as [Hr|[Hi Hr]], Hs as [Hs|[Hj Hs]].
  - by apply Hu.
  - apply list_lookup_singleton_Some in Hs as [Hs <-]. destruct (Hne i r Hr). naive_solver.
  - apply list_lookup_singleton_Some in Hr as [Hr <-]. destruct (Hne j s Hs). naive_solver.
  - apply list_lookup_singleton_Some in Hr as [? _], Hs as [? _]. lia.
Qed.

Lemma model_insert_row_Some now id r v : model_insert_row now id r = Some v ->
  varchar 100 (mq_name r) = Some (mr_name v) /\ varchar 50 (mq_version r) = Some (mr_version v)
  /\ mr_version_code v = mq_version_code r /\ 0 < mr_version_code v
  /\ mr_is_active v = mq_is_active r /\ mr_engine_type v = mq_engine_type r
  /\ mr_min_gpu_memory_gb v = mq_min_gpu_memory_gb r.
Proof.
  unfold model_insert_row.
  intros (n & Hn & (w & Hw & (u & Hu & (c & Hc & H)%bind_Some)%bind_Some)%bind_Some)%bind_Some.
  destruct (Z.ltb_spec 0 (mq_version_code r)); simplify_eq/=. naive_solver.
Qed.

(** The three ways a request can end. *)
Lemma create_or_update_cases up now id r t :
  (exists c, create_or_update_model up now id r t = (StatusCode c, t))
  \/ exists new, model_insert_row now id r = Some new /\ code_taken new t = false
     /\ create_or_update_model up now id r t
        = (Json (ApiResponse_success now ()),
           if existsb (fun o => bool_decide (model_key o = model_key new)) t
           then (fun o => if bool_decide (model_key o = model_key new) then model_merge new o else o)
                  <$> t
           else t ++ [new]).
Proof.
  unfold create_or_update_model, create_or_update_model_db.
  destruct (_ || _); [by left; eauto|]. destruct up; cbn; [|by left; eauto].
  destruct (model_insert_row now id r) as [new|] eqn:E; [|by left; eauto].
  destruct (code_taken new t) eqn:Hc; [by left; eauto|]. right. exists new.
  split_and!; [done..|]. by destruct (existsb _ t).
Qed.

Lemma models_reach_inv t :
  models_reach t -> unique_keys t /\ Forall (fun r => 0 < mr_version_code r) t.
Proof.
  induction 1 as [|up now id r t _ [Hu Hp]]; [split; [by intros i j r s Hr|constructor]|].
  destruct (create_or_update_cases up now id r t) as [[c ->]|(new & E & Hc & ->)]; [done|].
  apply model_insert_row_Some in E as (_ & _ & _ & Hpos & _). cbn [snd].
  destruct (existsb _ t) eqn:Hx.
  - split; [by apply update_unique|]. apply Forall_fmap. apply (Forall_impl _ _ _ Hp).
    intros o Ho. cbn. by case_bool_decide.
  - split; [by apply append_unique|]. apply Forall_app. by repeat constructor.
Qed.

(** The catalogue keeps its keys: after any sequence of requests no two rows have the same
    name and version, or the same name and version code, and every version code is
    positive. *)
Theorem model_keys_unique (t : list ModelRow) (i j : nat) (r s : ModelRow) :
  models_reach t -> t !! i = Some r -> t !! j = Some s ->
  0 < mr_version_code r
  /\ (i <> j -> model_key r <> model_key s /\ code_key r <> code_key s).
Proof.
  intros [Hu Hp]%models_reach_inv Hr Hs. split; [by apply (Forall_lookup_1 _ _ _ _ Hp Hr)|].
  intros Hij. split; intros E; apply Hij, (Hu i j r s); auto.
Qed.

Definition demo_model (version : bytes) (code : Z) : CreateOrUpdateModelRequest :=
  mkModelRequest b!"llama" version code 6 None None (Some 8) None None None.
Definition demo_models : list ModelRow :=
  (create_or_update_model true 2 2 (demo_model b!"v2" 2)
    (create_or_update_model true 1 1 (demo_model b!"v1" 1) []).2).2.

Lemma model_keys_unique_witness :
  exists r s, demo_models !! 0%nat = Some r /\ demo_models !! 1%nat = Some s
              /\ model_key r <> model_key s /\ code_key r <> code_key s.
Proof.
  do 2 eexists. split; [reflexivity|]. split; [reflexivity|].
  eapply (model_keys_unique demo_models 0 1); [|reflexivity..|discriminate].
  apply mr_step, mr_step, mr_nil.
Defined.

(** Publishing a model without saying whether it is active: the request succeeds, no device
    is ever offered the model, and from then on the listing without a filter on the
    activity fails for everyone, while the one for active models still answers. *)
Theorem unstated_activity_fails_listing (up : bool) (now id later : Z)
    (r : CreateOrUpdateModelRequest) (t t' : list ModelRow) (a : ApiResponse ()) :
  create_or_update_model up now id r t = (Json a, t') -> mq_is_active r = None ->
  (forall o, o ∈ t -> Some (mr_name o) <> varchar 100 (mq_name r)
                      \/ Some (mr_version o) <> varchar 50 (mq_version r)) ->
  get_models true later ∅ t' = StatusCode INTERNAL_SERVER_ERROR
  /\ (forall act e m, get_models_list (Some (omap decode_model t')) act e m
                      = get_models_list (Some (omap decode_model t)) act e m)
  /\ is_json (get_models true later {[ b!"is_active" := b!"true" ]} t') = true.
Proof.
  intros H Hact Hnew.
  destruct (create_or_update_cases up now id r t) as [[c E]|(new & E & Hc & E')]; [congruence|].
  rewrite E' in H. injection H as <- <-.
  apply model_insert_row_Some in E as (Hn & Hv & _ & _ & Ha & _). rewrite Hact in Ha.
  destruct (existsb _ t) eqn:Hx.
  { apply existsb_exists in Hx as (o & Ho & Hk). bool_hyps. injection Hk as H1 H2.
    apply list_elem_of_In, Hnew in Ho. rewrite Hn, Hv in Ho. destruct Ho; congruence. }
  split; [|split].
  - unfold get_models. rewrite !lookup_empty. cbn [mbind option_bind].
    rewrite models_query_eq. rewrite existsb_app. cbn. unfold unknown at 2.
    rewrite bool_decide_true by done. by rewrite orb_true_r.
  - intros act e m. f_equal. rewrite omap_app. cbn. rewrite decode_model_spec, Ha.
    by rewrite app_nil_r.
  - unfold get_models. rewrite lookup_singleton_eq.
    rewrite lookup_singleton_ne by done. cbn [mbind option_bind parse_bool].
    rewrite models_query_eq. change (parse_bool b!"true") with (Some true).
    destruct (existsb _ (t ++ [new])) eqn:Hex; [|done]. exfalso.
    apply existsb_exists in Hex as (o & _ & Ho). unfold row_matches, unknown in Ho.
    cbn in Ho. bool_hyps. congruence.
Qed.

Lemma unstated_activity_fails_listing_witness :
  get_models true 5 ∅ demo_models = StatusCode INTERNAL_SERVER_ERROR.
Proof.
  refine (proj1 (unstated_activity_fails_listing true 2 2 5 (demo_model b!"v2" 2)
    (create_or_update_model true 1 1 (demo_model b!"v1" 1) []).2 demo_models
    (ApiResponse_success 2 ()) eq_refl eq_refl _)).
  intros o Ho. right. vm_compute in Ho. apply list_elem_of_singleton in Ho as ->.
  vm_compute. discriminate.
Defined.

(** *** Clients *)
Section Clients.
Context `{H : Hex}.

Inductive ClientCall := Insert (r : CreateClientRequest) | Edit (p : EditClientRequest).

(** One request on the table: whether the database answers, when, and what is asked. *)
Definition client_call (c : bool * Z * ClientCall) (t : AssetTable) : AssetTable :=
  match c with
  | (up, now, Insert r) => (insert_client up now r t).2
  | (up, now, Edit p) => (edit_client_info up now p t).2
  end.
Definition client_calls (cs : list (bool * Z * ClientCall)) (t : AssetTable) : AssetTable :=
  fold_left (fun t c => client_call c t) cs t.

(** The requests that name a client, and those among them that name its owner. *)
Definition names (id : ClientId) (text : bytes) : bool :=
  match ClientId_from_str text with Ok i => bool_decide (i = id) | Err _ => false end.
Definition edits_as_owner (id : ClientId) (owner : option bytes) (c : ClientCall) : bool :=
  match c with
  | Insert _ => false
  | Edit p => names id (ec_client_id p) && bool_decide (Some (ec_user_id p) = owner)
  end.
Definition registers (id : ClientId) (c : ClientCall) : bool :=
  match c with Insert r => names id (cc_client_id r) | Edit _ => false end.

(** What one request may do to the row of a client. *)
Definition row_step (id : ClientId) (c : ClientCall) (o o' : AssetRow) : Prop :=
  ar_user_id o' = ar_user_id o /\ ar_created_at o' = ar_created_at o
  /\ (edits_as_owner id (ar_user_id o) c = false ->
      ar_valid_status o' = ar_valid_status o /\ ar_os_type o' = ar_os_type o
      /\ (registers id c = false -> o' = o)).

Lemma row_step_refl id c o : row_step id c o o.
Proof. done. Qed.

Lemma insert_client_row up now r t id o :
  t !! id = Some o ->
  exists o', (insert_client up now r t).2 !! id = Some o' /\ row_step id (Insert r) o o'.
Proof.
  intros Ho. unfold insert_client.
  destruct (_ || _); [by eauto using row_step_refl|].
  destruct (ClientId_from_str (cc_client_id r)) as [i|e] eqn:Hi; [|by eauto using row_step_refl].
  cbn. unfold upsert_client_info. destruct up; cbn; [|by eauto using row_step_refl].
  destruct (pg_text (cc_user_id r)), (pg_text (cc_client_status r)), (pg_text (cc_name r));
    try by eauto using row_step_refl. cbn.
  destruct (decide (i = id)) as [->|Hne].
  - rewrite Ho, lookup_insert_eq. eexists. split; [done|]. split_and!; [done..|].
    intros _. split_and!; [done..|]. unfold registers, names. by rewrite Hi, bool_decide_true.
  - rewrite lookup_insert_ne by done. by eauto using row_step_refl.
Qed.

Lemma edit_client_row up now p t id o :
  t !! id = Some o ->
  exists o', (edit_client_info up now p t).2 !! id = Some o' /\ row_step id (Edit p) o o'.
Proof.
  intros Ho. unfold edit_client_info.
  destruct (_ || _); [by eauto using row_step_refl|].
  destruct (negb _); [by eauto using row_step_refl|].
  destruct (negb _); [by eauto using row_step_refl|].
  unfold update_gpu_asset_status.
  destruct (ClientId_from_str (ec_client_id p)) as [i|e] eqn:Hi; [|by eauto using row_step_refl].
  destruct up; cbn [negb]; [|by eauto using row_step_refl].
  destruct (nullable pg_text (ec_os_type p)), (nullable pg_text (ec_name p)),
    (nullable pg_text (ec_client_status p)), (nullable pg_text (ec_valid_status p));
    try by eauto using row_step_refl.
  destruct (pg_text (ec_user_id p)) as [u|] eqn:Hu; [|by eauto using row_step_refl].
  apply pg_text_Some in Hu as ->. cbn.
  destruct (t !! i) as [oi|] eqn:Hoi; [|by eauto using row_step_refl].
  case_bool_decide as Hown; [|by eauto using row_step_refl].
  destruct (decide (i = id)) as [->|Hne].
  - simplify_eq. rewrite lookup_insert_eq. eexists. split; [done|]. split_and!; [done..|].
    intros Hf. unfold edits_as_owner, names in Hf.
    rewrite Hi, bool_decide_true, bool_decide_true in Hf by done. done.
  - rewrite lookup_insert_ne by done. by eauto using row_step_refl.
Qed.

(** [C22] Who can change what of a client. After any requests of the administration routes,
    failed ones included, a registered client still belongs to its first owner; whether it
    is valid, and its system, change only by an edit that names its owner; and without
    such an edit and without a registration that names it, nothing of it changes. *)
Theorem client_keeps_owner (cs : list (bool * Z * ClientCall)) (t : AssetTable) (id : ClientId)
    (o : AssetRow) :
  t !! id = Some o ->
  exists o', client_calls cs t !! id = Some o'
    /\ ar_user_id o' = ar_user_id o /\ ar_created_at o' = ar_created_at o
    /\ ((forall c, c ∈ cs -> edits_as_owner id (ar_user_id o) c.2 = false) ->
        ar_valid_status o' = ar_valid_status o /\ ar_os_type o' = ar_os_type o
        /\ ((forall c, c ∈ cs -> registers id c.2 = false) -> o' = o)).
Proof.
  revert t o. induction cs as [|[[up now] c] cs IH]; intros t o Ho; [by exists o|].
  assert (exists o1, client_call (up, now, c) t !! id = Some o1 /\ row_step id c o o1)
    as (o1 & Ho1 & Hu & Hc & Hs)
    by (destruct c; [by apply insert_client_row|by apply edit_client_row]).
  destruct (IH _ _ Ho1) as (o' & Ho' & Hu' & Hc' & Hs'). exists o'. split; [done|].
  split; [congruence|]. split; [congruence|]. intros He.
  destruct (Hs (He (up, now, c) ltac:(by left))) as (H1 & H2 & H3).
  destruct Hs' as (H1' & H2' & H3').
  { intros c' Hin. rewrite Hu. apply He. by right. }
  split; [congruence|]. split; [congruence|]. intros Hreg.
  rewrite H3'; [apply H3, (Hreg (up, now, c)); by left|]. intros c' Hin. apply Hreg. by right.
Qed.

(** The other side: anyone can rename a client and set its status by registering its id
    again, and is told that the registration succeeded. *)
Lemma registration_overwrites_any_client now r t id o :
  t !! id = Some o -> ClientId_from_str (cc_client_id r) = Ok id ->
  cc_user_id r <> [] -> cc_client_id r <> [] ->
  pg_text (cc_user_id r) = Some (cc_user_id r) ->
  pg_text (cc_client_status r) = Some (cc_client_status r) ->
  pg_text (cc_name r) = Some (cc_name r) ->
  insert_client true now r t
  = (Json (ApiResponse_success now []),
     <[id := mkAssetRow (ar_user_id o) (Some (cc_name r)) (Some (cc_client_status r))
               (ar_valid_status o) (ar_os_type o) (ar_created_at o) now]> t).
Proof.
  intros Ho Hid Hu Hc H1 H2 H3. unfold insert_client, is_empty.
  rewrite !bool_decide_false by done. cbn. rewrite Hid. unfold upsert_client_info. cbn.
  by rewrite H1, H2, H3, Ho.
Qed.

(** A registration the database refuses is answered like one it accepts. *)
Lemma failed_registration_succeeds now r t id :
  ClientId_from_str (cc_client_id r) = Ok id -> cc_user_id r <> [] -> cc_client_id r <> [] ->
  insert_client false now r t = (Json (ApiResponse_success now []), t).
Proof.
  intros Hid Hu Hc. unfold insert_client, is_empty. rewrite !bool_decide_false by done.
  cbn. by rewrite Hid.
Qed.

(** Revoking a client reaches its sessions late. When a login has just been validated
    against the database, no edit of the client changes what a login learns in the next
    300 seconds; after that the login learns the status the edit stored. *)
Theorem revocation_delayed_300s (env : StoreEnv) (now later edited : Z) (os os' : bytes)
    (id : ClientId) (s s1 : Store) (t : AssetTable) (p : EditClientRequest) :
  redis_up env = true -> redis_get_ok env = true -> redis_set_ok env = true -> db_up env = true ->
  redis_get env now id s = None ->
  validate_client env now os id s = Some (Ok true, s1) ->
  gpu_assets s1 = asset_of <$> t ->
  let t' := (edit_client_info true edited p t).2 in
  fst <$> validate_client env later os' id (set_assets (asset_of <$> t') s1)
  = Some (Ok (if later <? now + 300 then true
              else match t' !! id with
                   | Some o => bool_decide (ar_valid_status o = Some b!"valid")
                   | None => false
                   end)).
Proof.
  intros Hr Hg Hset Hdb Hmiss Hv Hs1. cbv zeta.
  generalize ((edit_client_info true edited p t).2). intros t'.
  assert (client_status s1 !! id = Some (b!"valid", now + 300)) as Hc.
  { unfold validate_client in Hv. rewrite Hr, Hmiss, Hdb, Hset in Hv. cbn in Hv.
    injection Hv as Hval <-. rewrite Hval. cbn. by rewrite lookup_insert_eq. }
  clear Hv Hmiss. unfold validate_client. rewrite Hr. unfold redis_get. rewrite Hg. cbn.
  rewrite Hc. destruct (Z.ltb_spec later (now + 300)); [reflexivity|].
  rewrite Hdb. cbn. do 2 f_equal. unfold update_client_db. cbn. rewrite Hdb.
  rewrite lookup_fmap. destruct (t' !! id) as [o|] eqn:Ho; cbn.
  - case_bool_decide as Hb; cbn.
    + by rewrite lookup_insert_eq.
    + rewrite lookup_fmap, Ho. cbn. by rewrite bool_decide_false.
  - by rewrite lookup_fmap, Ho.
Qed.
End Clients.

Definition demo_id : ClientId := replicate 16 Byte.xab.
Definition demo_asset : AssetRow :=
  mkAssetRow (Some b!"42") (Some b!"box") (Some b!"online") (Some b!"valid") None 1 1.
Definition demo_edit : EditClientRequest :=
  mkEditClient b!"42" (ClientId_display demo_id) None None None (Some b!"invalid") None None.

Lemma client_keeps_owner_witness :
  exists o', client_calls [(true, 5, Edit demo_edit); (true, 6, Insert
      (mkCreateClient b!"7" (ClientId_display demo_id) b!"offline" None b!"mine"))]
      {[ demo_id := demo_asset ]} !! demo_id = Some o'
    /\ ar_user_id o' = Some b!"42".
Proof.
  destruct (client_keeps_owner [(true, 5, Edit demo_edit); (true, 6, Insert
      (mkCreateClient b!"7" (ClientId_display demo_id) b!"offline" None b!"mine"))]
      {[ demo_id := demo_asset ]} demo_id demo_asset (lookup_singleton_eq _ _)) as (o' & Ho & Hu & _).
  exists o'. split; [exact Ho|exact Hu].
Defined.

Definition demo_assets : AssetTable :=
  {[ demo_id := mkAssetRow (Some b!"42") (Some b!"box") (Some b!"online") (Some b!"valid")
                  (Some b!"linux") 1 1 ]}.

Lemma revocation_delayed_300s_witness :
  fst <$> validate_client (mkStoreEnv true true true true) 200 b!"linux" demo_id
    (set_assets (asset_of <$> (edit_client_info true 50 demo_edit demo_assets).2)
       (mkStore (asset_of <$> demo_assets) [] {[ demo_id := (b!"valid", 300) ]}))
  = Some (Ok true).
Proof.
  refine (revocation_delayed_300s (mkStoreEnv true true true true) 0 200 50 b!"linux" b!"linux"
    demo_id (mkStore (asset_of <$> demo_assets) [] ∅)
    (mkStore (asset_of <$> demo_assets) [] {[ demo_id := (b!"valid", 300) ]})
    demo_assets demo_edit eq_refl eq_refl eq_refl eq_refl eq_refl _ eq_refl).
  vm_compute. reflexivity.
Defined.

(** *** Download progress *)
Section Progress.
Context `{H : Hex} {L : HexLaws H} (fmt_2 : f32 -> bytes) (parse_f32 : bytes -> option f32).

Abbreviation setf := (set_field parse_f32).

Definition error_of (acc : option bytes) (f : bytes * bytes) : option bytes :=
  if bool_decide (f.1 = b!"error") then Some f.2 else acc.

Definition reported : list bytes :=
  [b!"model_name"; b!"downloaded_bytes"; b!"total_bytes"; b!"percentage"; b!"speed_bps";
   b!"status"; b!"timestamp"].

Definition with_error (p : ModelDownloadProgressResponse) (e : option bytes) :=
  mkProgress (pr_client_id p) (pr_model_name p) (pr_downloaded_bytes p) (pr_total_bytes p)
    (pr_percentage p) (pr_speed_bps p) (pr_status p) e (pr_timestamp p).

(** A field that is not one of the reported ones only ever touches the error. *)
Lemma set_field_unreported p f :
  f.1 ∉ reported -> setf p f = with_error p (error_of (pr_error p) f).
Proof.
  destruct p, f as [k v]. cbn [fst]. intros Hk. unfold reported in Hk.
  rewrite !not_elem_of_cons in Hk. destruct Hk as (? & ? & ? & ? & ? & ? & ? & _).
  unfold set_field, error_of, with_error. cbn [fst snd].
  by repeat case_bool_decide.
Qed.

Lemma set_fields_unreported l p :
  Forall (fun f => f.1 ∉ reported) l ->
  fold_left setf l p = with_error p (fold_left error_of l (pr_error p)).
Proof.
  intros Hl. revert p. induction Hl as [|f l Hf _ IH]; intros p; cbn; [by destruct p|].
  rewrite set_field_unreported by done. rewrite IH. by destruct p.
Qed.

Lemma set_field_error p f : pr_error (setf p f) = error_of (pr_error p) f.
Proof.
  destruct p, f as [k v]. unfold set_field, error_of. cbn [fst snd].
  repeat case_bool_decide; subst; try done; by vm_compute in *.
Qed.

Lemma set_fields_error l p :
  pr_error (fold_left setf l p) = fold_left error_of l (pr_error p).
Proof.
  revert p. induction l as [|f l IH]; intros p; cbn; [done|]. by rewrite IH, set_field_error.
Qed.

Lemma error_of_filter (ks : list bytes) l acc : b!"error" ∉ ks ->
  fold_left error_of (filter (fun f => f.1 ∉ ks) l) acc = fold_left error_of l acc.
Proof.
  intros Hk. revert acc. induction l as [|f l IH]; intros acc; [done|].
  rewrite filter_cons. case_decide as Hf; cbn; [apply IH|].
  rewrite IH. f_equal. unfold error_of. rewrite bool_decide_false; [done|].
  intros E. rewrite E in Hf. exact (Hk Hf).
Qed.

Lemma error_of_none l acc : Forall (fun f => f.1 <> b!"error") l ->
  fold_left error_of l acc = acc.
Proof.
  intros Hl. revert acc. induction Hl as [|f l Hf _ IH]; intros acc; cbn; [done|].
  rewrite IH. unfold error_of. by rewrite bool_decide_false.
Qed.

(** The fields a report writes. *)
Definition report_fields (now : Z) (name : bytes) (d tot : Z) (pct : f32) (sp : Z) (st : bytes)
    : list (bytes * bytes) :=
  [ (b!"model_name", name); (b!"downloaded_bytes", dec d); (b!"total_bytes", dec tot);
    (b!"percentage", fmt_2 pct); (b!"speed_bps", dec sp); (b!"status", st);
    (b!"timestamp", dec now) ].

Lemma set_report_fields now id name d tot pct sp st :
  in_u 64 d -> in_u 64 tot -> in_u 64 sp -> 0 <= now < 2 ^ 63 ->
  fold_left setf (report_fields now name d tot pct sp st) (no_progress id)
  = mkProgress id (Some name) (Some d) (Some tot) (parse_f32 (fmt_2 pct)) (Some sp) (Some st)
      None (Some now).
Proof.
  intros Hd Ht Hs Hn.
  assert (parse_uint 64 (dec d) = Some d) as Ed by by apply parse_uint_dec.
  assert (parse_uint 64 (dec tot) = Some tot) as Et by by apply parse_uint_dec.
  assert (parse_uint 64 (dec sp) = Some sp) as Es by by apply parse_uint_dec.
  assert (parse_int 64 (dec now) = Some now) as En by by apply parse_int_dec.
  transitivity (mkProgress id (Some name) (parse_uint 64 (dec d)) (parse_uint 64 (dec tot))
    (parse_f32 (fmt_2 pct)) (parse_uint 64 (dec sp)) (Some st) None (parse_int 64 (dec now)));
    [reflexivity|]. by rewrite Ed, Et, Es, En.
Qed.

(** What a query shows of a hash. *)
Definition shown (now : Z) (id : ClientId) (s : Server) : ModelDownloadProgressResponse :=
  fold_left setf (progress_hash now (ClientId_display id) (redis_download s))
    (no_progress (ClientId_display id)).

Lemma progress_hash_id now id r :
  progress_hash now (ClientId_display id) r
  = match r !! id with Some (f, e) => if now <? e then f else [] | None => [] end.
Proof.
  unfold progress_hash, ClientId_display. rewrite hex_roundtrip. by rewrite bool_decide_true.
Qed.

End Progress.

End ApiFacts.
