(* ===== verification/Reports.v ===== *)
(** * API server: reports ([gpuf-s/src/api_server/points.rs], [client.rs], [db/stats.rs])

    The read-only routes of the API server over the tables that sessions, heartbeats and
    the points refresh fill: the paged list of daily points, the lists and details of a
    user's clients, the summary, the monitoring and the heartbeat reports. A report is a
    function of the tables; rows that an ORDER BY does not tell apart, or that come without
    one, come in any order and the model picks one. ILIKE, float arithmetic of the database
    and the parser of dates are parameters. *)
From S2P Require Import Prelude Wire Ids Text Catalog Session Points Heartbeats Api.
From Stdlib Require Import ZArith QArith Qround Lia Lqa String.
From Stdlib Require Import Strings.Byte.
From stdpp Require Import base list gmap sorting lexico.

Local Open Scope Z_scope.
Local Open Scope bytes_scope.

(** ** Orders *)

(** Row order by a key; a total order when no two rows have the same key. *)
Definition key_le {A K} `{Lexico K} (key : A -> K) (a b : A) : Prop :=
  lexico (key a) (key b) \/ key a = key b.

#[global] Instance key_le_dec {A K} `{Lexico K, !StrictOrder (@lexico K _),
    !TrichotomyT (@lexico K _)} (key : A -> K) a b :
  Decision (key_le key a b).
Proof.
  refine (match trichotomyT lexico (key a) (key b) with
          | inleft (left H) => left (or_introl H)
          | inleft (right H) => left (or_intror H)
          | inright H => right _
          end).
  intros [H'|E].
  - exact (irreflexivity lexico (key a) (transitivity H' H)).
  - rewrite E in H. exact (irreflexivity lexico (key b) H).
Defined.

(** Client ids compare byte by byte. *)
Definition bytea (s : bytes) : list Z := Z_of_byte <$> s.

(** ** Daily points *)

(** [device_points_daily] with its name column. *)
Abbreviation PointsDaily := (gmap (ClientId * Z * Z) (PointsRow * option bytes)).

Record PointsQueryRequest := mkPointsQuery {
  pq_user_id : bytes; pq_client_id : option bytes; pq_client_name : option bytes;
  pq_device_id : option Z; pq_start_date : option Z; pq_end_date : option Z;
  pq_page : option Z; pq_page_size : option Z }.

(** Points in hundredths: the code sends that number divided by 100 as a double. *)
Record DevicePointsResponse := mkDevicePoints {
  ds_client_id : bytes; ds_client_name : bytes; ds_date : Z; ds_total_heartbeats : Z;
  ds_device_name : bytes; ds_device_id : Z; ds_device_index : Z; ds_points : Z }.

Record PointsListResponse := mkPointsList {
  pl_points : list DevicePointsResponse; pl_total_points : Z; pl_total_count : Z;
  pl_page : Z; pl_page_size : Z }.

(** A joined row: key, points row with name, asset. *)
Record BasePoints := mkBase {
  b_key : ClientId * Z * Z; b_row : PointsRow; b_device_name : option bytes;
  b_asset : AssetRow }.

(** The conditions and what is bound to them. *)
Record PointsFilter := mkFilter {
  pf_user : bytes; pf_client : option bytes; pf_name : option bytes; pf_device : option Z;
  pf_start : option Z; pf_end : option Z }.

Inductive PointsReply :=
  | PointsOk (r : ApiResponse PointsListResponse)
  | PointsErr (code : Z) (r : ApiResponse ()).

Fixpoint trim_start_while (p : byte -> bool) (s : bytes) : bytes :=
  match s with
  | b :: s' => if p b then trim_start_while p s' else s
  | [] => []
  end.
(** [trim_matches] with a test for one-byte characters. *)
Definition trim_while (p : byte -> bool) (s : bytes) : bytes :=
  rev (trim_start_while p (rev (trim_start_while p s))).
Definition is_quote (b : byte) : bool := bool_decide (b = Byte.x27) || bool_decide (b = Byte.x22).

Definition in_1_100 (n : Z) : bool := (1 <=? n) && (n <=? 100).

(** The dates the database can hold, as days from 1970-01-01. *)
Definition pg_date (d : Z) : option Z := if -2440588 <=? d then Some d else None.

Section Points.
Context `{H : Hex} (ilike : bytes -> bytes -> bool).

Definition points_where (f : PointsFilter) (b : BasePoints) : bool :=
  bool_decide (ar_user_id (b_asset b) = Some (pf_user f))
  && Qlt_bool 0 (p_points (b_row b))
  && opt_all (pf_client f) (fun c => bool_decide ((b_key b).1.1 = c))
  && opt_all (pf_name f) (fun n => ilike (default [] (ar_client_name (b_asset b))) n)
  && opt_all (pf_device f) (fun d => bool_decide (p_device_id (b_row b) = Some d))
  && opt_all (pf_start f) (fun d => d <=? (b_key b).2)
  && opt_all (pf_end f) (fun d => (b_key b).2 <=? d).

(** The inner join: each points row with the asset of its client. *)
Definition points_join (t : PointsDaily) (assets : AssetTable) : list BasePoints :=
  omap (fun kr => a ← assets !! kr.1.1.1; Some (mkBase kr.1 kr.2.1 kr.2.2 a)) (map_to_list t).

(** [ORDER BY date ASC, client_id ASC, device_index ASC] and
    [ORDER BY date DESC, client_id, device_index]; the key is (client, index, date). *)
Definition asc_key (b : BasePoints) : Z * (list Z * Z) :=
  ((b_key b).2, (bytea (b_key b).1.1, (b_key b).1.2)).
Definition desc_key (b : BasePoints) : Z * (list Z * Z) :=
  (- (b_key b).2, (bytea (b_key b).1.1, (b_key b).1.2)).

Definition base_points (f : PointsFilter) (t : PointsDaily) (assets : AssetTable)
    : list BasePoints :=
  merge_sort (key_le asc_key) (filter (fun b => points_where f b = true) (points_join t assets)).

Definition scaled (b : BasePoints) : Q := (p_points (b_row b) * 100)%Q.

(** [FLOOR(cumulative) - FLOOR(cumulative - raw)], with the running sum. *)
Fixpoint floor_points (acc : Q) (l : list BasePoints) : list (BasePoints * Z) :=
  match l with
  | [] => []
  | b :: l => let cumulative := (acc + scaled b)%Q in
              (b, Qfloor cumulative - Qfloor (cumulative - scaled b)) :: floor_points cumulative l
  end.

(** [filtered_points] in the order of [row_num]. *)
Definition filtered_points (f : PointsFilter) (t : PointsDaily) (assets : AssetTable)
    : list (BasePoints * Z) :=
  merge_sort (key_le (fun bp => desc_key bp.1)) (floor_points 0 (base_points f t assets)).

Definition total_points (f : PointsFilter) (t : PointsDaily) (assets : AssetTable) : Z :=
  Qfloor (Qsum (scaled <$> base_points f t assets)).

Definition points_response (bp : BasePoints * Z) : DevicePointsResponse :=
  let b := bp.1 in
  mkDevicePoints (hex_encode (b_key b).1.1) (default [] (ar_client_name (b_asset b)))
    (b_key b).2 (p_total_heartbeats (b_row b)) (default b!"-" (b_device_name b))
    (default 0 (p_device_id (b_row b))) (b_key b).1.2 bp.2.

(** The statement with its bound values; [None] when one of them cannot be bound. *)
Definition bind_filter (f : PointsFilter) : option PointsFilter :=
  user ← pg_text (pf_user f);
  name ← nullable pg_text (pf_name f);
  s ← match pf_start f with Some d => Some <$> pg_date d | None => Some None end;
  e ← match pf_end f with Some d => Some <$> pg_date d | None => Some None end;
  Some (mkFilter user (pf_client f) name (pf_device f) s e).

Definition client_filter (client_id : option bytes) : result (option bytes) :=
  match client_id with
  | None => Ok None
  | Some text =>
      let? b := ok_or (hex_decode (trim_while is_quote (trim text)))
                  b!"invalid client_id: expected 32-char hex string" in
      if (length b =? 16)%nat then Ok (Some b)
      else Err b!"invalid client_id: expected 16 bytes (32 hex chars)"
  end.

Definition name_filter (client_name : option bytes) : option bytes :=
  n ← client_name; let n := trim n in if is_empty n then None else Some n.

(** The text of the validation errors is left out of the message. *)
Definition get_user_points (up : bool) (now : Z) (q : PointsQueryRequest) (t : PointsDaily)
    (assets : AssetTable) : PointsReply :=
  if negb (opt_all (pq_page q) in_1_100 && opt_all (pq_page_size q) in_1_100)
  then PointsErr BAD_REQUEST (ApiResponse_error now b!"validation errors: ")
  else
    let page := default 1 (pq_page q) in
    let page_size := default 20 (pq_page_size q) in
    let offset := (page - 1) * page_size in
    match client_filter (pq_client_id q) with
    | Err e => PointsErr BAD_REQUEST (ApiResponse_error now e)
    | Ok client =>
        let name := (fun n => b!"%" ++ n ++ b!"%") <$> name_filter (pq_client_name q) in
        match bind_filter (mkFilter (pq_user_id q) client name (pq_device_id q)
                             (pq_start_date q) (pq_end_date q)) with
        | None => PointsErr INTERNAL_SERVER_ERROR (ApiResponse_error now b!"internal server error")
        | Some f =>
            if negb up
            then PointsErr INTERNAL_SERVER_ERROR (ApiResponse_error now b!"internal server error")
            else
              let rows := take (Z.to_nat page_size)
                            (drop (Z.to_nat offset) (filtered_points f t assets)) in
              match rows with
              | [] => PointsOk (ApiResponse_success now (mkPointsList [] 0 0 page page_size))
              | _ => PointsOk (ApiResponse_success now
                       (mkPointsList (points_response <$> rows) (total_points f t assets)
                          (blen (filtered_points f t assets)) page page_size))
              end
        end
    end.
End Points.

(** ** Clients of a user *)
Record ClientDeviceInfo := mkClientDevice {
  cd_client_id : bytes; cd_client_name : bytes; cd_client_status : bytes; cd_os_type : bytes;
  cd_device_name : bytes; cd_tflops : Z; cd_cpu_usage : Z; cd_memory_usage : Z;
  cd_storage_usage : Z; cd_health : Z; cd_last_online : Z; cd_created_at : Z;
  cd_uptime_days : Z; cd_loaded_models : list Model }.

Record ClientListQuery := mkClientListQuery {
  lq_user_id : bytes; lq_client_id : option bytes; lq_status : option bytes;
  lq_name : option bytes; lq_valid_status : option bytes }.

Record ClientListResponse := mkClientList { cl_total : Z; cl_devices : list ClientDeviceInfo }.

Record ClientDetailQuery := mkDetailQuery {
  dq_user_id : bytes; dq_client_id : bytes; dq_status : option bytes; dq_name : option bytes }.

Record SystemInfoDetailResponse := mkSystemDetail {
  sd_health : Z; sd_cpu_usage : Z; sd_memory_usage : Z; sd_storage_usage : Z;
  sd_device_memsize : Z; sd_uptime_days : Z }.
Record DeviceInfoResponse := mkDeviceInfoResponse {
  di_device_index : Z; di_name : bytes; di_temp : Z; di_usage : Z; di_mem_usage : Z;
  di_power_usage : Z }.
Record ClientDeviceDetailResponse := mkClientDetail {
  cdd_system_info : SystemInfoDetailResponse; cdd_device_info : list DeviceInfoResponse }.

Record ClientStatResponse := mkClientStat {
  cs_total : Z; cs_online : Z; cs_maintenance : Z; cs_warnings : Z; cs_total_tflops : Z;
  cs_uptime_rate : Z }.

Section Clients.
Context `{Fl : Float} `{H : Hex}.

(** What the server keeps for the reports: the full asset rows beside the tables of the
    heartbeats. *)
Context (db : Db) (assets : AssetTable).

(** The average of [LEAST(1, total_heartbeats / 720) * 100] over some days in hundredths,
    rounded as the database rounds it; its product with a factor in tenths cut to a byte;
    the average of [total_heartbeats / 720] in percent, rounded by the code. *)
Context (ilike : bytes -> bytes -> bool) (health_rate : list Z -> Z) (scale_u8 : Z -> Z -> Z)
  (uptime_percent : list Z -> Z).

Definition is_valid (o : AssetRow) : bool := bool_decide (ar_valid_status o = Some b!"valid").

(** The days on which a client was seen, with the heartbeats of each. *)
Definition client_days (id : ClientId) : list Z :=
  omap (fun ks => if bool_decide (ks.1.1 = id) then Some (c_total_heartbeats ks.2) else None)
    (map_to_list (client_stats db)).

(** [COALESCE(..., 0)]: no day, no average. *)
Definition client_health (id : ClientId) : Z :=
  match client_days id with [] => 0 | days => health_rate days end.

(** [f64 as u8] of a number of hundredths. *)
Definition hundredths_u8 (h : Z) : Z := Z.max 0 (Z.min 255 (Z.quot h 100)).

(** The conditions as bound; the status of a valid client is compared once more when the
    query names one. *)
Definition list_where (user : bytes) (client : option ClientId) (status name valid : option bytes)
    (id : ClientId) (o : AssetRow) : bool :=
  bool_decide (ar_user_id o = Some user) && is_valid o
  && opt_all client (fun c => bool_decide (id = c))
  && opt_all status (fun s => bool_decide (ar_client_status o = Some s))
  && opt_all valid (fun v => bool_decide (ar_valid_status o = Some v))
  && opt_all name (fun n => match ar_client_name o with Some c => ilike c n | None => false end).

(** A row as it is decoded; a client without a name or a status does not decode. *)
Definition status_row (id : ClientId) (o : AssetRow) : option ClientDeviceInfo :=
  name ← ar_client_name o;
  status ← ar_client_status o;
  let sys := system_info db !! id in
  Some (mkClientDevice (ClientId_display id) name status (default [] (ar_os_type o))
    (default [] (v_device_name <$> device_info db !! (id, 0)))
    (wrap 16 (default 0 (y_total_tflops <$> sys))) (wrap 8 (default 0 (y_cpu <$> sys)))
    (wrap 8 (default 0 (y_mem <$> sys))) (wrap 8 (default 0 (y_disk <$> sys)))
    (hundredths_u8 (client_health id)) (ar_updated_at o) (ar_created_at o)
    (wrap 32 (blen (client_days id))) []).

Definition get_user_client_status_list_db (up : bool) (user : bytes) (client_id : option bytes)
    (status name valid : option bytes) : result (list ClientDeviceInfo) :=
  let? client := match client_id with
                 | Some text => rbind (ClientId_from_str text) (fun c => Ok (Some c))
                 | None => Ok None
                 end in
  if negb up then Err db_error
  else
    let? user := ok_or (pg_text user) db_error in
    let? status := ok_or (nullable pg_text status) db_error in
    let? valid := ok_or (nullable pg_text valid) db_error in
    let? name := ok_or (nullable pg_text ((fun n => b!"%" ++ n ++ b!"%") <$> name)) db_error in
    ok_or (mapM (fun io => status_row io.1 io.2)
             (filter (fun io => list_where user client status name valid io.1 io.2 = true)
                (map_to_list assets))) db_error.

(** [get_loaded_models_batch_from_redis]: the models each client reported in the last 300
    seconds; without a connection, or when the command fails, none. *)
Definition loaded_models (redis_ok : bool) (now : Z) (redis : gmap bytes (list Model * Z))
    (client_id : bytes) : option (list Model) :=
  if redis_ok
  then id ← hex_decode client_id;
       if bool_decide (ClientId_display id = client_id)
       then match redis !! id with
            | Some (ms, expiry) => if now <? expiry then Some ms else None
            | None => None
            end
       else None
  else None.

Definition with_models (ms : option (list Model)) (d : ClientDeviceInfo) : ClientDeviceInfo :=
  match ms with
  | Some ms => mkClientDevice (cd_client_id d) (cd_client_name d) (cd_client_status d)
                 (cd_os_type d) (cd_device_name d) (cd_tflops d) (cd_cpu_usage d)
                 (cd_memory_usage d) (cd_storage_usage d) (cd_health d) (cd_last_online d)
                 (cd_created_at d) (cd_uptime_days d) ms
  | None => d
  end.

(** [get_user_clients] and [get_user_client_status_list] are the same function. *)
Definition get_user_clients (up redis_ok : bool) (now : Z) (q : ClientListQuery)
    (redis : gmap bytes (list Model * Z)) : Reply ClientListResponse :=
  match get_user_client_status_list_db up (lq_user_id q) (lq_client_id q) (lq_status q)
          (lq_name q) (lq_valid_status q) with
  | Err _ => StatusCode INTERNAL_SERVER_ERROR
  | Ok devices =>
      let devices := (fun d => with_models (loaded_models redis_ok now redis (cd_client_id d)) d)
                       <$> devices in
      Json (ApiResponse_success now (mkClientList (blen devices) devices))
  end.

(** [health_rate * factor] by the hours since the last update; times in microseconds. *)
Definition detail_health (now : Z) (id : ClientId) (o : AssetRow) : Z :=
  let hours := Z.quot (now - ar_updated_at o) 3600000000 in
  scale_u8 (client_health id) (if hours <? 1 then 9 else if hours <? 24 then 7 else 5).

(** [COUNT(id) FROM device_daily_stats]: a row per device and day. *)
Definition device_day_rows (id : ClientId) : Z :=
  blen (filter (fun ks => ks.1.1.1 = id) (map_to_list (device_stats db))).

Definition device_rows (id : ClientId) : list (Z * DeviceRow) :=
  merge_sort (key_le fst)
    (omap (fun kv => if bool_decide (kv.1.1 = id) then Some (kv.1.2, kv.2) else None)
       (map_to_list (device_info db))).

Definition device_info_response (r : Z * DeviceRow) : DeviceInfoResponse :=
  mkDeviceInfoResponse (wrap 8 r.1) (v_device_name r.2) (wrap 8 (v_temp r.2))
    (wrap 8 (v_gpuusage r.2)) (wrap 8 (v_memusage r.2)) (wrap 8 (v_powerusage r.2)).

Definition get_client_device_detail (up : bool) (now : Z) (user : bytes) (id : ClientId)
    : result ClientDeviceDetailResponse :=
  if negb up then Err db_error
  else
    let? user := ok_or (pg_text user) db_error in
    let? o := ok_or (o ← assets !! id;
                     if bool_decide (ar_user_id o = Some user) && is_valid o then Some o else None)
                b!"Device not found" in
    let? _ := ok_or (_ ← ar_client_name o; ar_client_status o) db_error in
    let sys := default (mkSystemRow 0 0 0 0 0 0) (system_info db !! id) in
    let days := device_day_rows id in
    Ok (mkClientDetail
          (mkSystemDetail (detail_health now id o) (wrap 8 (y_cpu sys)) (wrap 8 (y_mem sys))
             (wrap 8 (y_disk sys)) (wrap 32 (y_device_memsize sys))
             (if days <? 2 ^ 16 then days else 0))
          (device_info_response <$> device_rows id)).

Definition get_client_detail (up : bool) (now : Z) (q : ClientDetailQuery)
    : Reply ClientDeviceDetailResponse :=
  match ClientId_from_str (dq_client_id q) with
  | Err _ => StatusCode BAD_REQUEST
  | Ok id => match get_client_device_detail up now (dq_user_id q) id with
             | Ok d => Json (ApiResponse_success now d)
             | Err _ => StatusCode INTERNAL_SERVER_ERROR
             end
  end.

(** ** Summary *)

(** The valid clients of a user. *)
Definition own_clients (user : bytes) : list (ClientId * AssetRow) :=
  filter (fun io => bool_decide (ar_user_id io.2 = Some user) && is_valid io.2 = true)
    (map_to_list assets).

Definition count_where (p : AssetRow -> bool) (l : list (ClientId * AssetRow)) : Z :=
  blen (filter (fun io => p io.2 = true) l).

(** Clients with a heartbeat after [now - interval]; times in microseconds. *)
Definition recently_seen (since : Z) (id : ClientId) : bool :=
  existsb (fun kh => bool_decide (kh.1.1 = id) && (since <? kh.1.2)) (map_to_list (heartbeat db)).

(** The heartbeats of the user's clients on a day. *)
Definition heartbeats_on (user : bytes) (day : Z) : list Z :=
  omap (fun ks => if bool_decide (ks.1.2 = day) && (0 <? c_total_heartbeats ks.2)
                     && existsb (fun io => bool_decide (io.1 = ks.1.1)) (own_clients user)
                  then Some (c_total_heartbeats ks.2) else None)
    (map_to_list (client_stats db)).

Definition get_client_stats_db (up : bool) (now today : Z) (user : bytes) (recent_secs : Z)
    : result ClientStatResponse :=
  if negb up then Err db_error
  else
    let? user := ok_or (pg_text user) db_error in
    let own := own_clients user in
    Ok (mkClientStat (blen own)
          (blen (filter (fun io => recently_seen (now - recent_secs * 1000000) io.1 = true) own))
          (count_where (fun o => bool_decide (ar_client_status o = Some b!"maintenance")) own)
          (count_where (fun o => bool_decide (ar_valid_status o = Some b!"warning")
                                 || bool_decide (ar_valid_status o = Some b!"invalid")) own)
          (sum_Z (fun io => default 0 (y_total_tflops <$> system_info db !! io.1)) own)
          (match heartbeats_on user (today - 1) with [] => 0 | l => uptime_percent l end)).

Definition get_client_stats (up : bool) (now today : Z) (user : bytes)
    : Reply ClientStatResponse :=
  match get_client_stats_db up now today user 120 with
  | Ok s => Json (ApiResponse_success now s)
  | Err _ => StatusCode INTERNAL_SERVER_ERROR
  end.
End Clients.

(** ** Monitoring *)
Section Monitor.
Context `{Fl : Float} `{H : Hex} (db : Db) (assets : AssetTable).
(** Date and time text to microseconds, and the instant of a time without a zone. *)
Context (parse_datetime : bytes -> option Z) (session_instant : Z -> Z).

Record ClientMonitorInfo := mkMonitor {
  mn_client_id : bytes; mn_client_name : option bytes; mn_created_at : Z; mn_updated_at : Z;
  mn_date : option Z; mn_avg_cpu : option F; mn_avg_memory : option F; mn_avg_disk : option F;
  mn_total_in : option Z; mn_total_out : option Z; mn_total_heartbeats : option Z;
  mn_last_heartbeat : option Z; mn_avg_in : option F; mn_avg_out : option F }.

(** [CASE WHEN hb > 0 THEN bytes / hb ELSE 0 END], where bytes may be NULL; the loop after
    the query computes the same quotient again when there are bytes. *)
Definition avg_network (bytes heartbeats : option Z) : option F :=
  match heartbeats with
  | Some n => if 0 <? n then (fun b => f_div (f_of_Z b) (f_of_Z n)) <$> bytes
              else Some (f_of_Z 0)
  | None => Some (f_of_Z 0)
  end.

Definition monitor_row (id : ClientId) (o : AssetRow) (ks : option (Z * ClientDailyStats))
    : ClientMonitorInfo :=
  let s := snd <$> ks in
  let hb := c_total_heartbeats <$> s in
  mkMonitor (hex_encode id) (ar_client_name o) (ar_created_at o) (ar_updated_at o) (fst <$> ks)
    (s ≫= c_avg_cpu) (s ≫= c_avg_memory) (s ≫= c_avg_disk) (s ≫= c_network_in)
    (s ≫= c_network_out) hb (c_last_heartbeat <$> s)
    (avg_network (s ≫= c_network_in) hb) (avg_network (s ≫= c_network_out) hb).

(** The left join: a client without statistics has one row. *)
Definition client_rows (id : ClientId) (o : AssetRow) : list ClientMonitorInfo :=
  match omap (fun ks => if bool_decide (ks.1.1 = id) then Some (ks.1.2, ks.2) else None)
          (map_to_list (client_stats db)) with
  | [] => [monitor_row id o None]
  | l => (fun ks => monitor_row id o (Some ks)) <$> l
  end.

(** [ORDER BY date DESC NULLS LAST, updated_at DESC]. *)
Definition monitor_key (r : ClientMonitorInfo) : bool * (Z * Z) :=
  (match mn_date r with None => true | Some _ => false end,
   (- default 0 (mn_date r), - mn_updated_at r)).

Definition get_client_monitor_db (up : bool) (user : bytes) (client_id : option bytes)
    : result (list ClientMonitorInfo) :=
  let? client := match client_id with
                 | Some text => let? b := ok_or (hex_decode text) err_hex in Ok (Some b)
                 | None => Ok None
                 end in
  if negb up then Err db_error
  else let? user := ok_or (pg_text user) db_error in
       Ok (merge_sort (key_le monitor_key)
             (io ← filter (fun io => opt_all client (fun c => bool_decide (io.1 = c)) = true)
                     (own_clients assets user);
              client_rows io.1 io.2)).

Definition get_client_monitor (up : bool) (now : Z) (user : bytes) (client_id : option bytes)
    : Reply (list ClientMonitorInfo) :=
  match get_client_monitor_db up user client_id with
  | Ok l => Json (ApiResponse_success now l)
  | Err _ => StatusCode INTERNAL_SERVER_ERROR
  end.

(** ** Heartbeats *)
Record ClientHeartbeatInfo := mkClientHeartbeat {
  ch_client_id : bytes; ch_client_name : bytes; ch_timestamp : Z; ch_cpu_usage : Z;
  ch_mem_usage : Z; ch_disk_usage : Z; ch_network_up : Z; ch_network_down : Z }.

Definition heartbeat_entry (since before : option Z) (user : bytes)
    (kh : ClientId * Z * HeartbeatRow) : option ClientHeartbeatInfo :=
  let '(id, ts, h) := kh in
  o ← assets !! id;
  if bool_decide (ar_user_id o = Some user) && is_valid o
     && opt_all since (fun t => session_instant t <=? ts)
     && opt_all before (fun t => ts <? session_instant t)
  then Some (mkClientHeartbeat (hex_encode id) (default [] (ar_client_name o)) ts (h_cpu h)
               (h_mem h) (h_disk h) (h_network_up h) (h_network_down h))
  else None.

(** The client id is bound as text to a comparison with a BYTEA column, for which the
    database has no operator: the statement fails. A date that does not parse is no filter. *)
Definition get_client_heartbeats_db (up : bool) (user : bytes)
    (client_id start_date end_date : option bytes) : result (list ClientHeartbeatInfo) :=
  match client_id with
  | Some text => let? _ := ok_or (hex_decode text) err_hex in Err db_error
  | None =>
      if negb up then Err db_error
      else let? user := ok_or (pg_text user) db_error in
           Ok (merge_sort (key_le (fun h => - ch_timestamp h))
                 (omap (heartbeat_entry (start_date ≫= parse_datetime) (end_date ≫= parse_datetime)
                          user) (map_to_list (heartbeat db))))
  end.

Definition get_client_health (up : bool) (now : Z) (user : bytes)
    (client_id start_date end_date : option bytes) : Reply (list ClientHeartbeatInfo) :=
  match get_client_heartbeats_db up user client_id start_date end_date with
  | Ok l => Json (ApiResponse_success now l)
  | Err _ => StatusCode INTERNAL_SERVER_ERROR
  end.
End Monitor.

(** ** Facts *)
Module ReportFacts.
Import ApiFacts.

#[global] Instance key_le_trans {A K} `{Lexico K, !StrictOrder (@lexico K _)} (key : A -> K) :
  Transitive (key_le key).
Proof.
  intros a b c [H1|H1] [H2|H2]; unfold key_le.
  - left. by trans (key b).
  - left. by rewrite <- H2.
  - left. by rewrite H1.
  - right. congruence.
Qed.

#[global] Instance key_le_total {A K} `{Lexico K, !StrictOrder (@lexico K _),
    !TrichotomyT (@lexico K _)} (key : A -> K) : Total (key_le key).
Proof.
  intros a b. unfold key_le. destruct (trichotomyT lexico (key a) (key b)) as [[|]|]; auto.
Qed.

Lemma take_plus {A} n m (l : list A) : take (n + m) l = take n l ++ take m (drop n l).
Proof.
  revert l. induction n as [|n IH]; intros [|a l]; cbn; [done..|by rewrite take_nil|].
  by rewrite IH.
Qed.

(** The pages of a list, one after the other. *)
Lemma pages_concat {A} (size n : nat) (l : list A) :
  concat ((fun k => take size (drop (k * size) l)) <$> seq 0 n) = take (n * size) l.
Proof.
  induction n as [|n IH]; [done|].
  rewrite seq_S, fmap_app, concat_app, IH. cbn. rewrite app_nil_r.
  by rewrite Nat.add_comm, take_plus.
Qed.

Lemma fmap_concat {A B} (f : A -> B) (ls : list (list A)) :
  @fmap list _ A B f (concat ls) = concat (@fmap list _ _ _ (@fmap list _ A B f) ls).
Proof. induction ls as [|l ls IH]; cbn; [done|]. by rewrite <- IH, fmap_app. Qed.

(** *** Daily points *)

Lemma floor_points_fst acc l : (floor_points acc l).*1 = l.
Proof. revert acc. induction l as [|b l IH]; intros acc; cbn; [done|]. by rewrite IH. Qed.

(** The differences of the running floors add up to the floor of the sum. *)
Lemma floor_points_sum acc l :
  sum_Z snd (floor_points acc l) = Qfloor (acc + Qsum (scaled <$> l)) - Qfloor acc.
Proof.
  revert acc. induction l as [|b l IH]; intros acc; cbn [fmap list_fmap floor_points sum_Z snd].
  - rewrite (Qfloor_comp (acc + Qsum []) acc) by (unfold Qsum; cbn; ring). lia.
  - rewrite IH. rewrite (Qfloor_comp (acc + scaled b - scaled b) acc) by ring.
    rewrite (Qfloor_comp (acc + Qsum (scaled b :: (scaled <$> l)))
               (acc + scaled b + Qsum (scaled <$> l))) by (unfold Qsum; cbn; ring). lia.
Qed.

Lemma floor_difference (x s : Q) :
  (s - 1 < inject_Z (Qfloor x - Qfloor (x - s)))%Q
  /\ (inject_Z (Qfloor x - Qfloor (x - s)) < s + 1)%Q.
Proof.
  pose proof (Qfloor_le x) as H1. pose proof (Qlt_floor x) as H2.
  pose proof (Qfloor_le (x - s)) as H3. pose proof (Qlt_floor (x - s)) as H4.
  rewrite inject_Z_plus in H2, H4. change (inject_Z 1) with 1%Q in *.
  unfold Z.sub. rewrite inject_Z_plus, inject_Z_opp.
  generalize dependent (inject_Z (Qfloor x)). generalize dependent (inject_Z (Qfloor (x - s))).
  intros fy Hy1 Hy2 fx Hx1 Hx2. split; lra.
Qed.

(** Each difference is within one of the amount itself. *)
Lemma floor_points_close acc l bp :
  bp ∈ floor_points acc l ->
  (scaled bp.1 - 1 < inject_Z bp.2)%Q /\ (inject_Z bp.2 < scaled bp.1 + 1)%Q.
Proof.
  revert acc. induction l as [|b l IH]; intros acc; cbn [floor_points]; [by intros ?%elem_of_nil|].
  intros [->|Hin]%elem_of_cons; [|by apply (IH _ Hin)]. apply floor_difference.
Qed.

Section Points.
Context `{H : Hex} (ilike : bytes -> bytes -> bool).

(** The rows a filter selects. *)
Definition selected (f : PointsFilter) (t : PointsDaily) (assets : AssetTable) (b : BasePoints)
    : Prop :=
  b ∈ points_join t assets /\ points_where ilike f b = true.

Lemma base_points_selected f t assets b :
  b ∈ base_points ilike f t assets <-> selected f t assets b.
Proof.
  unfold base_points, selected. rewrite merge_sort_Permutation, list_elem_of_filter. tauto.
Qed.

Lemma filtered_perm f t assets :
  filtered_points ilike f t assets ≡ₚ floor_points 0 (base_points ilike f t assets).
Proof. apply merge_sort_Permutation. Qed.

Lemma filtered_selected f t assets b :
  (exists c, (b, c) ∈ filtered_points ilike f t assets) <-> selected f t assets b.
Proof.
  rewrite <- base_points_selected.
  rewrite <- (floor_points_fst 0 (base_points ilike f t assets)) at 1.
  setoid_rewrite filtered_perm. rewrite list_elem_of_fmap. split.
  - intros [c Hc]. by exists (b, c).
  - intros ([b' c] & -> & Hin). by exists c.
Qed.

Lemma filtered_total f t assets :
  sum_Z snd (filtered_points ilike f t assets) = total_points ilike f t assets.
Proof.
  rewrite (sum_Z_perm _ _ _ (filtered_perm f t assets)), floor_points_sum.
  unfold total_points.
  rewrite (Qfloor_comp (0 + Qsum (scaled <$> base_points ilike f t assets))
             (Qsum (scaled <$> base_points ilike f t assets))) by ring.
  change (Qfloor 0) with 0. lia.
Qed.

Definition at_page (k : Z) (q : PointsQueryRequest) : PointsQueryRequest :=
  mkPointsQuery (pq_user_id q) (pq_client_id q) (pq_client_name q) (pq_device_id q)
    (pq_start_date q) (pq_end_date q) (Some k) (pq_page_size q).

(** What a query asks for, when its client id and its texts are accepted. *)
Definition query_filter (q : PointsQueryRequest) : option PointsFilter :=
  match client_filter (pq_client_id q) with
  | Ok client =>
      bind_filter (mkFilter (pq_user_id q) client
        ((fun n => b!"%" ++ n ++ b!"%") <$> name_filter (pq_client_name q)) (pq_device_id q)
        (pq_start_date q) (pq_end_date q))
  | Err _ => None
  end.

Definition page_answer (k size : Z) (rows : list (BasePoints * Z)) (total : Z)
    : PointsListResponse :=
  let page := take (Z.to_nat size) (drop (Z.to_nat ((k - 1) * size)) rows) in
  match page with
  | [] => mkPointsList [] 0 0 k size
  | _ => mkPointsList (points_response <$> page) total (blen rows) k size
  end.

Lemma get_user_points_page now q t assets f k :
  query_filter q = Some f -> in_1_100 k = true ->
  opt_all (pq_page_size q) in_1_100 = true ->
  get_user_points ilike true now (at_page k q) t assets
  = PointsOk (ApiResponse_success now (page_answer k (default 20 (pq_page_size q))
      (filtered_points ilike f t assets) (total_points ilike f t assets))).
Proof.
  unfold query_filter, get_user_points, at_page.
  cbn [pq_user_id pq_client_id pq_client_name pq_device_id pq_start_date pq_end_date pq_page
       pq_page_size opt_all default andb].
  intros Hf -> ->. cbn [andb negb].
  destruct (client_filter (pq_client_id q)) as [c|]; [|done]. rewrite Hf.
  unfold page_answer. by destruct (take _ _).
Qed.

Lemma page_answer_points k size rows total :
  pl_points (page_answer k size rows total)
  = points_response <$> take (Z.to_nat size) (drop (Z.to_nat ((k - 1) * size)) rows).
Proof. unfold page_answer. by destruct (take _ _). Qed.

Definition page_points (r : PointsReply) : list DevicePointsResponse :=
  match r with
  | PointsOk a => match resp_data a with Some p => pl_points p | None => [] end
  | PointsErr _ _ => []
  end.

(** [C21] The points report adds up. For an accepted query the pages 1 to 100 hold, without gap
    or repetition, the selected rows in the order of the report, as far as 100 pages reach;
    every page that is not empty states the number of all selected rows and their total, an
    empty one states zero for both. When 100 pages are enough, the points shown on all
    pages add up to that total exactly, although each row is rounded by itself, and every
    row shows its points to less than a hundredth. *)
Theorem points_pages_add_up (now : Z) (q : PointsQueryRequest) (t : PointsDaily)
    (assets : AssetTable) (f : PointsFilter) (size : Z) :
  query_filter q = Some f -> pq_page_size q = Some size -> 1 <= size <= 100 ->
  let rows := filtered_points ilike f t assets in
  let page k := get_user_points ilike true now (at_page k q) t assets in
  let pages := concat ((fun k => page_points (page (Z.of_nat k))) <$> seq 1 100) in
  (forall k, 1 <= k <= 100 -> exists p, page k = PointsOk (ApiResponse_success now p)
     /\ pl_page p = k /\ pl_page_size p = size /\ blen (pl_points p) <= size
     /\ (pl_total_points p, pl_total_count p)
        = match pl_points p with
          | [] => (0, 0) | _ => (total_points ilike f t assets, blen rows) end)
  /\ pages = points_response <$> take (100 * Z.to_nat size) rows
  /\ (blen rows <= 100 * size -> sum_Z ds_points pages = total_points ilike f t assets)
  /\ (forall b, (exists c, (b, c) ∈ rows) <-> selected f t assets b)
  /\ (forall bp, bp ∈ rows -> (scaled bp.1 - 1 < inject_Z (ds_points (points_response bp)))%Q
                              /\ (inject_Z (ds_points (points_response bp)) < scaled bp.1 + 1)%Q).
Proof.
  intros Hf Hs Hr rows page pages.
  assert (forall k, 1 <= k <= 100 -> page k = PointsOk (ApiResponse_success now
    (page_answer k size rows (total_points ilike f t assets)))) as Hp.
  { intros k Hk. unfold page. rewrite (get_user_points_page _ _ _ _ f) by
      (rewrite ?Hs; cbn; unfold in_1_100; try done; apply andb_true_intro; split; lia).
    by rewrite Hs. }
  assert (pages = points_response <$> take (100 * Z.to_nat size) rows) as Hpages.
  { rewrite <- (pages_concat (Z.to_nat size) 100), fmap_concat. unfold pages. f_equal.
    rewrite <- (fmap_S_seq 0 100), <- !list_fmap_compose. apply list_fmap_ext.
    intros i k [-> Hk]%lookup_seq. cbn -[Z.of_nat page]. rewrite Hp by lia. cbn.
    rewrite page_answer_points. do 3 f_equal. lia. }
  split; [|split; [done|split; [|split]]].
  - intros k Hk. eexists. split; [by apply Hp|]. rewrite page_answer_points.
    unfold page_answer. set (pg := take _ _).
    assert (blen pg <= size) by (unfold pg, blen; rewrite length_take; lia).
    unfold blen in *. destruct pg; cbn in *; rewrite ?length_fmap; by split_and!; try lia.
  - intros Hn. rewrite Hpages, take_ge by (unfold blen in Hn; lia).
    rewrite <- filtered_total. fold rows. clear. induction rows as [|bp l IH]; cbn; [done|].
    by rewrite IH.
  - intros b. apply filtered_selected.
  - intros bp Hin. unfold rows in Hin. rewrite filtered_perm in Hin.
    by apply floor_points_close in Hin.
Qed.
End Points.

(** *** Points shown and points credited *)

Definition owners_of (assets : AssetTable) : list AssetOwner :=
  (fun io => mkOwner io.1 (ar_user_id io.2)) <$> map_to_list assets.

(** Joining over the rows of a keyed table picks the row of the key. *)
Lemma bind_key {V B : Type} (m : gmap bytes V) (k : bytes) (f : V -> list B) :
  (io ← map_to_list m; if bool_decide (io.1 = k) then f io.2 else [])
  = match m !! k with Some v => f v | None => [] end.
Proof.
  pose proof (NoDup_fst_map_to_list m) as Hnd.
  assert (forall v, m !! k = Some v <-> (k, v) ∈ map_to_list m) as Hk
    by (intros v; by rewrite elem_of_map_to_list).
  revert Hnd Hk. generalize (map_to_list m) as l. generalize (m !! k) as o.
  intros o l. revert o. induction l as [|[i v] l IH]; intros o Hnd Hk; cbn.
  - destruct o as [w|]; [|done]. pose proof (proj1 (Hk w) eq_refl) as Hn.
    by apply elem_of_nil in Hn.
  - apply NoDup_cons in Hnd as [Hi Hnd]. case_bool_decide as E.
    + subst i. assert (o = Some v) as -> by (apply Hk; by left).
      rewrite (IH None Hnd); [by rewrite app_nil_r|]. intros w. split; [done|].
      intros Hw. destruct Hi. by apply (list_elem_of_fmap_2 fst) in Hw.
    + apply IH; [done|]. intros w. rewrite Hk, elem_of_cons. split; [|by right].
      intros [[= ? ?]|]; congruence.
Qed.

Definition all_points (user : bytes) : PointsFilter := mkFilter user None None None None None.

(** The owner text of a user: the one text that is read as that user's number. *)
Definition owner_text (assets : AssetTable) (user : bytes) (u : Z) : Prop :=
  forall id o, assets !! id = Some o ->
    (ar_user_id o ≫= parse_user = Some u <-> ar_user_id o = Some user).

Lemma points_where_all ilike user b :
  points_where ilike (all_points user) b
  = bool_decide (ar_user_id (b_asset b) = Some user) && Qlt_bool 0 (p_points (b_row b)).
Proof. unfold points_where. cbn. by rewrite !andb_true_r. Qed.

Lemma settled_rows_of (ilike : bytes -> bytes -> bool) (assets : AssetTable) (user : bytes)
    (u cutoff : Z)
    (l : list ((ClientId * Z * Z) * (PointsRow * option bytes))) :
  owner_text assets user u -> Forall (fun kr => kr.1.2 <= cutoff) l ->
  rows_of u (d ← ((fun kr => mkDaily kr.1.1.1 kr.1.2 (p_points kr.2.1) (p_refreshed_at kr.2.1)) <$> l);
             a ← owners_of assets;
             if bool_decide (ao_client a = dp_client d) && Qlt_bool 0 (dp_points d)
                && (dp_date d <=? cutoff)
             then match ao_user a ≫= parse_user with Some u => [(u, d)] | None => [] end
             else [])
  = (fun b => mkDaily (b_key b).1.1 (b_key b).2 (p_points (b_row b)) (p_refreshed_at (b_row b)))
    <$> filter (fun b => points_where ilike (all_points user) b = true)
          (omap (fun kr => a ← assets !! kr.1.1.1; Some (mkBase kr.1 kr.2.1 kr.2.2 a)) l).
Proof.
  intros Ho. induction 1 as [|[[[c i] d] [r n]] l Hd Hl IH]; [done|]. cbn in Hd.
  cbn [fmap list_fmap mbind list_bind fst snd]. unfold rows_of in *.
  rewrite List.filter_app, fmap_app, IH. clear IH. cbn [ao_client ao_user dp_client dp_points dp_date].
  assert ((a ← owners_of assets;
     if bool_decide (ao_client a = c) && Qlt_bool 0 (p_points r) && (d <=? cutoff)
     then match ao_user a ≫= parse_user with
          | Some u => [(u, mkDaily c d (p_points r) (p_refreshed_at r))] | None => [] end else [])
    = match assets !! c with
      | Some o => if Qlt_bool 0 (p_points r)
                  then match ar_user_id o ≫= parse_user with
                       | Some u => [(u, mkDaily c d (p_points r) (p_refreshed_at r))]
                       | None => [] end
                  else []
      | None => []
      end) as ->.
  { rewrite <- (bind_key assets c (fun o => if Qlt_bool 0 (p_points r)
      then match ar_user_id o ≫= parse_user with
           | Some u => [(u, mkDaily c d (p_points r) (p_refreshed_at r))] | None => [] end
      else [])).
    unfold owners_of. rewrite (proj2 (Z.leb_le _ _) Hd). clear.
    induction (map_to_list assets) as [|[k o] m IH]; [done|]. cbn in *. rewrite IH. f_equal.
    rewrite andb_true_r. by destruct (bool_decide (k = c)), (Qlt_bool 0 (p_points r)). }
  change (omap ?g (((c, i, d), (r, n)) :: l))
    with (match g ((c, i, d), (r, n)) with Some x => x :: omap g l | None => omap g l end).
  cbn [fst snd]. destruct (assets !! c) as [o|] eqn:Hc; [|done]. cbn [mbind option_bind].
  rewrite filter_cons, points_where_all. cbn [b_asset b_row].
  destruct (Qlt_bool 0 (p_points r)); [rewrite andb_true_r|by rewrite andb_false_r].
  specialize (Ho c o Hc). destruct (ar_user_id o ≫= parse_user) as [u'|] eqn:Hu.
  - cbn [List.filter fst]. destruct (Z.eqb_spec u' u) as [->|Hne].
    + rewrite bool_decide_true by by apply Ho. by rewrite decide_True.
    + rewrite bool_decide_false by (intros E%Ho; congruence). by rewrite decide_False.
  - rewrite bool_decide_false by (intros E%Ho; congruence). by rewrite decide_False.
Qed.

Lemma Qsum_perm (l k : list Q) : l ≡ₚ k -> (Qsum l == Qsum k)%Q.
Proof.
  unfold Qsum. induction 1; cbn; [reflexivity|by rewrite IHPermutation|ring|].
  by etransitivity.
Qed.

(** What a user is shown is what is credited: the total of the report without filters is
    the cumulative target that the points synchronisation computes for the user at the
    default scale of 100 credits per point, as soon as the days of the table have settled. *)
Theorem shown_total_is_credit_target (ilike : bytes -> bytes -> bool) (t : PointsDaily) (assets : AssetTable)
    (user : bytes) (u cutoff : Z) :
  owner_text assets user u -> map_Forall (fun k _ => k.2 <= cutoff) t ->
  total_points ilike (all_points user) t assets
  = target_amount (credit_scale PointsSyncConfig_disabled)
      (rows_of u (settled (mkSource (daily_points (fst <$> t)) (owners_of assets)) cutoff)).
Proof.
  intros Ho Ht. unfold target_amount, total_points. apply Qfloor_comp.
  unfold settled, daily_points. cbn [daily owners]. rewrite map_to_list_fmap.
  rewrite <- list_fmap_compose.
  rewrite (settled_rows_of ilike assets user u cutoff); [|done|].
  2: { apply Forall_forall. intros [k r] Hk%elem_of_map_to_list. by apply (Ht k r). }
  rewrite <- list_fmap_compose. apply Qsum_perm.
  unfold base_points. rewrite merge_sort_Permutation. done.
Qed.

(** *** Clients of a user *)
Section Clients.
Context `{Fl : Float} `{H : Hex} {L : HexLaws H} (db : Db) (assets : AssetTable)
  (ilike : bytes -> bytes -> bool) (health_rate : list Z -> Z) (uptime_percent : list Z -> Z).

Abbreviation row := (status_row db health_rate).
Abbreviation clients := (get_user_clients db assets ilike health_rate).

(** A row that decodes and the client id it came from. *)
Lemma status_row_id id o d : row id o = Some d -> cd_client_id d = ClientId_display id.
Proof. unfold status_row. intros (n & _ & (s & _ & [= <-])%bind_Some)%bind_Some. done. Qed.

Lemma mapM_rows (l : list (ClientId * AssetRow)) ds :
  mapM (fun io => row io.1 io.2) l = Some ds ->
  forall d, d ∈ ds <-> exists io, io ∈ l /\ row io.1 io.2 = Some d.
Proof.
  intros Hm%mapM_Some d. split.
  - intros (i & Hd)%list_elem_of_lookup. destruct (Forall2_lookup_r _ _ _ _ _ Hm Hd) as (io & Hio & E).
    exists io. split; [by apply list_elem_of_lookup_2 in Hio|done].
  - intros (io & (i & Hio)%list_elem_of_lookup & E).
    destruct (Forall2_lookup_l _ _ _ _ _ Hm Hio) as (d' & Hd & E'). apply list_elem_of_lookup.
    exists i. congruence.
Qed.

(** The filters of an accepted query. *)
Definition query_client (q : ClientListQuery) : option (option ClientId) :=
  match lq_client_id q with
  | None => Some None
  | Some text => match ClientId_from_str text with Ok c => Some (Some c) | Err _ => None end
  end.
Definition wanted (q : ClientListQuery) (client : option ClientId) (id : ClientId) (o : AssetRow)
    : bool :=
  list_where ilike (lq_user_id q) client (lq_status q)
    ((fun n => b!"%" ++ n ++ b!"%") <$> lq_name q) (lq_valid_status q) id o.

Lemma nullable_pg_text o o' : nullable pg_text o = Some o' -> o' = o.
Proof.
  destruct o as [s|]; cbn; [|congruence].
  destruct (pg_text s) eqn:E; cbn; [|done]. apply pg_text_Some in E as ->. congruence.
Qed.

(** A list that is answered comes from the rows the query selects, all of which decode. *)
Lemma get_user_clients_Json redis_ok now q redis a :
  clients true redis_ok now q redis = Json a ->
  exists client ds,
    query_client q = Some client
    /\ mapM (fun io => row io.1 io.2)
         (filter (fun io => wanted q client io.1 io.2 = true) (map_to_list assets)) = Some ds
    /\ a = ApiResponse_success now (mkClientList (blen ds)
         ((fun d => with_models (loaded_models redis_ok now redis (cd_client_id d)) d) <$> ds)).
Proof.
  unfold get_user_clients, get_user_client_status_list_db, query_client, wanted.
  set (c := match lq_client_id q with Some text => _ | None => _ end).
  assert (forall x, c = Ok x -> match lq_client_id q with
    | None => Some None
    | Some text => match ClientId_from_str text with Ok c => Some (Some c) | Err _ => None end
    end = Some x) as Hc.
  { intros x. unfold c. destruct (lq_client_id q) as [text|]; [|congruence].
    destruct (ClientId_from_str text); cbn; congruence. }
  destruct c as [client|]; [|done]. cbn [rbind]. specialize (Hc client eq_refl).
  destruct (pg_text (lq_user_id q)) as [u|] eqn:Hu; [|done]. apply pg_text_Some in Hu as ->.
  destruct (nullable pg_text (lq_status q)) as [s|] eqn:Hs; [|done].
  destruct (nullable pg_text (lq_valid_status q)) as [v|] eqn:Hv; [|done].
  destruct (nullable pg_text (_ <$> lq_name q)) as [n|] eqn:Hn; [|done].
  apply nullable_pg_text in Hs as ->, Hv as ->, Hn as ->. cbn [negb ok_or rbind].
  destruct (mapM _ _) as [ds|] eqn:Hm; [|done]. cbn. intros [= <-].
  exists client, ds. split; [done|]. split; [exact Hm|].
  do 2 f_equal. unfold blen. by rewrite length_fmap.
Qed.

(** A user's list of clients: when it is answered it holds exactly the valid clients of
    that user which pass the filters, once for each, and states their number; no client of
    another user and no invalid one is ever in it, so a filter on another validity than
    valid gives an empty list. It is refused as a whole when one of these clients has no
    name or no status. *)
Theorem client_list_spec (redis_ok : bool) (now : Z) (q : ClientListQuery)
    (redis : gmap bytes (list Model * Z)) (a : ApiResponse ClientListResponse) :
  clients true redis_ok now q redis = Json a ->
  exists client l, query_client q = Some client /\ resp_data a = Some l
    /\ cl_total l = blen (cl_devices l)
    /\ (forall d, d ∈ cl_devices l <->
          exists id o d0, assets !! id = Some o /\ wanted q client id o = true
            /\ row id o = Some d0
            /\ d = with_models (loaded_models redis_ok now redis (cd_client_id d0)) d0)
    /\ (forall id o, assets !! id = Some o -> wanted q client id o = true ->
          ar_user_id o = Some (lq_user_id q) /\ ar_valid_status o = Some b!"valid"
          /\ is_Some (row id o))
    /\ (forall v, lq_valid_status q = Some v -> v <> b!"valid" -> cl_devices l = []).
Proof.
  intros (client & ds & Hq & Hm & ->)%get_user_clients_Json.
  assert (forall id o, wanted q client id o = true ->
    ar_user_id o = Some (lq_user_id q) /\ ar_valid_status o = Some b!"valid") as Hw.
  { intros id o Hw. unfold wanted, list_where, is_valid in Hw. by bool_hyps. }
  exists client. eexists. split; [done|]. split; [done|]. cbn [cl_total cl_devices].
  split; [unfold blen; by rewrite length_fmap|]. split; [|split].
  - intros d. rewrite list_elem_of_fmap. setoid_rewrite (mapM_rows _ _ Hm).
    setoid_rewrite list_elem_of_filter. split.
    + intros (d0 & -> & [id o] & [Hwant Hin%elem_of_map_to_list] & E). eauto 10.
    + intros (id & o & d0 & Hin%elem_of_map_to_list & Hwant & E & ->). exists d0. split; [done|].
      by exists (id, o).
  - intros id o Hin%elem_of_map_to_list Hwant. destruct (Hw id o Hwant) as [H1 H2].
    split_and!; [done..|]. apply mapM_Some in Hm.
    assert ((id, o) ∈ filter (fun io => wanted q client io.1 io.2 = true) (map_to_list assets))
      as (i & Hi)%list_elem_of_lookup by by apply list_elem_of_filter.
    destruct (Forall2_lookup_l _ _ _ _ _ Hm Hi) as (d & _ & E). by exists d.
  - intros v Hv Hne. destruct (filter _ _) as [|[id o] l] eqn:Hf.
    { apply mapM_Some in Hm. by inversion Hm. }
    assert ((id, o) ∈ filter (fun io => wanted q client io.1 io.2 = true) (map_to_list assets))
      as [Hwant _]%list_elem_of_filter by (rewrite Hf; left).
    destruct (Hw id o Hwant) as [_ Hval]. unfold wanted, list_where in Hwant. bool_hyps.
    rewrite Hv in *. cbn in *. bool_hyps. congruence.
Qed.

(** From the device to its owner: the models a device reports over its control session are
    those the owner's list shows for it during the next 300 seconds. *)
Theorem reported_models_are_listed (env : Env) (id : ClientId) (ms : list Model) (s : Server)
    (later : Z) (q : ClientListQuery) (a : ApiResponse ClientListResponse) (l : ClientListResponse)
    (d : ClientDeviceInfo) :
  e_redis env = true -> later < e_now env + 300 ->
  clients true true later q (redis_models (upsert_client_models_in_redis env id ms s)) = Json a ->
  resp_data a = Some l -> d ∈ cl_devices l -> cd_client_id d = ClientId_display id ->
  cd_loaded_models d = ms.
Proof.
  intros Hr Hl (client & ds & _ & _ & ->)%get_user_clients_Json [= <-] Hd Hid.
  cbn [cl_devices] in Hd. apply list_elem_of_fmap in Hd as (d0 & -> & _).
  assert (cd_client_id d0 = ClientId_display id) as E
    by (revert Hid; unfold with_models; by case_match).
  rewrite E. unfold loaded_models, upsert_client_models_in_redis. rewrite Hr.
  unfold ClientId_display at 1. rewrite hex_roundtrip. cbn [mbind option_bind].
  rewrite bool_decide_true by done. cbn [redis_models set_redis_models]. rewrite lookup_insert_eq.
  by rewrite (proj2 (Z.ltb_lt _ _)).
Qed.

Lemma filter_true {A} (p : A -> bool) (l : list A) :
  (forall x, x ∈ l -> p x = false) -> filter (fun x => p x = true) l = [].
Proof.
  intros Hp. induction l as [|x l IH]; [done|]. rewrite filter_cons.
  rewrite decide_False by (rewrite (Hp x); [done|left]). apply IH. intros y Hy. apply Hp. by right.
Qed.

Lemma blen_filter {A} (P : A -> Prop) `{!forall x, Decision (P x)} (l : list A) :
  0 <= blen (filter P l) <= blen l.
Proof. unfold blen. pose proof (length_filter P l). lia. Qed.

(** The summary of a user never counts a warning: only valid clients are counted, and a
    warning is counted for clients that are not. *)
Lemma no_warnings up now today user secs s :
  get_client_stats_db db assets uptime_percent up now today user secs = Ok s ->
  cs_warnings s = 0 /\ 0 <= cs_online s <= cs_total s /\ 0 <= cs_maintenance s <= cs_total s.
Proof.
  unfold get_client_stats_db. destruct up; [|done]. cbn.
  destruct (pg_text user) as [u|]; [|done]. cbn. intros [= <-]. cbn. unfold count_where.
  rewrite filter_true.
  - split; [done|]. split; apply blen_filter.
  - intros [id o] Hin. unfold own_clients in Hin. apply list_elem_of_filter in Hin as [Hp _].
    cbn in *. apply andb_true_iff in Hp as [_ Hv]. unfold is_valid in Hv. bool_hyps.
    rewrite Hv. by vm_compute.
Qed.

(** Asking for the heartbeats of one client always fails. *)
Lemma client_health_by_id_fails parse_datetime session_instant up now user text since before :
  get_client_health db assets parse_datetime session_instant up now user (Some text) since before
  = StatusCode INTERNAL_SERVER_ERROR.
Proof.
  unfold get_client_health, get_client_heartbeats_db. cbn. by destruct (hex_decode text).
Qed.
End Clients.

(** *** Witnesses *)
Definition demo_day (points : Q) : PointsRow * option bytes :=
  (mkPoints 720 (Some 9860) (5 # 100) 24 points 0, Some b!"GeForce RTX 4090").
Definition demo_points : PointsDaily :=
  {[ (demo_id, 0, 1) := demo_day (1 # 3); (demo_id, 0, 2) := demo_day (1 # 3);
     (demo_id, 1, 2) := demo_day (1 # 3) ]}.
Definition demo_query : PointsQueryRequest :=
  mkPointsQuery b!"42" None None None None None None (Some 2).
Definition demo_like (text pattern : bytes) : bool := true.

Lemma points_pages_add_up_witness :
  sum_Z ds_points (concat ((fun k => page_points
      (get_user_points demo_like true 9 (at_page (Z.of_nat k) demo_query) demo_points demo_assets))
    <$> seq 1 100)) = 100.
Proof.
  transitivity (total_points demo_like (all_points b!"42") demo_points demo_assets);
    [|vm_compute; reflexivity].
  refine (proj1 (proj2 (proj2 (points_pages_add_up demo_like 9 demo_query demo_points demo_assets
    (all_points b!"42") 2 _ eq_refl _))) _).
  - vm_compute. reflexivity.
  - vm_compute. split; discriminate.
  - vm_compute. discriminate.
Defined.

Lemma shown_total_is_credit_target_witness :
  target_amount 100 (rows_of 42 (settled (mkSource (daily_points (fst <$> demo_points))
    (owners_of demo_assets)) 10)) = 100.
Proof.
  refine (eq_trans (eq_sym (shown_total_is_credit_target demo_like demo_points demo_assets b!"42"
    42 10 _ _)) _).
  - intros id o Ho. unfold demo_assets in Ho. apply lookup_singleton_Some in Ho as [_ <-].
    split; vm_compute; reflexivity.
  - apply (bool_decide_unpack _). vm_compute. exact I.
  - vm_compute. reflexivity.
Defined.

Definition demo_db : Db (Fl:=QFloat) := mkDb ∅ ∅ ∅ ∅ ∅ ∅ ∅.
Definition demo_list_query : ClientListQuery := mkClientListQuery b!"42" None None None None.
Definition demo_list (s : Server) : Reply ClientListResponse :=
  get_user_clients demo_db demo_assets demo_like (fun _ => 0) true true 1100 demo_list_query
    (redis_models s).
Definition demo_entry (models : list Model) : ClientDeviceInfo :=
  mkClientDevice (ClientId_display demo_id) b!"box" b!"online" b!"linux" [] 0 0 0 0 0 1 1 0 models.
Definition demo_listed (models : list Model) : ClientListResponse := mkClientList 1 [demo_entry models].
Definition demo_reported : Server :=
  upsert_client_models_in_redis SessionFacts.demo_env demo_id [mkModel b!"m" b!"model" 0 b!"x"]
    SessionFacts.demo_server.

Lemma client_list_spec_witness :
  demo_list SessionFacts.demo_server = Json (ApiResponse_success 1100 (demo_listed []))
  /\ cl_total (demo_listed []) = blen (cl_devices (demo_listed [])).
Proof.
  assert (demo_list SessionFacts.demo_server = Json (ApiResponse_success 1100 (demo_listed [])))
    as E by (vm_compute; reflexivity).
  split; [exact E|].
  destruct (client_list_spec demo_db demo_assets demo_like (fun _ => 0) true 1100 demo_list_query
    _ _ E) as (client & l & _ & Hl & Ht & _).
  injection Hl as <-. exact Ht.
Defined.

Lemma reported_models_are_listed_witness :
  exists d, d ∈ cl_devices (demo_listed [mkModel b!"m" b!"model" 0 b!"x"])
    /\ cd_loaded_models d = [mkModel b!"m" b!"model" 0 b!"x"].
Proof.
  exists (demo_entry [mkModel b!"m" b!"model" 0 b!"x"]). split; [left; reflexivity|].
  refine (reported_models_are_listed demo_db demo_assets demo_like (fun _ => 0)
    SessionFacts.demo_env demo_id [mkModel b!"m" b!"model" 0 b!"x"] SessionFacts.demo_server 1100
    demo_list_query (ApiResponse_success 1100 (demo_listed [mkModel b!"m" b!"model" 0 b!"x"]))
    (demo_listed [mkModel b!"m" b!"model" 0 b!"x"]) (demo_entry [mkModel b!"m" b!"model" 0 b!"x"])
    eq_refl _ _ eq_refl _ eq_refl).
  - vm_compute. reflexivity.
  - vm_compute. reflexivity.
  - left.
Defined.
End ReportFacts.
