(* ===== verification/MobileTls.v ===== *)
(** * TLS of the mobile control connection ([gpuf-c/src/util/mobile_tls_policy.rs],
    [mobile_control_stream.rs])

    What a phone requires before it opens its control connection over TLS, how a
    certificate pin is read, and which servers the connection accepts. The file system, the
    PEM and server name parsers, SHA-256 and the path validation of rustls are parameters. *)
From S2P Require Import Prelude Text Ids.
From Stdlib Require Import ZArith Lia String.
From Stdlib Require Import Strings.Byte.
From stdpp Require Import base list.

Local Open Scope Z_scope.
Local Open Scope bytes_scope.

(** ** Policy *)
Record MobileTlsPolicy := mkPolicy {
  po_ca_cert_path : option bytes; po_server_name : bytes; po_cert_sha256_pin : option bytes }.

Inductive MobileTlsPolicyError :=
  | MissingServerName | InvalidServerName (name : bytes) | MissingTrustMaterial
  | InvalidCaBundle (msg : bytes) | InvalidSha256Pin (msg : bytes).

Definition policy_error_fmt (e : MobileTlsPolicyError) : bytes :=
  match e with
  | MissingServerName => b!"server name is required"
  | InvalidServerName name => b!"invalid TLS server name: " ++ name
  | MissingTrustMaterial => b!"CA bundle or SHA256 certificate pin is required"
  | InvalidCaBundle msg => b!"invalid CA bundle: " ++ msg
  | InvalidSha256Pin msg => b!"invalid SHA256 certificate pin: " ++ msg
  end.

(** [Result] with that error. *)
Abbreviation presult A := (A + MobileTlsPolicyError)%type.

Definition non_empty_trimmed (value : bytes) : option bytes :=
  let t := trim value in if bool_decide (t = []) then None else Some t.

Definition is_ascii_hexdigit (b : byte) : bool :=
  byte_in 48 57 b || byte_in 65 70 b || byte_in 97 102 b.

(** [sha256:] or [SHA256:] at most once, colons anywhere, upper case accepted. *)
Definition pin_digits (raw : bytes) : bytes :=
  let raw := trim raw in
  let without_prefix :=
    match Prelude.strip_prefix b!"sha256:" raw with
    | Some r => r
    | None => default raw (Prelude.strip_prefix b!"SHA256:" raw)
    end in
  to_ascii_lowercase (filter (fun b => b <> Byte.x3a) without_prefix).

Definition well_formed_pin (digits : bytes) : bool :=
  (length digits =? 64)%nat && forallb is_ascii_hexdigit digits.

Definition normalize_sha256_pin (raw : bytes) : presult bytes :=
  let normalized := pin_digits raw in
  if well_formed_pin normalized then inl normalized
  else inr (InvalidSha256Pin b!"expected 64 hex characters, optionally prefixed by sha256:").

(** [u8::from_str_radix] on two digits, for each pair. *)
Definition hex_value (b : byte) : option Z :=
  if byte_in 48 57 b then Some (Z_of_byte b - 48)
  else if byte_in 97 102 b then Some (Z_of_byte b - 87)
  else if byte_in 65 70 b then Some (Z_of_byte b - 55) else None.

Fixpoint hex_pairs (s : bytes) : option bytes :=
  match s with
  | h :: l :: s' => x ← hex_value h; y ← hex_value l; r ← hex_pairs s';
                    Some (byte_of_Z (16 * x + y) :: r)
  | [] => Some []
  | _ => None
  end.

Definition parse_sha256_pin (pin : bytes) : result bytes :=
  let normalized := pin_digits pin in
  if well_formed_pin normalized
  then ok_or (hex_pairs normalized) b!"invalid digit found in string"
  else Err b!"invalid SHA256 pin".

Section Tls.
(** Reading a file as its certificates: the file cannot be opened, is not PEM, or holds a
    list; whether a name is a server name; the digest; whether a certificate can be a
    root, and whether a chain leads from its leaf to a root for a name. *)
Context (open_error : bytes -> option bytes) (pem_certs : bytes -> result (list bytes))
  (server_name_ok : bytes -> bool) (sha256 : bytes -> bytes) (root_ok : bytes -> bool)
  (path_ok : list bytes -> bytes -> list bytes -> bool).

Definition validate_ca_bundle (path : bytes) : presult () :=
  match open_error path with
  | Some e => inr (InvalidCaBundle (path ++ b!": " ++ e))
  | None =>
      match pem_certs path with
      | Err e => inr (InvalidCaBundle e)
      | Ok [] => inr (InvalidCaBundle (path ++ b!" contains no PEM certificates"))
      | Ok _ => inl ()
      end
  end.

Definition validate_mobile_tls_policy (ca_cert_path : option bytes) (server_name : bytes)
    (cert_sha256_pin : option bytes) : presult MobileTlsPolicy :=
  let server_name := trim server_name in
  if bool_decide (server_name = []) then inr MissingServerName
  else if negb (server_name_ok server_name) then inr (InvalidServerName server_name)
  else
    let ca_cert_path := ca_cert_path ≫= non_empty_trimmed in
    match (match cert_sha256_pin ≫= non_empty_trimmed with
           | None => inl None
           | Some p => match normalize_sha256_pin p with inl n => inl (Some n) | inr e => inr e end
           end) with
    | inr e => inr e
    | inl cert_sha256_pin =>
        match ca_cert_path, cert_sha256_pin with
        | None, None => inr MissingTrustMaterial
        | _, _ =>
            match (match ca_cert_path with Some p => validate_ca_bundle p | None => inl () end) with
            | inr e => inr e
            | inl _ => inl (mkPolicy ca_cert_path server_name cert_sha256_pin)
            end
        end
    end.

(** The C interface: a null pointer or text. *)
Definition optional_c_string (ptr : option bytes) : option bytes + Z :=
  match ptr with
  | None => inl None
  | Some s => match from_utf8 s with
              | None => inr (-5)
              | Some s => inl (non_empty_trimmed s)
              end
  end.

Definition required_c_string (ptr : option bytes) : bytes + Z :=
  match ptr with
  | None => inr (-1)
  | Some s => match from_utf8 s with
              | None => inr (-5)
              | Some s => match non_empty_trimmed s with Some s => inl s | None => inr (-1) end
              end
  end.

Definition policy_code (r : presult MobileTlsPolicy) : Z :=
  match r with
  | inl _ => 0
  | inr MissingServerName | inr (InvalidServerName _) => -1
  | inr MissingTrustMaterial => -2
  | inr (InvalidCaBundle _) => -3
  | inr (InvalidSha256Pin _) => -4
  end.

Definition gpuf_validate_mobile_tls_policy (ca_cert_path server_name cert_sha256_pin : option bytes)
    : Z :=
  match optional_c_string ca_cert_path with
  | inr code => code
  | inl ca_cert_path =>
      match required_c_string server_name with
      | inr code => code
      | inl server_name =>
          match optional_c_string cert_sha256_pin with
          | inr code => code
          | inl cert_sha256_pin =>
              policy_code (validate_mobile_tls_policy ca_cert_path server_name cert_sha256_pin)
          end
      end
  end.

(** ** The connection *)
Record MobileControlTlsConfig := mkTlsConfig {
  tls_enabled : bool; tls_ca_cert_path : option bytes; tls_server_name : option bytes;
  tls_cert_sha256_pin : option bytes }.

Definition plaintext : MobileControlTlsConfig := mkTlsConfig false None None None.

Definition from_inputs (enabled : bool) (ca_cert_path server_name cert_sha256_pin : option bytes)
    : result MobileControlTlsConfig :=
  if negb enabled then Ok plaintext
  else match validate_mobile_tls_policy ca_cert_path (default [] server_name) cert_sha256_pin with
  | inr e => Err (b!"invalid mobile control TLS policy: " ++ policy_error_fmt e)
  | inl policy =>
      let? pin := match po_cert_sha256_pin policy with
                  | None => Ok None
                  | Some p => let? b := parse_sha256_pin p in Ok (Some b)
                  end in
      Ok (mkTlsConfig true (po_ca_cert_path policy) (Some (po_server_name policy)) pin)
  end.

(** How a server is judged: by roots from the bundle, or by the digest of its leaf alone. *)
Inductive Verifier := WebPki (roots : list bytes) | Pinned (expected_pin : bytes).

Definition load_root_certs (path : bytes) : result (list bytes) :=
  match open_error path with
  | Some e => Err e
  | None => let? certs := pem_certs path in
            if bool_decide (certs = []) then Err (path ++ b!" contains no PEM certificates")
            else Ok certs
  end.

Definition build_client_config (tls : MobileControlTlsConfig) : result Verifier :=
  match tls_ca_cert_path tls with
  | Some ca_path =>
      let? certs := load_root_certs ca_path in
      if forallb root_ok certs then Ok (WebPki certs) else Err b!"bad certificate"
  | None =>
      let? pin := ok_or (tls_cert_sha256_pin tls)
                    b!"mobile control TLS requires CA trust or SHA256 pin" in
      Ok (Pinned pin)
  end.

Definition verify_server_cert (v : Verifier) (server_name : bytes) (chain : list bytes) : bool :=
  match v with
  | WebPki roots => path_ok roots server_name chain
  | Pinned expected_pin =>
      match chain with leaf :: _ => bool_decide (sha256 leaf = expected_pin) | [] => false end
  end.

(** What the network does: whether the connection is made, and in a handshake the chain the
    server presents and whether the rest of it (signatures, key exchange) succeeds. *)
Record Peer := mkPeer { pe_connected : bool; pe_chain : list bytes; pe_handshake_ok : bool }.

Inductive MobileControlStream := Plain | Tls (server_name : bytes) (chain : list bytes).

Definition verify_peer_leaf_pin (chain : list bytes) (expected_pin : bytes) : result () :=
  match chain with
  | [] => Err b!"mobile control TLS peer did not present a certificate"
  | leaf :: _ => if bool_decide (sha256 leaf = expected_pin) then Ok ()
                 else Err b!"mobile control TLS certificate SHA256 pin mismatch"
  end.

Definition connect_mobile_control_stream (peer : Peer) (tls : MobileControlTlsConfig)
    : result MobileControlStream :=
  if negb (pe_connected peer) then Err b!"failed to connect to configured control endpoint"
  else if negb (tls_enabled tls) then Ok Plain
  else
    let? server_name := ok_or (tls_server_name tls)
                          b!"mobile control TLS server name is required" in
    if negb (server_name_ok server_name)
    then Err (b!"invalid mobile control TLS server name: " ++ server_name)
    else
      let? verifier := build_client_config tls in
      if negb (verify_server_cert verifier server_name (pe_chain peer) && pe_handshake_ok peer)
      then Err b!"handshake failed"
      else
        let? _ := match tls_cert_sha256_pin tls with
                  | Some pin => verify_peer_leaf_pin (pe_chain peer) pin
                  | None => Ok ()
                  end in
        Ok (Tls server_name (pe_chain peer)).
End Tls.

(** ** Facts *)
Module TlsFacts.

Lemma hex_lower b : is_ascii_hexdigit b = true ->
  is_ascii_hexdigit (ascii_lower b) = true /\ ascii_lower (ascii_lower b) = ascii_lower b
  /\ is_Some (hex_value b) /\ hex_value (ascii_lower b) = hex_value b.
Proof. destruct b; intros H; try discriminate H; vm_compute; eauto. Qed.

Definition lower_hex (b : byte) : bool := byte_in 48 57 b || byte_in 97 102 b.

Lemma lower_hex_spec b : lower_hex b = true ->
  is_ascii_hexdigit b = true /\ ascii_lower b = b /\ b <> Byte.x3a
  /\ exists v, hex_value b = Some v /\ 0 <= v < 16.
Proof.
  destruct b; intros H; try discriminate H; (split; [reflexivity|]; split; [reflexivity|];
    split; [discriminate|]; eexists; split; [reflexivity|vm_compute; split; [discriminate|reflexivity]]).
Qed.

Lemma lowered_hex_digit b : is_ascii_hexdigit (ascii_lower b) = true -> lower_hex (ascii_lower b) = true.
Proof. destruct b; intros H; try discriminate H; reflexivity. Qed.

(** A normalised pin: 64 lower-case hexadecimal digits. *)
Definition normal (n : bytes) : Prop := length n = 64%nat /\ Forall (fun b => lower_hex b = true) n.

Lemma normalize_normal raw n : normalize_sha256_pin raw = inl n -> normal n /\ n = pin_digits raw.
Proof.
  unfold normalize_sha256_pin. destruct (well_formed_pin _) eqn:Hw; [|done]. intros [= <-].
  split; [|done]. unfold well_formed_pin in Hw. apply andb_true_iff in Hw as [Hl Hf].
  split; [by apply Nat.eqb_eq|]. unfold pin_digits, to_ascii_lowercase in *.
  apply Forall_fmap. rewrite forallb_forall in Hf. apply Forall_forall. intros b Hb.
  apply lowered_hex_digit, Hf. apply list_elem_of_In. by apply list_elem_of_fmap_2.
Qed.

(** Printable text has no white space to trim. *)
Lemma strip_any_head fuel ps s :
  forallb (fun p => match p with c :: _ => negb (byte_in 33 126 c) | [] => false end) ps = true ->
  Forall (fun b => byte_in 33 126 b = true) s -> strip_any_fuel fuel ps s = s.
Proof.
  intros Hps Hs. destruct fuel as [|fuel]; [done|]. cbn.
  destruct (List.find _ ps) as [p|] eqn:Hf; [|done]. exfalso.
  apply List.find_some in Hf as [Hin Hp]. rewrite forallb_forall in Hps. specialize (Hps p Hin).
  destruct p as [|c p]; [done|]. destruct s as [|b s]; [done|]. cbn in Hp.
  apply Forall_cons in Hs as [Hb _]. apply andb_true_iff in Hp as [E _].
  apply bool_decide_eq_true in E as ->. by rewrite Hb in Hps.
Qed.

Lemma trim_printable s : Forall (fun b => byte_in 33 126 b = true) s -> trim s = s.
Proof.
  intros Hs. unfold trim, trim_end, trim_start.
  rewrite (strip_any_head _ white_space s) by (done || by vm_compute).
  rewrite strip_any_head; [apply rev_involutive|by vm_compute|by apply Forall_rev].
Qed.

Lemma lower_hex_printable b : lower_hex b = true -> byte_in 33 126 b = true.
Proof. destruct b; intros H; try discriminate H; reflexivity. Qed.

Lemma pin_digits_normal n : Forall (fun b => lower_hex b = true) n -> pin_digits n = n.
Proof.
  intros Hn. unfold pin_digits.
  rewrite trim_printable by (apply (Forall_impl _ _ _ Hn), lower_hex_printable).
  assert (forall p c, lower_hex c = false -> Prelude.strip_prefix (c :: p) n = None) as Hp.
  { intros p c Hc. unfold Prelude.strip_prefix. destruct n as [|b n]; [done|].
    apply Forall_cons in Hn as [Hb _]. cbn.
    rewrite bool_decide_false by (intros ->; congruence). done. }
  change b!"sha256:" with (Byte.x73 :: b!"ha256:"). change b!"SHA256:" with (Byte.x53 :: b!"HA256:").
  rewrite !Hp by reflexivity. cbn [default]. clear Hp. unfold to_ascii_lowercase.
  induction Hn as [|b n Hb _ IH]; [done|]. destruct (lower_hex_spec b Hb) as (_ & Hl & Hc & _).
  rewrite filter_cons, decide_True by done. cbn. by rewrite Hl, IH.
Qed.

Lemma well_formed_normal n : normal n -> well_formed_pin n = true.
Proof.
  intros [Hl Hn]. unfold well_formed_pin. rewrite Hl. cbn. apply forallb_forall.
  intros b Hb%list_elem_of_In. apply (proj1 (lower_hex_spec b (proj1 (Forall_forall _ _) Hn b Hb))).
Qed.

(** A digest as text. *)
Definition hex_text (d : bytes) : bytes := IdsFacts.demo_hex_encode d.

Lemma hex_char_lower v : 0 <= v < 16 ->
  lower_hex (IdsFacts.hex_char v) = true /\ hex_value (IdsFacts.hex_char v) = Some v.
Proof.
  intros Hv. assert (forallb (fun v => lower_hex (IdsFacts.hex_char v)
      && bool_decide (hex_value (IdsFacts.hex_char v) = Some v)) (seqZ 0 16) = true) as Hall
    by (vm_compute; reflexivity).
  rewrite forallb_forall in Hall. specialize (Hall v).
  rewrite <- list_elem_of_In, elem_of_seqZ in Hall. specialize (Hall ltac:(lia)). by bool_hyps.
Qed.

Lemma hex_value_char b v : lower_hex b = true -> hex_value b = Some v -> IdsFacts.hex_char v = b.
Proof.
  destruct b; intros H; try discriminate H; intros [= <-]; vm_compute; reflexivity.
Qed.

Lemma byte_halves (c : byte) : 0 <= Z_of_byte c / 16 < 16 /\ 0 <= Z_of_byte c mod 16 < 16.
Proof.
  pose proof (Z_of_byte_range c). split; [|apply Z.mod_pos_bound; lia].
  split; [apply Z.div_pos; lia|apply Z.div_lt_upper_bound; lia].
Qed.

Lemma hex_text_spec d :
  length (hex_text d) = (2 * length d)%nat /\ Forall (fun b => lower_hex b = true) (hex_text d)
  /\ hex_pairs (hex_text d) = Some d.
Proof.
  induction d as [|c d (Hl & Hf & Hp)]; [by repeat constructor|].
  destruct (byte_halves c) as [H1 H2].
  destruct (hex_char_lower _ H1) as [L1 V1], (hex_char_lower _ H2) as [L2 V2].
  unfold hex_text, IdsFacts.demo_hex_encode in *. cbn. split; [lia|]. split; [by repeat constructor|].
  rewrite V1, V2. cbn. rewrite Hp. cbn. do 2 f_equal.
  rewrite <- Z.div_mod by lia. apply byte_of_Z_of_byte.
Qed.

Lemma hex_pairs_text k n : length n = (2 * k)%nat -> Forall (fun b => lower_hex b = true) n ->
  exists d, hex_pairs n = Some d /\ length d = k /\ hex_text d = n.
Proof.
  revert n. induction k as [|k IH]; intros n Hl Hn.
  - destruct n; [|done]. by exists [].
  - destruct n as [|h [|l n]]; [done|cbn in Hl; lia|].
    apply Forall_cons in Hn as [Hh Hn]. apply Forall_cons in Hn as [Hlo Hn].
    destruct (IH n ltac:(cbn in Hl; lia) Hn) as (d & Ed & Hd & Et).
    destruct (lower_hex_spec h Hh) as (_ & _ & _ & x & Ex & Hx).
    destruct (lower_hex_spec l Hlo) as (_ & _ & _ & y & Ey & Hy).
    exists (byte_of_Z (16 * x + y) :: d). cbn [hex_pairs]. rewrite Ex, Ey. cbn. rewrite Ed.
    split; [done|]. split; [cbn; lia|].
    unfold hex_text, IdsFacts.demo_hex_encode in *. cbn. rewrite Et, Z_of_byte_of_Z.
    rewrite (Z.mod_small (16 * x + y)) by lia.
    assert ((16 * x + y) / 16 = x) as -> by (symmetry; apply Z.div_unique with y; lia).
    assert ((16 * x + y) mod 16 = y) as -> by (symmetry; apply Z.mod_unique with x; lia).
    by rewrite (hex_value_char h x), (hex_value_char l y).
Qed.

(** Certificate pins. A text is accepted as a pin exactly when the control connection can
    use it: normalising it again changes nothing, it denotes one digest of 32 bytes, whose
    lower-case digits are the normalised text, and both readers find that digest in it.
    Every digest can be given as its digits, with or without the prefix. *)
Theorem pin_text (raw d : bytes) :
  match normalize_sha256_pin raw with
  | inl n => normalize_sha256_pin n = inl n
             /\ exists d, length d = 32%nat /\ n = hex_text d
                /\ parse_sha256_pin raw = Ok d /\ parse_sha256_pin n = Ok d
  | inr _ => is_ok (parse_sha256_pin raw) = false
  end
  /\ (length d = 32%nat -> parse_sha256_pin (hex_text d) = Ok d
      /\ parse_sha256_pin (b!"sha256:" ++ hex_text d) = Ok d).
Proof.
  split.
  - destruct (normalize_sha256_pin raw) as [n|e] eqn:En.
    + destruct (normalize_normal raw n En) as [Hn ->]. pose proof (well_formed_normal _ Hn) as Hw.
      destruct Hn as [Hl Hn]. destruct (hex_pairs_text 32 _ Hl Hn) as (d' & Ed & Hd & Et).
      unfold normalize_sha256_pin, parse_sha256_pin.
      rewrite (pin_digits_normal (pin_digits raw)) by done. rewrite Hw, Ed. split; [done|].
      by exists d'.
    + unfold normalize_sha256_pin in En. unfold parse_sha256_pin.
      by destruct (well_formed_pin (pin_digits raw)).
  - intros Hd. destruct (hex_text_spec d) as (Hl & Hf & Hp). rewrite Hd in Hl.
    assert (normal (hex_text d)) as Hn by done.
    assert (pin_digits (b!"sha256:" ++ hex_text d) = pin_digits (hex_text d)) as E.
    { rewrite (pin_digits_normal (hex_text d)) by done. unfold pin_digits.
      rewrite trim_printable.
      2: { apply Forall_app. split; [by vm_compute; repeat constructor|].
           apply (Forall_impl _ _ _ Hf), lower_hex_printable. }
      assert (Prelude.strip_prefix b!"sha256:" (b!"sha256:" ++ hex_text d) = Some (hex_text d)) as ->
        by reflexivity.
      unfold to_ascii_lowercase. clear -Hf. induction Hf as [|b n Hb _ IH]; [done|].
      destruct (lower_hex_spec b Hb) as (_ & Hlo & Hc & _).
      rewrite filter_cons, decide_True by done. cbn. by rewrite Hlo, IH. }
    unfold parse_sha256_pin. rewrite E, (pin_digits_normal (hex_text d)) by done.
    by rewrite (well_formed_normal _ Hn), Hp.
Qed.

Lemma pin_text_witness :
  parse_sha256_pin (b!"sha256:" ++ hex_text (replicate 32 Byte.xaa)) = Ok (replicate 32 Byte.xaa).
Proof. exact (proj2 (proj2 (pin_text [] (replicate 32 Byte.xaa)) eq_refl)). Defined.

Section Connection.
Context (open_error : bytes -> option bytes) (pem_certs : bytes -> result (list bytes))
  (server_name_ok : bytes -> bool) (sha256 : bytes -> bytes) (root_ok : bytes -> bool)
  (path_ok : list bytes -> bytes -> list bytes -> bool).

Abbreviation from_inputs := (from_inputs open_error pem_certs server_name_ok).
Abbreviation connect :=
  (connect_mobile_control_stream open_error pem_certs server_name_ok sha256 root_ok path_ok).

(** A given text, as the policy reads it: absent when it is blank. *)
Definition given (o : option bytes) : option bytes := o ≫= non_empty_trimmed.

Lemma validate_policy_inl ca name pin p :
  validate_mobile_tls_policy open_error pem_certs server_name_ok ca name pin = inl p ->
  po_server_name p = trim name /\ trim name <> [] /\ server_name_ok (trim name) = true
  /\ po_ca_cert_path p = given ca
  /\ match given pin with
     | Some t => exists n, normalize_sha256_pin t = inl n /\ po_cert_sha256_pin p = Some n
     | None => po_cert_sha256_pin p = None /\ is_Some (given ca)
     end.
Proof.
  unfold validate_mobile_tls_policy, given. case_bool_decide; [done|].
  destruct (server_name_ok (trim name)) eqn:Hs; [|done]. cbn [negb].
  destruct (pin ≫= non_empty_trimmed) as [t|].
  - destruct (normalize_sha256_pin t) as [n|]; [|done].
    destruct (ca ≫= non_empty_trimmed) as [c|].
    + destruct (validate_ca_bundle _ _ c); [|done]. intros [= <-]. eauto 10.
    + intros [= <-]. eauto 10.
  - destruct (ca ≫= non_empty_trimmed) as [c|]; [|done].
    destruct (validate_ca_bundle _ _ c); [|done]. intros [= <-]. eauto 10.
Qed.

End Connection.

Definition demo_pin : bytes := b!"SHA256:" ++ concat (replicate 32 b!"AA").
Definition demo_sha256 (cert : bytes) : bytes := replicate 32 Byte.xaa.

End TlsFacts.
