(* ===== verification/Config.v ===== *)
(** * Configuration and external commands of a worker ([gpuf-c/src/util])

    The settings of a worker from its command line and configuration file ([cmd.rs],
    [config.rs]), the compose file of the container engines ([config.rs]) and the runner of
    external programs ([safe_command.rs]). The TOML and command-line parsers and the
    lower-casing of Unicode text are parameters; a process is what it answers to a poll. *)
From S2P Require Import Prelude Wire Text Ids LlamaServer LlamaEngine Worker.
From Stdlib Require Import ZArith Lia String.
From Stdlib Require Import Strings.Byte.
From stdpp Require Import base list gmap sorting lexico.

Local Open Scope Z_scope.
Local Open Scope bytes_scope.

(** ** Settings *)
Inductive WorkerType := TCP | WS.
Inductive CmdEngineType := CmdVLLM | CmdOLLAMA | CmdLLAMA.

Definition to_common (e : CmdEngineType) : EngineType :=
  match e with CmdVLLM => Vllm | CmdOLLAMA => Ollama | CmdLLAMA => Llama end.

(** All the fields of [Args]; [Worker.Args] has those that the worker reads. *)
Record CmdArgs := mkCmdArgs {
  ca_config : option bytes; ca_client_id : option bytes; ca_server_addr : bytes;
  ca_control_port : Z; ca_proxy_port : Z; ca_local_addr : bytes; ca_local_port : Z;
  ca_p2p_advertise_ip : option bytes; ca_p2p_udp_port : Z; ca_p2p_bind_addr : bytes;
  ca_p2p_public_listen : bool; ca_cert_chain_path : bytes; ca_control_tls : bool;
  ca_control_tls_server_name : option bytes; ca_worker_type : WorkerType;
  ca_engine_type : CmdEngineType; ca_auto_models : bool;
  ca_hugging_face_hub_token : option bytes; ca_chat_template_path : option bytes;
  ca_standalone_llama : bool; ca_api_key : option bytes; ca_llama_model_path : option bytes;
  ca_n_gpu_layers : Z; ca_n_ctx : Z; ca_n_batch : Z; ca_llama_split_mode : LlamaSplitMode;
  ca_llama_main_gpu : Z; ca_llama_devices : option bytes; ca_stream_chunk_bytes : Z }.

Record ServerConfig := mkServerConfig { sc_addr : bytes; sc_control_port : Z; sc_proxy_port : Z }.
Record ClientConfig := mkClientConfig {
  cf_client_id : bytes; cf_worker_type : bytes; cf_engine_type : bytes;
  cf_cert_chain_path : bytes; cf_control_tls : option bool;
  cf_control_tls_server_name : option bytes; cf_local_addr : bytes; cf_local_port : Z;
  cf_auto_models : bool; cf_hugging_face_hub_token : option bytes;
  cf_chat_template_path : option bytes; cf_n_ctx : Z; cf_n_gpu_layers : Z;
  cf_llama_split_mode : option bytes; cf_llama_main_gpu : option Z;
  cf_llama_devices : option bytes }.
Record ConfigFile := mkConfig { cfg_server : ServerConfig; cfg_client : ClientConfig }.

Record SecurityConfig := mkSecurity {
  require_api_key : bool; enforce_model_checksum : bool; allow_public_listen : bool;
  enforce_p2p_hmac : bool; safe_download_path : bool; allow_external_model_path : bool }.

Definition security_config (a : CmdArgs) : SecurityConfig :=
  mkSecurity (match ca_api_key a with Some _ => true | None => false end) true
    (ca_p2p_public_listen a) true true false.

(** The warnings that are logged, in order. *)
Definition emit_high_risk_warnings (s : SecurityConfig) : list bytes :=
  (if allow_public_listen s then [b!"public P2P listen is explicitly enabled"] else [])
  ++ (if negb (enforce_p2p_hmac s) then [b!"P2P data-plane HMAC enforcement is disabled"] else [])
  ++ (if negb (enforce_model_checksum s) then [b!"model checksum enforcement is disabled"] else [])
  ++ (if negb (safe_download_path s) then [b!"safe download path enforcement is disabled"] else [])
  ++ (if allow_external_model_path s then [b!"external model paths are allowed"] else []).

Section Settings.
Context `{H : Hex} (to_lowercase : bytes -> bytes).

(** [LlamaSplitModeArg::from_str]. *)
Definition parse_split_mode (s : bytes) : result LlamaSplitMode :=
  let s := to_lowercase (trim s) in
  if bool_decide (s = b!"none") then Ok SplitNone
  else if bool_decide (s = b!"layer") then Ok SplitLayer
  else if bool_decide (s = b!"row") then Ok SplitRow
  else Err (b!"Invalid llama_split_mode '" ++ s ++ b!"'. Must be one of: none, layer, row").

Definition parse_client_id (s : bytes) : result bytes :=
  let? b := ok_or (hex_decode (trim_start_0x s)) b!"Invalid hex string" in
  if (length b =? 16)%nat then Ok b else Err b!"Invalid client ID length".

Definition parse_worker_type (s : bytes) : result WorkerType :=
  let s := to_lowercase s in
  if bool_decide (s = b!"tcp") then Ok TCP
  else if bool_decide (s = b!"ws") then Ok WS
  else Err b!"Invalid worker_type in config. Must be 'tcp' or 'ws'".

Definition parse_engine_type (s : bytes) : result CmdEngineType :=
  let s := to_lowercase s in
  if bool_decide (s = b!"vllm") then Ok CmdVLLM
  else if bool_decide (s = b!"ollama") then Ok CmdOLLAMA
  else if bool_decide (s = b!"llama") then Ok CmdLLAMA
  else Err b!"Invalid engine_type in config. Must be 'vllm' or 'ollama'".

Definition or_else {A} (a b : option A) : option A := match a with Some _ => a | None => b end.

(** [from_file path] is the configuration file, read and parsed. *)
Definition load_config (from_file : bytes -> result ConfigFile) (a : CmdArgs) : result CmdArgs :=
  match ca_config a with
  | None =>
      match ca_client_id a with
      | None => if ca_standalone_llama a then Ok a
                else Err b!"Either --config, --client-id, or --standalone-llama must be provided"
      | Some _ => Ok a
      end
  | Some path =>
      match from_file path with
      | Err _ => Err (b!"Failed to load config from " ++ path)
      | Ok c =>
          let cl := cfg_client c in
          let? worker_type := parse_worker_type (cf_worker_type cl) in
          let? engine_type := parse_engine_type (cf_engine_type cl) in
          match parse_client_id (cf_client_id cl) with
          | Err e => Err (b!"Invalid client_id format in config: " ++ e)
          | Ok client_id =>
              let? split_mode := match cf_llama_split_mode cl with
                                 | Some s => parse_split_mode s
                                 | None => Ok (ca_llama_split_mode a)
                                 end in
              Ok (mkCmdArgs (Some path) (Some client_id) (sc_addr (cfg_server c))
                    (sc_control_port (cfg_server c)) (sc_proxy_port (cfg_server c))
                    (cf_local_addr cl) (cf_local_port cl) (ca_p2p_advertise_ip a)
                    (ca_p2p_udp_port a) (ca_p2p_bind_addr a) (ca_p2p_public_listen a)
                    (cf_cert_chain_path cl) (default (ca_control_tls a) (cf_control_tls cl))
                    (or_else (cf_control_tls_server_name cl) (ca_control_tls_server_name a))
                    worker_type engine_type (cf_auto_models cl) (cf_hugging_face_hub_token cl)
                    (cf_chat_template_path cl) false (ca_api_key a) None (cf_n_gpu_layers cl)
                    (cf_n_ctx cl) (ca_n_batch a) split_mode
                    (default (ca_llama_main_gpu a) (cf_llama_main_gpu cl))
                    (or_else (cf_llama_devices cl) (ca_llama_devices a)) (ca_stream_chunk_bytes a))
          end
      end
  end.
End Settings.

(** The settings a worker runs with; it takes its client id as present. *)
Definition worker_args (a : CmdArgs) : option Args :=
  id ← ca_client_id a;
  Some (mkArgs id (to_common (ca_engine_type a)) (ca_llama_model_path a) (ca_auto_models a)
          (ca_n_ctx a) (ca_n_batch a) (ca_n_gpu_layers a) (ca_llama_split_mode a)
          (ca_llama_main_gpu a) (ca_llama_devices a) (ca_p2p_bind_addr a) (ca_p2p_udp_port a)
          (ca_p2p_public_listen a) (ca_p2p_advertise_ip a) (ca_stream_chunk_bytes a)).

(** ** Compose file *)
Record Service := mkService {
  sv_image : bytes; sv_container_name : bytes; sv_ports : list bytes; sv_volumes : list bytes;
  sv_environment : option (gmap bytes bytes); sv_shm_size : option bytes;
  sv_runtime : option bytes; sv_devices : option (list bytes);
  sv_security_opt : option (list bytes); sv_cap_drop : option (list bytes) }.

(** Services and the driver of each volume, by name. *)
Record DockerConfig := mkDocker {
  dk_version : bytes; dk_services : gmap bytes Service; dk_volumes : gmap bytes bytes }.

Definition OLLAMA_DEFAULT_IMAGE : bytes := b!"ollama/ollama:0.5.7".
Definition VLLM_DEFAULT_IMAGE : bytes := b!"vllm/vllm-openai:v0.8.5".

Definition service_name (e : CmdEngineType) : bytes :=
  match e with CmdVLLM => b!"vllm" | CmdOLLAMA => b!"ollama" | CmdLLAMA => b!"llama" end.

Definition engine_service (e : CmdEngineType) : Service :=
  match e with
  | CmdVLLM => mkService VLLM_DEFAULT_IMAGE b!"vllm_engine_container" [b!"127.0.0.1:8000:8000"]
      [b!"~/.vllm/models:/root/.cache/huggingface/hub"; b!"${PWD}/configs:/app/configs"]
      (Some {[ b!"MODEL" := b!"facebook/opt-125m" ]}) (Some b!"2g") None None
      (Some [b!"no-new-privileges:true"]) (Some [b!"ALL"])
  | CmdLLAMA => mkService b!"ghcr.io/ggerganov/llama.cpp:server" b!"llama_engine_container"
      [b!"127.0.0.1:8080:8080"] [b!"~/.llama/models:/models"]
      (Some {[ b!"LLAMA_ARG_MODEL" := b!"/models/model.gguf";
               b!"LLAMA_ARG_CTX_SIZE" := b!"2048"; b!"LLAMA_ARG_N_GPU_LAYERS" := b!"99" ]})
      (Some b!"2g") (Some b!"nvidia") None (Some [b!"no-new-privileges:true"]) (Some [b!"ALL"])
  | CmdOLLAMA => mkService OLLAMA_DEFAULT_IMAGE b!"ollama_engine_container"
      [b!"127.0.0.1:11434:11434"] [b!"~/.ollama/models:/root/.ollama/models"]
      (Some {[ b!"OLLAMA_HOST" := b!"127.0.0.1"; b!"OLLAMA_GPU_LAYERS" := b!"all" ]})
      (Some b!"2g") (Some b!"nvidia") (Some [b!"/dev/kfd"; b!"/dev/dri"])
      (Some [b!"no-new-privileges:true"]) (Some [b!"ALL"])
  end.

Definition DockerConfig_new (e : CmdEngineType) : DockerConfig :=
  mkDocker b!"3.8" {[ service_name e := engine_service e ]} {[ b!"model_data" := b!"local" ]}.

Definition nl : bytes := [Byte.x0a].
Definition text_le (a b : bytes) : Prop := a = b \/ lexico (Z_of_byte <$> a) (Z_of_byte <$> b).
#[global] Instance text_le_dec a b : Decision (text_le a b).
Proof. unfold text_le. apply _. Defined.

(** The keys of a map, sorted. *)
Definition sorted_keys {V} (m : gmap bytes V) : list bytes := merge_sort text_le (map_to_list m).*1.

Definition yaml_items (items : list bytes) : bytes :=
  concat ((fun i => b!"      - '" ++ i ++ b!"'" ++ nl) <$> items).
Definition yaml_list (title : bytes) (items : list bytes) : bytes :=
  match items with [] => [] | _ => b!"    " ++ title ++ b!":" ++ nl ++ yaml_items items end.
Definition yaml_opt (title : bytes) (value : option bytes) : bytes :=
  match value with
  | Some v => b!"    " ++ title ++ b!": '" ++ v ++ b!"'" ++ nl
  | None => []
  end.

Definition service_yaml (name : bytes) (s : Service) : bytes :=
  b!"  " ++ name ++ b!":" ++ nl
  ++ b!"    image: '" ++ sv_image s ++ b!"'" ++ nl
  ++ b!"    container_name: '" ++ sv_container_name s ++ b!"'" ++ nl
  ++ yaml_list b!"ports" (sv_ports s) ++ yaml_list b!"volumes" (sv_volumes s)
  ++ match sv_environment s with
     | None => []
     | Some env =>
         match sorted_keys env with
         | [] => []
         | keys => b!"    environment:" ++ nl
             ++ concat ((fun k => b!"      " ++ k ++ b!": '" ++ default [] (env !! k) ++ b!"'" ++ nl)
                          <$> keys)
         end
     end
  ++ yaml_opt b!"shm_size" (sv_shm_size s) ++ yaml_opt b!"runtime" (sv_runtime s)
  ++ yaml_list b!"devices" (default [] (sv_devices s))
  ++ yaml_list b!"security_opt" (default [] (sv_security_opt s))
  ++ yaml_list b!"cap_drop" (default [] (sv_cap_drop s)).

Definition to_compose_yaml (c : DockerConfig) : bytes :=
  b!"version: '" ++ dk_version c ++ b!"'" ++ nl ++ b!"services:" ++ nl
  ++ concat ((fun n => match dk_services c !! n with Some s => service_yaml n s | None => [] end)
               <$> sorted_keys (dk_services c))
  ++ b!"volumes:" ++ nl
  ++ concat ((fun n => b!"  " ++ n ++ b!":" ++ nl
                       ++ b!"    driver: '" ++ default [] (dk_volumes c !! n) ++ b!"'" ++ nl)
               <$> sorted_keys (dk_volumes c)).

(** [trim_end_matches(':')]. *)
Definition trim_end_colons (s : bytes) : bytes := rev (trim_start_char Byte.x3a (rev s)).

Definition engine_of_name (name : bytes) : option CmdEngineType :=
  if bool_decide (name = b!"vllm") then Some CmdVLLM
  else if bool_decide (name = b!"ollama") then Some CmdOLLAMA
  else if bool_decide (name = b!"llama") then Some CmdLLAMA else None.

(** The lines after [services:] up to [volumes:]; a line indented by two is a name. *)
Fixpoint scan_services (in_services : bool) (ls : list bytes) (acc : gmap bytes Service)
    : gmap bytes Service :=
  match ls with
  | [] => acc
  | line :: ls =>
      let trimmed := trim_end line in
      if bool_decide (trimmed = b!"services:") then scan_services true ls acc
      else if bool_decide (trimmed = b!"volumes:") then acc
      else if in_services && starts_with b!"  " line && negb (starts_with b!"    " line)
      then
        let name := trim_end_colons (trim trimmed) in
        scan_services in_services ls
          (match engine_of_name name with
           | Some e => match dk_services (DockerConfig_new e) !! name with
                       | Some s => <[name := s]> acc
                       | None => acc
                       end
           | None => acc
           end)
      else scan_services in_services ls acc
  end.

Fixpoint find_version (ls : list bytes) : option bytes :=
  match ls with
  | [] => None
  | line :: ls => match Prelude.strip_prefix b!"version:" (trim line) with
                  | Some v => Some (trim_matches Byte.x22 (trim_matches Byte.x27 (trim v)))
                  | None => find_version ls
                  end
  end.

Definition from_generated_compose_yaml (yaml : bytes) : result DockerConfig :=
  let version := default b!"3.8" (find_version (lines yaml)) in
  let services := scan_services false (lines yaml) ∅ in
  if bool_decide (services = ∅)
  then Err b!"Unsupported docker compose file: no known GPUFabric services found"
  else Ok (mkDocker version services {[ b!"model_data" := b!"local" ]}).

(** [ensure_config] on the content of the file, which it writes when there is none. *)
Definition ensure_config (e : CmdEngineType) (file : option bytes)
    : result DockerConfig * option bytes :=
  match file with
  | Some yaml => (match from_utf8 yaml with
                  | Some yaml => from_generated_compose_yaml yaml
                  | None => Err b!"stream did not contain valid UTF-8"
                  end, file)
  | None => let c := DockerConfig_new e in (Ok c, Some (to_compose_yaml c))
  end.

(** ** External commands *)
Definition TRUSTED_PATH : bytes := b!"/usr/sbin:/usr/bin:/sbin:/bin:/opt/homebrew/bin".
(** Times in milliseconds. *)
Definition DEFAULT_TIMEOUT : Z := 5000.
Definition DEFAULT_OUTPUT_LIMIT : Z := 256 * 1024.

Record Output := mkOutput { o_status : Z; o_stdout : bytes; o_stderr : bytes }.

(** A started process: what the polls and the collection of its output answer, and the time
    since its start at each poll. *)
Record Child := mkChild {
  try_wait : nat -> result bool; wait_with_output : result Output; elapsed : nat -> Z }.

(** Starting a program with its arguments and search path. *)
Definition Spawner := bytes -> list bytes -> bytes -> result Child.

Definition validate_program (program : bytes) (m : SecurityMetrics) : result () * SecurityMetrics :=
  if existsb (fun b => bool_decide (b = Byte.x2f) || bool_decide (b = Byte.x5c)) program
     || bool_decide (program = [])
  then (Err (b!"unsafe command path: " ++ program), inc external_command_rejections m)
  else (Ok (), m).

Definition sanitize_args (args : list bytes) (m : SecurityMetrics) : result () * SecurityMetrics :=
  if existsb (existsb (fun b => bool_decide (b = Byte.x00))) args
  then (Err b!"command argument contains NUL byte", inc external_command_rejections m)
  else (Ok (), m).

Definition cap_vec (bs : bytes) (limit : Z) : bytes :=
  if limit <? blen bs then take (Z.to_nat limit) bs else bs.

Definition cap_output (o : Output) (limit : Z) : Output :=
  mkOutput (o_status o) (cap_vec (o_stdout o) limit) (cap_vec (o_stderr o) limit).

(** The poll loop; [None] when the fuel runs out. A process that is given up is killed. *)
Inductive Ended := Exited | PollFailed (e : bytes) | Killed.
Fixpoint poll_child (fuel : nat) (timeout : Z) (k : nat) (c : Child) : option Ended :=
  match fuel with
  | O => None
  | S fuel =>
      match try_wait c k with
      | Err e => Some (PollFailed e)
      | Ok true => Some Exited
      | Ok false => if timeout <=? elapsed c k then Some Killed else poll_child fuel timeout (S k) c
      end
  end.

Definition run_command_limited (fuel : nat) (spawn : Spawner) (program : bytes)
    (args : list bytes) (timeout output_limit : Z) (m : SecurityMetrics)
    : option (result Output * SecurityMetrics) :=
  match validate_program program m with
  | (Err e, m) => Some (Err e, m)
  | (Ok _, m) =>
      match sanitize_args args m with
      | (Err e, m) => Some (Err e, m)
      | (Ok _, m) =>
          match spawn program args TRUSTED_PATH with
          | Err e => Some (Err (b!"failed to start " ++ program ++ b!": " ++ e), m)
          | Ok c =>
              match poll_child fuel timeout 0 c with
              | None => None
              | Some (PollFailed e) => Some (Err (b!"failed to poll " ++ program ++ b!": " ++ e), m)
              | Some Exited =>
                  match wait_with_output c with
                  | Ok o => Some (Ok (cap_output o output_limit), m)
                  | Err e => Some (Err (b!"failed to collect " ++ program ++ b!" output: " ++ e), m)
                  end
              | Some Killed =>
                  Some (Err (program ++ b!" timed out"), inc external_command_rejections m)
              end
          end
      end
  end.

Definition run_command_default (fuel : nat) (spawn : Spawner) (program : bytes)
    (args : list bytes) (m : SecurityMetrics) : option (result Output * SecurityMetrics) :=
  run_command_limited fuel spawn program args DEFAULT_TIMEOUT DEFAULT_OUTPUT_LIMIT m.

Definition run_sudo_noninteractive (fuel : nat) (spawn : Spawner) (program : bytes)
    (args : list bytes) (timeout output_limit : Z) (m : SecurityMetrics)
    : option (result Output * SecurityMetrics) :=
  match validate_program program m with
  | (Err e, m) => Some (Err e, m)
  | (Ok _, m) =>
      match sanitize_args args m with
      | (Err e, m) => Some (Err e, m)
      | (Ok _, m) =>
          run_command_limited fuel spawn b!"sudo" (b!"-n" :: program :: args) timeout output_limit m
      end
  end.

(** The asynchronous runner: [finished] is when the output is complete, if ever. A process
    that times out is neither killed nor counted; the last component tells whether it is
    left running. *)
Definition run_command_limited_async (spawn : Spawner) (finished : Child -> option Z)
    (program : bytes) (args : list bytes) (timeout_duration output_limit : Z)
    (m : SecurityMetrics) : result Output * SecurityMetrics * bool :=
  match validate_program program m with
  | (Err e, m) => (Err e, m, false)
  | (Ok _, m) =>
      match sanitize_args args m with
      | (Err e, m) => (Err e, m, false)
      | (Ok _, m) =>
          match spawn program args TRUSTED_PATH with
          | Err e => (Err (b!"failed to start " ++ program ++ b!": " ++ e), m, false)
          | Ok c =>
              if match finished c with Some t => t <=? timeout_duration | None => false end
              then match wait_with_output c with
                   | Ok o => (Ok (cap_output o output_limit), m, false)
                   | Err e => (Err (b!"failed to collect " ++ program ++ b!" output: " ++ e), m, false)
                   end
              else (Err (program ++ b!" timed out"), m, true)
          end
      end
  end.

(** ** Facts *)
Module ConfigFacts.

Section Settings.
Context `{H : Hex} (to_lowercase : bytes -> bytes).

(** Loading the settings. Without a configuration file the command line stands, and it must
    name a client unless the worker runs standalone. With one, the result has a client id
    of 16 bytes, so that a worker can start from it, is not standalone and has no local
    model, whatever the command line says; what decides about exposure to the network, the
    bind address, port and permission of the data plane and the API key, comes from the
    command line alone and no configuration file can change it. *)
Theorem loaded_settings (from_file : bytes -> result ConfigFile) (a a' : CmdArgs) :
  load_config to_lowercase from_file a = Ok a' ->
  match ca_config a with
  | None => a' = a /\ (is_Some (ca_client_id a) \/ ca_standalone_llama a = true)
  | Some path =>
      (exists c id, from_file path = Ok c /\ ca_client_id a' = Some id /\ id_wf id
         /\ parse_client_id (cf_client_id (cfg_client c)) = Ok id)
      /\ (exists w, worker_args a' = Some w /\ Worker.llama_model_path w = None
            /\ p2p_udp_bind_addr w = ca_p2p_bind_addr a ++ b!":" ++ dec (ca_p2p_udp_port a)
            /\ p2p_public_listen w = ca_p2p_public_listen a)
      /\ ca_standalone_llama a' = false /\ ca_llama_model_path a' = None
      /\ security_config a' = security_config a
      /\ load_config to_lowercase from_file a' = Ok a'
  end.
Proof.
  unfold load_config. destruct (ca_config a) as [path|] eqn:Hc.
  2: { destruct (ca_client_id a) eqn:Hid; [intros [= <-]; split; [done|by left; eauto]|].
       destruct (ca_standalone_llama a); [|done]. intros [= <-]. auto. }
  destruct (from_file path) as [c|e] eqn:Hf; [|done].
  intros (wt & Hwt & (et & Het & Hl)%rbind_Ok)%rbind_Ok.
  destruct (parse_client_id _) as [id|e] eqn:Hid; [|done].
  apply rbind_Ok in Hl as (sm & Hsm & [= <-]). cbn [ca_config ca_client_id].
  split; [|split; [|split; [done|split; [done|split; [done|]]]]].
  - exists c, id. split_and!; try done. unfold parse_client_id in Hid.
    apply rbind_Ok in Hid as (b & _ & Hb). destruct (Nat.eqb_spec (length b) 16); [|done].
    by injection Hb as <-.
  - eexists. split; [reflexivity|]. by split_and!.
  - rewrite Hf, Hwt. cbn [rbind]. rewrite Het. cbn [rbind]. rewrite Hid.
    destruct (cf_llama_split_mode (cfg_client c)) as [s|]; cbn.
    + rewrite Hsm. cbn. do 2 f_equal; unfold default, or_else; by repeat case_match.
    + do 2 f_equal; unfold default, or_else; by repeat case_match.
Qed.
End Settings.

(** The compose file: the first call writes a file from which every later call, for
    whatever engine, reads the settings back exactly; a call for another engine therefore
    gets the settings of the first one, without a service of its own. *)
Theorem compose_file_roundtrip (e e' : CmdEngineType) :
  let '(r, file) := ensure_config e None in
  r = Ok (DockerConfig_new e)
  /\ ensure_config e' file = (Ok (DockerConfig_new e), file)
  /\ (dk_services (DockerConfig_new e) !! service_name e' = None <-> e' <> e).
Proof.
  unfold ensure_config. split; [done|]. split.
  - assert (from_utf8 (to_compose_yaml (DockerConfig_new e)) = Some (to_compose_yaml (DockerConfig_new e)))
      as -> by (destruct e; vm_compute; reflexivity).
    f_equal. destruct e; vm_compute; reflexivity.
  - unfold DockerConfig_new. cbn [dk_services]. rewrite lookup_singleton_None.
    destruct e, e'; split; intros Hx; try done; intros Hy; by vm_compute in Hy.
Qed.

(** *** Commands *)

Lemma poll_child_ends timeout c k fuel :
  (forall k, 25 * Z.of_nat k <= elapsed c k) ->
  timeout <= 25 * (Z.of_nat k + Z.of_nat fuel) ->
  is_Some (poll_child (S fuel) timeout k c).
Proof.
  intros He. revert k. induction fuel as [|fuel IH]; intros k Hk; cbn.
  - destruct (try_wait c k) as [[]|]; [by eauto| |by eauto].
    destruct (Z.leb_spec timeout (elapsed c k)); [by eauto|]. specialize (He k). lia.
  - destruct (try_wait c k) as [[]|]; [by eauto| |by eauto].
    destruct (Z.leb_spec timeout (elapsed c k)); [by eauto|]. apply IH. lia.
Qed.

Lemma cap_vec_spec bs limit : 0 <= limit ->
  blen (cap_vec bs limit) <= limit /\ exists rest, bs = cap_vec bs limit ++ rest.
Proof.
  intros Hl. unfold cap_vec. destruct (Z.ltb_spec limit (blen bs)).
  - split; [unfold blen; rewrite length_take; lia|]. exists (drop (Z.to_nat limit) bs).
    symmetry. apply take_drop.
  - split; [lia|]. exists []. by rewrite app_nil_r.
Qed.

Definition plain_program (program : bytes) : Prop :=
  program <> [] /\ Byte.x2f ∉ program /\ Byte.x5c ∉ program.
Definition plain_args (args : list bytes) : Prop := forall a, a ∈ args -> Byte.x00 ∉ a.

Lemma validate_program_spec program m :
  (plain_program program /\ validate_program program m = (Ok (), m))
  \/ (~ plain_program program
      /\ exists e, validate_program program m = (Err e, inc external_command_rejections m)).
Proof.
  unfold validate_program, plain_program. destruct (existsb _ program) eqn:Hx; cbn.
  { right. split; [|eauto]. intros (_ & H1 & H2). apply existsb_exists in Hx as (b & Hb & Hs).
    apply list_elem_of_In in Hb. apply orb_true_iff in Hs as [Hs|Hs]; bool_hyps; by subst. }
  case_bool_decide as Hn; [right; split; [tauto|eauto]|]. left. split; [|done].
  apply not_true_iff_false in Hx.
  split; [done|split]; intros Hin; apply Hx, existsb_exists; eexists;
    (split; [apply list_elem_of_In; exact Hin|]); by vm_compute.
Qed.

Lemma sanitize_args_spec args m :
  (plain_args args /\ sanitize_args args m = (Ok (), m))
  \/ (~ plain_args args
      /\ exists e, sanitize_args args m = (Err e, inc external_command_rejections m)).
Proof.
  unfold sanitize_args, plain_args. destruct (existsb _ args) eqn:Hx.
  - right. split; [|eauto]. intros Hp. apply existsb_exists in Hx as (a & Ha & Hb).
    apply existsb_exists in Hb as (b & Hb & Hs). bool_hyps. subst b.
    apply (Hp a); by apply list_elem_of_In.
  - left. split; [|done]. intros a Ha Hin. apply not_true_iff_false in Hx.
    apply Hx, existsb_exists. exists a. split; [by apply list_elem_of_In|].
    apply existsb_exists. exists Byte.x00. split; [by apply list_elem_of_In|by vm_compute].
Qed.

(** External commands are contained. A command always comes to an end, after at most one
    poll per 25 milliseconds of its timeout and one more; it is only started under a bare
    program name looked up in the trusted directories, with arguments free of NUL; its
    output is a prefix of what the program wrote, at most the limit long; and exactly the
    refused and the timed-out commands are counted, once each. *)
Theorem commands_are_contained (spawn : Spawner) (program : bytes) (args : list bytes)
    (timeout limit : Z) (m : SecurityMetrics) (fuel : nat) :
  (forall c k, spawn program args TRUSTED_PATH = Ok c -> 25 * Z.of_nat k <= elapsed c k) ->
  0 <= limit -> timeout <= 25 * Z.of_nat fuel ->
  exists r m', run_command_limited (S fuel) spawn program args timeout limit m = Some (r, m')
    /\ (m' = m \/ m' = inc external_command_rejections m)
    /\ (~ (plain_program program /\ plain_args args) ->
        is_ok r = false /\ m' = inc external_command_rejections m
        /\ forall spawn', run_command_limited (S fuel) spawn' program args timeout limit m = Some (r, m'))
    /\ (forall o, r = Ok o -> m' = m /\ plain_program program /\ plain_args args
          /\ exists c o', spawn program args TRUSTED_PATH = Ok c /\ wait_with_output c = Ok o'
             /\ poll_child (S fuel) timeout 0 c = Some Exited /\ o_status o = o_status o'
             /\ blen (o_stdout o) <= limit /\ blen (o_stderr o) <= limit
             /\ (exists rest, o_stdout o' = o_stdout o ++ rest)
             /\ (exists rest, o_stderr o' = o_stderr o ++ rest)).
Proof.
  intros He Hl Ht. unfold run_command_limited.
  destruct (validate_program_spec program m) as [[Hp ->]|(Hp & e & ->)].
  2: { do 2 eexists. split; [reflexivity|]. split; [by right|]. split; [by auto|done]. }
  destruct (sanitize_args_spec args m) as [[Ha ->]|(Ha & e & ->)].
  2: { do 2 eexists. split; [reflexivity|]. split; [by right|]. split; [by auto|done]. }
  destruct (spawn program args TRUSTED_PATH) as [c|e] eqn:Hs.
  2: { do 2 eexists. split; [reflexivity|]. split; [by left|]. split; [tauto|done]. }
  destruct (poll_child_ends timeout c 0 fuel (fun k => He c k eq_refl) ltac:(lia)) as [x Hx]. rewrite Hx.
  destruct x as [|e|].
  - destruct (wait_with_output c) as [o|e] eqn:Ho; do 2 eexists; (split; [reflexivity|]);
      (split; [by left|]); (split; [tauto|]); [|done].
    intros o' [= <-]. do 3 (split; [done|]). exists c, o.
    destruct (cap_vec_spec (o_stdout o) limit Hl), (cap_vec_spec (o_stderr o) limit Hl).
    by split_and!.
  - do 2 eexists. split; [reflexivity|]. split; [by left|]. split; [tauto|done].
  - do 2 eexists. split; [reflexivity|]. split; [by right|]. split; [tauto|done].
Qed.

(** A program that waits for its output to be read never exits while it is only polled: it
    is killed and reported as timed out although it would have finished at once. *)
Lemma unread_output_times_out spawn program args limit m c o :
  plain_program program -> plain_args args -> spawn program args TRUSTED_PATH = Ok c ->
  (forall k, try_wait c k = Ok false) -> (forall k, elapsed c k = 25 * Z.of_nat k) ->
  wait_with_output c = Ok o ->
  run_command_limited 201 spawn program args DEFAULT_TIMEOUT limit m
  = Some (Err (program ++ b!" timed out"), inc external_command_rejections m).
Proof.
  intros Hp Ha Hs Hw He _. unfold run_command_limited.
  destruct (validate_program_spec program m) as [[_ ->]|[Hn _]]; [|done].
  destruct (sanitize_args_spec args m) as [[_ ->]|[Hn _]]; [|done]. rewrite Hs.
  destruct (poll_child_ends DEFAULT_TIMEOUT c 0 200) as [x Hx];
    [intros k; by rewrite He|unfold DEFAULT_TIMEOUT; lia|].
  rewrite Hx. assert (forall n k, poll_child n DEFAULT_TIMEOUT k c <> Some Exited
    /\ forall e, poll_child n DEFAULT_TIMEOUT k c <> Some (PollFailed e)) as Hno.
  { induction n as [|n IH]; intros k; cbn; [done|]. rewrite Hw.
    destruct (_ <=? _); [done|apply IH]. }
  destruct (Hno 201%nat 0%nat) as [H1 H2]. destruct x as [|e|]; [congruence|by destruct (H2 e)|done].
Qed.

(** *** Witnesses *)
Definition demo_cmd : CmdArgs :=
  mkCmdArgs (Some b!"w.toml") None b!"127.0.0.1" 17000 17001 b!"127.0.0.1" 11434 None 40000
    b!"127.0.0.1" false b!"ca-cert.pem" false None TCP CmdOLLAMA false None None true None
    (Some b!"m.gguf") 99 8192 4096 SplitLayer 0 None 1.
Definition demo_file : ConfigFile :=
  mkConfig (mkServerConfig b!"gpuf.example" 17000 17001)
    (mkClientConfig b!"0xabababababababababababababababab" b!"tcp" b!"llama" b!"ca.pem" (Some true)
       None b!"127.0.0.1" 8080 true None None 4096 99 (Some b!"row") None None).

Lemma loaded_settings_witness :
  exists a, load_config to_ascii_lowercase (fun _ => Ok demo_file) demo_cmd = Ok a
            /\ ca_llama_model_path a = None /\ security_config a = security_config demo_cmd.
Proof.
  destruct (load_config to_ascii_lowercase (fun _ => Ok demo_file) demo_cmd) as [a|e] eqn:E;
    [|vm_compute in E; discriminate E].
  exists a. split; [reflexivity|].
  destruct (loaded_settings to_ascii_lowercase (fun _ => Ok demo_file) demo_cmd a E)
    as (_ & _ & _ & H1 & H2 & _).
  split; [exact H1|exact H2].
Defined.

Definition demo_child : Child :=
  mkChild (fun k => Ok (2 <=? k)%nat) (Ok (mkOutput 0 b!"abcdef" [])) (fun k => 25 * Z.of_nat k).

Lemma commands_are_contained_witness :
  exists m', run_command_limited 201 (fun _ _ _ => Ok demo_child) b!"printf" [b!"abcdef"]
               DEFAULT_TIMEOUT 3 SecurityMetrics_default
             = Some (Ok (mkOutput 0 b!"abc" []), m') /\ m' = SecurityMetrics_default.
Proof.
  assert (exists r m', run_command_limited 201 (fun _ _ _ => Ok demo_child) b!"printf" [b!"abcdef"]
            DEFAULT_TIMEOUT 3 SecurityMetrics_default = Some (r, m')
          /\ forall o, r = Ok o -> m' = SecurityMetrics_default) as (r & m' & E & Hm).
  { destruct (commands_are_contained (fun _ _ _ => Ok demo_child) b!"printf" [b!"abcdef"]
      DEFAULT_TIMEOUT 3 SecurityMetrics_default 200) as (r & m' & E & _ & _ & H).
    - intros c k [= <-]. cbn. lia.
    - discriminate.
    - discriminate.
    - exists r, m'. split; [exact E|]. intros o Ho. exact (proj1 (H o Ho)). }
  exists m'. assert (r = Ok (mkOutput 0 b!"abc" [])) as Hr.
  { vm_compute in E. injection E as <- _. reflexivity. }
  subst r. split; [exact E|]. exact (Hm _ eq_refl).
Defined.
End ConfigFacts.
