(* ===== verification/SdkWorker.v ===== *)
(** * The worker of the mobile SDK ([gpuf-c/src/handle/worker_sdk.rs])

    The worker of a phone: the process-wide slots its C functions share, the login, the
    heartbeat thread and the command thread with its reconnection, and the inference task,
    which runs the generation of [Mobile] with a callback that sends chunks. Threads and the
    app interleave: an operation of the app is one step ([perform_login_with_tls] two, since
    threads run while it connects), and so is each turn of a thread between two points at
    which it looks at shared state. No thread panics while it holds a lock, so no mutex is
    ever poisoned and those branches are left out. *)

From S2P Require Import Prelude Wire Text Output Ids Catalog LlamaEngine Scheduler Streams DeviceStream Mobile MobileTls Session.
From Stdlib Require Import ZArith Lia String.
From Stdlib Require Import Strings.Byte.
From stdpp Require Import base list gmap.

Local Open Scope Z_scope.
Import Framing Filter Phase Emit TextFacts PhaseFacts EmitFacts.

(** ** The device a phone reports *)

Definition CURRENT_VERSION : Z := 1.

Definition derive_model_id_from_path (model_path : bytes) : bytes :=
  let lower := to_ascii_lowercase model_path in
  if contains_sub b!"llama-3" lower || contains_sub b!"llama3" lower then b!"llama3"
  else if contains_sub b!"qwen" lower then b!"qwen"
  else if contains_sub b!"mistral" lower then b!"mistral"
  else b!"llama".

Definition SystemInfo_default : SystemInfo := mkSystemInfo 0 0 0 0 0.

Definition fixed_devices_info (os : OsType) : DevicesInfo :=
  {| num := 1; pod_id := 0; total_tflops := 0; memtotal_gb := 0; port := 0; ip := 0;
     os_type := os; engine_type := Wire.Llama;
     usage := 0; mem_usage := 0; power_usage := 0; temp := 0;
     vendor_id := 65; device_id := 4096; memsize_gb := 0; powerlimit_w := 0 |}.

(** ** A control stream *)

(** What a read meets next: a byte, or two seconds of silence ([None]), after which a read
    times out. The end of the list is the end of the stream. *)
Abbreviation Incoming := (list (option byte)).

Inductive ReadError := TimedOut | ReadFailed (e : bytes).

(** [Read::read_exact]: bytes read before a timeout are lost. *)
Fixpoint read_exact_timed (n : nat) (s : Incoming) : (bytes + ReadError) * Incoming :=
  match n with
  | O => (inl [], s)
  | S n =>
      match s with
      | [] => (inr (ReadFailed err_eof), [])
      | None :: s => (inr TimedOut, s)
      | Some b :: s => match read_exact_timed n s with
                       | (inl l, s) => (inl (b :: l), s)
                       | r => r
                       end
      end
  end.

(** How a stream was opened; no operation looks at it. *)
Inductive Opened := ByLogin | ByReconnect.

(** [st_fails n]: whether the [n]-th write fails; [st_writes] counts them. *)
Record Stream := mkStream {
  st_opened : Opened; st_in : Incoming; st_out : list Command;
  st_writes : nat; st_fails : nat -> bool; st_shut : bool }.

Section Worker.
Context `{C : Codec}.

(** [common::read_command_sync] on such a stream. *)
Definition read_command_timed (s : Incoming) : (Command + ReadError) * Incoming :=
  match read_exact_timed 4 s with
  | (inr e, s) => (inr e, s)
  | (inl len_buf, s) =>
      let len := of_be len_buf in
      if MAX_MESSAGE_SIZE <? len then (inr (ReadFailed err_too_large), s)
      else match read_exact_timed (Z.to_nat len) s with
           | (inr e, s) => (inr e, s)
           | (inl buf, s) =>
               match decode_from_slice buf with
               | Some (command, _) => (inl command, s)
               | None => (inr (ReadFailed err_decode), s)
               end
           end
  end.

Definition read_stream (st : Stream) : (Command + ReadError) * Stream :=
  let '(r, s) := read_command_timed (if st_shut st then [] else st_in st) in
  (r, mkStream (st_opened st) s (st_out st) (st_writes st) (st_fails st) (st_shut st)).

Definition write_stream (c : Command) (st : Stream) : result () * Stream :=
  let written out := mkStream (st_opened st) (st_in st) out (S (st_writes st)) (st_fails st)
                       (st_shut st) in
  match write_command_sync c with
  | Err e => (Err e, written (st_out st))
  | Ok _ => if st_shut st || st_fails st (st_writes st)
            then (Err b!"Broken pipe", written (st_out st))
            else (Ok (), written (st_out st ++ [c]))
  end.

Definition shutdown (st : Stream) : Stream :=
  mkStream (st_opened st) (st_in st) (st_out st) (st_writes st) (st_fails st) true.

(** ** The inference task *)

(** The filter of this file, which is not the one of the desktop worker. *)
Definition sdk_filter_control_tokens (text : bytes) : bytes :=
  remove_all b!"<|end_header_id|>" (remove_all b!"<|start_header_id|>"
    (remove_all b!"<|eot_id|>" (remove_all b!"<|message|>" (remove_all b!"<|channel|>"
      (remove_all b!"<|start|>" (remove_all b!"<|end|>" text)))))).

Record TokenCallbackState := mkCb {
  cb_stream : Stream; cb_seq : Z; cb_buf : bytes; cb_buf_phase : OutputPhase;
  cb_splitter : PhaseSplitter; cb_completion : Z; cb_analysis : Z; cb_final : Z;
  cb_cancelled : bool }.

Definition cb_max_bytes : Z := 8.

Definition cb_start (st : Stream) : TokenCallbackState :=
  mkCb st 0 [] Unknown PhaseSplitter_default 0 0 0 false.

Definition cb_chunk (task_id delta : bytes) (phase : OutputPhase) (done : bool)
    (error : option bytes) (s : TokenCallbackState) : Command :=
  V1 (InferenceResultChunk task_id (cb_seq s) delta phase done error 0
        (cb_completion s) (cb_analysis s) (cb_final s)).

(** The batch leaves the buffer whether or not the write succeeds. *)
Definition cb_flush (task_id : bytes) (s : TokenCallbackState) : result () * TokenCallbackState :=
  let '(r, st) := write_stream (cb_chunk task_id (cb_buf s) (cb_buf_phase s) false None s)
                    (cb_stream s) in
  (r, mkCb st (wrap 32 (cb_seq s + 1)) [] (cb_buf_phase s) (cb_splitter s) (cb_completion s)
        (cb_analysis s) (cb_final s) (cb_cancelled s)).

Definition cb_set_buf (buf : bytes) (phase : OutputPhase) (s : TokenCallbackState) : TokenCallbackState :=
  mkCb (cb_stream s) (cb_seq s) buf phase (cb_splitter s) (cb_completion s)
    (cb_analysis s) (cb_final s) (cb_cancelled s).

Definition cb_count (phase : OutputPhase) (s : TokenCallbackState) : TokenCallbackState :=
  mkCb (cb_stream s) (cb_seq s) (cb_buf s) (cb_buf_phase s) (cb_splitter s) (cb_completion s)
    (match phase with Analysis => sat_add 32 (cb_analysis s) 1 | _ => cb_analysis s end)
    (match phase with Final => sat_add 32 (cb_final s) 1 | _ => cb_final s end)
    (cb_cancelled s).

(** The buffer holds text of one phase: it is sent before another one begins. *)
Definition cb_enter (task_id : bytes) (phase : OutputPhase) (s : TokenCallbackState)
    : TokenCallbackState :=
  if bool_decide (cb_buf s = []) then cb_set_buf (cb_buf s) phase s
  else if bool_decide (cb_buf_phase s = phase) then s
  else let s := (cb_flush task_id s).2 in cb_set_buf (cb_buf s) phase s.

Definition on_seg (task_id : bytes) (s : TokenCallbackState) (ps : OutputPhase * bytes)
    : TokenCallbackState :=
  let '(phase, seg) := ps in
  if bool_decide (seg = []) then s
  else
    let s := cb_enter task_id phase (cb_count phase s) in
    let s := cb_set_buf (cb_buf s ++ seg) (cb_buf_phase s) s in
    if blen (cb_buf s) <? cb_max_bytes then s else (cb_flush task_id s).2.

(** [marked]: whether [WORKER_CANCELLED_TASK] holds this task now; it is taken from there. *)
Definition on_token (task_id : bytes) (marked : bool) (token : bytes) (s : TokenCallbackState)
    : TokenCallbackState :=
  if marked
  then mkCb (cb_stream s) (cb_seq s) (cb_buf s) (cb_buf_phase s) (cb_splitter s)
         (cb_completion s) (cb_analysis s) (cb_final s) true
  else match from_utf8 token with
  | None => s
  | Some token_str =>
      if bool_decide (token_str = []) then s
      else
        let filtered := sdk_filter_control_tokens token_str in
        let '(segs, sp) := if bool_decide (filtered = []) then ([], cb_splitter s)
                           else push (cb_splitter s) filtered in
        fold_left (on_seg task_id) segs
          (mkCb (cb_stream s) (cb_seq s) (cb_buf s) (cb_buf_phase s) sp
             (sat_add 32 (cb_completion s) 1) (cb_analysis s) (cb_final s) (cb_cancelled s))
  end.

(** The callbacks of a generation; [marked n] is the mark as the [n]-th one reads it. *)
Fixpoint on_tokens (task_id : bytes) (marked : nat -> bool) (n : nat) (tokens : list bytes)
    (s : TokenCallbackState) : TokenCallbackState :=
  match tokens with
  | [] => s
  | t :: tokens => on_tokens task_id marked (S n) tokens (on_token task_id (marked n) t s)
  end.

(** What a phone holds of llama.cpp: whether the two global pointers are set, what asking them
    for a model and a vocabulary gives, the path of [MODEL_STATUS], the library, and the
    model's chat template (the length it reports and the text it writes). *)
Record Phone := mkPhone {
  ph_model_ptr : bool; ph_context_ptr : bool; ph_no_model : bool; ph_no_vocab : bool;
  ph_current_model : option bytes; ph_llama : Mobile.Llama;
  ph_template : list (bytes * bytes) -> Z * bytes }.

(** [CString::new] refuses a NUL; a C string ends at the first one. *)
Definition has_nul (s : bytes) : bool := bool_decide (Byte.x00 ∈ s).

Definition final_chunk (task_id : bytes) (phase : OutputPhase) (error : bytes) : Command :=
  V1 (InferenceResultChunk task_id 0 [] phase true (Some error) 0 0 0 0).

(** The outcome, the stream and [WORKER_CANCELLED_TASK] afterwards. [marked n]: the slot names
    this task when the [n]-th callback looks; [stop i]: another caller of
    [gpuf_stop_generation] has set the flag before the [i]-th round. *)
Definition handle_inference_task (ph : Phone) (marked : nat -> bool) (stop : nat -> bool)
    (task_id prompt : bytes) (max_tokens : Z) (temperature : f32) (top_k : Z)
    (top_p repeat_penalty : f32) (stream : Stream) (cancelled_task : option bytes)
    : ffi (result () * Stream * option bytes) :=
  if negb (ph_model_ptr ph) || negb (ph_context_ptr ph)
  then
    let '(r, st) := write_stream (final_chunk task_id Unknown
                      b!"Model not loaded - please load a model first") stream in
    Returns (r, st, cancelled_task)
  else if has_nul prompt then Returns (Err b!"Invalid prompt", stream, cancelled_task)
  else
    match gpuf_start_generation_async (ph_llama ph) false false (ph_no_model ph) (ph_no_vocab ph)
            true prompt max_tokens temperature top_k top_p repeat_penalty
            (fun cbs i => existsb marked (seq 0 (length cbs)) || stop i) with
    | Aborts => Aborts
    | Returns (rc, g) =>
        let tokens := match g with Some g => g_callbacks g | None => [] end in
        let slot := if existsb marked (seq 0 (length tokens)) then None else cancelled_task in
        let s := on_tokens task_id marked 0 tokens (cb_start stream) in
        if rc <? 0
        then
          let '(r, st) := write_stream (final_chunk task_id Final
                            (b!"Inference failed: " ++ int_dec rc)) (cb_stream s) in
          Returns (r, st, match r with Ok _ => None | Err _ => slot end)
        else
          let '(r, s) := if bool_decide (cb_buf s = []) then (Ok (), s) else cb_flush task_id s in
          match r with
          | Err e => Returns (Err e, cb_stream s, slot)
          | Ok _ =>
              let '(r, st) := write_stream
                (cb_chunk task_id [] (phase (cb_splitter s)) true
                   (if cb_cancelled s then Some b!"Inference cancelled by server" else None) s)
                (cb_stream s) in
              Returns (r, st, match r with Ok _ => None | Err _ => slot end)
          end
    end.

(** ** Prompts of chat tasks *)

Definition llama3_prompt (messages : list ChatMessage) : bytes :=
  b!"<|begin_of_text|>"
  ++ concat ((fun m => b!"<|start_header_id|>" ++ role m ++ [Byte.x0a; Byte.x0a] ++ content m
                       ++ [Byte.x0a] ++ b!"<|eot_id|>") <$> messages)
  ++ b!"<|start_header_id|>assistant" ++ [Byte.x0a; Byte.x0a].

Definition c_string (s : bytes) : bytes := if has_nul s then [] else s.

(** [CStr::from_bytes_until_nul]: needs a NUL. *)
Fixpoint until_nul (s : bytes) : option bytes :=
  match s with
  | [] => None
  | b :: s => if bool_decide (b = Byte.x00) then Some [] else cons b <$> until_nul s
  end.

Definition TEMPLATE_BUFFER : Z := 8192.

(** [None]: slicing the buffer by the reported length panics. *)
Definition build_chat_prompt_with_template (ph : Phone) (messages : list ChatMessage)
    : option bytes :=
  if ph_model_ptr ph
  then
    let '(result, text) := ph_template ph
                             ((fun m => (c_string (role m), c_string (content m))) <$> messages) in
    let buffer := take (Z.to_nat TEMPLATE_BUFFER) (text ++ replicate (Z.to_nat TEMPLATE_BUFFER) Byte.x00) in
    if result <=? 0 then Some (llama3_prompt messages)
    else if TEMPLATE_BUFFER <? result then None
    else match until_nul (take (Z.to_nat result) buffer) with
         | Some p => match from_utf8 p with
                     | Some p => Some p
                     | None => Some (llama3_prompt messages)
                     end
         | None => Some (llama3_prompt messages)
         end
  else Some (llama3_prompt messages).

(** ** The process *)

(** What a command thread is started with, and its count of failures in a row. A callback is
    known by a number. *)
Record Handler := mkHandler {
  h_callback : option Z; h_addr : bytes; h_port : Z; h_tls : MobileControlTlsConfig;
  h_failures : Z }.

(** Where a thread is: the heartbeat thread before a heartbeat or with seconds left to sleep;
    the command thread at the top of its loop, before reading from a stream, or with a
    command read. *)
Inductive Thread :=
  | HbTop (stream : nat) (cb : option Z)
  | HbSleep (stream : nat) (cb : option Z) (left_ : nat)
  | HTop (h : Handler)
  | HRead (h : Handler) (stream : nat)
  | HGot (h : Handler) (stream : nat) (c : Command)
  | Ended
  | PanickedThread.

(** The slots of the process (their source names), the streams ever opened, the calls of
    status callbacks with their message and user data, the threads ever spawned. *)
Record SdkWorld := mkSdk {
  streams : list Stream;
  WORKER_TCP_STREAM : option nat; WORKER_SERVER_ADDR : option bytes;
  WORKER_CONTROL_PORT : option Z; WORKER_CONTROL_TLS : MobileControlTlsConfig;
  WORKER_CLIENT_ID : option bytes; WORKER_STOP_SIGNAL : option bool;
  WORKER_CANCELLED_TASK : option bytes; WORKER_STATUS_CALLBACK : option (Z * Z);
  calls : list (Z * bytes * Z); threads : list Thread }.

Definition sdk_start : SdkWorld :=
  mkSdk [] None None None plaintext None None None None [] [].

Definition set_sts (sts : list Stream) (w : SdkWorld) : SdkWorld :=
  mkSdk sts (WORKER_TCP_STREAM w) (WORKER_SERVER_ADDR w) (WORKER_CONTROL_PORT w)
    (WORKER_CONTROL_TLS w) (WORKER_CLIENT_ID w) (WORKER_STOP_SIGNAL w)
    (WORKER_CANCELLED_TASK w) (WORKER_STATUS_CALLBACK w) (calls w) (threads w).
Definition set_slot (o : option nat) (w : SdkWorld) : SdkWorld :=
  mkSdk (streams w) o (WORKER_SERVER_ADDR w) (WORKER_CONTROL_PORT w)
    (WORKER_CONTROL_TLS w) (WORKER_CLIENT_ID w) (WORKER_STOP_SIGNAL w)
    (WORKER_CANCELLED_TASK w) (WORKER_STATUS_CALLBACK w) (calls w) (threads w).
Definition set_endpoint (addr : option bytes) (port : option Z) (tls : MobileControlTlsConfig)
    (id : option bytes) (w : SdkWorld) : SdkWorld :=
  mkSdk (streams w) (WORKER_TCP_STREAM w) addr port tls id (WORKER_STOP_SIGNAL w)
    (WORKER_CANCELLED_TASK w) (WORKER_STATUS_CALLBACK w) (calls w) (threads w).
Definition set_stop (o : option bool) (w : SdkWorld) : SdkWorld :=
  mkSdk (streams w) (WORKER_TCP_STREAM w) (WORKER_SERVER_ADDR w) (WORKER_CONTROL_PORT w)
    (WORKER_CONTROL_TLS w) (WORKER_CLIENT_ID w) o
    (WORKER_CANCELLED_TASK w) (WORKER_STATUS_CALLBACK w) (calls w) (threads w).
Definition set_cancelled_task (o : option bytes) (w : SdkWorld) : SdkWorld :=
  mkSdk (streams w) (WORKER_TCP_STREAM w) (WORKER_SERVER_ADDR w) (WORKER_CONTROL_PORT w)
    (WORKER_CONTROL_TLS w) (WORKER_CLIENT_ID w) (WORKER_STOP_SIGNAL w)
    o (WORKER_STATUS_CALLBACK w) (calls w) (threads w).
Definition set_callback (o : option (Z * Z)) (w : SdkWorld) : SdkWorld :=
  mkSdk (streams w) (WORKER_TCP_STREAM w) (WORKER_SERVER_ADDR w) (WORKER_CONTROL_PORT w)
    (WORKER_CONTROL_TLS w) (WORKER_CLIENT_ID w) (WORKER_STOP_SIGNAL w)
    (WORKER_CANCELLED_TASK w) o (calls w) (threads w).
Definition set_calls (l : list (Z * bytes * Z)) (w : SdkWorld) : SdkWorld :=
  mkSdk (streams w) (WORKER_TCP_STREAM w) (WORKER_SERVER_ADDR w) (WORKER_CONTROL_PORT w)
    (WORKER_CONTROL_TLS w) (WORKER_CLIENT_ID w) (WORKER_STOP_SIGNAL w)
    (WORKER_CANCELLED_TASK w) (WORKER_STATUS_CALLBACK w) l (threads w).
Definition set_threads (l : list Thread) (w : SdkWorld) : SdkWorld :=
  mkSdk (streams w) (WORKER_TCP_STREAM w) (WORKER_SERVER_ADDR w) (WORKER_CONTROL_PORT w)
    (WORKER_CONTROL_TLS w) (WORKER_CLIENT_ID w) (WORKER_STOP_SIGNAL w)
    (WORKER_CANCELLED_TASK w) (WORKER_STATUS_CALLBACK w) (calls w) l.

Definition stopped (w : SdkWorld) : bool := default false (WORKER_STOP_SIGNAL w).
Definition registered_remote_worker_callback (w : SdkWorld) : option Z :=
  fst <$> WORKER_STATUS_CALLBACK w.
(** The null pointer is 0. *)
Definition registered_remote_worker_user_data (w : SdkWorld) : Z :=
  default 0 (snd <$> WORKER_STATUS_CALLBACK w).

(** The user data is that of the callback registered now. *)
Definition emit_callback (cb : option Z) (msg : bytes) (w : SdkWorld) : SdkWorld :=
  match cb with
  | None => w
  | Some f => if has_nul msg then w
              else set_calls (calls w ++ [(f, msg, registered_remote_worker_user_data w)]) w
  end.

Definition register_remote_worker_callback (cb : option Z) (user_data : Z) (w : SdkWorld)
    : Z * SdkWorld :=
  (0, set_callback ((fun f => (f, user_data)) <$> cb) w).

Definition get_worker_status (w : SdkWorld) : bytes :=
  if WORKER_TCP_STREAM w is Some _ then b!"Worker is running" else b!"Worker not available".

(** Writing on the [i]-th stream. *)
Definition write_on (i : nat) (c : Command) (w : SdkWorld) : result () * SdkWorld :=
  match streams w !! i with
  | None => (Err b!"no stream", w)
  | Some st => let '(r, st) := write_stream c st in (r, set_sts (<[i := st]> (streams w)) w)
  end.

(** ** Connecting and logging in *)

(** The TLS side of a connection attempt, and what the network will do on its stream. *)
Record Net := mkNet { n_peer : Peer; n_in : Incoming; n_fails : nat -> bool }.

Context (connect : Peer -> MobileControlTlsConfig -> result MobileControlStream).
Context `{H : Hex} (os : OsType).

Definition new_stream (how : Opened) (n : Net) : Stream :=
  mkStream how (n_in n) [] 0 (n_fails n) false.

(** [perform_login_with_tls] up to the connection: stop the threads, close the old stream. *)
Definition login_begin (w : SdkWorld) : SdkWorld :=
  let w := match WORKER_STOP_SIGNAL w with Some _ => set_stop (Some true) w | None => w end in
  match WORKER_TCP_STREAM w with
  | Some i => set_slot None (set_sts (alter shutdown i (streams w)) w)
  | None => w
  end.

Definition login_command (auto_models : bool) (client_id : bytes) : Command :=
  V1 (Login client_id CURRENT_VERSION os auto_models SystemInfo_default 0 0
        [fixed_devices_info os]).

Definition decode_client_id (client_id_hex : bytes) : result bytes :=
  let? decoded := ok_or (hex_decode client_id_hex)
                    b!"Invalid client_id hex (expected 32 hex chars)" in
  if decide (length decoded = 16%nat) then Ok decoded
  else Err b!"Invalid client_id length (expected 16 bytes / 32 hex chars)".

(** The rest of it. A stream that is not kept is closed again. *)
Definition login_finish (server_addr : bytes) (control_port : Z) (client_id_hex : bytes)
    (auto_models : bool) (tls : MobileControlTlsConfig) (n : Net) (w : SdkWorld)
    : result () * SdkWorld :=
  match connect (n_peer n) tls with
  | Err e => (Err e, w)
  | Ok _ =>
      match decode_client_id client_id_hex with
      | Err e => (Err e, w)
      | Ok client_id =>
          match write_stream (login_command auto_models client_id) (new_stream ByLogin n) with
          | (Err e, _) => (Err (b!"Failed to send login command: " ++ e), w)
          | (Ok _, st) =>
              (Ok (), set_endpoint (Some server_addr) (Some control_port) tls (Some client_id)
                        (set_slot (Some (length (streams w))) (set_sts (streams w ++ [st]) w)))
          end
      end
  end.

Definition perform_login_with_tls (server_addr : bytes) (control_port : Z)
    (client_id_hex : bytes) (auto_models : bool) (tls : MobileControlTlsConfig) (n : Net)
    (w : SdkWorld) : result () * SdkWorld :=
  login_finish server_addr control_port client_id_hex auto_models tls n (login_begin w).

Definition perform_login (server_addr : bytes) (control_port : Z) (client_id_hex : bytes)
    (auto_models : bool) (n : Net) (w : SdkWorld) : result () * SdkWorld :=
  perform_login_with_tls server_addr control_port client_id_hex auto_models plaintext n w.

Definition start_worker_tasks_with_callback_ptr (callback : option Z) (w : SdkWorld)
    : result () * SdkWorld :=
  let callback := match callback with
                  | Some f => Some f | None => registered_remote_worker_callback w end in
  match WORKER_TCP_STREAM w with
  | None => (Err b!"TCP connection not initialized", w)
  | Some tcp_stream =>
      let w := set_stop (Some false) w in
      let w := set_threads (threads w ++ [HbTop tcp_stream callback]) w in
      match WORKER_SERVER_ADDR w with
      | None => (Err b!"Server address not configured; call start_remote_worker first",
                 emit_callback callback
                   b!"FATAL: No server address configured; call start_remote_worker first" w)
      | Some server_addr =>
          match WORKER_CONTROL_PORT w with
          | None => (Err b!"Control port not configured; call start_remote_worker first",
                     emit_callback callback
                       b!"FATAL: No control port configured; call start_remote_worker first" w)
          | Some control_port =>
              (Ok (), set_threads (threads w ++ [HTop (mkHandler callback server_addr control_port
                                                    (WORKER_CONTROL_TLS w) 0)]) w)
          end
      end
  end.

Definition stop_global_worker (w : SdkWorld) : SdkWorld :=
  let w := match WORKER_STOP_SIGNAL w with Some _ => set_stop (Some true) w | None => w end in
  set_endpoint None None (WORKER_CONTROL_TLS w) None (set_slot None w).

(** ** The threads *)

Definition heartbeat_command (w : SdkWorld) : Command :=
  V1 (Heartbeat (default (replicate 16 Byte.x00) (WORKER_CLIENT_ID w)) SystemInfo_default 1 0 0
        [fixed_devices_info os]).

(** One turn of the heartbeat thread: a heartbeat, or a second of the 120 it sleeps. *)
Definition heartbeat_step (t : Thread) (w : SdkWorld) : Thread * SdkWorld :=
  match t with
  | HbTop i cb =>
      if stopped w then (Ended, w)
      else
        let '(r, w) := write_on i (heartbeat_command w) w in
        (HbSleep i cb 120,
         emit_callback cb (match r with Ok _ => b!"HEARTBEAT - Sent"
                           | Err _ => b!"HEARTBEAT - Send failed" end) w)
  | HbSleep i cb O => (HbTop i cb, w)
  | HbSleep i cb (S k) => if stopped w then (HbTop i cb, w) else (HbSleep i cb k, w)
  | t => (t, w)
  end.

Definition MAX_CONSECUTIVE_FAILURES : Z := 5.

Definition with_failures (n : Z) (h : Handler) : Handler :=
  mkHandler (h_callback h) (h_addr h) (h_port h) (h_tls h) n.

(** The top of the command thread's loop: the stream of the slot, or a new one. *)
Definition handler_top (n : Net) (h : Handler) (w : SdkWorld) : Thread * SdkWorld :=
  if stopped w then (Ended, w)
  else match WORKER_TCP_STREAM w with
  | Some i => (HRead (with_failures 0 h) i, w)
  | None =>
      let failures := h_failures h + 1 in
      let w := emit_callback (h_callback h)
                 (b!"CONNECTION_LOST - No control stream, attempting reconnect "
                  ++ dec failures ++ b!"/" ++ dec MAX_CONSECUTIVE_FAILURES) w in
      if MAX_CONSECUTIVE_FAILURES <=? failures
      then (Ended, emit_callback (h_callback h)
                     b!"RECONNECT_FAILED - Max retries reached, stopping worker" w)
      else match connect (n_peer n) (h_tls h) with
      | Ok _ =>
          let i := length (streams w) in
          let w := emit_callback (h_callback h)
                     (b!"RECONNECT_SUCCESS - Connected to configured endpoint (port="
                      ++ dec (h_port h) ++ b!", tls="
                      ++ (if tls_enabled (h_tls h) then b!"true" else b!"false") ++ b!")") w in
          (HRead (with_failures 0 h) i,
           set_slot (Some i) (set_sts (streams w ++ [new_stream ByReconnect n]) w))
      | Err e =>
          (HTop (with_failures failures h),
           emit_callback (h_callback h)
             (b!"RECONNECT_FAILED - Error redacted (" ++ dec (blen e)
              ++ b!" bytes), retrying in 5s") w)
      end
  end.

(** Leaving the inner loop. *)
Definition invalidated (h : Handler) (w : SdkWorld) : Thread * SdkWorld :=
  (HTop h, emit_callback (h_callback h) b!"Stream invalidated, attempting reconnection..." w).

Definition handler_read (h : Handler) (i : nat) (w : SdkWorld) : Thread * SdkWorld :=
  if stopped w then invalidated h w
  else match streams w !! i with
  | None => (HRead h i, w)
  | Some st =>
      let '(r, st) := read_stream st in
      let w := set_sts (<[i := st]> (streams w)) w in
      match r with
      | inl c => (HGot h i c, w)
      | inr TimedOut => (HRead h i, w)
      | inr (ReadFailed e) =>
          invalidated h (set_slot None
            (emit_callback (h_callback h) (b!"READ_ERROR - Connection lost: " ++ e) w))
      end
  end.

Definition model_status (ph : Phone) (w : SdkWorld) : Command :=
  V1 (ModelStatus (default (replicate 16 Byte.x00) (WORKER_CLIENT_ID w))
        [mkModel (derive_model_id_from_path (default b!"ios" (ph_current_model ph)))
           b!"model" 0 b!"ios"] []).

Definition on_login_result (ph : Phone) (h : Handler) (i : nat) (success : bool)
    (error : option bytes) (w : SdkWorld) : Thread * SdkWorld :=
  let cb := h_callback h in
  if negb success
  then invalidated h (set_slot None
         (emit_callback cb (b!"LOGIN_FAILED - server message redacted ("
            ++ dec (blen (default b!"unknown" error)) ++ b!" bytes)") w))
  else
    let w := emit_callback cb b!"LOGIN_SUCCESS" w in
    match write_on i (model_status ph w) w with
    | (Ok _, w) => (HRead h i, emit_callback cb b!"MODEL_STATUS_SENT" w)
    | (Err e, w) =>
        invalidated h (set_slot None
          (emit_callback cb (b!"MODEL_STATUS_FAILED - Error redacted (" ++ dec (blen e)
                             ++ b!" bytes)") w))
    end.

Definition MAX_PHONE_TOKENS : Z := 512.

(** The parameters a task is run with: [max_tokens] and [top_k] as 32-bit signed numbers. *)
Definition effective_max_tokens (p : Sampling) : Z := Z.min (max_tokens p) MAX_PHONE_TOKENS.
Definition effective_top_k (p : Sampling) : Z := Z.min (top_k p) (2 ^ 31 - 1).

(** A task of either kind, its prompt built; [None]: the process aborts. *)
Definition run_task (ph : Phone) (stop : nat -> bool) (h : Handler) (i : nat)
    (task_id prompt : bytes) (p : Sampling) (w : SdkWorld) : option (Thread * SdkWorld) :=
  let cb := h_callback h in
  match streams w !! i with
  | None => Some (HRead h i, w)
  | Some st =>
      let marked n := (n =? 0)%nat && bool_decide (WORKER_CANCELLED_TASK w = Some task_id) in
      match handle_inference_task ph marked stop task_id prompt (effective_max_tokens p)
              (temperature p) (effective_top_k p) (top_p p) (repeat_penalty p) st
              (WORKER_CANCELLED_TASK w) with
      | Aborts => None
      | Returns (r, st, slot) =>
          let w := set_cancelled_task slot (set_sts (<[i := st]> (streams w)) w) in
          Some (HRead h i,
                emit_callback cb (match r with
                  | Ok _ => b!"INFERENCE_DONE - " ++ task_id
                  | Err e => b!"INFERENCE_FAILED - " ++ task_id ++ b!" - " ++ e end) w)
      end
  end.

Definition announce_task (kind : bytes) (h : Handler) (task_id : bytes) (p : Sampling)
    (w : SdkWorld) : SdkWorld :=
  let cb := h_callback h in
  let w := emit_callback cb (kind ++ b!" - " ++ task_id) w in
  let w := if bool_decide (effective_max_tokens p = max_tokens p) then w
           else emit_callback cb (b!"INFERENCE_PARAMS - " ++ task_id ++ b!" max_tokens="
                  ++ dec (max_tokens p) ++ b!" clamped_to=" ++ dec (effective_max_tokens p)) w in
  emit_callback cb (b!"INFERENCE_START - " ++ task_id) w.

Definition handler_command (ph : Phone) (stop : nat -> bool) (h : Handler) (i : nat)
    (c : Command) (w : SdkWorld) : option (Thread * SdkWorld) :=
  match c with
  | V1 (LoginResult success _ error) => Some (on_login_result ph h i success error w)
  | V1 (CancelInference task_id) =>
      Some (HRead h i, set_cancelled_task (Some task_id)
              (emit_callback (h_callback h) (b!"CANCEL_TASK - " ++ task_id) w))
  | V1 (InferenceTask task_id prompt p) =>
      run_task ph stop h i task_id prompt p (announce_task b!"INFERENCE_TASK" h task_id p w)
  | V1 (ChatInferenceTask task_id _ messages p) =>
      let w := announce_task b!"CHAT_INFERENCE_TASK" h task_id p w in
      match build_chat_prompt_with_template ph messages with
      | Some prompt => run_task ph stop h i task_id prompt p w
      | None => Some (PanickedThread, w)
      end
  | _ => Some (HRead h i, w)
  end.

Definition thread_step (ph : Phone) (n : Net) (stop : nat -> bool) (t : Thread) (w : SdkWorld)
    : option (Thread * SdkWorld) :=
  match t with
  | HTop h => Some (handler_top n h w)
  | HRead h i => Some (handler_read h i w)
  | HGot h i c => handler_command ph stop h i c w
  | t => Some (heartbeat_step t w)
  end.

(** ** Interleavings *)

Inductive Op :=
  | Register (cb : option Z) (user_data : Z)
  | LoginBegin
  | LoginFinish (server_addr : bytes) (control_port : Z) (client_id_hex : bytes)
      (auto_models : bool) (tls : MobileControlTlsConfig) (n : Net)
  | Start (callback : option Z)
  | Stop
  | Turn (thread : nat) (ph : Phone) (n : Net) (stop : nat -> bool).

(** [None]: the process aborts. *)
Definition op_step (o : Op) (w : SdkWorld) : option SdkWorld :=
  match o with
  | Register cb u => Some (register_remote_worker_callback cb u w).2
  | LoginBegin => Some (login_begin w)
  | LoginFinish a p id auto tls n => Some (login_finish a p id auto tls n w).2
  | Start cb => Some (start_worker_tasks_with_callback_ptr cb w).2
  | Stop => Some (stop_global_worker w)
  | Turn k ph n stop =>
      match threads w !! k with
      | None => Some w
      | Some t => '(t, w) ← thread_step ph n stop t w;
                  Some (set_threads (<[k := t]> (threads w)) w)
      end
  end.

Fixpoint run_ops (ops : list Op) (w : SdkWorld) : option SdkWorld :=
  match ops with
  | [] => Some w
  | o :: ops => w ← op_step o w; run_ops ops w
  end.

Definition reachable (w : SdkWorld) : Prop := exists ops, run_ops ops sdk_start = Some w.
End Worker.
