(* ===== verification/SdkFacts.v ===== *)
(** * What the worker of the mobile SDK does with its streams, threads and tasks

    Theorems on [SdkWorker]: what is written on each control stream in every interleaving
    and what the server makes of it, reading with a timeout, stopping, the answer of a task
    from the engine's tokens to the HTTP client, chat prompts, and the states in which a
    phone or a task is lost. *)

From S2P Require Import Prelude Wire Text Output Ids Catalog LlamaEngine Scheduler Streams DeviceStream Mobile MobileTls Session SdkWorker.
From Stdlib Require Import ZArith Lia String.
From Stdlib Require Import Strings.Byte.
From stdpp Require Import base list gmap.

Local Open Scope Z_scope.
Import Framing Filter Phase Emit TextFacts PhaseFacts EmitFacts.

(** *** What is written on a stream *)
Section Written.
Context `{C : Codec}.

Definition is_login (c : Command) : bool :=
  match c with V1 (Login _ _ _ _ _ _ _ _) => true | _ => false end.

(** [st'] is [st] after some writes of other commands than a login. *)
Definition grows (st st' : Stream) : Prop :=
  st_opened st' = st_opened st
  /\ exists l, st_out st' = st_out st ++ l /\ Forall (fun c => is_login c = false) l.

#[export] Instance grows_preorder : PreOrder grows.
Proof.
  split.
  - intros st. split; [done|]. exists []. by rewrite app_nil_r.
  - intros s1 s2 s3 (E1 & l1 & F1 & G1) (E2 & l2 & F2 & G2). split; [congruence|].
    exists (l1 ++ l2). rewrite F2, F1, app_assoc. split; [done|]. by apply Forall_app.
Qed.

Lemma write_stream_grows c st r st' :
  is_login c = false -> write_stream c st = (r, st') -> grows st st'.
Proof.
  unfold write_stream. intros Hc E.
  destruct (write_command_sync c); [destruct (st_shut st || _)|]; injection E as <- <-;
    (split; [done|]); [exists []| exists [c] |exists []]; cbn; rewrite ?app_nil_r; try done.
  split; [done|]. by constructor.
Qed.

Lemma read_stream_grows st r st' : read_stream st = (r, st') -> grows st st'.
Proof.
  unfold read_stream. destruct (read_command_timed _). intros [= <- <-]. split; [done|].
  exists []. by rewrite app_nil_r.
Qed.

Lemma cb_flush_grows t s : grows (cb_stream s) (cb_stream (cb_flush t s).2).
Proof.
  unfold cb_flush. destruct (write_stream _ _) as [r1 st] eqn:E. by apply write_stream_grows in E.
Qed.

Lemma cb_enter_grows t ph s : grows (cb_stream s) (cb_stream (cb_enter t ph s)).
Proof.
  unfold cb_enter. case_bool_decide; [done|]. case_bool_decide; [done|]. apply cb_flush_grows.
Qed.

Lemma on_seg_grows t s ps : grows (cb_stream s) (cb_stream (on_seg t s ps)).
Proof.
  destruct ps as [ph seg]. unfold on_seg. case_bool_decide; [done|].
  pose proof (cb_enter_grows t ph (cb_count ph s)) as Hx.
  destruct (_ <? _); [exact Hx|]. etransitivity; [exact Hx|]. apply (cb_flush_grows t (cb_set_buf _ _ _)).
Qed.

Lemma on_segs_grows t l s : grows (cb_stream s) (cb_stream (fold_left (on_seg t) l s)).
Proof.
  revert s. induction l as [|ps l IH]; intros s; cbn [fold_left]; [done|].
  etransitivity; [apply on_seg_grows|apply IH].
Qed.

Lemma on_token_grows t m tok s : grows (cb_stream s) (cb_stream (on_token t m tok s)).
Proof.
  unfold on_token. destruct m; [done|]. destruct (from_utf8 tok) as [x|]; [|done].
  case_bool_decide; [done|]. destruct (if bool_decide _ then _ else _) as [segs sp].
  apply (on_segs_grows t segs (mkCb _ _ _ _ _ _ _ _ _)).
Qed.

Lemma on_tokens_grows t m n toks s : grows (cb_stream s) (cb_stream (on_tokens t m n toks s)).
Proof.
  revert n s. induction toks as [|x l IH]; intros n s; cbn [on_tokens]; [done|].
  etransitivity; [apply on_token_grows|apply IH].
Qed.

Lemma handle_inference_task_grows ph m stop t p n x k y z st slot r st' slot' :
  handle_inference_task ph m stop t p n x k y z st slot = Returns (r, st', slot') ->
  grows st st'.
Proof.
  unfold handle_inference_task. destruct (negb _ || _).
  { destruct (write_stream _ st) as [r1 st1] eqn:E. intros [= <- <- <-].
    by eapply write_stream_grows; [|exact E]. }
  destruct (has_nul p); [by intros [= <- <- <-]|].
  destruct (gpuf_start_generation_async _ _ _ _ _ _ _ _ _ _ _ _ _) as [[rc g]|]; [|done].
  set (toks := match g with Some _ => _ | None => _ end).
  pose proof (on_tokens_grows t m 0 toks (cb_start st)) as G. change (cb_stream (cb_start st)) with st in G.
  set (s := on_tokens _ _ _ _ _) in *.
  destruct (rc <? 0).
  { destruct (write_stream _ (cb_stream s)) as [r1 st1] eqn:E. intros [= <- <- <-].
    etransitivity; [exact G|]. by eapply write_stream_grows; [|exact E]. }
  destruct (if bool_decide (cb_buf s = []) then _ else _) as [r1 s1] eqn:E1.
  assert (grows st (cb_stream s1)) as G1.
  { case_bool_decide; [by injection E1 as <- <-|].
    pose proof (cb_flush_grows t s) as G1. rewrite E1 in G1. by etransitivity. }
  destruct r1 as [|e]; [|by intros [= <- <- <-]].
  destruct (write_stream _ (cb_stream s1)) as [r2 st2] eqn:E2. intros [= <- <- <-].
  etransitivity; [exact G1|]. by eapply write_stream_grows; [|exact E2].
Qed.
End Written.

(** *** The invariant of the streams *)
Section Streams.
Context `{C : Codec} (connect : Peer -> MobileControlTlsConfig -> result MobileControlStream)
  `{H : Hex} (os : OsType).

Abbreviation step := (op_step connect os).
Abbreviation reach := (reachable connect os).

(** A stream of a login begins with the only login on it, others have none. *)
Definition stream_ok (st : Stream) : Prop :=
  match st_opened st with
  | ByLogin => exists c l, st_out st = c :: l /\ is_login c = true
                 /\ Forall (fun c => is_login c = false) l
  | ByReconnect => Forall (fun c => is_login c = false) (st_out st)
  end.

Lemma grows_ok st st' : grows st st' -> stream_ok st -> stream_ok st'.
Proof.
  intros (E & l & F & G). unfold stream_ok. rewrite E, F. destruct (st_opened st).
  - intros (c & k & -> & Hc & Hk). exists c, (k ++ l). split; [done|]. split; [done|].
    by apply Forall_app.
  - intros. by apply Forall_app.
Qed.

Definition world_ok (w : SdkWorld) : Prop := Forall stream_ok (streams w).

Lemma update_ok w i st st' :
  world_ok w -> streams w !! i = Some st -> grows st st' -> Forall stream_ok (<[i := st']> (streams w)).
Proof.
  intros Hw Hi G. apply Forall_insert; [done|]. eapply grows_ok; [exact G|].
  by eapply Forall_lookup_1 in Hw.
Qed.

Lemma emit_streams cb m w : streams (emit_callback cb m w) = streams w.
Proof. unfold emit_callback. destruct cb; [|done]. by destruct (has_nul m). Qed.

Lemma write_on_ok i c w r w' :
  is_login c = false -> write_on i c w = (r, w') -> world_ok w -> world_ok w'.
Proof.
  unfold write_on, world_ok. intros Hc E Hw.
  destruct (streams w !! i) as [st|] eqn:Hi; [|by injection E as <- <-].
  destruct (write_stream c st) as [r1 st1] eqn:E1. injection E as <- <-.
  apply write_stream_grows in E1; [|done]. cbn. by eapply update_ok.
Qed.

Ltac streams_done := unfold world_ok in *; cbn; rewrite ?emit_streams; cbn; rewrite ?emit_streams; try done.

Lemma heartbeat_step_ok t w t' w' :
  heartbeat_step os t w = (t', w') -> world_ok w -> world_ok w'.
Proof.
  destruct t; cbn; try by intros [= <- <-].
  - destruct (stopped w); [by intros [= <- <-]|].
    destruct (write_on _ _ w) as [r w1] eqn:E. intros [= <- <-] Hw.
    apply write_on_ok in E; [|done|done]. streams_done.
  - destruct left_; [by intros [= <- <-]|]. destruct (stopped w); by intros [= <- <-].
Qed.

Lemma handler_top_ok n h w t' w' :
  handler_top connect n h w = (t', w') -> world_ok w -> world_ok w'.
Proof.
  unfold handler_top. destruct (stopped w); [by intros [= <- <-]|].
  destruct (WORKER_TCP_STREAM w); [by intros [= <- <-]|].
  destruct (_ <=? _); [intros [= <- <-] ?; streams_done|].
  destruct (connect _ _); intros [= <- <-] Hw; streams_done.
  apply Forall_app. split; [done|]. by repeat constructor.
Qed.

Lemma handler_read_ok h i w t' w' : handler_read h i w = (t', w') -> world_ok w -> world_ok w'.
Proof.
  unfold handler_read, invalidated. destruct (stopped w); [intros [= <- <-] ?; streams_done|].
  destruct (streams w !! i) as [st|] eqn:Hi; [|by intros [= <- <-]].
  destruct (read_stream st) as [r st1] eqn:E. intros E' Hw. apply read_stream_grows in E.
  pose proof (update_ok _ _ _ _ Hw Hi E) as Hok.
  destruct r as [c|[|e]]; injection E' as <- <-; streams_done.
Qed.

Lemma on_login_result_ok ph h i success error w t' w' :
  on_login_result ph h i success error w = (t', w') -> world_ok w -> world_ok w'.
Proof.
  unfold on_login_result, invalidated. destruct success; cbn [negb]; [|intros [= <- <-] ?; streams_done].
  destruct (write_on _ _ _) as [r w1] eqn:E. intros E' Hw.
  apply write_on_ok in E; [|done|streams_done]. destruct r; injection E' as <- <-; streams_done.
Qed.

Lemma run_task_ok ph stop h i t p q w t' w' :
  run_task ph stop h i t p q w = Some (t', w') -> world_ok w -> world_ok w'.
Proof.
  unfold run_task. destruct (streams w !! i) as [st|] eqn:Hi; [|by intros [= <- <-]].
  destruct (handle_inference_task _ _ _ _ _ _ _ _ _ _ _ _) as [[[r st1] slot]|] eqn:E; [|done].
  intros [= <- <-] Hw. apply handle_inference_task_grows in E.
  pose proof (update_ok _ _ _ _ Hw Hi E). streams_done.
Qed.

Lemma announce_streams k h t p w : streams (announce_task k h t p w) = streams w.
Proof. unfold announce_task. rewrite emit_streams. case_bool_decide; by rewrite ?emit_streams. Qed.

Lemma handler_command_ok ph stop h i c w t' w' :
  handler_command ph stop h i c w = Some (t', w') -> world_ok w -> world_ok w'.
Proof.
  assert (forall k h t p, world_ok w -> world_ok (announce_task k h t p w)) as Ha.
  { intros. unfold world_ok. by rewrite announce_streams. }
  unfold handler_command. destruct c as [c|c]; [|by intros [= <- <-]].
  destruct c; try by intros [= <- <-].
  - intros [= E]. revert E. apply on_login_result_ok.
  - intros E Hw. eapply run_task_ok; [exact E|auto].
  - destruct (build_chat_prompt_with_template ph messages).
    + intros E Hw. eapply run_task_ok; [exact E|auto].
    + intros [= <- <-] Hw. auto.
  - intros [= <- <-] ?. streams_done.
Qed.

Lemma thread_step_ok ph n stop t w t' w' :
  thread_step connect os ph n stop t w = Some (t', w') -> world_ok w -> world_ok w'.
Proof.
  destruct t; cbn [thread_step]; try (intros E%(inj Some); revert E; apply heartbeat_step_ok).
  - intros [= E]. revert E. apply handler_top_ok.
  - intros [= E]. revert E. apply handler_read_ok.
  - apply handler_command_ok.
Qed.

Lemma login_finish_ok a p id auto tls n w :
  world_ok w -> world_ok (login_finish connect os a p id auto tls n w).2.
Proof.
  unfold login_finish. intros Hw. destruct (connect _ _); [|done].
  destruct (decode_client_id id) as [b|]; [|done].
  destruct (write_stream _ _) as [[]  st] eqn:E; [|done]. streams_done.
  apply Forall_app. split; [done|]. apply Forall_singleton. revert E. unfold write_stream.
  destruct (write_command_sync _); [|done]. destruct (st_shut _ || _); [done|]. intros [= <-].
  subst st. exists (login_command os auto b), []. by split_and!.
Qed.

Lemma op_step_ok o w w' : step o w = Some w' -> world_ok w -> world_ok w'.
Proof.
  destruct o; cbn; intros E Hw.
  - injection E as <-. done.
  - injection E as <-. unfold login_begin.
    assert (forall f, Forall stream_ok (alter shutdown f (streams w))) as Ha.
    { intros f. apply Forall_lookup_2. intros j st. destruct (decide (f = j)) as [->|Hn].
      - rewrite list_lookup_alter_eq. intros (st1 & H1 & ->)%fmap_Some.
        by eapply (Forall_lookup_1 _ _ _ _ Hw) in H1.
      - rewrite list_lookup_alter_ne by done. apply (Forall_lookup_1 _ _ _ _ Hw). }
    destruct (WORKER_STOP_SIGNAL w); cbn; destruct (WORKER_TCP_STREAM w); cbn; done || apply Ha.
  - injection E as <-. by apply login_finish_ok.
  - injection E as <-. unfold start_worker_tasks_with_callback_ptr.
    destruct (WORKER_TCP_STREAM w); [|done]. cbn. destruct (WORKER_SERVER_ADDR w); streams_done.
    destruct (WORKER_CONTROL_PORT w); streams_done.
  - injection E as <-. unfold stop_global_worker. by destruct (WORKER_STOP_SIGNAL w).
  - destruct (threads w !! thread) as [t|]; [|by injection E as <-].
    apply bind_Some in E as ([t1 w1] & E & [= <-]). by eapply thread_step_ok in E.
Qed.

Lemma reachable_ok w : reach w -> world_ok w.
Proof.
  intros [ops E]. assert (world_ok sdk_start) as H0 by constructor.
  revert E H0. generalize sdk_start. induction ops as [|o ops IH]; intros w0 E H0; cbn in E.
  - by injection E as <-.
  - apply bind_Some in E as (w1 & E1 & E). eapply IH; [exact E|]. by eapply op_step_ok.
Qed.
End Streams.

(** *** The server's side of a stream without a login *)
Section Server.
Context `{C : Codec} `{H : Hex} (hmac_sha1 : bytes -> bytes -> bytes)
  (base64_encode : bytes -> bytes) (fmt_2 : f32 -> bytes).

Abbreviation run := (run_session hmac_sha1 base64_encode fmt_2).
Abbreviation handle := (handle_command hmac_sha1 base64_encode fmt_2).

(** No device of the table is reached through this writer. *)
Definition unreachable (wr : Z) (s : Server) : Prop :=
  forall id c, clients (world s) !! id = Some c -> writer c <> wr.

Lemma unreachable_clients wr s s' :
  clients (world s') = clients (world s) -> unreachable wr s -> unreachable wr s'.
Proof. unfold unreachable. by intros ->. Qed.

Lemma write_to_clients env wr c s r s' :
  write_to env wr c s = (r, s') -> clients (world s') = clients (world s).
Proof.
  intros E. pose proof (SessionFacts.write_to_cases env wr c s) as Hw. rewrite E in Hw.
  destruct r; by subst s'.
Qed.

Lemma send_all_clients env l s r s' :
  send_all env l s = (r, s') -> clients (world s') = clients (world s).
Proof.
  intros E. pose proof (SessionFacts.send_all_cases env l s) as Hw. rewrite E in Hw.
  destruct r; [by subst s'|]. by destruct Hw as (k & _ & ->).
Qed.

Lemma result_clients t ok res err p n now w :
  clients (handle_inference_result t ok res err p n now w) = clients w.
Proof. unfold handle_inference_result. by repeat case_match. Qed.

Lemma chunk_clients t c now w : clients (handle_inference_result_chunk t c now w) = clients w.
Proof.
  unfold handle_inference_result_chunk, stream_chunk, plain_chunk.
  repeat (case_match; cbn); by rewrite ?result_clients.
Qed.

(** Commands other than a login put no new writer into the table. *)
Lemma handle_unreachable env wr wr' c ss s o s' :
  from_option is_login false c = false -> handle env wr' c ss s = (o, s') ->
  unreachable wr s -> unreachable wr s'.
Proof.
  assert (forall ss rs o s', propagate ss rs = (o, s') -> s' = rs.2) as Hp.
  { intros ss' [[?|?] s1] o' s2; cbn; by intros [= <- <-]. }
  intros Hc E. destruct c as [[c|c]|]; cbn in E.
  - destruct c; try (injection E as <- <-; done).
    + discriminate Hc.
    + injection E as <- <-. unfold handle_heartbeat. destruct (e_kafka env); [|done].
      by apply unreachable_clients.
    + apply Hp in E as ->. destruct (write_to _ _ _ _) as [r s2] eqn:E2.
      apply write_to_clients in E2. cbn [snd].
      assert (unreachable wr s -> unreachable wr (upsert_client_models_in_redis env client_id models s)) as H1.
      { unfold upsert_client_models_in_redis. destruct (e_redis env); [by apply unreachable_clients|done]. }
      intros Hs. apply H1 in Hs. revert E2. set (s1 := upsert_client_models_in_redis _ _ _ _) in *.
      intros E2. eapply unreachable_clients; [exact E2|]. cbn.
      destruct (clients (world s1) !! client_id) as [c0|] eqn:E0; [|done].
      intros id c Hid. cbn in Hid. apply lookup_insert_Some in Hid as [[<- <-]|[_ Hid]]; [|by eapply Hs].
      by apply Hs in E0.
    + injection E as <- <-. apply unreachable_clients. cbn. apply result_clients.
    + injection E as <- <-. apply unreachable_clients. cbn. apply chunk_clients.
    + injection E as <- <-. unfold update_model_download_progress_in_redis.
      destruct (negb _); [done|]. destruct (_ || _); by apply unreachable_clients.
  - destruct c; try (injection E as <- <-; done); apply Hp in E as ->.
    + unfold p2p_request. repeat (case_match; [done|]). repeat case_match; try done.
      destruct (send_all _ _ _) as [r s2] eqn:E2. apply send_all_clients in E2.
      by apply unreachable_clients.
    + unfold p2p_candidates. repeat (case_match; [done|]). repeat case_match; try done.
      destruct (write_to _ _ _ _) as [r s2] eqn:E2. apply write_to_clients in E2.
      by apply unreachable_clients.
  - destruct (upsert_client_status _ _ _ _ _) as [r st]. injection E as <- <-.
    intros Hs id c. cbn. intros [_ Hid]%lookup_delete_Some. by eapply Hs.
Qed.

Lemma run_unreachable wr wr' cs ss s o s' :
  Forall (fun ec : Env * option Command => from_option is_login false ec.2 = false) cs ->
  run wr' cs ss s = (o, s') -> unreachable wr s -> unreachable wr s'.
Proof.
  intros Hcs. revert ss s. induction Hcs as [|[env c] cs Hc Hcs IH]; intros ss s E Hs; cbn in E.
  { by injection E as <- <-. }
  destruct (handle env wr' c ss s) as [o1 s1] eqn:E1.
  apply (handle_unreachable env wr) in E1; [|done|done].
  destruct o1; [by eapply IH|injection E as <- <-; done..].
Qed.

(** What the server reads from a stream: some of what was written, then the end. *)
Definition session_of (cs : list (Env * option Command)) (st : Stream) : Prop :=
  exists k tail, (snd <$> cs) = (Some <$> take k (st_out st)) ++ tail /\ tail ⊆ [None].

End Server.

(** *** Reading with a timeout *)
Section Reading.
Context `{C : Codec} {L : CodecLaws C}.

Lemma read_exact_timed_app n l (rest : Incoming) : length l = n ->
  read_exact_timed n ((Some <$> l) ++ rest) = (inl l, rest).
Proof.
  revert l. induction n as [|n IH]; intros [|b l] Hl; try done. cbn.
  rewrite IH by (cbn in Hl; lia). done.
Qed.

Lemma read_exact_timed_cut n l (rest : Incoming) : (length l < n)%nat ->
  read_exact_timed n ((Some <$> l) ++ None :: rest) = (inr TimedOut, rest).
Proof.
  revert l. induction n as [|n IH]; intros [|b l] Hl; cbn in *; try lia; [done|].
  by rewrite IH by lia.
Qed.

(** What the command thread reads: a whole frame gives its command, and silence between
    frames loses nothing; but two seconds of silence inside a frame lose what was read of it,
    and the next read takes the rest of the frame for the beginning of one. *)
Theorem silence_inside_frame_loses_sync (c : Command) (buf : bytes) (rest : Incoming) :
  encode_to_vec c = Some buf -> blen buf <= MAX_MESSAGE_SIZE ->
  let frame := be_bytes 4 (blen buf) ++ buf in
  write_command_sync c = Ok frame
  /\ read_command_timed ((Some <$> frame) ++ rest) = (inl c, rest)
  /\ read_command_timed (None :: rest) = (inr TimedOut, rest)
  /\ (forall p q, frame = p ++ q -> q <> [] ->
        read_command_timed ((Some <$> p) ++ None :: (Some <$> q) ++ rest)
        = (inr TimedOut, (Some <$> q) ++ rest)).
Proof.
  intros E Hlen frame. pose proof (blen_nonneg buf) as H0.
  assert (of_be (be_bytes 4 (blen buf)) = blen buf) as Hbe.
  { apply of_be_be_bytes_small; unfold MAX_MESSAGE_SIZE in *; lia. }
  assert ((MAX_MESSAGE_SIZE <? blen buf) = false) as Hmax by (apply Z.ltb_ge; lia).
  split; [|split; [|split; [done|]]].
  - rewrite (proj2 (FramingFacts.sync_framing_agrees [] c)).
    by apply FramingFacts.write_command_small.
  - unfold read_command_timed, frame. rewrite fmap_app, <- app_assoc.
    rewrite read_exact_timed_app by apply length_be_bytes. rewrite Hbe, Hmax.
    rewrite read_exact_timed_app by (unfold blen; lia). by rewrite (codec_roundtrip c buf E).
  - intros p q Hpq Hq. unfold read_command_timed.
    assert (length frame = 4 + length buf)%nat as Hl.
    { unfold frame. by rewrite length_app, length_be_bytes. }
    assert (0 < length q)%nat as Hql by (destruct q; [done|cbn; lia]).
    assert (length frame = length p + length q)%nat as Hl2 by (rewrite Hpq; apply length_app).
    destruct (decide (length p < 4)%nat) as [Hp|Hp].
    { by rewrite read_exact_timed_cut. }
    assert (p = be_bytes 4 (blen buf) ++ drop 4 p) as Hp4.
    { rewrite <- (take_drop 4 p) at 1. f_equal.
      assert (take 4 frame = take 4 p) as Ht by (rewrite Hpq, take_app_le by lia; done).
      rewrite <- Ht. unfold frame. apply take_app_length'. by rewrite length_be_bytes. }
    rewrite Hp4, fmap_app, <- app_assoc, read_exact_timed_app by apply length_be_bytes.
    rewrite Hbe, Hmax, read_exact_timed_cut; [done|].
    rewrite length_drop. unfold blen. lia.
Qed.
End Reading.

(** *** Stopping *)
Section Stopping.
Context `{C : Codec} (connect : Peer -> MobileControlTlsConfig -> result MobileControlStream)
  `{H : Hex} (os : OsType).

Abbreviation step := (thread_step connect os).
Abbreviation runs := (run_ops connect os).

(** The part of the state that decides which threads run. *)
Definition control (w : SdkWorld) : option bool * option nat * list Thread :=
  (WORKER_STOP_SIGNAL w, WORKER_TCP_STREAM w, threads w).

Lemma emit_control cb m w : control (emit_callback cb m w) = control w.
Proof. unfold emit_callback. destruct cb; [|done]. by destruct (has_nul m). Qed.

Lemma write_on_control i c w r w' : write_on i c w = (r, w') -> control w' = control w.
Proof.
  unfold write_on. destruct (streams w !! i); [|by intros [= <- <-]].
  destruct (write_stream c s). by intros [= <- <-].
Qed.

Lemma announce_control k h t p w : control (announce_task k h t p w) = control w.
Proof. unfold announce_task. rewrite emit_control. case_bool_decide; by rewrite ?emit_control. Qed.

(** What a turn of a stopped process keeps: the stop signal, the other threads, and that
    there is no stream. *)
Definition halted (w w' : SdkWorld) : Prop :=
  WORKER_STOP_SIGNAL w' = WORKER_STOP_SIGNAL w /\ threads w' = threads w
  /\ (WORKER_TCP_STREAM w = None -> WORKER_TCP_STREAM w' = None).

Lemma control_halted w w' : control w' = control w -> halted w w'.
Proof. intros [= E1 E2 E3]. unfold halted. by rewrite E1, E2, E3. Qed.

Lemma cleared_halted cb m w w' :
  control w' = control w -> halted w (emit_callback cb m (set_slot None w')).
Proof.
  intros [= E1 E2 E3].
  pose proof (emit_control cb m (set_slot None w')) as [= F1 F2 F3].
  unfold halted. rewrite F1, F2, F3. cbn. by rewrite E1, E3.
Qed.

(** How many turns a thread takes at most once the stop signal is set. *)
Definition rank (t : Thread) : nat :=
  match t with
  | HGot _ _ _ => 3 | HRead _ _ | HbSleep _ _ _ => 2 | HTop _ | HbTop _ _ => 1 | _ => 0
  end.

Lemma run_task_control ph stop h i t p q w t' w' :
  run_task ph stop h i t p q w = Some (t', w') -> control w' = control w /\ (rank t' <= 2)%nat.
Proof.
  unfold run_task. destruct (streams w !! i); [|by intros [= <- <-]].
  destruct (handle_inference_task _ _ _ _ _ _ _ _ _ _ _ _) as [[[r st1] slot]|]; [|done].
  intros [= <- <-]. by rewrite emit_control.
Qed.

Lemma command_halted ph stop h i c t' w w' :
  handler_command ph stop h i c w = Some (t', w') -> halted w w' /\ (rank t' <= 2)%nat.
Proof.
  unfold handler_command.
  destruct c as [c|c]; [|intros [= <- <-]; split; [by apply control_halted|done]].
  destruct c; try (intros [= <- <-]; split; [by apply control_halted|done]).
  - unfold on_login_result, invalidated. destruct success; cbn [negb].
    + destruct (write_on _ _ _) as [r w1] eqn:E. apply write_on_control in E.
      rewrite emit_control in E. destruct r; intros [= <- <-]; split; cbn [rank]; try lia.
      * apply control_halted. by rewrite emit_control.
      * apply cleared_halted. by rewrite emit_control.
    + intros [= <- <-]. split; [|cbn; lia]. apply cleared_halted. apply emit_control.
  - intros [E ?]%run_task_control. rewrite announce_control in E. split; [|done]. by apply control_halted.
  - destruct (build_chat_prompt_with_template ph messages).
    + intros [E ?]%run_task_control. rewrite announce_control in E. split; [|done]. by apply control_halted.
    + intros [= <- <-]. split; [|cbn; lia]. apply control_halted, announce_control.
  - intros [= <- <-]. split; [|cbn; lia]. apply control_halted. apply emit_control.
Qed.

Lemma stopped_turn ph n stop t w t' w' :
  stopped w = true -> step ph n stop t w = Some (t', w') ->
  halted w w' /\ (rank t' <= rank t - 1)%nat.
Proof.
  intros Hs. destruct t; cbn [thread_step heartbeat_step];
    try (intros [= <- <-]; split; [by apply control_halted|cbn; lia]).
  - rewrite Hs. intros [= <- <-]. split; [by apply control_halted|cbn; lia].
  - destruct left_; rewrite ?Hs; intros [= <- <-]; (split; [by apply control_halted|cbn; lia]).
  - unfold handler_top. rewrite Hs. intros [= <- <-]. split; [by apply control_halted|cbn; lia].
  - unfold handler_read. rewrite Hs. intros [= <- <-]. split; [|cbn; lia].
    apply control_halted, emit_control.
  - intros [? ?]%command_halted. split; [done|cbn; lia].
Qed.

Fixpoint turns_of (k : nat) (ops : list Op) : nat :=
  match ops with
  | [] => 0
  | Turn j _ _ _ :: ops => if decide (j = k) then S (turns_of k ops) else turns_of k ops
  | _ :: ops => turns_of k ops
  end.
Definition is_turn (o : Op) : Prop := match o with Turn _ _ _ _ => True | _ => False end.

(** One turn of a stopped process. *)
Lemma stopped_op o w w1 :
  is_turn o -> stopped w = true -> op_step connect os o w = Some w1 ->
  stopped w1 = true /\ length (threads w1) = length (threads w)
  /\ (WORKER_TCP_STREAM w = None -> WORKER_TCP_STREAM w1 = None)
  /\ forall k t, threads w !! k = Some t -> exists t1, threads w1 !! k = Some t1
       /\ (rank t1 <= rank t - turns_of k [o])%nat.
Proof.
  destruct o as [| | | | |j ph n stop]; try done. intros _ Hs E. cbn in E.
  destruct (threads w !! j) as [u|] eqn:Hj.
  - apply bind_Some in E as ([u' w2] & E1 & [= <-]).
    destruct (stopped_turn _ _ _ _ _ _ _ Hs E1) as [(H1 & H2 & H3) Hr].
    split; [unfold stopped in *; cbn; by rewrite H1|].
    split; [cbn; by rewrite length_insert, H2|]. split; [done|].
    intros k t Ht. cbn. rewrite H2. destruct (decide (j = k)) as [->|Hne].
    + simplify_eq. exists u'. split; [|lia].
      apply list_lookup_insert_eq. by eapply lookup_lt_Some.
    + exists t. rewrite list_lookup_insert_ne by done. split; [done|lia].
  - injection E as <-. split; [done|]. split; [done|]. split; [done|].
    intros k t Ht. exists t. split; [done|]. cbn. rewrite decide_False by congruence. lia.
Qed.

Lemma stopped_run ops w w' :
  Forall is_turn ops -> stopped w = true -> runs ops w = Some w' ->
  length (threads w') = length (threads w)
  /\ (WORKER_TCP_STREAM w = None -> WORKER_TCP_STREAM w' = None)
  /\ forall k t, threads w !! k = Some t -> exists t', threads w' !! k = Some t'
       /\ (rank t' <= rank t - turns_of k ops)%nat.
Proof.
  intros Hops. revert w. induction Hops as [|o ops Ho Hops IH]; intros w Hs E; cbn in E.
  { injection E as <-. split; [done|]. split; [done|]. intros k t Ht. exists t.
    split; [done|cbn; lia]. }
  apply bind_Some in E as (w1 & E1 & E).
  destruct (stopped_op o w w1 Ho Hs E1) as (Hs1 & Hl & Hn & Ht).
  destruct (IH w1 Hs1 E) as (Hl' & Hn' & Ht').
  split; [congruence|]. split; [auto|]. intros k t Hk.
  destruct (Ht k t Hk) as (t1 & F1 & F2). destruct (Ht' k t1 F1) as (t2 & G1 & G2).
  exists t2. split; [done|]. destruct o; try done. cbn [turns_of] in *. case_decide; lia.
Qed.

(** Stopping works: after [stop_global_worker], in whatever state the process was and however
    the threads are scheduled, every thread has ended after three turns of its own (a task
    that runs is finished in one of them), none is added, the status says that no worker
    runs and no thread reconnects. It takes a stop signal, which the first start of the
    tasks creates. *)
Theorem stop_ends_threads (ops : list Op) (w w' : SdkWorld) :
  WORKER_STOP_SIGNAL w <> None -> Forall is_turn ops ->
  runs ops (stop_global_worker w) = Some w' ->
  (forall k t, threads w !! k = Some t ->
     exists t', threads w' !! k = Some t'
       /\ ((3 <= turns_of k ops)%nat -> t' = Ended \/ t' = PanickedThread))
  /\ length (threads w') = length (threads w)
  /\ get_worker_status w' = b!"Worker not available".
Proof.
  intros Hs Hops E.
  assert (stopped (stop_global_worker w) = true /\ WORKER_TCP_STREAM (stop_global_worker w) = None
          /\ threads (stop_global_worker w) = threads w) as (Hs' & Hslot & Hth).
  { unfold stop_global_worker. by destruct (WORKER_STOP_SIGNAL w). }
  destruct (stopped_run ops _ _ Hops Hs' E) as (Hl & Hn & Ht).
  split; [|split; [by rewrite <- Hth|unfold get_worker_status; by rewrite Hn]].
  intros k t Hk. rewrite <- Hth in Hk. destruct (Ht k t Hk) as (t' & F1 & F2).
  exists t'. split; [done|]. intros Hk3.
  assert (rank t' = 0%nat) as Hr by (destruct t; cbn in F2; lia).
  destruct t'; try done; auto.
Qed.
End Stopping.

(** *** The answer of a phone *)
Section Answer.
Context `{C : Codec} (t : bytes).

(** No write between the two states of a stream failed. *)
Definition lossless (st st' : Stream) : Prop :=
  (st_writes st' + length (st_out st) = st_writes st + length (st_out st'))%nat.

(** Every write counts, and adds a command or not. *)
Definition writes (st st' : Stream) : Prop :=
  (st_writes st + length (st_out st') <= st_writes st' + length (st_out st))%nat.

#[export] Instance writes_refl : Reflexive writes.
Proof. by unfold Reflexive, writes. Qed.

Lemma writes_trans st1 st2 st3 : writes st1 st2 -> writes st2 st3 -> writes st1 st3.
Proof. unfold writes. lia. Qed.

Lemma lossless_split st1 st2 st3 :
  writes st1 st2 -> writes st2 st3 -> lossless st1 st3 -> lossless st1 st2 /\ lossless st2 st3.
Proof. unfold writes, lossless. lia. Qed.

Lemma write_stream_writes c st r st' : write_stream c st = (r, st') ->
  writes st st' /\ (lossless st st' -> r = Ok () /\ st_out st' = st_out st ++ [c]).
Proof.
  unfold write_stream, writes, lossless. destruct (write_command_sync c);
    [destruct (st_shut st || _)|]; intros [= <- <-]; cbn; rewrite ?length_app; cbn; split; try lia; done.
Qed.

Lemma cb_flush_writes s : writes (cb_stream s) (cb_stream (cb_flush t s).2).
Proof.
  unfold cb_flush. destruct (write_stream _ _) as [r st] eqn:E. by apply write_stream_writes in E as [E _].
Qed.

Lemma cb_enter_writes ph s : writes (cb_stream s) (cb_stream (cb_enter t ph s)).
Proof.
  unfold cb_enter. case_bool_decide; [done|]. case_bool_decide; [done|]. apply cb_flush_writes.
Qed.

Lemma on_seg_writes s ps : writes (cb_stream s) (cb_stream (on_seg t s ps)).
Proof.
  destruct ps as [ph seg]. unfold on_seg. case_bool_decide; [done|].
  pose proof (cb_enter_writes ph (cb_count ph s)) as Hx. destruct (_ <? _); [exact Hx|].
  eapply writes_trans; [exact Hx|]. apply (cb_flush_writes (cb_set_buf _ _ _)).
Qed.

Lemma on_segs_writes l s : writes (cb_stream s) (cb_stream (fold_left (on_seg t) l s)).
Proof.
  revert s. induction l as [|ps l IH]; intros s; cbn [fold_left]; [done|].
  eapply writes_trans; [apply on_seg_writes|apply IH].
Qed.

Lemma on_token_writes m tok s : writes (cb_stream s) (cb_stream (on_token t m tok s)).
Proof.
  unfold on_token. destruct m; [done|]. destruct (from_utf8 tok) as [x|]; [|done].
  case_bool_decide; [done|]. destruct (if bool_decide _ then _ else _) as [segs sp].
  apply (on_segs_writes segs (mkCb _ _ _ _ _ _ _ _ _)).
Qed.

Lemma on_tokens_writes m n toks s : writes (cb_stream s) (cb_stream (on_tokens t m n toks s)).
Proof.
  revert n s. induction toks as [|x l IH]; intros n s; cbn [on_tokens]; [done|].
  eapply writes_trans; [apply on_token_writes|apply IH].
Qed.

(** The callback's state, as the state of the desktop's streaming loop after the commands
    written since [base]. *)
Definition simulates (base : Stream) (s : TokenCallbackState) (ls : LoopState) : Prop :=
  exists l, st_out (cb_stream s) = st_out base ++ (V1 <$> l)
    /\ ls = mkLoop (cb_seq s) (cb_buf s) (cb_buf_phase s) (cb_completion s) (cb_analysis s)
              (cb_final s) (cb_splitter s) l.

Abbreviation ok := (fun _ : nat => false).
Abbreviation dev_flush := (DeviceStream.flush t 0 ok).
Abbreviation dev_seg := (seg_step t 0 cb_max_bytes ok).
Abbreviation dev_segs := (seg_steps t 0 cb_max_bytes ok).

Lemma flush_simulates base s ls :
  lossless (cb_stream s) (cb_stream (cb_flush t s).2) -> simulates base s ls ->
  (cb_flush t s).1 = Ok () /\ cb_cancelled (cb_flush t s).2 = cb_cancelled s
  /\ exists ls', dev_flush ls = Ok ls' /\ simulates base (cb_flush t s).2 ls'.
Proof.
  unfold cb_flush. destruct (write_stream _ _) as [r st] eqn:E. cbn [fst snd cb_stream cb_cancelled].
  apply write_stream_writes in E as [_ E]. intros Hl (l & Hout & ->).
  destruct (E Hl) as [-> Ho]. split; [done|]. split; [done|].
  eexists. split; [reflexivity|]. eexists. cbn. split; [|reflexivity].
  rewrite Ho, Hout, fmap_app, app_assoc. done.
Qed.

Lemma enter_simulates base ph s ls :
  lossless (cb_stream s) (cb_stream (cb_enter t ph s)) -> simulates base s ls ->
  exists ls', (if bool_decide (buf ls = []) then Ok (set_buf (buf ls) ph ls)
              else if negb (bool_decide (buf_phase ls = ph)) then
                let? s := dev_flush ls in Ok (set_buf (buf s) ph s)
              else Ok ls) = Ok ls' /\ simulates base (cb_enter t ph s) ls'
    /\ cb_cancelled (cb_enter t ph s) = cb_cancelled s.
Proof.
  unfold cb_enter. intros Hl Hs. pose proof Hs as (l & Hout & Els).
  assert (buf ls = cb_buf s /\ buf_phase ls = cb_buf_phase s) as [-> ->] by by rewrite Els.
  case_bool_decide; [|case_bool_decide; cbn [negb]].
  - eexists. split; [reflexivity|]. split; [|done]. exists l. split; [done|]. by rewrite Els.
  - by eexists.
  - destruct (flush_simulates base s ls Hl Hs) as (_ & Hc & ls' & -> & (l' & Ho & ->)).
    eexists. split; [reflexivity|]. split; [|done]. by exists l'.
Qed.

Lemma seg_simulates base s ls ps :
  lossless (cb_stream s) (cb_stream (on_seg t s ps)) -> simulates base s ls ->
  exists ls', dev_seg ls ps = Ok ls' /\ simulates base (on_seg t s ps) ls'
    /\ cb_cancelled (on_seg t s ps) = cb_cancelled s.
Proof.
  destruct ps as [ph seg]. unfold on_seg, seg_step. case_bool_decide; [by eexists|]. cbn zeta.
  intros Hl Hs.
  assert (simulates base (cb_count ph s) (count_seg ph ls)) as Hc.
  { destruct Hs as (l & Ho & ->). by exists l. }
  set (s1 := cb_enter t ph (cb_count ph s)) in *.
  assert (lossless (cb_stream (cb_count ph s)) (cb_stream s1)
    /\ ((blen (cb_buf s1 ++ seg) <? cb_max_bytes) = false ->
        let s2 := cb_set_buf (cb_buf s1 ++ seg) (cb_buf_phase s1) s1 in
        lossless (cb_stream s2) (cb_stream (cb_flush t s2).2))) as [Hl1 Hl2].
  { pose proof (cb_enter_writes ph (cb_count ph s)) as H1. revert Hl. cbn [cb_buf cb_set_buf].
    destruct (_ <? _); [done|]. intros Hl.
    eapply lossless_split in Hl as [? ?]; [split; [done|intros _]; exact H2|exact H1|].
    apply (cb_flush_writes (cb_set_buf _ _ _)). }
  destruct (enter_simulates base ph _ _ Hl1 Hc) as (ls1 & E1 & Hs1 & Hcan). fold s1 in Hs1, Hcan.
  rewrite E1. cbn [rbind].
  assert (simulates base (cb_set_buf (cb_buf s1 ++ seg) (cb_buf_phase s1) s1)
            (set_buf (buf ls1 ++ seg) (buf_phase ls1) ls1)) as Hs2.
  { destruct Hs1 as (l & Ho & ->). by exists l. }
  assert (buf ls1 = cb_buf s1) as Hb by by destruct Hs1 as (l & _ & ->).
  cbn [buf set_buf cb_buf cb_set_buf]. rewrite Hb in *.
  change (max_bytes cb_max_bytes) with cb_max_bytes.
  rewrite Z.leb_antisym. destruct (_ <? _); cbn [negb].
  - eexists. split; [reflexivity|]. split; [exact Hs2|exact Hcan].
  - destruct (flush_simulates base _ _ (Hl2 eq_refl) Hs2) as (_ & Hc2 & ls2 & E2 & Hs3).
    exists ls2. split; [exact E2|]. split; [exact Hs3|]. rewrite Hc2. exact Hcan.
Qed.

Lemma segs_simulate base l s ls :
  lossless (cb_stream s) (cb_stream (fold_left (on_seg t) l s)) -> simulates base s ls ->
  exists ls', dev_segs ls l = Ok ls' /\ simulates base (fold_left (on_seg t) l s) ls'
    /\ cb_cancelled (fold_left (on_seg t) l s) = cb_cancelled s.
Proof.
  revert s ls. induction l as [|ps l IH]; intros s ls Hl Hs; cbn [fold_left seg_steps] in *.
  { by eexists. }
  apply lossless_split with (st2 := cb_stream (on_seg t s ps)) in Hl as [Hl1 Hl2];
    [|apply on_seg_writes|apply on_segs_writes].
  destruct (seg_simulates base s ls ps Hl1 Hs) as (ls1 & -> & Hs1 & <-). by apply IH.
Qed.

(** The tokens a callback counts. *)
Definition proper (tok : bytes) : Prop := tok <> [] /\ utf8 tok.

Abbreviation inv := (loop_inv t 0).

Lemma push_empty sp : push sp [] = ([], sp).
Proof. by destruct sp. Qed.

Lemma token_simulates base T s ls tok :
  proper tok -> lossless (cb_stream s) (cb_stream (on_token t false tok s)) ->
  simulates base s ls -> inv T ls ->
  let '(segs, sp) := push (splitter ls) (sdk_filter_control_tokens tok) in
  exists ls', simulates base (on_token t false tok s) ls' /\ inv (T ++ tagged segs) ls'
    /\ splitter ls' = sp /\ completion_tokens ls' = sat_add 32 (completion_tokens ls) 1
    /\ cb_cancelled (on_token t false tok s) = cb_cancelled s.
Proof.
  intros [Hne Hu] Hl Hs Hi. unfold on_token in *.
  assert (from_utf8 tok = Some tok) as Hf.
  { unfold from_utf8. by rewrite (proj2 (valid_utf8_iff tok) Hu). }
  rewrite Hf in *. rewrite bool_decide_false in * by done. cbn zeta in *.
  assert (splitter ls = cb_splitter s) as Esp by by destruct Hs as (l & _ & ->).
  rewrite Esp.
  assert ((if bool_decide (sdk_filter_control_tokens tok = []) then ([], cb_splitter s)
           else push (cb_splitter s) (sdk_filter_control_tokens tok))
          = push (cb_splitter s) (sdk_filter_control_tokens tok)) as Ep.
  { case_bool_decide as Hb; [|done]. by rewrite Hb, push_empty. }
  rewrite Ep in *. destruct (push (cb_splitter s) _) as [segs sp].
  set (s1 := mkCb (cb_stream s) _ _ _ _ _ _ _ _) in *.
  set (ls1 := mkLoop (DeviceStream.seq ls) (buf ls) (buf_phase ls) (sat_add 32 (completion_tokens ls) 1)
                (analysis_tokens ls) (final_tokens ls) sp (DeviceStream.sent ls)).
  assert (simulates base s1 ls1) as Hs1.
  { destruct Hs as (l & Ho & ->). by exists l. }
  destruct (segs_simulate base segs s1 ls1 Hl Hs1) as (ls2 & E2 & Hs2 & Hc).
  assert (inv T ls1) as Hi1 by by destruct Hi as (bs & ? & ?); exists bs.
  destruct (seg_steps_inv t 0 cb_max_bytes ok T ls1 segs ls2 Hi1 E2) as (Hi2 & Hsp & Hct).
  exists ls2. by split_and!.
Qed.

Lemma tokens_simulate base T n toks s ls :
  Forall proper toks -> lossless (cb_stream s) (cb_stream (on_tokens t (fun _ => false) n toks s)) ->
  simulates base s ls -> inv T ls ->
  let '(out, sp) := push_all (splitter ls) (sdk_filter_control_tokens <$> toks) in
  exists ls', simulates base (on_tokens t (fun _ => false) n toks s) ls'
    /\ inv (T ++ tagged out) ls' /\ splitter ls' = sp
    /\ (in_u 32 (completion_tokens ls) ->
        completion_tokens ls' = Z.min (completion_tokens ls + blen toks) (2 ^ 32 - 1))
    /\ cb_cancelled (on_tokens t (fun _ => false) n toks s) = cb_cancelled s.
Proof.
  intros Hp. revert n T s ls. induction Hp as [|tok toks Htok Hp IH]; intros n T s ls Hl Hs Hi;
    cbn [on_tokens fmap list_fmap push_all] in *.
  { exists ls. cbn. rewrite app_nil_r. split_and!; try done. unfold in_u, blen. cbn. lia. }
  apply lossless_split with (st2 := cb_stream (on_token t false tok s)) in Hl as [Hl1 Hl2];
    [|apply on_token_writes|apply on_tokens_writes].
  pose proof (token_simulates base T s ls tok Htok Hl1 Hs Hi) as H1.
  destruct (push (splitter ls) _) as [segs sp]. destruct H1 as (ls1 & Hs1 & Hi1 & <- & Hc1 & Hcan1).
  specialize (IH (S n) _ _ _ Hl2 Hs1 Hi1). destruct (push_all (splitter ls1) _) as [out sp2].
  destruct IH as (ls2 & Hs2 & Hi2 & Hsp2 & Hc2 & Hcan2). exists ls2.
  rewrite tagged_app, app_assoc. split_and!; try done; [|congruence].
  intros Hin. rewrite Hc2, Hc1; unfold sat_add, in_u, blen in *; cbn [length]; lia.
Qed.

(** Batches and a last chunk, as the events of the stream. *)
Lemma answer_of_batches pt (l : list CommandV1) bs sq phase c a f now w :
  batches t pt l bs -> t ∈ pending_streams w -> stream_usages w !! t = None ->
  let cs := omap as_chunk (l ++ [InferenceResultChunk t sq [] phase true None pt c a f]) in
  exists u, events (feed now t cs w)
    = events w ++ (pair t <$> ((fun b => Delta b.2 b.1) <$> bs) ++ [Finish (Some u); EvDone])
  /\ u_prompt_tokens u = pt /\ u_completion_tokens u = c /\ t ∉ pending_streams (feed now t cs w).
Proof.
  intros Hb Ht Hu cs. destruct (batches_chunks t pt _ _ t Hb) as (Hopen & Hev).
  unfold cs. rewrite omap_app. cbn [omap list_omap as_chunk].
  rewrite stream_run by done. rewrite Hev. eexists. split.
  - cbn. rewrite fmap_app, <- list_fmap_compose. reflexivity.
  - cbn. split; [done|]. split; [done|]. set_solver.
Qed.

Lemma delta_pairs_of bs : delta_pairs ((fun b : OutputPhase * bytes => Delta b.2 b.1) <$> bs) = bs.
Proof. unfold delta_pairs. induction bs as [|[p d] bs IH]; [done|]. cbn. by f_equal. Qed.
End Answer.

(** *** What a generation passes to the callback *)
Section Callbacks.
Context (L : Mobile.Llama).

Lemma call_back_proper text cbs : utf8 text -> Forall proper cbs -> Forall proper (call_back true text cbs).
Proof.
  intros Hu Hc. unfold call_back. case_bool_decide; [done|]. cbn [negb andb].
  destruct (negb _); [|done]. apply Forall_app. split; [done|]. by apply Forall_singleton.
Qed.

Lemma pushed_utf8 buf new : utf8 (push_and_take_valid buf new).1.
Proof.
  unfold push_and_take_valid. set (b := buf ++ _). unfold from_utf8.
  destruct (valid_utf8 b) eqn:E; [by apply valid_utf8_iff|].
  destruct (_ =? 0)%nat; [destruct (_ <? _)|]; cbn; try apply lossy_is_utf8. constructor.
Qed.

Lemma emit_token_proper token g :
  Forall proper (g_callbacks g) -> Forall proper (g_callbacks (emit_token L true token g)).
Proof.
  intros Hg. unfold emit_token. case_bool_decide; [done|].
  destruct (push_and_take_valid _ _) as [text b] eqn:E. apply call_back_proper; [|done].
  pose proof (pushed_utf8 (g_buf g) (token_piece L token)) as Hu. by rewrite E in Hu.
Qed.

Lemma token_loop_proper chain stopped rounds i g g' :
  token_loop L chain true stopped rounds i g = Returns g' ->
  Forall proper (g_callbacks g) -> Forall proper (g_callbacks g').
Proof.
  revert i g. induction rounds as [|r IH]; intros i g; cbn [token_loop]; [by intros [= <-]|].
  destruct (stopped _ _); [by intros [= <-]|]. destruct (llama_vocab_is_eog _ _); [by intros [= <-]|].
  set (tok := llama_sampler_sample _ _ _ _). intros E Hg. apply (emit_token_proper tok) in Hg.
  destruct (llama_decode _ _ _) as [[|c|c]|]; [by eapply IH|by injection E as <-..|done].
Qed.

Lemma generation_proper ph1 ph2 prompt n temp k p rp stopped r g :
  gpuf_start_generation_async L false false ph1 ph2 true prompt n temp k p rp stopped
  = Returns (r, Some g) -> Forall proper (g_callbacks g).
Proof.
  unfold gpuf_start_generation_async. cbn [orb]. destruct ph1; [done|]. destruct ph2; [done|].
  destruct (tokenize_prompt _ _) as [tc buffer]. destruct (_ <=? 0); [done|].
  destruct (prefill _ _ _ _ _ _) as [[[n_past decoded]|]|]; [|done|done].
  destruct (token_loop _ _ _ _ _ _ _) as [g1|] eqn:E; [|done].
  apply token_loop_proper in E; [|constructor]. intros [= <- <-].
  unfold flush_tail. destruct (flush_lossy (g_buf g1)) as [tail b] eqn:Ef. cbn.
  apply call_back_proper; [|done]. unfold flush_lossy in Ef.
  destruct (g_buf g1); injection Ef as <- <-; [constructor|apply lossy_is_utf8].
Qed.
End Callbacks.

(** *** The task *)
Section Task.
Context `{C : Codec}.

Lemma error_chunk_events (t e : bytes) phase now w :
  t ∈ pending_streams w ->
  events (feed now t (omap as_chunk [InferenceResultChunk t 0 [] phase true (Some e) 0 0 0 0]) w)
  = events w ++ [(t, EvError e); (t, EvDone)].
Proof.
  intros Ht. cbn. unfold handle_inference_result_chunk. rewrite bool_decide_true by done.
  unfold stream_chunk, emit. cbn. by rewrite <- app_assoc.
Qed.

(** A task that is refused or fails at once: one final chunk with the error. *)
Definition answered_with_error (t : bytes) (l : list CommandV1) (now : Z) (w : World) : Prop :=
  exists e phase, l = [InferenceResultChunk t 0 [] phase true (Some e) 0 0 0 0]
    /\ events (feed now t (omap as_chunk l) w) = events w ++ [(t, EvError e); (t, EvDone)].

Lemma refused_task t st st' phase e r now w :
  write_stream (final_chunk t phase e) st = (r, st') -> lossless st st' -> t ∈ pending_streams w ->
  exists l, st_out st' = st_out st ++ (V1 <$> l) /\ answered_with_error t l now w.
Proof.
  intros E Hl Ht. apply write_stream_writes in E as [_ E]. destruct (E Hl) as [_ Ho].
  exists [InferenceResultChunk t 0 [] phase true (Some e) 0 0 0 0]. split; [exact Ho|].
  eexists _, _. split; [reflexivity|]. by apply error_chunk_events.
Qed.

(** The engine's tokens, the strings it passes to the callback and the events a client gets. *)
Definition answered (L : Mobile.Llama) (t : bytes) (n : Z) (l : list CommandV1) (now : Z) (w : World) : Prop :=
  exists out pieces evs u,
    blen out <= Z.max 0 n /\ Forall (fun tok => llama_vocab_is_eog L tok = false) out
    /\ (let text := no_nul (concat (token_piece L <$> out)) in utf8 text -> concat pieces = text)
    /\ events (feed now t (omap as_chunk l) w)
       = events w ++ (pair t <$> evs ++ [Finish (Some u); EvDone])
    /\ evs = (fun ps => Delta ps.2 ps.1) <$> delta_pairs evs
    /\ tagged (delta_pairs evs)
       = tagged (push_all PhaseSplitter_default (sdk_filter_control_tokens <$> pieces)).1
    /\ u_completion_tokens u = Z.min (blen pieces) (2 ^ 32 - 1)
    /\ t ∉ pending_streams (feed now t (omap as_chunk l) w).

(** The chunks that follow the callbacks. *)
Lemma finished_task t pieces st st' s now w r (r2 : result ()) :
  Forall proper pieces -> t ∈ pending_streams w -> stream_usages w !! t = None ->
  on_tokens t (fun _ => false) 0 pieces (cb_start st) = s ->
  (if bool_decide (cb_buf s = []) then (Ok (), s) else cb_flush t s) = (Ok (), r) ->
  write_stream (cb_chunk t [] (phase (cb_splitter r)) true
    (if cb_cancelled r then Some b!"Inference cancelled by server" else None) r) (cb_stream r) = (r2, st') ->
  lossless st st' ->
  exists l evs u, st_out st' = st_out st ++ (V1 <$> l)
    /\ events (feed now t (omap as_chunk l) w)
       = events w ++ (pair t <$> evs ++ [Finish (Some u); EvDone])
    /\ evs = (fun ps => Delta ps.2 ps.1) <$> delta_pairs evs
    /\ tagged (delta_pairs evs)
       = tagged (push_all PhaseSplitter_default (sdk_filter_control_tokens <$> pieces)).1
    /\ u_completion_tokens u = Z.min (blen pieces) (2 ^ 32 - 1)
    /\ t ∉ pending_streams (feed now t (omap as_chunk l) w).
Proof.
  intros Hp Ht Hu Es Er Ew Hl. pose proof (on_tokens_writes t (fun _ => false) 0 pieces (cb_start st)) as W1.
  rewrite Es in W1. change (cb_stream (cb_start st)) with st in W1.
  assert (writes (cb_stream s) (cb_stream r)) as W2.
  { case_bool_decide; [by injection Er as <-|].
    pose proof (cb_flush_writes t s) as W. by rewrite Er in W. }
  destruct (write_stream_writes _ _ _ _ Ew) as [W3 Hout].
  apply lossless_split with (st2 := cb_stream s) in Hl as [L1 L23]; [|done|by eapply writes_trans].
  apply lossless_split with (st2 := cb_stream r) in L23 as [L2 L3]; [|done..].
  destruct (Hout L3) as [_ Ho3].
  assert (simulates st (cb_start st) loop_start) as S0.
  { exists []. cbn. by rewrite app_nil_r. }
  assert (loop_inv t 0 [] loop_start) as I0 by by exists [].
  rewrite <- Es in L1. pose proof (tokens_simulate t st [] 0 pieces (cb_start st) loop_start Hp L1 S0 I0) as Hsim.
  destruct (push_all (splitter loop_start) _) as [out sp] eqn:Eo.
  destruct Hsim as (ls & Hs & Hi & _ & Hc & Hcan). cbn [app] in Hi. rewrite Es in Hs, Hcan.
  assert (exists ls1, (if bool_decide (buf ls = []) then Ok ls else DeviceStream.flush t 0 (fun _ => false) ls) = Ok ls1
    /\ simulates st r ls1 /\ cb_cancelled r = cb_cancelled s) as (ls1 & E1 & Hs1 & Hcan1).
  { assert (buf ls = cb_buf s) as -> by by destruct Hs as (? & _ & ->).
    case_bool_decide; [injection Er as <-; by exists ls|].
    assert (L2' : lossless (cb_stream s) (cb_stream (cb_flush t s).2)) by by rewrite Er.
    destruct (flush_simulates t st s ls L2' Hs) as (_ & Hc2 & ls1 & E1 & Hs1).
    rewrite Er in Hc2, Hs1. by exists ls1. }
  destruct (finish_inv t 0 (fun _ => false) _ ls ls1 _ Hi E1 eq_refl) as (Hc1 & bs & Hbs & Htag & _).
  destruct Hs1 as (l & Hol & Els). rewrite Els in Hbs. cbn [DeviceStream.sent] in Hbs.
  rewrite Hcan1, Hcan in Ho3. cbn [cb_cancelled cb_start] in Ho3.
  set (fin := InferenceResultChunk t (cb_seq r) [] (phase (cb_splitter r)) true None 0
                (cb_completion r) (cb_analysis r) (cb_final r)).
  destruct (answer_of_batches t 0 l bs (cb_seq r) (phase (cb_splitter r)) (cb_completion r)
    (cb_analysis r) (cb_final r) now w Hbs Ht Hu) as (u & Hev & _ & Huc & Hpend).
  exists (l ++ [fin]), ((fun b => Delta b.2 b.1) <$> bs), u. rewrite delta_pairs_of.
  split; [rewrite Ho3, Hol, fmap_app, app_assoc; done|]. split; [exact Hev|]. split; [done|].
  split; [change (splitter loop_start) with PhaseSplitter_default in Eo; by rewrite Eo|].
  split; [|exact Hpend]. rewrite Huc.
  assert (cb_completion r = completion_tokens ls1) as -> by by rewrite Els.
  rewrite Hc1, Hc by (cbv; split; congruence). done.
Qed.

End Task.

(** *** Where a task or a phone is lost *)
Section Lost.
Context `{C : Codec}.

Lemma until_nul_none s : Byte.x00 ∉ s -> until_nul s = None.
Proof.
  induction s as [|b s IH]; [done|]. intros Hs. cbn.
  rewrite bool_decide_false by (intros ->; apply Hs; by left).
  rewrite IH; [done|]. intros Hn. apply Hs. by right.
Qed.

(** The model's own chat template is never used: llama.cpp reports the length of the text it
    writes, without a NUL, so the search for a NUL within that length fails and every chat
    prompt is built in the Llama 3 format; a prompt longer than the buffer makes the slice
    panic, which ends the command thread. *)
Theorem builtin_template_never_used (ph : Phone) (messages : list ChatMessage) :
  (forall ms, Forall (fun m => Byte.x00 ∉ m.1 /\ Byte.x00 ∉ m.2) ms ->
     let '(n, text) := ph_template ph ms in 0 < n -> n = blen text /\ Byte.x00 ∉ text) ->
  match build_chat_prompt_with_template ph messages with
  | Some prompt => prompt = llama3_prompt messages
  | None => ph_model_ptr ph = true
            /\ exists ms, TEMPLATE_BUFFER < (ph_template ph ms).1
  end.
Proof.
  intros Ht. unfold build_chat_prompt_with_template. destruct (ph_model_ptr ph); [|done].
  set (ms := (fun m => (c_string (role m), c_string (content m))) <$> messages).
  assert (Forall (fun m : bytes * bytes => Byte.x00 ∉ m.1 /\ Byte.x00 ∉ m.2) ms) as Hms.
  { apply Forall_fmap, Forall_forall. intros m _. cbn. unfold c_string, has_nul.
    split; case_bool_decide; done || set_solver. }
  specialize (Ht ms Hms). destruct (ph_template ph ms) as [n text] eqn:En.
  destruct (Z.leb_spec n 0); [done|]. destruct (Ht ltac:(lia)) as [-> Hn].
  destruct (Z.ltb_spec TEMPLATE_BUFFER (blen text)) as [Hlt|Hle].
  { split; [done|]. exists ms. by rewrite En. }
  assert (take (Z.to_nat (blen text)) (take (Z.to_nat TEMPLATE_BUFFER)
            (text ++ replicate (Z.to_nat TEMPLATE_BUFFER) Byte.x00)) = text) as ->.
  { unfold blen in *. rewrite Nat2Z.id, take_take, Nat.min_l by lia.
    by rewrite take_app_length. }
  by rewrite until_nul_none.
Qed.

(** A prompt with a NUL byte is not answered at all: nothing is written, and the server's
    caller waits for its timeout. *)
Lemma nul_prompt_unanswered ph marked stop t prompt n x k y z st slot :
  ph_model_ptr ph = true -> ph_context_ptr ph = true -> Byte.x00 ∈ prompt ->
  handle_inference_task ph marked stop t prompt n x k y z st slot
  = Returns (Err b!"Invalid prompt", st, slot).
Proof.
  intros H1 H2 Hn. unfold handle_inference_task. rewrite H1, H2. cbn.
  unfold has_nul. by rewrite bool_decide_true.
Qed.

(** Any task that is carried out clears the mark, whichever task the mark was for. *)
Lemma finished_task_clears_mark ph marked stop t prompt n x k y z st st' slot slot' :
  ph_model_ptr ph = true -> ph_context_ptr ph = true ->
  handle_inference_task ph marked stop t prompt n x k y z st slot = Returns (Ok (), st', slot') ->
  slot' = None.
Proof.
  intros H1 H2. unfold handle_inference_task. rewrite H1, H2. cbn [negb orb].
  destruct (has_nul prompt); [done|].
  destruct (gpuf_start_generation_async _ _ _ _ _ _ _ _ _ _ _ _ _) as [[rc g]|]; [|done].
  destruct (rc <? 0).
  { destruct (write_stream _ _) as [[[]|] ?]; by intros [= <- <-]. }
  destruct (if bool_decide _ then _ else _) as [[[]|] s1]; [|done].
  destruct (write_stream _ _) as [[[]|] ?]; by intros [= <- <-].
Qed.
End Lost.

Section Abandoned.
Context `{C : Codec} (connect : Peer -> MobileControlTlsConfig -> result MobileControlStream)
  `{H : Hex} (os : OsType) (ph : Phone) (stop : nat -> bool).

(** What emitting a message leaves alone. *)
Definition rest (w : SdkWorld) : list Stream * option bytes * (option bool * option nat * list Thread) :=
  (streams w, WORKER_CLIENT_ID w, control w).

Lemma emit_rest cb m w : rest (emit_callback cb m w) = rest w.
Proof. unfold emit_callback. destruct cb; [|done]. by destruct (has_nul m). Qed.

Lemma top_without_connection n h w :
  stopped w = false -> WORKER_TCP_STREAM w = None -> is_ok (connect (n_peer n) (h_tls h)) = false ->
  exists w', handler_top connect n h w
    = (if MAX_CONSECUTIVE_FAILURES <=? h_failures h + 1 then Ended
       else HTop (with_failures (h_failures h + 1) h), w') /\ rest w' = rest w.
Proof.
  intros Hs Hn Hc. unfold handler_top. rewrite Hs, Hn.
  destruct (_ <=? _); [eexists; split; [done|by rewrite !emit_rest]|].
  destruct (connect _ _); [done|]. eexists. split; [done|]. by rewrite !emit_rest.
Qed.

Lemma reconnections_end ns h w k :
  threads w !! k = Some (HTop h) -> stopped w = false -> WORKER_TCP_STREAM w = None ->
  Forall (fun n => is_ok (connect (n_peer n) (h_tls h)) = false) ns -> ns <> [] ->
  h_failures h + blen ns = MAX_CONSECUTIVE_FAILURES ->
  exists w', run_ops connect os ((fun n => Turn k ph n stop) <$> ns) w = Some w'
    /\ threads w' = <[k := Ended]> (threads w) /\ streams w' = streams w
    /\ WORKER_CLIENT_ID w' = WORKER_CLIENT_ID w /\ stopped w' = false.
Proof.
  intros Hk Hs Hn Hns. revert h w Hk Hs Hn Hns. induction ns as [|n ns IH]; [done|].
  intros h w Hk Hs Hn [Hc Hns]%Forall_cons _ Hf. unfold blen in Hf. cbn [length] in Hf.
  destruct (top_without_connection n h w Hs Hn Hc) as (w1 & E1 & Hrest).
  injection Hrest as R1 R2 R3 R4 R5.
  cbn [fmap list_fmap run_ops op_step]. rewrite Hk. cbn [thread_step]. rewrite E1. cbn.
  destruct ns as [|n2 ns].
  - cbn in Hf. rewrite (proj2 (Z.leb_le _ _)) by lia. eexists. split; [reflexivity|].
    cbn. rewrite R5. split; [done|]. split; [done|]. split; [done|].
    unfold stopped in *. cbn. by rewrite R3.
  - cbn in Hf. rewrite (proj2 (Z.leb_gt _ _)) by lia.
    destruct (IH (with_failures (h_failures h + 1) h)
      (set_threads (<[k := HTop (with_failures (h_failures h + 1) h)]> (threads w1)) w1))
      as (w2 & E2 & T2 & S2 & C2 & St2); try done.
    + cbn. rewrite R5. apply list_lookup_insert_eq. by eapply lookup_lt_Some.
    + unfold stopped in *. cbn. by rewrite R3.
    + cbn. by rewrite R4.
    + cbn. unfold blen. cbn. lia.
    + exists w2. split; [exact E2|]. split; [rewrite T2; cbn; by rewrite R5, list_insert_insert_eq|].
      split; [by rewrite S2|]. split; [by rewrite C2|done].
Qed.

(** A phone whose command thread has given up still looks alive: when five connections fail
    the thread ends, but nothing stops the heartbeat thread, which goes on reporting the
    device on the stream it was started with for as long as that takes writes. *)
Theorem abandoned_phone_looks_alive (ns : list Net) (n0 : Net) (w : SdkWorld) (k j i : nat)
    (h : Handler) (cb : option Z) (st : Stream) :
  threads w !! k = Some (HTop h) -> h_failures h = 0 -> blen ns = MAX_CONSECUTIVE_FAILURES ->
  Forall (fun n => is_ok (connect (n_peer n) (h_tls h)) = false) ns ->
  stopped w = false -> WORKER_TCP_STREAM w = None ->
  threads w !! j = Some (HbTop i cb) -> streams w !! i = Some st ->
  (write_stream (heartbeat_command os w) st).1 = Ok () ->
  exists w' st',
    run_ops connect os (((fun n => Turn k ph n stop) <$> ns) ++ [Turn j ph n0 stop]) w = Some w'
    /\ threads w' !! k = Some Ended /\ threads w' !! j = Some (HbSleep i cb 120)
    /\ streams w' !! i = Some st' /\ st_out st' = st_out st ++ [heartbeat_command os w].
Proof.
  intros Hk Hf Hl Hns Hs Hn Hj Hi Hw.
  assert (j <> k) as Hjk by (intros ->; simplify_eq).
  destruct (reconnections_end ns h w k) as (w1 & E1 & T1 & S1 & C1 & St1); try done; [|lia|].
  { intros ->. by cbn in Hl. }
  assert (forall ops ops' v v', run_ops connect os ops v = Some v' ->
    run_ops connect os (ops ++ ops') v = run_ops connect os ops' v') as Happ.
  { clear. intros ops ops'. induction ops as [|o ops IH]; intros v v' E; cbn in *.
    - by injection E as ->.
    - apply bind_Some in E as (v1 & -> & E). cbn. by apply IH. }
  rewrite (Happ _ _ _ _ E1). cbn [run_ops op_step]. rewrite T1, list_lookup_insert_ne by done.
  rewrite Hj. cbn [thread_step heartbeat_step]. rewrite St1. unfold write_on. rewrite S1, Hi.
  assert (heartbeat_command os w1 = heartbeat_command os w) as -> by by unfold heartbeat_command; rewrite C1.
  destruct (write_stream _ st) as [r st1] eqn:E. cbn in Hw. subst r.
  eexists _, st1. cbn. split; [reflexivity|]. cbn.
  match goal with |- context [emit_callback cb ?m ?v] => pose proof (emit_rest cb m v) as Hrest end.
  injection Hrest as R1 R2 R3 R4 R5. rewrite R1, R5. cbn. rewrite T1.
  split; [|split; [|split]].
  - rewrite list_lookup_insert_ne by done. apply list_lookup_insert_eq. by eapply lookup_lt_Some.
  - apply list_lookup_insert_eq. rewrite length_insert. by eapply lookup_lt_Some.
  - apply list_lookup_insert_eq. by eapply lookup_lt_Some.
  - revert E. unfold write_stream. destruct (write_command_sync _); [|done].
    destruct (_ || _); [done|]. by intros [= <-].
Qed.
End Abandoned.

(** *** Concrete runs *)
Definition free_codec : Codec := {|
  encode_to_vec := fun _ => Some []; decode_from_slice := fun _ => None |}.
Definition cancel_codec : Codec := {|
  encode_to_vec := fun c => match c with V1 (CancelInference id) => Some id | _ => None end;
  decode_from_slice := fun b => Some (V1 (CancelInference b), length b) |}.

Lemma cancel_codec_laws : CodecLaws cancel_codec.
Proof. intros [[]|[]] b; cbn; by intros [= ->]. Qed.

Definition demo_net : Net := mkNet (mkPeer true [] true) [] (fun _ => false).
Definition demo_connect (p : Peer) (tls : MobileControlTlsConfig) : result MobileControlStream :=
  if pe_connected p then Ok Plain else Err b!"connection refused".
Definition demo_phone : Phone :=
  mkPhone true true false false (Some b!"qwen2.gguf") (byte_llama 0)
    (fun ms => (6, b!"<user>")).
Definition no_stop (n : nat) : bool := false.

Definition demo_login : Op :=
  LoginFinish b!"server" 17000 (ClientId_display SessionFacts.dev_id) false plaintext demo_net.
Definition turn (k : nat) : Op := Turn k demo_phone demo_net no_stop.
Abbreviation demo_run ops := (run_ops (C := free_codec) demo_connect IOS ops sdk_start).

(** Logging in again while the command thread reads: the thread finds its stream closed and
    then clears the slot that holds the new one; the thread started for the new login
    finds no stream and connects without logging in, and nobody reads the new login's. *)
Definition relogin : list Op :=
  [LoginBegin; demo_login; Start None; turn 1; LoginBegin; demo_login; Start None; turn 1; turn 3].

Lemma relogin_loses_the_new_stream :
  (fun w => (WORKER_TCP_STREAM w, st_opened <$> streams w, length <$> (st_out <$> streams w),
             threads w !! 3%nat)) <$> demo_run relogin
  = Some (Some 2%nat, [ByLogin; ByLogin; ByReconnect], [1; 1; 0]%nat,
          Some (HRead (mkHandler None b!"server" 17000 plaintext 0) 2)).
Proof. vm_compute. reflexivity. Qed.


Lemma stop_ends_threads_witness :
  exists w w', demo_run [LoginBegin; demo_login; Start None; turn 1] = Some w
    /\ run_ops (C := free_codec) demo_connect IOS [turn 1; turn 0; turn 1; turn 1] (stop_global_worker w) = Some w'
    /\ (threads w' !! 1%nat = Some Ended \/ threads w' !! 1%nat = Some PanickedThread)
    /\ get_worker_status w' = b!"Worker not available".
Proof.
  assert (exists w, demo_run [LoginBegin; demo_login; Start None; turn 1] = Some w
    /\ WORKER_STOP_SIGNAL w = Some false
    /\ threads w !! 1%nat = Some (HRead (mkHandler None b!"server" 17000 plaintext 0) 0)
    /\ exists w', run_ops (C := free_codec) demo_connect IOS [turn 1; turn 0; turn 1; turn 1]
                    (stop_global_worker w) = Some w') as (w & E & Hs & Ht & w' & E').
  { eexists. split; [vm_compute; reflexivity|]. split; [vm_compute; reflexivity|].
    split; [vm_compute; reflexivity|]. eexists. vm_compute. reflexivity. }
  exists w, w'. split; [exact E|]. split; [exact E'|].
  destruct (stop_ends_threads (C := free_codec) demo_connect IOS [turn 1; turn 0; turn 1; turn 1] w w')
    as (H1 & _ & H3); [by rewrite Hs|by repeat constructor|exact E'|].
  split; [|exact H3]. destruct (H1 1%nat _ Ht) as (t' & -> & Hend).
  destruct Hend as [->| ->]; [vm_compute; lia|by left|by right].
Defined.

Lemma silence_inside_frame_loses_sync_witness :
  encode_to_vec (Codec := cancel_codec) (V1 (CancelInference b!"task")) = Some b!"task"
  /\ read_command_timed (C := cancel_codec)
       ((Some <$> be_bytes 4 4) ++ None :: (Some <$> b!"task") ++ [])
     = (inr TimedOut, (Some <$> b!"task") ++ []).
Proof.
  split; [reflexivity|].
  destruct (silence_inside_frame_loses_sync (C := cancel_codec) (L := cancel_codec_laws)
    (V1 (CancelInference b!"task")) b!"task" [] eq_refl) as (_ & _ & _ & H4).
  { vm_compute. discriminate. }
  apply H4; [reflexivity|discriminate].
Defined.

Definition demo_stream : Stream := new_stream ByLogin demo_net.
Abbreviation task_run :=
  (handle_inference_task (C := free_codec) demo_phone (fun _ => false) no_stop b!"t" b!"hi" 5 0 40 0 0
    demo_stream None).


Lemma builtin_template_never_used_witness :
  build_chat_prompt_with_template demo_phone [mkChatMessage b!"user" b!"hello"]
  = Some (llama3_prompt [mkChatMessage b!"user" b!"hello"]).
Proof.
  pose proof (builtin_template_never_used demo_phone [mkChatMessage b!"user" b!"hello"]) as Hp.
  destruct (build_chat_prompt_with_template demo_phone _) as [p|] eqn:E; [f_equal|].
  - apply Hp. intros ms _. cbn. intros _. split; [reflexivity|]. apply (bool_decide_unpack _). vm_compute. exact I.
  - vm_compute in E. discriminate E.
Defined.

Lemma abandoned_phone_looks_alive_witness :
  exists w', run_ops (C := free_codec) demo_connect IOS
    (((fun n => Turn 1 demo_phone n no_stop) <$> replicate 5 (mkNet (mkPeer false [] false) [] no_stop))
     ++ [turn 0])
    (mkSdk [demo_stream] None (Some b!"server") (Some 17000) plaintext None (Some false) None None []
       [HbTop 0 None; HTop (mkHandler None b!"server" 17000 plaintext 0)]) = Some w'
    /\ threads w' !! 1%nat = Some Ended /\ threads w' !! 0%nat = Some (HbSleep 0 None 120).
Proof.
  destruct (abandoned_phone_looks_alive (C := free_codec) demo_connect IOS demo_phone no_stop
    (replicate 5 (mkNet (mkPeer false [] false) [] no_stop)) demo_net
    (mkSdk [demo_stream] None (Some b!"server") (Some 17000) plaintext None (Some false) None None []
       [HbTop 0 None; HTop (mkHandler None b!"server" 17000 plaintext 0)])
    1 0 0 (mkHandler None b!"server" 17000 plaintext 0) None demo_stream)
    as (w' & st' & E & H1 & H2 & _); try reflexivity.
  { by repeat constructor. }
  exists w'. split; [exact E|]. split; [exact H1|exact H2].
Defined.
