(* ===== verification/ModelSwap.v ===== *)
(** * The phone's model and its hot swap ([gpuf-c/src/lib.rs], [jni_llama.rs], [android_sdk.rs])

    The llama.cpp model and context that all generation on a phone uses are two atomic
    pointers of the process. [set_remote_worker_model] replaces them while tasks run, under
    two locks; the JNI functions replace or clear them without any; tasks read them after
    taking the inference lock ([worker_sdk.rs]), before it ([android_sdk.rs]) or without it
    ([jni_llama.rs]). llama.cpp's heap is explicit: a handle names one object for ever, and
    using or freeing one that is not live is a [Fault]. Each call is given first as the code
    reads, alone, and then cut at the points at which other threads can come in between. *)

From S2P Require Import Prelude Wire Text LlamaEngine Mobile SdkWorker.
From Stdlib Require Import ZArith Lia String.
From Stdlib Require Import Strings.Byte.
From stdpp Require Import base list gmap.

Local Open Scope Z_scope.

(** ** The state of the process *)

Inductive Fault :=
  | UseAfterFree (context : nat)
  | DoubleFree (object : nat).

Record SwapWorld := mkSwap {
  BACKEND_INITIALIZED : bool;
  next_handle : nat;
  live_models : gmap nat bytes;      (* with the path each was loaded from *)
  live_contexts : gmap nat nat;      (* with the model each was created from *)
  GLOBAL_MODEL_PTR : option nat;
  GLOBAL_CONTEXT_PTR : option nat;
  MODEL_STATUS : ModelStatusInfo;
  MODEL_SWAP_LOCK : bool;
  GLOBAL_INFERENCE_MUTEX : bool;
  faults : list Fault }.

Definition swap_start : SwapWorld :=
  mkSwap false 0 ∅ ∅ None None ModelStatusInfo_new false false [].

Definition set_backend (b : bool) (w : SwapWorld) : SwapWorld :=
  mkSwap b (next_handle w) (live_models w) (live_contexts w) (GLOBAL_MODEL_PTR w)
    (GLOBAL_CONTEXT_PTR w) (MODEL_STATUS w) (MODEL_SWAP_LOCK w) (GLOBAL_INFERENCE_MUTEX w) (faults w).
Definition set_heap (n : nat) (ms : gmap nat bytes) (cs : gmap nat nat) (w : SwapWorld) : SwapWorld :=
  mkSwap (BACKEND_INITIALIZED w) n ms cs (GLOBAL_MODEL_PTR w) (GLOBAL_CONTEXT_PTR w)
    (MODEL_STATUS w) (MODEL_SWAP_LOCK w) (GLOBAL_INFERENCE_MUTEX w) (faults w).
Definition set_ptrs (m c : option nat) (w : SwapWorld) : SwapWorld :=
  mkSwap (BACKEND_INITIALIZED w) (next_handle w) (live_models w) (live_contexts w) m c
    (MODEL_STATUS w) (MODEL_SWAP_LOCK w) (GLOBAL_INFERENCE_MUTEX w) (faults w).
Definition set_status (f : ModelStatusInfo -> ModelStatusInfo) (w : SwapWorld) : SwapWorld :=
  mkSwap (BACKEND_INITIALIZED w) (next_handle w) (live_models w) (live_contexts w)
    (GLOBAL_MODEL_PTR w) (GLOBAL_CONTEXT_PTR w) (f (MODEL_STATUS w)) (MODEL_SWAP_LOCK w)
    (GLOBAL_INFERENCE_MUTEX w) (faults w).
Definition set_locks (s i : bool) (w : SwapWorld) : SwapWorld :=
  mkSwap (BACKEND_INITIALIZED w) (next_handle w) (live_models w) (live_contexts w)
    (GLOBAL_MODEL_PTR w) (GLOBAL_CONTEXT_PTR w) (MODEL_STATUS w) s i (faults w).
Definition fault (f : Fault) (w : SwapWorld) : SwapWorld :=
  mkSwap (BACKEND_INITIALIZED w) (next_handle w) (live_models w) (live_contexts w)
    (GLOBAL_MODEL_PTR w) (GLOBAL_CONTEXT_PTR w) (MODEL_STATUS w) (MODEL_SWAP_LOCK w)
    (GLOBAL_INFERENCE_MUTEX w) (faults w ++ [f]).

(** ** llama.cpp's objects

    [ok]: whether llama.cpp could load the file or create the context; null otherwise. *)

Definition gpuf_load_model (path : bytes) (ok : bool) (w : SwapWorld) : option nat * SwapWorld :=
  if ok
  then (Some (next_handle w),
        set_heap (S (next_handle w)) (<[next_handle w := path]> (live_models w)) (live_contexts w) w)
  else (None, w).

Definition gpuf_create_context (model : nat) (ok : bool) (w : SwapWorld) : option nat * SwapWorld :=
  if ok
  then (Some (next_handle w),
        set_heap (S (next_handle w)) (live_models w) (<[next_handle w := model]> (live_contexts w)) w)
  else (None, w).

Definition llama_model_free (m : nat) (w : SwapWorld) : SwapWorld :=
  match live_models w !! m with
  | Some _ => set_heap (next_handle w) (delete m (live_models w)) (live_contexts w) w
  | None => fault (DoubleFree m) w
  end.

Definition llama_free (c : nat) (w : SwapWorld) : SwapWorld :=
  match live_contexts w !! c with
  | Some _ => set_heap (next_handle w) (live_models w) (delete c (live_contexts w)) w
  | None => fault (DoubleFree c) w
  end.

(** A decode or sampling call with a context; llama.cpp takes the model from it. *)
Definition use_context (c : nat) (w : SwapWorld) : SwapWorld :=
  match live_contexts w !! c with
  | Some m => match live_models w !! m with
              | Some _ => w | None => fault (UseAfterFree c) w end
  | None => fault (UseAfterFree c) w
  end.

(** [if !old.is_null()]. *)
Definition free_if {A} (free : A -> SwapWorld -> SwapWorld) (old : option A) (w : SwapWorld) : SwapWorld :=
  match old with Some x => free x w | None => w end.

(** ** The calls as the code reads, with nothing in between *)

Definition ensure_backend_initialized (w : SwapWorld) : SwapWorld :=
  if BACKEND_INITIALIZED w then w else set_backend true w.

(** The model is stored by its loading, then the context. *)
Definition swap_model (m c : nat) (w : SwapWorld) : SwapWorld :=
  let old_model := GLOBAL_MODEL_PTR w in
  let old_context := GLOBAL_CONTEXT_PTR w in
  let w := set_ptrs (Some m) (Some c) w in
  let w := free_if llama_free old_context w in
  free_if llama_model_free old_model w.

Definition set_remote_worker_model (path : option bytes) (loads creates : bool) (w : SwapWorld)
    : Z * SwapWorld :=
  let w := ensure_backend_initialized w in
  match path ≫= from_utf8 with
  | None => (-2, w)
  | Some p =>
      let w := set_status (ms_set_loading p) w in
      match gpuf_load_model p loads w with
      | (None, w) => (-3, set_status (ms_set_error b!"Failed to load model") w)
      | (Some m, w) =>
          match gpuf_create_context m creates w with
          | (None, w) =>
              (-4, llama_model_free m (set_status (ms_set_error b!"Failed to create context") w))
          | (Some c, w) => (0, set_status (ms_set_loaded p) (swap_model m c w))
          end
      end
  end.

(** The JNI functions [startInferenceService], [startInferenceServiceAsync] and [loadModelNew]
    after [jni_path]. *)
Definition jni_load (p : bytes) (loads creates : bool) (w : SwapWorld) : Z * SwapWorld :=
  let w := set_status (ms_set_loading p) w in
  if has_nul p then (-2, set_status (ms_set_error b!"Failed to convert path to CString") w)
  else match gpuf_load_model p loads w with
  | (None, w) => (-3, set_status (ms_set_error b!"Failed to load model") w)
  | (Some m, w) =>
      match gpuf_create_context m creates w with
      | (None, w) => (-4, set_status (ms_set_error b!"Failed to create context") w)
      | (Some c, w) => (1, set_status (ms_set_loaded p) (set_ptrs (Some m) (Some c) w))
      end
  end.

(** A Java string as the JNI gives it, if it can ([get_string], then [to_str]). *)
Definition JString := option bytes.

Definition startInferenceService (path : JString) (loads creates : bool) (w : SwapWorld) : Z * SwapWorld :=
  match path with None => (-1, w) | Some p => jni_load p loads creates w end.

Definition loadModelNew (path : JString) (loads creates : bool) (w : SwapWorld) : Z * SwapWorld :=
  match path with None => (-1, w) | Some p => jni_load p loads creates w end.

(** [callback]: the reference to the progress callback ([None]: none is given), which may
    not be obtained. *)
Definition startInferenceServiceAsync (path : JString) (callback : option bool)
    (loads creates : bool) (w : SwapWorld) : Z * SwapWorld :=
  match path with
  | None => (-1, w)
  | Some p =>
      match callback with
      | Some false => (-1, set_status (ms_set_loading p) w)
      | _ => jni_load p loads creates w
      end
  end.

Definition stopInferenceService (w : SwapWorld) : Z * SwapWorld :=
  (1, set_status ms_clear (set_ptrs None None w)).

(** ** What the status functions say *)

Definition gpuf_is_model_loaded (w : SwapWorld) : bool :=
  match GLOBAL_MODEL_PTR w with Some _ => true | None => false end.
Definition gpuf_is_context_ready (w : SwapWorld) : bool :=
  match GLOBAL_CONTEXT_PTR w with Some _ => true | None => false end.

Definition getModelStatus (w : SwapWorld) : bytes :=
  let code := gpuf_get_model_status (negb (gpuf_is_model_loaded w)) (negb (gpuf_is_context_ready w)) in
  if code =? 0 then b!"not_loaded" else if code =? 1 then b!"loading"
  else if code =? 2 then b!"ready" else if code =? 3 then b!"error" else b!"unknown".

Definition getCurrentModel (w : SwapWorld) : option bytes := current_model (MODEL_STATUS w).

Definition getModelLoadingStatus (w : SwapWorld) : bytes :=
  let s := MODEL_STATUS w in
  match error_message s with
  | Some e => ms_loading_status s ++ b!": " ++ e
  | None => ms_loading_status s
  end.

Definition isInferenceServiceHealthy (w : SwapWorld) : bytes :=
  let s := MODEL_STATUS w in
  if is_loaded s
  then b!"Healthy - Model: " ++ default b!"None" (current_model s) ++ b!", Status: " ++ ms_loading_status s
  else b!"Unhealthy - Status: " ++ ms_loading_status s ++ b!", Error: "
       ++ default b!"None" (error_message s).

(** ** The calls in steps

    A call is where it is in its code, with its local variables. [n] is the number of times
    a generation still uses the context. *)
Inductive Call :=
  (* set_remote_worker_model *)
  | SwEnsure (path : option bytes)
  | SwInit (path : option bytes)
  | SwPath (path : option bytes)
  | SwLoad (p : bytes)
  | SwLoadFailed
  | SwCreate (p : bytes) (m : nat)
  | SwCreateFailed (m : nat)
  | SwLock (p : bytes) (m c : nat)
  | SwInference (p : bytes) (m c : nat)
  | SwOldModel (p : bytes) (m c : nat)
  | SwOldContext (p : bytes) (m c : nat) (om : option nat)
  | SwSetModel (p : bytes) (m c : nat) (om oc : option nat)
  | SwSetContext (p : bytes) (m c : nat) (om oc : option nat)
  | SwFreeContext (p : bytes) (om oc : option nat)
  | SwFreeModel (p : bytes) (om : option nat)
  | SwUnlockInference (p : bytes)
  | SwUnlock (p : bytes)
  | SwLoaded (p : bytes)
  (* the JNI loads and stopInferenceService *)
  | JnLoading (p : bytes)
  | JnLoad (p : bytes)
  | JnFailed (code : Z) (error : bytes)
  | JnCreate (p : bytes) (m : nat)
  | JnSetModel (p : bytes) (m c : nat)
  | JnSetContext (p : bytes) (m c : nat)
  | JnLoaded (p : bytes)
  | JnClearModel
  | JnClearContext
  | JnClearStatus
  (* a task of worker_sdk.rs, and of handle_tcp.rs on Android *)
  | TkLock (n : nat)
  | TkModel (n : nat)
  | TkContext (n : nat) (m : option nat)
  | TkUse (n : nat) (c : nat)
  | TkUnlock
  (* a task of android_sdk.rs *)
  | AnContext (n : nat)
  | AnLock (n : nat) (c : nat)
  | AnUse (n : nat) (c : nat)
  (* generateText and generateTextWithSampling of jni_llama.rs *)
  | JgModel (n : nat)
  | JgContext (n : nat) (m : option nat)
  | JgUse (n : nat) (c : nat)
  | Returned (code : Z).

(** One step of [set_remote_worker_model]; [ok] is llama.cpp's answer, [None] that the call
    waits for a lock. *)
Definition swap_step (ok : bool) (k : Call) (w : SwapWorld) : option (Call * SwapWorld) :=
  match k with
  | SwEnsure path => Some (if BACKEND_INITIALIZED w then SwPath path else SwInit path, w)
  | SwInit path => Some (SwPath path, set_backend true w)
  | SwPath path =>
      match path ≫= from_utf8 with
      | None => Some (Returned (-2), w)
      | Some p => Some (SwLoad p, set_status (ms_set_loading p) w)
      end
  | SwLoad p =>
      match gpuf_load_model p ok w with
      | (None, w) => Some (SwLoadFailed, w)
      | (Some m, w) => Some (SwCreate p m, w)
      end
  | SwLoadFailed => Some (Returned (-3), set_status (ms_set_error b!"Failed to load model") w)
  | SwCreate p m =>
      match gpuf_create_context m ok w with
      | (None, w) => Some (SwCreateFailed m, w)
      | (Some c, w) => Some (SwLock p m c, w)
      end
  | SwCreateFailed m =>
      Some (Returned (-4), llama_model_free m (set_status (ms_set_error b!"Failed to create context") w))
  | SwLock p m c =>
      if MODEL_SWAP_LOCK w then None
      else Some (SwInference p m c, set_locks true (GLOBAL_INFERENCE_MUTEX w) w)
  | SwInference p m c =>
      if GLOBAL_INFERENCE_MUTEX w then None
      else Some (SwOldModel p m c, set_locks (MODEL_SWAP_LOCK w) true w)
  | SwOldModel p m c => Some (SwOldContext p m c (GLOBAL_MODEL_PTR w), w)
  | SwOldContext p m c om => Some (SwSetModel p m c om (GLOBAL_CONTEXT_PTR w), w)
  | SwSetModel p m c om oc => Some (SwSetContext p m c om oc, set_ptrs (Some m) (GLOBAL_CONTEXT_PTR w) w)
  | SwSetContext p m c om oc => Some (SwFreeContext p om oc, set_ptrs (GLOBAL_MODEL_PTR w) (Some c) w)
  | SwFreeContext p om oc => Some (SwFreeModel p om, free_if llama_free oc w)
  | SwFreeModel p om => Some (SwUnlockInference p, free_if llama_model_free om w)
  | SwUnlockInference p => Some (SwUnlock p, set_locks (MODEL_SWAP_LOCK w) false w)
  | SwUnlock p => Some (SwLoaded p, set_locks false (GLOBAL_INFERENCE_MUTEX w) w)
  | SwLoaded p => Some (Returned 0, set_status (ms_set_loaded p) w)
  | _ => None
  end.

(** One step of a JNI load or of [stopInferenceService]. *)
Definition jni_step (ok : bool) (k : Call) (w : SwapWorld) : option (Call * SwapWorld) :=
  match k with
  | JnLoading p =>
      Some (if has_nul p then JnFailed (-2) b!"Failed to convert path to CString" else JnLoad p,
            set_status (ms_set_loading p) w)
  | JnLoad p =>
      match gpuf_load_model p ok w with
      | (None, w) => Some (JnFailed (-3) b!"Failed to load model", w)
      | (Some m, w) => Some (JnCreate p m, w)
      end
  | JnFailed code error => Some (Returned code, set_status (ms_set_error error) w)
  | JnCreate p m =>
      match gpuf_create_context m ok w with
      | (None, w) => Some (JnFailed (-4) b!"Failed to create context", w)
      | (Some c, w) => Some (JnSetModel p m c, w)
      end
  | JnSetModel p m c => Some (JnSetContext p m c, set_ptrs (Some m) (GLOBAL_CONTEXT_PTR w) w)
  | JnSetContext p m c => Some (JnLoaded p, set_ptrs (GLOBAL_MODEL_PTR w) (Some c) w)
  | JnLoaded p => Some (Returned 1, set_status (ms_set_loaded p) w)
  | JnClearModel => Some (JnClearContext, set_ptrs None (GLOBAL_CONTEXT_PTR w) w)
  | JnClearContext => Some (JnClearStatus, set_ptrs (GLOBAL_MODEL_PTR w) None w)
  | JnClearStatus => Some (Returned 1, set_status ms_clear w)
  | _ => None
  end.

(** One step of a generation: with the pointers read under the inference lock, before it,
    or without it. A missing model ends it at once. *)
Definition generation_step (k : Call) (w : SwapWorld) : option (Call * SwapWorld) :=
  match k with
  | TkLock n =>
      if GLOBAL_INFERENCE_MUTEX w then None
      else Some (TkModel n, set_locks (MODEL_SWAP_LOCK w) true w)
  | TkModel n => Some (TkContext n (GLOBAL_MODEL_PTR w), w)
  | TkContext n m =>
      Some (match m, GLOBAL_CONTEXT_PTR w with
            | Some _, Some c => TkUse n c | _, _ => TkUnlock end, w)
  | TkUse (S n) c => Some (TkUse n c, use_context c w)
  | TkUse O _ => Some (TkUnlock, w)
  | TkUnlock => Some (Returned 0, set_locks (MODEL_SWAP_LOCK w) false w)
  | AnContext n =>
      Some (match GLOBAL_CONTEXT_PTR w with Some c => AnLock n c | None => Returned 0 end, w)
  | AnLock n c =>
      if GLOBAL_INFERENCE_MUTEX w then None
      else Some (AnUse n c, set_locks (MODEL_SWAP_LOCK w) true w)
  | AnUse (S n) c => Some (AnUse n c, use_context c w)
  | AnUse O _ => Some (TkUnlock, w)
  | JgModel n => Some (JgContext n (GLOBAL_MODEL_PTR w), w)
  | JgContext n m =>
      Some (match m, GLOBAL_CONTEXT_PTR w with
            | Some _, Some c => JgUse n c | _, _ => Returned 0 end, w)
  | JgUse (S n) c => Some (JgUse n c, use_context c w)
  | JgUse O _ => Some (Returned 0, w)
  | _ => None
  end.

Definition call_step (ok : bool) (k : Call) (w : SwapWorld) : option (Call * SwapWorld) :=
  match k with
  | SwEnsure _ | SwInit _ | SwPath _ | SwLoad _ | SwLoadFailed | SwCreate _ _ | SwCreateFailed _
  | SwLock _ _ _ | SwInference _ _ _ | SwOldModel _ _ _ | SwOldContext _ _ _ _
  | SwSetModel _ _ _ _ _ | SwSetContext _ _ _ _ _ | SwFreeContext _ _ _ | SwFreeModel _ _
  | SwUnlockInference _ | SwUnlock _ | SwLoaded _ => swap_step ok k w
  | JnLoading _ | JnLoad _ | JnFailed _ _ | JnCreate _ _ | JnSetModel _ _ _ | JnSetContext _ _ _
  | JnLoaded _ | JnClearModel | JnClearContext | JnClearStatus => jni_step ok k w
  | TkLock _ | TkModel _ | TkContext _ _ | TkUse _ _ | TkUnlock | AnContext _ | AnLock _ _
  | AnUse _ _ | JgModel _ | JgContext _ _ | JgUse _ _ => generation_step k w
  | Returned _ => None
  end.

(** ** Interleavings *)

(** The process: its state and the calls that have been made. *)
Record Process := mkProcess { world : SwapWorld; calls : list Call }.

Inductive Event :=
  | Begin (k : Call)
  | Turn (i : nat) (ok : bool).

(** A turn of a call that waits or has returned changes nothing. *)
Definition event_step (e : Event) (p : Process) : Process :=
  match e with
  | Begin k => mkProcess (world p) (calls p ++ [k])
  | Turn i ok =>
      match calls p !! i with
      | None => p
      | Some k =>
          match call_step ok k (world p) with
          | None => p
          | Some (k', w') => mkProcess w' (<[i := k']> (calls p))
          end
      end
  end.

Definition run_events (es : list Event) (p : Process) : Process :=
  fold_left (fun p e => event_step e p) es p.
