(* ===== verification/SwapFacts.v ===== *)
(** * Theorems about [ModelSwap]

    The safety of the hot swap is an ownership argument: every live object, and each lock
    that is held, belongs to one call or to the global pointers, which a multiset equation
    states ([balanced]); every step of a call keeps it. *)

From S2P Require Import Prelude Wire Text LlamaEngine Mobile SdkWorker ModelSwap.
From Stdlib Require Import ZArith Lia String.
From Stdlib Require Import Strings.Byte.
From stdpp Require Import base list gmap.

Local Open Scope Z_scope.

(** ** Alone, the steps are the code *)

(** Whether llama.cpp succeeds in a step, when loading and creating are answered once. *)
Definition answer (loads creates : bool) (k : Call) : bool :=
  match k with SwLoad _ | JnLoad _ => loads | _ => creates end.

Fixpoint run_alone (n : nat) (loads creates : bool) (k : Call) (w : SwapWorld) : Call * SwapWorld :=
  match n with
  | O => (k, w)
  | S n => match call_step (answer loads creates k) k w with
           | Some (k, w) => run_alone n loads creates k w
           | None => (k, w) end
  end.

Definition unlocked (w : SwapWorld) : Prop :=
  MODEL_SWAP_LOCK w = false /\ GLOBAL_INFERENCE_MUTEX w = false.

(** Run alone, the steps of a call do what its code does. *)
Lemma set_remote_worker_model_alone path loads creates w : unlocked w ->
  let '(code, w') := set_remote_worker_model path loads creates w in
  run_alone 19 loads creates (SwEnsure path) w = (Returned code, w').
Proof.
  destruct w as [b n ms cs gm gc st sl il fs]. intros [Hs Hi]. cbn in Hs, Hi. subst sl il.
  unfold set_remote_worker_model.
  destruct b; cbn; (destruct (path ≫= from_utf8) as [p|]; [|done]); cbn;
    (destruct loads; [|done]); cbn; (destruct creates; cbn; [|done]);
    (destruct gc as [oc|], gm as [om|]; cbn; [| | |done]);
    unfold llama_free, llama_model_free; cbn;
    repeat (case_match; cbn in *; simplify_eq; try done).
Qed.

Lemma jni_load_alone p loads creates w :
  let '(code, w') := jni_load p loads creates w in
  run_alone 8 loads creates (JnLoading p) w = (Returned code, w').
Proof.
  destruct w as [b n ms cs gm gc st sl il fs]. unfold jni_load. cbn.
  destruct (has_nul p); [done|]. cbn. destruct loads; [|done]. cbn. by destruct creates.
Qed.

Lemma stopInferenceService_alone w :
  let '(code, w') := stopInferenceService w in
  run_alone 3 true true JnClearModel w = (Returned code, w').
Proof. by destruct w. Qed.

(** ** Ownership *)

Inductive Res := RSwap | RInference | RModel (m : nat) | RContext (c m : nat).

Definition model_res (m : option nat) : list Res := match m with Some m => [RModel m] | None => [] end.
Definition pair_res (c m : option nat) : list Res :=
  match c, m with Some c, Some m => [RContext c m] | _, _ => [] end.

(** What a call owns where it is: the locks it holds and the objects only it will free. *)
Definition owned (k : Call) : list Res :=
  match k with
  | SwCreate _ m | SwCreateFailed m => [RModel m]
  | SwLock p m c => [RModel m; RContext c m]
  | SwInference p m c => [RSwap; RModel m; RContext c m]
  | SwOldModel _ m c | SwOldContext _ m c _ | SwSetModel _ m c _ _ =>
      [RSwap; RInference; RModel m; RContext c m]
  | SwSetContext p m c om _ => RSwap :: RInference :: RContext c m :: model_res om
  | SwFreeContext p om oc => RSwap :: RInference :: model_res om ++ pair_res oc om
  | SwFreeModel p om => RSwap :: RInference :: model_res om
  | SwUnlockInference _ => [RSwap; RInference]
  | SwUnlock _ => [RSwap]
  | TkModel _ | TkContext _ _ | TkUse _ _ | TkUnlock => [RInference]
  | _ => []
  end.

(** What the global pointers own. *)
Definition slot (w : SwapWorld) : list Res :=
  model_res (GLOBAL_MODEL_PTR w)
  ++ pair_res (GLOBAL_CONTEXT_PTR w) (GLOBAL_CONTEXT_PTR w ≫= (live_contexts w !!.)).

(** All there is to own. *)
Definition all_res (w : SwapWorld) : list Res :=
  (if MODEL_SWAP_LOCK w then [RSwap] else []) ++ (if GLOBAL_INFERENCE_MUTEX w then [RInference] else [])
  ++ ((fun mp => RModel mp.1) <$> map_to_list (live_models w))
  ++ ((fun cm => RContext cm.1 cm.2) <$> map_to_list (live_contexts w)).

Definition balanced (w : SwapWorld) (ks : list Call) : Prop :=
  slot w ++ concat (owned <$> ks) ≡ₚ all_res w.

(** The two pointers name a model and a context of it, or nothing. *)
Definition coherent (w : SwapWorld) : Prop :=
  match GLOBAL_MODEL_PTR w, GLOBAL_CONTEXT_PTR w with
  | None, None => True
  | Some m, Some c => live_contexts w !! c = Some m
  | _, _ => False
  end.

Definition old_pair (w : SwapWorld) (om oc : option nat) : Prop :=
  match om, oc with
  | None, None => True
  | Some m, Some c => live_contexts w !! c = Some m
  | _, _ => False
  end.

(** What a call that holds the inference lock knows. *)
Definition knows (w : SwapWorld) (k : Call) : Prop :=
  match k with
  | SwOldModel _ _ _ | SwFreeModel _ _ | SwUnlockInference _ | TkModel _ | TkUnlock => coherent w
  | SwOldContext _ _ _ om => coherent w /\ om = GLOBAL_MODEL_PTR w
  | SwSetModel _ _ _ om oc => coherent w /\ om = GLOBAL_MODEL_PTR w /\ oc = GLOBAL_CONTEXT_PTR w
  | SwSetContext _ m _ om oc =>
      GLOBAL_MODEL_PTR w = Some m /\ oc = GLOBAL_CONTEXT_PTR w /\ old_pair w om oc
  | SwFreeContext _ om oc => coherent w /\ old_pair w om oc
  | TkContext _ m => coherent w /\ m = GLOBAL_MODEL_PTR w
  | TkUse _ c => coherent w /\ GLOBAL_CONTEXT_PTR w = Some c
  | _ => True
  end.

(** Calls of [set_remote_worker_model] and of tasks that read the pointers under the lock. *)
Definition disciplined (k : Call) : Prop :=
  match k with
  | JnLoading _ | JnLoad _ | JnFailed _ _ | JnCreate _ _ | JnSetModel _ _ _ | JnSetContext _ _ _
  | JnLoaded _ | JnClearModel | JnClearContext | JnClearStatus
  | AnContext _ | AnLock _ _ | AnUse _ _ | JgModel _ | JgContext _ _ | JgUse _ _ => False
  | _ => True
  end.

Record sound (w : SwapWorld) (ks : list Call) : Prop := {
  snd_faults : faults w = [];
  snd_calls : Forall disciplined ks;
  snd_balanced : balanced w ks;
  snd_models : forall m, (next_handle w <= m)%nat -> live_models w !! m = None;
  snd_contexts : forall c, (next_handle w <= c)%nat -> live_contexts w !! c = None;
  snd_live : forall c, GLOBAL_CONTEXT_PTR w = Some c -> is_Some (live_contexts w !! c);
  snd_coherent : GLOBAL_INFERENCE_MUTEX w = false -> coherent w;
  snd_knows : Forall (knows w) ks }.

#[local] Instance sound_proper w : Proper (Permutation ==> iff) (sound w).
Proof.
  assert (forall ks ks', ks ≡ₚ ks' -> sound w ks -> sound w ks') as H.
  { intros ks ks' E [? ? Hb ? ? ? ? ?]. split; try done.
    - by rewrite <- E.
    - unfold balanced in *. by rewrite <- E.
    - by rewrite <- E. }
  intros ks ks' E. split; apply H; by rewrite E.
Qed.

(** *** The inventory after each kind of change *)

Lemma all_new_model n p w : live_models w !! n = None ->
  forall n', all_res (set_heap n' (<[n := p]> (live_models w)) (live_contexts w) w) ≡ₚ RModel n :: all_res w.
Proof. intros E n'. unfold all_res. cbn. rewrite map_to_list_insert by done. cbn. solve_Permutation. Qed.

Lemma all_new_context n m w : live_contexts w !! n = None ->
  forall n', all_res (set_heap n' (live_models w) (<[n := m]> (live_contexts w)) w)
    ≡ₚ RContext n m :: all_res w.
Proof. intros E n'. unfold all_res. cbn. rewrite map_to_list_insert by done. cbn. solve_Permutation. Qed.

Lemma all_no_model m p w : live_models w !! m = Some p ->
  forall n, all_res w ≡ₚ RModel m :: all_res (set_heap n (delete m (live_models w)) (live_contexts w) w).
Proof.
  intros E n. unfold all_res. cbn. rewrite <- (map_to_list_delete _ _ _ E). cbn. solve_Permutation.
Qed.

Lemma all_no_context c m w : live_contexts w !! c = Some m ->
  forall n, all_res w ≡ₚ RContext c m :: all_res (set_heap n (live_models w) (delete c (live_contexts w)) w).
Proof.
  intros E n. unfold all_res. cbn. rewrite <- (map_to_list_delete _ _ _ E). cbn. solve_Permutation.
Qed.

(** *** What ownership gives *)

Lemma all_res_NoDup w : NoDup (all_res w).
Proof.
  unfold all_res. apply NoDup_app. split; [destruct (MODEL_SWAP_LOCK w); repeat constructor; set_solver|].
  split.
  { intros r Hr. destruct (MODEL_SWAP_LOCK w); [|set_solver].
    apply list_elem_of_singleton in Hr as ->. rewrite !elem_of_app, !list_elem_of_fmap.
    destruct (GLOBAL_INFERENCE_MUTEX w); set_solver. }
  apply NoDup_app. split; [destruct (GLOBAL_INFERENCE_MUTEX w); repeat constructor; set_solver|].
  split.
  { intros r Hr. destruct (GLOBAL_INFERENCE_MUTEX w); [|set_solver].
    apply list_elem_of_singleton in Hr as ->. rewrite elem_of_app, !list_elem_of_fmap. set_solver. }
  apply NoDup_app. split; [|split].
  - change (NoDup ((RModel ∘ fst) <$> map_to_list (live_models w))). rewrite list_fmap_compose.
    apply NoDup_fmap; [by intros ?? [=]|]. apply NoDup_fst_map_to_list.
  - intros r. rewrite !list_elem_of_fmap. set_solver.
  - apply NoDup_fmap; [|apply NoDup_map_to_list]. by intros [] [] [= -> ->].
Qed.

Lemma balanced_owns w ks r : balanced w ks -> r ∈ slot w ++ concat (owned <$> ks) -> r ∈ all_res w.
Proof. unfold balanced. by intros ->. Qed.

Lemma owns_model w m : RModel m ∈ all_res w -> is_Some (live_models w !! m).
Proof.
  unfold all_res. rewrite !elem_of_app, !list_elem_of_fmap.
  intros [H|[H|[([m' p] & [= ->] & H)|([c m'] & [=] & _)]]].
  1, 2: case_match; set_solver.
  apply elem_of_map_to_list in H. by eexists.
Qed.

Lemma owns_context w c m : RContext c m ∈ all_res w -> live_contexts w !! c = Some m.
Proof.
  unfold all_res. rewrite !elem_of_app, !list_elem_of_fmap.
  intros [H|[H|[([m' p] & [=] & _)|([c' m'] & [= -> ->] & H)]]].
  1, 2: case_match; set_solver.
  by apply elem_of_map_to_list in H.
Qed.

Lemma owns_inference w : RInference ∈ all_res w <-> GLOBAL_INFERENCE_MUTEX w = true.
Proof.
  unfold all_res. rewrite !elem_of_app, !list_elem_of_fmap.
  destruct (MODEL_SWAP_LOCK w), (GLOBAL_INFERENCE_MUTEX w); set_solver.
Qed.

(** While one call holds the inference lock, the others know nothing of the pointers. *)
Lemma others_know_nothing w w' k ks : balanced w (k :: ks) -> RInference ∈ owned k -> Forall (knows w') ks.
Proof.
  intros Hb Hk. apply Forall_forall. intros k' Hk'.
  assert (RInference ∉ owned k') as Hno.
  { intros Hr. pose proof (all_res_NoDup w) as Hn. unfold balanced in Hb. rewrite <- Hb in Hn.
    apply NoDup_app in Hn as (_ & _ & Hn). cbn in Hn. apply NoDup_app in Hn as (_ & Hn & _).
    apply (Hn RInference Hk). apply list_elem_of_In, in_concat.
    exists (owned k'). split; apply list_elem_of_In; [|done]. apply list_elem_of_fmap. by exists k'. }
  destruct k'; cbn in *; try done; exfalso; apply Hno; set_solver.
Qed.

(** Knowledge survives what a call without the inference lock does. *)
Lemma knows_mono w w' k : GLOBAL_MODEL_PTR w' = GLOBAL_MODEL_PTR w ->
  GLOBAL_CONTEXT_PTR w' = GLOBAL_CONTEXT_PTR w -> live_contexts w ⊆ live_contexts w' ->
  knows w k -> knows w' k.
Proof.
  intros E1 E2 Hs.
  assert (coherent w -> coherent w') as Hc.
  { unfold coherent. rewrite E1, E2. repeat case_match; try done. intros. by eapply lookup_weaken. }
  assert (forall om oc, old_pair w om oc -> old_pair w' om oc) as Ho.
  { unfold old_pair. intros om oc. repeat case_match; try done. intros. by eapply lookup_weaken. }
  destruct k; cbn; rewrite ?E1, ?E2; naive_solver.
Qed.

(** *** Every step keeps ownership in balance *)

Section Step.
Context (w : SwapWorld) (k : Call) (ks : list Call) (Hw : sound w (k :: ks)).

Lemma sound_res r : r ∈ owned k -> r ∈ all_res w.
Proof.
  intros Hr. eapply balanced_owns; [apply (snd_balanced _ _ Hw)|]. cbn.
  rewrite !elem_of_app. by right; left.
Qed.

Lemma sound_knows : knows w k.
Proof. pose proof (snd_knows _ _ Hw) as H. by inversion H. Qed.

Lemma sound_rest : Forall disciplined ks /\ Forall (knows w) ks.
Proof.
  pose proof (snd_knows _ _ Hw) as H1. pose proof (snd_calls _ _ Hw) as H2.
  by inversion H1; inversion H2.
Qed.

(** A step that changes neither objects nor pointers nor locks. *)
Lemma sound_quiet w' k' :
  faults w' = faults w -> next_handle w' = next_handle w -> live_models w' = live_models w ->
  live_contexts w' = live_contexts w -> GLOBAL_MODEL_PTR w' = GLOBAL_MODEL_PTR w ->
  GLOBAL_CONTEXT_PTR w' = GLOBAL_CONTEXT_PTR w -> MODEL_SWAP_LOCK w' = MODEL_SWAP_LOCK w ->
  GLOBAL_INFERENCE_MUTEX w' = GLOBAL_INFERENCE_MUTEX w ->
  disciplined k' -> owned k' = owned k -> knows w' k' -> sound w' (k' :: ks).
Proof.
  intros E1 E2 E3 E4 E5 E6 E7 E8 Hd Ho Hk. destruct sound_rest as [Hd' Hk']. destruct Hw.
  split.
  - congruence.
  - by constructor.
  - unfold balanced, slot, all_res in *. cbn in *. by rewrite E3, E4, E5, E6, E7, E8, Ho.
  - rewrite E2, E3. done.
  - rewrite E2, E4. done.
  - rewrite E4, E6. done.
  - unfold coherent. rewrite E4, E5, E6, E8. done.
  - constructor; [done|]. eapply Forall_impl; [exact Hk'|]. intros k0. apply knows_mono; try done.
    by rewrite E4.
Qed.

Lemma sound_load p k' (n := next_handle w) : owned k = [] -> owned k' = [RModel n] -> disciplined k' ->
  (forall w, knows w k') ->
  sound (set_heap (S n) (<[n := p]> (live_models w)) (live_contexts w) w) (k' :: ks).
Proof.
  intros Ho Ho' Hd Hkn. destruct sound_rest as [Hd' Hk']. destruct Hw as [? _ Hb Hm Hc Hl Hcoh _].
  split; cbn; try done.
  - by constructor.
  - unfold balanced in *. rewrite all_new_model by (apply Hm; done). rewrite <- Hb. cbn.
    rewrite Ho, Ho'. unfold slot. cbn. solve_Permutation.
  - intros m Hmn. rewrite lookup_insert_ne by lia. apply Hm. unfold n in *. lia.
  - intros c Hcn. apply Hc. unfold n in *. lia.
  - constructor; [done|]. eapply Forall_impl; [exact Hk'|]. intros k0. by apply knows_mono.
Qed.

Lemma sound_create m k' (n := next_handle w) : owned k = [RModel m] ->
  owned k' = [RModel m; RContext n m] -> disciplined k' -> (forall w, knows w k') ->
  sound (set_heap (S n) (live_models w) (<[n := m]> (live_contexts w)) w) (k' :: ks).
Proof.
  intros Ho Ho' Hd Hkn. destruct sound_rest as [Hd' Hk']. destruct Hw as [? _ Hb Hm Hc Hl Hcoh _].
  assert (live_contexts w !! n = None) as Hn by (apply Hc; done).
  assert (live_contexts w ⊆ <[n := m]> (live_contexts w)) as Hsub by by apply insert_subseteq.
  split; cbn; try done.
  - by constructor.
  - unfold balanced in *. rewrite all_new_context by done. rewrite <- Hb. cbn. rewrite Ho, Ho'.
    unfold slot. cbn. destruct (GLOBAL_CONTEXT_PTR w) as [c|] eqn:E; cbn.
    + destruct (Hl c eq_refl) as [m' Em]. rewrite (lookup_weaken _ _ _ _ Em Hsub), Em. cbn. solve_Permutation.
    + solve_Permutation.
  - intros m' Hmn. apply Hm. unfold n in *. lia.
  - intros c Hcn. rewrite lookup_insert_ne by (unfold n in *; lia). apply Hc. unfold n in *. lia.
  - intros c E. destruct (Hl c E) as [m' Em]. exists m'. by eapply lookup_weaken.
  - intros Hi. specialize (Hcoh Hi). unfold coherent in *. cbn.
    repeat case_match; try done. by eapply lookup_weaken.
  - constructor; [done|]. eapply Forall_impl; [exact Hk'|]. intros k0. by apply knows_mono.
Qed.

(** Freeing an object the call owns. *)
Lemma sound_free_model m k' l : owned k = l ++ [RModel m] -> owned k' = l -> disciplined k' ->
  knows w k' -> (forall w', live_contexts w' = live_contexts w -> GLOBAL_MODEL_PTR w' = GLOBAL_MODEL_PTR w ->
    GLOBAL_CONTEXT_PTR w' = GLOBAL_CONTEXT_PTR w -> knows w' k') ->
  sound (llama_model_free m w) (k' :: ks).
Proof.
  intros Ho Ho' Hd _ Hkn. destruct sound_rest as [Hd' Hk'].
  destruct (owns_model w m) as [p Hp]. { apply sound_res. rewrite Ho. set_solver. }
  destruct Hw as [? _ Hb Hm Hc Hl Hcoh _]. unfold llama_model_free. rewrite Hp.
  split; cbn; try done.
  - by constructor.
  - unfold balanced in *. apply (Permutation_cons_inv (a := RModel m)).
    rewrite <- (all_no_model _ _ _ Hp), <- Hb. cbn. rewrite Ho, Ho'. unfold slot. cbn. solve_Permutation.
  - intros m' Hmn. apply lookup_delete_None. right. by apply Hm.
  - constructor; [by apply Hkn|]. eapply Forall_impl; [exact Hk'|]. intros k0. by apply knows_mono.
Qed.

Lemma sound_free_context c m k' l : owned k = l ++ [RContext c m] -> owned k' = l -> disciplined k' ->
  RInference ∈ owned k -> GLOBAL_INFERENCE_MUTEX w = true ->
  knows (set_heap (next_handle w) (live_models w) (delete c (live_contexts w)) w) k' ->
  sound (llama_free c w) (k' :: ks).
Proof.
  intros Ho Ho' Hd Hi Hmx Hkn. destruct sound_rest as [Hd' Hk'].
  assert (live_contexts w !! c = Some m) as Hp.
  { apply owns_context, sound_res. rewrite Ho. set_solver. }
  destruct Hw as [? _ Hb Hm Hc Hl Hcoh _]. unfold llama_free. rewrite Hp.
  assert (forall c', GLOBAL_CONTEXT_PTR w = Some c' -> c' <> c) as Hne.
  { intros c' E ->. pose proof (all_res_NoDup w) as Hn. unfold balanced in Hb. rewrite <- Hb in Hn.
    apply NoDup_app in Hn as (_ & Hn & _). apply (Hn (RContext c m)).
    - unfold slot. rewrite E. cbn. rewrite Hp. cbn. set_solver.
    - cbn. rewrite Ho. set_solver. }
  split; cbn; try done.
  - by constructor.
  - unfold balanced in *. apply (Permutation_cons_inv (a := RContext c m)).
    rewrite <- (all_no_context _ _ _ Hp), <- Hb. cbn. rewrite Ho, Ho'. unfold slot. cbn.
    destruct (GLOBAL_CONTEXT_PTR w) as [c'|]; cbn.
    + rewrite lookup_delete_ne by (specialize (Hne c' eq_refl); congruence). solve_Permutation.
    + solve_Permutation.
  - intros c' Hcn. apply lookup_delete_None. right. by apply Hc.
  - intros c' E. rewrite lookup_delete_ne by (specialize (Hne c' E); congruence). by apply Hl.
  - congruence.
  - constructor; [done|]. by eapply others_know_nothing.
Qed.

(** Taking and releasing a lock. *)
Lemma sound_lock s i k' l : owned k' ≡ₚ l ++ owned k -> disciplined k' ->
  all_res (set_locks s i w) ≡ₚ l ++ all_res w -> (i = false -> coherent w) -> knows w k' ->
  sound (set_locks s i w) (k' :: ks).
Proof.
  intros Ho Hd Ha Hcoh' Hkn. destruct sound_rest as [Hd' Hk']. destruct Hw as [? _ Hb Hm Hc Hl Hcoh _].
  split; cbn; try done.
  - by constructor.
  - unfold balanced in *. rewrite Ha, <- Hb. cbn. rewrite Ho. unfold slot. cbn. solve_Permutation.
  - constructor; [by eapply knows_mono|]. eapply Forall_impl; [exact Hk'|]. intros k0. by apply knows_mono.
Qed.

Lemma sound_unlock s i k' l : owned k ≡ₚ l ++ owned k' -> disciplined k' ->
  all_res w ≡ₚ l ++ all_res (set_locks s i w) -> (i = false -> coherent w) -> knows w k' ->
  sound (set_locks s i w) (k' :: ks).
Proof.
  intros Ho Hd Ha Hcoh' Hkn. destruct sound_rest as [Hd' Hk']. destruct Hw as [? _ Hb Hm Hc Hl Hcoh _].
  split; cbn; try done.
  - by constructor.
  - unfold balanced in *. apply (Permutation_app_inv_l l). rewrite <- Ha, <- Hb. cbn. rewrite Ho.
    unfold slot. cbn. solve_Permutation.
  - constructor; [by eapply knows_mono|]. eapply Forall_impl; [exact Hk'|]. intros k0. by apply knows_mono.
Qed.

(** Storing the pointers, under the inference lock. *)
Lemma sound_ptrs gm gc k' : RInference ∈ owned k -> disciplined k' ->
  slot (set_ptrs gm gc w) ++ owned k' ≡ₚ slot w ++ owned k ->
  (forall c, gc = Some c -> is_Some (live_contexts w !! c)) ->
  knows (set_ptrs gm gc w) k' -> sound (set_ptrs gm gc w) (k' :: ks).
Proof.
  intros Hi Hd Hs Hl' Hkn. destruct sound_rest as [Hd' Hk'].
  assert (GLOBAL_INFERENCE_MUTEX w = true) as Hmx by (apply owns_inference, sound_res, Hi).
  destruct Hw as [? _ Hb Hm Hc Hl Hcoh _].
  split; cbn; try done.
  - by constructor.
  - unfold balanced in *. change (all_res (set_ptrs gm gc w)) with (all_res w). rewrite <- Hb. cbn.
    by rewrite !app_assoc, Hs.
  - congruence.
  - constructor; [done|]. by eapply others_know_nothing.
Qed.
End Step.

Lemma old_pair_coherent w : coherent w -> old_pair w (GLOBAL_MODEL_PTR w) (GLOBAL_CONTEXT_PTR w).
Proof. done. Qed.

(** Using the context of the pointers under the lock finds it alive. *)
Lemma sound_use w k ks c : sound w (k :: ks) -> knows w k -> coherent w -> GLOBAL_CONTEXT_PTR w = Some c ->
  use_context c w = w.
Proof.
  intros Hw _ Hc E. unfold coherent in Hc. rewrite E in Hc.
  destruct (GLOBAL_MODEL_PTR w) as [m|] eqn:Em; [|done].
  destruct (owns_model w m) as [p Hp].
  { eapply balanced_owns; [apply (snd_balanced _ _ Hw)|]. unfold slot. rewrite Em. cbn. set_solver. }
  unfold use_context. by rewrite Hc, Hp.
Qed.

Ltac quiet Hw := eapply sound_quiet; [exact Hw|reflexivity..| | |]; try done.

Lemma swap_step_sound ok k k' w w' ks :
  sound w (k :: ks) -> swap_step ok k w = Some (k', w') -> sound w' (k' :: ks).
Proof.
  intros Hw E. pose proof (sound_knows _ _ _ Hw) as Hk. destruct k; cbn in E; try done.
  - injection E as <- <-. destruct (BACKEND_INITIALIZED w); quiet Hw.
  - injection E as <- <-. quiet Hw.
  - destruct (path ≫= from_utf8); injection E as <- <-; quiet Hw.
  - unfold gpuf_load_model in E. destruct ok; injection E as <- <-; [|quiet Hw].
    by eapply sound_load.
  - injection E as <- <-. quiet Hw.
  - unfold gpuf_create_context in E. destruct ok; injection E as <- <-; [|quiet Hw].
    by eapply sound_create.
  - injection E as <- <-.
    assert (sound (set_status (ms_set_error b!"Failed to create context") w) (SwCreateFailed m :: ks)) as Hw'
      by quiet Hw.
    by apply (sound_free_model _ _ _ Hw' m _ []).
  - destruct (MODEL_SWAP_LOCK w) eqn:El; [done|]. injection E as <- <-.
    eapply (sound_lock _ _ _ Hw _ _ _ [RSwap]); try done; [|apply (snd_coherent _ _ Hw)].
    unfold all_res. cbn. by rewrite El.
  - destruct (GLOBAL_INFERENCE_MUTEX w) eqn:El; [done|]. injection E as <- <-.
    eapply (sound_lock _ _ _ Hw _ _ _ [RInference]); try done.
    + cbn. solve_Permutation.
    + unfold all_res. cbn. rewrite El. cbn. solve_Permutation.
    + cbn. by apply (snd_coherent _ _ Hw).
  - injection E as <- <-. quiet Hw.
  - injection E as <- <-. cbn in Hk. destruct Hk as [? ->]. quiet Hw.
  - injection E as <- <-. cbn in Hk. destruct Hk as (Hc & -> & ->). eapply sound_ptrs; try exact Hw; try done.
    + cbn. set_solver.
    + unfold slot. cbn. unfold coherent in Hc. destruct (GLOBAL_MODEL_PTR w), (GLOBAL_CONTEXT_PTR w);
        try done; cbn; rewrite ?Hc; cbn; solve_Permutation.
    + apply (snd_live _ _ Hw).
  - injection E as <- <-. cbn in Hk. destruct Hk as (Em & -> & Ho).
    assert (live_contexts w !! c = Some m) as Hcm.
    { apply owns_context. eapply sound_res; [exact Hw|]. cbn. set_solver. }
    eapply sound_ptrs; try exact Hw; try done.
    + cbn. set_solver.
    + unfold slot. cbn. rewrite Em, Hcm. cbn. destruct om, (GLOBAL_CONTEXT_PTR w); try done; cbn in *;
        rewrite ?Ho; cbn; solve_Permutation.
    + intros ? [= <-]. by eexists.
    + cbn. unfold coherent. cbn. by rewrite Em.
  - injection E as <- <-. cbn in Hk. destruct Hk as [Hc Ho]. destruct om as [m|], oc as [c|]; try done; cbn.
    + assert (GLOBAL_INFERENCE_MUTEX w = true) as Hi.
      { apply owns_inference. eapply sound_res; [exact Hw|]. cbn. set_solver. }
      eapply (sound_free_context _ _ _ Hw c m _ [RSwap; RInference; RModel m]); try done; [cbn; set_solver|].
      assert (GLOBAL_CONTEXT_PTR w <> Some c) as Hne.
      { intros E. pose proof (all_res_NoDup w) as Hn. pose proof (snd_balanced _ _ Hw) as Hb.
        unfold balanced in Hb. rewrite <- Hb in Hn. apply NoDup_app in Hn as (_ & Hn & _).
        apply (Hn (RContext c m)); [unfold slot; rewrite E; cbn in *; rewrite Ho|]; cbn; set_solver. }
      cbn. unfold coherent in *. cbn. destruct (GLOBAL_MODEL_PTR w), (GLOBAL_CONTEXT_PTR w); try done.
      by rewrite lookup_delete_ne by congruence.
    + quiet Hw.
  - injection E as <- <-. cbn in Hk. destruct om as [m|]; cbn; [|quiet Hw].
    eapply (sound_free_model _ _ _ Hw m _ [RSwap; RInference]); try done.
    intros w' E1 E2 E3. cbn. unfold coherent. rewrite E1, E2, E3. exact Hk.
  - injection E as <- <-.
    assert (GLOBAL_INFERENCE_MUTEX w = true) as Hi.
    { apply owns_inference. eapply sound_res; [exact Hw|]. cbn. set_solver. }
    eapply (sound_unlock _ _ _ Hw _ _ _ [RInference]); try done.
    + cbn. solve_Permutation.
    + unfold all_res. cbn. rewrite Hi. cbn. solve_Permutation.
  - injection E as <- <-.
    assert (MODEL_SWAP_LOCK w = true) as Hi.
    { assert (RSwap ∈ all_res w) as Hr by (eapply sound_res; [exact Hw|]; cbn; set_solver).
      unfold all_res in Hr. rewrite !elem_of_app, !list_elem_of_fmap in Hr.
      destruct (MODEL_SWAP_LOCK w), (GLOBAL_INFERENCE_MUTEX w); set_solver. }
    eapply (sound_unlock _ _ _ Hw _ _ _ [RSwap]); try done; [|apply (snd_coherent _ _ Hw)].
    unfold all_res. cbn. by rewrite Hi.
  - injection E as <- <-. quiet Hw.
Qed.

Lemma call_step_sound ok k k' w w' ks :
  sound w (k :: ks) -> call_step ok k w = Some (k', w') -> sound w' (k' :: ks).
Proof.
  intros Hw. pose proof (snd_calls _ _ Hw) as Hd. apply Forall_cons in Hd as [Hd _].
  pose proof (sound_knows _ _ _ Hw) as Hk.
  destruct k; try done; try (apply swap_step_sound; exact Hw); cbn; intros E.
  - destruct (GLOBAL_INFERENCE_MUTEX w) eqn:El; [done|]. injection E as <- <-.
    eapply (sound_lock _ _ _ Hw _ _ _ [RInference]); try done.
    + unfold all_res. cbn. rewrite El. cbn. solve_Permutation.
    + cbn. by apply (snd_coherent _ _ Hw).
  - injection E as <- <-. quiet Hw.
  - injection E as <- <-. cbn in Hk. destruct Hk as [Hc ->].
    destruct (GLOBAL_MODEL_PTR w), (GLOBAL_CONTEXT_PTR w) eqn:Ec; quiet Hw.
  - cbn in Hk. destruct Hk as [Hc Ec]. destruct n; injection E as <- <-; [quiet Hw|].
    rewrite (sound_use _ _ _ _ Hw) by done. quiet Hw.
  - injection E as <- <-.
    assert (GLOBAL_INFERENCE_MUTEX w = true) as Hi.
    { apply owns_inference. eapply sound_res; [exact Hw|]. cbn. set_solver. }
    eapply (sound_unlock _ _ _ Hw _ _ _ [RInference]); try done.
    unfold all_res. cbn. rewrite Hi. cbn. solve_Permutation.
Qed.

(** *** Reachable states *)

(** The calls an app and its worker begin: [set_remote_worker_model], and tasks that read
    the pointers under the inference lock. *)
Definition disciplined_event (e : Event) : Prop :=
  match e with
  | Begin (SwEnsure _) | Begin (TkLock _) | Turn _ _ => True
  | _ => False
  end.

Definition process_start : Process := mkProcess swap_start [].

Lemma insert_call {A} (ks : list A) i k k' : ks !! i = Some k ->
  ks ≡ₚ k :: delete i ks /\ <[i := k']> ks ≡ₚ k' :: delete i ks.
Proof.
  intros E. split; [by apply delete_Permutation|].
  rewrite insert_take_drop, delete_take_drop by (by eapply lookup_lt_Some). solve_Permutation.
Qed.

Lemma event_step_sound e p : disciplined_event e -> sound (world p) (calls p) ->
  sound (world (event_step e p)) (calls (event_step e p)).
Proof.
  intros He Hp. destruct e as [k|i ok]; cbn.
  - assert (owned k = [] /\ disciplined k /\ forall w, knows w k) as (Ho & Hd & Hk) by by destruct k.
    destruct Hp. split; try done.
    + apply Forall_app; auto.
    + unfold balanced in *. rewrite fmap_app, concat_app. cbn. by rewrite Ho, !app_nil_r.
    + apply Forall_app; auto.
  - destruct (calls p !! i) as [k|] eqn:Ei; [|done].
    destruct (call_step ok k (world p)) as [[k' w']|] eqn:Es; [|done]. cbn.
    destruct (insert_call _ _ _ k' Ei) as [E1 E2]. rewrite E2. eapply call_step_sound; [|exact Es].
    by rewrite <- E1.
Qed.

Lemma run_events_sound es : Forall disciplined_event es ->
  let p := run_events es process_start in sound (world p) (calls p).
Proof.
  intros He. unfold run_events.
  assert (forall p, sound (world p) (calls p) ->
    let p' := fold_left (fun p e => event_step e p) es p in sound (world p') (calls p')) as H.
  { induction He as [|e es He _ IH]; intros p Hp; [done|]. cbn. by apply IH, event_step_sound. }
  apply H. split; try done.
  unfold balanced, slot, all_res. cbn. by rewrite !map_to_list_empty.
Qed.

Definition returned (k : Call) : Prop := match k with Returned _ => True | _ => False end.

#[local] Instance returned_dec k : Decision (returned k).
Proof. destruct k; cbn; apply _. Defined.

(** When nothing is under way, what is alive is what the pointers name. *)
Lemma idle_inventory w ks : sound w ks -> Forall returned ks ->
  match GLOBAL_MODEL_PTR w, GLOBAL_CONTEXT_PTR w with
  | Some m, Some c => (exists path, live_models w = {[m := path]}) /\ live_contexts w = {[c := m]}
  | None, None => live_models w = ∅ /\ live_contexts w = ∅
  | _, _ => False
  end.
Proof.
  intros [_ _ Hb _ _ _ Hc _] Hr. unfold balanced in Hb.
  assert (concat (owned <$> ks) = []) as Hn.
  { clear -Hr. induction Hr as [|k ks Hk _ IH]; [done|]. by destruct k. }
  rewrite Hn, app_nil_r in Hb.
  assert (GLOBAL_INFERENCE_MUTEX w = false) as Hi.
  { destruct (GLOBAL_INFERENCE_MUTEX w) eqn:E; [|done]. apply owns_inference in E. rewrite <- Hb in E.
    unfold slot, model_res, pair_res in E. repeat case_match; cbn in E; set_solver. }
  specialize (Hc Hi). unfold coherent in Hc.
  assert (forall r, r ∈ all_res w -> r ∈ slot w) as Hsub by by setoid_rewrite Hb.
  assert (forall m p, live_models w !! m = Some p -> RModel m ∈ slot w) as Hms.
  { intros m p E. apply Hsub. unfold all_res. rewrite !elem_of_app, !list_elem_of_fmap. right. right. left.
    exists (m, p). split; [done|]. by apply elem_of_map_to_list. }
  assert (forall c m, live_contexts w !! c = Some m -> RContext c m ∈ slot w) as Hcs.
  { intros c m E. apply Hsub. unfold all_res. rewrite !elem_of_app, !list_elem_of_fmap. right. right. right.
    exists (c, m). split; [done|]. by apply elem_of_map_to_list. }
  assert (forall r, r ∈ slot w -> r ∈ all_res w) as Hsup by by setoid_rewrite <- Hb.
  unfold slot in *. destruct (GLOBAL_MODEL_PTR w) as [m|], (GLOBAL_CONTEXT_PTR w) as [c|]; try done; cbn in *.
  - rewrite Hc in *. cbn in *. destruct (owns_model w m) as [p Hp]; [apply Hsup; set_solver|].
    split; [exists p|]; apply map_eq; intros x.
    + destruct (decide (x = m)) as [->|Hx]; [by rewrite lookup_singleton_eq|].
      rewrite lookup_singleton_ne by done. destruct (live_models w !! x) as [q|] eqn:E; [|done].
      specialize (Hms _ _ E). set_solver.
    + destruct (decide (x = c)) as [->|Hx]; [by rewrite lookup_singleton_eq|].
      rewrite lookup_singleton_ne by done. destruct (live_contexts w !! x) as [q|] eqn:E; [|done].
      specialize (Hcs _ _ E). set_solver.
  - split; apply map_empty; intros x.
    + destruct (live_models w !! x) as [q|] eqn:E; [|done]. specialize (Hms _ _ E). set_solver.
    + destruct (live_contexts w !! x) as [q|] eqn:E; [|done]. specialize (Hcs _ _ E). set_solver.
Qed.


(** ** Every call comes to its end *)

(** The steps a call has left at most. *)
Definition work (k : Call) : nat :=
  match k with
  | SwEnsure _ => 16 | SwInit _ => 15 | SwPath _ => 14 | SwLoad _ => 13 | SwLoadFailed => 1
  | SwCreate _ _ => 12 | SwCreateFailed _ => 1 | SwLock _ _ _ => 11 | SwInference _ _ _ => 10
  | SwOldModel _ _ _ => 9 | SwOldContext _ _ _ _ => 8 | SwSetModel _ _ _ _ _ => 7
  | SwSetContext _ _ _ _ _ => 6 | SwFreeContext _ _ _ => 5 | SwFreeModel _ _ => 4
  | SwUnlockInference _ => 3 | SwUnlock _ => 2 | SwLoaded _ => 1
  | JnLoading _ => 6 | JnLoad _ => 5 | JnFailed _ _ => 1 | JnCreate _ _ => 4 | JnSetModel _ _ _ => 3
  | JnSetContext _ _ _ => 2 | JnLoaded _ => 1
  | JnClearModel => 3 | JnClearContext => 2 | JnClearStatus => 1
  | TkLock n => 5 + n | TkModel n => 4 + n | TkContext n _ => 3 + n | TkUse n _ => 2 + n | TkUnlock => 1
  | AnContext n => 4 + n | AnLock n _ => 3 + n | AnUse n _ => 2 + n
  | JgModel n => 3 + n | JgContext n _ => 2 + n | JgUse n _ => 1 + n
  | Returned _ => 0
  end%nat.

Definition total_work (p : Process) : nat := sum_list (work <$> calls p).

Lemma call_step_work ok k k' w w' : call_step ok k w = Some (k', w') -> (work k' < work k)%nat.
Proof.
  destruct k; cbn; unfold gpuf_load_model, gpuf_create_context; intros E;
    repeat case_match; simplify_eq; repeat case_match; simplify_eq; cbn in *; lia.
Qed.

(** A turn does something, and then there is less to do, or it waits. *)
Lemma turn_works i ok p :
  event_step (Turn i ok) p = p \/ (total_work (event_step (Turn i ok) p) < total_work p)%nat.
Proof.
  cbn. destruct (calls p !! i) as [k|] eqn:Ei; [|by left].
  destruct (call_step ok k (world p)) as [[k' w']|] eqn:Es; [|by left]. right.
  apply call_step_work in Es. unfold total_work. cbn. pose proof (sum_insert work _ _ _ k' Ei). lia.
Qed.

Lemma holder_of w ks r : balanced w ks -> r ∈ all_res w -> r ∉ slot w ->
  exists i k, ks !! i = Some k /\ r ∈ owned k.
Proof.
  unfold balanced. intros Hb Hr Hs. rewrite <- Hb in Hr. apply elem_of_app in Hr as [?|Hr]; [done|].
  apply list_elem_of_In, in_concat in Hr as (l & Hl & Hr). apply list_elem_of_In in Hl, Hr.
  apply list_elem_of_fmap in Hl as (k & -> & Hk). apply list_elem_of_lookup in Hk as [i Hk]. eauto.
Qed.

Lemma no_lock_in_slot w : RSwap ∉ slot w /\ RInference ∉ slot w.
Proof. unfold slot, model_res, pair_res. repeat case_match; cbn; set_solver. Qed.

(** There is no deadlock: some call that has not returned can go on. *)
Lemma some_call_goes_on w ks : sound w ks -> ~ Forall returned ks ->
  exists i k, ks !! i = Some k /\ forall ok, is_Some (call_step ok k w).
Proof.
  intros Hs Hn. pose proof (snd_balanced _ _ Hs) as Hb. pose proof (snd_calls _ _ Hs) as Hd.
  destruct (no_lock_in_slot w) as [N1 N2].
  assert (forall i k, ks !! i = Some k -> disciplined k) as Hdi.
  { intros i k. by apply Forall_lookup_1. }
  destruct (GLOBAL_INFERENCE_MUTEX w) eqn:Ei.
  { destruct (holder_of w ks RInference) as (i & k & Hi & Hk); [done|by apply owns_inference|done|].
    exists i, k. split; [done|]. intros ok.
    destruct k; cbn in Hk; try (exfalso; set_solver); try (cbn; eauto).
    by destruct n. }
  destruct (MODEL_SWAP_LOCK w) eqn:El.
  { destruct (holder_of w ks RSwap) as (i & k & Hi & Hk); [done| |done|].
    { unfold all_res. rewrite El. set_solver. }
    exists i, k. split; [done|]. intros ok.
    destruct k; cbn in Hk; try (exfalso; set_solver); cbn; rewrite ?Ei; eauto. }
  apply not_Forall_Exists in Hn; [|apply _]. apply Exists_exists in Hn as (k & Hk & Hr).
  apply list_elem_of_lookup in Hk as [i Hi]. exists i, k. split; [done|]. intros ok. specialize (Hdi i k Hi).
  destruct k; cbn in *; try done; rewrite ?Ei, ?El; unfold gpuf_load_model, gpuf_create_context;
    repeat (case_match; simplify_eq); try done; eauto.
Qed.

Lemma turns_complete n p : sound (world p) (calls p) -> (total_work p <= n)%nat ->
  exists turns, (length turns <= n)%nat /\ Forall (fun e => exists i, e = Turn i true) turns
    /\ Forall returned (calls (run_events turns p)).
Proof.
  revert p. induction n as [|n IH]; intros p Hp Hn.
  all: destruct (decide (Forall returned (calls p))) as [Hr|Hr]; [by exists []; repeat split; [cbn; lia|..]|].
  all: destruct (some_call_goes_on _ _ Hp Hr) as (i & k & Hi & Hk); destruct (Hk true) as [[k' w'] Es].
  all: assert (total_work (event_step (Turn i true) p) < total_work p)%nat as Hlt
    by (pose proof (call_step_work _ _ _ _ _ Es); pose proof (sum_insert work _ _ _ k' Hi);
        unfold total_work; cbn; rewrite Hi, Es; cbn; lia).
  - lia.
  - destruct (IH (event_step (Turn i true) p)) as (turns & Hl & Ht & Hret); [by apply event_step_sound|lia|].
    exists (Turn i true :: turns). split; [cbn; lia|]. split; [|done]. constructor; eauto.
Qed.


(** ** What a swap does *)

Lemma run_alone_sound n loads creates k w k' w' :
  sound w [k] -> run_alone n loads creates k w = (k', w') -> sound w' [k'].
Proof.
  revert k w. induction n as [|n IH]; intros k w Hw E; cbn in E; [by simplify_eq|].
  destruct (call_step _ k w) as [[k1 w1]|] eqn:Es; [|by simplify_eq].
  eapply IH; [|exact E]. by eapply call_step_sound.
Qed.

(** A swap that returns 0 serves the new model and nothing else is alive; the status says so. *)
Lemma swap_serves_new_model path loads creates w w' :
  sound w [] -> unlocked w -> set_remote_worker_model path loads creates w = (0, w') ->
  exists p m c, path = Some p /\ GLOBAL_MODEL_PTR w' = Some m /\ GLOBAL_CONTEXT_PTR w' = Some c
    /\ live_models w' = {[m := p]} /\ live_contexts w' = {[c := m]} /\ faults w' = []
    /\ MODEL_STATUS w' = mkStatus (Some p) b!"Loaded" true None.
Proof.
  intros Hw Hu E. pose proof (set_remote_worker_model_alone path loads creates w Hu) as Ha.
  rewrite E in Ha. apply run_alone_sound in Ha.
  2: { destruct Hw. split; try done; by constructor. }
  pose proof (idle_inventory _ _ Ha) as Hi. specialize (Hi ltac:(by repeat constructor)).
  pose proof (snd_faults _ _ Ha) as Hf. clear Ha.
  unfold set_remote_worker_model, ensure_backend_initialized in E.
  destruct (path ≫= from_utf8) as [p|] eqn:Ep; [|by simplify_eq].
  assert (path = Some p) as ->.
  { destruct path as [b|]; [|done]. cbn in Ep. unfold from_utf8 in Ep. destruct (valid_utf8 b); congruence. }
  destruct loads; [|by destruct (BACKEND_INITIALIZED w)].
  destruct creates; [|by destruct (BACKEND_INITIALIZED w)].
  set (n := next_handle w).
  assert (GLOBAL_MODEL_PTR w' = Some n /\ GLOBAL_CONTEXT_PTR w' = Some (S n)
    /\ live_models w' !! n = Some p /\ MODEL_STATUS w' = mkStatus (Some p) b!"Loaded" true None)
    as (E1 & E2 & E3 & E4).
  { assert (forall om, GLOBAL_MODEL_PTR w = Some om -> om <> n) as Hne.
    { intros om Eo ->. destruct (owns_model w n) as [q Hq].
      - eapply balanced_owns; [apply (snd_balanced _ _ Hw)|]. unfold slot. rewrite Eo. cbn. set_solver.
      - by rewrite (snd_models _ _ Hw) in Hq by done. }
    destruct (BACKEND_INITIALIZED w); cbn in E; unfold swap_model, llama_free, llama_model_free in E;
      cbn in E; injection E as <-; fold n;
      (destruct (GLOBAL_CONTEXT_PTR w) as [oc|], (GLOBAL_MODEL_PTR w) as [om|] eqn:Eom; cbn;
        unfold llama_free, llama_model_free; cbn; repeat (case_match; cbn in *);
        rewrite ?lookup_delete_ne by (apply Hne; done); rewrite ?lookup_insert_eq; done). }
  rewrite E1, E2 in Hi. destruct Hi as [[q Hq] Hc]. rewrite Hq in E3. apply lookup_singleton_Some in E3 as [_ ->].
  exists p, n, (S n). done.
Qed.

(** A swap that fails leaves the old model serving, although the status says that none is
    loaded; only an unreadable path leaves the status alone. *)
Lemma failed_swap_keeps_serving path loads creates w code w' :
  set_remote_worker_model path loads creates w = (code, w') -> code <> 0 ->
  (forall m, is_Some (live_models w !! m) -> (m < next_handle w)%nat) ->
  GLOBAL_MODEL_PTR w' = GLOBAL_MODEL_PTR w /\ GLOBAL_CONTEXT_PTR w' = GLOBAL_CONTEXT_PTR w
  /\ live_models w' = live_models w /\ live_contexts w' = live_contexts w /\ faults w' = faults w
  /\ (code <> -2 -> is_loaded (MODEL_STATUS w') = false /\ current_model (MODEL_STATUS w') = path).
Proof.
  intros E Hc Hm. unfold set_remote_worker_model, ensure_backend_initialized in E.
  assert (live_models w !! next_handle w = None) as Hn.
  { destruct (live_models w !! next_handle w) eqn:En; [|done].
    assert (next_handle w < next_handle w)%nat by (apply Hm; eauto). lia. }
  destruct path as [b|]; cbn in E; [destruct (from_utf8 b) as [p|] eqn:Ep|].
  2, 3: destruct (BACKEND_INITIALIZED w); simplify_eq; by repeat split.
  assert (p = b) as -> by (unfold from_utf8 in Ep; destruct (valid_utf8 b); by simplify_eq).
  destruct (BACKEND_INITIALIZED w), loads, creates; cbn in E; simplify_eq; cbn.
  all: unfold llama_model_free in *; cbn in *; rewrite ?lookup_insert_eq in *; simplify_eq; cbn;
    rewrite ?delete_insert_id by done; by repeat split.
Qed.

(** ** What the other callers do *)

(** Without [set_remote_worker_model] nothing is ever freed, so every kind of task is safe,
    however it reads the pointers: the objects of earlier loads stay. *)
Definition frees_nothing (k : Call) : Prop :=
  match k with
  | JnLoading _ | JnLoad _ | JnFailed _ _ | JnCreate _ _ | JnSetModel _ _ _ | JnSetContext _ _ _
  | JnLoaded _ | JnClearModel | JnClearContext | JnClearStatus
  | TkLock _ | TkModel _ | TkContext _ _ | TkUse _ _ | TkUnlock
  | AnContext _ | AnLock _ _ | AnUse _ _ | JgModel _ | JgContext _ _ | JgUse _ _ | Returned _ => True
  | _ => False
  end.

(** The context a call holds. *)
Definition held_context (k : Call) : option nat :=
  match k with
  | JnSetModel _ _ c | JnSetContext _ _ c | TkUse _ c | AnLock _ c | AnUse _ c | JgUse _ c => Some c
  | _ => None
  end.

Definition held_model (k : Call) : option nat :=
  match k with JnCreate _ m => Some m | _ => None end.

(** A context that is alive with its model. *)
Definition usable (w : SwapWorld) (c : nat) : Prop :=
  exists m, live_contexts w !! c = Some m /\ is_Some (live_models w !! m).

Record kept (w : SwapWorld) (ks : list Call) : Prop := {
  kept_faults : faults w = [];
  kept_calls : Forall frees_nothing ks;
  kept_slot : forall c, GLOBAL_CONTEXT_PTR w = Some c -> usable w c;
  kept_held : forall k c, k ∈ ks -> held_context k = Some c -> usable w c;
  kept_models : forall k m, k ∈ ks -> held_model k = Some m -> is_Some (live_models w !! m);
  kept_fresh : forall c, (next_handle w <= c)%nat -> live_contexts w !! c = None;
  kept_fresh_m : forall m, (next_handle w <= m)%nat -> live_models w !! m = None }.

#[local] Instance kept_proper w : Proper (Permutation ==> iff) (kept w).
Proof.
  assert (forall ks ks', ks ≡ₚ ks' -> kept w ks -> kept w ks') as H.
  { intros ks ks' E [? ? ? H1 H2 ? ?]. split; try done.
    - by rewrite <- E.
    - intros k c Hk. apply H1. by rewrite E.
    - intros k m Hk. apply H2. by rewrite E. }
  intros ks ks' E. split; apply H; by rewrite E.
Qed.

(** A step that keeps or adds objects, with what it and its call hold afterwards. *)
Lemma kept_grows w w' k k' ks : kept w (k :: ks) -> frees_nothing k' -> faults w' = [] ->
  live_models w ⊆ live_models w' -> live_contexts w ⊆ live_contexts w' ->
  (forall c, GLOBAL_CONTEXT_PTR w' = Some c -> GLOBAL_CONTEXT_PTR w = Some c \/ held_context k = Some c) ->
  (forall c, held_context k' = Some c ->
     held_context k = Some c \/ GLOBAL_CONTEXT_PTR w = Some c \/ usable w' c) ->
  (forall m, held_model k' = Some m -> is_Some (live_models w' !! m)) ->
  (forall c, (next_handle w' <= c)%nat -> live_contexts w' !! c = None) ->
  (forall m, (next_handle w' <= m)%nat -> live_models w' !! m = None) ->
  kept w' (k' :: ks).
Proof.
  intros [Hf Hc Hs Hh Hm _ _] Hk' Hf' Sm Sc Hs' Hh' Hm' Fc Fm.
  assert (forall c, usable w c -> usable w' c) as Hu.
  { intros c (m & E1 & p & E2). exists m. split; [by eapply lookup_weaken|]. exists p. by eapply lookup_weaken. }
  apply Forall_cons in Hc as [_ Hc].
  split; try done.
  - by constructor.
  - intros c E. apply Hu. destruct (Hs' c E) as [E'|E']; [by apply Hs|]. eapply Hh; [|exact E']. by left.
  - intros k0 c [->|Hk0]%elem_of_cons E.
    + destruct (Hh' c E) as [E'|[E'|E']]; [apply Hu; eapply Hh; [by left|done]|by apply Hu, Hs|done].
    + apply Hu. eapply Hh; [by right|done].
  - intros k0 m [->|Hk0]%elem_of_cons E; [by apply Hm'|].
    destruct (Hm k0 m ltac:(by right) E) as [p Hp]. exists p. by eapply lookup_weaken.
Qed.

Lemma kept_use w c : usable w c -> use_context c w = w.
Proof. intros (m & E1 & p & E2). unfold use_context. by rewrite E1, E2. Qed.

Lemma call_step_kept ok k k' w w' ks :
  kept w (k :: ks) -> call_step ok k w = Some (k', w') -> kept w' (k' :: ks).
Proof.
  intros Hw E. pose proof Hw as [Hf Hc _ Hh Hm Fc Fm]. apply Forall_cons in Hc as [Hk _].
  assert (forall c, held_context k = Some c -> use_context c w = w) as Huse.
  { intros c Hc. apply kept_use. eapply Hh; [by left|done]. }
  assert (live_models w !! next_handle w = None) as Nm by by apply Fm.
  assert (live_contexts w !! next_handle w = None) as Nc by by apply Fc.
  destruct k; try done; cbn in E; unfold gpuf_load_model, gpuf_create_context in E;
    repeat case_match; simplify_eq; cbn in Huse;
    rewrite ?Huse by done; (eapply kept_grows; [exact Hw|..]); cbn; try done; try (by auto);
    try (by apply insert_subseteq); try (by intros ? [= <-]; auto).
  - intros m [= <-]. rewrite lookup_insert_eq. by eexists.
  - intros c Hc. apply Fc. lia.
  - intros m Hm'. rewrite lookup_insert_ne by lia. apply Fm. lia.
  - intros c [= <-]. right. right. exists m. cbn. rewrite lookup_insert_eq. split; [done|].
    eapply Hm; [by left|done].
  - intros c Hc. rewrite lookup_insert_ne by lia. apply Fc. lia.
  - intros m' Hm'. apply Fm. lia.
Qed.

(** What an app without hot swaps begins. *)
Definition gentle_event (e : Event) : Prop :=
  match e with
  | Begin (JnLoading _) | Begin JnClearModel | Begin (TkLock _) | Begin (AnContext _)
  | Begin (JgModel _) | Turn _ _ => True
  | _ => False
  end.

(** Without hot swaps every generation is safe, whatever locks it takes: loading through the
    JNI and stopping free nothing, they leave the objects of earlier loads alive for good. *)
Theorem without_swaps_nothing_is_freed (es : list Event) :
  Forall gentle_event es ->
  let p := run_events es process_start in
  faults (world p) = []
  /\ forall n c, AnUse n c ∈ calls p \/ JgUse n c ∈ calls p \/ TkUse n c ∈ calls p -> usable (world p) c.
Proof.
  intros He p.
  assert (kept (world p) (calls p)) as [Hf _ _ Hh _ _ _].
  { unfold p, run_events. assert (kept (world process_start) (calls process_start)) as Hp.
    { split; try done; cbn; intros ?? H; by apply not_elem_of_nil in H. }
    revert Hp. generalize process_start. induction He as [|e es He _ IH]; intros q Hq; [done|].
    cbn. apply IH. clear IH p. destruct e as [k|i ok]; cbn.
    - assert (frees_nothing k /\ held_context k = None /\ held_model k = None) as (Hk & Hc & Hm)
        by by destruct k.
      destruct Hq as [Hf Hcs Hs Hh Hms Hfc Hfm]. split; try done.
      + apply Forall_app; auto.
      + intros k0 c [Hk0| ->%list_elem_of_singleton]%elem_of_app E; [by eapply Hh|congruence].
      + intros k0 c [Hk0| ->%list_elem_of_singleton]%elem_of_app E; [by eapply Hms|congruence].
    - destruct (calls q !! i) as [k|] eqn:Ei; [|done].
      destruct (call_step ok k (world q)) as [[k' w']|] eqn:Es; [|done]. cbn.
      destruct (insert_call _ _ _ k' Ei) as [E1 E2]. rewrite E2. eapply call_step_kept; [|exact Es].
      by rewrite <- E1. }
  split; [done|]. intros n c [Hk|[Hk|Hk]]; by eapply Hh.
Qed.

(** A schedule: a call that begins and the turns of calls, which all succeed. *)
Definition turns (i n : nat) : list Event := replicate n (Turn i true).

(** A task of [android_sdk.rs] reads the context before it takes the lock. Between the two a
    swap frees that context, and the task uses it. *)
Lemma android_task_uses_freed_context :
  faults (world (run_events
    ([Begin (SwEnsure (Some b!"/a.gguf"))] ++ turns 0 17
     ++ [Begin (AnContext 1); Turn 1 true]
     ++ [Begin (SwEnsure (Some b!"/b.gguf"))] ++ turns 2 16 ++ turns 1 2) process_start))
  = [UseAfterFree 1].
Proof. vm_compute. reflexivity. Qed.

(** So does a generation through the JNI, which takes no lock. *)
Lemma jni_generation_uses_freed_context :
  faults (world (run_events
    ([Begin (SwEnsure (Some b!"/a.gguf"))] ++ turns 0 17
     ++ [Begin (JgModel 2)] ++ turns 1 3
     ++ [Begin (SwEnsure (Some b!"/b.gguf"))] ++ turns 2 16 ++ turns 1 1) process_start))
  = [UseAfterFree 1].
Proof. vm_compute. reflexivity. Qed.

(** A load through the JNI leaves the objects it replaces alive and unreachable, stopping
    too, and so does a context that cannot be created. *)
Lemma jni_load_leaks p w : sound w [] -> has_nul p = false ->
  forall w', jni_load p true true w = (1, w') ->
  live_models w ⊆ live_models w' /\ live_contexts w ⊆ live_contexts w'
  /\ GLOBAL_MODEL_PTR w' = Some (next_handle w) /\ GLOBAL_CONTEXT_PTR w' = Some (S (next_handle w)).
Proof.
  intros Hw Hp w' E. unfold jni_load in E. rewrite Hp in E. cbn in E. injection E as <-. cbn.
  split; [|split; [|done]]; apply insert_subseteq.
  - by apply (snd_models _ _ Hw).
  - apply (snd_contexts _ _ Hw). lia.
Qed.

Lemma failed_context_leaks_model p w : sound w [] -> has_nul p = false ->
  exists w', jni_load p true false w = (-4, w')
    /\ live_models w' = <[next_handle w := p]> (live_models w)
    /\ GLOBAL_MODEL_PTR w' = GLOBAL_MODEL_PTR w /\ live_contexts w' = live_contexts w.
Proof. intros Hw Hp. unfold jni_load. rewrite Hp. cbn. eexists. repeat split. Qed.

(** Two swaps at once: the status is set outside the locks, so it may name the model of the
    one while the pointers name that of the other. *)
Lemma status_names_other_model :
  let w := world (run_events
    ([Begin (SwEnsure (Some b!"/a.gguf")); Begin (SwEnsure (Some b!"/b.gguf"))]
     ++ turns 0 15 ++ turns 1 16 ++ turns 0 1) process_start) in
  current_model (MODEL_STATUS w) = Some b!"/a.gguf"
  /\ (GLOBAL_MODEL_PTR w ≫= (live_models w !!.)) = Some b!"/b.gguf".
Proof. vm_compute. by split. Qed.

(** ** Witnesses *)

Abbreviation two_swaps_and_a_task :=
  ([Begin (SwEnsure (Some b!"/a.gguf"))] ++ turns 0 17
   ++ [Begin (TkLock 3); Begin (SwEnsure (Some b!"/b.gguf"))] ++ turns 1 4 ++ turns 2 20 ++ turns 1 4
   ++ turns 2 20).



Lemma without_swaps_nothing_is_freed_witness :
  let es := [Begin (JnLoading b!"/a.gguf")] ++ turns 0 6 ++ [Begin (AnContext 2)] ++ turns 1 3 in
  Forall gentle_event es /\ calls (run_events es process_start) !! 1%nat = Some (AnUse 1 1)
  /\ usable (world (run_events es process_start)) 1.
Proof.
  intros es. assert (Forall gentle_event es) as H by (cbn; repeat constructor).
  split; [exact H|]. split; [reflexivity|].
  apply (proj2 (without_swaps_nothing_is_freed _ H) 1%nat). left. vm_compute. right. left.
Defined.
