(* ===== verification/AndroidSdk.v ===== *)
(** * The worker on Android ([gpuf-c/src/handle/android_sdk.rs])

    The Android variant of [SdkWorker]: its slots, the login, the heartbeat thread, which opens
    a connection of its own for each heartbeat, the command thread, which starts a thread for
    each inference task, and the two ways to start them ([start_worker_tasks], and with a
    status callback). The app, the threads and the tasks interleave; a turn is the stretch
    between two points at which a thread looks at shared state. The command thread holds the
    stream while it reads and handles one command, which is one turn; a task that has the
    inference lock generates and sends its chunks in one turn, since only whole commands of
    other tasks could come between two of its chunks. [ANDROID_ACTIVE_TASK_ID] is set up by the
    login, before there is a stream, so [expect] does not fail. *)

From S2P Require Import Prelude Wire Text Output Ids LlamaEngine Mobile MobileTls SdkWorker.
From Stdlib Require Import ZArith Lia String.
From Stdlib Require Import Strings.Byte.
From stdpp Require Import base list gmap.

Local Open Scope Z_scope.
Import Framing Phase.

(** ** Prompts *)

Definition chat_line (m : ChatMessage) : bytes :=
  (if bool_decide (role m = b!"system") then b!"System"
   else if bool_decide (role m = b!"user") then b!"User"
   else if bool_decide (role m = b!"assistant") then b!"Assistant" else role m)
  ++ b!": " ++ content m ++ [Byte.x0a].

Definition build_chat_prompt (messages : list ChatMessage) : bytes :=
  concat (chat_line <$> messages) ++ b!"Assistant: ".

Definition command_label (c : Command) : bytes :=
  match c with
  | V1 (RequestNewProxyConn _) => b!"v1.request_new_proxy_conn"
  | V1 (NewProxyConn _) => b!"v1.new_proxy_conn"
  | V1 (Login _ _ _ _ _ _ _ _) => b!"v1.login"
  | V1 (LoginResult _ _ _) => b!"v1.login_result"
  | V1 (Heartbeat _ _ _ _ _ _) => b!"v1.heartbeat"
  | V1 (PullModelResult _ _) => b!"v1.pull_model_result"
  | V1 (ModelStatus _ _ _) => b!"v1.model_status"
  | V1 (InferenceTask _ _ _) => b!"v1.inference_task"
  | V1 (ChatInferenceTask _ _ _ _) => b!"v1.chat_inference_task"
  | V1 (CancelInference _) => b!"v1.cancel_inference"
  | V1 (InferenceResult _ _ _ _ _ _ _) => b!"v1.inference_result"
  | V1 (InferenceResultChunk _ _ _ _ _ _ _ _ _ _) => b!"v1.inference_result_chunk"
  | V1 (ModelDownloadProgress _ _ _ _ _ _ _ _) => b!"v1.model_download_progress"
  | V2 _ => b!"v2.command"
  end.

(** What the phone holds of llama.cpp: whether the global context is set and gives a model
    and a vocabulary, the path of [MODEL_STATUS], the library, the chat template among the
    model's metadata (the length reported and its text) and what applying a template to
    messages gives ([None]: it is not supported). *)
Record Droid := mkDroid {
  dr_context_ptr : bool; dr_no_model : bool; dr_no_vocab : bool;
  dr_current_model : option bytes; dr_llama : Mobile.Llama;
  dr_chat_template : option bytes;
  dr_apply_template : bytes -> list (bytes * bytes) -> option bytes }.

Definition count_prompt_tokens (d : Droid) (prompt : bytes) : Z :=
  if dr_no_model d || dr_no_vocab d then 0
  else
    let '(n, _) := llama_tokenize (dr_llama d) prompt (blen prompt) 512 in
    let n := if n <? 0 then (llama_tokenize (dr_llama d) prompt (blen prompt) (Z.max (- n) 1)).1 else n in
    if 0 <? n then n else 0.

(** The bytes before the first NUL. *)
Fixpoint c_str (s : bytes) : bytes :=
  match s with
  | [] => []
  | b :: s => if bool_decide (b = Byte.x00) then [] else b :: c_str s
  end.

Lemma c_str_app_nul s x : has_nul s = false -> c_str (s ++ Byte.x00 :: x) = s.
Proof.
  unfold has_nul. intros Hn%bool_decide_eq_false. induction s as [|b s IH]; cbn; [done|].
  rewrite bool_decide_false by (intros ->; set_solver). f_equal. apply IH. set_solver.
Qed.

Definition c_messages (messages : list ChatMessage) : option (list (bytes * bytes)) :=
  if existsb (fun m => has_nul (role m) || has_nul (content m)) messages then None
  else Some ((fun m => (role m, content m)) <$> messages).

(** The template is copied into 8192 bytes with a NUL, the prompt into a buffer of the size
    that a first call asks for. *)
Definition build_chat_prompt_with_gguf_template (d : Droid) (messages : list ChatMessage) : option bytes :=
  if dr_no_model d then None
  else match dr_chat_template d with
  | None | Some [] => None
  | Some text =>
      let tmpl := c_str (take (Z.to_nat 8191) text) in
      match c_messages messages with
      | None => None
      | Some ms =>
          match dr_apply_template d tmpl ms with
          | None | Some [] => None
          | Some out => Some (from_utf8_lossy (c_str out))
          end
      end
  end.

Definition token_should_be_suppressed (token : bytes) : bool :=
  contains_sub b!"<|" token || contains_sub b!"<assistant" token
  || contains_sub b!"assistantfinal" token || contains_sub b!"The user is speaking" token
  || contains_sub b!"The assistant should" token || contains_sub b!"We need to" token
  || contains_sub b!"Thus produce" token || contains_sub b!"Ok produce answer" token.

Definition android_model_id (model_path : bytes) : bytes :=
  let lower := to_ascii_lowercase model_path in
  if contains_sub b!"llama-3" lower || contains_sub b!"llama3" lower then b!"llama3"
  else ModelId.trim_end_matches b!".bin" (ModelId.trim_end_matches b!".gguf" (default model_path (ModelId.path_file_name model_path))).

(** ** Usage of the phone, from the files of [/proc] *)

Fixpoint words_fuel (fuel : nat) (cur s : bytes) : list bytes :=
  let emit := if bool_decide (cur = []) then [] else [cur] in
  match fuel, s with
  | S fuel, b :: s' =>
      match list_find (fun p => starts_with p s) white_space with
      | Some (_, p) => emit ++ words_fuel fuel [] (drop (length p) s)
      | None => words_fuel fuel (cur ++ [b]) s'
      end
  | _, _ => emit
  end.
Definition split_whitespace (s : bytes) : list bytes := words_fuel (length s) [] s.

(** [reader.lines().flatten()] passes over lines that are not UTF-8. *)
Definition text_lines (file : bytes) : list bytes := filter (fun l => valid_utf8 l) (lines file).

Definition u64_sum (l : list Z) : Z := wrap 64 (foldr Z.add 0 l).

Definition cpu_percent (parts : list bytes) : Z :=
  if (length parts <? 8)%nat then 25
  else
    let times := omap (parse_uint 64) (take 7 (drop 1 parts)) in
    if (length times <? 4)%nat then 25
    else
      let total := u64_sum times in
      if 0 <? total
      then wrap 32 (wrap 64 (wrap 64 (total - nth 3 times 0) * 100) / total)
      else 25.

Definition cpu_usage_of (file : bytes) : Z :=
  match list_find (fun l => starts_with b!"cpu " l) (text_lines file) with
  | Some (_, l) => cpu_percent (split_whitespace l)
  | None => 25
  end.

(** The value of the last line with the name. *)
Definition meminfo_value (name : bytes) (ls : list bytes) : Z :=
  fold_left (fun v l => if starts_with name l
                        then match split_whitespace l with
                             | _ :: p :: _ => default v (parse_uint 64 p)
                             | _ => v end
                        else v) ls 0.

Definition memory_usage_of (file : bytes) : Z :=
  let total := meminfo_value b!"MemTotal:" (text_lines file) in
  let available := meminfo_value b!"MemAvailable:" (text_lines file) in
  if (0 <? total) && (0 <? available)
  then wrap 32 (wrap 64 (wrap 64 (total - available) * 100) / total) else 45.

(** [read_disk_usage] of the blocks and the available blocks that [statvfs] gives, if it does. *)
Definition read_disk_usage (stat : option (Z * Z)) : option Z :=
  match stat with
  | Some (blocks, available) =>
      if 0 <? blocks then Some (wrap 32 (wrap 64 (wrap 64 (blocks - available) * 100) / blocks)) else None
  | None => None
  end.

(** What a heartbeat finds: [/proc/stat], [/proc/meminfo], [/proc/net/dev] if they open, and
    [statvfs]. *)
Record Proc := mkProc {
  proc_stat : option bytes; proc_meminfo : option bytes; proc_net_dev : option bytes;
  proc_statvfs : option (Z * Z) }.

Definition get_realtime_system_usage (p : Proc) : Z * Z * Z :=
  (from_option cpu_usage_of 25 (proc_stat p), from_option memory_usage_of 45 (proc_meminfo p),
   default 60 (read_disk_usage (proc_statvfs p))).

Definition skipped_interface (name : bytes) : bool :=
  bool_decide (name = b!"lo") || starts_with b!"dummy" name || starts_with b!"virbr" name
  || starts_with b!"docker" name.

Definition net_line (l : bytes) : option (Z * Z) :=
  if contains_sub b!"Inter-" l || contains_sub b!"face" l then None
  else
    let parts := split_whitespace l in
    if (length parts <? 17)%nat then None
    else if skipped_interface (ModelId.trim_end_matches b!":" (nth 0 parts [])) then None
    else match parse_uint 64 (nth 1 parts []), parse_uint 64 (nth 9 parts []) with
         | Some rx, Some tx => Some (rx, tx)
         | _, _ => None
         end.

Definition net_totals (file : option bytes) : Z * Z :=
  let l := omap net_line (from_option text_lines [] file) in
  (u64_sum (fst <$> l), u64_sum (snd <$> l)).

(** [last] is [LAST_NETWORK_USAGE], a [OnceLock]: only the first [set] succeeds. *)
Definition get_network_usage (p : Proc) (last : option (Z * Z)) : (Z * Z) * option (Z * Z) :=
  let '(rx, tx) := net_totals (proc_net_dev p) in
  let '(last_rx, last_tx) := default (rx, tx) last in
  ((if last_rx <=? rx then rx - last_rx else 0, if last_tx <=? tx then tx - last_tx else 0),
   match last with Some l => Some l | None => Some (rx, tx) end).

Section Worker.
Context `{C : Codec}.

(** ** The inference task *)

(** [at_phase] is [None] where the callback knows no phases ([ChatInferenceTask] of
    [start_worker_tasks]). *)
Record AndroidCallbackState := mkAt {
  at_stream : Stream; at_seq : Z; at_buf : bytes; at_prompt : Z; at_completion : Z;
  at_analysis : Z; at_final : Z; at_buf_phase : OutputPhase; at_splitter : PhaseSplitter;
  at_suppress : bool }.

Definition at_max_bytes : Z := 8.

Definition at_start (phased : bool) (prompt_tokens : Z) (st : Stream) : AndroidCallbackState :=
  mkAt st 0 [] prompt_tokens 0 0 0 (if phased then Final else Unknown) PhaseSplitter_default false.

Definition at_chunk (task_id delta : bytes) (done : bool) (s : AndroidCallbackState) : Command :=
  V1 (InferenceResultChunk task_id (at_seq s) delta (at_buf_phase s) done None (at_prompt s)
        (at_completion s) (at_analysis s) (at_final s)).

(** [write_v1_to_control_stream] drops errors. *)
Definition at_flush (task_id : bytes) (s : AndroidCallbackState) : AndroidCallbackState :=
  mkAt (write_stream (at_chunk task_id (at_buf s) false s) (at_stream s)).2 (wrap 32 (at_seq s + 1))
    [] (at_prompt s) (at_completion s) (at_analysis s) (at_final s) (at_buf_phase s)
    (at_splitter s) (at_suppress s).

Definition at_set_buf (buf : bytes) (phase : OutputPhase) (s : AndroidCallbackState) : AndroidCallbackState :=
  mkAt (at_stream s) (at_seq s) buf (at_prompt s) (at_completion s) (at_analysis s) (at_final s)
    phase (at_splitter s) (at_suppress s).

Definition at_set_suppress (b : bool) (s : AndroidCallbackState) : AndroidCallbackState :=
  mkAt (at_stream s) (at_seq s) (at_buf s) (at_prompt s) (at_completion s) (at_analysis s)
    (at_final s) (at_buf_phase s) (at_splitter s) b.

Definition at_set_splitter (sp : PhaseSplitter) (s : AndroidCallbackState) : AndroidCallbackState :=
  mkAt (at_stream s) (at_seq s) (at_buf s) (at_prompt s) (at_completion s) (at_analysis s)
    (at_final s) (at_buf_phase s) sp (at_suppress s).

Definition at_set_completion (n : Z) (s : AndroidCallbackState) : AndroidCallbackState :=
  mkAt (at_stream s) (at_seq s) (at_buf s) (at_prompt s) n (at_analysis s) (at_final s)
    (at_buf_phase s) (at_splitter s) (at_suppress s).

Definition at_count (phase : OutputPhase) (s : AndroidCallbackState) : AndroidCallbackState :=
  mkAt (at_stream s) (at_seq s) (at_buf s) (at_prompt s) (sat_add 32 (at_completion s) 1)
    (match phase with Analysis => sat_add 32 (at_analysis s) 1 | _ => at_analysis s end)
    (match phase with Analysis => at_final s | _ => sat_add 32 (at_final s) 1 end)
    (at_buf_phase s) (at_splitter s) (at_suppress s).

(** [PhaseSplitter::push] of this file: a copy of that of [handle_tcp.rs], as is its type. *)
Definition android_push : PhaseSplitter -> bytes -> list (OutputPhase * bytes) * PhaseSplitter := push.

(** One segment of the splitter: the buffer is sent first if it is of another phase. *)
Definition at_seg (task_id : bytes) (s : AndroidCallbackState) (ps : OutputPhase * bytes)
    : AndroidCallbackState :=
  let '(phase, seg) := ps in
  if bool_decide (seg = []) then s
  else
    let s := at_count phase s in
    let s := if bool_decide (at_buf s = []) then at_set_buf (at_buf s) phase s
             else if bool_decide (at_buf_phase s = phase) then s
             else let s := at_flush task_id s in at_set_buf (at_buf s) phase s in
    at_set_buf (at_buf s ++ seg) (at_buf_phase s) s.

(** Suppression: from a token with one of the phrases, among the first 128, nothing is passed
    on until a token with "final", which is not passed on either. *)
Definition android_on_token (phased : bool) (task_id token : bytes) (s : AndroidCallbackState)
    : AndroidCallbackState :=
  match from_utf8 token with
  | None => s
  | Some token_str =>
      if at_suppress s
      then if contains_sub b!"assistantfinal" token_str || contains_sub b!"final" token_str
           then at_set_suppress false s else s
      else if token_should_be_suppressed token_str && (at_completion s <? 128)
      then at_set_suppress true (at_set_buf [] (at_buf_phase s) s)
      else
        let s := if phased
                 then let '(segs, sp) := android_push (at_splitter s) token_str in
                      fold_left (at_seg task_id) segs (at_set_splitter sp s)
                 else at_set_completion (sat_add 32 (at_completion s) 1)
                        (at_set_buf (at_buf s ++ token_str) (at_buf_phase s) s) in
        if blen (at_buf s) <? at_max_bytes then s else at_flush task_id s
  end.

Definition nul_position (s : bytes) : Z := blen (c_str s).

(** A [u32] passed as [i32]. *)
Definition as_i32 (n : Z) : Z := if n <? 2 ^ 31 then n else n - 2 ^ 32.

(** Where the code of a task is: in [start_worker_tasks] or not, a chat task or not. Chat tasks
    of the former know no phases; those of the latter take the result of a failed generation,
    too, for the number of tokens. *)
Record TaskKind := mkKind { tk_plain : bool; tk_chat : bool }.
Definition tk_phased (k : TaskKind) : bool := negb (tk_plain k && tk_chat k).
Definition tk_always_count (k : TaskKind) : bool := tk_chat k && negb (tk_plain k).

Record AndroidTask := mkTask {
  dt_id : bytes; dt_prompt : bytes; dt_params : Sampling; dt_kind : TaskKind;
  dt_stream : nat; dt_callback : option Z }.

Definition not_loaded : bytes := b!"Model not loaded - please load a model first".
Definition invalid_prompt (prompt : bytes) : bytes :=
  b!"Invalid prompt: nul byte found in provided data at position: " ++ dec (nul_position prompt).

(** The thread of a task once it has the inference lock. [stop i]: the stop flag as the
    [i]-th round of the generation reads it. [None]: the prompt was refused; otherwise whether
    the generation came to its end, which lowers the stop flag. *)
Definition run_android_task (d : Droid) (stop : nat -> bool) (t : AndroidTask) (st : Stream)
    : ffi (option bool * Stream) :=
  let id := dt_id t in
  let prompt := dt_prompt t in
  if has_nul prompt
  then Returns (None, (write_stream (final_chunk id Unknown (invalid_prompt prompt)) st).2)
  else
    let p := dt_params t in
    let s := at_start (tk_phased (dt_kind t)) (count_prompt_tokens d prompt) st in
    match gpuf_start_generation_async (dr_llama d) false false (dr_no_model d) (dr_no_vocab d) true
            prompt (as_i32 (max_tokens p)) (temperature p) (as_i32 (top_k p)) (top_p p)
            (repeat_penalty p) (fun _ i => stop i) with
    | Aborts => Aborts
    | Returns (rc, g) =>
        let tokens := match g with Some g => g_callbacks g | None => [] end in
        let s := fold_left (fun s tok => android_on_token (tk_phased (dt_kind t)) id tok s) tokens s in
        let s := if tk_always_count (dt_kind t) || (0 <? rc)
                 then at_set_completion (wrap 32 rc) s else s in
        let s := if bool_decide (at_buf s = []) then s else at_flush id s in
        Returns (Some (if g is Some _ then true else false),
                 (write_stream (at_chunk id [] true s) (at_stream s)).2)
    end.

(** ** The process *)

(** Where a thread is: the heartbeat thread before a heartbeat, before it connects for one, or
    with seconds left to sleep ([info = None]: it reports fixed values); the command thread before it begins, at the top of its
    loop ([plain]: started by [start_worker_tasks]) or before reading; a task that waits for the inference
    lock or runs; a [stop_global_worker] that has not begun or waits for two threads. *)
Inductive DThread :=
  | DHb (cb : option Z) (info : option DevicesInfo)
  | DHbConnect (cb : option Z) (info : option DevicesInfo) (usage : SystemInfo)
  | DHbSleep (cb : option Z) (info : option DevicesInfo) (left_ : nat)
  | DBegin (cb : option Z) (stream : nat)
  | DTop (plain : bool) (cb : option Z) (stream : nat)
  | DRead (plain : bool) (cb : option Z) (stream : nat)
  | DTask (t : AndroidTask)
  | DRun (t : AndroidTask)
  | DStop
  | DJoin (handles : option (nat * nat))
  | DEnded.

(** The slots (their source names), the streams ever opened, the calls of status callbacks,
    the threads ever spawned. *)
Record DroidWorld := mkDroidWorld {
  d_streams : list Stream;
  ANDROID_TCP_STREAM : option nat; ANDROID_SERVER_ADDR : option bytes;
  ANDROID_CONTROL_PORT : option Z; ANDROID_CONTROL_TLS : MobileControlTlsConfig;
  ANDROID_CLIENT_ID : option bytes; ANDROID_ACTIVE_TASK_ID : option bytes;
  GLOBAL_STOP_SIGNAL : option bool; GLOBAL_WORKER_HANDLES : option (nat * nat);
  LAST_NETWORK_USAGE : option (Z * Z);
  GENERATION_STOP_FLAG : bool; INFERENCE_LOCK : bool;
  d_calls : list (Z * bytes); d_threads : list DThread }.

Definition droid_start : DroidWorld :=
  mkDroidWorld [] None None None plaintext None None None None None false false [] [].

Definition d_set_streams (l : list Stream) (w : DroidWorld) : DroidWorld :=
  mkDroidWorld l (ANDROID_TCP_STREAM w) (ANDROID_SERVER_ADDR w) (ANDROID_CONTROL_PORT w)
    (ANDROID_CONTROL_TLS w) (ANDROID_CLIENT_ID w) (ANDROID_ACTIVE_TASK_ID w) (GLOBAL_STOP_SIGNAL w)
    (GLOBAL_WORKER_HANDLES w) (LAST_NETWORK_USAGE w) (GENERATION_STOP_FLAG w) (INFERENCE_LOCK w)
    (d_calls w) (d_threads w).
Definition d_set_slot (i : option nat) (w : DroidWorld) : DroidWorld :=
  mkDroidWorld (d_streams w) i (ANDROID_SERVER_ADDR w) (ANDROID_CONTROL_PORT w)
    (ANDROID_CONTROL_TLS w) (ANDROID_CLIENT_ID w) (ANDROID_ACTIVE_TASK_ID w) (GLOBAL_STOP_SIGNAL w)
    (GLOBAL_WORKER_HANDLES w) (LAST_NETWORK_USAGE w) (GENERATION_STOP_FLAG w) (INFERENCE_LOCK w)
    (d_calls w) (d_threads w).
Definition d_set_endpoint (addr : option bytes) (port : option Z) (tls : MobileControlTlsConfig)
    (id : option bytes) (w : DroidWorld) : DroidWorld :=
  mkDroidWorld (d_streams w) (ANDROID_TCP_STREAM w) addr port tls id (ANDROID_ACTIVE_TASK_ID w)
    (GLOBAL_STOP_SIGNAL w) (GLOBAL_WORKER_HANDLES w) (LAST_NETWORK_USAGE w)
    (GENERATION_STOP_FLAG w) (INFERENCE_LOCK w) (d_calls w) (d_threads w).
Definition d_set_active (t : option bytes) (w : DroidWorld) : DroidWorld :=
  mkDroidWorld (d_streams w) (ANDROID_TCP_STREAM w) (ANDROID_SERVER_ADDR w) (ANDROID_CONTROL_PORT w)
    (ANDROID_CONTROL_TLS w) (ANDROID_CLIENT_ID w) t (GLOBAL_STOP_SIGNAL w)
    (GLOBAL_WORKER_HANDLES w) (LAST_NETWORK_USAGE w) (GENERATION_STOP_FLAG w) (INFERENCE_LOCK w)
    (d_calls w) (d_threads w).
Definition d_set_stop (s : option bool) (h : option (nat * nat)) (w : DroidWorld) : DroidWorld :=
  mkDroidWorld (d_streams w) (ANDROID_TCP_STREAM w) (ANDROID_SERVER_ADDR w) (ANDROID_CONTROL_PORT w)
    (ANDROID_CONTROL_TLS w) (ANDROID_CLIENT_ID w) (ANDROID_ACTIVE_TASK_ID w) s h
    (LAST_NETWORK_USAGE w) (GENERATION_STOP_FLAG w) (INFERENCE_LOCK w) (d_calls w) (d_threads w).
Definition d_set_network (l : option (Z * Z)) (w : DroidWorld) : DroidWorld :=
  mkDroidWorld (d_streams w) (ANDROID_TCP_STREAM w) (ANDROID_SERVER_ADDR w) (ANDROID_CONTROL_PORT w)
    (ANDROID_CONTROL_TLS w) (ANDROID_CLIENT_ID w) (ANDROID_ACTIVE_TASK_ID w) (GLOBAL_STOP_SIGNAL w)
    (GLOBAL_WORKER_HANDLES w) l (GENERATION_STOP_FLAG w) (INFERENCE_LOCK w) (d_calls w) (d_threads w).
Definition d_set_generation (flag lock : bool) (w : DroidWorld) : DroidWorld :=
  mkDroidWorld (d_streams w) (ANDROID_TCP_STREAM w) (ANDROID_SERVER_ADDR w) (ANDROID_CONTROL_PORT w)
    (ANDROID_CONTROL_TLS w) (ANDROID_CLIENT_ID w) (ANDROID_ACTIVE_TASK_ID w) (GLOBAL_STOP_SIGNAL w)
    (GLOBAL_WORKER_HANDLES w) (LAST_NETWORK_USAGE w) flag lock (d_calls w) (d_threads w).
Definition d_set_calls (l : list (Z * bytes)) (w : DroidWorld) : DroidWorld :=
  mkDroidWorld (d_streams w) (ANDROID_TCP_STREAM w) (ANDROID_SERVER_ADDR w) (ANDROID_CONTROL_PORT w)
    (ANDROID_CONTROL_TLS w) (ANDROID_CLIENT_ID w) (ANDROID_ACTIVE_TASK_ID w) (GLOBAL_STOP_SIGNAL w)
    (GLOBAL_WORKER_HANDLES w) (LAST_NETWORK_USAGE w) (GENERATION_STOP_FLAG w) (INFERENCE_LOCK w)
    l (d_threads w).
Definition d_set_threads (l : list DThread) (w : DroidWorld) : DroidWorld :=
  mkDroidWorld (d_streams w) (ANDROID_TCP_STREAM w) (ANDROID_SERVER_ADDR w) (ANDROID_CONTROL_PORT w)
    (ANDROID_CONTROL_TLS w) (ANDROID_CLIENT_ID w) (ANDROID_ACTIVE_TASK_ID w) (GLOBAL_STOP_SIGNAL w)
    (GLOBAL_WORKER_HANDLES w) (LAST_NETWORK_USAGE w) (GENERATION_STOP_FLAG w) (INFERENCE_LOCK w)
    (d_calls w) l.

Definition d_stopped (w : DroidWorld) : bool := default false (GLOBAL_STOP_SIGNAL w).

Definition call_status_callback (cb : option Z) (msg : bytes) (w : DroidWorld) : DroidWorld :=
  match cb with
  | None => w
  | Some f => if has_nul msg then w else d_set_calls (d_calls w ++ [(f, msg)]) w
  end.

Definition invoke_callback (cb : option Z) (status message : bytes) (w : DroidWorld) : DroidWorld :=
  call_status_callback cb (status ++ b!" - " ++ message) w.

(** [let _ = write_command_sync]: the error is dropped. *)
Definition d_write (i : nat) (c : Command) (w : DroidWorld) : DroidWorld :=
  d_set_streams (alter (fun st => (write_stream c st).2) i (d_streams w)) w.

Definition spawn (t : DThread) (w : DroidWorld) : DroidWorld := d_set_threads (d_threads w ++ [t]) w.

Definition get_worker_status_android (w : DroidWorld) : bytes :=
  if ANDROID_TCP_STREAM w is Some _ then b!"Worker is running" else b!"Worker not available".

(** ** Logging in *)

Context (connect : Peer -> MobileControlTlsConfig -> result MobileControlStream).
Context `{H : Hex}.

(** Text that is not 32 hexadecimal digits gives the id of zeros. *)
Definition decode_or_zeros (client_id : bytes) : bytes :=
  match hex_decode client_id with
  | Some id => if decide (length id = 16%nat) then id else replicate 16 Byte.x00
  | None => replicate 16 Byte.x00
  end.

(** What [collect_system_info] and [collect_device_info] give. *)
Record Probes := mkProbes { pb_system : result (Z * Z * Z); pb_devices : result DevicesInfo }.

Definition android_fixed_devices_info (i : DevicesInfo) : DevicesInfo :=
  {| num := num i; pod_id := pod_id i; total_tflops := total_tflops i; memtotal_gb := memtotal_gb i;
     port := port i; ip := ip i; os_type := os_type i; engine_type := engine_type i;
     usage := usage i; mem_usage := mem_usage i; power_usage := power_usage i; temp := temp i;
     vendor_id := if vendor_id i =? 0 then 65 else vendor_id i;
     device_id := if device_id i =? 0 then 4096 else device_id i;
     memsize_gb := memsize_gb i; powerlimit_w := powerlimit_w i |}.

Definition android_login_command (client_id : bytes) (auto_models : bool) (cpu mem disk : Z)
    (i : DevicesInfo) : Command :=
  V1 (Login (decode_or_zeros client_id) 1 ANDROID auto_models
        (mkSystemInfo (wrap 8 cpu) (wrap 8 mem) (wrap 8 disk) 0 0)
        (if memsize_gb i <? 2 ^ 32 then memsize_gb i else 0) (total_tflops i)
        [android_fixed_devices_info i]).

(** The connection that is replaced stays open, with the threads that use it. *)
Definition perform_android_login_with_tls (server_addr : bytes) (control_port : Z)
    (client_id : bytes) (auto_models : bool) (tls : MobileControlTlsConfig) (pb : Probes) (n : Net)
    (w : DroidWorld) : result () * DroidWorld :=
  match connect (n_peer n) tls with
  | Err e => (Err e, w)
  | Ok _ =>
      match pb_system pb with
      | Err e => (Err (b!"Failed to collect system info: " ++ e), w)
      | Ok (cpu, mem, disk) =>
          match pb_devices pb with
          | Err e => (Err (b!"Failed to collect device info: " ++ e), w)
          | Ok i =>
              match write_stream (android_login_command client_id auto_models cpu mem disk i)
                      (new_stream ByLogin n) with
              | (Err e, _) => (Err (b!"Failed to send login command: " ++ e), w)
              | (Ok _, st) =>
                  (Ok (), d_set_endpoint (Some server_addr) (Some control_port) tls
                            (Some (decode_or_zeros client_id))
                            (d_set_slot (Some (length (d_streams w))) (d_set_streams (d_streams w ++ [st]) w)))
              end
          end
      end
  end.

Definition perform_android_login (server_addr : bytes) (control_port : Z) (client_id : bytes)
    (auto_models : bool) (pb : Probes) (n : Net) (w : DroidWorld) : result () * DroidWorld :=
  perform_android_login_with_tls server_addr control_port client_id auto_models plaintext pb n w.

(** ** Starting and stopping *)

(** The stop signal is created, once for the process. *)
Definition start_worker_tasks (w : DroidWorld) : result () * DroidWorld :=
  match ANDROID_TCP_STREAM w with
  | None => (Err b!"TCP connection not initialized", w)
  | Some i =>
      match GLOBAL_STOP_SIGNAL w with
      | Some _ => (Err b!"Failed to set stop signal", w)
      | None =>
          let w := d_set_stop (Some false) (GLOBAL_WORKER_HANDLES w) w in
          (Ok (), spawn (DTop true None i) (spawn (DHb None None) w))
      end
  end.

Definition android_start_with_callback (cb : option Z) (pb : Probes) (w : DroidWorld)
    : result () * DroidWorld :=
  let w := d_set_stop (Some false) (GLOBAL_WORKER_HANDLES w) w in
  let w := invoke_callback cb b!"STARTING" b!"Initializing background tasks..." w in
  match pb_devices pb with
  | Err e => (Err (b!"Failed to collect device info: " ++ e), w)
  | Ok info =>
      match ANDROID_TCP_STREAM w with
      | None => (Err b!"TCP connection not initialized", w)
      | Some i =>
          let k := length (d_threads w) in
          let w := spawn (DBegin cb i) (spawn (DHb cb (Some info)) w) in
          let w := d_set_stop (GLOBAL_STOP_SIGNAL w) (Some (k, S k)) w in
          (Ok (), invoke_callback cb b!"SUCCESS" b!"Background tasks started successfully" w)
      end
  end.

(** The two halves of [stop_global_worker], before and after it has joined the threads. *)
Definition stop_signal (w : DroidWorld) : DThread * DroidWorld :=
  let s := match GLOBAL_STOP_SIGNAL w with Some _ => Some true | None => None end in
  (DJoin (GLOBAL_WORKER_HANDLES w), d_set_stop s None w).

Definition thread_over (w : DroidWorld) (k : nat) : bool :=
  match d_threads w !! k with Some DEnded => true | _ => false end.

Definition stop_finish (w : DroidWorld) : DroidWorld :=
  let w := match ANDROID_TCP_STREAM w with
           | Some i => d_set_slot None (d_set_streams (alter shutdown i (d_streams w)) w)
           | None => w
           end in
  d_set_endpoint None None plaintext None w.

Definition stop_join (handles : option (nat * nat)) (w : DroidWorld) : DThread * DroidWorld :=
  match handles with
  | Some (hb, hd) => if thread_over w hb && thread_over w hd then (DEnded, stop_finish w)
                     else (DJoin handles, w)
  | None => (DEnded, stop_finish w)
  end.

(** ** The heartbeat thread *)

Definition android_device_info : DevicesInfo :=
  {| num := 1; pod_id := 0; total_tflops := 1000; memtotal_gb := 4096; port := 0; ip := 0;
     os_type := ANDROID; engine_type := Wire.Llama; usage := 0; mem_usage := 0; power_usage := 0;
     temp := 0; vendor_id := 65; device_id := 4096; memsize_gb := 4096; powerlimit_w := 150 |}.

Definition client_id_or_zeros (w : DroidWorld) : bytes := default (replicate 16 Byte.x00) (ANDROID_CLIENT_ID w).

(** The usage a heartbeat reports: fixed values, or those of the phone. *)
Definition heartbeat_usage (info : option DevicesInfo) (p : Proc) (w : DroidWorld) : SystemInfo * DroidWorld :=
  match info with
  | None => (mkSystemInfo 25 45 60 0 0, w)
  | Some _ =>
      let '(cpu, mem, disk) := get_realtime_system_usage p in
      let '((rx, tx), last) := get_network_usage p (LAST_NETWORK_USAGE w) in
      (mkSystemInfo (wrap 8 cpu) (wrap 8 mem) (wrap 8 disk) rx tx, d_set_network last w)
  end.

Definition android_heartbeat (info : option DevicesInfo) (usage : SystemInfo) (w : DroidWorld) : Command :=
  match info with
  | None => V1 (Heartbeat (client_id_or_zeros w) usage 1 4096 1000 [android_device_info])
  | Some i => V1 (Heartbeat (client_id_or_zeros w) usage (num i) (memtotal_gb i) (total_tflops i) [i])
  end.

Definition android_model_status (d : Droid) (w : DroidWorld) : Command :=
  V1 (ModelStatus (client_id_or_zeros w)
        [mkModel (android_model_id (default b!"android" (dr_current_model d))) b!"model" 0 b!"android"] []).

(** The beginning of a heartbeat. Where the address or the port is missing the loop goes on at
    once, without its sleep. *)
Definition heartbeat_begin (p : Proc) (cb : option Z) (info : option DevicesInfo) (w : DroidWorld)
    : DThread * DroidWorld :=
  let w := call_status_callback cb b!"HEARTBEAT - Sending heartbeat to server" w in
  let '(usage, w) := heartbeat_usage info p w in
  match ANDROID_SERVER_ADDR w, ANDROID_CONTROL_PORT w with
  | Some _, Some _ => (DHbConnect cb info usage, w)
  | _, _ => (DHb cb info, w)
  end.

(** It goes out on a connection of its own, which is closed again; with a callback the models
    follow. A failed connection, too, is tried again at once. *)
Definition send_heartbeat (d : Droid) (n : Net) (cb : option Z) (info : option DevicesInfo)
    (usage : SystemInfo) (w : DroidWorld) : DThread * DroidWorld :=
  match connect (n_peer n) (ANDROID_CONTROL_TLS w) with
  | Err _ => (DHb cb info, call_status_callback cb b!"ERROR - Failed to connect for heartbeat" w)
  | Ok _ =>
      match write_stream (android_heartbeat info usage w) (new_stream ByReconnect n) with
      | (Err e, st) =>
          (DHbSleep cb info 120,
           call_status_callback cb (b!"ERROR - Failed to send heartbeat: " ++ e)
             (d_set_streams (d_streams w ++ [shutdown st]) w))
      | (Ok _, st) =>
          let st := match info with
                    | Some _ => (write_stream (android_model_status d w) st).2
                    | None => st end in
          (DHbSleep cb info 120,
           call_status_callback cb b!"SUCCESS - Heartbeat sent successfully"
             (d_set_streams (d_streams w ++ [shutdown st]) w))
      end
  end.

Definition android_heartbeat_step (d : Droid) (n : Net) (p : Proc) (t : DThread) (w : DroidWorld)
    : DThread * DroidWorld :=
  match t with
  | DHb cb info => if d_stopped w then (DEnded, w) else heartbeat_begin p cb info w
  | DHbConnect cb info usage => send_heartbeat d n cb info usage w
  | DHbSleep cb info O => (DHb cb info, w)
  | DHbSleep cb info (S k) => if d_stopped w then (DEnded, w) else (DHbSleep cb info k, w)
  | t => (t, w)
  end.

(** ** The command thread *)

(** Leaving the loop. *)
Definition handler_stop (cb : option Z) (w : DroidWorld) : DThread * DroidWorld :=
  (DEnded, call_status_callback cb b!"HANDLER_STOP - Handler thread stopped" w).

Definition refuse_task (i : nat) (cb : option Z) (task_id : bytes) (w : DroidWorld) : DroidWorld :=
  invoke_callback cb b!"INFERENCE_FAILED" (b!"Task: " ++ task_id ++ b!" Error: " ++ not_loaded)
    (d_write i (final_chunk task_id Unknown not_loaded) w).

(** A thread for the task, which is the active one from now on. *)
Definition begin_task (i : nat) (cb : option Z) (task_id prompt : bytes) (p : Sampling) (k : TaskKind)
    (w : DroidWorld) : DroidWorld :=
  spawn (DTask (mkTask task_id prompt p k i cb)) (d_set_active (Some task_id) w).

(** [gpuf_stop_generation] raises the flag of the process. *)
Definition android_cancel (d : Droid) (task_id : bytes) (w : DroidWorld) : DroidWorld :=
  if bool_decide (ANDROID_ACTIVE_TASK_ID w = Some task_id) && dr_context_ptr d
  then d_set_generation true (INFERENCE_LOCK w) w else w.

(** One command; [plain] as in [DTop]. *)
Definition android_command (d : Droid) (plain : bool) (cb : option Z) (i : nat) (c : Command)
    (w : DroidWorld) : DThread * DroidWorld :=
  let w := call_status_callback cb (b!"COMMAND_RECEIVED - " ++ command_label c) w in
  let next := DTop plain cb i in
  match c with
  | V1 (LoginResult true _ _) =>
      (next, call_status_callback cb b!"LOGIN_SUCCESS - Login successful"
               (d_write i (android_model_status d w) w))
  | V1 (LoginResult false _ error) =>
      handler_stop cb (call_status_callback cb (b!"LOGIN_FAILED - server message redacted ("
                         ++ dec (from_option blen 0 error) ++ b!" bytes)") w)
  | V1 (PullModelResult _ (Some e)) => (next, call_status_callback cb (b!"PULL_MODEL_FAILED - " ++ e) w)
  | V1 (PullModelResult _ None) =>
      (next, call_status_callback cb b!"PULL_MODEL_SUCCESS - Pull model successful" w)
  | V1 (InferenceTask task_id prompt p) =>
      let w := invoke_callback cb b!"INFERENCE_START" (b!"Task: " ++ task_id) w in
      (next, if dr_context_ptr d then begin_task i cb task_id prompt p (mkKind plain false) w
             else refuse_task i cb task_id w)
  | V1 (ChatInferenceTask task_id _ messages p) =>
      let w := invoke_callback cb b!"INFERENCE_START" (b!"Task: " ++ task_id) w in
      (next, if dr_context_ptr d
             then let prompt := default (build_chat_prompt messages)
                                  (build_chat_prompt_with_gguf_template d messages) in
                  begin_task i cb task_id prompt p (mkKind plain true) w
             else refuse_task i cb task_id w)
  | V1 (CancelInference task_id) => (next, android_cancel d task_id w)
  | V1 _ => (next, invoke_callback cb b!"WARNING" b!"Received unhandled command type" w)
  | V2 _ => (next, invoke_callback cb b!"WARNING" b!"Received non-V1 command" w)
  end.

(** A read and its command. *)
Definition android_read (d : Droid) (plain : bool) (cb : option Z) (i : nat) (w : DroidWorld)
    : DThread * DroidWorld :=
  match d_streams w !! i with
  | None => (DTop plain cb i, w)
  | Some st =>
      let '(r, st) := read_stream st in
      let w := d_set_streams (<[i := st]> (d_streams w)) w in
      match r with
      | inl c => android_command d plain cb i c w
      | inr TimedOut => (DTop plain cb i, w)
      | inr (ReadFailed e) =>
          handler_stop cb (invoke_callback cb b!"ERROR" (b!"Failed to read command: " ++ e) w)
      end
  end.

(** ** Tasks *)

(** Taking the inference lock; a generation begins by lowering the stop flag. *)
Definition task_lock (t : AndroidTask) (w : DroidWorld) : DThread * DroidWorld :=
  if INFERENCE_LOCK w then (DTask t, w) else (DRun t, d_set_generation (has_nul (dt_prompt t) && GENERATION_STOP_FLAG w) true w).

Definition task_success (t : AndroidTask) (elapsed : Z) (w : DroidWorld) : DroidWorld :=
  let w := invoke_callback (dt_callback t) b!"INFERENCE_SUCCESS"
             (b!"Task: " ++ dt_id t ++ b!" in " ++ dec elapsed ++ b!"ms") w in
  if tk_chat (dt_kind t) then w
  else invoke_callback (dt_callback t) b!"SUCCESS" b!"Inference result sent successfully" w.

(** The generation and its chunks; [elapsed] in milliseconds. [raised]: the round before which the stop flag was raised,
    if it was. [None]: the process aborts. *)
Definition task_run (d : Droid) (raised : nat) (elapsed : Z) (t : AndroidTask) (w : DroidWorld)
    : option (DThread * DroidWorld) :=
  match d_streams w !! dt_stream t with
  | None => Some (DEnded, d_set_generation (GENERATION_STOP_FLAG w) false w)
  | Some st =>
      let stop := fun i => GENERATION_STOP_FLAG w && (raised <=? i)%nat in
      match run_android_task d stop t st with
      | Aborts => None
      | Returns (ran, st) =>
          let w := d_set_streams (<[dt_stream t := st]> (d_streams w)) w in
          let w := d_set_generation (negb (default false ran) && GENERATION_STOP_FLAG w) false w in
          Some (DEnded,
            match ran with
            | Some _ =>
                task_success t elapsed
                  (if bool_decide (ANDROID_ACTIVE_TASK_ID w = Some (dt_id t)) then d_set_active None w else w)
            | None =>
                invoke_callback (dt_callback t) b!"INFERENCE_FAILED"
                  (b!"Task: " ++ dt_id t ++ b!" Error: " ++ invalid_prompt (dt_prompt t)) w
            end)
      end
  end.

(** ** Interleavings *)

(** What a turn of a thread meets: llama.cpp, the network, the files of [/proc], and for a
    task [raised] and [elapsed]. *)
Record DroidEnv := mkDroidEnv {
  de_droid : Droid; de_net : Net; de_proc : Proc; de_raised : nat; de_elapsed : Z }.

Definition android_thread_step (e : DroidEnv) (t : DThread) (w : DroidWorld)
    : option (DThread * DroidWorld) :=
  match t with
  | DBegin cb i => Some (DTop false cb i, call_status_callback cb b!"HANDLER_START - Handler thread started" w)
  | DTop plain cb i => Some (if d_stopped w then handler_stop cb w else (DRead plain cb i, w))
  | DRead plain cb i => Some (android_read (de_droid e) plain cb i w)
  | DTask t => Some (task_lock t w)
  | DRun t => task_run (de_droid e) (de_raised e) (de_elapsed e) t w
  | DStop => Some (stop_signal w)
  | DJoin h => Some (stop_join h w)
  | t => Some (android_heartbeat_step (de_droid e) (de_net e) (de_proc e) t w)
  end.

Inductive DroidOp :=
  | DLogin (server_addr : bytes) (control_port : Z) (client_id : bytes) (auto_models : bool)
      (tls : MobileControlTlsConfig) (pb : Probes) (n : Net)
  | DStartPlain
  | DStartCallback (cb : option Z) (pb : Probes)
  | DStopWorker
  | DTurn (thread : nat) (e : DroidEnv).

(** [None]: the process aborts. *)
Definition droid_step (o : DroidOp) (w : DroidWorld) : option DroidWorld :=
  match o with
  | DLogin a p id auto tls pb n => Some (perform_android_login_with_tls a p id auto tls pb n w).2
  | DStartPlain => Some (start_worker_tasks w).2
  | DStartCallback cb pb => Some (android_start_with_callback cb pb w).2
  | DStopWorker => Some (spawn DStop w)
  | DTurn k e =>
      match d_threads w !! k with
      | None => Some w
      | Some t => '(t, w) ← android_thread_step e t w;
                  Some (d_set_threads (<[k := t]> (d_threads w)) w)
      end
  end.

Fixpoint run_droid (ops : list DroidOp) (w : DroidWorld) : option DroidWorld :=
  match ops with
  | [] => Some w
  | o :: ops => w ← droid_step o w; run_droid ops w
  end.
End Worker.
