(* ===== verification/AndroidFacts.v ===== *)
(** * The Android worker: its answers, its threads and what it reports

    Theorems about [AndroidSdk]: the chunks of a task are the answer the HTTP client gets,
    except where suppression drops text; at most one task generates; stopping ends the
    threads; and where the code loses a phone, a task or a cancellation. *)

From S2P Require Import Prelude Wire Text Output Ids LlamaEngine Scheduler Streams DeviceStream Mobile MobileTls SdkWorker SdkFacts AndroidSdk.
From Stdlib Require Import ZArith Lia String.
From Stdlib Require Import Strings.Byte.
From stdpp Require Import base list gmap.

Local Open Scope Z_scope.
Import Framing Filter Phase Emit TextFacts PhaseFacts EmitFacts.

(** ** The answer of a task *)
Section Answer.
Context `{C : Codec} (t : bytes) (pt : Z).

Lemma at_flush_writes s : writes (at_stream s) (at_stream (at_flush t s)).
Proof.
  unfold at_flush. destruct (write_stream _ _) as [r st] eqn:E. by apply write_stream_writes in E as [E _].
Qed.

(** [T] is what has been split off so far, with what the stream has got since [base]. *)
Definition at_inv (base : Stream) (T : list (OutputPhase * byte)) (s : AndroidCallbackState) : Prop :=
  at_prompt s = pt
  /\ exists l bs, st_out (at_stream s) = st_out base ++ (V1 <$> l) /\ batches t pt l bs
       /\ T = tagged bs ++ tagged [(at_buf_phase s, at_buf s)].

Lemma at_inv_ext base T s s' :
  at_stream s' = at_stream s -> at_prompt s' = at_prompt s -> at_buf s' = at_buf s ->
  at_buf_phase s' = at_buf_phase s -> at_inv base T s -> at_inv base T s'.
Proof. unfold at_inv. by intros -> -> -> ->. Qed.

Lemma at_inv_append base T s seg :
  at_inv base T s ->
  at_inv base (T ++ tagged [(at_buf_phase s, seg)]) (at_set_buf (at_buf s ++ seg) (at_buf_phase s) s).
Proof.
  intros (Hp & l & bs & Ho & Hb & ->). split; [done|]. exists l, bs. split; [done|]. split; [done|].
  cbn [at_buf at_buf_phase at_set_buf]. by rewrite !tagged_single, fmap_app, app_assoc.
Qed.

(** Text that is dropped from the buffer. *)
Lemma at_inv_clear base T s :
  at_inv base T s -> exists T', at_inv base T' (at_set_buf [] (at_buf_phase s) s).
Proof.
  intros (Hp & l & bs & Ho & Hb & ->). exists (tagged bs ++ tagged [(at_buf_phase s, [])]).
  split; [done|]. by exists l, bs.
Qed.

Lemma at_flush_inv base T s :
  at_buf s <> [] -> lossless (at_stream s) (at_stream (at_flush t s)) -> at_inv base T s ->
  at_inv base T (at_flush t s).
Proof.
  unfold at_flush. destruct (write_stream _ _) as [r st] eqn:E. cbn [at_stream snd].
  intros Hne Hl (Hp & l & bs & Ho & Hb & ->). apply write_stream_writes in E as [_ E].
  destruct (E Hl) as [_ Hout]. split; [done|].
  eexists (l ++ [_]), (bs ++ [(at_buf_phase s, at_buf s)]). cbn [at_stream at_buf at_buf_phase].
  split; [rewrite Hout, Ho, fmap_app, app_assoc; reflexivity|]. split.
  - apply batches_snoc; [done|]. cbn. by rewrite bool_decide_true.
  - rewrite tagged_app. change (tagged [(at_buf_phase s, [])]) with (@nil (OutputPhase * byte)).
    by rewrite app_nil_r.
Qed.

(** The buffer made ready for a segment of the phase. *)
Abbreviation at_enter phase s :=
  (if bool_decide (at_buf s = []) then at_set_buf (at_buf s) phase s
   else if bool_decide (at_buf_phase s = phase) then s
   else let s' := at_flush t s in at_set_buf (at_buf s') phase s').

Lemma at_enter_writes phase s : writes (at_stream s) (at_stream (at_enter phase s)).
Proof. case_bool_decide; [done|]. case_bool_decide; [done|]. apply at_flush_writes. Qed.

Lemma at_enter_inv base T phase s :
  lossless (at_stream s) (at_stream (at_enter phase s)) -> at_inv base T s ->
  at_inv base T (at_enter phase s) /\ at_buf_phase (at_enter phase s) = phase.
Proof.
  case_bool_decide as Hb; [|case_bool_decide; [done|]]; cbn zeta; intros Hl Hi; split; try done.
  - destruct Hi as (Hp & l & bs & Ho & Hbs & ->). split; [done|]. exists l, bs. cbn.
    by rewrite Hb.
  - apply at_flush_inv in Hi as (Hp & l & bs & Ho & Hbs & HT); [|done..].
    split; [done|]. by exists l, bs.
Qed.

Lemma at_seg_writes s ps : writes (at_stream s) (at_stream (at_seg t s ps)).
Proof.
  destruct ps as [phase seg]. unfold at_seg. case_bool_decide; [done|].
  exact (at_enter_writes phase (at_count phase s)).
Qed.

Lemma at_seg_inv base T s ps :
  lossless (at_stream s) (at_stream (at_seg t s ps)) -> at_inv base T s ->
  at_inv base (T ++ tagged [ps]) (at_seg t s ps).
Proof.
  destruct ps as [phase seg]. unfold at_seg. case_bool_decide as Hs.
  { intros _ Hi. subst seg. change (tagged [(phase, [])]) with (@nil (OutputPhase * byte)).
    by rewrite app_nil_r. }
  cbn zeta. intros Hl Hi. change (at_stream s) with (at_stream (at_count phase s)) in Hl.
  destruct (at_enter_inv base T phase (at_count phase s) Hl) as [Hi2 Hp2]; [done|].
  pose proof (at_inv_append _ _ _ seg Hi2) as Ha. by rewrite Hp2 in Ha at 1.
Qed.

Lemma at_segs_writes l s : writes (at_stream s) (at_stream (fold_left (at_seg t) l s)).
Proof.
  revert s. induction l as [|ps l IH]; intros s; cbn [fold_left]; [done|].
  eapply writes_trans; [apply at_seg_writes|apply IH].
Qed.

Lemma at_segs_inv base l T s :
  lossless (at_stream s) (at_stream (fold_left (at_seg t) l s)) -> at_inv base T s ->
  at_inv base (T ++ tagged l) (fold_left (at_seg t) l s).
Proof.
  revert T s. induction l as [|ps l IH]; intros T s Hl Hi; cbn [fold_left] in *.
  { change (tagged []) with (@nil (OutputPhase * byte)). by rewrite app_nil_r. }
  apply lossless_split with (st2 := at_stream (at_seg t s ps)) in Hl as [Hl1 Hl2];
    [|apply at_seg_writes|apply at_segs_writes].
  replace (T ++ tagged (ps :: l)) with ((T ++ tagged [ps]) ++ tagged l)
    by by rewrite <- app_assoc, <- tagged_app.
  apply IH; [done|]. by apply at_seg_inv.
Qed.

Lemma at_seg_frame s ps :
  at_suppress (at_seg t s ps) = at_suppress s /\ at_splitter (at_seg t s ps) = at_splitter s.
Proof. destruct ps as [phase seg]. unfold at_seg. repeat case_bool_decide; done. Qed.

Lemma at_segs_frame l s :
  at_suppress (fold_left (at_seg t) l s) = at_suppress s
  /\ at_splitter (fold_left (at_seg t) l s) = at_splitter s.
Proof.
  revert s. induction l as [|ps l IH]; intros s; cbn [fold_left]; [done|].
  destruct (IH (at_seg t s ps)) as [-> ->]. apply at_seg_frame.
Qed.

(** One string of the callback: what the code of a task splits it into. *)
Definition token_segs (phased : bool) (sp : PhaseSplitter) (tok : bytes) :=
  if phased then push sp tok else ([(Unknown, tok)], sp).

(** The callback between its two ways out. *)
Definition at_take (phased : bool) (tok : bytes) (s : AndroidCallbackState) : AndroidCallbackState :=
  if phased
  then let '(segs, sp) := push (at_splitter s) tok in fold_left (at_seg t) segs (at_set_splitter sp s)
  else at_set_completion (sat_add 32 (at_completion s) 1) (at_set_buf (at_buf s ++ tok) (at_buf_phase s) s).

Abbreviation at_send s := (if blen (at_buf s) <? at_max_bytes then s else at_flush t s).

Lemma on_token_cases phased tok s : proper tok ->
  android_on_token phased t tok s
  = if at_suppress s
    then if contains_sub b!"assistantfinal" tok || contains_sub b!"final" tok then at_set_suppress false s else s
    else if token_should_be_suppressed tok && (at_completion s <? 128)
    then at_set_suppress true (at_set_buf [] (at_buf_phase s) s)
    else at_send (at_take phased tok s).
Proof.
  intros [_ Hu]. unfold android_on_token, android_push, from_utf8. by rewrite (proj2 (valid_utf8_iff tok) Hu).
Qed.

Lemma at_send_writes s : writes (at_stream s) (at_stream (at_send s)).
Proof. destruct (_ <? _); [done|]. apply at_flush_writes. Qed.

Lemma at_send_inv base T s :
  lossless (at_stream s) (at_stream (at_send s)) -> at_inv base T s -> at_inv base T (at_send s).
Proof.
  destruct (Z.ltb_spec (blen (at_buf s)) at_max_bytes); [done|]. apply at_flush_inv.
  intros Hb. rewrite Hb in *. by cbv in *.
Qed.

Lemma at_send_frame s :
  at_buf_phase (at_send s) = at_buf_phase s /\ at_splitter (at_send s) = at_splitter s
  /\ at_suppress (at_send s) = at_suppress s.
Proof. by destruct (_ <? _). Qed.

Lemma at_take_writes phased tok s : writes (at_stream s) (at_stream (at_take phased tok s)).
Proof.
  unfold at_take. destruct phased; [|done]. destruct (push _ tok) as [segs sp].
  apply (at_segs_writes segs (at_set_splitter sp s)).
Qed.

(** The phase of the buffer where the code knows none. *)
Definition plain_phase (phased : bool) (s : AndroidCallbackState) : Prop :=
  phased = false -> at_buf_phase s = Unknown.

Lemma at_take_inv base T phased tok s :
  lossless (at_stream s) (at_stream (at_take phased tok s)) -> plain_phase phased s -> at_inv base T s ->
  let '(segs, sp) := token_segs phased (at_splitter s) tok in
  let s' := at_take phased tok s in
  at_inv base (T ++ tagged segs) s' /\ plain_phase phased s' /\ at_splitter s' = sp
  /\ at_suppress s' = at_suppress s.
Proof.
  unfold token_segs, at_take, plain_phase. destruct phased.
  - destruct (push _ tok) as [segs sp]. intros Hl _ Hi.
    destruct (at_segs_frame segs (at_set_splitter sp s)) as [-> ->].
    split; [by apply at_segs_inv|done].
  - intros _ Hp Hi. split; [|done]. rewrite <- (Hp eq_refl).
    by apply (at_inv_append base T s tok).
Qed.

Lemma android_token_writes phased tok s : proper tok ->
  writes (at_stream s) (at_stream (android_on_token phased t tok s)).
Proof.
  intros Hp. rewrite on_token_cases by done. destruct (at_suppress s); [by destruct (_ || _)|].
  destruct (_ && _); [done|]. eapply writes_trans; [apply at_take_writes|apply at_send_writes].
Qed.

Lemma on_token_inv base T phased tok s :
  proper tok -> lossless (at_stream s) (at_stream (android_on_token phased t tok s)) ->
  plain_phase phased s -> at_inv base T s ->
  let s' := android_on_token phased t tok s in
  plain_phase phased s' /\ exists T', at_inv base T' s'
    /\ (at_suppress s = false -> token_should_be_suppressed tok = false ->
        let '(segs, sp) := token_segs phased (at_splitter s) tok in
        T' = T ++ tagged segs /\ at_splitter s' = sp /\ at_suppress s' = false).
Proof.
  intros Hp Hl Hph Hi. rewrite on_token_cases in * by done. cbn zeta.
  destruct (at_suppress s) eqn:Es; [destruct (_ || _); (split; [done|by exists T])|].
  destruct (token_should_be_suppressed tok && _) eqn:Ek.
  { split; [done|]. destruct (at_inv_clear _ _ _ Hi) as [T' Hi']. exists T'.
    split; [done|]. intros _ Hn. by rewrite Hn in Ek. }
  apply lossless_split with (st2 := at_stream (at_take phased tok s)) in Hl as [Hl1 Hl2];
    [|apply at_take_writes|apply at_send_writes].
  pose proof (at_take_inv base T phased tok s Hl1 Hph Hi) as Ht.
  destruct (token_segs phased (at_splitter s) tok) as [segs sp]. destruct Ht as (Hi2 & Hph2 & Hsp & Hsu).
  destruct (at_send_frame (at_take phased tok s)) as (Hf1 & Hf2 & Hf3). unfold plain_phase.
  rewrite Hf1, Hf2, Hf3. split; [exact Hph2|]. exists (T ++ tagged segs). split; [by apply at_send_inv|].
  intros _ _. by rewrite Hsu.
Qed.

Abbreviation on_all phased tokens s := (fold_left (fun s tok => android_on_token phased t tok s) tokens s).

Lemma on_all_writes phased tokens s : Forall proper tokens ->
  writes (at_stream s) (at_stream (on_all phased tokens s)).
Proof.
  intros Hp. revert s. induction Hp; intros s; cbn [fold_left]; [done|].
  eapply writes_trans; [by apply android_token_writes|done].
Qed.

(** What the code of a task makes of the callback's strings. *)
Definition split_off (phased : bool) (sp : PhaseSplitter) (tokens : list bytes)
    : list (OutputPhase * bytes) :=
  if phased then (push_all sp tokens).1 else pair Unknown <$> tokens.

Lemma on_all_inv base T phased tokens s :
  Forall proper tokens -> lossless (at_stream s) (at_stream (on_all phased tokens s)) ->
  plain_phase phased s -> at_inv base T s ->
  exists T', at_inv base T' (on_all phased tokens s)
    /\ (at_suppress s = false -> Forall (fun tok => token_should_be_suppressed tok = false) tokens ->
        T' = T ++ tagged (split_off phased (at_splitter s) tokens)).
Proof.
  intros Hp. revert T s. induction Hp as [|tok tokens Htok Hp IH]; intros T s Hl Hph Hi; cbn [fold_left] in *.
  { exists T. split; [done|]. intros _ _. destruct phased; cbn; by rewrite app_nil_r. }
  apply lossless_split with (st2 := at_stream (android_on_token phased t tok s)) in Hl as [Hl1 Hl2];
    [|by apply android_token_writes|by apply on_all_writes].
  destruct (on_token_inv base T phased tok s Htok Hl1 Hph Hi) as (Hph2 & T1 & Hi1 & H1).
  destruct (IH T1 _ Hl2 Hph2 Hi1) as (T2 & Hi2 & H2). exists T2. split; [done|].
  intros Hs [Hn Hns]%Forall_cons. specialize (H1 Hs Hn). unfold token_segs in H1.
  destruct phased.
  - cbn [split_off push_all]. destruct (push (at_splitter s) tok) as [segs sp].
    destruct H1 as (-> & Hsp & Hsu). rewrite H2 by done. unfold split_off. cbn [push_all]. rewrite Hsp.
    destruct (push_all sp tokens). cbn [fst]. by rewrite tagged_app, app_assoc.
  - destruct H1 as (-> & Hsp & Hsu). rewrite H2 by done. rewrite <- app_assoc, <- tagged_app. done.
Qed.

(** The end of a task: the count, the rest of the buffer and the last chunk. *)
Lemma at_end base T s (n : option Z) now w :
  let s1 := match n with Some n => at_set_completion n s | None => s end in
  let s2 := if bool_decide (at_buf s1 = []) then s1 else at_flush t s1 in
  let st' := (write_stream (at_chunk t [] true s2) (at_stream s2)).2 in
  at_inv base T s -> lossless (at_stream s) st' -> t ∈ pending_streams w -> stream_usages w !! t = None ->
  exists l evs u, st_out st' = st_out base ++ (V1 <$> l)
    /\ events (feed now t (omap as_chunk l) w) = events w ++ (pair t <$> evs ++ [Finish (Some u); EvDone])
    /\ evs = (fun ps => Delta ps.2 ps.1) <$> delta_pairs evs /\ tagged (delta_pairs evs) = T
    /\ u_prompt_tokens u = pt /\ u_completion_tokens u = default (at_completion s) n
    /\ t ∉ pending_streams (feed now t (omap as_chunk l) w).
Proof.
  intros s1 s2 st' Hi Hl Ht Hu.
  assert (at_inv base T s1 /\ at_stream s1 = at_stream s
    /\ at_completion s1 = default (at_completion s) n) as (Hi1 & Es1 & Ec1) by by destruct n.
  assert (at_completion s2 = at_completion s1) as Ec2 by by unfold s2; case_bool_decide.
  assert (writes (at_stream s1) (at_stream s2)) as W1.
  { unfold s2. case_bool_decide; [done|]. apply at_flush_writes. }
  rewrite <- Es1 in Hl. unfold st' in *. destruct (write_stream _ (at_stream s2)) as [r st2] eqn:E.
  cbn [snd] in *. apply write_stream_writes in E as [W2 Hout].
  apply lossless_split with (st2 := at_stream s2) in Hl as [L1 L2]; [|done..]. destruct (Hout L2) as [_ Ho].
  assert (at_inv base T s2 /\ at_buf s2 = []) as [(Hp & l & bs & Hol & Hb & HT) Hbuf].
  { unfold s2 in *. case_bool_decide; [done|]. split; [|done]. by apply at_flush_inv. }
  rewrite Hbuf in HT. change (tagged [(at_buf_phase s2, [])]) with (@nil (OutputPhase * byte)) in HT.
  rewrite app_nil_r in HT.
  destruct (answer_of_batches t pt l bs (at_seq s2) (at_buf_phase s2) (at_completion s2)
    (at_analysis s2) (at_final s2) now w Hb Ht Hu) as (u & Hev & Hup & Huc & Hpend).
  eexists (l ++ [_]), ((fun b => Delta b.2 b.1) <$> bs), u. rewrite delta_pairs_of.
  split; [rewrite Ho, Hol, fmap_app, app_assoc; unfold at_chunk; rewrite Hp; reflexivity|].
  split; [exact Hev|]. split; [done|]. split; [done|]. split; [done|]. split; [|exact Hpend].
  by rewrite Huc, Ec2, Ec1.
Qed.
End Answer.

Section Tasks.
Context `{C : Codec}.

(** What a generation that came to its end has passed to the callback and counted, and what
    is counted for one that did not. *)
Definition generated (d : Droid) (k : AndroidTask) (ran : bool) (pieces : list bytes) (counted : Z) : Prop :=
  if ran
  then exists out, blen out <= Z.max 0 (as_i32 (max_tokens (dt_params k)))
    /\ Forall (fun tok => llama_vocab_is_eog (dr_llama d) tok = false) out
    /\ (let text := no_nul (concat (token_piece (dr_llama d) <$> out)) in
        utf8 text -> concat pieces = text /\ counted = blen out)
  else pieces = [] /\ counted = if tk_always_count (dt_kind k) then 2 ^ 32 - 1 else 0.

Definition task_answered (d : Droid) (k : AndroidTask) (ran : bool) (l : list CommandV1)
    (now : Z) (w : World) : Prop :=
  exists pieces evs u,
    generated d k ran pieces (u_completion_tokens u)
    /\ events (feed now (dt_id k) (omap as_chunk l) w)
       = events w ++ (pair (dt_id k) <$> evs ++ [Finish (Some u); EvDone])
    /\ evs = (fun ps => Delta ps.2 ps.1) <$> delta_pairs evs
    /\ (Forall (fun tok => token_should_be_suppressed tok = false) pieces ->
        tagged (delta_pairs evs) = tagged (split_off (tk_phased (dt_kind k)) PhaseSplitter_default pieces))
    /\ u_prompt_tokens u = count_prompt_tokens d (dt_prompt k)
    /\ dt_id k ∉ pending_streams (feed now (dt_id k) (omap as_chunk l) w).

(** The chunks that follow the callbacks. *)
Lemma task_end (k : AndroidTask) pt phased pieces (n : option Z) st now w :
  let t := dt_id k in
  let s := fold_left (fun s tok => android_on_token phased t tok s) pieces (at_start phased pt st) in
  let s1 := match n with Some n => at_set_completion n s | None => s end in
  let s2 := if bool_decide (at_buf s1 = []) then s1 else at_flush t s1 in
  let st' := (write_stream (at_chunk t [] true s2) (at_stream s2)).2 in
  Forall proper pieces -> lossless st st' -> t ∈ pending_streams w -> stream_usages w !! t = None ->
  exists l evs u, st_out st' = st_out st ++ (V1 <$> l)
    /\ events (feed now t (omap as_chunk l) w) = events w ++ (pair t <$> evs ++ [Finish (Some u); EvDone])
    /\ evs = (fun ps => Delta ps.2 ps.1) <$> delta_pairs evs
    /\ (Forall (fun tok => token_should_be_suppressed tok = false) pieces ->
        tagged (delta_pairs evs) = tagged (split_off phased PhaseSplitter_default pieces))
    /\ u_prompt_tokens u = pt /\ u_completion_tokens u = default (at_completion s) n
    /\ t ∉ pending_streams (feed now t (omap as_chunk l) w).
Proof.
  intros t s s1 s2 st' Hp Hl Ht Hu.
  assert (writes st (at_stream s)) as W1 by exact (on_all_writes t phased pieces (at_start phased pt st) Hp).
  assert (writes (at_stream s) st') as W2.
  { assert (at_stream s = at_stream s1) as -> by by destruct n.
    eapply writes_trans with (st2 := at_stream s2).
    - unfold s2. case_bool_decide; [done|]. apply at_flush_writes.
    - unfold st'. destruct (write_stream _ (at_stream s2)) as [r x] eqn:E.
      by apply write_stream_writes in E as [E _]. }
  destruct (lossless_split st (at_stream s) st' W1 W2 Hl) as [L1 L2].
  assert (at_inv t pt st [] (at_start phased pt st)) as I0.
  { split; [done|]. exists [], []. cbn [at_stream at_start at_buf at_buf_phase].
    split; [by rewrite app_nil_r|done]. }
  destruct (on_all_inv t pt st [] phased pieces (at_start phased pt st) Hp L1 ltac:(by destruct phased) I0)
    as (T & Hi & HT). fold s in Hi.
  destruct (at_end t pt st T s n now w Hi L2 Ht Hu) as (l & evs & u & H1 & H2 & H3 & H4 & H5 & H6 & H7).
  exists l, evs, u. split_and!; try done. intros Hn. rewrite H4. by rewrite (HT eq_refl Hn).
Qed.

Lemma proper_concat_nil pieces : Forall proper pieces -> concat pieces = [] -> pieces = [].
Proof. intros [|p ps [Hn _] _]; [done|]. intros [? _]%app_eq_nil. done. Qed.

Lemma as_i32_bound n : in_u 32 n -> as_i32 n < 2 ^ 31.
Proof. unfold in_u, as_i32. destruct (Z.ltb_spec n (2 ^ 31)); lia. Qed.

(** What [gpuf_start_generation_async] gives a task. *)
Lemma task_generation (d : Droid) (k : AndroidTask) stop rc g :
  LlamaLaws (dr_llama d) -> prefill_batch_size (dr_llama d) <= 512 ->
  let p := dt_params k in in_u 32 (max_tokens p) ->
  gpuf_start_generation_async (dr_llama d) false false (dr_no_model d) (dr_no_vocab d) true
    (dt_prompt k) (as_i32 (max_tokens p)) (temperature p) (as_i32 (top_k p)) (top_p p)
    (repeat_penalty p) stop = Returns (rc, g) ->
  let pieces := match g with Some g => g_callbacks g | None => [] end in
  let n := if tk_always_count (dt_kind k) || (0 <? rc) then Some (wrap 32 rc) else None in
  Forall proper pieces
  /\ forall c, (pieces = [] -> c = 0) ->
     generated d k (if g is Some _ then true else false) pieces (default c n).
Proof.
  intros HL Hb p Hm Eg pieces n. destruct (dr_no_model d) eqn:Em.
  { injection Eg as <- <-. split; [constructor|]. intros c Hc. split; [done|]. unfold n.
    destruct (tk_always_count _); [done|]. by apply Hc. }
  destruct (dr_no_vocab d) eqn:Ev.
  { injection Eg as <- <-. split; [constructor|]. intros c Hc. split; [done|]. unfold n.
    destruct (tk_always_count _); [done|]. by apply Hc. }
  pose proof (generation_run (dr_llama d) (dt_prompt k) (as_i32 (max_tokens p)) (temperature p)
    (as_i32 (top_k p)) (top_p p) (repeat_penalty p) stop HL) as Hrun.
  destruct (tokenize_prompt _ _) as [tc buffer]. specialize (Hrun (or_intror Hb)).
  rewrite Eg in Hrun. destruct g as [g|].
  - apply generation_proper in Eg. split; [exact Eg|]. intros c Hc.
    destruct Hrun as (out & m & -> & Heog & Hlen & _ & _ & _ & Htext). exists out.
    split; [fold p; lia|]. split; [done|]. intros text Hu. specialize (Htext Hu). split; [done|].
    apply as_i32_bound in Hm. fold p in Hm. pose proof (blen_nonneg out).
    assert (wrap 32 (blen out) = blen out) as Hw by (apply Z.mod_small; lia).
    unfold n. rewrite Hw. destruct (Z.ltb_spec 0 (blen out)); [by rewrite orb_true_r|].
    rewrite orb_false_r. assert (out = []) as -> by (apply length_zero_iff_nil; unfold blen in *; lia).
    destruct (tk_always_count _); [done|]. apply Hc. by apply proper_concat_nil.
  - subst rc. split; [constructor|]. intros c Hc. split; [done|]. unfold n.
    destruct (tk_always_count _); [done|]. by apply Hc.
Qed.

(** [C16] From the tokens of an Android phone to the HTTP client, for each of the four task
    handlers. A task whose writes all reach the server is answered: a prompt with a NUL with
    one error; any other with chunks from which the server builds deltas, Finish with the
    number of prompt tokens, and Done. When no string of the callback is one that is
    suppressed, the text of the deltas, with the phase of every byte, is that of the strings
    split (without a phase for chat tasks of the plain worker). After a generation that came
    to its end the strings are the text of its tokens, at most as many as asked for and none
    an end marker, and Finish gives their number; a failed one is answered like an empty
    answer, where a chat task with a callback claims 2^32 - 1 tokens. *)
Theorem android_task_answered (d : Droid) (stop : nat -> bool) (k : AndroidTask) (st st' : Stream)
    (ran : option bool) (now : Z) (w : World) :
  LlamaLaws (dr_llama d) -> prefill_batch_size (dr_llama d) <= 512 -> in_u 32 (max_tokens (dt_params k)) ->
  run_android_task d stop k st = Returns (ran, st') -> lossless st st' ->
  dt_id k ∈ pending_streams w -> stream_usages w !! dt_id k = None ->
  exists l, st_out st' = st_out st ++ (V1 <$> l)
    /\ match ran with
       | None => has_nul (dt_prompt k) = true /\ answered_with_error (dt_id k) l now w
       | Some ran => has_nul (dt_prompt k) = false /\ task_answered d k ran l now w
       end.
Proof.
  intros HL Hb Hm E Hl Ht Hu. unfold run_android_task in E. destruct (has_nul (dt_prompt k)).
  { destruct (write_stream _ st) as [r st1] eqn:Ew. injection E as <- <-.
    destruct (refused_task _ _ _ _ _ _ now w Ew Hl Ht) as (l & Ho & Ha). by exists l. }
  destruct (gpuf_start_generation_async _ _ _ _ _ _ _ _ _ _ _ _ _) as [[rc g]|] eqn:Eg; [|done].
  destruct (task_generation d k _ rc g HL Hb Hm Eg) as [Hp Hg].
  set (pieces := match g with Some g => g_callbacks g | None => [] end) in *.
  set (n := if tk_always_count (dt_kind k) || (0 <? rc) then Some (wrap 32 rc) else None) in *.
  pose proof (task_end k (count_prompt_tokens d (dt_prompt k)) (tk_phased (dt_kind k)) pieces n st now w) as He.
  cbn zeta in *. set (s := fold_left _ pieces _) in *.
  assert ((if tk_always_count (dt_kind k) || (0 <? rc) then at_set_completion (wrap 32 rc) s else s)
          = match n with Some n => at_set_completion n s | None => s end) as En.
  { unfold n. by destruct (_ || _). }
  rewrite En in E. injection E as <- <-.
  destruct (He Hp Hl Ht Hu) as (l & evs & u & H1 & H2 & H3 & H4 & H5 & H6 & H7).
  exists l. split; [exact H1|]. split; [done|]. exists pieces, evs, u.
  split; [rewrite H6; apply Hg; intros Hpc; unfold s; by rewrite Hpc|]. by split_and!.
Qed.
End Tasks.

(** ** The threads *)
Section Threads.
Context `{C : Codec} (connect : Peer -> MobileControlTlsConfig -> result MobileControlStream).
Context `{H : Hex}.

Abbreviation runs := (run_droid connect).
Abbreviation turn_of := (android_thread_step connect).

(** Heartbeat and command threads, also those that have ended. *)
Definition worker_thread (t : DThread) : Prop :=
  match t with DHb _ _ | DHbConnect _ _ _ | DHbSleep _ _ _ | DBegin _ _ | DTop _ _ _ | DRead _ _ _ | DEnded => True | _ => False end.

(** What the turns of threads are about: the stop signal, the handles, the inference lock and
    the other threads. *)
Definition shared (w : DroidWorld) : option bool * option (nat * nat) * bool * list DThread :=
  (GLOBAL_STOP_SIGNAL w, GLOBAL_WORKER_HANDLES w, INFERENCE_LOCK w, d_threads w).

Lemma call_status_shared cb m w : shared (call_status_callback cb m w) = shared w.
Proof. unfold call_status_callback. destruct cb; [|done]. by destruct (has_nul m). Qed.
Lemma invoke_shared cb a m w : shared (invoke_callback cb a m w) = shared w.
Proof. apply call_status_shared. Qed.
Lemma refuse_shared i cb id w : shared (refuse_task i cb id w) = shared w.
Proof. unfold refuse_task. by rewrite invoke_shared. Qed.
Lemma task_success_shared t n w : shared (task_success t n w) = shared w.
Proof. unfold task_success. destruct (tk_chat _); by rewrite ?invoke_shared. Qed.

(** A command adds at most one thread, a waiting task. *)
Definition spawned (w w' : DroidWorld) : Prop :=
  exists l, shared w' = (GLOBAL_STOP_SIGNAL w, GLOBAL_WORKER_HANDLES w, INFERENCE_LOCK w, d_threads w ++ l)
    /\ Forall (fun t => exists k, t = DTask k) l.

Lemma spawned_same w w' : shared w' = shared w -> spawned w w'.
Proof. intros E. exists []. by rewrite app_nil_r. Qed.

Lemma spawned_from w w1 w' : shared w1 = shared w -> spawned w1 w' -> spawned w w'.
Proof. intros [= E1 E2 E3 E4] (l & E & Hl). exists l. by rewrite E, E1, E2, E3, E4. Qed.

Lemma begin_task_spawned i cb id prompt p k w : spawned w (begin_task i cb id prompt p k w).
Proof. eexists [_]. split; [reflexivity|]. apply Forall_singleton. by eexists. Qed.

Lemma cancel_shared d id w : shared (android_cancel d id w) = shared w.
Proof. unfold android_cancel. by destruct (_ && _). Qed.

(** What a command thread goes on as. *)
Definition goes_on (t : DThread) : Prop := t = DEnded \/ exists plain cb i, t = DTop plain cb i.

Lemma command_spawned d plain cb i c w t' w' :
  android_command d plain cb i c w = (t', w') -> spawned w w' /\ goes_on t'.
Proof.
  unfold android_command. set (w1 := call_status_callback cb _ w).
  assert (shared w1 = shared w) as Hw by apply call_status_shared.
  assert (forall t2 w2, shared w2 = shared w1 -> goes_on t2 ->
            (t2, w2) = (t', w') -> spawned w w' /\ goes_on t') as Hsame.
  { intros t2 w2 E Ht [= <- <-]. split; [|done]. apply spawned_same. congruence. }
  assert (goes_on (DTop plain cb i)) as Hnext by (right; by eexists _, _, _).
  assert (goes_on DEnded) as Hend by by left.
  assert (forall id p pr k,
    (DTop plain cb i, if dr_context_ptr d then begin_task i cb id p pr k
        (invoke_callback cb b!"INFERENCE_START" (b!"Task: " ++ id) w1)
      else refuse_task i cb id (invoke_callback cb b!"INFERENCE_START" (b!"Task: " ++ id) w1)) = (t', w')
    -> spawned w w' /\ goes_on t') as Htask.
  { intros id p pr k [= <- <-]. split; [|done]. destruct (dr_context_ptr d).
    - eapply spawned_from; [|apply begin_task_spawned]. by rewrite invoke_shared.
    - apply spawned_same. by rewrite refuse_shared, invoke_shared. }
  destruct c as [c|c]; [|apply Hsame; [apply invoke_shared|done]].
  destruct c; try (apply Hsame; [apply invoke_shared|done]).
  - destruct success; apply Hsame; try done; [by rewrite call_status_shared|].
    by rewrite !call_status_shared.
  - destruct error; apply Hsame; try done; apply call_status_shared.
  - apply Htask.
  - apply Htask.
  - apply Hsame; [apply cancel_shared|done].
Qed.

Lemma read_spawned d plain cb i w t' w' :
  android_read d plain cb i w = (t', w') -> spawned w w' /\ goes_on t'.
Proof.
  unfold android_read. assert (goes_on (DTop plain cb i)) as Hnext by (right; by eexists _, _, _).
  destruct (d_streams w !! i) as [st|].
  2:{ intros [= <- <-]. split; [by apply spawned_same|done]. }
  destruct (read_stream st) as [r st1]. destruct r as [c|[|e]].
  - intros E%command_spawned. destruct E as [E1 E2]. split; [|done]. by eapply spawned_from.
  - intros [= <- <-]. split; [by apply spawned_same|done].
  - intros [= <- <-]. split; [|by left]. apply spawned_same. by rewrite call_status_shared, invoke_shared.
Qed.

Lemma heartbeat_usage_shared info p w : shared (heartbeat_usage info p w).2 = shared w.
Proof. unfold heartbeat_usage. by repeat case_match. Qed.

Lemma heartbeat_begin_shared p cb info w t' w' :
  heartbeat_begin p cb info w = (t', w') ->
  shared w' = shared w /\ (t' = DHb cb info \/ exists u, t' = DHbConnect cb info u).
Proof.
  unfold heartbeat_begin. set (w1 := call_status_callback cb _ w).
  pose proof (heartbeat_usage_shared info p w1) as Hu. destruct (heartbeat_usage info p w1) as [u w2].
  unfold w1 in Hu. rewrite call_status_shared in Hu.
  repeat case_match; intros [= <- <-]; (split; [exact Hu|]); eauto.
Qed.

Lemma send_heartbeat_shared d n cb info u w t' w' :
  send_heartbeat connect d n cb info u w = (t', w') ->
  shared w' = shared w /\ (t' = DHb cb info \/ t' = DHbSleep cb info 120).
Proof.
  unfold send_heartbeat. repeat case_match; intros [= <- <-]; (split; [by rewrite call_status_shared|]); auto.
Qed.

(** How many turns a heartbeat or command thread takes at most once the stop signal is set. *)
Definition rank (t : DThread) : nat :=
  match t with
  | DHbConnect _ _ _ => 3 | DHbSleep _ _ _ | DBegin _ _ | DRead _ _ _ => 2
  | DHb _ _ | DTop _ _ _ => 1 | _ => 0
  end.

Lemma worker_turn e t w t' w' : worker_thread t -> turn_of e t w = Some (t', w') ->
  spawned w w' /\ worker_thread t' /\ (d_stopped w = true -> (rank t' <= rank t - 1)%nat).
Proof.
  assert (forall t, goes_on t -> worker_thread t /\ (rank t <= 1)%nat) as Hgo.
  { intros t0 [->|(? & ? & ? & ->)]; cbn; lia. }
  destruct t; cbn [worker_thread]; intros Ht; try done; cbn [android_thread_step android_heartbeat_step].
  - destruct (d_stopped w) eqn:Es.
    + intros [= <- <-]. split; [by apply spawned_same|]. done.
    + intros [= E]. apply heartbeat_begin_shared in E as [E Hh]. split; [by apply spawned_same|].
      destruct Hh as [->|[u ->]]; done.
  - intros [= E]. apply send_heartbeat_shared in E as [E Hh]. split; [by apply spawned_same|].
    destruct Hh as [->| ->]; cbn; (split; [done|lia]).
  - destruct left_ as [|k]; [intros [= <- <-]|destruct (d_stopped w) eqn:Es; intros [= <- <-]];
      (split; [by apply spawned_same|done || (cbn; split; [done|lia])]).
  - intros [= <- <-]. split; [apply spawned_same; apply call_status_shared|cbn; split; [done|lia]].
  - destruct (d_stopped w) eqn:Es; intros [= <- <-]; split; try by cbn.
    + apply spawned_same. apply call_status_shared.
    + by apply spawned_same.
  - intros [= E]. apply read_spawned in E as [Hs Hg]. apply Hgo in Hg as [? ?].
    split; [done|]. split; [done|]. intros _. cbn [rank]. lia.
  - intros [= <- <-]. split; [by apply spawned_same|]. cbn. split; [done|lia].
Qed.

Definition running (t : DThread) : nat := match t with DRun _ => 1 | _ => 0 end.

Lemma task_run_ends d n ms k w t' w' : task_run d n ms k w = Some (t', w') ->
  d_threads w' = d_threads w /\ INFERENCE_LOCK w' = false /\ t' = DEnded
  /\ GLOBAL_STOP_SIGNAL w' = GLOBAL_STOP_SIGNAL w /\ GLOBAL_WORKER_HANDLES w' = GLOBAL_WORKER_HANDLES w.
Proof.
  unfold task_run. destruct (d_streams w !! dt_stream k) as [st|]; [|by intros [= <- <-]].
  destruct (run_android_task _ _ k st) as [[ran st']|]; [|done]. intros [= <- E].
  assert (shared w' = (GLOBAL_STOP_SIGNAL w, GLOBAL_WORKER_HANDLES w, false, d_threads w)) as [= -> -> -> ->]; [|done].
  rewrite <- E. destruct ran; rewrite ?task_success_shared, ?invoke_shared; [|done].
  by case_bool_decide.
Qed.

(** What one turn of a thread can do to what threads share. *)
Lemma turn_effect e t w t' w' : turn_of e t w = Some (t', w') ->
  (exists l, d_threads w' = d_threads w ++ l /\ Forall (fun t => exists k, t = DTask k) l)
  /\ (GLOBAL_STOP_SIGNAL w' = GLOBAL_STOP_SIGNAL w
      \/ (GLOBAL_STOP_SIGNAL w' = (fun _ => true) <$> GLOBAL_STOP_SIGNAL w /\ t = DStop))
  /\ (GLOBAL_WORKER_HANDLES w' = GLOBAL_WORKER_HANDLES w \/ GLOBAL_WORKER_HANDLES w' = None)
  /\ (worker_thread t -> worker_thread t')
  /\ ((running t <= Nat.b2n (INFERENCE_LOCK w))%nat ->
      running t' + Nat.b2n (INFERENCE_LOCK w) = running t + Nat.b2n (INFERENCE_LOCK w'))%nat.
Proof.
  intros E.
  assert (worker_thread t -> (exists l, d_threads w' = d_threads w ++ l /\ Forall (fun t => exists k, t = DTask k) l)
    /\ (GLOBAL_STOP_SIGNAL w' = GLOBAL_STOP_SIGNAL w
        \/ (GLOBAL_STOP_SIGNAL w' = (fun _ => true) <$> GLOBAL_STOP_SIGNAL w /\ t = DStop))
    /\ (GLOBAL_WORKER_HANDLES w' = GLOBAL_WORKER_HANDLES w \/ GLOBAL_WORKER_HANDLES w' = None)
    /\ (worker_thread t -> worker_thread t')
    /\ ((running t <= Nat.b2n (INFERENCE_LOCK w))%nat ->
        running t' + Nat.b2n (INFERENCE_LOCK w) = running t + Nat.b2n (INFERENCE_LOCK w'))%nat) as Hw.
  { intros Ht. destruct (worker_turn e t w t' w' Ht E) as ((l & [= -> -> -> ->] & Hl) & Ht' & _).
    split; [by exists l|]. split; [by left|]. split; [by left|]. split; [done|]. intros _.
    by destruct t, t'. }
  destruct t as [| | | | | |k|k| |h|]; try (by apply Hw); clear Hw; cbn in E.
  - injection E as E. unfold task_lock in E. destruct (INFERENCE_LOCK w) eqn:El; injection E as <- <-;
      (split; [exists []; by rewrite app_nil_r|]); cbn; rewrite ?El; (split; [by left|]); by auto.
  - apply task_run_ends in E as (-> & -> & -> & -> & ->).
    split; [exists []; by rewrite app_nil_r|]. split; [by left|]. split; [by left|]. split; [done|].
    destruct (INFERENCE_LOCK w); cbn; lia.
  - injection E as <- <-. split; [exists []; by rewrite app_nil_r|]. cbn.
    split; [right; by destruct (GLOBAL_STOP_SIGNAL w)|]. split; [by right|]. done.
  - injection E as E. unfold stop_join in E.
    assert (shared w' = shared w /\ (worker_thread t' -> True) /\ running t' = 0%nat) as ([= -> -> -> ->] & _ & Hr).
    { destruct h as [[hb hd]|]; [destruct (_ && _)|]; injection E as <- <-; try done;
        unfold stop_finish; by destruct (ANDROID_TCP_STREAM w). }
    split; [exists []; by rewrite app_nil_r|]. split; [by left|]. split; [by left|]. split; [done|].
    cbn. lia.
Qed.

(** *** One generation at a time *)

Definition generating (w : DroidWorld) : nat := sum_list (running <$> d_threads w).

Lemma sum_app_waiting l k : Forall (fun t => exists k, t = DTask k) k ->
  sum_list (running <$> l ++ k) = sum_list (running <$> l).
Proof.
  intros Hk. rewrite fmap_app, sum_list_with_app.
  assert (sum_list (running <$> k) = 0%nat) as ->; [|lia].
  induction Hk as [|t k [x ->] _ IH]; [done|exact IH].
Qed.

Lemma running_le l j t : l !! j = Some t -> (running t <= sum_list (running <$> l))%nat.
Proof.
  intros Hj. apply (sum_list_with_in (running t) id). apply list_elem_of_fmap.
  exists t. split; [done|]. apply list_elem_of_lookup. by exists j.
Qed.

Lemma running_unique w i j t u : (generating w <= 1)%nat ->
  d_threads w !! i = Some (DRun t) -> d_threads w !! j = Some (DRun u) -> i = j.
Proof.
  unfold generating. intros Hg Hi Hj. destruct (decide (i = j)) as [|Hne]; [done|exfalso].
  pose proof (sum_insert running _ _ _ DEnded Hi) as Hs. cbn [running] in Hs.
  pose proof (running_le (<[i := DEnded]> (d_threads w)) j (DRun u)) as Hle. cbn [running] in Hle.
  rewrite list_lookup_insert_ne in Hle by done. specialize (Hle Hj). lia.
Qed.

Lemma some_running l : (0 < sum_list (running <$> l))%nat -> exists i t, l !! i = Some (DRun t).
Proof.
  induction l as [|t l IH]; cbn; [lia|]. intros Hs. destruct t as [| | | | | | |k| | |];
    try (destruct IH as (i & u & Hi); [exact Hs|]; by exists (S i), u).
  by exists 0%nat, k.
Qed.

(** The lock is held by the one generation, and the handles of the process name a heartbeat
    and a command thread, which have a stop signal. *)
Record well_run (w : DroidWorld) : Prop := {
  well_generating : generating w = Nat.b2n (INFERENCE_LOCK w);
  well_handles : forall hb hd, GLOBAL_WORKER_HANDLES w = Some (hb, hd) ->
    (exists t, d_threads w !! hb = Some t /\ worker_thread t)
    /\ exists t, d_threads w !! hd = Some t /\ worker_thread t }.

Lemma well_run_shared w w' : shared w' = shared w -> well_run w -> well_run w'.
Proof. intros [= E1 E2 E3 E4] [Hg Hh]. split; unfold generating in *; by rewrite ?E2, ?E3, ?E4. Qed.

Lemma well_run_spawn t w : worker_thread t \/ t = DStop -> well_run w -> well_run (spawn t w).
Proof.
  intros Ht [Hg Hh]. split.
  - unfold generating in *. cbn [spawn d_threads d_set_threads INFERENCE_LOCK].
    assert (running t = 0%nat) as Ht0 by (destruct Ht as [Ht| ->]; [by destruct t|done]).
    rewrite fmap_app, sum_list_with_app, Hg. cbn. rewrite Ht0. cbn. lia.
  - intros hb hd E. destruct (Hh hb hd E) as [(t1 & H1 & W1) (t2 & H2 & W2)]. cbn.
    split; eexists; (split; [by apply lookup_app_l_Some|done]).
Qed.

Lemma login_shared a p id auto tls pb n w :
  shared (perform_android_login_with_tls connect a p id auto tls pb n w).2 = shared w.
Proof. unfold perform_android_login_with_tls. by repeat case_match. Qed.

Lemma start_with_callback_well cb pb w : well_run w -> well_run (android_start_with_callback cb pb w).2.
Proof.
  intros Hw. unfold android_start_with_callback. set (w1 := invoke_callback cb _ _ _).
  assert (shared w1 = (Some false, GLOBAL_WORKER_HANDLES w, INFERENCE_LOCK w, d_threads w)) as E1.
  { unfold w1. by rewrite invoke_shared. }
  assert (well_run w1) as Hw1.
  { injection E1 as E1 E2 E3 E4. destruct Hw as [Hg Hh].
    split; unfold generating in *; by rewrite ?E2, ?E3, ?E4. }
  destruct (pb_devices pb) as [info|e]; [|done]. destruct (ANDROID_TCP_STREAM w1) as [i|]; [|done].
  cbn [snd]. eapply well_run_shared; [apply invoke_shared|].
  assert (well_run (spawn (DBegin cb i) (spawn (DHb cb (Some info)) w1))) as [Hg Hh].
  { apply well_run_spawn; [by left|]. by apply well_run_spawn; [left|]. }
  split; [exact Hg|]. cbn. intros hb hd [= <- <-]. rewrite <- app_assoc.
  split; eexists; (split; [rewrite lookup_app_r by lia|]).
  - by rewrite Nat.sub_diag.
  - done.
  - by rewrite Nat.sub_succ_l, Nat.sub_diag by lia.
  - done.
Qed.

Lemma turn_well e k t w t' w' : d_threads w !! k = Some t -> turn_of e t w = Some (t', w') ->
  well_run w -> well_run (d_set_threads (<[k := t']> (d_threads w')) w').
Proof.
  intros Hk E [Hg Hh]. destruct (turn_effect e t w t' w' E) as ((l & El & Hl) & _ & Ehs & Hwt & Hrun).
  assert (d_threads w' !! k = Some t) as Hk' by (rewrite El; by apply lookup_app_l_Some).
  split.
  - unfold generating in *. cbn.
    pose proof (sum_insert running _ _ _ t' Hk') as Hs. rewrite El, sum_app_waiting in Hs by done.
    pose proof (running_le _ _ _ Hk) as Hle. rewrite Hg in Hle. specialize (Hrun Hle). rewrite El in *. lia.
  - intros hb hd E2. cbn in E2. destruct Ehs as [Ehs|Ehs]; [|congruence]. rewrite Ehs in E2.
    destruct (Hh hb hd E2) as [(t1 & H1 & W1) (t2 & H2 & W2)]. cbn. rewrite El.
    assert (forall j u, d_threads w !! j = Some u -> worker_thread u ->
      exists u', <[k := t']> (d_threads w ++ l) !! j = Some u' /\ worker_thread u') as Hkeep.
    { intros j u Hj Wu. destruct (decide (k = j)) as [<-|Hne].
      - simplify_eq. exists t'. split; [|by apply Hwt]. apply list_lookup_insert_eq.
        rewrite length_app. apply lookup_lt_Some in Hk. lia.
      - exists u. split; [|done]. rewrite list_lookup_insert_ne by done. by apply lookup_app_l_Some. }
    split; eapply Hkeep; eauto.
Qed.

Lemma step_well o w w' : droid_step connect o w = Some w' -> well_run w -> well_run w'.
Proof.
  destruct o; cbn [droid_step].
  - intros [= <-]. apply well_run_shared, login_shared.
  - intros [= <-] Hw. unfold start_worker_tasks. destruct (ANDROID_TCP_STREAM w); [|done].
    destruct (GLOBAL_STOP_SIGNAL w); [done|]. cbn [snd].
    apply well_run_spawn; [by left|]. apply well_run_spawn; [by left|]. destruct Hw as [Hg Hh]. by split.
  - intros [= <-]. apply start_with_callback_well.
  - intros [= <-]. apply well_run_spawn. by right.
  - destruct (d_threads w !! thread) as [t|] eqn:Ek; [|by intros [= <-]].
    intros ([t' w2] & E & [= <-])%bind_Some. by apply (turn_well e thread t w t' w2).
Qed.

Lemma runs_well ops w w' : runs ops w = Some w' -> well_run w -> well_run w'.
Proof.
  revert w. induction ops as [|o ops IH]; cbn; intros w E Hw; [by injection E as <-|].
  apply bind_Some in E as (w1 & E1 & E). apply (IH w1 E). by apply (step_well o w).
Qed.

Lemma droid_start_well : well_run droid_start.
Proof. by split. Qed.

(** Android tasks take turns: after any calls of the app and any interleaving of the
    threads, at most one task generates, and the inference lock is held exactly while one does.
    A waiting task stays waiting while the lock is held and gets it when it is free; a turn
    of the task that generates ends it and frees the lock, also when its prompt was refused
    or its generation failed. *)
Theorem android_tasks_take_turns (ops : list DroidOp) (w : DroidWorld) :
  runs ops droid_start = Some w ->
  (forall i j t u, d_threads w !! i = Some (DRun t) -> d_threads w !! j = Some (DRun u) -> i = j)
  /\ (INFERENCE_LOCK w = true <-> exists i t, d_threads w !! i = Some (DRun t))
  /\ (forall k t e, d_threads w !! k = Some (DTask t) ->
        exists w', droid_step connect (DTurn k e) w = Some w'
          /\ d_threads w' !! k = Some (if INFERENCE_LOCK w then DTask t else DRun t))
  /\ (forall k t e w', d_threads w !! k = Some (DRun t) -> droid_step connect (DTurn k e) w = Some w' ->
        d_threads w' !! k = Some DEnded /\ INFERENCE_LOCK w' = false).
Proof.
  intros E. pose proof (runs_well ops _ w E droid_start_well) as Hw. pose proof Hw as [Hg _].
  split; [|split; [|split]].
  - intros i j t u. apply running_unique. rewrite Hg. destruct (INFERENCE_LOCK w); cbn; lia.
  - split.
    + intros Hl. rewrite Hl in Hg. apply some_running. unfold generating in Hg. rewrite Hg. cbn. lia.
    + intros (i & t & Hi). apply running_le in Hi. unfold generating in Hg. rewrite Hg in Hi.
      destruct (INFERENCE_LOCK w); [done|]. cbn in Hi. lia.
  - intros k t e Hk. cbn. rewrite Hk. cbn. unfold task_lock.
    destruct (INFERENCE_LOCK w); eexists; (split; [reflexivity|]); cbn;
      apply list_lookup_insert_eq; by eapply lookup_lt_Some.
  - intros k t e w' Hk. cbn. rewrite Hk. cbn. intros ([t' w2] & E2 & [= <-])%bind_Some.
    assert (d_threads w2 = d_threads w /\ INFERENCE_LOCK w2 = false /\ t' = DEnded) as (Et & El & ->).
    { apply task_run_ends in E2. tauto. }
    cbn. rewrite Et. split; [|done]. apply list_lookup_insert_eq. by eapply lookup_lt_Some.
Qed.

(** *** Stopping *)

Definition is_turn (o : DroidOp) : Prop := match o with DTurn _ _ => True | _ => False end.

Fixpoint turns_of (k : nat) (ops : list DroidOp) : nat :=
  match ops with
  | [] => 0
  | DTurn j _ :: ops => if decide (j = k) then S (turns_of k ops) else turns_of k ops
  | _ :: ops => turns_of k ops
  end.

Definition endpoint (w : DroidWorld) : option nat * option bytes * option Z * option bytes :=
  (ANDROID_TCP_STREAM w, ANDROID_SERVER_ADDR w, ANDROID_CONTROL_PORT w, ANDROID_CLIENT_ID w).

(** Neither a connection nor an address to open one. *)
Definition gone (w : DroidWorld) : Prop := endpoint w = (None, None, None, None).

Lemma call_status_endpoint cb m w : endpoint (call_status_callback cb m w) = endpoint w.
Proof. unfold call_status_callback. destruct cb; [|done]. by destruct (has_nul m). Qed.
Lemma invoke_endpoint cb a m w : endpoint (invoke_callback cb a m w) = endpoint w.
Proof. apply call_status_endpoint. Qed.

Lemma d_write_endpoint i c w : endpoint (d_write i c w) = endpoint w. Proof. done. Qed.
Lemma d_streams_endpoint l w : endpoint (d_set_streams l w) = endpoint w. Proof. done. Qed.
Lemma d_generation_endpoint f l w : endpoint (d_set_generation f l w) = endpoint w. Proof. done. Qed.
Lemma d_active_endpoint t w : endpoint (d_set_active t w) = endpoint w. Proof. done. Qed.
Lemma d_stop_endpoint s h w : endpoint (d_set_stop s h w) = endpoint w. Proof. done. Qed.
Lemma d_network_endpoint l w : endpoint (d_set_network l w) = endpoint w. Proof. done. Qed.
Lemma spawn_endpoint t w : endpoint (spawn t w) = endpoint w. Proof. done. Qed.
Create Rewrite HintDb endpoint.
Hint Rewrite call_status_endpoint invoke_endpoint d_write_endpoint d_streams_endpoint
  d_generation_endpoint d_active_endpoint d_stop_endpoint d_network_endpoint spawn_endpoint : endpoint.

Lemma command_endpoint d plain cb i c w : endpoint (android_command d plain cb i c w).2 = endpoint w.
Proof.
  unfold android_command, refuse_task, begin_task, android_cancel, handler_stop.
  repeat case_match; cbn [snd]; simplify_eq; by autorewrite with endpoint.
Qed.

Lemma read_endpoint d plain cb i w : endpoint (android_read d plain cb i w).2 = endpoint w.
Proof.
  unfold android_read, handler_stop. destruct (d_streams w !! i); [|done].
  destruct (read_stream _) as [[c|[|e]] st]; [by rewrite command_endpoint| |]; cbn [snd]; by autorewrite with endpoint.
Qed.

Lemma heartbeat_begin_endpoint p cb info w : endpoint (heartbeat_begin p cb info w).2 = endpoint w.
Proof.
  unfold heartbeat_begin. set (w1 := call_status_callback cb _ w).
  assert (endpoint w1 = endpoint w) as Hw by apply call_status_endpoint.
  destruct (heartbeat_usage info p w1) as [u w2] eqn:E.
  assert (endpoint w2 = endpoint w) as Hw2.
  { rewrite <- Hw. revert E. unfold heartbeat_usage. repeat case_match; by intros [= _ <-]. }
  by repeat case_match.
Qed.

Lemma heartbeat_endpoint d n cb info u w : endpoint (send_heartbeat connect d n cb info u w).2 = endpoint w.
Proof. unfold send_heartbeat. repeat case_match; cbn [snd]; by autorewrite with endpoint. Qed.

Lemma stop_finish_gone w : gone (stop_finish w).
Proof. unfold gone, endpoint, stop_finish. destruct (ANDROID_TCP_STREAM w) eqn:E; cbn; by rewrite ?E. Qed.

(** No turn opens a connection for commands; the end of a stop closes it and forgets where. *)
Lemma turn_endpoint e t w t' w' : turn_of e t w = Some (t', w') ->
  endpoint w' = endpoint w \/ (gone w' /\ t' = DEnded).
Proof.
  destruct t as [cb info|cb info u|cb info k|cb i|pl cb i|pl cb i|k|k| |h|]; cbn [android_thread_step android_heartbeat_step].
  - destruct (d_stopped w); intros [= E]; [by left; simplify_eq|].
    left. by rewrite <- (heartbeat_begin_endpoint (de_proc e) cb info w), E.
  - intros [= E]. left. by rewrite <- (heartbeat_endpoint (de_droid e) (de_net e) cb info u w), E.
  - destruct k; [|destruct (d_stopped w)]; intros [= <- <-]; by left.
  - intros [= <- <-]. left. apply call_status_endpoint.
  - unfold handler_stop. destruct (d_stopped w); intros [= <- <-]; left; [apply call_status_endpoint|done].
  - intros [= E]. left. by rewrite <- (read_endpoint (de_droid e) pl cb i w), E.
  - unfold task_lock. destruct (INFERENCE_LOCK w); intros [= <- <-]; by left.
  - unfold task_run, task_success. intros E. left. repeat case_match; simplify_eq; by autorewrite with endpoint.
  - intros [= <- <-]. by left.
  - unfold stop_join. repeat case_match; intros [= <- <-]; try (by left); right;
      (split; [|done]); apply stop_finish_gone.
  - intros [= <- <-]. by left.
Qed.

(** A [stop_global_worker] that has given the signal and waits, or is done. *)
Definition joining (h : option (nat * nat)) (t : DThread) (w : DroidWorld) : Prop :=
  t = DJoin h \/ (t = DEnded /\ gone w).

(** One turn after the signal. *)
Lemma stopped_step o w w1 :
  is_turn o -> GLOBAL_STOP_SIGNAL w = Some true -> droid_step connect o w = Some w1 ->
  GLOBAL_STOP_SIGNAL w1 = Some true
  /\ forall k t, d_threads w !! k = Some t -> exists t1, d_threads w1 !! k = Some t1
       /\ (worker_thread t -> worker_thread t1 /\ (rank t1 <= rank t - turns_of k [o])%nat)
       /\ (forall h, joining h t w -> joining h t1 w1).
Proof.
  destruct o as [| | | |j e]; try done. intros _ Hs E. cbn in E.
  destruct (d_threads w !! j) as [u|] eqn:Hj.
  2:{ injection E as <-. split; [done|]. intros k t Ht. exists t. split; [done|]. split; [|done].
      intros Hw. split; [done|]. cbn. rewrite decide_False by congruence. lia. }
  apply bind_Some in E as ([u' w2] & E1 & [= <-]).
  destruct (turn_effect e u w u' w2 E1) as ((l & El & _) & Hst & _).
  assert (gone w -> gone w2) as Hgone.
  { destruct (turn_endpoint e u w u' w2 E1) as [Ee|[Hg _]]; [|done]. unfold gone. by rewrite Ee. }
  split; [cbn; destruct Hst as [->|[-> _]]; by rewrite Hs|]. intros k t Ht. cbn. rewrite El.
  destruct (decide (j = k)) as [<-|Hne].
  - simplify_eq. exists u'. split.
    { apply list_lookup_insert_eq. rewrite length_app. apply lookup_lt_Some in Hj. lia. }
    split.
    + intros Hw. destruct (worker_turn e _ w u' w2 Hw E1) as (_ & Hw' & Hr). split; [done|].
      assert (d_stopped w = true) as Hd by by unfold d_stopped; rewrite Hs. specialize (Hr Hd). lia.
    + intros h [->|[-> Hg]].
      * injection E1 as E1. pose proof (turn_endpoint e (DJoin h) w u' w2 ltac:(cbn; by rewrite E1)) as Hte.
        unfold stop_join in E1. repeat case_match; injection E1 as <- <-; try (by left); right; (split; [done|]);
          apply stop_finish_gone.
      * injection E1 as <- <-. by right.
  - exists t. split; [rewrite list_lookup_insert_ne by done; by apply lookup_app_l_Some|].
    split; [intros Hw; split; [done|lia]|]. intros h [->|[-> Hg]]; [by left|right]. split; [done|].
    by apply Hgone.
Qed.

Lemma stopped_turns ops w w1 :
  Forall is_turn ops -> GLOBAL_STOP_SIGNAL w = Some true -> runs ops w = Some w1 ->
  GLOBAL_STOP_SIGNAL w1 = Some true
  /\ forall k t, d_threads w !! k = Some t -> exists t1, d_threads w1 !! k = Some t1
       /\ (worker_thread t -> worker_thread t1 /\ (rank t1 <= rank t - turns_of k ops)%nat)
       /\ (forall h, joining h t w -> joining h t1 w1).
Proof.
  intros Hops. revert w. induction Hops as [|o ops Ho Hops IH]; intros w Hs E; cbn in E.
  { injection E as <-. split; [done|]. intros k t Ht. exists t. split; [done|]. split; [|done].
    intros Hw. split; [done|cbn; lia]. }
  apply bind_Some in E as (w2 & E1 & E). destruct (stopped_step o w w2 Ho Hs E1) as (Hs2 & H2).
  destruct (IH w2 Hs2 E) as (Hs1 & H1). split; [done|]. intros k t Ht.
  destruct (H2 k t Ht) as (t2 & F1 & F2 & F3). destruct (H1 k t2 F1) as (t1 & G1 & G2 & G3).
  exists t1. split; [done|]. split; [|auto]. intros Hw. destruct (F2 Hw) as [Hw2 Hr2].
  destruct (G2 Hw2) as [Hw1 Hr1]. split; [done|]. destruct o; try done. cbn [turns_of] in *. case_decide; lia.
Qed.

Lemma run_droid_app l k w : runs (l ++ k) w = runs l w ≫= runs k.
Proof.
  revert w. induction l as [|o l IH]; intros w; cbn; [done|].
  destruct (droid_step connect o w) as [w1|]; [apply IH|done].
Qed.

(** [C32] Stopping works on Android. Once a [stop_global_worker] has given the signal, then
    however the threads are scheduled, a heartbeat or command thread ends in at most three
    turns of its own; when the two that the process knows have ended the stop itself ends at
    its next turn, and the process has neither a connection for commands nor an address. It
    takes the handles of [android_start_with_callback] (the plain start keeps none). *)
Theorem android_stop_completes (before ops : list DroidOp) (w w' : DroidWorld) (j hb hd : nat) (e e' : DroidEnv) :
  runs before droid_start = Some w ->
  d_threads w !! j = Some DStop -> GLOBAL_STOP_SIGNAL w <> None -> GLOBAL_WORKER_HANDLES w = Some (hb, hd) ->
  Forall is_turn ops -> (3 <= turns_of hb ops)%nat -> (3 <= turns_of hd ops)%nat ->
  runs (DTurn j e :: ops ++ [DTurn j e']) w = Some w' ->
  d_threads w' !! hb = Some DEnded /\ d_threads w' !! hd = Some DEnded /\ d_threads w' !! j = Some DEnded
  /\ get_worker_status_android w' = b!"Worker not available" /\ gone w'.
Proof.
  intros Eb Hj Hs Hh Hops Hhb Hhd E.
  destruct (runs_well before _ w Eb droid_start_well) as [_ Hwell].
  destruct (Hwell hb hd Hh) as [(t1 & H1 & W1) (t2 & H2 & W2)].
  cbn [runs run_droid] in E. apply bind_Some in E as (w1 & E1 & E).
  cbn in E1. rewrite Hj in E1. injection E1 as E1.
  assert (GLOBAL_STOP_SIGNAL w1 = Some true) as Hs1.
  { rewrite <- E1. cbn. by destruct (GLOBAL_STOP_SIGNAL w). }
  assert (forall k t, d_threads w !! k = Some t -> worker_thread t -> d_threads w1 !! k = Some t) as Hk1.
  { intros k t Hk Ht. rewrite <- E1. cbn. rewrite list_lookup_insert_ne; [done|].
    intros ->. by simplify_eq. }
  assert (d_threads w1 !! j = Some (DJoin (Some (hb, hd)))) as Hj1.
  { rewrite <- E1. cbn. rewrite Hh. apply list_lookup_insert_eq. by eapply lookup_lt_Some. }
  rewrite run_droid_app in E. apply bind_Some in E as (w2 & E2 & E).
  destruct (stopped_turns ops w1 w2 Hops Hs1 E2) as (Hs2 & Hk2).
  assert (forall k t, d_threads w1 !! k = Some t -> worker_thread t -> (3 <= turns_of k ops)%nat ->
            d_threads w2 !! k = Some DEnded) as Hend.
  { intros k t Hk Ht Hn. destruct (Hk2 k t Hk) as (t' & F1 & F2 & _). destruct (F2 Ht) as [F3 F4].
    assert (rank t <= 3)%nat by by destruct t; cbn; lia. rewrite F1. destruct t'; cbn in *; try done; lia. }
  pose proof (Hend hb t1 (Hk1 _ _ H1 W1) W1 Hhb) as Hb2.
  pose proof (Hend hd t2 (Hk1 _ _ H2 W2) W2 Hhd) as Hd2.
  destruct (Hk2 j _ Hj1) as (tj & Fj & _ & Hjoin). specialize (Hjoin (Some (hb, hd)) (or_introl eq_refl)).
  assert (d_threads w' = <[j := DEnded]> (d_threads w2) /\ gone w') as [Et Hg].
  { cbn in E. rewrite Fj in E. destruct Hjoin as [->|[-> Hg]]; cbn in E.
    - unfold thread_over in E. rewrite Hb2, Hd2 in E. cbn in E. injection E as <-.
      split; [|apply (stop_finish_gone w2)]. cbn. unfold stop_finish. by destruct (ANDROID_TCP_STREAM w2).
    - injection E as <-. by split. }
  assert (forall k, d_threads w2 !! k = Some DEnded -> d_threads w' !! k = Some DEnded) as Hkeep.
  { intros k Hk. rewrite Et. destruct (decide (j = k)) as [<-|Hne].
    - apply list_lookup_insert_eq. by eapply lookup_lt_Some.
    - by rewrite list_lookup_insert_ne. }
  split; [by apply Hkeep|]. split; [by apply Hkeep|]. split.
  { rewrite Et. apply list_lookup_insert_eq. by eapply lookup_lt_Some. }
  split; [|done]. unfold get_worker_status_android. by injection Hg as -> _ _ _.
Qed.
End Threads.

(** ** What is lost *)
Section Lost.
Context `{C : Codec} (connect : Peer -> MobileControlTlsConfig -> result MobileControlStream).
Context `{H : Hex}.

(** Every task that is read becomes the active one, also while another generates: cancelling
    the one that waits stops the one that runs, cancelling the one that runs does nothing, and
    the one that waits then runs in full, since its generation lowers the flag. *)
Lemma cancel_stops_another_task d i cb t1 t2 prompt p k w :
  t1 <> t2 -> dr_context_ptr d = true -> INFERENCE_LOCK w = true -> GENERATION_STOP_FLAG w = false ->
  let w := begin_task i cb t2 prompt p k w in
  GENERATION_STOP_FLAG (android_cancel d t1 w) = false
  /\ GENERATION_STOP_FLAG (android_cancel d t2 w) = true
  /\ forall task w2, has_nul (dt_prompt task) = false -> INFERENCE_LOCK w2 = false ->
       GENERATION_STOP_FLAG (task_lock task w2).2 = false.
Proof.
  intros Hne Hd Hl Hf. cbn zeta. unfold android_cancel. rewrite Hd. cbn [ANDROID_ACTIVE_TASK_ID begin_task spawn].
  rewrite bool_decide_false by (cbn; congruence). rewrite bool_decide_true by done. split; [exact Hf|].
  split; [done|]. intros task w2 Hn Hl2. unfold task_lock. by rewrite Hl2, Hn.
Qed.

(** Once there is a stop signal it stays, and the plain start is refused for ever: a worker
    started by it cannot be started again after a stop. *)
Lemma plain_start_once ops w w' : GLOBAL_STOP_SIGNAL w <> None -> run_droid connect ops w = Some w' ->
  ANDROID_TCP_STREAM w' <> None ->
  start_worker_tasks w' = (Err b!"Failed to set stop signal", w').
Proof.
  intros Hs E. assert (GLOBAL_STOP_SIGNAL w' <> None) as Hs'.
  { revert w Hs E. induction ops as [|o ops IH]; intros w Hs E; cbn in E; [by injection E as <-|].
    apply bind_Some in E as (w1 & E1 & E). apply (IH w1); [|exact E].
    destruct o; cbn in E1.
    - injection E1 as <-. by pose proof (login_shared connect server_addr control_port client_id auto_models tls pb n w) as [= -> _ _ _].
    - injection E1 as <-. unfold start_worker_tasks. destruct (ANDROID_TCP_STREAM w); [|done].
      destruct (GLOBAL_STOP_SIGNAL w) eqn:Eg; cbn; congruence.
    - injection E1 as <-. unfold android_start_with_callback. set (w1 := invoke_callback cb _ _ _).
      assert (shared w1 = (Some false, GLOBAL_WORKER_HANDLES w, INFERENCE_LOCK w, d_threads w)) as [= E1 _ _ _].
      { unfold w1. by rewrite invoke_shared. }
      destruct (pb_devices pb); [|cbn [snd]; by rewrite E1].
      destruct (ANDROID_TCP_STREAM w1); [|cbn [snd]; by rewrite E1]. cbn [snd].
      match goal with |- GLOBAL_STOP_SIGNAL (invoke_callback ?cb ?a ?m ?w2) <> None =>
        assert (GLOBAL_STOP_SIGNAL (invoke_callback cb a m w2) = GLOBAL_STOP_SIGNAL w2) as ->
          by exact (f_equal (fun x => x.1.1.1) (invoke_shared cb a m w2)) end.
      change (GLOBAL_STOP_SIGNAL w1 <> None). by rewrite E1.
    - by injection E1 as <-.
    - destruct (d_threads w !! thread) as [t|]; [|by injection E1 as <-].
      apply bind_Some in E1 as ([t' w2] & E1 & [= <-]). cbn.
      destruct (turn_effect connect e t w t' w2 E1) as (_ & [->|[-> _]] & _); [done|].
      by destruct (GLOBAL_STOP_SIGNAL w). }
  intros Ht. unfold start_worker_tasks. destruct (ANDROID_TCP_STREAM w'); [|done].
  by destruct (GLOBAL_STOP_SIGNAL w').
Qed.

(** The heartbeat thread knows nothing of the command thread: when that has ended, by a failed
    read or a refused login, heartbeats still go out, each on a fresh connection and with the
    client's id, so the server counts a phone as alive that will not get any task. *)
Lemma lost_phone_keeps_reporting d n p cb info addr port w :
  d_stopped w = false -> ANDROID_SERVER_ADDR w = Some addr -> ANDROID_CONTROL_PORT w = Some port ->
  (exists u w1, android_heartbeat_step connect d n p (DHb cb info) w = (DHbConnect cb info u, w1)
     /\ endpoint w1 = endpoint w)
  /\ forall u st, connect (n_peer n) (ANDROID_CONTROL_TLS w) = Ok st -> n_fails n 0%nat = false ->
     (forall c e, write_command_sync c <> Err e) ->
     exists w' st', android_heartbeat_step connect d n p (DHbConnect cb info u) w = (DHbSleep cb info 120, w')
       /\ d_streams w' = d_streams w ++ [st']
       /\ exists k m t l x, st_out st' = V1 (Heartbeat (client_id_or_zeros w) u k m t l) :: x.
Proof.
  intros Hs Ha Hp. split; cbn [android_heartbeat_step].
  - rewrite Hs. pose proof (heartbeat_begin_endpoint p cb info w) as He.
    unfold heartbeat_begin in *. set (w1 := call_status_callback cb _ w) in *.
    destruct (heartbeat_usage info p w1) as [u w2] eqn:E.
    assert (endpoint w2 = endpoint w) as Hw2.
    { transitivity (endpoint w1); [|apply call_status_endpoint]. revert E. unfold heartbeat_usage.
      repeat case_match; by intros [= _ <-]. }
    assert (ANDROID_SERVER_ADDR w2 = Some addr /\ ANDROID_CONTROL_PORT w2 = Some port) as [-> ->].
    { injection Hw2 as _ -> -> _. done. }
    exists u, w2. done.
  - intros u st Hc Hf Hw. unfold send_heartbeat. rewrite Hc. set (hb := android_heartbeat info u w).
    assert (exists st2, write_stream hb (new_stream ByReconnect n) = (Ok (), st2) /\ st_out st2 = [hb])
      as (st2 & -> & Ho).
    { unfold write_stream. destruct (write_command_sync hb) eqn:Ew; [|by destruct (Hw hb e)].
      cbn. rewrite Hf. by eexists. }
    set (st3 := match info with Some _ => _ | None => st2 end). eexists _, (shutdown st3).
    split; [reflexivity|]. split.
    + unfold call_status_callback. destruct cb; [|done]. by destruct (has_nul _).
    + assert (exists x, st_out st3 = hb :: x) as [x Ex].
      { unfold st3. destruct info; [|by exists []]. unfold write_stream.
        destruct (write_command_sync _); [destruct (st_shut st2 || _)|]; cbn; rewrite Ho; by eexists. }
      cbn. rewrite Ex. unfold hb, android_heartbeat. by destruct info; eexists _, _, _, _, _.
Qed.
End Lost.

(** The traffic of a heartbeat is what the phone has sent and received since its first
    heartbeat, not since the one before. *)
Lemma network_usage_since_start p0 :
  get_network_usage p0 None = ((0, 0), Some (net_totals (proc_net_dev p0)))
  /\ forall p, let '(rx0, tx0) := net_totals (proc_net_dev p0) in
       let '(rx, tx) := net_totals (proc_net_dev p) in
       get_network_usage p (Some (rx0, tx0)) = ((Z.max 0 (rx - rx0), Z.max 0 (tx - tx0)), Some (rx0, tx0)).
Proof.
  unfold get_network_usage. split.
  - destruct (net_totals _) as [rx tx]. cbn. by rewrite !Z.leb_refl, !Z.sub_diag.
  - intros p. destruct (net_totals (proc_net_dev p0)) as [rx0 tx0]. destruct (net_totals _) as [rx tx]. cbn.
    destruct (Z.leb_spec rx0 rx), (Z.leb_spec tx0 tx); repeat f_equal; lia.
Qed.

(** ** Concrete runs *)

(** Every frame is a task named by its bytes. *)
Definition task_codec : Codec := {|
  encode_to_vec := fun _ => Some [];
  decode_from_slice := fun b => Some (V1 (InferenceTask b b!"hi" (mkSampling 5 0 40 0 0 0 0)), length b) |}.
Definition task_net : Net :=
  mkNet (mkPeer true [] true) (Some <$> be_bytes 4 1 ++ b!"a" ++ be_bytes 4 1 ++ b!"b") (fun _ => false).
Definition demo_droid : Droid := mkDroid true false false None (byte_llama 0) None (fun _ _ => None).
Definition demo_probes : Probes := mkProbes (Ok (20, 30, 40)) (Ok DevicesInfo_default).
Definition demo_env : DroidEnv :=
  mkDroidEnv demo_droid task_net (mkProc None None None None) 0 12.

Abbreviation droid_run ops := (run_droid (C := task_codec) demo_connect ops droid_start).
Definition demo_task (kind : TaskKind) : AndroidTask :=
  mkTask b!"t" b!"hi" (mkSampling 5 0 40 0 0 0 0) kind 0 None.

(** Login, start, the command thread reads both tasks, the first gets the lock. *)
Definition two_tasks : list DroidOp :=
  DLogin b!"server" 17000 [] false plaintext demo_probes task_net :: DStartCallback None demo_probes
  :: ((fun k => DTurn k demo_env) <$> [1; 1; 1; 1; 1; 2]%nat).

Lemma two_tasks_run : exists w, droid_run two_tasks = Some w
  /\ (INFERENCE_LOCK w, running <$> d_threads w) = (true, [0; 0; 1; 0]%nat)
  /\ exists t, d_threads w !! 3%nat = Some (DTask t).
Proof. eexists. split; [vm_compute; reflexivity|]. split; [vm_compute; reflexivity|]. vm_compute. by eexists. Qed.

Lemma android_tasks_take_turns_witness :
  exists w, droid_run two_tasks = Some w /\ exists i t, d_threads w !! i = Some (DRun t).
Proof.
  destruct two_tasks_run as (w & E & [= Hl _] & _). exists w. split; [exact E|].
  apply (android_tasks_take_turns (C := task_codec) demo_connect two_tasks w E). exact Hl.
Defined.

Definition hb_and_command : list DroidOp :=
  (fun k => DTurn k demo_env) <$> [0; 1; 0; 1; 0; 1]%nat.

Lemma android_stop_completes_witness :
  exists w, droid_run (two_tasks ++ [DStopWorker; DTurn 4 demo_env] ++ hb_and_command ++ [DTurn 4 demo_env]) = Some w
    /\ get_worker_status_android w = b!"Worker not available".
Proof.
  assert (exists w0 w, droid_run (two_tasks ++ [DStopWorker]) = Some w0
    /\ run_droid (C := task_codec) demo_connect
         (DTurn 4 demo_env :: hb_and_command
          ++ [DTurn 4 demo_env]) w0 = Some w
    /\ d_threads w0 !! 4%nat = Some DStop /\ GLOBAL_STOP_SIGNAL w0 = Some false
    /\ GLOBAL_WORKER_HANDLES w0 = Some (0%nat, 1%nat)) as (w0 & w & E0 & E & H1 & H2 & H3).
  { eexists _, _. split; [vm_compute; reflexivity|]. split; [vm_compute; reflexivity|].
    split_and!; vm_compute; reflexivity. }
  exists w. split.
  - change (two_tasks ++ _) with (two_tasks ++ [DStopWorker]
      ++ (DTurn 4 demo_env :: hb_and_command ++ [DTurn 4 demo_env])).
    rewrite app_assoc, run_droid_app, E0. exact E.
  - apply (android_stop_completes (C := task_codec) demo_connect (two_tasks ++ [DStopWorker])
      hb_and_command w0 w 4 0 1 demo_env demo_env);
      [exact E0|exact H1|by rewrite H2|exact H3|by repeat constructor|vm_compute; lia|vm_compute; lia|exact E].
Defined.

Abbreviation android_run kind :=
  (run_android_task (C := task_codec) demo_droid no_stop (demo_task kind) demo_stream).

Lemma android_task_answered_witness :
  exists st' l, android_run (mkKind false true) = Returns (Some true, st') /\ st_out st' = V1 <$> l
    /\ task_answered demo_droid (demo_task (mkKind false true)) true l 0 (set_streams {[b!"t"]} (scheduler_new ∅)).
Proof.
  assert (exists st', android_run (mkKind false true) = Returns (Some true, st') /\ lossless demo_stream st')
    as (st' & E & Hl).
  { eexists. split; [vm_compute; reflexivity|]. vm_compute. reflexivity. }
  destruct (android_task_answered (C := task_codec) demo_droid no_stop (demo_task (mkKind false true))
    demo_stream st' (Some true) 0 (set_streams {[b!"t"]} (scheduler_new ∅))) as (l & Ho & _ & Ha);
    [apply byte_laws|vm_compute; discriminate|vm_compute; split; congruence|exact E|exact Hl|
      cbn; by apply elem_of_singleton_2|apply lookup_empty|].
  exists st', l. split; [exact E|]. split; [exact Ho|exact Ha].
Defined.

(** Suppression takes away text of the answer: what waits in the buffer when a suppressed
    string comes is dropped, and so is everything up to the next string with "final". *)
Lemma suppression_drops_text :
  let s := fold_left (fun s tok => android_on_token (C := task_codec) true b!"t" tok s)
             [b!"Hello"; b!" We need to"; b!" buy milk"; b!" and finally"; b!" go home."] (at_start true 0 demo_stream) in
  omap (fun c => match c with V1 (InferenceResultChunk _ _ d _ _ _ _ _ _ _) => Some d | _ => None end)
    (st_out (at_stream s)) = [b!" go home."] /\ at_buf s = [].
Proof. vm_compute. split; reflexivity. Qed.

(** A prompt of nothing fails before the first token; the HTTP client gets an empty answer. *)
Lemma failed_chat_claims_tokens :
  (fun r => match r with Returns (ran, st) => (ran, st_out st) | Aborts => (None, []) end)
    (run_android_task (C := task_codec) (mkDroid true true false None (byte_llama 0) None (fun _ _ => None))
       no_stop (demo_task (mkKind false true)) demo_stream)
  = (Some false, [V1 (InferenceResultChunk b!"t" 0 [] Final true None 0 (2 ^ 32 - 1) 0 0)]).
Proof. vm_compute. reflexivity. Qed.

(** The plain start keeps no handles, so a stop does not wait for its heartbeat thread: it
    forgets that the connection was to use TLS when that thread has just read the address, and
    the thread connects in plaintext and sends its heartbeat. *)
Lemma plain_stop_drops_tls :
  (fun w => (tls_enabled (ANDROID_CONTROL_TLS w), d_threads w !! 0%nat))
    <$> droid_run [DLogin b!"server" 17000 [] false (mkTlsConfig true None (Some b!"server") (Some b!"pin"))
                     demo_probes task_net;
                   DStartPlain; DTurn 0 demo_env; DStopWorker; DTurn 2 demo_env; DTurn 2 demo_env]
  = Some (false, Some (DHbConnect None None (mkSystemInfo 25 45 60 0 0))).
Proof. vm_compute. reflexivity. Qed.
