(* ===== verification/RemoteWorker.v ===== *)
(** * The C and Java interface of a phone's worker ([gpuf-c/src/lib.rs], [jni_remote_worker.rs])

    The exported functions an app calls, over an interface [Platform] of what they need from
    the worker: [SdkWorker] on iOS and [AndroidSdk] on Android are its instances. A C string is
    [None] for a null pointer, else the bytes before its NUL. The functions for Java exist on
    Android only; a Java string is what the JNI gives for it, if it gives text. *)

From S2P Require Import Prelude Wire Text Ids LlamaEngine Mobile MobileTls SdkWorker AndroidSdk ModelSwap.
From Stdlib Require Import ZArith Lia String.
From Stdlib Require Import Strings.Byte.
From stdpp Require Import base list gmap.

Local Open Scope Z_scope.
Import Framing.

(** ** What the exports need of a platform *)

Abbreviation CString := (option bytes).

(** [pl_login]: with the models flag false, in plaintext or with a configuration. [pl_tasks]: without a
    callback argument, or with one that may be null. [pl_stop] on Android is the beginning of
    the stop, which a thread completes before the export returns. *)
Class Platform (W : Type) := {
  pl_login : option MobileControlTlsConfig -> bytes -> Z -> bytes -> W -> result () * W;
  pl_tasks : option (option Z) -> W -> result () * W;
  pl_register : option Z -> Z -> W -> Z * W;
  pl_stop : W -> W;
  pl_status : W -> bytes;
  (* what the worker has been told *)
  pl_endpoint : W -> option bytes * option Z * MobileControlTlsConfig }.

(** A login that succeeds leaves a running worker with what it was given, one that fails does
    not change the endpoint; the status is short text; stopping gives the signal. *)
Class PlatformLaws `(P : Platform W) (connects : MobileControlTlsConfig -> Prop) : Prop := {
  login_ok tls addr port id w w' : pl_login tls addr port id w = (Ok (), w') ->
    connects (default plaintext tls) /\ pl_status w' = b!"Worker is running"
    /\ pl_endpoint w' = (Some addr, Some port, default plaintext tls);
  login_err tls addr port id w w' e : pl_login tls addr port id w = (Err e, w') ->
    pl_endpoint w' = pl_endpoint w;
  tasks_endpoint cb w : pl_endpoint (pl_tasks cb w).2 = pl_endpoint w;
  status_short w : has_nul (pl_status w) = false /\ blen (pl_status w) < 1023
    /\ from_utf8 (pl_status w) = Some (pl_status w) }.

Section Instances.
Context `{C : Codec} `{H : Hex} (connect : Peer -> MobileControlTlsConfig -> result MobileControlStream).

(** [n]: what the network does at a login. *)
Definition ios_platform (n : Net) : Platform SdkWorld := {|
  pl_login tls addr port id w :=
    match tls with
    | None => perform_login connect IOS addr port id false n w
    | Some tls => perform_login_with_tls connect IOS addr port id false tls n w
    end;
  pl_tasks cb w := start_worker_tasks_with_callback_ptr (default None cb) w;
  pl_register := register_remote_worker_callback;
  pl_stop := stop_global_worker;
  pl_status := get_worker_status;
  pl_endpoint w := (WORKER_SERVER_ADDR w, WORKER_CONTROL_PORT w, WORKER_CONTROL_TLS w) |}.

Definition android_platform (pb : Probes) (n : Net) : Platform DroidWorld := {|
  pl_login tls addr port id w :=
    match tls with
    | None => perform_android_login connect addr port id false pb n w
    | Some tls => perform_android_login_with_tls connect addr port id false tls pb n w
    end;
  pl_tasks cb w :=
    match cb with
    | None => start_worker_tasks w
    | Some cb => android_start_with_callback cb pb w
    end;
  pl_register _ _ w := (-1, w);
  pl_stop := spawn DStop;
  pl_status := get_worker_status_android;
  pl_endpoint w := (ANDROID_SERVER_ADDR w, ANDROID_CONTROL_PORT w, ANDROID_CONTROL_TLS w) |}.
End Instances.

(** ** The C interface *)
Section Exports.
Context {W : Type} `{P : Platform W}.
Context (open_error : bytes -> option bytes) (pem_certs : bytes -> result (list bytes))
  (server_name_ok : bytes -> bool).

(** A pointer checked for null and read as text, which the export does itself. *)
Definition c_text (s : CString) : option bytes := s ≫= from_utf8.

Definition known_worker_type (s : bytes) : bool := bool_decide (s = b!"TCP") || bool_decide (s = b!"WS").

Definition login_code (r : result () * W) : Z * W :=
  match r with (Ok _, w) => (0, w) | (Err _, w) => (-1, w) end.

(** [control_port as u16]; the port of the proxy is not used. *)
Definition start_remote_worker (server_addr : CString) (control_port proxy_port : Z)
    (worker_type client_id : CString) (w : W) : Z * W :=
  match c_text server_addr with
  | None => (-1, w)
  | Some server_addr =>
      match c_text worker_type with
      | None => (-1, w)
      | Some worker_type =>
          match c_text client_id with
          | None => (-1, w)
          | Some client_id =>
              if negb (known_worker_type worker_type) then (-1, w)
              else login_code (pl_login None server_addr (wrap 16 control_port) client_id w)
          end
      end
  end.

Definition start_remote_worker_with_tls (server_addr : CString) (control_port proxy_port : Z)
    (worker_type client_id ca_cert_path control_tls_server_name cert_sha256_pin : CString) (w : W)
    : Z * W :=
  match required_c_string server_addr with
  | inr code => (code, w)
  | inl server_addr =>
  match required_c_string worker_type with
  | inr code => (code, w)
  | inl worker_type =>
  match required_c_string client_id with
  | inr code => (code, w)
  | inl client_id =>
  match optional_c_string ca_cert_path with
  | inr code => (code, w)
  | inl ca_cert_path =>
  match optional_c_string control_tls_server_name with
  | inr code => (code, w)
  | inl server_name =>
  let server_name := default server_addr server_name in
  match optional_c_string cert_sha256_pin with
  | inr code => (code, w)
  | inl cert_sha256_pin =>
      if negb (known_worker_type worker_type) then (-1, w)
      else match from_inputs open_error pem_certs server_name_ok true ca_cert_path (Some server_name) cert_sha256_pin with
           | Err _ => (-2, w)
           | Ok tls => login_code (pl_login (Some tls) server_addr (wrap 16 control_port) client_id w)
           end
  end end end end end end.

Definition start_remote_worker_tasks (w : W) : Z * W := login_code (pl_tasks None w).

Definition start_remote_worker_tasks_with_callback_ptr (callback : option Z) (w : W) : Z * W :=
  login_code (pl_tasks (Some callback) w).

Definition gpuf_register_remote_worker_callback (callback : option Z) (user_data : Z) (w : W) : Z * W :=
  pl_register callback user_data w.

Definition stop_remote_worker (w : W) : Z * W := (0, pl_stop w).

(** The status and its NUL are copied to the front of the buffer ([None]: null), if they fit. *)
Definition get_remote_worker_status (buffer : option bytes) (buffer_size : Z) (w : W) : Z * option bytes :=
  match buffer with
  | None => (-1, buffer)
  | Some buf =>
      if buffer_size =? 0 then (-1, buffer)
      else
        let status := pl_status w in
        if has_nul status then (-1, buffer)
        else
          let status_bytes := status ++ [Byte.x00] in
          if buffer_size <? blen status_bytes then (-1, buffer)
          else (0, Some (status_bytes ++ drop (length status_bytes) buf))
  end.

(** ** The Java interface *)

(** [get_string], [to_str], then [CString::new], which refuses a NUL. *)
Definition jstring_to_cstring (value : JString) : option bytes :=
  value ≫= fun s => if has_nul s then None else Some s.

(** A function pointer as a number; 0 is none. *)
Definition status_callback_from_jlong (callback_function_ptr : Z) : option Z :=
  if callback_function_ptr =? 0 then None else Some callback_function_ptr.

(** [RN_JAVA_VM], set once, and the emitter of [RN_CALLBACK_EMITTER]. *)
Record RnState := mkRn { RN_JAVA_VM : option Z; RN_CALLBACK_EMITTER : option Z }.

(** [vm], [emitter]: the Java VM and the global reference, if they can be had. *)
Definition registerCallbackEmitter (vm emitter : option Z) (s : RnState) : Z * RnState :=
  match vm with
  | None => (-1, s)
  | Some vm =>
      let s := mkRn (match RN_JAVA_VM s with Some v => Some v | None => Some vm end) (RN_CALLBACK_EMITTER s) in
      match emitter with
      | None => (-1, s)
      | Some e => (0, mkRn (RN_JAVA_VM s) (Some e))
      end
  end.

(** What is emitted, and to whom; [works]: the thread attaches and the string is made. *)
Definition rn_emit_status (works : bool) (message : bytes) (s : RnState) : option (Z * bytes) :=
  match RN_JAVA_VM s, RN_CALLBACK_EMITTER s with
  | Some _, Some e => if works then Some (e, message) else None
  | _, _ => None
  end.

Definition rn_status_callback (works : bool) (message : CString) (s : RnState) : option (Z * bytes) :=
  message ≫= fun m => rn_emit_status works (from_utf8_lossy m) s.

(** [native]: the address of [rn_status_callback]. *)
Definition startRemoteWorkerTasksWithJavaCallback (native : Z) (s : RnState) (w : W) : Z * W :=
  match RN_CALLBACK_EMITTER s with
  | None => (-1, w)
  | Some _ => start_remote_worker_tasks_with_callback_ptr (Some native) w
  end.

Definition validateMobileTlsPolicy (ca_cert_path server_name cert_sha256_pin : JString) : Z :=
  match jstring_to_cstring ca_cert_path, jstring_to_cstring server_name, jstring_to_cstring cert_sha256_pin with
  | Some ca, Some name, Some pin =>
      gpuf_validate_mobile_tls_policy open_error pem_certs server_name_ok (Some ca) (Some name) (Some pin)
  | _, _, _ => -5
  end.

Definition startRemoteWorker (server_addr : JString) (control_port proxy_port : Z)
    (worker_type client_id : JString) (w : W) : Z * W :=
  match jstring_to_cstring server_addr, jstring_to_cstring worker_type, jstring_to_cstring client_id with
  | Some a, Some t, Some id => start_remote_worker (Some a) control_port proxy_port (Some t) (Some id) w
  | _, _, _ => (-1, w)
  end.

Definition startRemoteWorkerWithTls (server_addr : JString) (control_port proxy_port : Z)
    (worker_type client_id ca_cert_path control_tls_server_name cert_sha256_pin : JString) (w : W) : Z * W :=
  match jstring_to_cstring server_addr, jstring_to_cstring worker_type, jstring_to_cstring client_id,
        jstring_to_cstring ca_cert_path, jstring_to_cstring control_tls_server_name,
        jstring_to_cstring cert_sha256_pin with
  | Some a, Some t, Some id, Some ca, Some name, Some pin =>
      start_remote_worker_with_tls (Some a) control_port proxy_port (Some t) (Some id) (Some ca)
        (Some name) (Some pin) w
  | _, _, _, _, _, _ => (-1, w)
  end.

Definition startRemoteWorkerTasks (callback_function_ptr : Z) (w : W) : Z * W :=
  start_remote_worker_tasks_with_callback_ptr (status_callback_from_jlong callback_function_ptr) w.

(** A buffer of 1024 zeros is filled, then read up to its first NUL. *)
Definition getRemoteWorkerStatus (w : W) : JString :=
  match get_remote_worker_status (Some (replicate 1024 Byte.x00)) 1024 w with
  | (0, Some buffer) => from_utf8 (c_str buffer)
  | _ => None
  end.

Definition stopRemoteWorker (w : W) : Z * W := stop_remote_worker w.
End Exports.

Definition setRemoteWorkerModel (model_path : JString) (loads creates : bool) (w : SwapWorld) : Z * SwapWorld :=
  match jstring_to_cstring model_path with
  | None => (-1, w)
  | Some p => set_remote_worker_model (Some p) loads creates w
  end.
