(* ===== verification/RemoteFacts.v ===== *)
(** * The C and Java interface of a phone's worker: what an app can rely on

    Both workers keep the laws of [RemoteWorker.Platform]; the theorems about the exports are
    proved from these laws, for both at once. *)

From S2P Require Import Prelude Wire Text Ids LlamaEngine Mobile MobileTls SdkWorker SdkFacts AndroidSdk AndroidFacts ModelSwap RemoteWorker.
From Stdlib Require Import ZArith Lia String.
From Stdlib Require Import Strings.Byte.
From stdpp Require Import base list gmap.

Local Open Scope Z_scope.
Import Framing.

(** ** The two platforms *)
Section Laws.
Context `{C : Codec} `{H : Hex} (connect : Peer -> MobileControlTlsConfig -> result MobileControlStream).

Definition connects (n : Net) (tls : MobileControlTlsConfig) : Prop :=
  exists st, connect (n_peer n) tls = Ok st.

Lemma emit_endpoint cb m w :
  (WORKER_SERVER_ADDR (emit_callback cb m w), WORKER_CONTROL_PORT (emit_callback cb m w),
   WORKER_CONTROL_TLS (emit_callback cb m w))
  = (WORKER_SERVER_ADDR w, WORKER_CONTROL_PORT w, WORKER_CONTROL_TLS w).
Proof. unfold emit_callback. destruct cb; [|done]. by destruct (has_nul m). Qed.

Lemma login_begin_endpoint w :
  (WORKER_SERVER_ADDR (login_begin w), WORKER_CONTROL_PORT (login_begin w), WORKER_CONTROL_TLS (login_begin w))
  = (WORKER_SERVER_ADDR w, WORKER_CONTROL_PORT w, WORKER_CONTROL_TLS w).
Proof. unfold login_begin. destruct (WORKER_STOP_SIGNAL w); cbn; by case_match. Qed.

Lemma ios_login addr port id tls n w r w' :
  perform_login_with_tls connect IOS addr port id false tls n w = (r, w') ->
  match r with
  | Ok _ => connects n tls /\ get_worker_status w' = b!"Worker is running"
      /\ (WORKER_SERVER_ADDR w', WORKER_CONTROL_PORT w', WORKER_CONTROL_TLS w') = (Some addr, Some port, tls)
  | Err _ => (WORKER_SERVER_ADDR w', WORKER_CONTROL_PORT w', WORKER_CONTROL_TLS w')
             = (WORKER_SERVER_ADDR w, WORKER_CONTROL_PORT w, WORKER_CONTROL_TLS w)
  end.
Proof.
  unfold perform_login_with_tls, login_finish. destruct (connect (n_peer n) tls) as [st|e] eqn:Ec.
  2: { intros [= <- <-]. apply login_begin_endpoint. }
  destruct (decode_client_id id); [|intros [= <- <-]; apply login_begin_endpoint].
  destruct (write_stream _ _) as [[u|e] s]; intros [= <- <-]; [|apply login_begin_endpoint].
  split; [by exists st|done].
Qed.

Lemma android_login addr port id tls pb n w r w' :
  perform_android_login_with_tls connect addr port id false tls pb n w = (r, w') ->
  match r with
  | Ok _ => connects n tls /\ get_worker_status_android w' = b!"Worker is running"
      /\ (ANDROID_SERVER_ADDR w', ANDROID_CONTROL_PORT w', ANDROID_CONTROL_TLS w') = (Some addr, Some port, tls)
  | Err _ => w' = w
  end.
Proof.
  unfold perform_android_login_with_tls. destruct (connect (n_peer n) tls) as [st|e] eqn:Ec.
  2: { by intros [= <- <-]. }
  repeat case_match; intros [= <- <-]; try done. split; [by exists st|done].
Qed.

#[export] Instance ios_laws n : PlatformLaws (ios_platform connect n) (connects n).
Proof.
  split.
  - intros tls addr port id w w' E. cbn in E.
    destruct tls as [tls|]; by apply ios_login in E.
  - intros tls addr port id w w' e E. cbn in E. destruct tls as [tls|]; by apply ios_login in E.
  - intros cb w. cbn. unfold start_worker_tasks_with_callback_ptr.
    repeat case_match; cbn [snd]; rewrite ?emit_endpoint; done.
  - intros w. cbn. unfold get_worker_status. by destruct (WORKER_TCP_STREAM w).
Qed.

#[export] Instance android_laws pb n : PlatformLaws (android_platform connect pb n) (connects n).
Proof.
  split.
  - intros tls addr port id w w' E. cbn in E. destruct tls as [tls|]; by apply android_login in E.
  - intros tls addr port id w w' e E. cbn in E. destruct tls as [tls|]; by apply android_login in E as ->.
  - intros cb w. cbn. destruct cb as [cb|].
    + unfold android_start_with_callback, invoke_callback, call_status_callback.
      repeat case_match; done.
    + unfold start_worker_tasks. by repeat case_match.
  - intros w. cbn. unfold get_worker_status_android. by destruct (ANDROID_TCP_STREAM w).
Qed.
End Laws.

(** ** The exports, from the laws *)
Section Exports.
Context {W : Type} `{P : Platform W} (can_connect : MobileControlTlsConfig -> Prop)
  `{L : !PlatformLaws P can_connect}.

Lemma login_code_cases tls addr port id w code w' :
  login_code (pl_login tls addr port id w) = (code, w') ->
  (code = 0 /\ can_connect (default plaintext tls) /\ pl_status w' = b!"Worker is running"
   /\ pl_endpoint w' = (Some addr, Some port, default plaintext tls))
  \/ (code = -1 /\ pl_endpoint w' = pl_endpoint w).
Proof.
  unfold login_code. destruct (pl_login tls addr port id w) as [[[]|e] w1] eqn:E; intros [= <- <-].
  - left. split; [done|]. by eapply login_ok.
  - right. split; [done|]. by eapply login_err.
Qed.

(** A plaintext start, likewise; only bits 0 to 15 of the port count. *)
Lemma plain_start_code server_addr control_port proxy_port worker_type client_id w code w' :
  start_remote_worker server_addr control_port proxy_port worker_type client_id w = (code, w') ->
  (code = 0 /\ can_connect plaintext /\ pl_status w' = b!"Worker is running"
   /\ exists addr, c_text server_addr = Some addr
        /\ pl_endpoint w' = (Some addr, Some (wrap 16 control_port), plaintext))
  \/ (code = -1 /\ pl_endpoint w' = pl_endpoint w).
Proof.
  unfold start_remote_worker. destruct (c_text server_addr) as [addr|]; [|intros [= <- <-]; by right].
  destruct (c_text worker_type) as [wt|]; [|intros [= <- <-]; by right].
  destruct (c_text client_id) as [id|]; [|intros [= <- <-]; by right].
  destruct (known_worker_type wt); cbn [negb]; [|intros [= <- <-]; by right].
  intros [(-> & Hc & Hs & He)|[-> He]]%login_code_cases; [left|by right].
  split; [done|]. split; [done|]. split; [done|]. by exists addr.
Qed.

Lemma port_wraps server_addr port proxy_port worker_type client_id w :
  start_remote_worker server_addr (port + 2 ^ 16) proxy_port worker_type client_id w
  = start_remote_worker server_addr port proxy_port worker_type client_id w.
Proof.
  unfold start_remote_worker. assert (wrap 16 (port + 2 ^ 16) = wrap 16 port) as ->; [|done].
  unfold wrap. rewrite <- (Z.mul_1_l (2 ^ 16)) at 1. by rewrite Z.mod_add.
Qed.

(** Reading the status stays within the buffer, on iOS and Android: when the status and its
    NUL fit, they are written to its front and nothing else of it changes, so a C reader finds
    the status; otherwise, and for a null pointer, nothing is written and the call fails. In
    the 1024 bytes of the Java function the status always fits, and comes out as it is. *)
Theorem status_stays_in_buffer (buffer : bytes) (w : W) :
  (let size := blen buffer in
   if decide (blen (pl_status w) < size)
   then exists buffer', get_remote_worker_status (Some buffer) size w = (0, Some buffer')
     /\ length buffer' = length buffer /\ c_str buffer' = pl_status w
     /\ forall i, (length (pl_status w) < i)%nat -> buffer' !! i = buffer !! i
   else get_remote_worker_status (Some buffer) size w = (-1, Some buffer))
  /\ (forall size, get_remote_worker_status None size w = (-1, None))
  /\ getRemoteWorkerStatus w = Some (pl_status w).
Proof.
  destruct (status_short w) as (Hn & Hlen & Hu). split; [|split; [done|]].
  - cbn zeta. unfold get_remote_worker_status. rewrite Hn. pose proof (blen_nonneg (pl_status w)) as H0.
    rewrite blen_app. change (blen [Byte.x00]) with 1.
    case_decide as Hd; destruct (Z.eqb_spec (blen buffer) 0) as [|Hz]; try lia; [| |].
    + rewrite (proj2 (Z.ltb_ge (blen buffer) (blen (pl_status w) + 1))) by lia.
      eexists. split; [reflexivity|]. unfold blen in Hd. split; [|split].
      * rewrite length_app, length_drop, !length_app. cbn [length]. lia.
      * rewrite <- app_assoc. by apply c_str_app_nul.
      * intros i Hi. rewrite lookup_app_r by (rewrite length_app; cbn; lia).
        rewrite lookup_drop. f_equal. rewrite length_app. cbn. lia.
    + done.
    + by rewrite (proj2 (Z.ltb_lt (blen buffer) (blen (pl_status w) + 1))) by lia.
  - unfold getRemoteWorkerStatus, get_remote_worker_status. cbn [Z.eqb]. rewrite Hn, blen_app.
    change (blen [Byte.x00]) with 1. rewrite (proj2 (Z.ltb_ge 1024 (blen (pl_status w) + 1))) by lia.
    rewrite <- app_assoc. cbn [app]. by rewrite c_str_app_nul.
Qed.
(** *** Starting over TLS *)

Context (open_error : bytes -> option bytes) (pem_certs : bytes -> result (list bytes))
  (server_name_ok : bytes -> bool).

Lemma from_inputs_enabled ca name pin tls :
  from_inputs open_error pem_certs server_name_ok true ca name pin = Ok tls -> tls_enabled tls = true.
Proof.
  unfold from_inputs. cbn [negb]. destruct (validate_mobile_tls_policy _ _ _ _ _ _); [|done].
  by intros (pin' & _ & [= <-])%rbind_Ok.
Qed.

(** [C34] A start over TLS is over TLS, on iOS and Android. When it returns 0, a connection with an
    enabled configuration was made, one that the inputs give (server name: the given one or the
    address); the worker runs, and keeps exactly that configuration, address and port (cut to
    16 bits) for the connections it opens later. Any other code leaves them as they were; bad
    trust material (-2) and text that cannot be read leave the whole worker as it was. *)
Theorem tls_start_is_tls (server_addr : CString) (control_port proxy_port : Z)
    (worker_type client_id ca_cert_path server_name cert_sha256_pin : CString) (w w' : W) (code : Z) :
  start_remote_worker_with_tls open_error pem_certs server_name_ok server_addr control_port proxy_port
    worker_type client_id ca_cert_path server_name cert_sha256_pin w = (code, w') ->
  (code = 0
   /\ exists addr ca name pin tls,
        required_c_string server_addr = inl addr /\ optional_c_string ca_cert_path = inl ca
        /\ optional_c_string server_name = inl name /\ optional_c_string cert_sha256_pin = inl pin
        /\ from_inputs open_error pem_certs server_name_ok true ca (Some (default addr name)) pin = Ok tls
        /\ tls_enabled tls = true /\ can_connect tls
        /\ pl_endpoint w' = (Some addr, Some (wrap 16 control_port), tls)
        /\ pl_status w' = b!"Worker is running")
  \/ (code ∈ [-1; -2; -5] /\ pl_endpoint w' = pl_endpoint w /\ (code ∈ [-2; -5] -> w' = w)).
Proof.
  assert (forall s c, required_c_string s = inr c -> c ∈ [-1; -5]) as Hr.
  { intros s c. unfold required_c_string. destruct s; [|intros [= <-]; set_solver].
    destruct (from_utf8 _) as [x|]; [destruct (non_empty_trimmed x)|]; intros [= <-]; set_solver. }
  assert (forall s c, optional_c_string s = inr c -> c = -5) as Ho.
  { intros s c. unfold optional_c_string. destruct s; [|done]. by destruct (from_utf8 _); intros [= <-]. }
  unfold start_remote_worker_with_tls.
  destruct (required_c_string server_addr) as [addr|c] eqn:E1;
    [|intros [= <- <-]; apply Hr in E1; right; set_solver].
  destruct (required_c_string worker_type) as [wt|c] eqn:E2;
    [|intros [= <- <-]; apply Hr in E2; right; set_solver].
  destruct (required_c_string client_id) as [id|c] eqn:E3;
    [|intros [= <- <-]; apply Hr in E3; right; set_solver].
  destruct (optional_c_string ca_cert_path) as [ca|c] eqn:E4;
    [|intros [= <- <-]; apply Ho in E4; right; set_solver].
  destruct (optional_c_string server_name) as [name|c] eqn:E5;
    [|intros [= <- <-]; apply Ho in E5; right; set_solver].
  destruct (optional_c_string cert_sha256_pin) as [pin|c] eqn:E6;
    [|intros [= <- <-]; apply Ho in E6; right; set_solver].
  destruct (known_worker_type wt); cbn [negb]; [|intros [= <- <-]; right; set_solver].
  destruct (from_inputs _ _ _ _ _ _ _) as [tls|e] eqn:E7; [|intros [= <- <-]; right; set_solver].
  intros [(-> & Hc & Hs & He)|[-> He]]%login_code_cases.
  - left. split; [done|]. exists addr, ca, name, pin, tls. split_and!; try done.
    by apply from_inputs_enabled in E7.
  - right. split; [set_solver|]. split; [done|]. set_solver.
Qed.

End Exports.

(** ** Where the platforms differ *)
Section Differ.
Context `{C : Codec} `{H : Hex} (connect : Peer -> MobileControlTlsConfig -> result MobileControlStream).

(** A client id that is not 32 hexadecimal digits is refused on iOS; Android logs in with the
    id of zeros, which all such phones share. *)
Lemma bad_id_logs_in_as_zeros (addr id : bytes) (port : Z) (pb : Probes) (n : Net) si i st (wi : SdkWorld) (wa : DroidWorld) :
  decode_client_id id <> Ok (decode_or_zeros id) ->
  from_utf8 addr = Some addr -> from_utf8 id = Some id ->
  connect (n_peer n) plaintext = Ok st -> n_fails n 0%nat = false ->
  (forall c e, write_command_sync c <> Err e) -> pb_system pb = Ok si -> pb_devices pb = Ok i ->
  (start_remote_worker (P := ios_platform connect n) (Some addr) port 0 (Some b!"TCP") (Some id) wi).1 = -1
  /\ let '(code, w') := start_remote_worker (P := android_platform connect pb n) (Some addr) port 0
                          (Some b!"TCP") (Some id) wa in
     code = 0 /\ ANDROID_CLIENT_ID w' = Some (replicate 16 Byte.x00).
Proof.
  intros Hd Ha Hid Hc Hf Hw Hs Hi.
  assert ((exists e, decode_client_id id = Err e) /\ decode_or_zeros id = replicate 16 Byte.x00) as [[e He] Hz].
  { unfold decode_client_id, decode_or_zeros in *. destruct (hex_decode id) as [x|]; cbn [ok_or rbind] in *;
      [destruct (decide (length x = 16%nat))|]; eauto. done. }
  unfold start_remote_worker, c_text. cbn [mbind option_bind]. rewrite Ha, Hid. split.
  - cbn. unfold perform_login, perform_login_with_tls, login_finish. rewrite Hc, He. done.
  - cbn. unfold perform_android_login, perform_android_login_with_tls. rewrite Hc, Hs. destruct si as [[? ?] ?].
    rewrite Hi. unfold write_stream. destruct (write_command_sync _) as [u|e'] eqn:E; [|by destruct (Hw _ _ E)].
    cbn. rewrite Hf. split; [done|]. cbn. by rewrite Hz.
Qed.
End Differ.

(** ** Concrete runs *)

(** A server name as given, a pin of 64 digits, one server. *)
Definition demo_pin : bytes := b!"aaaaaaaaaaaaaaaaaaaaaaaaaaaaaaaaaaaaaaaaaaaaaaaaaaaaaaaaaaaaaaaa".
Definition demo_android : Platform DroidWorld := android_platform (C := task_codec) demo_connect demo_probes task_net.
Abbreviation tls_start :=
  (start_remote_worker_with_tls (P := demo_android) (fun _ => None) (fun _ => Ok []) (fun _ => true)
     (Some b!"server") 17000 0 (Some b!"TCP") (Some b!"id") None None (Some demo_pin) droid_start).

Lemma tls_start_is_tls_witness :
  exists w' tls, tls_start = (0, w') /\ tls_enabled tls = true
    /\ pl_endpoint (Platform := demo_android) w' = (Some b!"server", Some 17000, tls).
Proof.
  assert (exists w', tls_start = (0, w')) as [w' E] by (eexists; vm_compute; reflexivity).
  destruct (tls_start_is_tls (P := demo_android) (connects demo_connect task_net)
    (L := android_laws (C := task_codec) demo_connect demo_probes task_net)
    (fun _ => None) (fun _ => Ok []) (fun _ => true) (Some b!"server") 17000 0 (Some b!"TCP") (Some b!"id")
    None None (Some demo_pin) droid_start w' 0 E) as [[_ Hok]|[Hbad _]].
  - destruct Hok as (addr & ca & name & pin & tls & E1 & _ & _ & _ & _ & He & _ & Hp & _).
    exists w', tls. split; [exact E|]. split; [exact He|]. rewrite Hp. vm_compute in E1.
    injection E1 as <-. reflexivity.
  - exfalso. revert Hbad. rewrite !elem_of_cons, elem_of_nil. lia.
Defined.

Lemma status_stays_in_buffer_witness :
  get_remote_worker_status (P := demo_android) (Some b!"1234567890") 10 droid_start = (-1, Some b!"1234567890")
  /\ getRemoteWorkerStatus (P := demo_android) droid_start = Some b!"Worker not available".
Proof.
  pose proof (status_stays_in_buffer (P := demo_android) (connects demo_connect task_net)
    (L := android_laws (C := task_codec) demo_connect demo_probes task_net) b!"1234567890" droid_start)
    as (H1 & _ & H3).
  split; [exact H1|exact H3].
Defined.
