(* ===== verification/Vision.v ===== *)
(** * Image and text generation on Android ([gpuf-c/src/lib.rs])

    The multimodal calls of the C interface: loading a text model with its projector, the
    context of such a model, generating from a prompt and an image into the caller's buffer
    or through callbacks, and freeing the model. The objects of llama.cpp and libmtmd that a
    call creates are entries of an explicit heap, so that leaks and dangling pointers show:
    a handle names one object for ever, and using or freeing one that is not live is recorded
    as a fault, as is reading or writing past the end of the caller's memory. What the two
    libraries answer is an argument of each call. The token loop is [Mobile]'s; the chain of
    samplers, which the code creates and frees within one function, is not in the heap. On
    iOS these exports return null or -1. *)

From S2P Require Import Prelude Wire Text LlamaEngine Generate Mobile SdkWorker ModelSwap AndroidSdk.
From Stdlib Require Import ZArith Lia String.
From Stdlib Require Import Strings.Byte.
From stdpp Require Import base list gmap.

Local Open Scope Z_scope.

(** ** Kinds of model *)

Inductive ProjectorType := Unknown | LLaVA | Qwen2VL | Qwen25VL | Qwen3VL | Pixtral.

(** The values of the C enumeration. *)
Definition projector_code (t : ProjectorType) : Z :=
  match t with Unknown => 0 | LLaVA => 1 | Qwen2VL => 2 | Qwen25VL => 3 | Qwen3VL => 4 | Pixtral => 5 end.

Record VisionTokens := mkVisionTokens { vt_start : bytes; vt_end : bytes; vt_media : bytes }.

Definition get_vision_tokens (t : ProjectorType) : VisionTokens :=
  match t with
  | Qwen2VL | Qwen25VL | Qwen3VL => mkVisionTokens b!"<|vision_start|>" b!"<|vision_end|>" b!"<__media__>"
  | LLaVA | Unknown | Pixtral => mkVisionTokens [] [] b!"<__media__>"
  end.

Definition detect_model_type_from_path (model_path : bytes) : ProjectorType :=
  if contains_sub b!"Qwen2-VL" model_path || contains_sub b!"qwen2vl" model_path then Qwen2VL
  else if contains_sub b!"Qwen2.5-VL" model_path || contains_sub b!"qwen25vl" model_path then Qwen25VL
  else if contains_sub b!"Qwen3-VL" model_path || contains_sub b!"qwen3vl" model_path then Qwen3VL
  else if contains_sub b!"LLaVA" model_path || contains_sub b!"llava" model_path then LLaVA
  else if contains_sub b!"pixtral" model_path || contains_sub b!"Pixtral" model_path then Pixtral
  else Unknown.

Definition media_marker (t : ProjectorType) : bytes :=
  match t with
  | Qwen2VL | Qwen25VL | Qwen3VL => b!"<__media__>"
  | _ => b!"<__media__>"
  end.

(** ** The heap *)

(** The struct behind the pointer an app holds; pointers are handles, [None] is null. *)
Record gpuf_multimodal_model := mkMultimodal {
  text_model : option nat; mtmd_context : option nat; projector_type : ProjectorType;
  is_multimodal : bool; _media_marker : bytes }.

(** A context and a projector belong to the text model they were created from. *)
Inductive Object :=
  | OModel | OMtmd (model : nat) | OContext (model : nat) | OChunks | OBitmap
  | OBox (m : gpuf_multimodal_model).

Inductive MemFault :=
  | Dangling (handle : nat)
  | ReadsPast (wanted size : Z)
  | WritesPast (wanted size : Z).

Record Heap := mkHeap { h_next : nat; h_live : gmap nat Object; h_faults : list MemFault }.

Definition heap_start : Heap := mkHeap 0 ∅ [].
Definition mem_fault (f : MemFault) (h : Heap) : Heap := mkHeap (h_next h) (h_live h) (h_faults h ++ [f]).

(** A constructor of one of the libraries; [ok] false: it returns null. *)
Definition create (ok : bool) (o : Object) (h : Heap) : option nat * Heap :=
  if ok then (Some (h_next h), mkHeap (S (h_next h)) (<[h_next h := o]> (h_live h)) (h_faults h))
  else (None, h).

Definition release (x : nat) (h : Heap) : Heap :=
  match h_live h !! x with
  | Some _ => mkHeap (h_next h) (delete x (h_live h)) (h_faults h)
  | None => mem_fault (Dangling x) h
  end.

Definition release_if (p : option nat) (h : Heap) : Heap :=
  match p with Some x => release x h | None => h end.

(** A call that works with a context needs it and its text model. *)
Definition touch_context (c : nat) (h : Heap) : Heap :=
  match h_live h !! c with
  | Some (OContext m) => match h_live h !! m with Some OModel => h | _ => mem_fault (Dangling m) h end
  | _ => mem_fault (Dangling c) h
  end.

(** Following the app's pointer. Where it does not lead to a model the program's behaviour
    is undefined, and the calls below are modelled as ending there ([Aborts]). *)
Definition box_at (x : nat) (h : Heap) : option gpuf_multimodal_model :=
  match h_live h !! x with Some (OBox m) => Some m | _ => None end.

(** ** The caller's memory *)

(** Writing [s] at the front of the memory that starts at [output]. *)
Definition write_front (s mem : bytes) (h : Heap) : bytes * Heap :=
  (s ++ drop (length s) mem, if blen mem <? blen s then mem_fault (WritesPast (blen s) (blen mem)) h else h).

Definition write_nul (i : Z) (mem : bytes) (h : Heap) : bytes * Heap :=
  (<[Z.to_nat i := Byte.x00]> mem, if blen mem <=? i then mem_fault (WritesPast (i + 1) (blen mem)) h else h).

(** [CString::new(text).unwrap_or_default().as_bytes_with_nul()]. *)
Definition c_string_bytes (text : bytes) : bytes := (if has_nul text then [] else text) ++ [Byte.x00].

(** As much of the text and its NUL as [output_len as usize] allows; the count copied. *)
Definition copy_message (text : bytes) (output_len : Z) (mem : bytes) (h : Heap) : bytes * Heap * Z :=
  let s := c_string_bytes text in
  let copy_len := Z.min (blen s) (wrap 64 output_len) in
  (write_front (take (Z.to_nat copy_len) s) mem h, copy_len).

(** The same, and a NUL after it where there is room. *)
Definition copy_response (text : bytes) (output_len : Z) (mem : bytes) (h : Heap) : bytes * Heap :=
  let '(mem, h, copy_len) := copy_message text output_len mem h in
  if copy_len <? wrap 64 output_len then write_nul copy_len mem h else (mem, h).

(** [CStr::from_ptr(output).to_bytes().len()]; [None]: there is no NUL in the memory. *)
Definition read_length (mem : bytes) (h : Heap) : option Z * Heap :=
  if has_nul mem then (Some (blen (c_str mem)), h)
  else (None, mem_fault (ReadsPast (blen mem + 1) (blen mem)) h).

(** ** Loading and freeing *)

(** Which files the libraries can load: a text model, and a projector with a media marker. *)
Record ModelFiles := mkModelFiles {
  llama_load_model_from_file : bytes -> bool;
  mtmd_init_from_file : bytes -> bytes -> bool }.

(** A path is what the C string holds, [None] a null pointer. *)
Definition gpuf_load_multimodal_model (F : ModelFiles) (text_model_path mmproj_path : option bytes)
    (h : Heap) : option nat * Heap :=
  match text_model_path, mmproj_path with
  | Some text_path, Some mmproj =>
      let text_path_str := default [] (from_utf8 text_path) in
      let mmproj_path_str := default [] (from_utf8 mmproj) in
      match create (llama_load_model_from_file F text_path) OModel h with
      | (None, h) => (None, h)
      | (Some text_model, h) =>
          let t := detect_model_type_from_path text_path_str in
          match create (mtmd_init_from_file F mmproj_path_str (media_marker t)) (OMtmd text_model) h with
          | (None, h) => (None, release text_model h)
          | (Some mtmd_ctx, h) =>
              create true (OBox (mkMultimodal (Some text_model) (Some mtmd_ctx) t true (media_marker t))) h
          end
      end
  | _, _ => (None, h)
  end.

(** The box is dropped last. *)
Definition gpuf_free_multimodal_model (p : option nat) (h : Heap) : ffi Heap :=
  match p with
  | None => Returns h
  | Some x =>
      match box_at x h with
      | None => Aborts
      | Some model =>
          let h := release_if (text_model model) h in
          let h := release_if (mtmd_context model) h in
          Returns (release x h)
      end
  end.

Definition gpuf_create_multimodal_context (p : option nat) (ok : bool) (h : Heap) : ffi (option nat * Heap) :=
  match p with
  | None => Returns (None, h)
  | Some x =>
      match box_at x h with
      | None => Aborts
      | Some model =>
          match text_model model with
          | None => Returns (None, h)
          | Some m => Returns (create ok (OContext m) h)
          end
      end
  end.

Definition gpuf_multimodal_supports_vision (vision : nat -> bool) (p : option nat) (h : Heap) : ffi bool :=
  match p with
  | None => Returns false
  | Some x =>
      match box_at x h with
      | None => Aborts
      | Some model => Returns (match mtmd_context model with None => false | Some c => vision c end)
      end
  end.

(** The code and the value stored through [has_vision], if one is. *)
Definition gpuf_get_multimodal_info (vision : nat -> bool) (p : option nat) (has_vision_null : bool)
    (h : Heap) : ffi (Z * option bool) :=
  match p, has_vision_null with
  | None, _ | _, true => Returns (-1, None)
  | Some x, false =>
      match box_at x h with
      | None => Aborts
      | Some model => Returns (match mtmd_context model with
                               | None => (-1, None) | Some c => (0, Some (vision c)) end)
      end
  end.

(** What is copied into a token buffer that is not null: at most [max_length as usize] bytes
    of the text and its NUL. *)
Definition copied_token (token : bytes) (max_length : Z) : bytes :=
  take (Z.to_nat (Z.min (blen token + 1) (wrap 64 max_length))) (token ++ [Byte.x00]).

Definition gpuf_get_vision_tokens (p : option nat) (start_null end_null media_null : bool)
    (max_length : Z) (h : Heap) : ffi (Z * list (option bytes)) :=
  match p with
  | None => Returns (-1, [None; None; None])
  | Some x =>
      match box_at x h with
      | None => Aborts
      | Some model =>
          let v := get_vision_tokens (projector_type model) in
          let out (null : bool) token := if null then None else Some (copied_token token max_length) in
          Returns (projector_code (projector_type model),
                   [out start_null (vt_start v); out end_null (vt_end v); out media_null (vt_media v)])
      end
  end.

(** ** Generating from a prompt and an image *)

(** What is given to libmtmd: the text, whether it is searched for special tokens, and the
    pixels of each bitmap. *)
Record MtmdRequest := mkRequest { rq_text : bytes; rq_parse_special : bool; rq_images : list bytes }.

(** libmtmd on one projector and context: tokenising gives 0 on success; evaluating the
    chunks, in a context that has decoded some batches, gives 0 on success, the new position
    and the batches the context then holds. [mtmd_bitmap_reads]: the bytes that
    [mtmd_bitmap_init] copies for a width and a height. *)
Record Mtmd := mkMtmd {
  mtmd_tokenize : MtmdRequest -> Z;
  mtmd_helper_eval_chunks : list Batch -> MtmdRequest -> Z * Z * list Batch;
  mtmd_bitmap_reads : Z -> Z -> Z;
  llama_get_logits : list Batch -> bool;
  llama_vocab_n_tokens : Z }.

(** Which constructors and getters of one call return something other than null. *)
Record NonNull := mkNonNull {
  nn_context : bool; nn_chunks : bool; nn_bitmap : bool; nn_model : bool; nn_vocab : bool }.

Record SampleArgs := mkSampleArgs {
  sa_max_tokens : Z; sa_temperature : f32; sa_top_k : Z; sa_top_p : f32; sa_repeat_penalty : f32 }.

(** The memory [image_data] points to, [None] for null, and the size the caller states. *)
Definition has_image (image_data : option bytes) (image_size : Z) : option bytes :=
  match image_data with Some d => if 0 <? image_size then Some d else None | None => None end.

Section Calls.
Context (L : Llama) (V : Mtmd).

(** Every image is taken to be 224 by 224 pixels. *)
Definition mtmd_bitmap_init (ok : bool) (image : bytes) (h : Heap) : option nat * Heap :=
  let n := mtmd_bitmap_reads V 224 224 in
  create ok OBitmap (if blen image <? n then mem_fault (ReadsPast n (blen image)) h else h).

Definition bitmap_pixels (image : bytes) : bytes := take (Z.to_nat (mtmd_bitmap_reads V 224 224)) image.

(** The context of a call: the given one with what it has decoded, or a new one. [Some c]
    with whether it was created. *)
Definition call_context (p : nat) (ctx : option nat) (nn : NonNull) (h : Heap)
    : ffi (option (nat * bool) * Heap) :=
  match ctx with
  | Some c => Returns (Some (c, false), h)
  | None =>
      match gpuf_create_multimodal_context (Some p) (nn_context nn) h with
      | Aborts => Aborts
      | Returns (Some c, h) => Returns (Some (c, true), h)
      | Returns (None, h) => Returns (None, h)
      end
  end.

(** The code returned ([None]: the function counted bytes that are not the caller's), the
    caller's memory and the heap. *)
Record MultimodalReply := mkReply { r_code : option Z; r_output : bytes; r_heap : Heap }.

(** The image was tokenised: [inl] is an early return with its code, [inr] goes on to the
    clean-up. *)
Definition answer_image (c : nat) (history : list Batch) (rq : MtmdRequest) (nn : NonNull) (sa : SampleArgs)
    (output_len : Z) (mem : bytes) (h : Heap) : ffi (bytes * Heap * Z + bytes * Heap) :=
  let h := touch_context c h in
  let '(encode_result, new_n_past, decoded) := mtmd_helper_eval_chunks V history rq in
  if negb (encode_result =? 0)
  then Returns (inr (copy_message b!"❌ Multimodal encoding failed" output_len mem h).1)
  else if negb (nn_model nn)
  then Returns (inl (copy_message b!"❌ Failed to get model pointer" output_len mem h))
  else if negb (nn_vocab nn)
  then Returns (inl (copy_message b!"❌ Failed to get vocab pointer" output_len mem h))
  else match generate_multimodal_response_with_vocab L false (negb (nn_model nn)) (negb (nn_vocab nn))
               (llama_vocab_n_tokens V) (sa_max_tokens sa) new_n_past (sa_temperature sa) (sa_top_k sa)
               (sa_top_p sa) (sa_repeat_penalty sa) decoded with
  | Aborts => Aborts
  | Returns generated_text => Returns (inr (copy_response generated_text output_len mem h))
  end.

(** With an image: an early return, or the result of tokenising. *)
Definition generate_with_image (c : nat) (history : list Batch) (prompt image : bytes) (nn : NonNull)
    (sa : SampleArgs) (output_len : Z) (mem : bytes) (h : Heap) : ffi (bytes * Heap * Z + Z * (bytes * Heap)) :=
  match mtmd_bitmap_init (nn_bitmap nn) image h with
  | (None, h) => Returns (inr (-1, (mem, h)))
  | (Some b, h) =>
      let rq := mkRequest prompt true [bitmap_pixels image] in
      let result := mtmd_tokenize V rq in
      if negb (result =? 0) then Returns (inr (result, (mem, release b h)))
      else match answer_image c history rq nn sa output_len mem h with
      | Aborts => Aborts
      | Returns (inl early) => Returns (inl early)
      | Returns (inr (mem, h)) => Returns (inr (0, (mem, release b h)))
      end
  end.

(** Without one: no token is generated. *)
Definition generate_text_only (prompt : bytes) (output_len : Z) (mem : bytes) (h : Heap) : Z * (bytes * Heap) :=
  let result := mtmd_tokenize V (mkRequest prompt true []) in
  if result =? 0
  then (result, copy_response (b!"GPUFabric: libmtmd text-only generation successful (prompt "
                               ++ dec (blen prompt) ++ b!" bytes)") output_len mem h)
  else (result, (mem, h)).

Definition count_response (result : Z) (mem : bytes) (h : Heap) : MultimodalReply :=
  if result =? 0
  then let '(len, h) := read_length mem h in mkReply ((fun n => n / 4) <$> len) mem h
  else mkReply (Some (-1)) mem h.

Definition gpuf_generate_multimodal (p ctx : option nat) (history : list Batch)
    (text_prompt image_data : option bytes) (image_size : Z) (sa : SampleArgs) (output : option bytes)
    (output_len : Z) (nn : NonNull) (h : Heap) : ffi MultimodalReply :=
  match p, text_prompt, output with
  | Some x, Some prompt, Some mem =>
      match box_at x h with
      | None => Aborts
      | Some model =>
          match mtmd_context model with
          | None => Returns (mkReply (Some (-1)) mem h)
          | Some _ =>
              match call_context x ctx nn h with
              | Aborts => Aborts
              | Returns (None, h) => Returns (mkReply (Some (-1)) mem h)
              | Returns (Some (c, created), h) =>
                  match from_utf8 prompt with
                  | None => Returns (mkReply (Some (-1)) mem h)
                  | Some _ =>
                      match create (nn_chunks nn) OChunks h with
                      | (None, h) => Returns (mkReply (Some (-1)) mem h)
                      | (Some chunks, h) =>
                          match (match has_image image_data image_size with
                                 | Some image => generate_with_image c (if created then [] else history)
                                                   prompt image nn sa output_len mem h
                                 | None => Returns (inr (generate_text_only prompt output_len mem h))
                                 end) with
                          | Aborts => Aborts
                          | Returns (inl (mem, h, code)) => Returns (mkReply (Some code) mem h)
                          | Returns (inr (result, (mem, h))) =>
                              let h := release chunks h in
                              let h := if created then release c h else h in
                              Returns (count_response result mem h)
                          end
                      end
                  end
              end
          end
      end
  | _, _, _ => Returns (mkReply (Some (-1)) (default [] output) h)
  end.

(** ** Streaming *)

(** The token loop written out in [gpuf_generate_multimodal_stream]; it keeps no bytes back
    ([mm_buf] stays empty), so text and callbacks are the pieces as they come. *)
Fixpoint inline_stream (fuel : nat) (chain : list Sampler) (has_callback : bool) (max_tokens : Z)
    (s : MultiState) : ffi MultiState :=
  match fuel with
  | O => Returns s
  | S fuel =>
      if (mm_count s <? max_tokens) && (mm_past s <? llama_n_ctx L) then
        if negb (llama_get_logits V (mm_decoded s)) then Returns s
        else
          let token := llama_sampler_sample L chain (mm_decoded s) (-1) in
          if llama_vocab_is_eog L token then Returns s
          else
            let '(len, written) := llama_token_to_piece L token 32 false in
            if 32 <? len then Aborts
            else
              let s :=
                if 0 <? len then
                  let token_str := take (Z.to_nat len) written in
                  mkMulti (mm_text s ++ token_str)
                    (if has_callback && negb (has_nul token_str)
                     then mm_callbacks s ++ [(token_str, token)] else mm_callbacks s)
                    (mm_buf s) (mm_count s) (mm_past s) (mm_decoded s)
                else s in
              match llama_decode L (mm_decoded s) (single token (mm_past s)) with
              | None => Aborts
              | Some 0 => inline_stream fuel chain has_callback max_tokens
                            (mkMulti (mm_text s) (mm_callbacks s) (mm_buf s) (mm_count s + 1)
                               (mm_past s + 1) (mm_decoded s ++ [single token (mm_past s)]))
              | Some _ => Returns s
              end
      else Returns s
  end.

(** The code, the token callbacks, the call of the completion callback and the heap. *)
Record StreamReply := mkStreamReply {
  sr_code : Z; sr_tokens : list (bytes * Z); sr_complete : option (bytes * Z); sr_heap : Heap }.

Definition stream_failed (h : Heap) : StreamReply := mkStreamReply (-1) [] None h.

(** The image's bitmap, if it has one, in a call that works without. *)
Definition stream_bitmaps (image : option bytes) (nn : NonNull) (h : Heap) : list (nat * bytes) * Heap :=
  match image with
  | None => ([], h)
  | Some d =>
      match mtmd_bitmap_init (nn_bitmap nn) d h with
      | (None, h) => ([], h)
      | (Some b, h) => ([(b, bitmap_pixels d)], h)
      end
  end.

Definition stream_cleanup (chunks c : nat) (created : bool) (h : Heap) : Heap :=
  let h := release chunks h in if created then release c h else h.

(** From the tokenised prompt to the completion callback. *)
Definition stream_answer (c chunks : nat) (created : bool) (history : list Batch) (rq : MtmdRequest)
    (nn : NonNull) (sa : SampleArgs) (on_token on_complete : bool) (h : Heap) : ffi StreamReply :=
  let h := touch_context c h in
  let '(encode_result, new_n_past, decoded) := mtmd_helper_eval_chunks V history rq in
  if negb (encode_result =? 0) || negb (nn_model nn) || negb (nn_vocab nn)
  then Returns (stream_failed (stream_cleanup chunks c created h))
  else match inline_stream (Z.to_nat (sa_max_tokens sa))
               (async_chain (sa_temperature sa) (sa_top_k sa) (sa_top_p sa) (sa_repeat_penalty sa))
               on_token (sa_max_tokens sa) (mkMulti [] [] [] 0 new_n_past decoded) with
  | Aborts => Aborts
  | Returns s =>
      let token_count := Z.of_nat (length (split_whitespace (mm_text s))) in
      Returns (mkStreamReply token_count (mm_callbacks s)
                 (if on_complete then Some (if has_nul (mm_text s) then [] else mm_text s, token_count) else None)
                 (stream_cleanup chunks c created h))
  end.

Definition gpuf_generate_multimodal_stream (p ctx : option nat) (history : list Batch)
    (text_prompt image_data : option bytes) (image_size : Z) (sa : SampleArgs) (on_token on_complete : bool)
    (nn : NonNull) (h : Heap) : ffi StreamReply :=
  match p, text_prompt with
  | Some x, Some prompt =>
      match box_at x h with
      | None => Aborts
      | Some model =>
          match mtmd_context model with
          | None => Returns (stream_failed h)
          | Some _ =>
              match call_context x ctx nn h with
              | Aborts => Aborts
              | Returns (None, h) => Returns (stream_failed h)
              | Returns (Some (c, created), h) =>
                  match from_utf8 prompt with
                  | None => Returns (stream_failed h)
                  | Some _ =>
                      match create (nn_chunks nn) OChunks h with
                      | (None, h) => Returns (stream_failed (if created then release c h else h))
                      | (Some chunks, h) =>
                          let '(bitmaps, h) := stream_bitmaps (has_image image_data image_size) nn h in
                          let rq := mkRequest prompt false (bitmaps.*2) in
                          let tokenize_result := mtmd_tokenize V rq in
                          let h := foldl (fun h b => release b h) h (bitmaps.*1) in
                          if negb (tokenize_result =? 0)
                          then Returns (stream_failed (stream_cleanup chunks c created h))
                          else stream_answer c chunks created (if created then [] else history) rq nn sa
                                 on_token on_complete h
                      end
                  end
              end
          end
      end
  | _, _ => Returns (stream_failed h)
  end.
End Calls.
