(* ===== verification/VisionFacts.v ===== *)
(** * What the multimodal calls keep and leak

    The objects a call creates are followed through the heap: what each call leaves behind,
    that an app which keeps to its own handles never makes the library use a freed object,
    what ends up in the caller's buffer, and when the two streaming loops agree. *)

From S2P Require Import Prelude Wire Text Output LlamaEngine Generate Mobile SdkWorker ModelSwap AndroidSdk Vision.
From Stdlib Require Import ZArith Lia String.
From Stdlib Require Import Strings.Byte.
From stdpp Require Import base list gmap.

Local Open Scope Z_scope.
Import Emit EmitFacts TextFacts.

(** ** Following the heap *)

(** No fault of the second heap is a new dangling pointer. *)
Definition no_dangling (h h' : Heap) : Prop :=
  forall x, Dangling x ∈ h_faults h' -> Dangling x ∈ h_faults h.

Definition quiet (h h' : Heap) : Prop :=
  h_live h' = h_live h /\ h_next h' = h_next h /\ no_dangling h h'.

#[export] Instance quiet_preorder : PreOrder quiet.
Proof.
  split; [intros h; repeat split; by intros x|]. intros a b c (E1 & E2 & E3) (F1 & F2 & F3). repeat split; [congruence..|].
  intros x Hx. by apply E3, F3.
Qed.

Definition fresh_heap (h : Heap) : Prop := forall x, (h_next h <= x)%nat -> h_live h !! x = None.

(** The objects with their handles, over a heap's. *)
Fixpoint extend (l : list (nat * Object)) (m : gmap nat Object) : gmap nat Object :=
  match l with [] => m | p :: l => <[p.1 := p.2]> (extend l m) end.

(** [h] is [h0] with the objects [l], all created since, and no new dangling pointer. *)
Record over (h0 : Heap) (l : list (nat * Object)) (h : Heap) : Prop := {
  ov_live : h_live h = extend l (h_live h0);
  ov_nodup : NoDup l.*1;
  ov_keys : Forall (fun p => (h_next h0 <= p.1 < h_next h)%nat) l;
  ov_next : (h_next h0 <= h_next h)%nat;
  ov_quiet : no_dangling h0 h }.

Lemma extend_lookup l m x : x ∉ l.*1 -> extend l m !! x = m !! x.
Proof.
  induction l as [|[y o] l IH]; [done|]. cbn. rewrite not_elem_of_cons. intros [Hn Hl].
  rewrite lookup_insert_ne by done. by apply IH.
Qed.

Lemma extend_lookup_in l m x o : NoDup l.*1 -> (x, o) ∈ l -> extend l m !! x = Some o.
Proof.
  induction l as [|[y p] l IH]; [by intros _ ?%elem_of_nil|]. cbn. intros [Hy Hl]%NoDup_cons [[= <- <-]|Hx]%elem_of_cons.
  - by rewrite lookup_insert_eq.
  - rewrite lookup_insert_ne; [by apply IH|]. intros ->. apply Hy. apply list_elem_of_fmap. by exists (x, o).
Qed.

Lemma extend_delete l1 x o l2 m : NoDup (l1 ++ (x, o) :: l2).*1 -> m !! x = None ->
  delete x (extend (l1 ++ (x, o) :: l2) m) = extend (l1 ++ l2) m.
Proof.
  intros Hn Hm. induction l1 as [|[y p] l1 IH]; cbn in *.
  - rewrite delete_insert_eq. apply NoDup_cons in Hn as [Hx _]. apply delete_id.
    by rewrite extend_lookup.
  - apply NoDup_cons in Hn as [Hy Hn]. rewrite delete_insert_ne; [by rewrite IH|].
    intros ->. apply Hy. rewrite fmap_app. apply elem_of_app. right. by left.
Qed.

Section Over.
Context (h0 : Heap) (F : fresh_heap h0).

Lemma over_refl : over h0 [] h0.
Proof. split; try done; [constructor|by intros x]. Qed.

Lemma over_quiet l h h' : over h0 l h -> quiet h h' -> over h0 l h'.
Proof.
  intros [O1 O2 O3 O4 O5] (Q1 & Q2 & Q3). split; [congruence|done|by rewrite Q2|by rewrite Q2|].
  intros x Hx. by apply O5, Q3.
Qed.

Lemma over_create l h o : over h0 l h ->
  (create true o h).1 = Some (h_next h) /\ over h0 ((h_next h, o) :: l) (create true o h).2.
Proof.
  intros [O1 O2 O3 O4 O5]. split; [done|]. split; cbn; [by rewrite O1| | |lia|done].
  - apply NoDup_cons. split; [|done]. intros (p & E & Hp)%list_elem_of_fmap.
    rewrite Forall_forall in O3. specialize (O3 p Hp). lia.
  - constructor; [cbn; lia|]. eapply Forall_impl; [exact O3|]. cbn. intros p ?. lia.
Qed.

Lemma over_release l1 x o l2 h : over h0 (l1 ++ (x, o) :: l2) h -> over h0 (l1 ++ l2) (release x h).
Proof.
  intros [O1 O2 O3 O4 O5]. unfold release.
  rewrite O1, (extend_lookup_in _ _ x o) by (done || (apply elem_of_app; right; by left)).
  split; cbn; [|..|done|done].
  - rewrite <- O1. rewrite O1. apply extend_delete; [done|]. apply F.
    apply Forall_app in O3 as [_ [O3 _]%Forall_cons]. cbn in O3. lia.
  - rewrite fmap_app in *. cbn in O2. apply NoDup_app in O2 as (N1 & N2 & [_ N3]%NoDup_cons).
    apply NoDup_app. split; [done|]. split; [|done]. intros y Hy Hy2. apply (N2 y Hy). by right.
  - apply Forall_app in O3 as [A [_ B]%Forall_cons]. by apply Forall_app.
Qed.

Lemma over_old l h x : over h0 l h -> (x < h_next h0)%nat -> h_live h !! x = h_live h0 !! x.
Proof.
  intros [O1 O2 O3 O4 O5] Hx. rewrite O1. apply extend_lookup. intros (p & -> & Hp)%list_elem_of_fmap.
  rewrite Forall_forall in O3. specialize (O3 p Hp). lia.
Qed.
End Over.

Lemma fresh_lt h x o : fresh_heap h -> h_live h !! x = Some o -> (x < h_next h)%nat.
Proof. intros F H. destruct (Nat.lt_ge_cases x (h_next h)) as [|Hge]; [done|]. by rewrite (F _ Hge) in H. Qed.

Lemma over_fresh h0 l h : fresh_heap h0 -> over h0 l h -> fresh_heap h.
Proof.
  intros F [O1 O2 O3 O4 O5] x Hx. rewrite O1, extend_lookup; [apply F; lia|].
  intros (p & -> & Hp)%list_elem_of_fmap. rewrite Forall_forall in O3. specialize (O3 p Hp). lia.
Qed.

(** The calls that only touch the caller's memory. *)

Lemma quiet_reads a b h : quiet h (mem_fault (ReadsPast a b) h).
Proof. repeat split; try done. intros x. cbn. rewrite elem_of_app, list_elem_of_singleton. by intros [|]. Qed.
Lemma quiet_writes a b h : quiet h (mem_fault (WritesPast a b) h).
Proof. repeat split; try done. intros x. cbn. rewrite elem_of_app, list_elem_of_singleton. by intros [|]. Qed.
#[export] Hint Resolve quiet_reads quiet_writes : core.

Lemma write_front_quiet s mem h : quiet h (write_front s mem h).2.
Proof. unfold write_front. cbn. by destruct (blen mem <? blen s). Qed.
Lemma write_nul_quiet i mem h : quiet h (write_nul i mem h).2.
Proof. unfold write_nul. cbn. by destruct (blen mem <=? i). Qed.
Lemma copy_message_quiet t n mem h : quiet h (copy_message t n mem h).1.2.
Proof.
  unfold copy_message. pose proof (write_front_quiet (take (Z.to_nat (Z.min (blen (c_string_bytes t)) (wrap 64 n))) (c_string_bytes t)) mem h) as Q.
  by destruct (write_front _ mem h).
Qed.
Lemma copy_response_quiet t n mem h : quiet h (copy_response t n mem h).2.
Proof.
  unfold copy_response. pose proof (copy_message_quiet t n mem h) as Q.
  destruct (copy_message t n mem h) as [[m h1] k]. cbn in Q. destruct (k <? wrap 64 n); [|done].
  etrans; [exact Q|apply write_nul_quiet].
Qed.
Lemma read_length_quiet mem h : quiet h (read_length mem h).2.
Proof. unfold read_length. destruct (has_nul mem); [reflexivity|apply quiet_reads]. Qed.

#[local] Opaque copy_message copy_response.

(** ** What a call leaves behind *)

Definition usable (h : Heap) (c : nat) : Prop :=
  exists m, h_live h !! c = Some (OContext m) /\ h_live h !! m = Some OModel.

(** The app's pointer leads to a model with a projector, whose text model is alive. *)
Definition model_at (h : Heap) (x t : nat) : Prop :=
  exists model, box_at x h = Some model /\ text_model model = Some t /\ mtmd_context model <> None
    /\ h_live h !! t = Some OModel.

Definition own_context (t : nat) (ctx : option nat) (nn : NonNull) : list Object :=
  match ctx with None => if nn_context nn then [OContext t] else [] | Some _ => [] end.

Definition evaluates (V : Mtmd) (history : list Batch) (rq : MtmdRequest) : bool :=
  (mtmd_tokenize V rq =? 0) && ((mtmd_helper_eval_chunks V history rq).1.1 =? 0).

(** What [gpuf_generate_multimodal] never frees, newest first. *)
Definition generate_leaks (V : Mtmd) (t : nat) (ctx : option nat) (history : list Batch) (prompt : bytes)
    (image : option bytes) (nn : NonNull) : list Object :=
  if bool_decide (ctx = None) && negb (nn_context nn) then []
  else if negb (valid_utf8 prompt) || negb (nn_chunks nn) then own_context t ctx nn
  else match image with
       | None => []
       | Some d =>
           if nn_bitmap nn
              && evaluates V (match ctx with Some _ => history | None => [] end) (mkRequest prompt true [bitmap_pixels V d])
              && negb (nn_model nn && nn_vocab nn)
           then OBitmap :: OChunks :: own_context t ctx nn else []
       end.

(** And the streaming call. *)
Definition stream_leaks (t : nat) (ctx : option nat) (prompt : bytes) (nn : NonNull) : list Object :=
  if valid_utf8 prompt then [] else own_context t ctx nn.

Section Effects.
Context (L : Llama) (V : Mtmd) (h0 : Heap) (F : fresh_heap h0).

Lemma touch_quiet l h c t : over h0 l h -> usable h0 c \/ (c, OContext t) ∈ l /\ h_live h0 !! t = Some OModel ->
  quiet h (touch_context c h).
Proof.
  intros O Hc. assert (exists m, h_live h !! c = Some (OContext m) /\ h_live h !! m = Some OModel) as (m & E1 & E2).
  { destruct Hc as [(m & E1 & E2)|[Hin E]].
    - exists m. rewrite !(over_old h0 l h) by (done || by eapply fresh_lt). done.
    - exists t. split; [|rewrite (over_old h0 l h); [done|done|by eapply fresh_lt]].
      destruct O as [O1 O2 _ _ _]. rewrite O1. by apply extend_lookup_in. }
  unfold touch_context. by rewrite E1, E2.
Qed.

(** Which context a call works with: [l] holds it if it was created. *)
Lemma call_context_effect x t ctx nn r : model_at h0 x t -> (forall c, ctx = Some c -> usable h0 c) ->
  call_context x ctx nn h0 = Returns r ->
  match r with
  | (None, h) => over h0 [] h /\ ctx = None /\ nn_context nn = false
  | (Some (c, created), h) => exists l, over h0 l h /\ l.*2 = own_context t ctx nn
      /\ (usable h0 c \/ (c, OContext t) ∈ l /\ h_live h0 !! t = Some OModel)
      /\ created = bool_decide (ctx = None) /\ l = (if created then [(c, OContext t)] else [])
      /\ (ctx = None -> nn_context nn = true)
  end.
Proof.
  intros (model & B & T & _ & M) Hctx. unfold call_context. destruct ctx as [c|].
  - intros [= <-]. exists []. split_and!; try done; [apply over_refl|by left; apply Hctx].
  - unfold gpuf_create_multimodal_context. rewrite B, T. cbn [own_context].
    destruct (nn_context nn) eqn:E; [|intros [= <-]; by split; [apply over_refl|]].
    destruct (over_create h0 [] h0 (OContext t) (over_refl h0)) as [E1 O].
    destruct (create true (OContext t) h0) as [r' h]. cbn in E1, O. subst r'. intros [= <-].
    exists [(h_next h0, OContext t)]. split_and!; try done. right. by split; [left|].
Qed.

Lemma bitmap_effect l h ok d : over h0 l h ->
  let r := mtmd_bitmap_init V ok d h in
  match r.1 with
  | None => ok = false /\ over h0 l r.2
  | Some b => ok = true /\ over h0 ((b, OBitmap) :: l) r.2
  end.
Proof.
  intros O. unfold mtmd_bitmap_init. set (h1 := if blen d <? _ then mem_fault _ h else h).
  assert (over h0 l h1) as O1.
  { unfold h1. destruct (_ <? _); [|done]. eapply over_quiet; [exact O|apply quiet_reads]. }
  destruct ok; [|done]. exact (conj eq_refl (proj2 (over_create h0 l h1 OBitmap O1))).
Qed.

Lemma stream_cleanup_effect l1 h chunks c t (created : bool) : over h0 ((chunks, OChunks) :: l1) h ->
  l1 = (if created then [(c, OContext t)] else []) -> over h0 [] (stream_cleanup chunks c created h).
Proof.
  intros O ->. unfold stream_cleanup. assert (O1 := over_release h0 F [] _ _ _ _ O). cbn [app] in O1.
  destruct created; [|done]. exact (over_release h0 F [] _ _ _ _ O1).
Qed.

Lemma stream_effect x t ctx history prompt image_data image_size sa on_token on_complete nn r :
  model_at h0 x t -> (forall c, ctx = Some c -> usable h0 c) ->
  gpuf_generate_multimodal_stream L V (Some x) ctx history (Some prompt) image_data image_size sa
    on_token on_complete nn h0 = Returns r ->
  exists l, over h0 l (sr_heap r) /\ l.*2 = stream_leaks t ctx prompt nn.
Proof.
  intros HM Hctx. pose proof HM as (model & B & _ & P & _). unfold gpuf_generate_multimodal_stream. rewrite B.
  destruct (mtmd_context model); [clear P|done].
  destruct (call_context x ctx nn h0) as [a|] eqn:C; [|done].
  pose proof (call_context_effect _ _ _ _ _ HM Hctx C) as E. destruct a as [[[c created]|] h].
  2: { destruct E as (O & -> & N). intros [= <-]. exists []. unfold stream_leaks, own_context. rewrite N.
       split; [exact O|by destruct (valid_utf8 prompt)]. }
  destruct E as (l & O & El & U & -> & Hl & Hnn). unfold stream_leaks, from_utf8.
  destruct (valid_utf8 prompt); [|intros [= <-]; by exists l].
  destruct (nn_chunks nn).
  2: { intros [= <-]. exists []. split; [|done]. cbn. subst l. case_bool_decide; [|done].
       exact (over_release h0 F [] _ _ _ _ O). }
  destruct (over_create h0 l h OChunks O) as [E1 O2].
  destruct (create true OChunks h) as [r' h1]. cbn in E1, O2. subst r'.
  set (chunks := h_next h) in *. destruct (stream_bitmaps V _ nn h1) as [bitmaps h2] eqn:SB.
  set (h3 := foldl _ h2 _).
  assert (over h0 ((chunks, OChunks) :: l) h3) as O3.
  { unfold h3. unfold stream_bitmaps in SB. destruct (has_image _ _) as [d|]; [|by simplify_eq].
    pose proof (bitmap_effect _ _ (nn_bitmap nn) d O2) as BE.
    destruct (mtmd_bitmap_init V (nn_bitmap nn) d h1) as [[b|] h4]; cbn in BE; simplify_eq; [|by destruct BE].
    destruct BE as [_ BE]. exact (over_release h0 F [] _ _ _ _ BE). }
  assert (over h0 [] (stream_cleanup chunks c (bool_decide (ctx = None)) h3)) as O4
    by (by eapply stream_cleanup_effect).
  destruct (negb _); [intros [= <-]; by exists []|]. unfold stream_answer.
  assert (over h0 [] (stream_cleanup chunks c (bool_decide (ctx = None)) (touch_context c h3))) as O5.
  { eapply stream_cleanup_effect; [|done]. eapply over_quiet; [exact O3|]. eapply touch_quiet; [exact O3|].
    destruct U as [U|[U1 U2]]; [by left|right]. split; [by right|done]. }
  destruct (mtmd_helper_eval_chunks _ _ _) as [[er np] dec]. destruct (_ || _ || _); [intros [= <-]; by exists []|].
  destruct (inline_stream _ _ _ _ _ _) as [s|]; [|done]. intros [= <-]. by exists [].
Qed.

(** The early returns of [answer_image] are those for a null model or vocabulary. *)
Lemma answer_image_effect l h c t history rq nn sa n mem a : over h0 l h ->
  usable h0 c \/ (c, OContext t) ∈ l /\ h_live h0 !! t = Some OModel ->
  answer_image L V c history rq nn sa n mem h = Returns a ->
  let early := ((mtmd_helper_eval_chunks V history rq).1.1 =? 0) && negb (nn_model nn && nn_vocab nn) in
  match a with
  | inl (_, h', _) => over h0 l h' /\ early = true
  | inr (_, h') => over h0 l h' /\ early = false
  end.
Proof.
  intros O U. unfold answer_image. assert (over h0 l (touch_context c h)) as O1.
  { eapply over_quiet; [exact O|]. by eapply touch_quiet. }
  destruct (mtmd_helper_eval_chunks V history rq) as [[er np] dec]. cbn [fst].
  assert (forall text, over h0 l (copy_message text n mem (touch_context c h)).1.2) as M.
  { intros text. eapply over_quiet; [exact O1|apply copy_message_quiet]. }
  destruct (er =? 0); cbn [negb andb].
  2: { intros [= <-]. specialize (M b!"❌ Multimodal encoding failed"). destruct (copy_message _ _ _ _) as [[m h'] k]. by split. }
  destruct (nn_model nn); cbn [negb andb].
  2: { intros [= <-]. specialize (M b!"❌ Failed to get model pointer"). destruct (copy_message _ _ _ _) as [[m h'] k]. by split. }
  destruct (nn_vocab nn); cbn [negb].
  2: { intros [= <-]. specialize (M b!"❌ Failed to get vocab pointer"). destruct (copy_message _ _ _ _) as [[m h'] k]. by split. }
  destruct (generate_multimodal_response_with_vocab _ _ _ _ _ _ _ _ _ _ _ _) as [text|]; [|done].
  intros [= <-]. pose proof (copy_response_quiet text n mem (touch_context c h)) as Q.
  destruct (copy_response _ _ _ _) as [m h']. split; [|done]. by eapply over_quiet.
Qed.

Lemma count_response_heap r m h : quiet h (r_heap (count_response r m h)).
Proof.
  unfold count_response. destruct (r =? 0); [|reflexivity]. pose proof (read_length_quiet m h) as Q.
  by destruct (read_length m h).
Qed.

Lemma generate_effect x t ctx history prompt image_data image_size sa mem n nn r :
  model_at h0 x t -> (forall c, ctx = Some c -> usable h0 c) ->
  gpuf_generate_multimodal L V (Some x) ctx history (Some prompt) image_data image_size sa
    (Some mem) n nn h0 = Returns r ->
  exists l, over h0 l (r_heap r)
    /\ l.*2 = generate_leaks V t ctx history prompt (has_image image_data image_size) nn.
Proof.
  intros HM Hctx. pose proof HM as (model & B & _ & P & _). unfold gpuf_generate_multimodal. rewrite B.
  destruct (mtmd_context model); [clear P|done].
  destruct (call_context x ctx nn h0) as [a|] eqn:C; [|done].
  pose proof (call_context_effect _ _ _ _ _ HM Hctx C) as E. destruct a as [[[c created]|] h].
  2: { destruct E as (O & -> & N). intros [= <-]. exists []. unfold generate_leaks. rewrite N. by split. }
  destruct E as (l & O & El & U & Hc & Hl & Hnn). unfold generate_leaks, from_utf8.
  assert (bool_decide (ctx = None) && negb (nn_context nn) = false) as ->.
  { case_bool_decide; [|done]. by rewrite Hnn. }
  destruct (valid_utf8 prompt); cbn [negb orb]; [|intros [= <-]; by exists l].
  destruct (nn_chunks nn); cbn [negb]; [|intros [= <-]; by exists l].
  destruct (over_create h0 l h OChunks O) as [E1 O2].
  destruct (create true OChunks h) as [r' h1]. cbn in E1, O2. subst r'. set (chunks := h_next h) in *.
  assert (forall res m h2, over h0 ((chunks, OChunks) :: l) h2 ->
    over h0 [] (r_heap (count_response res m (if created then release c (release chunks h2) else release chunks h2)))) as Done.
  { intros res m h2 O3. eapply over_quiet; [|apply count_response_heap].
    eapply (stream_cleanup_effect l h2 chunks c t created); [exact O3|exact Hl]. }
  destruct (has_image image_data image_size) as [d|].
  2: { unfold generate_text_only. destruct (_ =? 0) eqn:T.
       - pose proof (copy_response_quiet (b!"GPUFabric: libmtmd text-only generation successful (prompt "
           ++ dec (blen prompt) ++ b!" bytes)") n mem h1) as Q.
         destruct (copy_response _ n mem h1) as [m h2]. intros [= <-]. exists []. split; [|done].
         apply Done. by eapply over_quiet.
       - intros [= <-]. exists []. split; [by apply Done|done]. }
  unfold generate_with_image. pose proof (bitmap_effect _ _ (nn_bitmap nn) d O2) as BE.
  destruct (mtmd_bitmap_init V (nn_bitmap nn) d h1) as [[b|] h2]; cbn in BE; destruct BE as [-> O3]; cbn [andb].
  2: { intros [= <-]. exists []. split; [by apply Done|done]. }
  assert ((if created then [] else history) = match ctx with Some _ => history | None => [] end) as Hh.
  { subst created. by destruct ctx. }
  rewrite Hh. set (hist := match ctx with Some _ => history | None => [] end).
  set (rq := mkRequest prompt true [bitmap_pixels V d]). unfold evaluates.
  destruct (mtmd_tokenize V rq =? 0); cbn [negb andb].
  2: { intros [= <-]. exists []. split; [|done]. apply Done. exact (over_release h0 F [] _ _ _ _ O3). }
  destruct (answer_image _ _ _ _ _ _ _ _ _ _) as [a|] eqn:A; [|done].
  eapply answer_image_effect in A; [|exact O3|destruct U as [U|[U1 U2]]; [by left|right; split; [by do 2 right|done]]].
  destruct a as [[[m h3] code]|[m h3]]; destruct A as [O4 A]; rewrite A; intros [= <-].
  - exists ((b, OBitmap) :: (chunks, OChunks) :: l). split; [done|]. cbn. by rewrite El.
  - exists []. split; [|done]. apply Done. exact (over_release h0 F [] _ _ _ _ O4).
Qed.
End Effects.

(** ** An app's calls *)

(** Every box owns a text model and a projector on it, and no two own the same. *)
Record owned (h : Heap) : Prop := {
  own_fresh : fresh_heap h;
  own_box x m : h_live h !! x = Some (OBox m) -> exists t c, text_model m = Some t
    /\ mtmd_context m = Some c /\ h_live h !! t = Some OModel /\ h_live h !! c = Some (OMtmd t);
  own_text x y m n : h_live h !! x = Some (OBox m) -> h_live h !! y = Some (OBox n) ->
    text_model m = text_model n -> x = y }.

Definition is_box (o : Object) : bool := match o with OBox _ => true | _ => false end.

(** llama.cpp fails no assertion on a single token, and a piece that does not fit its buffer
    is announced by a negative length. *)
Definition steady (L : Llama) : Prop :=
  (forall history t p, llama_decode L history (single t p) <> None)
  /\ (forall t, (llama_token_to_piece L t 32 false).1 <= 32).

(** The calls; contexts are freed by llama.cpp's own [llama_free]. *)
Inductive VisionCall :=
  | LoadCall (F : ModelFiles) (text_path mmproj_path : option bytes)
  | ContextCall (p : option nat) (ok : bool)
  | GenerateCall (L : Llama) (V : Mtmd) (p ctx : option nat) (history : list Batch)
      (prompt image : option bytes) (image_size : Z) (sa : SampleArgs) (output : option bytes)
      (output_len : Z) (nn : NonNull)
  | StreamCall (L : Llama) (V : Mtmd) (p ctx : option nat) (history : list Batch)
      (prompt image : option bytes) (image_size : Z) (sa : SampleArgs) (on_token on_complete : bool)
      (nn : NonNull)
  | FreeCall (p : option nat)
  | FreeContextCall (c : nat).

Definition vision_call (k : VisionCall) (h : Heap) : ffi Heap :=
  match k with
  | LoadCall F t m => Returns (gpuf_load_multimodal_model F t m h).2
  | ContextCall p ok =>
      match gpuf_create_multimodal_context p ok h with Returns (_, h) => Returns h | Aborts => Aborts end
  | GenerateCall L V p ctx hist prompt image size sa out n nn =>
      match gpuf_generate_multimodal L V p ctx hist prompt image size sa out n nn h with
      | Returns r => Returns (r_heap r) | Aborts => Aborts end
  | StreamCall L V p ctx hist prompt image size sa ot oc nn =>
      match gpuf_generate_multimodal_stream L V p ctx hist prompt image size sa ot oc nn h with
      | Returns r => Returns (sr_heap r) | Aborts => Aborts end
  | FreeCall p => gpuf_free_multimodal_model p h
  | FreeContextCall c => Returns (release c h)
  end.

Fixpoint vision_run (ks : list VisionCall) (h : Heap) : ffi Heap :=
  match ks with
  | [] => Returns h
  | k :: ks => match vision_call k h with Returns h => vision_run ks h | Aborts => Aborts end
  end.

Definition box_or_null (h : Heap) (p : option nat) : Prop :=
  match p with None => True | Some x => is_Some (box_at x h) end.

(** The app passes null or what it was given and has not freed, and a context only while
    the model it was created from lives. *)
Definition respects (h : Heap) (k : VisionCall) : Prop :=
  match k with
  | LoadCall _ _ _ => True
  | ContextCall p _ | FreeCall p => box_or_null h p
  | GenerateCall L _ p ctx _ _ _ _ _ _ _ _ | StreamCall L _ p ctx _ _ _ _ _ _ _ _ =>
      steady L /\ box_or_null h p /\ (forall c, ctx = Some c -> usable h c)
  | FreeContextCall c => exists m, h_live h !! c = Some (OContext m)
  end.

Fixpoint respectful (ks : list VisionCall) (h : Heap) : Prop :=
  match ks with
  | [] => True
  | k :: ks => respects h k /\ forall h', vision_call k h = Returns h' -> respectful ks h'
  end.

(** *** The invariant is kept *)

Lemma owned_over h l h' : owned h -> over h l h' -> Forall (fun o => is_box o = false) l.*2 -> owned h'.
Proof.
  intros [F B T] O Hl. assert (forall x m, h_live h' !! x = Some (OBox m) -> h_live h !! x = Some (OBox m)) as Old.
  { intros x m Hx. destruct (decide (x ∈ l.*1)) as [(p & -> & Hp)%list_elem_of_fmap|Hn].
    - destruct O as [O1 O2 _ _ _]. destruct p as [y o]. rewrite O1, (extend_lookup_in l _ y o O2 Hp) in Hx.
      cbn in Hx. simplify_eq. rewrite Forall_forall in Hl.
      discriminate (Hl (OBox m) ltac:(apply list_elem_of_fmap; by exists (y, OBox m))).
    - destruct O as [O1 _ _ _ _]. by rewrite O1, extend_lookup in Hx. }
  assert (forall x o, h_live h !! x = Some o -> h_live h' !! x = Some o) as New.
  { intros x o Hx. rewrite (over_old h l h' x O); [done|by eapply fresh_lt]. }
  split; [by eapply over_fresh|..].
  - intros x m Hx. destruct (B x m (Old x m Hx)) as (t & c & ? & ? & ? & ?). exists t, c. auto.
  - intros x y m n Hx Hy. apply (T x y m n); auto.
Qed.

Lemma model_owned h x : owned h -> is_Some (box_at x h) -> exists t, model_at h x t.
Proof.
  intros [F B T] [m E]. pose proof E as E'. unfold box_at in E'.
  destruct (h_live h !! x) as [[| | | | |m']|] eqn:Hx; try done. simplify_eq.
  destruct (B x m Hx) as (t & c & ? & Hc & ? & ?). exists t, m. by rewrite Hc.
Qed.

Lemma generate_leaks_plain V t ctx hist prompt image nn :
  Forall (fun o => is_box o = false) (generate_leaks V t ctx hist prompt image nn).
Proof.
  assert (Forall (fun o => is_box o = false) (own_context t ctx nn)) as Hown.
  { unfold own_context. destruct ctx; [constructor|]. destruct (nn_context nn); repeat constructor. }
  unfold generate_leaks. destruct (_ && _); [constructor|]. destruct (_ || _); [done|].
  destruct image; [|constructor]. destruct (_ && _ && _); [by do 2 constructor|constructor].
Qed.

Lemma stream_leaks_plain t ctx prompt nn : Forall (fun o => is_box o = false) (stream_leaks t ctx prompt nn).
Proof.
  unfold stream_leaks, own_context. destruct (valid_utf8 prompt), ctx, (nn_context nn); repeat constructor.
Qed.

Lemma load_effect F tp mp h : fresh_heap h ->
  let r := gpuf_load_multimodal_model F tp mp h in
  match r.1 with
  | None => over h [] r.2
  | Some x => exists t c ty, over h [(x, OBox (mkMultimodal (Some t) (Some c) ty true (media_marker ty)));
                                     (c, OMtmd t); (t, OModel)] r.2
  end.
Proof.
  intros Fh. unfold gpuf_load_multimodal_model. destruct tp as [tp|]; [|by apply over_refl].
  destruct mp as [mp|]; [|by apply over_refl].
  destruct (llama_load_model_from_file F tp); [|by apply over_refl].
  destruct (over_create h [] h OModel (over_refl h)) as [E O]. destruct (create true OModel h) as [r1 h1].
  cbn in E, O. subst r1. set (ty := detect_model_type_from_path _).
  destruct (mtmd_init_from_file F _ _).
  2: { cbn. exact (over_release h Fh [] _ _ _ _ O). }
  destruct (over_create h _ h1 (OMtmd (h_next h)) O) as [E2 O2].
  destruct (create true (OMtmd (h_next h)) h1) as [r2 h2]. cbn in E2, O2. subst r2.
  set (box := OBox _). destruct (over_create h _ h2 box O2) as [E3 O3].
  destruct (create true box h2) as [r3 h3]. cbn in E3, O3. subst r3. cbn. by exists (h_next h), (h_next h1), ty.
Qed.

Lemma load_owned F tp mp h : owned h -> owned (gpuf_load_multimodal_model F tp mp h).2
  /\ no_dangling h (gpuf_load_multimodal_model F tp mp h).2.
Proof.
  intros Hown. pose proof (load_effect F tp mp h (own_fresh h Hown)) as E. cbn zeta in E.
  destruct (gpuf_load_multimodal_model F tp mp h) as [[x|] h']; cbn in *.
  2: { split; [by eapply owned_over|by destruct E]. }
  destruct E as (t & c & ty & O). split; [|by destruct O]. pose proof O as [O1 O2 O3 _ _].
  assert (forall y, h_live h !! y = None \/ h_live h' !! y = h_live h !! y) as Old.
  { intros y. destruct (Nat.lt_ge_cases y (h_next h)); [right; by eapply over_old|left; by apply Hown]. }
  assert (h_live h' !! x = Some (OBox (mkMultimodal (Some t) (Some c) ty true (media_marker ty)))
    /\ h_live h' !! c = Some (OMtmd t) /\ h_live h' !! t = Some OModel) as (X & Cx & T).
  { rewrite O1. repeat split; (apply extend_lookup_in; [done|]); [left|right; left|do 2 right; left]. }
  assert (forall y m, h_live h' !! y = Some (OBox m) -> y = x \/ h_live h !! y = Some (OBox m)) as Box.
  { intros y m Hy. rewrite O1 in Hy. cbn in Hy. destruct (decide (y = x)) as [->|]; [by left|right].
    rewrite lookup_insert_ne in Hy by done. destruct (decide (y = c)) as [->|]; [by rewrite lookup_insert_eq in Hy|].
    rewrite lookup_insert_ne in Hy by done. destruct (decide (y = t)) as [->|]; [by rewrite lookup_insert_eq in Hy|].
    by rewrite lookup_insert_ne in Hy. }
  assert (forall y m, h_live h !! y = Some (OBox m) -> text_model m <> Some t) as Tn.
  { intros y m Hy E. destruct (own_box h Hown y m Hy) as (t' & c' & E1 & _ & E2 & _). rewrite E1 in E. simplify_eq.
    apply (fresh_lt h t OModel (own_fresh h Hown)) in E2. cbn in O3.
    apply Forall_cons in O3 as [_ [_ [O3 _]%Forall_cons]%Forall_cons]. cbn in O3. lia. }
  split; [by eapply over_fresh; [apply Hown|]|..].
  - intros y m Hy. destruct (Box y m Hy) as [->|Hy'].
    + rewrite X in Hy. simplify_eq. by exists t, c.
    + destruct (own_box h Hown y m Hy') as (t' & c' & ? & ? & Ht & Hc). exists t', c'.
      destruct (Old t') as [E| ->]; [congruence|]. destruct (Old c') as [E| ->]; [congruence|]. done.
  - intros y z m n Hy Hz Hmn. destruct (Box y m Hy) as [->|Hy'], (Box z n Hz) as [->|Hz']; try done.
    + rewrite X in Hy. simplify_eq. by destruct (Tn z n Hz').
    + rewrite X in Hz. simplify_eq. by destruct (Tn y m Hy').
    + by apply (own_text h Hown y z m n).
Qed.

Lemma release_live x o h : h_live h !! x = Some o ->
  h_live (release x h) = delete x (h_live h) /\ h_next (release x h) = h_next h
  /\ h_faults (release x h) = h_faults h.
Proof. intros E. unfold release. by rewrite E. Qed.

Lemma free_effect h x m t c : h_live h !! x = Some (OBox m) -> text_model m = Some t ->
  mtmd_context m = Some c -> h_live h !! t = Some OModel -> h_live h !! c = Some (OMtmd t) ->
  exists h', gpuf_free_multimodal_model (Some x) h = Returns h'
    /\ h_live h' = delete x (delete c (delete t (h_live h))) /\ h_next h' = h_next h /\ h_faults h' = h_faults h.
Proof.
  intros X T C Ht Hc. unfold gpuf_free_multimodal_model, box_at. rewrite X, T, C. cbn [release_if].
  destruct (release_live t _ h Ht) as (A1 & A2 & A3). set (h1 := release t h) in *.
  destruct (release_live c (OMtmd t) h1) as (B1 & B2 & B3); [rewrite A1, lookup_delete_ne; [done|congruence]|].
  set (h2 := release c h1) in *.
  destruct (release_live x (OBox m) h2) as (D1 & D2 & D3).
  { rewrite B1, A1, !lookup_delete_ne; [done|congruence|congruence]. }
  exists (release x h2). split; [done|]. by rewrite D1, B1, A1, D2, B2, A2, D3, B3, A3.
Qed.

Lemma free_owned h p : owned h -> box_or_null h p ->
  exists h', gpuf_free_multimodal_model p h = Returns h' /\ owned h' /\ no_dangling h h'.
Proof.
  intros Hown. destruct p as [x|]; [|intros _; exists h; split_and!; [done..|by intros y]]. intros [m E]. unfold box_at in E.
  destruct (h_live h !! x) as [[| | | | |m']|] eqn:X; try done. simplify_eq.
  destruct (own_box h Hown x m X) as (t & c & T & C & Ht & Hc).
  destruct (free_effect h x m t c X T C Ht Hc) as (h' & R & E1 & E2 & E3).
  exists h'. split; [done|]. split; [|intros y; by rewrite E3].
  assert (forall y n, h_live h' !! y = Some (OBox n) -> y <> x /\ h_live h !! y = Some (OBox n)) as Box.
  { intros y n. rewrite E1, !lookup_delete_Some. naive_solver. }
  split.
  - intros y Hy. rewrite E1, !lookup_delete_None. do 3 right. apply Hown. lia.
  - intros y n Hy. destruct (Box y n Hy) as [Hn Hy']. destruct (own_box h Hown y n Hy') as (t' & c' & T' & C' & Ht' & Hc').
    assert (t' <> t) as Hne by (intros ->; apply Hn; eapply (own_text h Hown y x n m); congruence).
    exists t', c'. repeat split; try done.
    + rewrite E1, !lookup_delete_ne; [done|done|congruence|congruence].
    + rewrite E1, !lookup_delete_ne; [done|congruence|congruence|congruence].
  - intros y z n1 n2 Hy Hz. apply Box in Hy as [_ Hy], Hz as [_ Hz]. by apply (own_text h Hown y z n1 n2).
Qed.

Lemma free_context_owned h c m : owned h -> h_live h !! c = Some (OContext m) -> owned (release c h).
Proof.
  intros Hown Hc. destruct (release_live c _ h Hc) as (E1 & E2 & E3).
  assert (forall x o, h_live (release c h) !! x = Some o -> h_live h !! x = Some o) as Old.
  { intros x o. rewrite E1, lookup_delete_Some. by intros [_ ?]. }
  split.
  - intros x. rewrite E1, E2. intros Hx. rewrite lookup_delete_None. right. by apply Hown.
  - intros x n Hx%Old. destruct (own_box h Hown x n Hx) as (t & d & ? & ? & Ht & Hd). exists t, d.
    rewrite E1, !lookup_delete_ne by congruence. done.
  - intros x y n1 n2 Hx%Old Hy%Old. by apply (own_text h Hown x y n1 n2).
Qed.

(** *** Calls that respect the handles return *)

Section Returns.
Context (L : Llama) (V : Mtmd) (S : steady L).

Lemma decode_steady history t p : exists z, llama_decode L history (single t p) = Some z.
Proof. destruct S as [S1 _]. specialize (S1 history t p). destruct (llama_decode _ _ _); [by eexists|done]. Qed.

Lemma multimodal_loop_returns rounds chain mt s : exists s', multimodal_loop L rounds chain mt s = Returns s'.
Proof.
  revert s. induction rounds as [|rounds IH]; intros s; cbn [multimodal_loop]; [by eexists|].
  set (t := llama_sampler_sample L chain (mm_decoded s) (-1)).
  destruct (llama_vocab_is_eog L t); [by eexists|]. destruct (llama_vocab_is_control L t).
  { destruct (decode_steady (mm_decoded s) t (mm_past s)) as [[|c|c] ->]; [apply IH|by eexists..]. }
  destruct (llama_token_to_piece L t 64 false) as [len written].
  set (s1 := if 0 <? len then _ else s).
  destruct (decode_steady (mm_decoded s1) t (mm_past s)) as [[|c|c] ->]; [|by eexists..].
  destruct (_ || _); [by eexists|apply IH].
Qed.

Lemma inline_stream_returns fuel chain cb mt s : exists s', inline_stream L V fuel chain cb mt s = Returns s'.
Proof.
  revert s. induction fuel as [|fuel IH]; intros s; cbn [inline_stream]; [by eexists|].
  destruct (_ && _); [|by eexists]. destruct (negb _); [by eexists|].
  set (t := llama_sampler_sample L chain (mm_decoded s) (-1)). destruct (llama_vocab_is_eog L t); [by eexists|].
  destruct S as [_ S2]. specialize (S2 t). destruct (llama_token_to_piece L t 32 false) as [len written]. cbn in S2.
  rewrite (proj2 (Z.ltb_ge 32 len)) by lia. set (s1 := if 0 <? len then _ else s).
  destruct (decode_steady (mm_decoded s1) t (mm_past s1)) as [[|c|c] ->]; [apply IH|by eexists..].
Qed.

Lemma vocab_response_returns a b c v mt np temp tk tp rp decoded :
  exists text, generate_multimodal_response_with_vocab L a b c v mt np temp tk tp rp decoded = Returns text.
Proof.
  unfold generate_multimodal_response_with_vocab. destruct a, b, c; try by eexists.
  destruct (v =? 0); [by eexists|]. edestruct (multimodal_loop_returns (Z.to_nat mt)) as [s' ->]. by eexists.
Qed.
End Returns.

Lemma generate_returns L V p ctx hist prompt image size sa out n nn h : steady L -> owned h ->
  box_or_null h p -> exists r, gpuf_generate_multimodal L V p ctx hist prompt image size sa out n nn h = Returns r.
Proof.
  intros St Hown Hp. unfold gpuf_generate_multimodal. destruct p as [x|]; [|by eexists].
  destruct prompt as [prompt|]; [|by eexists]. destruct out as [mem|]; [|by eexists].
  destruct (model_owned h x Hown Hp) as (t & model & B & T & M & _). rewrite B.
  destruct (mtmd_context model); [|done].
  assert (exists a, call_context x ctx nn h = Returns a) as [a ->].
  { unfold call_context, gpuf_create_multimodal_context. destruct ctx; [by eexists|]. rewrite B, T.
    destruct (create _ _ _) as [[c|] h1]; by eexists. }
  destruct a as [[[c created]|] h1]; [|by eexists]. destruct (from_utf8 prompt); [|by eexists].
  destruct (create (nn_chunks nn) OChunks h1) as [[chunks|] h2]; [|by eexists].
  destruct (has_image image size) as [d|].
  2: { destruct (generate_text_only V prompt n mem h2) as [res [m h3]]. by eexists. }
  unfold generate_with_image. destruct (mtmd_bitmap_init V (nn_bitmap nn) d h2) as [[b|] h3]; [|by eexists].
  destruct (negb _); [by eexists|]. set (hist' := if created then [] else hist). unfold answer_image.
  destruct (mtmd_helper_eval_chunks V hist' _) as [[er np] dec].
  destruct (negb (er =? 0)).
  { destruct (copy_message _ _ _ _) as [[m h4] k]. by eexists. }
  destruct (nn_model nn); cbn [negb].
  2: { destruct (copy_message _ _ _ _) as [[m h4] k]. by eexists. }
  destruct (nn_vocab nn); cbn [negb].
  2: { destruct (copy_message _ _ _ _) as [[m h4] k]. by eexists. }
  edestruct (vocab_response_returns L St) as [text ->]. destruct (copy_response _ _ _ _) as [m h4]. by eexists.
Qed.

Lemma stream_returns L V p ctx hist prompt image size sa ot oc nn h : steady L -> owned h ->
  box_or_null h p -> exists r, gpuf_generate_multimodal_stream L V p ctx hist prompt image size sa ot oc nn h = Returns r.
Proof.
  intros St Hown Hp. unfold gpuf_generate_multimodal_stream. destruct p as [x|]; [|by eexists].
  destruct prompt as [prompt|]; [|by eexists].
  destruct (model_owned h x Hown Hp) as (t & model & B & T & M & _). rewrite B.
  destruct (mtmd_context model); [|done].
  assert (exists a, call_context x ctx nn h = Returns a) as [a ->].
  { unfold call_context, gpuf_create_multimodal_context. destruct ctx; [by eexists|]. rewrite B, T.
    destruct (create _ _ _) as [[c|] h1]; by eexists. }
  destruct a as [[[c created]|] h1]; [|by eexists]. destruct (from_utf8 prompt); [|by eexists].
  destruct (create (nn_chunks nn) OChunks h1) as [[chunks|] h2]; [|by eexists].
  destruct (stream_bitmaps _ _ _ _) as [bs h3]. destruct (negb _); [by eexists|]. unfold stream_answer.
  destruct (mtmd_helper_eval_chunks _ _ _) as [[er np] dec]. destruct (_ || _ || _); [by eexists|].
  edestruct (inline_stream_returns L V St) as [s ->]. by eexists.
Qed.

(** One call of an app that respects its handles. *)
Lemma vision_call_safe k h : owned h -> respects h k ->
  exists h', vision_call k h = Returns h' /\ owned h' /\ no_dangling h h'.
Proof.
  intros Hown. pose proof (own_fresh h Hown) as Fh.
  assert (forall l h', over h l h' -> Forall (fun o => is_box o = false) l.*2 -> owned h' /\ no_dangling h h') as Over.
  { intros l h' O Hl. split; [by eapply owned_over|by destruct O]. }
  destruct k as [F t m|p ok|L V p ctx hist prompt image size sa out n nn|L V p ctx hist prompt image size sa ot oc nn|p|c];
    cbn [respects vision_call].
  - intros _. exists (gpuf_load_multimodal_model F t m h).2. split; [done|]. by apply load_owned.
  - intros Hp. unfold gpuf_create_multimodal_context. destruct p as [x|].
    2: { exists h. split; [done|]. apply (Over []); [by apply over_refl|constructor]. }
    destruct (model_owned h x Hown Hp) as (t & model & B & T & _ & _). rewrite B, T. destruct ok.
    + destruct (over_create h [] h (OContext t) (over_refl h)) as [_ O]. eexists. split; [done|].
      eapply Over; [exact O|]. by repeat constructor.
    + exists h. split; [done|]. apply (Over []); [by apply over_refl|constructor].
  - intros (St & Hp & Hc). destruct (generate_returns L V p ctx hist prompt image size sa out n nn h St Hown Hp) as [r E].
    rewrite E. exists (r_heap r). split; [done|]. destruct p as [x|], prompt as [prompt|], out as [mem|];
      try by (injection E as <-; apply (Over []); [by apply over_refl|constructor]).
    destruct (model_owned h x Hown Hp) as [t HM].
    destruct (generate_effect L V h Fh x t ctx hist prompt image size sa mem n nn r HM Hc E) as (l & O & El).
    apply (Over l); [done|]. rewrite El. apply generate_leaks_plain.
  - intros (St & Hp & Hc). destruct (stream_returns L V p ctx hist prompt image size sa ot oc nn h St Hown Hp) as [r E].
    rewrite E. exists (sr_heap r). split; [done|]. destruct p as [x|], prompt as [prompt|];
      try by (injection E as <-; apply (Over []); [by apply over_refl|constructor]).
    destruct (model_owned h x Hown Hp) as [t HM].
    destruct (stream_effect L V h Fh x t ctx hist prompt image size sa ot oc nn r HM Hc E) as (l & O & El).
    apply (Over l); [done|]. rewrite El. apply stream_leaks_plain.
  - intros Hp. by apply free_owned.
  - intros [m Hc]. exists (release c h). split; [done|]. split; [by eapply free_context_owned|].
    destruct (release_live c _ h Hc) as (_ & _ & E). intros x. by rewrite E.
Qed.

Lemma heap_start_owned : owned heap_start.
Proof. split; [by intros x _|by intros x m H|by intros x y m n H]. Qed.



(** Freeing a model gives back everything its loading created. *)
Theorem loaded_model_is_freed (F : ModelFiles) (tp mp : option bytes) (h : Heap) :
  owned h ->
  match gpuf_load_multimodal_model F tp mp h with
  | (None, h') => h_live h' = h_live h
  | (Some x, h') => exists t h'', model_at h' x t
      /\ gpuf_free_multimodal_model (Some x) h' = Returns h'' /\ h_live h'' = h_live h
  end.
Proof.
  intros Hown. pose proof (own_fresh h Hown) as Fh. pose proof (load_effect F tp mp h Fh) as E. cbn zeta in E.
  destruct (gpuf_load_multimodal_model F tp mp h) as [[x|] h']; cbn in E; [|by destruct E].
  destruct E as (t & c & ty & O). pose proof O as [O1 O2 O3 _ _].
  assert (h_live h' !! x = Some (OBox (mkMultimodal (Some t) (Some c) ty true (media_marker ty)))
    /\ h_live h' !! c = Some (OMtmd t) /\ h_live h' !! t = Some OModel) as (X & Cx & T).
  { rewrite O1. repeat split; (apply extend_lookup_in; [done|]); [left|right; left|do 2 right; left]. }
  set (box := OBox _) in *. exists t, (release x (release c (release t h'))). split_and!.
  - exists (mkMultimodal (Some t) (Some c) ty true (media_marker ty)). unfold box_at. rewrite X. by split_and!.
  - unfold gpuf_free_multimodal_model, box_at. by rewrite X.
  - assert (P := over_release h Fh [(x, box); (c, OMtmd t)] t OModel [] h' O). cbn [app] in P.
    apply (over_release h Fh [(x, box)] c (OMtmd t) []) in P. cbn [app] in P.
    apply (over_release h Fh [] x box []) in P. by destruct P.
Qed.

(** ** An app at work *)

Section Demo.
(** A model that answers "Hi", one byte per token. *)
Definition ascii_llama : Llama := {|
  llama_tokenize := fun text _ _ => (blen text, Z_of_byte <$> text);
  llama_n_batch := 128; llama_n_ctx := 512;
  llama_decode := fun _ b => if 128 <? blen (b_tokens b) then None else Some 0;
  llama_sampler_sample := fun _ h _ => match length h with 1%nat => 72 | 2%nat => 105 | _ => 0 end;
  llama_vocab_is_eog := fun t => t =? 0; llama_vocab_is_control := fun _ => false;
  llama_token_eos := 0;
  llama_token_to_piece := fun t _ _ => if (1 <=? t) && (t <? 128) then (1, [byte_of_Z t]) else (0, []) |}.

Definition demo_mtmd : Mtmd := {|
  mtmd_tokenize := fun _ => 0;
  mtmd_helper_eval_chunks := fun _ _ => (0, 7, [mkBatch [] [] []]);
  mtmd_bitmap_reads := fun w h => w * h * 3;
  llama_get_logits := fun _ => true; llama_vocab_n_tokens := 128 |}.

Definition demo_files : ModelFiles := mkModelFiles (fun _ => true) (fun _ _ => true).
Definition all_fine : NonNull := mkNonNull true true true true true.
Definition model_null : NonNull := mkNonNull true true true false true.
Definition demo_sampling : SampleArgs := mkSampleArgs 8 0 40 0 0.
Definition demo_image : bytes := [Byte.x01; Byte.x02; Byte.x03].
Definition demo_out : bytes := repeat Byte.x20 8.

Lemma ascii_steady : steady ascii_llama.
Proof.
  split; cbn.
  - done.
  - intros t. by destruct ((1 <=? t) && (t <? 128)).
Qed.

(** Loading (the box gets handle 2), a context (3), two answers, one of them with a context of
    its own, and freeing everything. *)
Definition demo_session : list VisionCall := [
  LoadCall demo_files (Some b!"/sdcard/Qwen2-VL.gguf") (Some b!"/sdcard/mmproj.gguf");
  ContextCall (Some 2%nat) true;
  GenerateCall ascii_llama demo_mtmd (Some 2%nat) (Some 3%nat) [] (Some b!"what?") (Some demo_image) 3
    demo_sampling (Some demo_out) 8 all_fine;
  StreamCall ascii_llama demo_mtmd (Some 2%nat) None [] (Some b!"what?") None 0 demo_sampling true true all_fine;
  FreeContextCall 3%nat; FreeCall (Some 2%nat)].

Ltac call_runs := let h := fresh "h" in let E := fresh "E" in
  intros h E; vm_compute in E; injection E as <-.

Lemma demo_respectful : respectful demo_session heap_start.
Proof.
  cbn [demo_session respectful]. split; [exact I|]. call_runs. split; [by eexists|]. call_runs. split.
  { split; [exact ascii_steady|]. split; [by eexists|]. intros c [= <-]. exists 0%nat. split; vm_compute; reflexivity. }
  call_runs. split; [split; [exact ascii_steady|split; [by eexists|by intros c [=]]]|].
  call_runs. split; [by exists 0%nat|]. call_runs. split; [by eexists|done].
Qed.


(** The heap after loading. *)
Definition demo_loaded : Heap :=
  (gpuf_load_multimodal_model demo_files (Some b!"/sdcard/Qwen2-VL.gguf") (Some b!"/sdcard/mmproj.gguf") heap_start).2.

Lemma demo_loaded_owned : owned demo_loaded.
Proof. exact (proj1 (load_owned demo_files _ _ heap_start heap_start_owned)). Qed.


Lemma loaded_model_is_freed_witness :
  match gpuf_load_multimodal_model demo_files (Some b!"a") (Some b!"b") heap_start with
  | (None, h') => h_live h' = h_live heap_start
  | (Some x, h') => exists t h'', model_at h' x t
      /\ gpuf_free_multimodal_model (Some x) h' = Returns h'' /\ h_live h'' = h_live heap_start
  end.
Proof. exact (loaded_model_is_freed demo_files (Some b!"a") (Some b!"b") heap_start heap_start_owned). Defined.
End Demo.
