(* ===== verification/VisionText.v ===== *)
(** * The texts of the multimodal calls

    What [gpuf_generate_multimodal] puts into the caller's buffer and what it returns, and
    when the token loop written out in the streaming call agrees with the one of
    [generate_multimodal_response_with_callbacks]. *)

From S2P Require Import Prelude Wire Text Output LlamaEngine Generate Mobile Api SdkWorker ModelSwap AndroidSdk Vision VisionFacts.
From Stdlib Require Import ZArith Lia String.
From Stdlib Require Import Strings.Byte.
From stdpp Require Import base list gmap pretty.

Local Open Scope Z_scope.
Import Emit EmitFacts TextFacts.

(** ** Numbers in a message *)

Lemma pretty_go_digits (k : nat) (x : N) (s : string) : (x < 10 ^ N.of_nat k)%N ->
  forallb ModelId.is_digit (bs s) = true ->
  forallb ModelId.is_digit (bs (pretty_N_go x s)) = true /\ (length (bs (pretty_N_go x s)) <= k + length (bs s))%nat.
Proof.
  revert x s. induction k as [|k IH]; intros x s Hx Hs.
  - assert (x = 0%N) as -> by (cbn in Hx; lia). rewrite pretty_N_go_0. by split.
  - destruct (decide (0 < x)%N) as [Hp|Hp]; [|assert (x = 0%N) as -> by lia; rewrite pretty_N_go_0; split; [done|lia]].
    rewrite pretty_N_go_step by done.
    destruct (ApiFacts.digit_value (x mod 10)%N) as [D _]; [by apply N.mod_lt|].
    destruct (IH (x `div` 10)%N (String.String (pretty_N_char (x mod 10)%N) s)) as [A B].
    + apply N.Div0.div_lt_upper_bound. rewrite Nat2N.inj_succ, N.pow_succ_r' in Hx. lia.
    + change (bs (String.String (pretty_N_char (x mod 10)%N) s)) with (Ascii.byte_of_ascii (pretty_N_char (x mod 10)%N) :: bs s).
      cbn [forallb]. unfold ModelId.is_digit at 1. by rewrite D.
    + split; [done|]. etrans; [exact B|].
      change (bs (String.String (pretty_N_char (x mod 10)%N) s)) with (Ascii.byte_of_ascii (pretty_N_char (x mod 10)%N) :: bs s).
      cbn [length]. lia.
Qed.

Lemma dec_short (z : Z) : 0 <= z < 2 ^ 63 -> forallb ModelId.is_digit (dec z) = true /\ blen (dec z) <= 20.
Proof.
  intros Hz. destruct z as [|p|p]; [by vm_compute| |lia]. unfold dec.
  change (pretty.pretty (Z.pos p)) with (pretty_N_go (N.pos p) "").
  destruct (pretty_go_digits 20 (N.pos p) "") as [A B]; [|done|].
  - change (10 ^ N.of_nat 20)%N with 100000000000000000000%N. lia.
  - split; [done|]. unfold blen. change (length (bs "")) with 0%nat in B. lia.
Qed.

Lemma digits_utf8 s : forallb ModelId.is_digit s = true -> utf8 s /\ has_nul s = false.
Proof.
  induction s as [|b s IH]; cbn [forallb]; [intros _; split; [constructor|done]|].
  intros [Hb Hs]%andb_true_iff. destruct (IH Hs) as [A B]. split.
  - apply (utf8_char (b :: s) 1); [|done]. unfold ModelId.is_digit in Hb.
    destruct b; first [reflexivity|discriminate Hb].
  - unfold has_nul in *. apply bool_decide_eq_false in B. apply bool_decide_eq_false.
    apply not_elem_of_cons. split; [|done]. intros <-. discriminate Hb.
Qed.

Lemma has_nul_app s t : has_nul (s ++ t) = has_nul s || has_nul t.
Proof. unfold has_nul. apply eq_true_iff_eq. by rewrite orb_true_iff, !bool_decide_eq_true, elem_of_app. Qed.

(** ** The caller's buffer *)

(** [text], which has no NUL, was put into the first [n] bytes of a memory. *)
Record wrote (text : bytes) (n : Z) (mem mem' : bytes) : Prop := {
  wr_length : length mem' = length mem;
  wr_after : drop (Z.to_nat n) mem' = drop (Z.to_nat n) mem;
  wr_fits : blen text < n -> c_str mem' = text /\ has_nul mem' = true;
  wr_full : n <= blen text -> take (Z.to_nat n) mem' = take (Z.to_nat n) text }.

Section Buffer.
Context (text : bytes) (Hn : has_nul text = false) (n : Z) (mem : bytes) (h : Heap).
Context (Hlen : 0 <= n <= blen mem) (Hsmall : n < 2 ^ 63).

Lemma c_string_bytes_eq : c_string_bytes text = text ++ [Byte.x00].
Proof. unfold c_string_bytes. by rewrite Hn. Qed.

Lemma wrap_n : wrap 64 n = n.
Proof. unfold wrap. apply Z.mod_small. lia. Qed.

Lemma copy_message_eq : let k := Z.min (blen text + 1) n in
  (copy_message text n mem h).1.1 = take (Z.to_nat k) (text ++ [Byte.x00]) ++ drop (Z.to_nat k) mem
  /\ (copy_message text n mem h).2 = k.
Proof.
  unfold copy_message. rewrite c_string_bytes_eq, wrap_n, blen_app. change (blen [Byte.x00]) with 1.
  cbn zeta. split; [|by destruct (write_front _ _ _)]. unfold write_front. cbn [fst]. do 2 f_equal.
  rewrite length_take, length_app. cbn [length]. unfold blen. lia.
Qed.

Lemma copied_wrote : let k := Z.to_nat (Z.min (blen text + 1) n) in
  wrote text n mem (take k (text ++ [Byte.x00]) ++ drop k mem).
Proof.
  cbn zeta. set (k := Z.to_nat _). assert (k <= length (text ++ [Byte.x00]))%nat as Hk.
  { unfold k. rewrite length_app. cbn [length]. unfold blen. lia. }
  assert (length (take k (text ++ [Byte.x00])) = k) as Ht by (rewrite length_take; lia).
  unfold blen in *. split.
  - rewrite length_app, Ht, length_drop. unfold k. lia.
  - rewrite drop_app, Ht, drop_drop. rewrite drop_ge by (rewrite Ht; unfold k; lia). cbn. f_equal. unfold k. lia.
  - unfold blen. intros Hl. assert (k = length (text ++ [Byte.x00])) as Ek by (unfold k; rewrite length_app; cbn; lia).
    rewrite Ek, firstn_all, <- app_assoc. cbn [app]. split; [by apply c_str_app_nul|].
    apply bool_decide_eq_true. apply elem_of_app. right. by left.
  - unfold blen. intros Hl. assert (k = Z.to_nat n) as -> by (unfold k; lia).
    rewrite take_app_le by (rewrite Ht; lia). rewrite take_take, Nat.min_id. apply take_app_le. lia.
Qed.

Lemma copy_message_wrote : wrote text n mem (copy_message text n mem h).1.1.
Proof. destruct copy_message_eq as [-> _]. apply copied_wrote. Qed.

Lemma copy_response_wrote : wrote text n mem (copy_response text n mem h).1.
Proof.
  unfold copy_response. pose proof copy_message_eq as [E1 E2]. pose proof copied_wrote as W.
  destruct (copy_message text n mem h) as [[m h1] k]. cbn [fst snd] in E1, E2. cbn zeta in W.
  rewrite <- E1 in W. subst k. rewrite wrap_n.
  destruct (Z.ltb_spec (Z.min (blen text + 1) n) n) as [Hlt|]; [|done]. unfold write_nul. cbn [fst].
  assert (Z.min (blen text + 1) n = blen text + 1) as -> by lia.
  replace (Z.min (blen text + 1) n) with (blen text + 1) in E1 by lia. destruct W as [W1 W2 W3 W4].
  unfold blen in *. assert (length (text ++ [Byte.x00]) = Z.to_nat (Z.of_nat (length text) + 1)) as Hl.
  { rewrite length_app. cbn. lia. }
  rewrite take_ge in E1 by lia. split.
  - by rewrite length_insert.
  - by rewrite drop_insert_lt by lia.
  - intros _. rewrite E1, insert_app_r_alt by lia. rewrite <- app_assoc. cbn [app]. split; [by apply c_str_app_nul|].
    apply bool_decide_eq_true. apply elem_of_app. right. by left.
  - unfold blen. lia.
Qed.
End Buffer.

(** ** What [gpuf_generate_multimodal] writes and returns *)

(** A text the call writes: characters without a NUL, at most 1064 bytes. *)
Record short_text (text : bytes) : Prop := {
  st_utf8 : utf8 text; st_nul : has_nul text = false; st_len : blen text <= 1064 }.

(** The messages that are written out in the code. *)
Definition short_textb (text : bytes) : bool := valid_utf8 text && negb (has_nul text) && (blen text <=? 1064).

Lemma short_textb_ok text : short_textb text = true -> short_text text.
Proof. unfold short_textb. rewrite !andb_true_iff, negb_true_iff, valid_utf8_iff, Z.leb_le. by intros [[? ?] ?]. Qed.

Lemma vocab_response_short L a b c v mt np temp tk tp rp decoded text :
  generate_multimodal_response_with_vocab L a b c v mt np temp tk tp rp decoded = Returns text ->
  utf8 text /\ blen text <= 1064.
Proof.
  assert (forall t, short_textb t = true -> utf8 t /\ blen t <= 1064) as M.
  { intros t Ht. destruct (short_textb_ok t Ht). by split. }
  unfold generate_multimodal_response_with_vocab. destruct a; [intros [= <-]; by apply M|].
  destruct b; [intros [= <-]; by apply M|]. destruct c; [intros [= <-]; by apply M|].
  destruct (v =? 0); [intros [= <-]; by apply M|].
  destruct (multimodal_loop _ _ _ _ _) as [s|] eqn:E; [|done]. intros [= <-].
  apply multimodal_text_bounded in E; [|exact utf8_nil|unfold blen; cbn; lia]. case_bool_decide; [by apply M|done].
Qed.

Lemma c_text_short text : utf8 text -> blen text <= 1064 -> short_text (if has_nul text then [] else text).
Proof. destruct (has_nul text) eqn:E; [by intros _ _; apply short_textb_ok|by split]. Qed.

Lemma text_only_short (prompt : bytes) : blen prompt < 2 ^ 63 ->
  short_text (b!"GPUFabric: libmtmd text-only generation successful (prompt " ++ dec (blen prompt) ++ b!" bytes)").
Proof.
  intros Hp. destruct (dec_short (blen prompt)) as [D Dl]; [pose proof (blen_nonneg prompt); lia|].
  destruct (digits_utf8 _ D) as [U N]. split.
  - repeat apply utf8_app; [by apply valid_utf8_iff|done|by apply valid_utf8_iff].
  - by rewrite !has_nul_app, N.
  - rewrite !blen_app. change (blen (b!"GPUFabric: libmtmd text-only generation successful (prompt ")) with 59.
    change (blen (b!" bytes)")) with 7. lia.
Qed.

(** [copy_response] depends on the text only through what a C string can hold. *)
Lemma copy_response_c text n mem h :
  copy_response text n mem h = copy_response (if has_nul text then [] else text) n mem h.
Proof.
  unfold copy_response, copy_message. assert (c_string_bytes text = c_string_bytes (if has_nul text then [] else text)) as ->; [|done].
  unfold c_string_bytes. by destruct (has_nul text) eqn:E; rewrite ?E.
Qed.

(** What a call without an early return did to the memory, before its clean-up. *)
Definition answered (n : Z) (mem : bytes) (result : Z) (mem' : bytes) : Prop :=
  result <> 0 /\ mem' = mem \/ result = 0 /\ exists text, short_text text /\ wrote text n mem mem'.

Section Answers.
Context (L : Llama) (V : Mtmd) (n : Z) (mem : bytes).
Context (Hlen : 0 <= n <= blen mem) (Hsmall : n < 2 ^ 63).

Lemma answer_image_wrote c hist rq nn sa h a :
  answer_image L V c hist rq nn sa n mem h = Returns a ->
  match a with
  | inl (mem', _, code) => nn_model nn && nn_vocab nn = false /\ exists text, short_text text
      /\ wrote text n mem mem' /\ code = Z.min (blen text + 1) n
  | inr (mem', _) => exists text, short_text text /\ wrote text n mem mem'
  end.
Proof.
  unfold answer_image. generalize (touch_context c h). intros h1.
  destruct (mtmd_helper_eval_chunks V hist rq) as [[er np] dec].
  assert (forall msg, short_textb msg = true -> short_text msg /\ wrote msg n mem (copy_message msg n mem h1).1.1
    /\ (copy_message msg n mem h1).2 = Z.min (blen msg + 1) n) as M.
  { intros msg Hm. pose proof (short_textb_ok msg Hm) as S. destruct S as [S1 S2 S3]. split_and!; [done| |].
    - by apply copy_message_wrote.
    - by apply copy_message_eq. }
  destruct (negb (er =? 0)).
  { destruct (M b!"❌ Multimodal encoding failed" eq_refl) as (S & W & _).
    destruct (copy_message b!"❌ Multimodal encoding failed" n mem h1) as [[m h2] k].
    intros [= <-]. cbn in W. by exists b!"❌ Multimodal encoding failed". }
  destruct (nn_model nn); cbn [negb].
  2: { destruct (M b!"❌ Failed to get model pointer" eq_refl) as (S & W & K).
    destruct (copy_message b!"❌ Failed to get model pointer" n mem h1) as [[m h2] k].
    intros [= <-]. split; [done|]. cbn in W, K. subst k. by exists b!"❌ Failed to get model pointer". }
  destruct (nn_vocab nn); cbn [negb].
  2: { destruct (M b!"❌ Failed to get vocab pointer" eq_refl) as (S & W & K).
    destruct (copy_message b!"❌ Failed to get vocab pointer" n mem h1) as [[m h2] k].
    intros [= <-]. split; [done|]. cbn in W, K. subst k. by exists b!"❌ Failed to get vocab pointer". }
  destruct (generate_multimodal_response_with_vocab _ _ _ _ _ _ _ _ _ _ _ _) as [text|] eqn:G; [|done].
  apply vocab_response_short in G as [U B]. rewrite copy_response_c. pose proof (c_text_short text U B) as S.
  set (t := if has_nul text then [] else text) in *.
  assert (wrote t n mem (copy_response t n mem h1).1) as W by (apply copy_response_wrote; [apply S|done..]).
  destruct (copy_response t n mem h1) as [m h2]. intros [= <-]. by exists t.
Qed.

Lemma generate_with_image_wrote c hist prompt d nn sa h a :
  generate_with_image L V c hist prompt d nn sa n mem h = Returns a ->
  match a with
  | inl (mem', _, code) => nn_model nn && nn_vocab nn = false /\ exists text, short_text text
      /\ wrote text n mem mem' /\ code = Z.min (blen text + 1) n
  | inr (result, (mem', _)) => answered n mem result mem'
  end.
Proof.
  unfold generate_with_image. destruct (mtmd_bitmap_init V (nn_bitmap nn) d h) as [[b|] h1]; [|intros [= <-]; by left].
  destruct (Z.eqb_spec (mtmd_tokenize V (mkRequest prompt true [bitmap_pixels V d])) 0) as [E|E]; cbn [negb];
    [|intros [= <-]; by left].
  destruct (answer_image _ _ _ _ _ _ _ _ _ _) as [r|] eqn:A; [|done]. apply answer_image_wrote in A.
  destruct r as [[[m h2] code]|[m h2]]; intros [= <-]; [done|]. by right.
Qed.

Lemma generate_text_only_wrote prompt h : blen prompt < 2 ^ 63 ->
  answered n mem (generate_text_only V prompt n mem h).1 (generate_text_only V prompt n mem h).2.1.
Proof.
  intros Hp. unfold generate_text_only. destruct (Z.eqb_spec (mtmd_tokenize V (mkRequest prompt true [])) 0) as [E|E].
  - right. split; [done|]. pose proof (text_only_short prompt Hp) as S. eexists. split; [exact S|].
    apply copy_response_wrote; [apply S|done..].
  - by left.
Qed.
End Answers.

(** The buffer after a call: what the call reports of a text it has put there. [early]: it
    left at a null model or vocabulary. *)
Record reported (n : Z) (mem : bytes) (text : bytes) (early : bool) (r : MultimodalReply) : Prop := {
  rp_short : short_text text;
  rp_wrote : wrote text n mem (r_output r);
  rp_early : early = true -> r_code r = Some (Z.min (blen text + 1) n);
  rp_fits : early = false -> blen text < n -> r_code r = Some (blen text / 4);
  rp_past : early = false -> n <= blen text -> n = blen mem -> r_code r = None }.

Lemma count_response_reported n mem result mem' h : 0 <= n <= blen mem -> answered n mem result mem' ->
  let r := count_response result mem' h in
  r_code r = Some (-1) /\ r_output r = mem \/ exists text, reported n mem text false r.
Proof.
  intros Hlen. unfold count_response. intros [[E ->]|(-> & text & S & W)].
  { rewrite (proj2 (Z.eqb_neq result 0) E). by left. }
  right. exists text. rewrite Z.eqb_refl. pose proof W as [W1 W2 W3 W4].
  assert ((read_length mem' h).1 = if has_nul mem' then Some (blen (c_str mem')) else None) as R.
  { unfold read_length. by destruct (has_nul mem'). }
  destruct (read_length mem' h) as [len h2]. cbn in R. subst len. split; cbn; [done|done|done|..].
  - intros _ Hf. destruct (W3 Hf) as [-> ->]. done.
  - intros _ Hf Hm. specialize (W4 Hf). assert (mem' = take (Z.to_nat n) text) as E.
    { rewrite <- W4. symmetry. apply take_ge. rewrite W1. unfold blen in Hm. lia. }
    assert (has_nul mem' = false) as ->; [|done]. rewrite E. destruct S as [_ S _]. unfold has_nul in *.
    apply bool_decide_eq_false in S. apply bool_decide_eq_false. intros Hin. apply S. rewrite <- (take_drop (Z.to_nat n) text).
    apply elem_of_app. by left.
Qed.

(** [C35] Whatever llama.cpp and libmtmd answer, the call stays within the first [output_len] bytes
    of the caller's memory. A failure writes nothing and returns -1; otherwise the text it
    puts there is whole characters, at most 1064 bytes, and when it fits with its NUL a C
    reader finds exactly it and the code is a quarter of its length (or, after an early
    return, the bytes copied). When it fills the buffer there is no NUL, and the call's own
    count runs past the memory. *)
Theorem multimodal_answer_in_buffer (L : Llama) (V : Mtmd) (h : Heap) (p ctx : option nat)
    (history : list Batch) (prompt mem : bytes) (image_data : option bytes) (image_size : Z)
    (sa : SampleArgs) (n : Z) (nn : NonNull) (r : MultimodalReply) :
  0 <= n <= blen mem -> n < 2 ^ 63 -> blen prompt < 2 ^ 63 ->
  gpuf_generate_multimodal L V p ctx history (Some prompt) image_data image_size sa (Some mem) n nn h = Returns r ->
  r_code r = Some (-1) /\ r_output r = mem
  \/ exists text early, reported n mem text early r /\ (early = true -> nn_model nn && nn_vocab nn = false).
Proof.
  intros Hlen Hsmall Hp. unfold gpuf_generate_multimodal.
  assert (forall h1, Returns (mkReply (Some (-1)) mem h1) = Returns r ->
    r_code r = Some (-1) /\ r_output r = mem \/ exists text early, reported n mem text early r
      /\ (early = true -> nn_model nn && nn_vocab nn = false)) as Fail by (intros h1 [= <-]; by left).
  destruct p as [x|]; [|apply Fail]. destruct (box_at x h) as [model|]; [|done].
  destruct (mtmd_context model); [|apply Fail]. destruct (call_context x ctx nn h) as [a|]; [|done].
  destruct a as [[[c created]|] h1]; [|apply Fail]. destruct (from_utf8 prompt); [|apply Fail].
  destruct (create (nn_chunks nn) OChunks h1) as [[chunks|] h2]; [|apply Fail].
  assert (forall result mem' h3, answered n mem result mem' ->
    Returns (count_response result mem' h3) = Returns r ->
    r_code r = Some (-1) /\ r_output r = mem \/ exists text early, reported n mem text early r
      /\ (early = true -> nn_model nn && nn_vocab nn = false)) as Done.
  { intros result mem' h3 A [= <-]. destruct (count_response_reported n mem result mem' h3 Hlen A) as [|[text R]]; [by left|].
    right. by exists text, false. }
  destruct (has_image image_data image_size) as [d|].
  - destruct (generate_with_image _ _ _ _ _ _ _ _ _ _ _) as [a|] eqn:G; [|done].
    apply generate_with_image_wrote in G; [|done..]. destruct a as [[[m h3] code]|[result [m h3]]]; [|by apply Done].
    destruct G as (N & text & S & W & ->). intros [= <-]. right. exists text, true. split; [|done].
    by split.
  - pose proof (generate_text_only_wrote V n mem Hlen Hsmall prompt h2 Hp) as A.
    destruct (generate_text_only V prompt n mem h2) as [result [m h3]]. by apply Done.
Qed.

(** ** The two streaming loops *)

(** Every token of the vocabulary is whole characters (without a NUL) that fit the buffer. *)
Definition whole_pieces (L : Llama) : Prop := forall t,
  let '(len, written) := llama_token_to_piece L t 32 false in
  len <= 32 /\ (0 < len -> let piece := take (Z.to_nat len) written in
                 piece <> [] /\ utf8 piece /\ has_nul piece = false).

Lemma push_whole piece : utf8 piece -> has_nul piece = false -> push_and_take_valid [] piece = (piece, []).
Proof.
  intros U N. unfold push_and_take_valid. fold (no_nul piece). assert (no_nul piece = piece) as E.
  { unfold no_nul. unfold has_nul in N. apply bool_decide_eq_false in N. clear U.
    induction piece as [|b piece IH]; [done|]. apply not_elem_of_cons in N as [Nb N].
    rewrite filter_cons_True by congruence. by rewrite IH. }
  rewrite E. cbn [app]. unfold from_utf8. by rewrite (proj2 (valid_utf8_iff piece) U).
Qed.

Lemma loops_agree L V chain cb mt fuel s :
  (forall t, llama_vocab_is_eog L t = (t =? llama_token_eos L)) -> whole_pieces L ->
  (forall decoded, llama_get_logits V decoded = true) -> mm_buf s = [] ->
  inline_stream L V fuel chain cb mt s = stream_multimodal L fuel chain cb false mt s
  /\ forall s', inline_stream L V fuel chain cb mt s = Returns s' -> mm_buf s' = [].
Proof.
  intros He Hw Hl. revert s. induction fuel as [|fuel IH]; intros s Hb; cbn [inline_stream stream_multimodal].
  { split; [done|]. by intros s' [= <-]. }
  rewrite andb_true_r. destruct (_ && _); [|split; [done|by intros s' [= <-]]]. rewrite Hl. cbn [negb].
  set (t := llama_sampler_sample L chain (mm_decoded s) (-1)). rewrite He.
  destruct (t =? llama_token_eos L); [split; [done|by intros s' [= <-]]|].
  specialize (Hw t). destruct (llama_token_to_piece L t 32 false) as [len written]. destruct Hw as [H32 Hp].
  rewrite (proj2 (Z.ltb_ge 32 len)) by lia. rewrite andb_false_r.
  set (piece := take (Z.to_nat len) written) in *. destruct (Z.ltb_spec 0 len) as [Hpos|Hneg].
  - destruct (Hp Hpos) as (Hne & U & N). rewrite Hb, (push_whole piece U N). cbn [mm_text mm_callbacks mm_buf mm_decoded mm_past mm_count].
    rewrite bool_decide_false by done. cbn [negb andb]. unfold has_nul in N. apply bool_decide_eq_false in N.
    unfold has_nul. rewrite bool_decide_false by done.
    destruct (llama_decode L (mm_decoded s) _) as [[|k|k]|]; [by apply IH|by split; [|intros s' [= <-]]..|by split].
  - destruct (llama_decode L (mm_decoded s) _) as [[|k|k]|]; [by apply IH|by split; [|intros s' [= <-]]..|by split].
Qed.

(** When the only token that ends an answer is the end-of-sequence token, every piece is
    whole characters and logits are there, the loop written out in the streaming call makes
    the callbacks and the text of [generate_multimodal_response_with_callbacks]. *)
Theorem streaming_loops_agree (L : Llama) (V : Mtmd) (cb : bool) (max_tokens n_past temperature top_k
    top_p repeat_penalty : Z) (decoded : list Batch) (s : MultiState) :
  (forall t, llama_vocab_is_eog L t = (t =? llama_token_eos L)) -> whole_pieces L ->
  (forall decoded, llama_get_logits V decoded = true) -> llama_vocab_n_tokens V <> 0 ->
  inline_stream L V (Z.to_nat max_tokens) (async_chain temperature top_k top_p repeat_penalty) cb max_tokens
    (mkMulti [] [] [] 0 n_past decoded) = Returns s ->
  generate_multimodal_response_with_callbacks L cb false false (llama_vocab_n_tokens V) max_tokens n_past
    temperature top_k top_p repeat_penalty decoded = Returns (mm_text s, mm_callbacks s).
Proof.
  intros He Hw Hl Hv E.
  destruct (loops_agree L V (async_chain temperature top_k top_p repeat_penalty) cb max_tokens
              (Z.to_nat max_tokens) (mkMulti [] [] [] 0 n_past decoded) He Hw Hl eq_refl) as [A B].
  unfold generate_multimodal_response_with_callbacks. rewrite (proj2 (Z.eqb_neq _ _) Hv), <- A, E, (B s E).
  change ((flush_lossy []).1) with (@nil byte). by rewrite app_nil_r.
Qed.

(** ** On concrete calls *)

Definition reply_of (n : Z) (out : bytes) : MultimodalReply :=
  match gpuf_generate_multimodal ascii_llama demo_mtmd (Some 2%nat) None [] (Some b!"what?") (Some demo_image) 3
          demo_sampling (Some out) n all_fine demo_loaded with
  | Returns r => r
  | Aborts => mkReply None [] demo_loaded
  end.

(** With eight bytes "Hi" is read back; two bytes are filled and the count runs past them. *)
Lemma multimodal_answer_in_buffer_witness :
  (r_code (reply_of 8 demo_out) = Some (-1) /\ r_output (reply_of 8 demo_out) = demo_out
   \/ exists text early, reported 8 demo_out text early (reply_of 8 demo_out)
      /\ (early = true -> nn_model all_fine && nn_vocab all_fine = false))
  /\ c_str (r_output (reply_of 8 demo_out)) = b!"Hi" /\ r_code (reply_of 8 demo_out) = Some 0
  /\ r_output (reply_of 2 b!"  ") = b!"Hi" /\ r_code (reply_of 2 b!"  ") = None.
Proof.
  split; [|by vm_compute].
  apply (multimodal_answer_in_buffer ascii_llama demo_mtmd demo_loaded (Some 2%nat) None [] b!"what?" demo_out
    (Some demo_image) 3 demo_sampling 8 all_fine).
  - by vm_compute.
  - done.
  - by vm_compute.
  - vm_compute. reflexivity.
Defined.

Lemma ascii_byte b : byte_in 1 127 b = true -> utf8 [b] /\ has_nul [b] = false.
Proof.
  intros Hb. split; [|by destruct b]. apply (utf8_char [b] 1); [|constructor].
  destruct b; first [reflexivity|discriminate Hb].
Qed.

Lemma ascii_whole : whole_pieces ascii_llama.
Proof.
  intros t. cbn. destruct (Z.leb_spec 1 t), (Z.ltb_spec t 128); cbn [andb]; (split; [lia|]); intros Hlen; try lia.
  cbn. destruct (ascii_byte (byte_of_Z t)) as [U N]; [|by split_and!].
  unfold byte_in. rewrite Z_of_byte_of_Z, Z.mod_small by lia. rewrite andb_true_iff, !Z.leb_le. lia.
Qed.

Definition hi_stream : MultiState := mkMulti b!"Hi" [(b!"H", 72); (b!"i", 105)] [] 2 9
  [mkBatch [] [] []; single 72 7; single 105 8].

Lemma streaming_loops_agree_witness :
  generate_multimodal_response_with_callbacks ascii_llama true false false 128 8 7 0 40 0 0 [mkBatch [] [] []]
  = Returns (mm_text hi_stream, mm_callbacks hi_stream).
Proof.
  apply (streaming_loops_agree ascii_llama demo_mtmd true 8 7 0 40 0 0 [mkBatch [] [] []] hi_stream).
  - intros t. reflexivity.
  - exact ascii_whole.
  - done.
  - done.
  - vm_compute. reflexivity.
Defined.

(** Where tokens are parts of characters the loops differ: the streaming call hands the app
    each byte of a character by itself, the other one the character. *)
Lemma loops_differ_on_split_characters :
  (exists s, inline_stream (byte_llama 0) demo_mtmd 8 (async_chain 0 40 0 0) true 8
               (mkMulti [] [] [] 0 7 [mkBatch [] [] []]) = Returns s
     /\ (mm_callbacks s).*1 = [[Byte.xe2]; [Byte.x82]; [Byte.xac]])
  /\ generate_multimodal_response_with_callbacks (byte_llama 0) true false false 128 8 7 0 40 0 0
       [mkBatch [] [] []] = Returns (euro, [(euro, 172)]).
Proof. split; [eexists; split|]; vm_compute; reflexivity. Qed.
