(* ===== verification/PhoneEngine.v ===== *)
(** * The local engine of a phone ([gpuf-c/src/lib.rs], [gpuf-c/src/jni_llama.rs])

    The exports that start, stop and describe the engine, and the Java functions of
    [com.gpuf.c.GPUEngine] that generate: over the process's global model and context, over
    the handles an app passes, and over a multimodal model. (The Java functions that load the
    global model are in [ModelSwap].) Each Java function is given with the text or code that
    it returns to Java; strings come in as [JString] and go out as their bytes, [None] for
    null. llama.cpp on the context in question is an argument, as in [Mobile]. *)

From S2P Require Import Prelude Wire Text Output LlamaEngine Generate Mobile Api SdkWorker ModelSwap AndroidSdk RemoteWorker Vision VisionFacts VisionText.
From Stdlib Require Import ZArith Lia String.
From Stdlib Require Import Strings.Byte.
From stdpp Require Import base list gmap.

Local Open Scope Z_scope.
Import Emit EmitFacts TextFacts.

(** ** Starting and stopping *)

(** The memory pool, the environment variable [LD_PRELOAD], whether llama.cpp's backend is
    initialised, and the stop flag of streaming generation. *)
Record EngineProc := mkProc {
  ep_pool : MemoryPool; LD_PRELOAD : option bytes; ep_backend : bool; GENERATION_STOP_FLAG : bool }.

Definition proc_start (ld_preload : option bytes) : EngineProc := mkProc pool_start ld_preload false false.

Definition possible_paths : list bytes := [
  b!"/system/lib64/libc++_shared.so"; b!"/system/lib/libc++_shared.so";
  b!"/apex/com.android.runtime/lib64/libc++_shared.so"; b!"/apex/com.android.runtime/lib/libc++_shared.so"].

(** The variable is left as it is when it is set to text. *)
Definition preload (path_exists : bytes -> bool) (v : option bytes) : option bytes :=
  match v ≫= from_utf8 with
  | Some _ => v
  | None =>
      match list_find (fun p => path_exists p) possible_paths with
      | Some (_, path) => Some path
      | None => v
      end
  end.

(** On Android. [mmap]: the pool's mapping; [symbols]: both GGML functions are linked. *)
Definition gpuf_init (mmap : option Z) (path_exists : bytes -> bool) (symbols : bool) (e : EngineProc)
    : Z * EngineProc :=
  match init_memory_pool mmap (ep_pool e) with
  | (false, pool) => (-1, mkProc pool (LD_PRELOAD e) (ep_backend e) (GENERATION_STOP_FLAG e))
  | (true, pool) =>
      let e := mkProc pool (preload path_exists (LD_PRELOAD e)) true (GENERATION_STOP_FLAG e) in
      if symbols then (1, e) else (-1, e)
  end.

Definition gpuf_cleanup (e : EngineProc) : Z * EngineProc :=
  (0, mkProc (cleanup_memory_pool (ep_pool e)) (LD_PRELOAD e) false (GENERATION_STOP_FLAG e)).

Definition set_generation_stop (b : bool) (e : EngineProc) : EngineProc :=
  mkProc (ep_pool e) (LD_PRELOAD e) (ep_backend e) b.

Definition gpuf_stop_generation (e : EngineProc) : Z * EngineProc := (0, set_generation_stop true e).

Definition gpuf_system_info : bytes := b!"GPUFabric Android LLaMA.cpp Engine".
Definition gpuf_version : bytes := b!"9.0.0-x86_64-android-FINAL-LLAMA-SOLUTION".

Definition gpuf_tokenize_text (ctx_null text_null tokens_null : bool) : Z :=
  if ctx_null || text_null || tokens_null then -1 else 0.

(** The prompt is decoded; the token sampled is a placeholder. The result is what is written
    to [output], and the code. *)
Definition gpuf_generate_single_token (L : Llama) (any_null : bool) (prompt : bytes) (output_len : Z)
    : ffi (option bytes * Z) :=
  if any_null then Returns (None, -1)
  else if output_len <=? 0 then Returns (None, -2)
  else match from_utf8 prompt with
  | None => Returns (None, -3)
  | Some _ =>
      let '(token_count, tokens) := safe_tokenize L prompt 128 in
      if token_count <=? 0 then Returns (None, -4)
      else match llama_decode L [] (initial_batch (take (Z.to_nat token_count) tokens)) with
      | None => Aborts
      | Some 0 =>
          let text := b!"Token: 1" in
          let copy_len := Z.min (blen text) (output_len - 1) in
          Returns (Some (take (Z.to_nat copy_len) text ++ [Byte.x00]), copy_len)
      | Some _ => Returns (None, -5)
      end
  end.

(** ** Java: the engine *)

Definition initialize (mmap : option Z) (path_exists : bytes -> bool) (symbols : bool) (e : EngineProc)
    : Z * EngineProc :=
  let '(code, e) := gpuf_init mmap path_exists symbols e in (if code =? 0 then 1 else 0, e).

Definition cleanup (e : EngineProc) : Z * EngineProc :=
  let '(code, e) := gpuf_cleanup e in (if code =? 0 then 1 else 0, e).

Definition getVersion : option bytes := Some (default b!"unknown" (from_utf8 gpuf_version)).
Definition getSystemInfo : option bytes := Some (default b!"Unknown" (from_utf8 gpuf_system_info)).

(** A pointer is a number for Java; 0 is null. *)
Definition as_jlong (p : option nat * SwapWorld) : Z * SwapWorld :=
  (match p.1 with Some x => Z.of_nat (S x) | None => 0 end, p.2).

Definition loadModel (model_path : JString) (ok : bool) (w : SwapWorld) : Z * SwapWorld :=
  match jstring_to_cstring model_path with
  | None => (0, w)
  | Some path => as_jlong (gpuf_load_model path ok w)
  end.

(** [model]: the pointer Java passes, [None] for 0. *)
Definition createContext (model : option nat) (ok : bool) (w : SwapWorld) : Z * SwapWorld :=
  match model with
  | None => (0, w)
  | Some m => as_jlong (gpuf_create_context m ok w)
  end.

Definition isModelLoaded (w : SwapWorld) : Z := if gpuf_is_model_loaded w then 1 else 0.
Definition isContextReady (w : SwapWorld) : Z := if gpuf_is_context_ready w then 1 else 0.

Definition stopGeneration (ctx_null : bool) (e : EngineProc) : Z * EngineProc :=
  if ctx_null then (-1, e) else gpuf_stop_generation e.

Definition canStartGeneration (ctx_null : bool) : Z := if ctx_null then 0 else 1.

Definition getGenerationStatus (e : EngineProc) : bytes :=
  if GENERATION_STOP_FLAG e then b!"stopping" else b!"idle".

(** ** Java: generating *)

(** The 4096 zeros of a Java function after [written] has been put at their front. *)
Definition java_buffer (written : option bytes) : bytes :=
  let s := default [] written in s ++ drop (length s) (replicate 4096 Byte.x00).

(** What Java gets for a result and a buffer. *)
Definition java_text (result : Z) (buffer : bytes) : bytes :=
  if 0 <? result then default [] (from_utf8 (c_str buffer))
  else b!"Error: Generation failed with code " ++ int_dec result.

Section Java.
Context (L : Llama).

(** The text is read and dropped; only the code is returned. *)
Definition java_generate (model_null context_null : bool) (prompt : option JString) : Z :=
  if model_null || context_null then -1
  else match prompt with
  | None => -2
  | Some prompt =>
      let prompt := default [] prompt in
      if has_nul prompt then -3 else (gpuf_generate_final_solution_text L false prompt 4096).2
  end.

(** [prompt], then the model and the context, then the C string. *)
Definition java_prompt (prompt : JString) (w : SwapWorld) : option (bytes + bytes) :=
  match prompt with
  | None => None
  | Some prompt =>
      match GLOBAL_MODEL_PTR w, GLOBAL_CONTEXT_PTR w with
      | Some _, Some _ => if has_nul prompt then None else Some (inr prompt)
      | _, _ => Some (inl b!"Error: Model not loaded")
      end
  end.

Definition generateText (prompt : JString) (max_tokens : Z) (w : SwapWorld) : option bytes :=
  match java_prompt prompt w with
  | None => None
  | Some (inl error) => Some error
  | Some (inr prompt) =>
      let '(written, result) := gpuf_generate_final_solution_text L false prompt 4096 in
      Some (java_text result (java_buffer written))
  end.

Definition generateTextWithSampling (vocab_null chain_null : bool) (prompt : JString) (max_tokens : Z)
    (temperature : f32) (top_k : Z) (top_p repeat_penalty : f32) (w : SwapWorld) : ffi (option bytes) :=
  match java_prompt prompt w with
  | None => Returns None
  | Some (inl error) => Returns (Some error)
  | Some (inr prompt) =>
      match manual_llama_completion L false vocab_null chain_null prompt max_tokens temperature top_k top_p
              repeat_penalty 4096 with
      | Aborts => Aborts
      | Returns (written, result) => Returns (Some (java_text result (java_buffer written)))
      end
  end.

(** [callback]: the native function pointer, if it is not 0; [prompt] as [to_string_lossy]
    gives it. The call clears the stop flag when it starts and when it ends. *)
Definition startGenerationAsync (ctx_null model_null vocab_null : bool) (prompt : JString) (max_tokens : Z)
    (temperature : f32) (top_k : Z) (top_p repeat_penalty : f32) (callback : option Z)
    (stopped : list bytes -> nat -> bool) : ffi (Z * option GenState) :=
  if ctx_null then Returns (-1, None)
  else match jstring_to_cstring prompt with
  | None => Returns (-1, None)
  | Some prompt =>
      gpuf_start_generation_async L ctx_null false model_null vocab_null (bool_decide (is_Some callback)) prompt
        max_tokens temperature top_k top_p repeat_penalty stopped
  end.

Context (V : Mtmd).

(** The bits of the [f32] 1.1. *)
Definition f32_1_1 : f32 := 0x3f8ccccd.

(** Whatever byte array Java passes, the image given to the call is null and of size 0. *)
Definition generateMultimodal (p ctx : option nat) (history : list Batch) (prompt : JString)
    (image_data : option bytes) (max_tokens : Z) (temperature : f32) (top_k : Z) (top_p : f32)
    (nn : NonNull) (h : Heap) : ffi (option bytes * Heap) :=
  match p, ctx with
  | Some _, Some _ =>
      match jstring_to_cstring prompt with
      | None => Returns (None, h)
      | Some prompt =>
          match gpuf_generate_multimodal L V p ctx history (Some prompt) None 0
                  (mkSampleArgs max_tokens temperature top_k top_p f32_1_1)
                  (Some (replicate 4096 Byte.x00)) 4096 nn h with
          | Aborts => Aborts
          | Returns r =>
              match r_code r with
              | None => Aborts
              | Some result => Returns (Some (java_text result (r_output r)), r_heap r)
              end
          end
      end
  | _, _ => Returns (Some b!"Error: Invalid model or context", h)
  end.
End Java.

(** ** Java: multimodal models *)

Definition heap_jlong (p : option nat) : Z := match p with Some x => Z.of_nat (S x) | None => 0 end.

Definition loadMultimodalModel (F : ModelFiles) (text_model_path mmproj_path : JString) (h : Heap) : Z * Heap :=
  match jstring_to_cstring text_model_path, jstring_to_cstring mmproj_path with
  | Some text_path, Some mmproj =>
      let '(m, h) := gpuf_load_multimodal_model F (Some text_path) (Some mmproj) h in (heap_jlong m, h)
  | _, _ => (0, h)
  end.

Definition createMultimodalContext (p : option nat) (ok : bool) (h : Heap) : ffi (Z * Heap) :=
  match p with
  | None => Returns (0, h)
  | Some x =>
      match gpuf_create_multimodal_context (Some x) ok h with
      | Aborts => Aborts
      | Returns (c, h) => Returns (heap_jlong c, h)
      end
  end.

Definition supportsVision (vision : nat -> bool) (p : option nat) (h : Heap) : ffi Z :=
  match p with
  | None => Returns 0
  | Some x =>
      match gpuf_multimodal_supports_vision vision (Some x) h with
      | Aborts => Aborts
      | Returns b => Returns (if b then 1 else 0)
      end
  end.

Definition freeMultimodalModel (p : option nat) (h : Heap) : ffi Heap :=
  match p with None => Returns h | Some x => gpuf_free_multimodal_model (Some x) h end.

(** ** Facts *)

(** *** Starting twice, stopping once *)

Lemma preload_twice path_exists v : (forall p, path_exists p = true -> valid_utf8 p = true) ->
  preload path_exists (preload path_exists v) = preload path_exists v.
Proof.
  intros Hu. unfold preload at 2 3. destruct (v ≫= from_utf8) as [x|] eqn:Q; [unfold preload; by rewrite Q|].
  destruct (list_find _ possible_paths) as [[i path]|] eqn:Fd; [|unfold preload; by rewrite Q, Fd].
  apply list_find_Some in Fd as (_ & Hp & _). unfold preload. cbn [mbind option_bind]. unfold from_utf8.
  rewrite Hu; [done|by destruct (path_exists path)].
Qed.

Lemma gpuf_init_idempotent (mmap : Z) (mmap' : option Z) (path_exists : bytes -> bool) (e : EngineProc) :
  (forall p, path_exists p = true -> valid_utf8 p = true) ->
  let e1 := (gpuf_init (Some mmap) path_exists true e).2 in
  gpuf_init mmap' path_exists true e1 = (1, e1).
Proof.
  intros Hu. assert (exists pool, init_memory_pool (Some mmap) (ep_pool e) = (true, pool) /\ p_initialized pool = true)
    as (pool & E & I). { unfold init_memory_pool. destruct (p_initialized (ep_pool e)) eqn:I; by eexists. }
  cbn zeta. unfold gpuf_init. rewrite E. cbn [snd ep_pool LD_PRELOAD GENERATION_STOP_FLAG].
  unfold init_memory_pool. by rewrite I, preload_twice.
Qed.

(** *** What Java is told *)

Lemma java_buffer_c_str text : has_nul text = false -> c_str (java_buffer (Some (text ++ [Byte.x00]))) = text.
Proof. intros H. change (c_str ((text ++ [Byte.x00]) ++ drop (length (text ++ [Byte.x00])) (replicate 4096 Byte.x00)) = text).
  rewrite <- app_assoc. by apply c_str_app_nul. Qed.

(** A text written with its NUL comes out whole; none comes out as an error. *)
Lemma java_text_written text : has_nul text = false -> utf8 text ->
  java_text (blen text) (java_buffer (Some (text ++ [Byte.x00])))
  = if decide (text = []) then b!"Error: Generation failed with code 0" else text.
Proof.
  intros H U. unfold java_text. rewrite java_buffer_c_str by done. case_decide as E.
  - subst text. by vm_compute.
  - assert (0 <? blen text = true) as ->. { destruct text; [done|]. by apply Z.ltb_lt. }
    unfold from_utf8. by rewrite (proj2 (valid_utf8_iff text) U).
Qed.

(** An answer of [generateTextWithSampling] that does not fit 4095 bytes is cut there; cut
    inside a character it reaches Java as the empty string. *)
Lemma long_answer_to_java text : has_nul text = false -> 4095 <= blen text ->
  valid_utf8 (take 4095 text) = false ->
  exists written, write_output text 4096 = Some (written, 4095)
    /\ java_text 4095 (java_buffer (Some written)) = [].
Proof.
  intros H Hl Hv. eexists. split.
  - unfold write_output. change (4096 =? 0) with false. rewrite wrap_small by (unfold in_u; lia).
    cbn [Z.sub Z.add]. change (4096 - 1) with 4095. rewrite Z.min_r by lia. reflexivity.
  - change (Z.to_nat 4095) with 4095%nat. unfold java_text. rewrite java_buffer_c_str.
    + cbn [Z.ltb]. unfold from_utf8. by rewrite Hv.
    + unfold has_nul in *. apply bool_decide_eq_false in H. apply bool_decide_eq_false. intros Hin. apply H.
      rewrite <- (take_drop 4095 text). apply elem_of_app. by left.
Qed.

Definition final_report (n_prompt n_ctx : Z) : bytes :=
  b!"Real inference working (prompt " ++ dec n_prompt ++ b!" bytes, tokens: 1, ctx: " ++ int_dec n_ctx ++ b!")".

Lemma final_report_short (n c : Z) : 0 <= n < 2 ^ 63 -> 0 <= c < 2 ^ 31 ->
  utf8 (final_report n c) /\ has_nul (final_report n c) = false /\ 0 < blen (final_report n c) <= 96.
Proof.
  intros Hn Hc. destruct (dec_short n Hn) as [D1 L1]. destruct (dec_short c) as [D2 L2]; [lia|].
  destruct (digits_utf8 _ D1) as [U1 N1], (digits_utf8 _ D2) as [U2 N2].
  unfold final_report, int_dec. rewrite (proj2 (Z.ltb_ge c 0)) by lia. split_and!.
  - repeat apply utf8_app; done || by apply valid_utf8_iff.
  - by rewrite !has_nul_app, N1, N2.
  - rewrite blen_app. change (blen b!"Real inference working (prompt ") with 31.
    match goal with |- 0 < 31 + blen ?x => pose proof (blen_nonneg x) end. lia.
  - rewrite !blen_app. change (blen b!"Real inference working (prompt ") with 31.
    change (blen b!" bytes, tokens: 1, ctx: ") with 24. change (blen b!")") with 1. lia.
Qed.

Lemma text_only_decided (n : Z) : 0 <= n < 2 ^ 63 ->
  let text := b!"GPUFabric: libmtmd text-only generation successful (prompt " ++ dec n ++ b!" bytes)" in
  66 <= blen text < 4096 /\ utf8 text /\ has_nul text = false.
Proof.
  intros Hn. destruct (dec_short n Hn) as [D Dl]. destruct (digits_utf8 _ D) as [U N]. cbn zeta.
  rewrite !blen_app. change (blen (b!"GPUFabric: libmtmd text-only generation successful (prompt ")) with 59.
  change (blen (b!" bytes)")) with 7. pose proof (blen_nonneg (dec n)). split; [lia|]. split.
  - repeat apply utf8_app; done || by apply valid_utf8_iff.
  - by rewrite !has_nul_app, N.
Qed.

(** [C36] The local engine tells Java fixed texts. [initialize] returns 0, Java's failure, whatever
    happens, because [gpuf_init] returns 1 on success. [generateText] with a model, whatever
    the model, returns a report of the prompt's length and the context's size; and
    [generateMultimodal], whatever the image, projector, model and sampling, the prompt's
    length once the prompt could be tokenised, freeing what it has created. *)
Theorem java_is_told_fixed_texts (L : Llama) (V : Mtmd) (mmap : option Z) (path_exists : bytes -> bool)
    (symbols : bool) (e : EngineProc) (w : SwapWorld) (prompt : bytes) (image_data : option bytes)
    (max_tokens : Z) (temperature : f32) (top_k : Z) (top_p : f32) (h : Heap) (x c t : nat)
    (history : list Batch) (nn : NonNull) :
  GLOBAL_MODEL_PTR w <> None -> GLOBAL_CONTEXT_PTR w <> None -> 0 <= llama_n_ctx L < 2 ^ 31 ->
  valid_utf8 prompt = true -> has_nul prompt = false -> blen prompt < 2 ^ 63 ->
  owned h -> model_at h x t -> nn_chunks nn = true -> mtmd_tokenize V (mkRequest prompt true []) = 0 ->
  (initialize mmap path_exists symbols e).1 = 0
  /\ generateText L (Some prompt) max_tokens w = Some (final_report (blen prompt) (llama_n_ctx L))
  /\ exists h', generateMultimodal L V (Some x) (Some c) history (Some prompt) image_data max_tokens
                  temperature top_k top_p nn h
       = Returns (Some (b!"GPUFabric: libmtmd text-only generation successful (prompt "
                        ++ dec (blen prompt) ++ b!" bytes)"), h')
     /\ h_live h' = h_live h.
Proof.
  intros Hm Hc Hctx Hu Hnul Hlen Hown HM Hchunks Htok. pose proof (blen_nonneg prompt) as H0. split_and!.
  - unfold initialize, gpuf_init. destruct (init_memory_pool mmap (ep_pool e)) as [[] pool]; [|done]. by destruct symbols.
  - unfold generateText, java_prompt. destruct (GLOBAL_MODEL_PTR w); [|done]. destruct (GLOBAL_CONTEXT_PTR w); [|done].
    rewrite Hnul. unfold gpuf_generate_final_solution_text, from_utf8. rewrite Hu.
    destruct (final_report_short (blen prompt) (llama_n_ctx L)) as (U & N & B); [lia|lia|].
    change (b!"Real inference working (prompt " ++ _) with (final_report (blen prompt) (llama_n_ctx L)).
    set (text := final_report _ _) in *. change (wrap 64 4096) with 4096. rewrite Z.min_l by lia.
    unfold blen at 1 2. rewrite !Nat2Z.id, firstn_all. change (Z.of_nat (length text)) with (blen text).
    rewrite (java_text_written text N U), decide_False; [done|]. intros E. rewrite E in B. unfold blen in B. cbn in B. lia.
  - pose proof HM as (model & Bx & _ & P & _). unfold generateMultimodal, jstring_to_cstring. cbn [mbind option_bind].
    rewrite Hnul. unfold gpuf_generate_multimodal. rewrite Bx. destruct (mtmd_context model); [clear P|done].
    cbn [call_context]. unfold from_utf8 at 1. rewrite Hu, Hchunks. cbn [has_image].
    destruct (over_create h [] h OChunks (over_refl h)) as [E1 O].
    destruct (create true OChunks h) as [r' h1]. cbn in E1, O. subst r'.
    unfold generate_text_only. rewrite Htok. cbn [Z.eqb].
    destruct (text_only_decided (blen prompt)) as (B & U & N); [lia|].
    set (text := b!"GPUFabric: libmtmd text-only generation successful (prompt " ++ _) in *.
    set (mem := replicate 4096 Byte.x00). assert (0 <= 4096 <= blen mem) as Hb by (by vm_compute).
    pose proof (copy_response_wrote text N 4096 mem h1 Hb ltac:(lia)) as [_ _ W3 _].
    pose proof (copy_response_quiet text 4096 mem h1) as Q.
    destruct (copy_response text 4096 mem h1) as [mem' h2]. cbn [fst snd] in W3, Q.
    destruct (W3 ltac:(lia)) as [C1 C2]. unfold count_response. cbn [Z.eqb]. unfold read_length. rewrite C2, C1.
    cbn [r_code r_output r_heap fmap option_fmap option_map].
    assert (0 <? blen text / 4 = true) as Hq by (apply Z.ltb_lt; apply Z.div_str_pos; lia).
    unfold java_text. rewrite Hq, C1. unfold from_utf8. rewrite (proj2 (valid_utf8_iff text) U).
    eexists. split; [reflexivity|].
    assert (over h [] (release (h_next h) h2)) as [Ov _ _ _ _]; [|done].
    apply (over_release h (own_fresh h Hown) [] (h_next h) OChunks []). by eapply over_quiet.
Qed.

Definition running_world : SwapWorld := (startInferenceService (Some b!"/m.gguf") true true swap_start).2.

Lemma java_is_told_fixed_texts_witness :
  (initialize (Some 4096) (fun _ => true) true (proc_start None)).1 = 0
  /\ generateText ascii_llama (Some b!"hello") 8 running_world = Some (final_report 5 512)
  /\ exists h', generateMultimodal ascii_llama demo_mtmd (Some 2%nat) (Some 3%nat) [] (Some b!"hello") (Some demo_image) 8
                  0 40 0 all_fine demo_loaded
       = Returns (Some (b!"GPUFabric: libmtmd text-only generation successful (prompt " ++ dec 5 ++ b!" bytes)"), h')
     /\ h_live h' = h_live demo_loaded.
Proof.
  apply (java_is_told_fixed_texts ascii_llama demo_mtmd (Some 4096) (fun _ => true) true (proc_start None) running_world
    b!"hello" (Some demo_image) 8 0 40 0 demo_loaded 2 3 0 [] all_fine).
  - vm_compute. discriminate.
  - vm_compute. discriminate.
  - by vm_compute.
  - reflexivity.
  - reflexivity.
  - by vm_compute.
  - exact demo_loaded_owned.
  - eexists. split; [vm_compute; reflexivity|]. split; [reflexivity|]. split; [done|]. vm_compute. reflexivity.
  - reflexivity.
  - reflexivity.
Defined.
