(* ===== verification/Tunnel.v ===== *)
(** * The tunnel of a public request ([gpuf-c/src/handle/handle_tcp.rs], [common/src/lib.rs])

    A parked public request becomes a TCP tunnel: the device opens a proxy connection to the
    server, names the request in its first command, connects to its local service and joins
    the two streams; the server replays what it has read of the request and joins the user's
    stream with the proxy connection. [join_streams] copies both ways until one way ends. The
    theorems compose the two sides with [Agent]. Sockets are events: what a source gives, how
    much a sink takes, and errors. *)

From S2P Require Import Prelude Wire Text Ids Scheduler Agent.
From Stdlib Require Import ZArith Lia String.
From Stdlib Require Import Strings.Byte.
From stdpp Require Import base list gmap.

Local Open Scope Z_scope.
Import Framing FramingFacts.

(** ** [join_streams] *)

Inductive IoError := UnexpectedEof | OtherError.
Inductive CopyEnd := CopyOk | CopyErr (e : IoError).

(** One direction: the bytes its source gave, those its sink took, whether the source has
    ended, the result of [copy] once it is over, and whether the sink was shut down. *)
Record Copy := mkCopy {
  c_read : bytes; c_written : bytes; c_eof : bool; c_done : option CopyEnd; c_shut : bool }.

Definition copy_start : Copy := mkCopy [] [] false None false.

(** What happens to one direction. [CWrite n]: the sink takes [n] of the bytes it has not
    taken yet. [CShut]: the shutdown after the copy has completed, well or not. *)
Inductive CopyEvent :=
  | CRead (b : bytes) | CEof | CReadErr (e : IoError)
  | CWrite (n : nat) | CWriteErr (e : IoError) | CShut.

(** [copy] is over when the source has ended and everything was written, or on an error. *)
Definition copy_step (e : CopyEvent) (c : Copy) : Copy :=
  match c_done c with
  | Some r => match e with CShut => mkCopy (c_read c) (c_written c) (c_eof c) (Some r) true | _ => c end
  | None =>
      let settle read written eof :=
        mkCopy read written eof
          (if eof && bool_decide (length read <= length written)%nat then Some CopyOk else None) false in
      match e with
      | CRead b => if c_eof c then c else settle (c_read c ++ b) (c_written c) false
      | CEof => settle (c_read c) (c_written c) true
      | CReadErr err => mkCopy (c_read c) (c_written c) (c_eof c) (Some (CopyErr err)) false
      | CWrite n => settle (c_read c) (take (length (c_written c) + n) (c_read c)) (c_eof c)
      | CWriteErr err => mkCopy (c_read c) (c_written c) (c_eof c) (Some (CopyErr err)) false
      | CShut => c
      end
  end.

(** Both directions, and the result of the [select!]: the first direction that is over and
    shut down ends it, and the other one is dropped where it is. *)
Record Join := mkJoin { a_to_b : Copy; b_to_a : Copy; j_result : option CopyEnd }.

Definition join_start : Join := mkJoin copy_start copy_start None.

Inductive Side := AtoB | BtoA.

Definition finished (c : Copy) : option CopyEnd := if c_shut c then c_done c else None.

Definition join_step (ev : Side * CopyEvent) (j : Join) : Join :=
  match j_result j with
  | Some _ => j
  | None =>
      match ev with
      | (AtoB, e) => let c := copy_step e (a_to_b j) in mkJoin c (b_to_a j) (finished c)
      | (BtoA, e) => let c := copy_step e (b_to_a j) in mkJoin (a_to_b j) c (finished c)
      end
  end.

Definition join_streams (events : list (Side * CopyEvent)) : Join :=
  fold_left (fun j ev => join_step ev j) events join_start.

(** ** The device's side *)

Section Device.
Context `{C : Codec}.

(** What [create_proxy_connection] meets. [pe_pem]: the certificates of a file, or why it
    cannot be read; [pe_server_name]: names the TLS library accepts; [pe_ip]: a text that is
    an IP address, as it is printed; [pe_notified]: whether the first command could be
    written; [pe_events]: what happens once the streams are joined. *)
Record ProxyEnv := mkProxyEnv {
  pe_resolves : bool; pe_connects : bool; pe_pem : bytes -> result (list bytes);
  pe_ip : bytes -> option bytes; pe_server_name : bytes -> bool; pe_tls : list bytes -> bytes -> bool;
  pe_notified : bool; pe_local : bool; pe_events : list (Side * CopyEvent) }.

Definition load_root_cert (pe : ProxyEnv) (path : bytes) : result (list bytes) :=
  match pe_pem pe path with
  | Err e => Err e
  | Ok [] => Err (b!"no certificates found in " ++ path)
  | Ok certs => Ok certs
  end.

Definition tls_name (pe : ProxyEnv) (server_addr : bytes) : result bytes :=
  let name := default server_addr (pe_ip pe server_addr) in
  if pe_server_name pe name then Ok name else Err (b!"Invalid server name: " ++ server_addr).

(** Which bytes were sent to the server before the streams were joined, and the join of the
    proxy connection (A) with the local service (B), if it came to that. *)
Record TunnelEnd := mkTunnel { tn_sent : bytes; tn_join : option Join; tn_result : result () }.

Definition err_local : bytes := b!"Failed to connect to local service".
Definition err_join : bytes := b!"Error joining streams".

Definition notify (pe : ProxyEnv) (proxy_conn_id : bytes) : bytes :=
  match write_command (V1 (NewProxyConn proxy_conn_id)) with
  | Ok b => if pe_notified pe then b else []
  | Err _ => []
  end.

(** From the notification on; a failed one is only logged. [eof_is_ok]: the end of a stream
    in the middle of a TLS record is not an error. *)
Definition run_tunnel (pe : ProxyEnv) (proxy_conn_id : bytes) (eof_is_ok : bool) : TunnelEnd :=
  let sent := notify pe proxy_conn_id in
  if negb (pe_local pe) then mkTunnel sent None (Err err_local)
  else
    let j := join_streams (pe_events pe) in
    mkTunnel sent (Some j)
      (match j_result j with
       | Some (CopyErr UnexpectedEof) => if eof_is_ok then Ok () else Err err_join
       | Some (CopyErr OtherError) => Err err_join
       | _ => Ok ()
       end).

(** With the first certificate of the chain as the only root. *)
Definition create_proxy_connection (pe : ProxyEnv) (server_addr cert_chain_path proxy_conn_id : bytes)
    : TunnelEnd :=
  let failed e := mkTunnel [] None (Err e) in
  if negb (pe_resolves pe) then failed b!"Invalid server address or port"
  else if negb (pe_connects pe) then failed b!"connect"
  else match load_root_cert pe cert_chain_path with
  | Err e => failed e
  | Ok certs =>
      let roots := take 1 certs in
      match tls_name pe server_addr with
      | Err e => failed e
      | Ok name =>
          if negb (pe_tls pe roots name) then failed b!"Failed to connect to proxy port"
          else run_tunnel pe proxy_conn_id true
      end
  end.

(** On Android: without TLS. *)
Definition create_proxy_connection_android (pe : ProxyEnv) (proxy_conn_id : bytes) : TunnelEnd :=
  let failed e := mkTunnel [] None (Err e) in
  if negb (pe_resolves pe) then failed b!"Invalid server address or port"
  else if negb (pe_connects pe) then failed b!"connect"
  else run_tunnel pe proxy_conn_id false.

(** The control connection of a device. [Some roots_and_name]: over TLS. *)
Definition connect_control_stream (pe : ProxyEnv) (android control_tls : bool)
    (server_addr cert_chain_path : bytes) (control_tls_server_name : option bytes) (root_ok : bytes -> bool)
    : result (option (list bytes * bytes)) :=
  if negb (pe_connects pe) then Err b!"connect"
  else if negb control_tls then Ok None
  else if android
  then Err b!"control TLS in handle_tcp is not available for Android target; use the mobile TLS SDK entrypoint"
  else match load_root_cert pe cert_chain_path with
  | Err e => Err e
  | Ok certs =>
      if negb (forallb root_ok certs) then Err b!"invalid root certificate"
      else
        let server_name := default server_addr control_tls_server_name in
        if negb (pe_server_name pe server_name) then Err (b!"Invalid control TLS server name: " ++ server_name)
        else if negb (pe_tls pe certs server_name) then Err b!"tls"
        else Ok (Some (certs, server_name))
  end.

(** ** The server's side *)

(** A proxy connection: its first command is read from what the device sent; the request
    bytes are replayed ([replayed]: whether they could be written; a failure is ignored),
    then the user's stream (A) and the proxy connection (B) are joined. [None]: no request is
    parked under the id. *)
Definition serve_proxy (proxy : Z) (sent : bytes) (replayed : bool) (events : list (Side * CopyEvent))
    (a : AgentState) : AgentState * option (bytes * Join) :=
  match (read_command sent).1 with
  | Err _ => (a, None)
  | Ok first =>
      let a' := handle_proxy_connection proxy (Some first) a in
      match first with
      | V1 (NewProxyConn id) =>
          match pending_connections a !! id with
          | Some (_, buf) => (a', Some (if replayed then buf else [], join_streams events))
          | None => (a', None)
          end
      | _ => (a', None)
      end
  end.
End Device.

(** ** Facts *)

(** *** One direction *)

Record copy_ok (c : Copy) : Prop := {
  co_prefix : c_written c `prefix_of` c_read c;
  co_all : c_done c = Some CopyOk -> c_written c = c_read c /\ c_eof c = true;
  co_shut : c_shut c = true -> c_done c <> None }.

Lemma copy_start_ok : copy_ok copy_start.
Proof. split; [done|discriminate|discriminate]. Qed.

Lemma prefix_all (s t : bytes) : s `prefix_of` t -> (length t <= length s)%nat -> s = t.
Proof. intros [k ->] Hl. rewrite length_app in Hl. assert (k = []) as -> by (destruct k; [done|cbn in Hl; lia]). by rewrite app_nil_r. Qed.

Lemma take_prefix (n : nat) (s : bytes) : take n s `prefix_of` s.
Proof. exists (drop n s). by rewrite take_drop. Qed.

Lemma settle_ok read written eof : written `prefix_of` read ->
  copy_ok (mkCopy read written eof (if eof && bool_decide (length read <= length written)%nat then Some CopyOk else None) false).
Proof.
  intros Hp. split; cbn; [done| |done]. destruct eof; [|done]. cbn [andb]. case_bool_decide as E; [|done].
  intros _. split; [by apply prefix_all|done].
Qed.

Lemma copy_step_ok e c : copy_ok c -> copy_ok (copy_step e c).
Proof.
  intros H. pose proof H as [P A S]. unfold copy_step. destruct (c_done c) as [r|] eqn:D.
  { by destruct e. }
  destruct e as [b| |err|n|err|]; try done.
  - destruct (c_eof c); [done|]. apply settle_ok. by apply prefix_app_r.
  - by apply settle_ok.
  - apply settle_ok, take_prefix.
Qed.

(** What a direction has read and written only grows. *)
Lemma copy_step_grows e c : c_read c `prefix_of` c_read (copy_step e c).
Proof.
  unfold copy_step. destruct (c_done c); [by destruct e|]. destruct e; try done.
  destruct (c_eof c); [done|]. cbn. by apply prefix_app_r.
Qed.

(** *** Both directions *)

Record join_ok (j : Join) : Prop := {
  jo_ab : copy_ok (a_to_b j);
  jo_ba : copy_ok (b_to_a j);
  jo_result : j_result j = None \/ j_result j = finished (a_to_b j) \/ j_result j = finished (b_to_a j) }.

Lemma join_streams_ok events : join_ok (join_streams events).
Proof.
  unfold join_streams. assert (join_ok join_start) as H by (split; [apply copy_start_ok..|by left]).
  revert H. generalize join_start. induction events as [|[[] e] events IH]; intros j H; cbn [fold_left]; [done|..].
  all: apply IH; unfold join_step; destruct (j_result j) eqn:R; [done|]; destruct H as [A B _].
  - split; cbn; [by apply copy_step_ok|done|by right; left].
  - split; cbn; [done|by apply copy_step_ok|by right; right].
Qed.

(** The join ended by one direction: it has delivered everything its source gave, the source
    has ended and the sink is shut down. *)
Lemma join_end_complete events : j_result (join_streams events) = Some CopyOk ->
  let j := join_streams events in
  exists c, (c = a_to_b j \/ c = b_to_a j) /\ c_written c = c_read c /\ c_eof c = true /\ c_shut c = true.
Proof.
  intros R. destruct (join_streams_ok events) as [A B [N|[E|E]]]; rewrite R in *; [done|..];
    symmetry in E; unfold finished in E.
  - exists (a_to_b (join_streams events)). split; [by left|]. destruct (c_shut _) eqn:S; [|done].
    destruct (co_all _ A E). by split_and!.
  - exists (b_to_a (join_streams events)). split; [by right|]. destruct (c_shut _) eqn:S; [|done].
    destruct (co_all _ B E). by split_and!.
Qed.

(** *** From the user to the local service and back *)

Section Chain.
Context `{C : Codec} `{CL : !CodecLaws C}.

(** A device that joins its streams has notified the server first, as far as it could. *)
Lemma tunnel_runs pe server_addr cert id j :
  tn_join (create_proxy_connection pe server_addr cert id) = Some j
  \/ tn_join (create_proxy_connection_android pe id) = Some j ->
  pe_connects pe = true /\ pe_local pe = true /\ j = join_streams (pe_events pe).
Proof.
  assert (forall b, tn_join (run_tunnel pe id b) = Some j -> pe_local pe = true /\ j = join_streams (pe_events pe)) as R.
  { intros b. unfold run_tunnel. destruct (pe_local pe); cbn; [by intros [= <-]|done]. }
  unfold create_proxy_connection, create_proxy_connection_android.
  destruct (pe_resolves pe); [|by intros []]. destruct (pe_connects pe); [|by intros []]. cbn [negb].
  intros [H|H]; [|by split; [|apply R in H]].
  destruct (load_root_cert pe cert); [|done]. destruct (tls_name pe server_addr); [|done].
  destruct (negb _); [done|]. by split; [|apply R in H].
Qed.

Lemma sent_notify pe server_addr cert id j :
  tn_join (create_proxy_connection pe server_addr cert id) = Some j ->
  tn_sent (create_proxy_connection pe server_addr cert id) = notify pe id.
Proof.
  unfold create_proxy_connection. destruct (pe_resolves pe); [|done]. destruct (pe_connects pe); [|done]. cbn [negb].
  destruct (load_root_cert pe cert); [|done]. destruct (tls_name pe server_addr); [|done].
  destruct (negb (pe_tls _ _ _)); [done|]. unfold run_tunnel. by destruct (pe_local pe).
Qed.

(** What a chain of two joins carries: [sent] before the second one, then the first one's
    output; [c1] is the direction of the join nearer the source, [c2] of the other. *)
Lemma chain_carries (sent : bytes) (c1 c2 : Copy) : copy_ok c1 -> copy_ok c2 ->
  c_read c2 `prefix_of` sent ++ c_written c1 ->
  c_written c2 `prefix_of` sent ++ c_read c1
  /\ (c_done c1 = Some CopyOk -> c_done c2 = Some CopyOk -> c_read c2 = sent ++ c_written c1 ->
      c_written c2 = sent ++ c_read c1).
Proof.
  intros [P1 A1 _] [P2 A2 _] Hnet. split.
  - etrans; [exact P2|]. etrans; [exact Hnet|]. by apply prefix_app.
  - intros D1 D2 E. destruct (A1 D1) as [W1 _], (A2 D2) as [W2 _]. by rewrite W2, E, W1.
Qed.

(** A parked public request becomes a tunnel. When the device that was asked joins its
    streams, and its notification was written, the server pairs that connection with the
    request, once, and replays the bytes it has read of it. From then on, however reading and
    writing interleave on the two joins and whatever the network holds back, the local service
    gets the replayed bytes and then the user's further ones, and the user gets what the local
    service sends: in order, without loss or repetition up to where a join ends, and
    completely in the direction in which both joins came to their regular end. *)
Theorem tunnel_carries_request (pe : ProxyEnv) (server_addr cert id frame later buf : bytes) (user proxy : Z)
    (jd : Join) (events : list (Side * CopyEvent)) (a : AgentState) :
  tn_join (create_proxy_connection pe server_addr cert id) = Some jd -> pe_notified pe = true ->
  encode_to_vec (V1 (NewProxyConn id)) = Some frame -> blen frame <= MAX_MESSAGE_SIZE ->
  pending_connections a !! id = Some (user, buf) ->
  exists js a',
    serve_proxy proxy (tn_sent (create_proxy_connection pe server_addr cert id) ++ later) true events a
      = (a', Some (buf, js))
    /\ joined a' = joined a ++ [(user, proxy, buf)]
    /\ (forall proxy2 events2,
          (serve_proxy proxy2 (tn_sent (create_proxy_connection pe server_addr cert id)) true events2 a').2 = None)
    /\ (c_read (a_to_b jd) `prefix_of` buf ++ c_written (a_to_b js) ->
        c_written (a_to_b jd) `prefix_of` buf ++ c_read (a_to_b js)
        /\ (c_done (a_to_b js) = Some CopyOk -> c_done (a_to_b jd) = Some CopyOk ->
            c_read (a_to_b jd) = buf ++ c_written (a_to_b js) ->
            c_written (a_to_b jd) = buf ++ c_read (a_to_b js)))
    /\ (c_read (b_to_a js) `prefix_of` c_written (b_to_a jd) ->
        c_written (b_to_a js) `prefix_of` c_read (b_to_a jd)
        /\ (c_done (b_to_a jd) = Some CopyOk -> c_done (b_to_a js) = Some CopyOk ->
            c_read (b_to_a js) = c_written (b_to_a jd) ->
            c_written (b_to_a js) = c_read (b_to_a jd))).
Proof.
  intros Hj Hn He Hl Hp.
  assert (tn_sent (create_proxy_connection pe server_addr cert id) = be_bytes 4 (blen frame) ++ frame) as Hs.
  { rewrite (sent_notify _ _ _ _ _ Hj). unfold notify, write_command. rewrite He, Hn.
    pose proof (blen_nonneg frame). rewrite wrap_small by (unfold in_u, MAX_MESSAGE_SIZE in *; lia).
    by rewrite (proj2 (Z.ltb_ge MAX_MESSAGE_SIZE (blen frame))) by lia. }
  assert (forall rest, (read_command (tn_sent (create_proxy_connection pe server_addr cert id) ++ rest)).1
    = Ok (V1 (NewProxyConn id))) as Hr by (intros rest; by rewrite Hs, (read_command_frame _ _ rest He Hl)).
  destruct (tunnel_runs pe server_addr cert id jd (or_introl Hj)) as (_ & _ & ->).
  destruct (join_streams_ok (pe_events pe)) as [Dab Dba _]. destruct (join_streams_ok events) as [Sab Sba _].
  unfold serve_proxy at 1. rewrite Hr, Hp. cbn [handle_proxy_connection]. rewrite Hp.
  eexists (join_streams events), _. split; [done|]. split; [done|]. split; [|split].
  - intros proxy2 events2. unfold serve_proxy. rewrite <- (app_nil_r (tn_sent _)), Hr. cbn [pending_connections].
    by rewrite lookup_delete_eq.
  - intros Hnet. exact (chain_carries buf _ _ Sab Dab Hnet).
  - intros Hnet. exact (chain_carries [] _ _ Dba Sba Hnet).
Qed.

(** A device whose local service cannot be reached has already taken the request: the server
    pairs the connection with it, replays it into a connection that ends, and the user gets
    no answer. *)
Lemma unreachable_service_takes_request pe server_addr cert id frame buf user proxy events a :
  pe_resolves pe = true -> pe_connects pe = true -> (exists certs, load_root_cert pe cert = Ok certs
    /\ exists name, tls_name pe server_addr = Ok name /\ pe_tls pe (take 1 certs) name = true) ->
  pe_notified pe = true -> pe_local pe = false ->
  encode_to_vec (V1 (NewProxyConn id)) = Some frame -> blen frame <= MAX_MESSAGE_SIZE ->
  pending_connections a !! id = Some (user, buf) ->
  let t := create_proxy_connection pe server_addr cert id in
  tn_result t = Err err_local /\ tn_join t = None
  /\ pending_connections (serve_proxy proxy (tn_sent t) true events a).1 = delete id (pending_connections a).
Proof.
  intros Hr Hc (certs & Hce & name & Hna & Htl) Hn Hl He Hlen Hp. cbn zeta.
  assert (create_proxy_connection pe server_addr cert id = mkTunnel (be_bytes 4 (blen frame) ++ frame) None (Err err_local)) as ->.
  { unfold create_proxy_connection. rewrite Hr, Hc, Hce, Hna, Htl. cbn [negb]. unfold run_tunnel, notify, write_command.
    rewrite Hl, He, Hn. cbn [negb]. pose proof (blen_nonneg frame).
    rewrite wrap_small by (unfold in_u, MAX_MESSAGE_SIZE in *; lia).
    by rewrite (proj2 (Z.ltb_ge MAX_MESSAGE_SIZE (blen frame))) by lia. }
  split; [done|]. split; [done|]. cbn [tn_sent]. unfold serve_proxy.
  rewrite <- (app_nil_r (be_bytes 4 (blen frame) ++ frame)), (read_command_frame _ _ [] He Hlen).
  cbn [fst handle_proxy_connection]. by rewrite !Hp.
Qed.
End Chain.

(** A user that closes its sending side after the request loses the answer: the direction to
    the service is complete, and ends the join before the other has carried anything. *)
Lemma half_close_loses_answer (request answer : bytes) : request <> [] ->
  let j := join_streams [(AtoB, CRead request); (AtoB, CWrite (length request)); (AtoB, CEof); (AtoB, CShut);
                         (BtoA, CRead answer); (BtoA, CWrite (length answer))] in
  j_result j = Some CopyOk /\ c_written (a_to_b j) = request /\ c_written (b_to_a j) = [].
Proof.
  intros Hne. cbn. rewrite !firstn_all. rewrite bool_decide_true by lia. cbn. done.
Qed.

(** ** A request through the tunnel *)

Section Demo.
Definition proxy_codec : Codec := {|
  encode_to_vec c := match c with V1 (NewProxyConn id) => Some id | _ => None end;
  decode_from_slice b := Some (V1 (NewProxyConn b), length b) |}.

Lemma proxy_codec_laws : @CodecLaws proxy_codec.
Proof. intros c b. destruct c as [[]|]; cbn; try done. by intros [= ->]. Qed.

Definition demo_id : bytes := replicate 16 Byte.x07.

(** The service answers "pong" to "ping!", of which the server had read "pi". *)
Definition demo_env : ProxyEnv := {|
  pe_resolves := true; pe_connects := true; pe_pem := fun _ => Ok [b!"root"];
  pe_ip := fun _ => None; pe_server_name := fun _ => true; pe_tls := fun _ _ => true;
  pe_notified := true; pe_local := true;
  pe_events := [(AtoB, CRead b!"pin"); (AtoB, CWrite 2); (AtoB, CRead b!"g!"); (AtoB, CWrite 3);
                (BtoA, CRead b!"pong"); (BtoA, CWrite 4); (BtoA, CEof); (BtoA, CShut)] |}.

Definition demo_user_events : list (Side * CopyEvent) :=
  [(AtoB, CRead b!"ng!"); (AtoB, CWrite 3); (BtoA, CRead b!"po"); (BtoA, CRead b!"ng"); (BtoA, CWrite 4);
   (BtoA, CEof); (BtoA, CShut)].

Definition demo_agent : AgentState :=
  mkAgent (scheduler_new ∅) {[demo_id := (5, b!"pi")]} [] [] [].

Lemma tunnel_carries_request_witness :
  exists js a',
    @serve_proxy proxy_codec 9 (tn_sent (@create_proxy_connection proxy_codec demo_env b!"gpuf" b!"ca.pem" demo_id) ++ []) true
      demo_user_events demo_agent = (a', Some (b!"pi", js))
    /\ joined a' = [(5, 9, b!"pi")]
    /\ c_written (a_to_b (join_streams (pe_events demo_env))) `prefix_of` b!"pi" ++ c_read (a_to_b js)
    /\ c_written (b_to_a js) = b!"pong".
Proof.
  destruct (@tunnel_carries_request proxy_codec proxy_codec_laws demo_env b!"gpuf" b!"ca.pem" demo_id demo_id []
    b!"pi" 5 9 (join_streams (pe_events demo_env)) demo_user_events demo_agent)
    as (js & a' & E & J & _ & R & A); [by vm_compute|reflexivity|reflexivity|by vm_compute|by vm_compute|].
  exists js, a'. assert (js = join_streams demo_user_events) as Ej.
  { vm_compute in E. injection E as _ <-. vm_compute. reflexivity. }
  split; [exact E|]. split; [exact J|]. split.
  - apply R. rewrite Ej. vm_compute. by exists [].
  - rewrite Ej. vm_compute. reflexivity.
Defined.
End Demo.
